(* ===== verification/_CoqProject ===== *)
-Q . S2P
Prelude.v
GoStrings.v
GoURL.v
Errors.v
Resources.v
Policy.v
HttpErrors.v
Objects.v
ContentStore.v
ContentInvariant.v
ContentProperties.v
Canonical.v
Records.v
RecordMutations.v
RecordProperties.v
RecordUpdateProperties.v
RecordCollapse.v
Listing.v
ListingProperties.v
ContentReads.v
ContentPorts.v
ContentQueries.v
Catalog.v
CatalogListing.v
Transfer.v
Progress.v
Upload.v
UploadProperties.v
SingleUpload.v
Download.v
DownloadProperties.v
Address.v
Cipher.v
Buckets.v
CredentialStore.v
BucketProperties.v
CredentialProperties.v
BucketLifecycle.v
BucketCache.v
BucketVisibility.v
Paths.v
Targets.v
TargetProperties.v
Multipart.v
Attribution.v
AttributionProperties.v
Reports.v
FileUsage.v
UsageService.v
MetricsHandlers.v
MetricsProperties.v
AccessIssue.v
TransferHandlers.v
BucketHandlers.v
ScopeRepair.v
ScopeRepairProperties.v
StorageManager.v
StorageManagerProperties.v
ProjectStorage.v
ListValidationProperties.v
ProjectStorageProperties.v
Lfs.v
LfsHandlers.v
LfsProperties.v
LfsHandlerProperties.v
Authentication.v
Tokens.v
AuthenticationProperties.v
Disposition.v
GCSSigning.v
ObjectStores.v
ObjectStoreProperties.v
S3.v
S3Properties.v
Azure.v
