(* ===== verification/Prelude.v ===== *)
(** * Verification of the Syfon DRS server

    Syfon (module github.com/calypr/syfon) is a server for the GA4GH Data Repository Service with Gen3
    style authorization.  A request reaches an HTTP handler (internal/httpapi), whose context carries the
    session of the caller (internal/access); the handler calls the record service
    (internal/objects/records), which decides about access on the scopes of a record, and reads and writes
    the catalog through repository ports; the SQLite repository (internal/persistence/sqlite) implements the
    ports with transactions on a content-addressed schema; errors travel back as values and are turned into
    the public envelope by the error boundary (internal/httpapi/middleware/errors.go).  This library models
    that path from the policy to the tables, then the transfer engine of the Go client, which moves the
    bytes of an object between a file and a signed URL, then the buckets: the credentials of the storage
    providers, encrypted at rest, and the scopes that give each project a bucket and a prefix in it; and last the
    transfers of the server: where an object goes, which URLs are signed, how each access is recorded and what is
    reported of it; the storage of a project and its repair, LFS, how a request is authenticated, and the storage
    backends.  The order is that of
    the files below.

    ** Files
    - [Prelude]: results (a Go pair of a value and an error is a sum), loops with early exit and their
      invariant rules, deduplication, sorting, the unspecified iteration order of Go maps.
    - [GoStrings], [GoURL]: what the program uses of the packages strings and net/url, on byte strings: parsing,
      escaping by position, URLs back to text, queries.
    - [Errors]: apigen/errorapi/contract.go, internal/storage/errors.go, and the error types of
      internal/access/errors.go and internal/projects/storage/types.go.  Trees of wrapped and joined errors,
      [errors_Is], [CodeOf], [CategoryOf], the sentinels and the status tables.
    - [Resources]: client/access/resources.go.  Scope paths, claims and the authorizations map.
    - [Policy]: internal/access (session.go, policy.go, resources.go, errors.go).  The session and every
      access decision, as functions of the context.
    - [HttpErrors]: internal/httpapi/middleware/errors.go.  [ClassifyError], [Reject] and the envelope.
    - [Objects]: client/hash/oid.go and internal/objects.  The record, checksums and identifiers, names, the
      registration candidate, the metadata merges of update and registration.
    - [ContentStore]: internal/persistence/sqlite.  The tables as a record of maps, every transaction that
      changes them, the flush of usage events, the data source name.
    - [ContentInvariant]: the content identity invariant, [store_op] and [reachable] (the databases that
      sequences of transactions reach from the empty one), and its preservation.
    - [ContentProperties]: what the store guarantees, and what happens outside its assumptions.
    - [Canonical]: internal/objects/records/canonicalization.go.  Replicas of one content are presented as
      one record.
    - [Records]: ports.go, access_policy.go and lookup.go of the record service.  The class [RecordPorts] is
      the interface of the repository; a method is a function of the store state.
    - [RecordMutations]: registration, update, aliases, access policy, deletion, bulk overwrite, and the
      collapse of duplicates.
    - [RecordProperties], [RecordUpdateProperties], [RecordCollapse]: what the service guarantees for every
      implementation of the ports; the last one also runs it on a reference store.
    - [ContentReads]: object_hydration.go and object_reads.go of the SQLite repository.  Every read and
      listing of objects as a function of the tables.
    - [ContentPorts]: the repository as an instance of [RecordPorts] (function sqliteServerBackend of
      cmd/server/server.go), and what the service may rely on when it reads.
    - [ContentQueries]: keyset paging and the splitting of long lookups.
    - [Catalog]: the record service over the SQLite repository, end to end.
    - [Listing]: internal/objects/records/listing.go and the page parameters of
      internal/httpapi/records/lookup.go.  Listings, exact and collapsed pages, and the bulk lookups.
    - [ListingProperties]: what the listings guarantee for every implementation of the ports.
    - [CatalogListing]: the listings over the SQLite repository: the pages of prepared records.
    - [Transfer]: client/common/constants.go, client/transfer/retry.go and engine/chunk.go.  Retries, the part
      size, and the arithmetic of parts and ranges.
    - [Progress]: the trackers and readers of engine/progress_reader.go and the download progress reader.
    - [Upload], [UploadProperties]: the multipart upload of engine/uploader.go as a machine of events (workers,
      checkpoint, crash and resume), what it may complete, and that its runs end.
    - [SingleUpload]: the upload of a small file as one request, with retries and progress.
    - [Download], [DownloadProperties]: engine/downloader.go, the resumable single stream and the parallel
      ranges.
    - [Address]: internal/storage/address.  Providers and schemes, bucket names, object URLs, storage paths.
    - [Cipher]: internal/persistence/credentialcipher.  Envelope encryption over the classes [CryptoLib] and [KMS].
    - [Buckets]: internal/buckets.  Credentials, scopes, the cache of scopes, and the service over the class
      [BucketPorts].
    - [CredentialStore]: credentials.go and bucket_visibility.go of the SQLite repository, as an instance of it.
    - [BucketProperties], [CredentialProperties]: answers of the cache against any store that satisfies
      [BucketLaws], and that the SQLite tables do.
    - [BucketLifecycle]: saving a credential, removing a scope.  [BucketCache]: interleaved requests.
    - [BucketVisibility]: visibility.go: which buckets and which resources a caller sees.
    - [Paths]: path.Clean and path.Join on segments.
    - [Targets], [TargetProperties]: target.go, legacy_url.go and signing.go of internal/transfers.  Where an
      upload goes, what is signed for an object, over the class [TransferPorts].
    - [Multipart]: multipart.go and multipart_workflow.go.  The upload sessions as a machine of requests.
    - [Attribution], [AttributionProperties]: the events of internal/usage and their tables
      (sqlite/transfer_events.go): grants, provider events, start-up.
    - [Reports]: sqlite/transfer_reports.go.  The report queries as text with bound arguments.
    - [FileUsage]: sqlite/usage_accounting.go over the content store.
    - [UsageService]: usage/service.go over the class [ReportStore], with and without scoped queries.
    - [MetricsHandlers], [MetricsProperties]: internal/httpapi/metrics, from the authorization to the query.
    - [AccessIssue]: access_issuance.go and access_events.go of internal/transfers.
    - [TransferHandlers]: internal/httpapi/transfers.
    - [BucketHandlers]: internal/httpapi/buckets.
    - [ScopeRepair], [ScopeRepairProperties]: internal/objects/scoperepair.  The audit of the records of a project,
      the plan of a repair and its application, over classes for the catalog, the scopes and the prober.
    - [StorageManager], [StorageManagerProperties]: internal/storage (manager, registration, deletion, errors).  The
      choice of a provider for a bucket, batches of probes, bulk deletion.
    - [ProjectStorage]: internal/projects/storage.  Record audit, bucket inventory, existence probes, validation of
      listed items, deletion in the scope of a project, with their caches.
    - [ListValidationProperties], [ProjectStorageProperties]: what these promise: no effect and no question outside
      the prefix of the project, and answers that do not depend on the batch.
    - [Lfs], [LfsProperties]: internal/transfers/lfs and sqlite/lfs.go.  Staged metadata, preparation of downloads and
      uploads, the proxied upload in parts.
    - [LfsHandlers], [LfsHandlerProperties]: internal/httpapi/lfs: candidates, limits, batch and the other endpoints.
    - [Authentication], [AuthenticationProperties]: internal/access/authentication (config, builtin, local_csv,
      evaluate, runtime) and internal/httpapi/middleware/middleware.go: from a header to a session.
    - [Tokens]: jwks.go, token.go and token_auth.go of internal/access/authentication.
    - [Disposition]: internal/storage/filename.go, the header that names a download.
    - [GCSSigning]: signedURL of internal/storage/gcs/access.go, and what an address on an endpoint names.
    - [ObjectStores], [ObjectStoreProperties]: internal/storage/gcs, internal/storage/file, multipart.go.  Uploads whose
      parts are objects, joined by composition or by copying.
    - [S3], [S3Properties]: internal/storage/s3.  Clients, probes, listings with retries and replays, deletions.
    - [Azure]: internal/storage/azure.  Uploads whose parts are blocks of the blob.

    ** What the theorems show
    - End to end: what was registered is found under its identifier and under its id; a bulk deletion removes
      exactly what was asked for and may be deleted; pages enumerate a listing.
    - Content identity: in every reachable database a SHA-256 identifier has one owner, an object one
      identifier, and every id or alias that resolves leads to an object; registration is content-addressed.
    - Authorization: the exact meaning of each policy function; lookups are authorised on what they present;
      objects disappear only under the delete permission on each grant; registrations add only permitted
      grants; bulk operations are all or nothing, and the public flag is never lost.
    - Presentation: the collapse of replicas does not depend on their order, and the removal of duplicates
      keeps exactly one record per content, to which every removed id points.
    - Errors: the envelope is safe (no cause leaks, statuses come from the table), sentinels keep their code
      through any wrapping, not-found is recognised exactly.
    - Data: scope paths, claims and names round trip or are normalised as stated, checksum merges never lose
      a digest, usage counters are conserved.
    - Transfers: a multipart upload is completed only with the parts that make up the file, across crashes and
      resumptions; every run ends; a download leaves exactly the bytes of the object; progress reports add up.
    - Buckets: a bucket has one credential, stored encrypted and read back as saved; a scope lookup answers what
      the tables say, or what they said a bounded time ago when requests interleave; a credential goes with its
      last scope; a restricted caller sees only resources that its own access justifies; requests change nothing
      without a right on the scope they name.
    - Storage locations: an upload stays below the prefix of its project, and the object is read where it went;
      an upload session is completed at most once, and no completion waits for ever.
    - Usage: grants account for the events, each counted once; reports count what was recorded, and restricted
      callers get sums over rows they may read; a URL is handed out only after its access was recorded.
    - Projects: a batch of probes, validations or deletions has the answers of its items taken one by one; deletions
      and inspections stay below the prefix of the project; a repair leaves one location per content, and the audit
      before it reports every record.
    - LFS: a batch hands out URLs only where the caller has the right and the access is recorded; an upload sends its
      body in parts that make it up; staged metadata live for their time and are taken once; the limit of requests is
      exact.
    - Authentication: rights come from the file of users or from a token, exactly; a token is signed by the configured
      issuer; the keys of an issuer are loaded at a limited rate.
    - Storage backends: a completed upload is its parts in the order of their numbers; a listing that is reported as
      complete is a whole chain of pages, and ends where the service answers in time; a deletion removes the named
      objects and no other; an address on an endpoint names one object, and a header the name of the download.
    - By computation: inputs on which the code departs from what it means to do.

    ** Conventions
    Integers are [Z].  Sizes and times are int64 values that the catalog only compares, stores and adds one
    event at a time, so that no overflow is at stake there; where the code adds or multiplies lengths,
    offsets and counts, the result is wrapped to 64 bits ([wrap64]).  A run-time panic is the error [panic].
    Times are instants with Go's zero time at 0.  An error text is its format string.  A Go map is a [gmap], and a loop over it visits the list [go_range],
    an arbitrary permutation of its entries (class [MapOrder]), so that theorems hold for every order.  Loops
    are folds over the lists they visit.  Recursions with fuel split a list into chunks and take its length,
    which is enough because a chunk is not empty ([ContentQueries.chunks_of_concat]); an LFS upload takes one unit per byte
    of its body and one more, since no part is empty ([LfsProperties.upload_in_parts]); the rounds of a composition on GCS
    take the number of parts, since each leaves fewer objects ([ObjectStoreProperties.gcs_upload_assembled]); a listing in S3
    takes the number of its pages, where it ends ([S3Properties.listing_ends]); the loop that collects
    a page of prepared records takes one unit per raw page, and the size of the object table plus one is
    enough ([CatalogListing.prepared_page_exact]).  SHA-256 and name-based UUIDs are parameters (class
    [Digests]).  Cryptography, JSON and base64 of the credential envelope are classes whose laws are the documented
    ones, and randomness is an arbitrary function.  The tables s3_credential and bucket_scope are lists in the
    order in which a query without ORDER BY returns them; the clock is an argument of the operations that read it.
    A transaction that fails leaves the database as it was.
    A retried operation has [maxRetries + 1] attempts as fuel, which is what its loop makes.  A float64 result is
    rounded after each operation; its conversion to an integer is that of amd64.  The environment of a transfer
    (answers of the server, order of workers, crashes) is a list of events over which theorems quantify; the
    file does not change during an upload, and its size is below 2^60.

    ** Not modelled, and the plan
    The catalog, the buckets, the transfers, the projects, the storage backends, LFS and the authentication of the server are
    modelled with the engine of the client.  Plugins, the JWT library and the requests to an issuer are parameters.  Not modelled are the
    maintenance handlers and the codecs of records, which compose the services above; the SDKs of the providers, which
    appear as classes of operations; the PostgreSQL repository (the same
    contract as the SQLite one, in queries that only its engine can interpret; only the clause in which the two
    differ is modelled); generated code (apigen), configuration and the command line; and of the Go client
    everything but the scopes, the identifiers and the transfer engine. *)
From stdpp Require Export prelude gmap strings list sorting fin_maps pretty.

Declare Scope go_scope.
Delimit Scope go_scope with go.

(** ** Results: the pair (value, error) of a Go function, as a sum *)
Inductive result (E A : Type) : Type :=
  | Ok (a : A)
  | Err (e : E).
Arguments Ok {E A} a.
Arguments Err {E A} e.

#[export] Instance result_ret E : MRet (result E) := λ A a, Ok a.
#[export] Instance result_bind E : MBind (result E) := λ A B f m,
  match m with Ok a => f a | Err e => Err e end.
#[export] Instance result_fmap E : FMap (result E) := λ A B f m,
  match m with Ok a => Ok (f a) | Err e => Err e end.

Definition is_ok {E A} (r : result E A) : bool :=
  match r with Ok _ => true | Err _ => false end.

Section result.
Context {E : Type}.

Lemma bind_Ok {A B} (m : result E A) (f : A → result E B) b :
  m ≫= f = Ok b ↔ ∃ a, m = Ok a ∧ f a = Ok b.
Proof. destruct m; simpl; naive_solver. Qed.

Lemma bind_Err {A B} (m : result E A) (f : A → result E B) e :
  m ≫= f = Err e ↔ m = Err e ∨ ∃ a, m = Ok a ∧ f a = Err e.
Proof. destruct m; simpl; naive_solver. Qed.
End result.

(** Left fold with early exit: a Go [for range] loop whose body may return an error. *)
Fixpoint foldlM {E A S} (f : S → A → result E S) (s : S) (l : list A) : result E S :=
  match l with
  | [] => Ok s
  | a :: l => s' ← f s a; foldlM f s' l
  end.

Section foldlM.
Context {E A S : Type} (f : S → A → result E S).

Lemma foldlM_app s l1 l2 :
  foldlM f s (l1 ++ l2) = foldlM f s l1 ≫= λ s', foldlM f s' l2.
Proof. revert s. induction l1 as [|a l1 IH]; intros s; simpl; [done|]. by destruct (f s a); simpl. Qed.

(** Loop invariant rule. *)
Lemma foldlM_inv (P : S → Prop) s l s' :
  P s → (∀ s a s', a ∈ l → P s → f s a = Ok s' → P s') →
  foldlM f s l = Ok s' → P s'.
Proof.
  revert s. induction l as [|a l IH]; intros s Hs Hstep; simpl.
  { by intros [= ->]. }
  rewrite bind_Ok. intros (s1 & H1 & H2). apply (IH s1); [|set_solver|done].
  eapply Hstep; [|done|done]; set_solver.
Qed.

(** Loop invariant rule with the list of elements already processed. *)
Lemma foldlM_inv_prefix (P : list A → S → Prop) s l s' :
  P [] s →
  (∀ done a s s', P done s → f s a = Ok s' → P (done ++ [a]) s') →
  foldlM f s l = Ok s' → P l s'.
Proof.
  intros H0 Hstep. assert (∀ pre s, P pre s → foldlM f s l = Ok s' → P (pre ++ l) s') as Hgen.
  { induction l as [|a l IH]; intros pre s1 Hs1; simpl.
    { intros [= ->]. by rewrite app_nil_r. }
    rewrite bind_Ok. intros (s2 & H1 & H2).
    rewrite cons_middle, (assoc_L (++)). apply (IH (pre ++ [a]) s2); eauto. }
  by apply (Hgen []).
Qed.
End foldlM.

(** Inverts hypotheses about results that reduce to a bind. *)
Ltac inv_ok :=
  repeat match goal with
  | H : Ok _ = Ok _ |- _ => injection H as H; subst
  | H : Err _ = Err _ |- _ => injection H as H; subst
  | H : Ok _ = Err _ |- _ => discriminate H
  | H : Err _ = Ok _ |- _ => discriminate H
  | H : mbind _ _ = Ok _ |- _ => apply bind_Ok in H as (? & ? & H)
  | H : mret _ = Ok _ |- _ => unfold mret, result_ret in H
  | H : (if ?b then _ else _) = Ok _ |- _ => destruct b eqn:?
  | H : match ?x with _ => _ end = Ok _ |- _ => destruct x eqn:?
  end.

(** ** The idiom [seen := map[string]struct{}{}]: keep the first element per key *)
Section dedup.
Context {A : Type} (key : A → string).

Fixpoint dedup_go (seen : gset string) (l : list A) : list A :=
  match l with
  | [] => []
  | x :: l =>
      if decide (key x ∈ seen) then dedup_go seen l
      else x :: dedup_go ({[key x]} ∪ seen) l
  end.
Definition dedup_on : list A → list A := dedup_go ∅.

Lemma elem_of_dedup_go seen l x :
  x ∈ dedup_go seen l → x ∈ l ∧ key x ∉ seen.
Proof.
  revert seen. induction l as [|y l IH]; intros seen; simpl; [set_solver|].
  case_decide as Hy.
  - intros [??]%IH. set_solver.
  - rewrite elem_of_cons. intros [->|[??]%IH]; set_solver.
Qed.

Lemma dedup_go_complete seen l x :
  x ∈ l → key x ∉ seen → ∃ y, y ∈ dedup_go seen l ∧ key y = key x.
Proof.
  revert seen. induction l as [|y l IH]; intros seen Hx Hs; simpl; [set_solver|].
  case_decide as Hy.
  - apply elem_of_cons in Hx as [->|Hx]; [done|]. by apply IH.
  - destruct (decide (key x = key y)) as [Heq|Hne].
    { exists y. split; [set_solver|done]. }
    apply elem_of_cons in Hx as [->|Hx]; [done|].
    destruct (IH ({[key y]} ∪ seen)) as (z & Hz & ?); [done|set_solver|].
    exists z. set_solver.
Qed.

Lemma NoDup_dedup_go seen l : NoDup (key <$> dedup_go seen l).
Proof.
  revert seen. induction l as [|x l IH]; intros seen; simpl; [constructor|].
  case_decide; [done|]. simpl. constructor; [|done].
  intros (y & ? & Hy)%list_elem_of_fmap. apply elem_of_dedup_go in Hy. set_solver.
Qed.

Lemma dedup_go_sublist seen l : dedup_go seen l `sublist_of` l.
Proof.
  revert seen. induction l as [|x l IH]; intros seen; simpl; [constructor|].
  case_decide; by constructor.
Qed.

Lemma dedup_go_id seen l :
  NoDup (key <$> l) → (∀ x, x ∈ l → key x ∉ seen) → dedup_go seen l = l.
Proof.
  revert seen. induction l as [|x l IH]; intros seen Hnd Hs; simpl; [done|].
  apply NoDup_cons in Hnd as [Hx Hnd]. rewrite decide_False by set_solver.
  f_equal. apply IH; [done|]. intros y Hy. apply not_elem_of_union. split; [|set_solver].
  rewrite elem_of_singleton. intros Heq. apply Hx. rewrite <- Heq. by apply list_elem_of_fmap_2.
Qed.

Lemma elem_of_dedup_on l x : x ∈ dedup_on l → x ∈ l.
Proof. intros H. by apply elem_of_dedup_go in H as [??]. Qed.
Lemma dedup_on_complete l x : x ∈ l → ∃ y, y ∈ dedup_on l ∧ key y = key x.
Proof. intros. apply dedup_go_complete; set_solver. Qed.
Lemma NoDup_dedup_on l : NoDup (key <$> dedup_on l).
Proof. apply NoDup_dedup_go. Qed.
Lemma dedup_on_id l : NoDup (key <$> l) → dedup_on l = l.
Proof. intros. apply dedup_go_id; set_solver. Qed.
Lemma dedup_on_idemp l : dedup_on (dedup_on l) = dedup_on l.
Proof. apply dedup_on_id, NoDup_dedup_on. Qed.
End dedup.

(** Deduplication of strings by themselves. *)
Abbreviation dedup := (dedup_on (λ s : string, s)).

Lemma elem_of_dedup (l : list string) s : s ∈ dedup l ↔ s ∈ l.
Proof.
  split; [apply elem_of_dedup_on|]. intros Hs.
  destruct (dedup_on_complete (λ s, s) l s Hs) as (y & Hy & ->). done.
Qed.
Lemma NoDup_dedup (l : list string) : NoDup (dedup l).
Proof. generalize (NoDup_dedup_on (λ s, s) l). by rewrite list_fmap_id. Qed.
Lemma dedup_id (l : list string) : NoDup l → dedup l = l.
Proof. intros. apply dedup_on_id. by rewrite list_fmap_id. Qed.

(** A list without repetition whose elements are all [a]. *)
Lemma NoDup_all_equal {A} (l : list A) (a : A) : NoDup l → (∀ x, x ∈ l → x = a) → l = [] ∨ l = [a].
Proof.
  destruct l as [|x [|y l]]; intros Hnd Hall; [by left|right; by rewrite (Hall x) by by left|].
  exfalso. apply NoDup_cons in Hnd as [Hnd _]. apply Hnd.
  rewrite (Hall x), (Hall y); [by left|right; by left|by left].
Qed.

(** ** Concatenation *)
Lemma elem_of_concat {A} (ls : list (list A)) x : x ∈ concat ls ↔ ∃ l, l ∈ ls ∧ x ∈ l.
Proof. rewrite !list_elem_of_In, in_concat. by setoid_rewrite list_elem_of_In. Qed.

(** ** Sorting: [sort.Strings] and [sort.Slice] *)
Definition sort_Strings : list string → list string := merge_sort String.le.

Lemma sort_Strings_Permutation l : sort_Strings l ≡ₚ l.
Proof. apply merge_sort_Permutation. Qed.
Lemma elem_of_sort_Strings l s : s ∈ sort_Strings l ↔ s ∈ l.
Proof. by rewrite sort_Strings_Permutation. Qed.
Lemma NoDup_sort_Strings l : NoDup l → NoDup (sort_Strings l).
Proof. by rewrite sort_Strings_Permutation. Qed.
Lemma sort_Strings_sorted l : StronglySorted String.le (sort_Strings l).
Proof. apply (StronglySorted_merge_sort _). Qed.
Lemma sort_Strings_unique l l' :
  StronglySorted String.le l' → l' ≡ₚ l → sort_Strings l = l'.
Proof.
  intros Hs Hp. apply (StronglySorted_unique String.le); [apply sort_Strings_sorted|done|].
  by rewrite sort_Strings_Permutation.
Qed.
#[export] Instance sort_Strings_proper : Proper ((≡ₚ) ==> (=)) sort_Strings.
Proof.
  intros l1 l2 Hl. apply sort_Strings_unique; [apply sort_Strings_sorted|].
  by rewrite sort_Strings_Permutation.
Qed.

(** The strict order of strings. *)
Lemma ltb_leb s t : String.ltb s t = negb (String.leb t s).
Proof. unfold String.ltb, String.leb. rewrite (String.compare_antisym t s). by destruct (String.compare s t). Qed.
Lemma leb_le s t : String.leb s t = true ↔ String.le s t.
Proof. unfold String.le. by rewrite Is_true_true. Qed.
Lemma ltb_spec s t : String.ltb s t = true ↔ String.le s t ∧ s ≠ t.
Proof.
  rewrite ltb_leb, negb_true_iff, <- not_true_iff_false, leb_le. split.
  - intros Hn. split; [by destruct (total String.le s t)|]. by intros ->.
  - intros [Hle Hne] Hge. by apply Hne, (anti_symm String.le).
Qed.
Lemma ltb_trans s t u : String.ltb s t = true → String.ltb t u = true → String.ltb s u = true.
Proof.
  rewrite !ltb_spec. intros [L1 N1] [L2 N2]. split; [by etrans|]. intros ->. by apply N2, (anti_symm String.le).
Qed.
Lemma sorted_filter l p : StronglySorted String.le l → StronglySorted String.le (filter (λ s, p s = true) l).
Proof.
  induction 1 as [|s l Hs IH Hall]; [constructor|]. rewrite filter_cons. case_decide; [|done]. constructor; [done|].
  rewrite Forall_forall in *. intros x [_ Hx]%list_elem_of_filter. by apply Hall.
Qed.
(** Past an element of a strictly sorted list comes the rest of the list. *)
Lemma filter_ltb_suffix l1 x l2 :
  StronglySorted String.le (l1 ++ x :: l2) → NoDup (l1 ++ x :: l2) →
  filter (λ s, String.ltb x s = true) (l1 ++ x :: l2) = l2.
Proof.
  intros Hs Hnd. rewrite filter_app, filter_cons_False.
  2: { rewrite ltb_spec. naive_solver. }
  apply NoDup_app in Hnd as (_ & Hdisj & Hnd). apply NoDup_cons in Hnd as [Hx _].
  assert (filter (λ s, String.ltb x s = true) l1 = []) as ->.
  { apply elem_of_nil_inv; intros y [Hlt Hy]%list_elem_of_filter. apply ltb_spec in Hlt as [Hle Hne]. apply Hne.
    apply (anti_symm String.le); [done|]. clear -Hs Hy. induction l1 as [|z l1 IH]; [by apply elem_of_nil in Hy|].
    apply StronglySorted_inv in Hs as [Hs Hz]. apply elem_of_cons in Hy as [->|Hy]; [|by apply IH].
    rewrite Forall_forall in Hz. apply Hz. apply elem_of_app. right. by left. }
  rewrite app_nil_l. clear Hdisj. induction l1 as [|z l1 IH]; [|apply IH; apply StronglySorted_inv in Hs; apply Hs].
  apply StronglySorted_inv in Hs as [_ Hx']. induction l2 as [|y l2 IH]; [done|].
  rewrite Forall_cons in Hx'. rewrite not_elem_of_cons in Hx. rewrite filter_cons_True; [f_equal; apply IH; tauto|].
  apply ltb_spec. naive_solver.
Qed.

(** [sort.Slice] with the comparator [less]: a stable merge sort.  The order of elements that
    compare equal both ways is not specified by Go, and no theorem depends on it. *)
Section sort_Slice.
Context {A : Type} (less : A → A → bool).
Definition not_after (x y : A) : Prop := less y x = false.
#[global] Instance not_after_dec : RelDecision not_after.
Proof. intros x y. unfold not_after. apply _. Defined.
Definition sort_Slice : list A → list A := merge_sort not_after.
Lemma sort_Slice_Permutation l : sort_Slice l ≡ₚ l.
Proof. apply merge_sort_Permutation. Qed.
End sort_Slice.
#[global] Typeclasses Opaque not_after.

(** ** Integers of 64 bits: the value of a sum or product of Go ints, given its exact value *)
Definition wrap64 (z : Z) : Z := ((z + 2 ^ 63) mod 2 ^ 64 - 2 ^ 63)%Z.
Definition int64 (z : Z) : Prop := (- 2 ^ 63 <= z < 2 ^ 63)%Z.
Lemma wrap64_id z : int64 z → wrap64 z = z.
Proof. unfold int64, wrap64. intros Hz. rewrite Z.mod_small; lia. Qed.
Lemma wrap64_int64 z : int64 (wrap64 z).
Proof. unfold int64, wrap64. pose proof (Z.mod_pos_bound (z + 2 ^ 63) (2 ^ 64)). lia. Qed.

(** ** Filters that keep everything or nothing *)
Lemma filter_all_True {A} (P : A → Prop) `{!∀ x, Decision (P x)} (l : list A) : (∀ x, x ∈ l → P x) → filter P l = l.
Proof.
  intros HP. induction l as [|x l IH]; [done|]. rewrite filter_cons_True by (apply HP; by left).
  f_equal. apply IH. intros y Hy. apply HP. by right.
Qed.
Lemma filter_all_False {A} (P : A → Prop) `{!∀ x, Decision (P x)} (l : list A) : (∀ x, x ∈ l → ¬ P x) → filter P l = [].
Proof. intros Hl. apply elem_of_nil_inv. intros x [Hp Hx]%list_elem_of_filter. by apply (Hl x). Qed.

(** ** Iteration over Go maps
    The order in which [range] visits a map is unspecified.  [go_range] stands for the order
    the runtime picks: theorems hold for every choice. *)
Class MapOrder := {
  go_range : ∀ V : Type, gmap string V → list (string * V);
  go_range_perm : ∀ V (m : gmap string V), go_range V m ≡ₚ map_to_list m
}.
Arguments go_range {_ V} m.

Definition canonical_order : MapOrder := {|
  go_range := λ V m, map_to_list m; go_range_perm := λ V m, reflexivity _ |}.

Lemma elem_of_go_range `{MapOrder} {V} (m : gmap string V) k v :
  (k, v) ∈ go_range m ↔ m !! k = Some v.
Proof. rewrite go_range_perm. apply elem_of_map_to_list. Qed.
Lemma NoDup_fst_go_range `{MapOrder} {V} (m : gmap string V) : NoDup (go_range m).*1.
Proof. rewrite go_range_perm. apply NoDup_fst_map_to_list. Qed.

(** ** Hints shared by the development *)
Create HintDb go discriminated.
#[export] Hint Resolve sort_Strings_sorted NoDup_dedup NoDup_sort_Strings : go.
