(* ===== verification/GoStrings.v ===== *)
(** * Go strings and the package strings
    A Go string is a sequence of bytes: here a [string] of 8-bit characters.  Comparison is
    bytewise.  [TrimSpace] removes exactly the Unicode white space, encoded in UTF-8.
    [ToLower] and [EqualFold] map the ASCII letters and leave every other byte alone, which is
    what Go computes on text whose letters are ASCII. *)
From S2P Require Import Prelude.

(** ** Bytes *)
Definition bytes (l : list nat) : string :=
  foldr (λ n s, String (Ascii.ascii_of_nat n) s) "" l.
Abbreviation chars := String.list_ascii_of_string.
Definition is_empty (s : string) : bool := match s with "" => true | _ => false end.

Lemma is_empty_spec s : is_empty s = true ↔ s = "".
Proof. by destruct s. Qed.
Lemma is_empty_false s : is_empty s = false ↔ s ≠ "".
Proof. by destruct s. Qed.

(** ** The monoid of strings *)
Section monoid.
Lemma string_app_nil_l s : "" +:+ s = s.
Proof. reflexivity. Qed.
Lemma string_app_cons a s t : String a s +:+ t = String a (s +:+ t).
Proof. reflexivity. Qed.
#[global] Instance string_app_assoc : Assoc (=) String.append.
Proof. intros s1 s2 s3. induction s1 as [|a s1 IH]; [done|]. by rewrite !string_app_cons, IH. Qed.
Lemma string_app_nil_r s : s +:+ "" = s.
Proof. induction s as [|a s IH]; [done|]. by rewrite string_app_cons, IH. Qed.
Lemma chars_app s t : chars (s +:+ t) = chars s ++ chars t.
Proof. induction s as [|a s IH]; [done|]. rewrite string_app_cons. simpl. by rewrite IH. Qed.
Lemma length_chars s : length (chars s) = String.length s.
Proof. induction s; simpl; auto. Qed.
Lemma chars_inj s t : chars s = chars t → s = t.
Proof.
  intros H. rewrite <- (String.string_of_list_ascii_of_string s), H.
  apply String.string_of_list_ascii_of_string.
Qed.
Lemma string_length_app s t : String.length (s +:+ t) = String.length s + String.length t.
Proof. induction s as [|a s IH]; [done|]. rewrite string_app_cons. simpl. by rewrite IH. Qed.
Lemma string_app_eq_nil s t : s +:+ t = "" ↔ s = "" ∧ t = "".
Proof. destruct s; [by rewrite string_app_nil_l; naive_solver|]. rewrite string_app_cons. naive_solver. Qed.
Lemma string_app_inv_l s t1 t2 : s +:+ t1 = s +:+ t2 → t1 = t2.
Proof. apply (inj (String.append s)). Qed.
Lemma string_app_inv_r s1 s2 t : s1 +:+ t = s2 +:+ t → s1 = s2.
Proof.
  intros H%(f_equal chars). rewrite !chars_app in H. by apply app_inv_tail, chars_inj in H.
Qed.
End monoid.

(** Reversal, through which every suffix operation is defined from the prefix one. *)
Definition rev (s : string) : string := String.rev s.

Lemma rev_app_spec s t : String.rev_app s t = rev s +:+ t.
Proof.
  unfold rev, String.rev. revert t. induction s as [|a s IH]; intros t; [done|].
  simpl. rewrite IH, (IH (String a "")). by rewrite <- (assoc_L String.append).
Qed.
Lemma rev_cons a s : rev (String a s) = rev s +:+ String a "".
Proof. unfold rev at 1, String.rev. simpl. apply rev_app_spec. Qed.
Lemma rev_app s t : rev (s +:+ t) = rev t +:+ rev s.
Proof.
  induction s as [|a s IH]; [by rewrite string_app_nil_r|].
  by rewrite string_app_cons, !rev_cons, IH, (assoc_L String.append).
Qed.
Lemma rev_involutive s : rev (rev s) = s.
Proof. induction s as [|a s IH]; [done|]. by rewrite rev_cons, rev_app, IH. Qed.
#[export] Instance rev_inj : Inj (=) (=) rev.
Proof. intros s t H. by rewrite <- (rev_involutive s), H, rev_involutive. Qed.
Lemma rev_length s : String.length (rev s) = String.length s.
Proof.
  induction s as [|a s IH]; [done|]. rewrite rev_cons, string_length_app, IH. cbn. lia.
Qed.
Lemma chars_rev s : chars (rev s) = reverse (chars s).
Proof.
  induction s as [|a s IH]; [done|]. by rewrite rev_cons, chars_app, IH; simpl; rewrite reverse_cons.
Qed.
Lemma rev_nil_inv s : rev s = "" ↔ s = "".
Proof. split; [intros H; apply rev_inj; by rewrite H|by intros ->]. Qed.

(** ** Prefixes and suffixes *)
Fixpoint strip_prefix (p s : string) : option string :=
  match p, s with
  | "", _ => Some s
  | String a p, String b s => if Ascii.eqb a b then strip_prefix p s else None
  | String _ _, "" => None
  end.
Definition strip_suffix (p s : string) : option string := rev <$> strip_prefix (rev p) (rev s).

Definition HasPrefix (s p : string) : bool := bool_decide (is_Some (strip_prefix p s)).
Definition TrimPrefix (s p : string) : string := default s (strip_prefix p s).
Definition HasSuffix (s p : string) : bool := bool_decide (is_Some (strip_suffix p s)).
Definition TrimSuffix (s p : string) : string := default s (strip_suffix p s).

Lemma strip_prefix_Some p s r : strip_prefix p s = Some r ↔ s = p +:+ r.
Proof.
  revert s. induction p as [|a p IH]; intros s; simpl.
  { rewrite string_app_nil_l. naive_solver. }
  rewrite string_app_cons. destruct s as [|b s]; [naive_solver|].
  destruct (Ascii.eqb_spec a b) as [->|]; [rewrite IH|]; naive_solver.
Qed.
Lemma strip_prefix_app p r : strip_prefix p (p +:+ r) = Some r.
Proof. by apply strip_prefix_Some. Qed.
Lemma strip_prefix_None_app p s t : strip_prefix p (s +:+ t) = None → strip_prefix p s = None.
Proof.
  destruct (strip_prefix p s) as [r|] eqn:E; [|done]. apply strip_prefix_Some in E as ->.
  by rewrite <- (assoc_L String.append), strip_prefix_app.
Qed.
Lemma HasPrefix_true s p : HasPrefix s p = true ↔ ∃ r, s = p +:+ r.
Proof. unfold HasPrefix. rewrite bool_decide_eq_true. unfold is_Some. by setoid_rewrite strip_prefix_Some. Qed.
Lemma HasPrefix_app p r : HasPrefix (p +:+ r) p = true.
Proof. apply HasPrefix_true. by eexists. Qed.
Lemma TrimPrefix_app p r : TrimPrefix (p +:+ r) p = r.
Proof. unfold TrimPrefix. by rewrite strip_prefix_app. Qed.

(** ** Trimming: remove from the ends any of the byte sequences [cs] *)
Fixpoint first_strip (cs : list string) (s : string) : option string :=
  match cs with
  | [] => None
  | c :: cs => match strip_prefix c s with Some r => Some r | None => first_strip cs s end
  end.
Fixpoint trim_left_fuel (n : nat) (cs : list string) (s : string) : string :=
  match n with
  | 0 => s
  | S n => match first_strip cs s with Some r => trim_left_fuel n cs r | None => s end
  end.
Definition trim_left (cs : list string) (s : string) : string := trim_left_fuel (String.length s) cs s.
Definition trim_right (cs : list string) (s : string) : string := rev (trim_left (rev <$> cs) (rev s)).
Definition trim (cs : list string) (s : string) : string := trim_right cs (trim_left cs s).

Section trim.
Context (cs : list string) (cs_ok : Forall (.≠ "") cs).

Lemma first_strip_Some s r : first_strip cs s = Some r → ∃ c, c ∈ cs ∧ s = c +:+ r.
Proof.
  clear cs_ok. induction cs as [|c l IH]; simpl; [done|].
  destruct (strip_prefix c s) eqn:E.
  - intros [= ->]. apply strip_prefix_Some in E. exists c. set_solver.
  - intros (c' & ? & ?)%IH. exists c'. set_solver.
Qed.
Lemma first_strip_None s : first_strip cs s = None ↔ ∀ c, c ∈ cs → strip_prefix c s = None.
Proof.
  clear cs_ok. induction cs as [|c l IH]; simpl; [set_solver|].
  destruct (strip_prefix c s) eqn:E.
  - split; [done|]. intros H. specialize (H c). set_solver.
  - rewrite IH. set_solver.
Qed.
Lemma first_strip_None_app s t : first_strip cs (s +:+ t) = None → first_strip cs s = None.
Proof. rewrite !first_strip_None. intros H c Hc. eapply strip_prefix_None_app, H, Hc. Qed.

Lemma trim_left_fuel_suffix n s : ∃ w, s = w +:+ trim_left_fuel n cs s.
Proof.
  clear cs_ok. revert s. induction n as [|n IH]; intros s; simpl; [by exists ""|].
  destruct (first_strip cs s) as [r|] eqn:E; [|by exists ""].
  apply first_strip_Some in E as (c & _ & ->). destruct (IH r) as [w Hw].
  exists (c +:+ w). by rewrite <- (assoc_L String.append), <- Hw.
Qed.
Lemma trim_left_fuel_done n s :
  String.length s ≤ n → first_strip cs (trim_left_fuel n cs s) = None.
Proof.
  revert s. induction n as [|n IH]; intros s Hn; simpl.
  - destruct (first_strip cs s) as [r|] eqn:E; [|done].
    apply first_strip_Some in E as (c & Hc & ->). rewrite Forall_forall in cs_ok.
    specialize (cs_ok c Hc). rewrite string_length_app in Hn. destruct c; [done|]. cbn in Hn. lia.
  - destruct (first_strip cs s) as [r|] eqn:E; [|done]. apply IH.
    apply first_strip_Some in E as (c & Hc & ->). rewrite Forall_forall in cs_ok.
    specialize (cs_ok c Hc). rewrite string_length_app in Hn. destruct c; [done|]. cbn in Hn. lia.
Qed.
Lemma trim_left_suffix s : ∃ w, s = w +:+ trim_left cs s.
Proof. apply trim_left_fuel_suffix. Qed.
Lemma trim_left_done s : first_strip cs (trim_left cs s) = None.
Proof. by apply trim_left_fuel_done. Qed.
Lemma trim_left_id s : first_strip cs s = None → trim_left cs s = s.
Proof. unfold trim_left. destruct (String.length s); simpl; [done|]. by intros ->. Qed.
End trim.

Lemma rev_seqs_ok cs : Forall (.≠ "") cs → Forall (.≠ "") (rev <$> cs).
Proof. intros H. rewrite Forall_fmap. eapply Forall_impl; [exact H|]. intros s Hs. simpl. by rewrite rev_nil_inv. Qed.

(** No sequence of [cs] starts, or ends, the string. *)
Definition trimmed (cs : list string) (s : string) : Prop :=
  first_strip cs s = None ∧ first_strip (rev <$> cs) (rev s) = None.

Lemma trim_right_prefix cs s : ∃ w, s = trim_right cs s +:+ w.
Proof.
  unfold trim_right. destruct (trim_left_suffix (rev <$> cs) (rev s)) as [w Hw].
  exists (rev w). by rewrite <- rev_app, <- Hw, rev_involutive.
Qed.
Lemma trim_right_id cs s : first_strip (rev <$> cs) (rev s) = None → trim_right cs s = s.
Proof. intros. unfold trim_right. by rewrite trim_left_id, rev_involutive. Qed.
Lemma trim_id cs s : trimmed cs s → trim cs s = s.
Proof. intros [??]. unfold trim. by rewrite trim_left_id, trim_right_id by (by rewrite ?trim_left_id). Qed.
Lemma trim_trimmed cs s : Forall (.≠ "") cs → trimmed cs (trim cs s).
Proof.
  intros Hcs. split.
  - destruct (trim_right_prefix cs (trim_left cs s)) as [w Hw].
    apply (first_strip_None_app _ _ w). unfold trim. rewrite <- Hw. by apply trim_left_done.
  - unfold trim, trim_right at 1. rewrite rev_involutive. by apply trim_left_done, rev_seqs_ok.
Qed.
Lemma trim_idemp cs s : Forall (.≠ "") cs → trim cs (trim cs s) = trim cs s.
Proof. intros. by apply trim_id, trim_trimmed. Qed.
Lemma trim_infix cs s : ∃ w1 w2, s = w1 +:+ trim cs s +:+ w2.
Proof.
  destruct (trim_left_suffix cs s) as [w1 H1], (trim_right_prefix cs (trim_left cs s)) as [w2 H2].
  exists w1, w2. unfold trim. by rewrite <- H2, <- H1.
Qed.
Lemma first_strip_avoid_chars cs s :
  Forall (λ w, w ≠ "" ∧ ∀ c, c ∈ chars w → c ∉ chars s) cs → first_strip cs s = None.
Proof.
  induction 1 as [|w cs [Hne Hw] _ IH]; simpl; [done|].
  destruct (strip_prefix w s) as [r|] eqn:E; [|done].
  apply strip_prefix_Some in E as ->. destruct w as [|a w]; [done|].
  exfalso. apply (Hw a); rewrite ?chars_app; set_solver.
Qed.
(** A string that shares no character with the cut sequences is already trimmed. *)
Lemma trim_avoid_chars cs s :
  Forall (λ w, w ≠ "" ∧ ∀ c, c ∈ chars w → c ∉ chars s) cs → trim cs s = s.
Proof.
  intros Hf. apply trim_id. split; [by apply first_strip_avoid_chars|]. apply first_strip_avoid_chars.
  rewrite Forall_fmap. eapply Forall_impl; [exact Hf|]. intros w [Hne Hw]. simpl. split.
  - by rewrite rev_nil_inv.
  - intros c. rewrite !chars_rev, !elem_of_reverse. apply Hw.
Qed.
Lemma trimmed_nil cs : Forall (.≠ "") cs → trimmed cs "".
Proof.
  intros Hcs. split; apply first_strip_None.
  - intros [|a c] Hc; [|done]. rewrite Forall_forall in Hcs. by apply Hcs in Hc.
  - intros c Hc. apply rev_seqs_ok in Hcs. rewrite Forall_forall in Hcs.
    destruct c; [by apply Hcs in Hc|done].
Qed.

(** *** Unicode white space: TrimSpace *)
Definition unicode_spaces : list string :=
  [ " "; bytes [9]; bytes [10]; bytes [11]; bytes [12]; bytes [13];
    bytes [0xC2; 0x85]; bytes [0xC2; 0xA0]; bytes [0xE1; 0x9A; 0x80];
    bytes [0xE2; 0x80; 0x80]; bytes [0xE2; 0x80; 0x81]; bytes [0xE2; 0x80; 0x82];
    bytes [0xE2; 0x80; 0x83]; bytes [0xE2; 0x80; 0x84]; bytes [0xE2; 0x80; 0x85];
    bytes [0xE2; 0x80; 0x86]; bytes [0xE2; 0x80; 0x87]; bytes [0xE2; 0x80; 0x88];
    bytes [0xE2; 0x80; 0x89]; bytes [0xE2; 0x80; 0x8A]; bytes [0xE2; 0x80; 0xA8];
    bytes [0xE2; 0x80; 0xA9]; bytes [0xE2; 0x80; 0xAF]; bytes [0xE2; 0x81; 0x9F];
    bytes [0xE3; 0x80; 0x80] ].
Definition TrimSpace : string → string := trim unicode_spaces.

Lemma unicode_spaces_ok : Forall (.≠ "") unicode_spaces.
Proof. by apply (bool_decide_unpack _); vm_compute. Qed.
Lemma TrimSpace_idemp s : TrimSpace (TrimSpace s) = TrimSpace s.
Proof. apply trim_idemp, unicode_spaces_ok. Qed.
Lemma TrimSpace_nil : TrimSpace "" = "".
Proof. done. Qed.

(** *** strings.Trim, TrimLeft, TrimRight with a cutset of ASCII characters *)
Definition cutset (s : string) : list string := (λ c, String c "") <$> chars s.
Definition Trim (s cut : string) : string := trim (cutset cut) s.
Definition TrimLeft (s cut : string) : string := trim_left (cutset cut) s.
Definition TrimRight (s cut : string) : string := trim_right (cutset cut) s.

Lemma cutset_ok cut : Forall (.≠ "") (cutset cut).
Proof. unfold cutset. rewrite Forall_fmap. by apply Forall_true. Qed.
Lemma Trim_idemp s cut : Trim (Trim s cut) cut = Trim s cut.
Proof. apply trim_idemp, cutset_ok. Qed.

(** *** Fuel and character reasoning for trimming *)
Lemma trim_left_fuel_irrel cs n m s :
  Forall (.≠ "") cs → String.length s ≤ n → String.length s ≤ m →
  trim_left_fuel n cs s = trim_left_fuel m cs s.
Proof.
  intros Hcs. revert m s. induction n as [|n IH]; intros [|m] s Hn Hm; simpl; [done| | |].
  - destruct s; cbn in *; [|lia]. destruct (first_strip cs "") as [r|] eqn:E; [|done].
    exfalso. apply first_strip_Some in E as (c & Hc & E). symmetry in E.
    apply string_app_eq_nil in E as [-> _]. rewrite Forall_forall in Hcs. by apply Hcs in Hc.
  - destruct s; cbn in *; [|lia]. destruct (first_strip cs "") as [r|] eqn:E; [|done].
    exfalso. apply first_strip_Some in E as (c & Hc & E). symmetry in E.
    apply string_app_eq_nil in E as [-> _]. rewrite Forall_forall in Hcs. by apply Hcs in Hc.
  - destruct (first_strip cs s) as [r|] eqn:E; [|done].
    apply first_strip_Some in E as (c & Hc & ->). rewrite Forall_forall in Hcs.
    specialize (Hcs c Hc). rewrite string_length_app in *. destruct c; [done|]. cbn in *.
    apply IH; lia.
Qed.
Lemma trim_left_step cs s r :
  Forall (.≠ "") cs → first_strip cs s = Some r → trim_left cs s = trim_left cs r.
Proof.
  intros Hcs E. unfold trim_left. destruct (String.length s) as [|n] eqn:Hl.
  { destruct s; [|done]. apply first_strip_Some in E as (c & Hc & E). symmetry in E.
    apply string_app_eq_nil in E as [-> ->]. done. }
  simpl. rewrite E. apply trim_left_fuel_irrel; [done| |done].
  apply first_strip_Some in E as (c & Hc & ->). rewrite string_length_app in Hl.
  rewrite Forall_forall in Hcs. specialize (Hcs c Hc). destruct c; [done|]. cbn in Hl. lia.
Qed.

(** The character [c] occurs in no sequence of [cs]. *)
Definition seqs_avoid (c : Ascii.ascii) (cs : list string) : Prop := Forall (λ w, c ∉ chars w) cs.

Lemma strip_prefix_avoid w s1 c s2 r :
  c ∉ chars w → strip_prefix w (s1 +:+ String c s2) = Some r → is_Some (strip_prefix w s1).
Proof.
  revert s1. induction w as [|a w IH]; intros s1; simpl; [by eexists|].
  rewrite not_elem_of_cons. intros [Hc Hw]. destruct s1 as [|b s1].
  - rewrite string_app_nil_l. by destruct (Ascii.eqb_spec a c).
  - rewrite string_app_cons. destruct (Ascii.eqb_spec a b); [|done]. by apply IH.
Qed.
Lemma first_strip_avoid_left cs c s :
  Forall (.≠ "") cs → seqs_avoid c cs → first_strip cs (String c s) = None.
Proof.
  intros Hcs Hc. apply first_strip_None. intros w Hw. unfold seqs_avoid in Hc.
  rewrite Forall_forall in Hcs, Hc. specialize (Hcs w Hw). specialize (Hc w Hw).
  destruct w as [|a w]; [done|]. simpl in *. destruct (Ascii.eqb_spec a c); [set_solver|done].
Qed.
Lemma seqs_avoid_rev c cs : seqs_avoid c cs → seqs_avoid c (rev <$> cs).
Proof.
  unfold seqs_avoid. intros H. rewrite Forall_fmap. eapply Forall_impl; [exact H|].
  intros w Hw. simpl. by rewrite chars_rev, elem_of_reverse.
Qed.
Lemma first_strip_avoid_right cs c s t :
  seqs_avoid c cs → first_strip (rev <$> cs) (rev t) = None → t ≠ "" →
  first_strip (rev <$> cs) (rev (s +:+ String c t)) = None.
Proof.
  intros Hc Ht Hne. apply seqs_avoid_rev in Hc. apply first_strip_None. intros w Hw.
  rewrite rev_app, rev_cons, <- (assoc_L String.append), string_app_cons, string_app_nil_l.
  destruct (strip_prefix w _) as [r|] eqn:E; [|done].
  unfold seqs_avoid in Hc. rewrite Forall_forall in Hc.
  apply strip_prefix_avoid in E as [r' E]; [|by apply Hc].
  rewrite first_strip_None in Ht. by rewrite Ht in E.
Qed.
Lemma trimmed_sep cs c d s t :
  Forall (.≠ "") cs → seqs_avoid c cs → seqs_avoid d cs → trimmed cs t → t ≠ "" →
  trimmed cs (String c s +:+ String d t).
Proof.
  intros Hcs Hc Hd [_ Ht] Hne. split.
  - rewrite string_app_cons. by apply first_strip_avoid_left.
  - by apply first_strip_avoid_right.
Qed.

(** ** Splitting and joining *)
Fixpoint Split (sep : Ascii.ascii) (s : string) : list string :=
  match s with
  | "" => [""]
  | String a s =>
      if Ascii.eqb a sep then "" :: Split sep s
      else match Split sep s with
           | h :: t => String a h :: t
           | [] => [String a ""]
           end
  end.
Fixpoint Join (l : list string) (sep : string) : string :=
  match l with
  | [] => ""
  | [s] => s
  | s :: l => s +:+ sep +:+ Join l sep
  end.
(** [Cut]: the parts around the first occurrence of [sep], as in [SplitN(s, sep, 2)]. *)
Fixpoint Cut (s sep : string) : option (string * string) :=
  match strip_prefix sep s with
  | Some r => Some ("", r)
  | None =>
      match s with
      | "" => None
      | String a s => match Cut s sep with Some (x, y) => Some (String a x, y) | None => None end
      end
  end.
Definition Contains (s sub : string) : bool := bool_decide (is_Some (Cut s sub)).
(** [LastCut]: the parts around the last occurrence of [sep]. *)
Definition LastCut (s sep : string) : option (string * string) :=
  match Cut (rev s) (rev sep) with Some (x, y) => Some (rev y, rev x) | None => None end.

Fixpoint replace_fuel (n : nat) (old new s : string) : string :=
  match n with
  | 0 => s
  | S n =>
      match strip_prefix old s with
      | Some r => new +:+ replace_fuel n old new r
      | None => match s with "" => "" | String a s => String a (replace_fuel n old new s) end
      end
  end.
(** [ReplaceAll] for a non-empty [old]: one unit of fuel per byte is enough. *)
Definition ReplaceAll (s old new : string) : string := replace_fuel (S (String.length s)) old new s.

Lemma replace_fuel_avoid n old new s c : c ∈ chars old → c ∉ chars s → replace_fuel n old new s = s.
Proof.
  intros Hc. revert s. induction n as [|n IH]; intros s Hs; simpl; [done|].
  destruct (strip_prefix old s) as [r|] eqn:E.
  - apply strip_prefix_Some in E as ->. exfalso. apply Hs. rewrite chars_app. set_solver.
  - destruct s as [|a s]; [done|]. rewrite IH; [done|]. intros ?. apply Hs. simpl. set_solver.
Qed.
(** A string without some character of [old] is left alone. *)
Lemma ReplaceAll_avoid old new s c : c ∈ chars old → c ∉ chars s → ReplaceAll s old new = s.
Proof. apply replace_fuel_avoid. Qed.

Lemma Split_nonempty sep s : Split sep s ≠ [].
Proof. destruct s as [|a s]; simpl; [done|]. destruct (Ascii.eqb a sep); [done|]. by destruct (Split sep s). Qed.
Lemma Split_app sep s t :
  sep ∉ chars s → Split sep (s +:+ String sep t) = s :: Split sep t.
Proof.
  induction s as [|a s IH]; intros Hs.
  - rewrite string_app_nil_l. simpl. by rewrite Ascii.eqb_refl.
  - rewrite string_app_cons. simpl in Hs. rewrite not_elem_of_cons in Hs. destruct Hs as [Ha Hs].
    simpl. destruct (Ascii.eqb_spec a sep); [done|]. by rewrite IH.
Qed.
Lemma Split_single sep s : sep ∉ chars s → Split sep s = [s].
Proof.
  induction s as [|a s IH]; intros Hs; [done|]. simpl in *. rewrite not_elem_of_cons in Hs.
  destruct Hs as [Ha Hs]. destruct (Ascii.eqb_spec a sep); [done|]. by rewrite IH.
Qed.
Lemma Split_avoid sep s : Forall (λ p, sep ∉ chars p) (Split sep s).
Proof.
  induction s as [|a s IH]; simpl; [repeat constructor; set_solver|].
  destruct (Ascii.eqb_spec a sep) as [->|Hne]; [constructor; [set_solver|done]|].
  destruct (Split sep s) as [|h t] eqn:E; [by apply Split_nonempty in E|].
  inversion IH; subst. constructor; [|done]. simpl. set_solver.
Qed.
Lemma Join_cons s l sep : l ≠ [] → Join (s :: l) sep = s +:+ sep +:+ Join l sep.
Proof. by destruct l. Qed.
Lemma Join_Split sep s : Join (Split sep s) (String sep "") = s.
Proof.
  induction s as [|a s IH]; [done|]. simpl.
  destruct (Ascii.eqb_spec a sep) as [->|].
  - rewrite Join_cons by apply Split_nonempty. by rewrite IH.
  - destruct (Split sep s) as [|h t] eqn:E; [by apply Split_nonempty in E|].
    destruct t as [|h2 t]; [by rewrite <- IH|].
    change (Join (h :: h2 :: t) (String sep "")) with (h +:+ String sep "" +:+ Join (h2 :: t) (String sep "")) in IH.
    change (Join (String a h :: h2 :: t) (String sep "")) with (String a h +:+ String sep "" +:+ Join (h2 :: t) (String sep "")).
    by rewrite string_app_cons, IH.
Qed.
Lemma Split_Join sep l :
  l ≠ [] → Forall (λ p, sep ∉ chars p) l → Split sep (Join l (String sep "")) = l.
Proof.
  induction l as [|s l IH]; intros Hl Hf; [done|]. inversion Hf as [|?? Hs Hf']; subst.
  destruct (decide (l = [])) as [->|Hne]; [by apply Split_single|].
  rewrite Join_cons, string_app_cons, string_app_nil_l, Split_app, IH by done. done.
Qed.

Lemma Cut_Some s sep x y : Cut s sep = Some (x, y) → s = x +:+ sep +:+ y.
Proof.
  revert x. induction s as [|a s IH]; intros x; simpl.
  - destruct (strip_prefix sep "") eqn:E; [|done]. intros [= <- <-].
    by apply strip_prefix_Some in E.
  - destruct (strip_prefix sep (String a s)) eqn:E.
    + intros [= <- <-]. by apply strip_prefix_Some in E.
    + destruct (Cut s sep) as [[x' y']|]; [|done]. intros [= <- <-].
      rewrite string_app_cons. f_equal. by apply IH.
Qed.
Lemma Cut_None s sep : Cut s sep = None ↔ ∀ x y, s ≠ x +:+ sep +:+ y.
Proof.
  split.
  - induction s as [|a s IH]; simpl.
    + destruct (strip_prefix sep "") eqn:E; [done|]. intros _ x y Heq. symmetry in Heq.
      apply string_app_eq_nil in Heq as [-> Heq]. rewrite <- Heq, strip_prefix_app in E. done.
    + destruct (strip_prefix sep (String a s)) eqn:E; [done|].
      destruct (Cut s sep) as [[??]|]; [done|]. intros _ [|b x] y Heq.
      * rewrite string_app_nil_l in Heq. by rewrite Heq, strip_prefix_app in E.
      * rewrite string_app_cons in Heq. simplify_eq. by eapply IH.
  - intros H. destruct (Cut s sep) as [[x y]|] eqn:E; [|done].
    apply Cut_Some in E. by apply H in E.
Qed.
Lemma Cut_prefix s sep r : strip_prefix sep s = Some r → Cut s sep = Some ("", r).
Proof. destruct s; simpl; by intros ->. Qed.
(** A separator that starts with a character absent from [x] cuts right after [x]. *)
Lemma Cut_app x c sep y : c ∉ chars x → Cut (x +:+ String c sep +:+ y) (String c sep) = Some (x, y).
Proof.
  induction x as [|a x IH]; intros Hx.
  - rewrite string_app_nil_l. apply Cut_prefix, strip_prefix_app.
  - rewrite string_app_cons. simpl in Hx. rewrite not_elem_of_cons in Hx. destruct Hx as [Ha Hx].
    cbn [Cut strip_prefix]. destruct (Ascii.eqb_spec c a); [done|]. by rewrite IH.
Qed.
Lemma Cut_avoid s c sep : c ∉ chars s → Cut s (String c sep) = None.
Proof.
  intros Hs. apply Cut_None. intros x y ->. apply Hs. rewrite chars_app, string_app_cons. simpl. set_solver.
Qed.

(** ** Case *)
Definition lower_char (a : Ascii.ascii) : Ascii.ascii :=
  let n := Ascii.nat_of_ascii a in
  if (65 <=? n)%nat && (n <=? 90)%nat then Ascii.ascii_of_nat (n + 32) else a.
Fixpoint ToLower (s : string) : string :=
  match s with "" => "" | String a s => String (lower_char a) (ToLower s) end.
Definition EqualFold (s t : string) : bool := String.eqb (ToLower s) (ToLower t).

Lemma lower_char_idemp a : lower_char (lower_char a) = lower_char a.
Proof. by destruct a as [[] [] [] [] [] [] [] []]. Qed.
Lemma ToLower_idemp s : ToLower (ToLower s) = ToLower s.
Proof. induction s as [|a s IH]; simpl; [done|]. by rewrite lower_char_idemp, IH. Qed.
Lemma ToLower_length s : String.length (ToLower s) = String.length s.
Proof. induction s; simpl; auto. Qed.
Lemma ToLower_app s t : ToLower (s +:+ t) = ToLower s +:+ ToLower t.
Proof. induction s as [|a s IH]; [done|]. rewrite string_app_cons. simpl. by rewrite IH. Qed.
Lemma EqualFold_spec s t : EqualFold s t = true ↔ ToLower s = ToLower t.
Proof. unfold EqualFold. apply String.eqb_eq. Qed.
#[export] Instance EqualFold_equiv : Equivalence (λ s t, EqualFold s t = true).
Proof.
  split; red; intros *; rewrite ?EqualFold_spec; congruence.
Qed.

(** ** Slash-separated paths: path.Clean, path.Join, filepath.Base *)
Abbreviation slash := (Ascii.Ascii true true true true false true false false).
Example slash_ok : String slash "" = "/". Proof. reflexivity. Qed.

Fixpoint clean_go (rooted : bool) (stack parts : list string) : list string :=
  match parts with
  | [] => reverse stack
  | p :: parts =>
      if String.eqb p "" || String.eqb p "." then clean_go rooted stack parts
      else if String.eqb p ".." then
        match stack with
        | q :: stack' =>
            if String.eqb q ".." then clean_go rooted (p :: stack) parts
            else clean_go rooted stack' parts
        | [] => if rooted then clean_go rooted [] parts else clean_go rooted [p] parts
        end
      else clean_go rooted (p :: stack) parts
  end.
Definition path_Clean (p : string) : string :=
  if is_empty p then "."
  else
    let rooted := HasPrefix p "/" in
    let body := Join (clean_go rooted [] (Split slash p)) "/" in
    if rooted then "/" +:+ body else if is_empty body then "." else body.
Definition path_Join (elems : list string) : string :=
  match filter (.≠ "") elems with
  | [] => ""
  | elems => path_Clean (Join elems "/")
  end.
Definition filepath_Base (p : string) : string :=
  if is_empty p then "."
  else
    let p := TrimRight p "/" in
    if is_empty p then "/" else default p (last (Split slash p)).

Example path_Clean_ex1 : path_Clean "a//b/./c/../d/" = "a/b/d". Proof. reflexivity. Qed.
Example path_Clean_ex2 : path_Clean "/../a" = "/a". Proof. reflexivity. Qed.
Example path_Clean_ex3 : path_Clean "../a/.." = "..". Proof. reflexivity. Qed.
Example filepath_Base_ex : filepath_Base "/a/b.txt//" = "b.txt". Proof. reflexivity. Qed.
Example TrimSpace_ex : TrimSpace (bytes [0xC2; 0xA0; 9; 97; 32; 98; 0xE2; 0x80; 0xA8; 10]) = "a b".
Proof. vm_compute. reflexivity. Qed.

(** ** Trimmed strings *)
Lemma spaces_avoid_slash : seqs_avoid slash unicode_spaces.
Proof. by apply (bool_decide_unpack _); vm_compute. Qed.
Lemma TrimSpace_trimmed s : TrimSpace s = s → trimmed unicode_spaces s.
Proof. intros <-. apply trim_trimmed, unicode_spaces_ok. Qed.
Lemma TrimSpace_avoid c s : c ∉ chars s → c ∉ chars (TrimSpace s).
Proof.
  intros Hc Hin. apply Hc. destruct (trim_infix unicode_spaces s) as (w1 & w2 & ->).
  fold (TrimSpace s). rewrite !chars_app. set_solver.
Qed.
(** A leading slash does not disturb trimming of what follows. *)
Lemma TrimSpace_slash t : TrimSpace t = t → TrimSpace (String slash t) = String slash t.
Proof.
  intros Ht. destruct (decide (t = "")) as [->|Hne]; [done|]. apply trim_id. split.
  - apply first_strip_avoid_left; [apply unicode_spaces_ok|apply spaces_avoid_slash].
  - apply (first_strip_avoid_right unicode_spaces slash ""); [apply spaces_avoid_slash|by apply TrimSpace_trimmed|done].
Qed.
Lemma Trim_slash t : Trim t "/" = t → Trim (String slash t) "/" = t.
Proof.
  intros Ht. unfold Trim, trim in *. rewrite (trim_left_step _ _ t); [done|apply cutset_ok|].
  simpl. done.
Qed.

(** ** Characters that survive *)
Section keeps.
Context (c : Ascii.ascii).
Definition outside (cs : list string) : Prop := Forall (λ w, c ∉ chars w) cs.
Lemma outside_rev cs : outside cs → outside (rev <$> cs).
Proof.
  unfold outside. rewrite !Forall_forall. intros Hcs w (v & -> & Hv)%list_elem_of_fmap.
  rewrite chars_rev, elem_of_reverse. by apply Hcs.
Qed.
Lemma trim_left_keeps cs s : outside cs → c ∈ chars s → c ∈ chars (trim_left cs s).
Proof.
  intros Hcs. unfold trim_left. generalize (String.length s) as n. intros n. revert s.
  induction n as [|n IH]; intros s Hc; simpl; [done|].
  destruct (first_strip cs s) as [r|] eqn:E; [|done]. apply IH.
  apply first_strip_Some in E as (w & Hw & ->). rewrite chars_app, elem_of_app in Hc.
  destruct Hc as [Hc|Hc]; [|done]. exfalso. unfold outside in Hcs. rewrite Forall_forall in Hcs. by apply (Hcs w).
Qed.
Lemma trim_keeps cs s : outside cs → c ∈ chars s → c ∈ chars (trim cs s).
Proof.
  intros Hcs Hc. unfold trim, trim_right. rewrite chars_rev, elem_of_reverse.
  apply trim_left_keeps; [by apply outside_rev|]. rewrite chars_rev, elem_of_reverse. by apply trim_left_keeps.
Qed.
Lemma ToLower_keeps s : c ∈ chars s → lower_char c ∈ chars (ToLower s).
Proof. induction s as [|a s IH]; simpl; rewrite ?elem_of_nil, ?elem_of_cons; [done|]. intros [->|?]; auto. Qed.
Lemma ReplaceAll_keeps old new s : c ∉ chars old → c ∈ chars s → c ∈ chars (ReplaceAll s old new).
Proof.
  intros Ho. unfold ReplaceAll. generalize (S (String.length s)) as n. intros n. revert s.
  induction n as [|n IH]; intros s Hc; simpl; [done|]. destruct (strip_prefix old s) as [r|] eqn:E.
  - apply strip_prefix_Some in E as ->. rewrite chars_app, elem_of_app in *. destruct Hc; [done|right; auto].
  - destruct s as [|a s]; [done|]. simpl in *. rewrite elem_of_cons in *. destruct Hc; auto.
Qed.
End keeps.

(** A separator that occurs once splits in one way. *)
Lemma split_once (l1 l2 m1 m2 : list Ascii.ascii) c :
  c ∉ m1 → c ∉ m2 → l1 ++ c :: l2 = m1 ++ c :: m2 → l1 = m1 ∧ l2 = m2.
Proof.
  revert m1. induction l1 as [|a l1 IH]; intros [|b m1] H1 H2 Heq; simpl in *; simplify_eq; try done.
  - set_solver.
  - exfalso. apply H2. rewrite elem_of_app, elem_of_cons. auto.
  - rewrite not_elem_of_cons in H1. destruct H1 as [_ H1]. destruct (IH m1 H1 H2) as [-> ->]; done.
Qed.
Lemma split_once_string s1 s2 t1 t2 c :
  c ∉ chars t1 → c ∉ chars t2 → s1 +:+ String c "" +:+ s2 = t1 +:+ String c "" +:+ t2 → s1 = t1 ∧ s2 = t2.
Proof.
  intros H1 H2 Heq. apply (f_equal chars) in Heq. rewrite !chars_app in Heq.
  apply split_once in Heq as [?%chars_inj ?%chars_inj]; done.
Qed.

(** ** [strconv.Atoi]
    An optional sign and decimal digits whose value fits 64 bits; [None] stands for the error. *)
Definition decimal_digit (a : Ascii.ascii) : option Z :=
  let n := Z.of_nat (Ascii.nat_of_ascii a) in
  if (48 <=? n)%Z && (n <=? 57)%Z then Some (n - 48)%Z else None.
Fixpoint decimal (acc : Z) (s : string) : option Z :=
  match s with
  | "" => Some acc
  | String a s => d ← decimal_digit a; decimal (acc * 10 + d)%Z s
  end.
Definition signed (s : string) : Z * string :=
  match s with
  | String a s' =>
      if (Ascii.nat_of_ascii a =? 45)%nat then ((-1)%Z, s')
      else if (Ascii.nat_of_ascii a =? 43)%nat then (1%Z, s') else (1%Z, s)
  | "" => (1%Z, s)
  end.
Definition Atoi (s : string) : option Z :=
  let '(sign, digits) := signed s in
  if is_empty digits then None
  else v ← decimal 0 digits;
       let v := (sign * v)%Z in
       if (- 2 ^ 63 <=? v)%Z && (v <? 2 ^ 63)%Z then Some v else None.
Lemma Atoi_int64 s v : Atoi s = Some v → int64 v.
Proof.
  unfold Atoi. destruct (signed s) as [sign digits].
  destruct (is_empty digits); [done|]. destruct (decimal 0 digits) as [w|]; [|done]. cbn -[Z.pow].
  destruct (_ && _) eqn:E; [|done]. intros [= <-]. apply andb_true_iff in E as [E1%Z.leb_le E2%Z.ltb_lt]. by split.
Qed.
