(* ===== verification/GoURL.v ===== *)
(** * The package net/url: Parse
    The fields of a parsed URL the program reads are [Scheme], [Host] and [Path].  [url_Parse]
    follows the steps of the library: fragment, control characters, scheme, query, the colon rule
    for relative references, authority, percent-decoding per component.  Bracketed IP literals in
    the host position are outside the modelled domain and are reported as errors. *)
From S2P Require Import Prelude GoStrings.
Record URL := mkURL { url_Scheme : string; url_Host : string; url_Path : string }.

Local Abbreviation code := Ascii.nat_of_ascii.
Definition between (lo hi : nat) (a : Ascii.ascii) : bool := (lo <=? code a)%nat && (code a <=? hi)%nat.
Definition is_lower := between 97 122.
Definition is_upper := between 65 90.
Definition is_digit := between 48 57.
Definition is_alnum (a : Ascii.ascii) : bool := is_lower a || is_upper a || is_digit a.
Definition is_hex (a : Ascii.ascii) : bool := is_digit a || between 97 102 a || between 65 70 a.
Definition unhex (a : Ascii.ascii) : nat :=
  if is_digit a then code a - 48 else if between 97 102 a then code a - 87 else code a - 55.
Definition is_ctl (a : Ascii.ascii) : bool := (code a <? 32)%nat || (code a =? 127)%nat.
Definition one_of (set : string) (a : Ascii.ascii) : bool := existsb (Ascii.eqb a) (chars set).
Definition str_forall (f : Ascii.ascii → bool) (s : string) : bool := forallb f (chars s).

Inductive encoding := encodePath | encodeHost | encodeUserPassword | encodeFragment.

(** Characters a host may hold unescaped. *)
Definition host_char (a : Ascii.ascii) : bool :=
  (128 <=? code a)%nat || is_alnum a || one_of "-_.~!$&'()*+,;=:[]<>" a || (code a =? 34)%nat.

Definition percent : Ascii.ascii := Ascii.ascii_of_nat 37.
Definition hash : Ascii.ascii := Ascii.ascii_of_nat 35.
Definition question : Ascii.ascii := Ascii.ascii_of_nat 63.
Definition colon : Ascii.ascii := Ascii.ascii_of_nat 58.

(** Percent-decoding; [None] on a malformed escape or, in a host, on a character or an escape that
    is not allowed there. *)
Fixpoint unescape (m : encoding) (s : string) : option string :=
  match s with
  | "" => Some ""
  | String a s =>
      if Ascii.eqb a percent then
        match s with
        | String h (String l s) =>
            if is_hex h && is_hex l then
              let host_ok := match m with
                | encodeHost => (8 <=? unhex h)%nat || ((code h =? 50)%nat && (code l =? 53)%nat)
                | _ => true end in
              if host_ok then String (Ascii.ascii_of_nat (16 * unhex h + unhex l)) <$> unescape m s
              else None
            else None
        | _ => None
        end
      else
        match m with
        | encodeHost => if host_char a then String a <$> unescape m s else None
        | _ => String a <$> unescape m s
        end
  end.

Inductive scheme_result := SchemeErr | SchemeOk (scheme rest : string).
(** [getScheme]: scan up to the first character that cannot be part of a scheme. *)
Fixpoint getScheme_go (first : bool) (acc s whole : string) : scheme_result :=
  match s with
  | "" => SchemeOk "" whole
  | String a s' =>
      if is_lower a || is_upper a then getScheme_go false (String a acc) s' whole
      else if is_digit a || one_of "+-." a then
        if first then SchemeOk "" whole else getScheme_go false (String a acc) s' whole
      else if Ascii.eqb a colon then
        if first then SchemeErr else SchemeOk (rev acc) s'
      else SchemeOk "" whole
  end.
Definition getScheme (s : string) : scheme_result := getScheme_go true "" s s.

Definition validOptionalPort (port : string) : bool :=
  match port with
  | "" => true
  | String a s => Ascii.eqb a colon && str_forall is_digit s
  end.
Definition validUserinfo (s : string) : bool :=
  str_forall (λ a, is_alnum a || one_of "-._:~!$&'()*+,;=%@" a) s.

Definition parseHost (host : string) : option string :=
  if Contains host "[" then None
  else
    let port_ok := match Cut host ":" with
      | Some (_, p) => validOptionalPort (":" +:+ p) | None => true end in
    if port_ok then unescape encodeHost host else None.
Definition parseAuthority (authority : string) : option string :=
  match LastCut authority "@" with
  | None => parseHost authority
  | Some (userinfo, h) =>
      host ← parseHost h;
      if validUserinfo userinfo then
        match Cut userinfo ":" with
        | None => _ ← unescape encodeUserPassword userinfo; Some host
        | Some (u, p) =>
            _ ← unescape encodeUserPassword u; _ ← unescape encodeUserPassword p; Some host
        end
      else None
  end.

Definition count_char (c : Ascii.ascii) (s : string) : nat := length (List.filter (Ascii.eqb c) (chars s)).

(** The hierarchical part, after scheme and query are cut off. *)
Definition parse_hier (scheme rest : string) : option URL :=
  if negb (HasPrefix rest "/") && negb (is_empty scheme) then Some (mkURL scheme "" "")
  else if negb (HasPrefix rest "/")
          && Contains (match Cut rest "/" with Some (seg, _) => seg | None => rest end) ":"
  then None
  else if (negb (is_empty scheme) || negb (HasPrefix rest "///")) && HasPrefix rest "//" then
    let after := TrimPrefix rest "//" in
    let '(authority, rest) := match Cut after "/" with
      | Some (x, y) => (x, "/" +:+ y) | None => (after, "") end in
    host ← parseAuthority authority;
    path ← unescape encodePath rest;
    Some (mkURL scheme host path)
  else
    path ← unescape encodePath rest;
    Some (mkURL scheme "" path).

Definition url_parse (raw : string) : option URL :=
  if existsb is_ctl (chars raw) then None
  else if String.eqb raw "*" then Some (mkURL "" "" "*")
  else
    match getScheme raw with
    | SchemeErr => None
    | SchemeOk scheme rest =>
        let scheme := ToLower scheme in
        let rest := if HasSuffix rest "?" && (count_char question rest =? 1)%nat
                    then TrimSuffix rest "?"
                    else match Cut rest "?" with Some (x, _) => x | None => rest end in
        parse_hier scheme rest
    end.
Definition url_Parse (raw : string) : option URL :=
  let '(u, frag) := match Cut raw "#" with Some (x, y) => (x, y) | None => (raw, "") end in
  url ← url_parse u;
  _ ← unescape encodeFragment frag;
  Some url.

Example Parse_s3 : url_Parse "S3://bucket/a%20b/c?x=1#f" = Some (mkURL "s3" "bucket" "/a b/c").
Proof. vm_compute. reflexivity. Qed.
Example Parse_user : url_Parse "https://u:p@h:80/x" = Some (mkURL "https" "h:80" "/x").
Proof. vm_compute. reflexivity. Qed.
Example Parse_rel_colon : url_Parse "cache_object:foo/bar" = None.
Proof. vm_compute. reflexivity. Qed.
Example Parse_opaque : url_Parse "sha256:ab" = Some (mkURL "sha256" "" "").
Proof. vm_compute. reflexivity. Qed.
Example Parse_bad_escape : url_Parse "/a%zz" = None.
Proof. vm_compute. reflexivity. Qed.
Example Parse_host_escape : url_Parse "http://a%41/" = None.
Proof. vm_compute. reflexivity. Qed.

(** ** Plain paths parse to themselves *)
(** A character with no meaning to the parser inside a path. *)
Definition plain_char (a : Ascii.ascii) : bool :=
  negb (is_ctl a) && negb (Ascii.eqb a percent) && negb (Ascii.eqb a hash) && negb (Ascii.eqb a question).
Definition plain (s : string) : bool := str_forall plain_char s.

Lemma plain_app s t : plain (s +:+ t) = plain s && plain t.
Proof. unfold plain, str_forall. by rewrite chars_app, forallb_app. Qed.
Lemma plain_cons a s : plain (String a s) = plain_char a && plain s.
Proof. done. Qed.
Lemma plain_avoid c s : plain s = true → plain_char c = false → c ∉ chars s.
Proof.
  unfold plain, str_forall. rewrite forallb_forall. intros H Hc Hin%list_elem_of_In%H. congruence.
Qed.
Lemma plain_no_ctl s : plain s = true → existsb is_ctl (chars s) = false.
Proof.
  intros Hp. destruct (existsb _ _) eqn:E; [|done]. apply existsb_exists in E as (a & Hin & Ha).
  unfold plain, str_forall in Hp. rewrite forallb_forall in Hp. apply Hp in Hin.
  unfold plain_char in Hin. by rewrite Ha in Hin.
Qed.
Lemma unescape_plain s : plain s = true → unescape encodePath s = Some s.
Proof.
  induction s as [|a s IH]; [done|]. rewrite plain_cons, andb_true_iff. intros [Ha Hs].
  simpl. unfold plain_char in Ha. destruct (Ascii.eqb a percent); [by rewrite andb_false_r in Ha|].
  by rewrite (IH Hs).
Qed.
Lemma HasSuffix_avoid c s : c ∉ chars s → HasSuffix s (String c "") = false.
Proof.
  intros Hc. unfold HasSuffix. apply bool_decide_eq_false. intros [r Hr]. unfold strip_suffix in Hr.
  destruct (strip_prefix _ _) as [r'|] eqn:E; [|done]. apply strip_prefix_Some in E.
  apply Hc. rewrite <- elem_of_reverse, <- chars_rev, E, chars_app. simpl. set_solver.
Qed.

(** A plain string with a single leading slash is a path and nothing else. *)
Lemma url_Parse_plain_path a s :
  plain (String a s) = true → a ≠ slash →
  url_Parse (String slash (String a s)) = Some (mkURL "" "" (String slash (String a s))).
Proof.
  intros Hp Ha. assert (plain (String slash (String a s)) = true) as Hp' by done.
  assert (∀ c, plain_char c = false → c ∉ chars (String slash (String a s))) as Hav
    by (intros; by apply plain_avoid).
  unfold url_Parse. rewrite Cut_avoid by (by apply Hav). cbn [mbind option_bind].
  unfold url_parse. rewrite plain_no_ctl by done.
  change (String.eqb (String slash (String a s)) "*") with false.
  change (getScheme (String slash (String a s))) with (SchemeOk "" (String slash (String a s))).
  cbv beta iota zeta. rewrite HasSuffix_avoid, Cut_avoid by (by apply Hav). simpl andb. cbv iota.
  unfold parse_hier. assert (HasPrefix (String slash (String a s)) "/" = true) as -> by by apply HasPrefix_true; exists (String a s).
  simpl negb. simpl andb. cbv iota.
  assert (HasPrefix (String slash (String a s)) "//" = false) as ->.
  { apply not_true_is_false. rewrite HasPrefix_true. intros [r Hr].
    rewrite !string_app_cons in Hr. congruence. }
  rewrite andb_false_r, unescape_plain by done. done.
Qed.

(** * The package net/url: from URLs back to text, and queries
    Escaping by position in a URL, URLs with everything that String needs, and queries (Values) as sorted text.  [url_Parse] of
    GoURL says which texts are URLs and what their scheme, host and path are. *)
#[local] Set Warnings "-automation".

(** ** Escaping *)
Inductive position := inPath | inSegment | inHost | inUser | inQuery | inFragment.
Definition quote_char : Ascii.ascii := Ascii.ascii_of_nat 34.
Definition unreserved (a : Ascii.ascii) : bool := is_alnum a || one_of "-_.~" a.
Definition shouldEscape (p : position) (a : Ascii.ascii) : bool :=
  if unreserved a then false
  else if one_of "$&+,/:;=?@" a then
    match p with
    | inPath => one_of "?" a
    | inSegment => one_of "/;,?" a
    | inHost => negb (one_of "$&+,:;=" a)
    | inUser => one_of "@/?:" a
    | inQuery => true
    | inFragment => false
    end
  else
    match p with
    | inHost => negb (one_of "!'()*[]<>" a || Ascii.eqb a quote_char)
    | inFragment => negb (one_of "!()*" a)
    | _ => true
    end.
Definition hex_digit (n : nat) : Ascii.ascii := Ascii.ascii_of_nat (if n <? 10 then 48 + n else 55 + n).
Definition escape_char (p : position) (a : Ascii.ascii) : string :=
  let n := Ascii.nat_of_ascii a in
  match p with
  | inQuery => if n =? 32 then "+" else if unreserved a then String a "" else String percent (String (hex_digit (n / 16)) (String (hex_digit (n mod 16)) ""))
  | _ => if shouldEscape p a then String percent (String (hex_digit (n / 16)) (String (hex_digit (n mod 16)) "")) else String a ""
  end.
Fixpoint escape (p : position) (s : string) : string := match s with "" => "" | String a s => escape_char p a +:+ escape p s end.
Definition PathEscape : string → string := escape inSegment.
Definition QueryEscape : string → string := escape inQuery.
(** Text that escaping could have produced, or that is at least fit for its place. *)
Definition validEncoded (p : position) (s : string) : bool :=
  str_forall (λ a, one_of "!$&'()*+,;=:@[]%" a || negb (shouldEscape p a)) s.
(** The text as it was given is kept as long as it is fit and means the same. *)
Definition fits (p : position) (decoded raw : string) : bool :=
  negb (is_empty raw) && validEncoded p raw && bool_decide (unescape encodePath raw = Some decoded).

(** ** URLs *)
Record FullURL := mkFullURL {
  fu_Scheme : string; fu_Opaque : string; fu_User : option (string * option string); fu_Host : string; fu_OmitHost : bool;
  fu_Path : string; fu_RawPath : string; fu_ForceQuery : bool; fu_RawQuery : string; fu_Fragment : string; fu_RawFragment : string }.
Definition cut_or (s sep : string) : string * string := default (s, "") (Cut s sep).
Definition user_of (authority : string) : option (string * option string) :=
  match LastCut authority "@" with
  | None => None
  | Some (userinfo, _) =>
      match Cut userinfo ":" with
      | None => Some (default "" (unescape encodeUserPassword userinfo), None)
      | Some (user, password) => Some (default "" (unescape encodeUserPassword user), unescape encodeUserPassword password)
      end
  end.
(** The pieces of a text that [url_Parse] accepts. *)
Definition full_Parse (raw : string) : option FullURL :=
  url ← url_Parse raw;
  let '(front, fragment) := cut_or raw "#" in
  let rest := match getScheme front with SchemeOk _ rest => rest | SchemeErr => "" end in
  let scheme := url_Scheme url in
  let force := HasSuffix rest "?" && (count_char question rest =? 1) in
  let '(rest, query) := if force then (TrimSuffix rest "?", "") else cut_or rest "?" in
  let opaque := negb (HasPrefix rest "/") && negb (is_empty scheme) in
  let hosted := HasPrefix rest "//" && (negb (is_empty scheme) || negb (HasPrefix rest "///")) in
  let after := TrimPrefix rest "//" in
  let authority := match Cut after "/" with Some (x, _) => x | None => after end in
  let path := if opaque then "" else if hosted then match Cut after "/" with Some (_, y) => "/" +:+ y | None => "" end else rest in
  let kept p decoded raw := if String.eqb raw (escape p decoded) then "" else raw in
  let fragment_text := default "" (unescape encodeFragment fragment) in
  Some (mkFullURL scheme (if opaque then rest else "") (if hosted then user_of authority else None) (url_Host url)
          (negb hosted && negb (is_empty scheme) && HasPrefix rest "/") (url_Path url) (kept inPath (url_Path url) path)
          force query fragment_text (kept inFragment fragment_text fragment)).
Definition EscapedPath (u : FullURL) : string :=
  if fits inPath (fu_Path u) (fu_RawPath u) then fu_RawPath u
  else if String.eqb (fu_Path u) "*" then "*" else escape inPath (fu_Path u).
Definition EscapedFragment (u : FullURL) : string :=
  if fits inFragment (fu_Fragment u) (fu_RawFragment u) then fu_RawFragment u else escape inFragment (fu_Fragment u).
Definition user_text (user : string * option string) : string :=
  escape inUser user.1 +:+ match user.2 with Some password => ":" +:+ escape inUser password | None => "" end.
Definition url_end (u : FullURL) : string :=
  (if fu_ForceQuery u || negb (is_empty (fu_RawQuery u)) then "?" +:+ fu_RawQuery u else "")
  +:+ (if is_empty (fu_Fragment u) then "" else "#" +:+ EscapedFragment u).
Definition has_user (u : FullURL) : bool := match fu_User u with Some _ => true | None => false end.
(** The colon that would make the start of a relative path read as a scheme is prefixed away. *)
Definition url_String (u : FullURL) : string :=
  (if is_empty (fu_Scheme u) then "" else fu_Scheme u +:+ ":") +:+
  (if negb (is_empty (fu_Opaque u)) then fu_Opaque u
   else
     let named := negb (is_empty (fu_Scheme u)) || negb (is_empty (fu_Host u)) || has_user u in
     let authority :=
       if named && negb (fu_OmitHost u && is_empty (fu_Host u) && negb (has_user u)) then
         (if negb (is_empty (fu_Host u)) || negb (is_empty (fu_Path u)) || has_user u then "//" else "")
         +:+ (match fu_User u with Some user => user_text user +:+ "@" | None => "" end) +:+ escape inHost (fu_Host u)
       else "" in
     let path := EscapedPath u in
     authority
     +:+ (if negb (is_empty path) && negb (HasPrefix path "/") && negb (is_empty (fu_Host u)) then "/" else "")
     +:+ (if negb named && Contains (cut_or path "/").1 ":" then "./" else "") +:+ path)
  +:+ url_end u.
Definition url_Hostname (host : string) : string :=
  match LastCut host ":" with
  | Some (name, port) => if validOptionalPort (":" +:+ port) then name else host
  | None => host
  end.

(** ** Queries *)
Abbreviation Values := (gmap string (list string)).
Fixpoint plus_to_blank (s : string) : string :=
  match s with "" => "" | String a s => String (if Ascii.eqb a (Ascii.ascii_of_nat 43) then Ascii.ascii_of_nat 32 else a) (plus_to_blank s) end.
Definition QueryUnescape (s : string) : option string := unescape encodePath (plus_to_blank s).
Definition add_pair (m : Values) (pair : string) : Values :=
  if Contains pair ";" || is_empty pair then m
  else
    let '(key, value) := cut_or pair "=" in
    match QueryUnescape key, QueryUnescape value with
    | Some key, Some value => <[key := default [] (m !! key) ++ [value]]> m
    | _, _ => m
    end.
Definition ParseQuery (query : string) : Values := foldl add_pair ∅ (Split (Ascii.ascii_of_nat 38) query).
Definition values_Set (key value : string) (m : Values) : Values := <[key := [value]]> m.
Definition values_Encode (m : Values) : string :=
  Join (concat ((λ key, (λ value, QueryEscape key +:+ "=" +:+ QueryEscape value) <$> default [] (m !! key)) <$> sort_Strings (fst <$> map_to_list m))) "&".

Example String_same : (url_String <$> full_Parse "HTTP://u:p%40@h:80/a%2Fb/c?x=1#f%20g") = Some "http://u:p%40@h:80/a%2Fb/c?x=1#f%20g".
Proof. by vm_compute. Qed.
Example String_relative : (url_String <$> full_Parse "./a:b?") = Some "./a:b?".
Proof. by vm_compute. Qed.
Example query_ex : values_Encode (values_Set "comp" "block" (ParseQuery "sv=2&sig=a%2Bb&bad=%zz&x;y&sp")) = "comp=block&sig=a%2Bb&sp=&sv=2".
Proof. by vm_compute. Qed.

(** ** What escaping promises *)
Lemma escape_char_unescape p a s : p ≠ inQuery → unescape encodePath (escape_char p a +:+ s) = String a <$> unescape encodePath s.
Proof. destruct p; intros Hp; try done; by destruct a as [[] [] [] [] [] [] [] []]. Qed.
Lemma unescape_escape p s : p ≠ inQuery → unescape encodePath (escape p s) = Some s.
Proof. intros Hp. induction s as [|a s IH]; [done|]. cbn [escape]. by rewrite escape_char_unescape, IH. Qed.
Lemma unescape_app s t x y : unescape encodePath s = Some x → unescape encodePath t = Some y → unescape encodePath (s +:+ t) = Some (x +:+ y).
Proof.
  revert x. induction s as [s IH] using (well_founded_induction (well_founded_ltof _ String.length)). unfold ltof in IH.
  intros x Hs Ht. destruct s as [|a s]; [by injection Hs as <-|]. rewrite string_app_cons. cbn [unescape] in *.
  destruct (Ascii.eqb a percent).
  - destruct s as [|h [|l s]]; try done. rewrite !string_app_cons. destruct (is_hex h && is_hex l); [|done].
    destruct (unescape encodePath s) as [r|] eqn:E; [|done]. injection Hs as <-. erewrite IH; [done|simpl; lia|exact E|done].
  - destruct (unescape encodePath s) as [r|] eqn:E; [|done]. injection Hs as <-. erewrite IH; [done|simpl; lia|exact E|done].
Qed.
#[export] Instance PathEscape_inj : Inj (=) (=) PathEscape.
Proof. intros s t E. pose proof (unescape_escape inSegment s ltac:(done)) as H. unfold PathEscape in E. rewrite E, unescape_escape in H by done. by injection H. Qed.
(** What an escaped segment is made of: nothing that ends it. *)
Definition segment_char (a : Ascii.ascii) : bool := unreserved a || one_of "$&+:=@%" a.
Lemma escape_chars p (f : Ascii.ascii → bool) s :
  (∀ a, forallb f (chars (escape_char p a)) = true) → Forall (λ a, f a = true) (chars (escape p s)).
Proof.
  intros Hf. induction s as [|a s IH]; [constructor|]. cbn [escape]. rewrite chars_app. apply Forall_app. split; [|done].
  specialize (Hf a). rewrite forallb_forall in Hf. apply Forall_forall. intros x Hx. apply Hf. by apply list_elem_of_In.
Qed.
Lemma PathEscape_chars s : Forall (λ a, segment_char a = true) (chars (PathEscape s)).
Proof. apply escape_chars. intros a. by destruct a as [[] [] [] [] [] [] [] []]. Qed.
