(* ===== verification/Errors.v ===== *)
(** * The error contract: apigen/errorapi/contract.go, internal/storage/errors.go and the error
    values of internal/access/errors.go
    An [error] value is a tree: sentinel definitions, plain texts, wrapped errors ([%w]), joined
    errors, and the two structured errors of the server.  The text of a formatted error is the
    format string; its arguments are not kept. *)
From S2P Require Import Prelude.
#[local] Set Warnings "-automation".

(** ** Codes and categories (string constants in the source) *)
Definition ErrorCode := string.
Definition ErrorCategory := string.

Definition ErrorCategoryConflict : ErrorCategory := "conflict".
Definition ErrorCategoryForbidden : ErrorCategory := "forbidden".
Definition ErrorCategoryInternalError : ErrorCategory := "internal_error".
Definition ErrorCategoryInvalidInput : ErrorCategory := "invalid_input".
Definition ErrorCategoryNotFound : ErrorCategory := "not_found".
Definition ErrorCategoryRateLimited : ErrorCategory := "rate_limited".
Definition ErrorCategoryUnauthorized : ErrorCategory := "unauthorized".
Definition ErrorCategoryUnavailable : ErrorCategory := "unavailable".

Definition ErrorCodeAccessDenied : ErrorCode := "access_denied".
Definition ErrorCodeAccessMethodsRequired : ErrorCode := "access_methods_required".
Definition ErrorCodeAuthenticationRequired : ErrorCode := "authentication_required".
Definition ErrorCodeBucketNotConfigured : ErrorCode := "bucket_not_configured".
Definition ErrorCodeBucketScopeNotFound : ErrorCode := "bucket_scope_not_found".
Definition ErrorCodeBulkOverwriteConflict : ErrorCode := "bulk_overwrite_conflict".
Definition ErrorCodeConflict : ErrorCode := "conflict".
Definition ErrorCodeConflictingSha256 : ErrorCode := "conflicting_sha256".
Definition ErrorCodeFileUsageNotFound : ErrorCode := "file_usage_not_found".
Definition ErrorCodeForbidden : ErrorCode := "forbidden".
Definition ErrorCodeInternalError : ErrorCode := "internal_error".
Definition ErrorCodeInvalidInput : ErrorCode := "invalid_input".
Definition ErrorCodeMultipartUploadNotFound : ErrorCode := "multipart_upload_not_found".
Definition ErrorCodeNoValidSha256 : ErrorCode := "no_valid_sha256".
Definition ErrorCodeNotFound : ErrorCode := "not_found".
Definition ErrorCodeObjectChecksumImmutable : ErrorCode := "object_checksum_immutable".
Definition ErrorCodeObjectLocationUnavailable : ErrorCode := "object_location_unavailable".
Definition ErrorCodeObjectNotFound : ErrorCode := "object_not_found".
Definition ErrorCodeObjectSizeImmutable : ErrorCode := "object_size_immutable".
Definition ErrorCodeProjectScopeNotFound : ErrorCode := "project_scope_not_found".
Definition ErrorCodeRateLimited : ErrorCode := "rate_limited".
Definition ErrorCodeRequestFailed : ErrorCode := "request_failed".
Definition ErrorCodeStorageBucketUnavailable : ErrorCode := "storage_bucket_unavailable".
Definition ErrorCodeStorageCredentialMissing : ErrorCode := "storage_credential_missing".
Definition ErrorCodeStorageForbidden : ErrorCode := "storage_forbidden".
Definition ErrorCodeStorageIncomplete : ErrorCode := "storage_incomplete".
Definition ErrorCodeStorageInvalid : ErrorCode := "storage_invalid".
Definition ErrorCodeStorageListingIncomplete : ErrorCode := "storage_listing_incomplete".
Definition ErrorCodeStorageNotFound : ErrorCode := "storage_not_found".
Definition ErrorCodeStorageProviderError : ErrorCode := "storage_provider_error".
Definition ErrorCodeStorageUnavailable : ErrorCode := "storage_unavailable".
Definition ErrorCodeStorageUnsupported : ErrorCode := "storage_unsupported".
Definition ErrorCodeUnauthorized : ErrorCode := "unauthorized".
Definition ErrorCodeUnavailable : ErrorCode := "unavailable".

(** ** Definitions: sentinel errors *)
Record Definition_ := Define {
  def_code : ErrorCode; def_category : ErrorCategory; def_message : string }.
#[export] Instance Definition_eq_dec : EqDecision Definition_.
Proof. solve_decision. Defined.

Definition ErrNotFound := Define ErrorCodeNotFound ErrorCategoryNotFound "not found".
Definition ErrUnauthorized := Define ErrorCodeUnauthorized ErrorCategoryUnauthorized "unauthorized".
Definition ErrForbidden := Define ErrorCodeForbidden ErrorCategoryForbidden "forbidden".
Definition ErrConflict := Define ErrorCodeConflict ErrorCategoryConflict "conflict".
Definition ErrInvalidInput := Define ErrorCodeInvalidInput ErrorCategoryInvalidInput "invalid input".
Definition ErrRateLimited := Define ErrorCodeRateLimited ErrorCategoryRateLimited "rate limited".
Definition ErrUnavailable := Define ErrorCodeUnavailable ErrorCategoryUnavailable "unavailable".
Definition ErrObjectNotFound := Define ErrorCodeObjectNotFound ErrorCategoryNotFound "object not found".
Definition ErrBucketScopeNotFound := Define ErrorCodeBucketScopeNotFound ErrorCategoryNotFound "bucket scope not found".
Definition ErrFileUsageNotFound := Define ErrorCodeFileUsageNotFound ErrorCategoryNotFound "file usage not found".
Definition ErrMultipartUploadNotFound := Define ErrorCodeMultipartUploadNotFound ErrorCategoryNotFound "multipart upload not found".
Definition ErrNoValidSHA256 := Define ErrorCodeNoValidSha256 ErrorCategoryInvalidInput "no valid sha256 values provided".
Definition ErrConflictingSHA256 := Define ErrorCodeConflictingSha256 ErrorCategoryConflict "conflicting sha256 values provided".
Definition ErrAccessMethodsRequired := Define ErrorCodeAccessMethodsRequired ErrorCategoryInvalidInput
  "candidate must include at least one access method with a non-empty url".
Definition ErrObjectSizeImmutable := Define ErrorCodeObjectSizeImmutable ErrorCategoryConflict "object size is immutable".
Definition ErrObjectChecksumImmutable := Define ErrorCodeObjectChecksumImmutable ErrorCategoryConflict "object checksum identity is immutable".
Definition ErrBulkOverwriteConflict := Define ErrorCodeBulkOverwriteConflict ErrorCategoryConflict "bulk overwrite conflict".
Definition ErrBucketNotConfigured := Define ErrorCodeBucketNotConfigured ErrorCategoryUnavailable "no bucket configured".
Definition ErrObjectLocationUnavailable := Define ErrorCodeObjectLocationUnavailable ErrorCategoryNotFound "no object location available".
Definition ErrAuthenticationRequired := Define ErrorCodeAuthenticationRequired ErrorCategoryUnauthorized "authentication required".
Definition ErrAccessDenied := Define ErrorCodeAccessDenied ErrorCategoryForbidden "access denied".
Definition ErrStorageInvalid := Define ErrorCodeStorageInvalid ErrorCategoryInvalidInput "storage invalid".
Definition ErrStorageNotFound := Define ErrorCodeStorageNotFound ErrorCategoryNotFound "storage not found".
Definition ErrStorageForbidden := Define ErrorCodeStorageForbidden ErrorCategoryForbidden "storage forbidden".
Definition ErrStorageUnavailable := Define ErrorCodeStorageUnavailable ErrorCategoryUnavailable "storage unavailable".
Definition ErrStorageIncomplete := Define ErrorCodeStorageIncomplete ErrorCategoryUnavailable "storage incomplete".
Definition ErrStorageUnsupported := Define ErrorCodeStorageUnsupported ErrorCategoryInvalidInput "storage unsupported".
Definition ErrStorageProviderError := Define ErrorCodeStorageProviderError ErrorCategoryUnavailable "storage provider error".
Definition ErrProjectScopeNotFound := Define ErrorCodeProjectScopeNotFound ErrorCategoryNotFound "project scope not found".
Definition ErrStorageCredentialMissing := Define ErrorCodeStorageCredentialMissing ErrorCategoryNotFound "storage credential missing".
Definition ErrStorageBucketUnavailable := Define ErrorCodeStorageBucketUnavailable ErrorCategoryConflict "storage bucket unavailable".
Definition ErrStorageListingIncomplete := Define ErrorCodeStorageListingIncomplete ErrorCategoryUnavailable "storage listing incomplete".

(** The sentinels declared by the package, in source order. *)
Definition sentinels : list Definition_ := [
  ErrNotFound; ErrUnauthorized; ErrForbidden; ErrConflict; ErrInvalidInput; ErrRateLimited;
  ErrUnavailable; ErrObjectNotFound; ErrBucketScopeNotFound; ErrFileUsageNotFound;
  ErrMultipartUploadNotFound; ErrNoValidSHA256; ErrConflictingSHA256; ErrAccessMethodsRequired;
  ErrObjectSizeImmutable; ErrObjectChecksumImmutable; ErrBulkOverwriteConflict;
  ErrBucketNotConfigured; ErrObjectLocationUnavailable; ErrAuthenticationRequired; ErrAccessDenied;
  ErrStorageInvalid; ErrStorageNotFound; ErrStorageForbidden; ErrStorageUnavailable;
  ErrStorageIncomplete; ErrStorageUnsupported; ErrStorageProviderError; ErrProjectScopeNotFound;
  ErrStorageCredentialMissing; ErrStorageBucketUnavailable; ErrStorageListingIncomplete ].

Definition IsBroadCode (code : ErrorCode) : bool :=
  bool_decide (code ∈ [ErrorCodeNotFound; ErrorCodeUnauthorized; ErrorCodeForbidden;
    ErrorCodeConflict; ErrorCodeInvalidInput; ErrorCodeRateLimited; ErrorCodeUnavailable;
    ErrorCodeInternalError; ErrorCodeRequestFailed]).

(** [Definition.Is]: same code, or the target is a broad code of the same category. *)
Definition Definition_Is (e target : Definition_) : bool :=
  String.eqb (def_code e) (def_code target)
  || (IsBroadCode (def_code target) && String.eqb (def_category e) (def_category target)).

(** ** Structured errors *)
Record AuthorizationError := mkAuthorizationError {
  ae_Method : string; ae_RecordID : string; ae_Resources : list string;
  ae_DeniedRecords : nat; ae_TotalRecords : nat; ae_TruncatedResources : nat }.
#[export] Instance AuthorizationError_eq_dec : EqDecision AuthorizationError.
Proof. solve_decision. Defined.

(** The wrappers of internal/transfers/lfs; [Unwrap] is their cause. *)
Inductive lfs_wrapper := MetadataCandidateError | MetadataStageError (index : nat) (missingSHA : bool) | DownloadLookupError.
#[export] Instance lfs_wrapper_eq_dec : EqDecision lfs_wrapper.
Proof. solve_decision. Defined.

Inductive error : Type :=
  | EDef (d : Definition_)
  | EText (msg : string)
  | EWrap (msg : string) (cause : error)
  | EJoin (causes : list error)
  | EAuthorization (a : AuthorizationError)
  | EOperation (kind provider : string) (cause : option error)
  | EProject (kind message : string) (cause : option error)
  | ELfs (w : lfs_wrapper) (cause : option error).

Definition AuthorizationError_ErrorCode : ErrorCode := ErrorCodeAccessDenied.
Definition AuthorizationError_ErrorCategory : ErrorCategory := ErrorCategoryForbidden.
Definition AuthorizationError_Is (target : Definition_) : bool := Definition_Is ErrAccessDenied target.

(** storage.OperationError, by its kind *)
Definition OperationError_ErrorCode (kind : string) : ErrorCode :=
  if String.eqb kind "invalid" then ErrorCodeStorageInvalid
  else if String.eqb kind "not_found" then ErrorCodeStorageNotFound
  else if String.eqb kind "forbidden" then ErrorCodeStorageForbidden
  else if String.eqb kind "unavailable" then ErrorCodeStorageUnavailable
  else if String.eqb kind "incomplete" then ErrorCodeStorageIncomplete
  else if String.eqb kind "unsupported" then ErrorCodeStorageUnsupported
  else ErrorCodeStorageProviderError.
Definition OperationError_ErrorCategory (kind : string) : ErrorCategory :=
  if String.eqb kind "not_found" then ErrorCategoryNotFound
  else if String.eqb kind "forbidden" then ErrorCategoryForbidden
  else if String.eqb kind "invalid" || String.eqb kind "unsupported" then ErrorCategoryInvalidInput
  else ErrorCategoryUnavailable.
Definition OperationError_Is (kind : string) (target : Definition_) : bool :=
  Definition_Is (Define (OperationError_ErrorCode kind) (OperationError_ErrorCategory kind)
                        "storage operation failed") target.

(** projects/storage.Error, by its kind *)
Definition ProjectError_ErrorCode (kind : string) : ErrorCode :=
  if String.eqb kind "invalid_input" then ErrorCodeInvalidInput
  else if String.eqb kind "scope_not_found" then ErrorCodeProjectScopeNotFound
  else if String.eqb kind "credential_missing" then ErrorCodeStorageCredentialMissing
  else if String.eqb kind "permission_denied" then ErrorCodeAccessDenied
  else if String.eqb kind "object_not_found" then ErrorCodeObjectNotFound
  else if String.eqb kind "bucket_unavailable" then ErrorCodeStorageBucketUnavailable
  else if String.eqb kind "listing_incomplete" then ErrorCodeStorageListingIncomplete
  else if String.eqb kind "unsupported" then ErrorCodeStorageUnsupported
  else ErrorCodeInternalError.

(** The table from codes to categories *)
Definition CategoryForCode (code : ErrorCode) : option ErrorCategory :=
  if bool_decide (code ∈ [ErrorCodeNotFound; ErrorCodeObjectNotFound; ErrorCodeBucketScopeNotFound;
       ErrorCodeFileUsageNotFound; ErrorCodeMultipartUploadNotFound;
       ErrorCodeObjectLocationUnavailable; ErrorCodeStorageNotFound; ErrorCodeProjectScopeNotFound;
       ErrorCodeStorageCredentialMissing]) then Some ErrorCategoryNotFound
  else if bool_decide (code ∈ [ErrorCodeUnauthorized; ErrorCodeAuthenticationRequired])
  then Some ErrorCategoryUnauthorized
  else if bool_decide (code ∈ [ErrorCodeForbidden; ErrorCodeAccessDenied; ErrorCodeStorageForbidden])
  then Some ErrorCategoryForbidden
  else if bool_decide (code ∈ [ErrorCodeConflict; ErrorCodeConflictingSha256;
       ErrorCodeObjectSizeImmutable; ErrorCodeObjectChecksumImmutable;
       ErrorCodeBulkOverwriteConflict; ErrorCodeStorageBucketUnavailable])
  then Some ErrorCategoryConflict
  else if bool_decide (code ∈ [ErrorCodeInvalidInput; ErrorCodeRequestFailed; ErrorCodeNoValidSha256;
       ErrorCodeAccessMethodsRequired; ErrorCodeStorageInvalid; ErrorCodeStorageUnsupported])
  then Some ErrorCategoryInvalidInput
  else if bool_decide (code = ErrorCodeRateLimited) then Some ErrorCategoryRateLimited
  else if bool_decide (code ∈ [ErrorCodeUnavailable; ErrorCodeBucketNotConfigured;
       ErrorCodeStorageUnavailable; ErrorCodeStorageIncomplete; ErrorCodeStorageProviderError;
       ErrorCodeStorageListingIncomplete]) then Some ErrorCategoryUnavailable
  else if bool_decide (code = ErrorCodeInternalError) then Some ErrorCategoryInternalError
  else None.
Definition ProjectError_ErrorCategory (kind : string) : ErrorCategory :=
  default ErrorCategoryInternalError (CategoryForCode (ProjectError_ErrorCode kind)).
Definition ProjectError_Is (kind : string) (target : Definition_) : bool :=
  Definition_Is (Define (ProjectError_ErrorCode kind) (ProjectError_ErrorCategory kind)
                        "project storage operation failed") target.

(** ** errors.Is, CodeOf, CategoryOf: walks of the error tree *)
Fixpoint errors_Is (e : error) (target : Definition_) : bool :=
  match e with
  | EDef d => Definition_Is d target
  | EText _ => false
  | EWrap _ c => errors_Is c target
  | EJoin cs => existsb (λ c, errors_Is c target) cs
  | EAuthorization _ => AuthorizationError_Is target
  | EOperation k _ c =>
      OperationError_Is k target || match c with Some c => errors_Is c target | None => false end
  | EProject k _ c =>
      ProjectError_Is k target || match c with Some c => errors_Is c target | None => false end
  | ELfs _ c => match c with Some c => errors_Is c target | None => false end
  end.

(** [visitErrors]: pre-order, the first error for which [visit] answers. *)
Fixpoint visitErrors (visit : error → option string) (e : error) : option string :=
  match visit e with
  | Some v => Some v
  | None =>
      match e with
      | EJoin cs =>
          (fix go cs := match cs with
             | [] => None
             | c :: cs => match visitErrors visit c with Some v => Some v | None => go cs end
             end) cs
      | EWrap _ c => visitErrors visit c
      | EOperation _ _ (Some c) | EProject _ _ (Some c) | ELfs _ (Some c) => visitErrors visit c
      | _ => None
      end
  end.
Definition nonempty (s : string) : option string := match s with "" => None | _ => Some s end.
Definition code_visit (e : error) : option ErrorCode :=
  match e with
  | EDef d => nonempty (def_code d)
  | EAuthorization _ => Some AuthorizationError_ErrorCode
  | EOperation k _ _ => nonempty (OperationError_ErrorCode k)
  | EProject k _ _ => nonempty (ProjectError_ErrorCode k)
  | _ => None
  end.
Definition category_visit (e : error) : option ErrorCategory :=
  match e with
  | EDef d => nonempty (def_category d)
  | EAuthorization _ => Some AuthorizationError_ErrorCategory
  | EOperation k _ _ => nonempty (OperationError_ErrorCategory k)
  | EProject k _ _ => nonempty (ProjectError_ErrorCategory k)
  | _ => None
  end.
Definition CodeOf (e : error) : option ErrorCode := visitErrors code_visit e.
Definition CategoryOf (e : error) : option ErrorCategory := visitErrors category_visit e.

(** [errors.As]: the first error of the tree of a type. *)
Fixpoint errors_As {A} (select : error → option A) (e : error) : option A :=
  match select e with
  | Some a => Some a
  | None =>
      match e with
      | EWrap _ c | EOperation _ _ (Some c) | EProject _ _ (Some c) | ELfs _ (Some c) => errors_As select c
      | EJoin cs => (fix go cs := match cs with
                                  | [] => None
                                  | c :: cs => match errors_As select c with Some a => Some a | None => go cs end
                                  end) cs
      | _ => None
      end
  end.

Definition IsNotFoundError (e : error) : bool := errors_Is e ErrNotFound.

(** ** The tables relating codes, categories and HTTP statuses *)
Definition CodeForStatus (status : Z) : ErrorCode :=
  (if status =? 404 then ErrorCodeNotFound
   else if status =? 401 then ErrorCodeUnauthorized
   else if status =? 403 then ErrorCodeForbidden
   else if status =? 409 then ErrorCodeConflict
   else if (status =? 400) || (status =? 422) || (status =? 413) then ErrorCodeInvalidInput
   else if status =? 429 then ErrorCodeRateLimited
   else if (status =? 502) || (status =? 503) || (status =? 504) then ErrorCodeUnavailable
   else if 500 <=? status then ErrorCodeInternalError
   else ErrorCodeRequestFailed)%Z.
Definition CategoryForStatus (status : Z) : ErrorCategory :=
  (if status =? 404 then ErrorCategoryNotFound
   else if status =? 401 then ErrorCategoryUnauthorized
   else if status =? 403 then ErrorCategoryForbidden
   else if status =? 409 then ErrorCategoryConflict
   else if (status =? 400) || (status =? 422) || (status =? 413) then ErrorCategoryInvalidInput
   else if status =? 429 then ErrorCategoryRateLimited
   else if (status =? 502) || (status =? 503) || (status =? 504) then ErrorCategoryUnavailable
   else if 500 <=? status then ErrorCategoryInternalError
   else default "" (CategoryForCode (CodeForStatus status)))%Z.

(** A run-time panic, which ends the operation like an error does. *)
Definition panic {A} (message : string) : result error A := Err (EText ("panic: " +:+ message)).

(** ** Methods over a store *)
Definition service (S A : Type) : Type := S → S * result error A.
#[export] Instance service_ret S : MRet (service S) := λ A a s, (s, Ok a).
#[export] Instance service_bind S : MBind (service S) := λ A B f m s,
  match m s with (s', Ok a) => f a s' | (s', Err e) => (s', Err e) end.
(** A method that only reads the store. *)
Definition ask {S A} (f : S → result error A) : service S A := λ s, (s, f s).
Definition fail {S A} (e : error) : service S A := λ s, (s, Err e).
(** A method whose error is a value. *)
Definition attempt {S A} (m : service S A) : service S (result error A) := λ s, let '(s, r) := m s in (s, Ok r).
(** A method whose error is put into a format. *)
Definition failing {S A} (format : string) (m : service S A) : service S A :=
  answer ← attempt m; match answer with Ok a => mret a | Err e => fail (EWrap format e) end.
(** A check without store access. *)
Definition check {S A} (r : result error A) : service S A := λ s, (s, r).

(** ** Lemmas *)
Lemma service_bind_Ok {S A B} (m : service S A) (f : A → service S B) s s' b :
  (m ≫= f) s = (s', Ok b) ↔ ∃ s1 a, m s = (s1, Ok a) ∧ f a s1 = (s', Ok b).
Proof.
  unfold mbind, service_bind. destruct (m s) as [s1 [a|e]]; split; [by exists s1, a| |done|by intros (?&?&[=]&?)].
  by intros (? & ? & [= <- <-] & ?).
Qed.

Section error_ind.
Context (P : error → Prop).
Context (Hdef : ∀ d, P (EDef d)) (Htext : ∀ m, P (EText m)) (Hwrap : ∀ m c, P c → P (EWrap m c))
  (Hjoin : ∀ cs, Forall P cs → P (EJoin cs)) (Hauth : ∀ a, P (EAuthorization a))
  (Hop0 : ∀ k v, P (EOperation k v None)) (Hop1 : ∀ k v c, P c → P (EOperation k v (Some c)))
  (Hpr0 : ∀ k m, P (EProject k m None)) (Hpr1 : ∀ k m c, P c → P (EProject k m (Some c)))
  (Hlfs0 : ∀ w, P (ELfs w None)) (Hlfs1 : ∀ w c, P c → P (ELfs w (Some c))).
Fixpoint error_tree_ind (e : error) : P e :=
  match e with
  | EDef d => Hdef d
  | EText m => Htext m
  | EWrap m c => Hwrap m c (error_tree_ind c)
  | EJoin cs => Hjoin cs ((fix go cs := match cs return Forall P cs with
      | [] => Forall_nil_2 P
      | c :: cs => Forall_cons_2 P c cs (error_tree_ind c) (go cs) end) cs)
  | EAuthorization a => Hauth a
  | EOperation k v None => Hop0 k v
  | EOperation k v (Some c) => Hop1 k v c (error_tree_ind c)
  | EProject k m None => Hpr0 k m
  | EProject k m (Some c) => Hpr1 k m c (error_tree_ind c)
  | ELfs w None => Hlfs0 w
  | ELfs w (Some c) => Hlfs1 w c (error_tree_ind c)
  end.
End error_ind.

(** The definitions that [errors.Is] compares with the target, over the whole tree. *)
Fixpoint error_definitions (e : error) : list Definition_ :=
  match e with
  | EDef d => [d]
  | EText _ => []
  | EWrap _ c => error_definitions c
  | EJoin cs => concat (error_definitions <$> cs)
  | EAuthorization _ => [ErrAccessDenied]
  | EOperation k _ c =>
      Define (OperationError_ErrorCode k) (OperationError_ErrorCategory k) "storage operation failed"
      :: match c with Some c => error_definitions c | None => [] end
  | EProject k _ c =>
      Define (ProjectError_ErrorCode k) (ProjectError_ErrorCategory k) "project storage operation failed"
      :: match c with Some c => error_definitions c | None => [] end
  | ELfs _ c => match c with Some c => error_definitions c | None => [] end
  end.

Lemma errors_Is_definitions e t :
  errors_Is e t = true ↔ ∃ d, d ∈ error_definitions e ∧ Definition_Is d t = true.
Proof.
  induction e as [d|m|m c IH|cs IH|a|k v|k v c IH|k m|k m c IH|w|w c IH] using error_tree_ind; simpl.
  - set_solver.
  - set_solver.
  - done.
  - induction IH as [|c cs Hc _ IHl]; simpl; [set_solver|].
    rewrite orb_true_iff, Hc, IHl. set_solver.
  - set_solver.
  - rewrite orb_false_r. set_solver.
  - rewrite orb_true_iff, IH. set_solver.
  - rewrite orb_false_r. set_solver.
  - rewrite orb_true_iff, IH. set_solver.
  - set_solver.
  - done.
Qed.
Lemma Definition_Is_refl d : Definition_Is d d = true.
Proof. unfold Definition_Is. by rewrite String.eqb_refl. Qed.


(** Definitions whose category is the one the table gives their code. *)
Definition coherent (d : Definition_) : bool := bool_decide (CategoryForCode (def_code d) = Some (def_category d)).

Lemma ErrNotFound_Is d : coherent d = true → Definition_Is d ErrNotFound = String.eqb (def_category d) ErrorCategoryNotFound.
Proof.
  unfold coherent, Definition_Is. intros Hd%bool_decide_eq_true.
  assert (IsBroadCode (def_code ErrNotFound) = true) as -> by by vm_compute.
  change (def_category ErrNotFound) with ErrorCategoryNotFound. rewrite andb_true_l.
  destruct (String.eqb_spec (def_code d) (def_code ErrNotFound)) as [E|_]; [|done].
  assert (CategoryForCode (def_code ErrNotFound) = Some ErrorCategoryNotFound) as Hn by by vm_compute.
  rewrite E, Hn in Hd. injection Hd as <-. by rewrite String.eqb_refl.
Qed.

(** The sentinel errors have pairwise distinct codes, and each one is in the category that the
    code-to-category table gives its code. *)
Theorem sentinels_coherent : NoDup (def_code <$> sentinels) ∧ Forall (λ d, coherent d = true) sentinels.
Proof. split; apply (bool_decide_unpack _); by vm_compute. Qed.

(** For every HTTP status, the category read off the status is the category of the code read off
    the status; in particular both tables cover every integer. *)
Theorem status_tables_agree (status : Z) :
  CategoryForCode (CodeForStatus status) = Some (CategoryForStatus status).
Proof.
  unfold CategoryForStatus. unfold CodeForStatus.
  repeat match goal with |- context [if ?b then _ else _] => destruct b; [by vm_compute|] end.
  by vm_compute.
Qed.

(** In an error tree whose definitions are coherent with the code table, the not-found test holds
    exactly when some definition of the tree, at any depth, has the not-found category. *)
Theorem IsNotFoundError_spec e :
  Forall (λ d, coherent d = true) (error_definitions e) →
  IsNotFoundError e = true ↔ ∃ d, d ∈ error_definitions e ∧ def_category d = ErrorCategoryNotFound.
Proof.
  intros Hc. rewrite Forall_forall in Hc. unfold IsNotFoundError. rewrite errors_Is_definitions.
  split; intros (d & Hd & H); exists d; (split; [done|]); specialize (Hc d Hd).
  - rewrite ErrNotFound_Is in H by done. by apply String.eqb_eq.
  - rewrite ErrNotFound_Is by done. by apply String.eqb_eq.
Qed.
Lemma IsNotFoundError_spec_witness :
  IsNotFoundError (EWrap "lookup: %w" (EJoin [EText "io"; EOperation "not_found" "s3" None])) = true.
Proof.
  apply IsNotFoundError_spec.
  - repeat constructor.
  - eexists. split; [apply list_elem_of_here|]. reflexivity.
Defined.
