(* ===== verification/Resources.v ===== *)
(** * Access resources: client/access/resources.go
    Resource paths name an organization or a project of an organization.  The canonical form is
    /organization/ORG or /organization/ORG/project/PROJECT; controlled-access claims arrive as
    URLs or legacy aliases (program, programs, projects) and are normalised to it. *)
From S2P Require Import Prelude GoStrings GoURL Errors.

(** A Go [map[string][]string] that may be nil. *)
Abbreviation authz_map := (option (gmap string (list string))).

Definition ResourcePath (org project : string) : result error string :=
  let org := TrimSpace org in
  let project := TrimSpace project in
  if is_empty org && is_empty project then Ok ""
  else if is_empty org then Err (EText "organization required when project is specified")
  else if is_empty project then Ok ("/organization/" +:+ org)
  else Ok ("/organization/" +:+ org +:+ "/project/" +:+ project).

Definition AuthzMapFromScope (org project : string) : authz_map :=
  let org := TrimSpace org in
  if is_empty org then None
  else
    let project := TrimSpace project in
    if is_empty project then Some {[org := []]} else Some {[org := [project]]}.

Definition org_aliases : list string := ["program"; "programs"; "organization"; "organizations"].
Definition project_aliases : list string := ["project"; "projects"].

(** The canonical form of a split path, [None] when the path names no organization. *)
Definition canonical_parts (parts : list string) : option string :=
  match parts with
  | kind :: rawOrg :: rest =>
      if bool_decide (kind ∈ org_aliases) then
        let org := TrimSpace rawOrg in
        if is_empty org then Some ""
        else
          match rest with
          | pkind :: rawProject :: _ =>
              let project := TrimSpace rawProject in
              if bool_decide (pkind ∈ project_aliases) && negb (is_empty project)
              then Some ("/organization/" +:+ org +:+ "/project/" +:+ project)
              else Some ("/organization/" +:+ org)
          | _ => Some ("/organization/" +:+ org)
          end
      else None
  | _ => None
  end.

Definition url_path_or (raw : string) : string :=
  match url_Parse raw with
  | Some u => if is_empty (url_Path u) then raw else url_Path u
  | None => raw
  end.

Definition NormalizeAccessResource (raw : string) : string :=
  let raw := TrimSpace raw in
  if is_empty raw then ""
  else
    let path := "/" +:+ Trim (url_path_or raw) "/" in
    let parts := Split slash (Trim path "/") in
    default raw (canonical_parts parts).

Definition NormalizeAccessResources (resources : list string) : list string :=
  dedup (filter (.≠ "") (NormalizeAccessResource <$> resources)).

Definition parseResourcePath (path : string) : string * string :=
  let path := NormalizeAccessResource path in
  if negb (HasPrefix path "/organization/") then ("", "")
  else
    let path := TrimPrefix path "/organization/" in
    match Cut path "/project/" with
    | None => (TrimSpace path, "")
    | Some (org, project) => (TrimSpace org, TrimSpace project)
    end.

Definition ResourceScope (resource : string) : option (string * string) :=
  let '(org, project) := parseResourcePath resource in
  if is_empty org then None else Some (org, project).

Definition authz_add (m : gmap string (list string)) (path : string) : gmap string (list string) :=
  let '(org, project) := parseResourcePath (TrimSpace path) in
  if is_empty org then m
  else
    let projects := default [] (m !! org) in
    <[org := if is_empty project then projects else projects ++ [project]]> m.
Definition AuthzListToMap (paths : list string) : authz_map :=
  let m := foldl authz_add ∅ paths in
  if decide (m = ∅) then None else Some m.

Section range.
Context `{MapOrder}.

Definition authz_entry (e : string * list string) : list string :=
  let '(org, projects) := e in
  match projects with
  | [] => ["/organization/" +:+ org]
  | _ => (λ project, let project := TrimSpace project in
            if is_empty project then "/organization/" +:+ org
            else "/organization/" +:+ org +:+ "/project/" +:+ project) <$> projects
  end.
Definition AuthzMapToList (m : authz_map) : list string :=
  match m with None => [] | Some m => concat (authz_entry <$> go_range m) end.

Definition AuthzMapToControlledAccess (m : authz_map) : list string :=
  NormalizeAccessResources (AuthzMapToList m).
End range.

Definition ControlledAccessToAuthzMap (claims : list string) : authz_map :=
  AuthzListToMap (NormalizeAccessResources claims).

Example Normalize_url : NormalizeAccessResource " https://drs.example/programs/ohsu/projects/p1/ " = "/organization/ohsu/project/p1".
Proof. vm_compute. reflexivity. Qed.
Example Normalize_org : NormalizeAccessResource "programs/ohsu" = "/organization/ohsu".
Proof. vm_compute. reflexivity. Qed.
Example Normalize_other : NormalizeAccessResource " /data_file " = "/data_file".
Proof. vm_compute. reflexivity. Qed.

(** ** Names *)
(** A name that survives the path syntax: trimmed, non-empty, no slash and no URL syntax. *)
Definition plain_name (s : string) : Prop :=
  TrimSpace s = s ∧ s ≠ "" ∧ plain s = true ∧ slash ∉ chars s.
#[export] Instance plain_name_dec s : Decision (plain_name s).
Proof. unfold plain_name. apply _. Defined.

(** A component as it comes out of [Split] and [TrimSpace]. *)
Definition path_name (s : string) : Prop := TrimSpace s = s ∧ s ≠ "" ∧ slash ∉ chars s.

Lemma plain_name_path_name s : plain_name s → path_name s.
Proof. intros (?&?&?&?). done. Qed.

Lemma TrimSpace_path s t : path_name t → TrimSpace (String slash s +:+ String slash t) = String slash s +:+ String slash t.
Proof.
  intros (Ht & Hne & _). apply trim_id, trimmed_sep; auto using spaces_avoid_slash, unicode_spaces_ok.
  by apply TrimSpace_trimmed.
Qed.
Lemma path_name_TrimSpace s : slash ∉ chars s → TrimSpace s ≠ "" → path_name (TrimSpace s).
Proof. intros ??. split_and!; auto using TrimSpace_idemp, TrimSpace_avoid. Qed.

(** Trimming the slashes of an absolute path without surrounding slashes. *)
Lemma cutset_slash : cutset "/" = ["/"].
Proof. done. Qed.
Lemma Trim_slash_id a s b :
  a ≠ slash → last (chars (String a s)) = Some b → b ≠ slash → Trim (String a s) "/" = String a s.
Proof.
  intros Ha Hl Hb. apply trim_id. split.
  - rewrite cutset_slash. cbn [first_strip strip_prefix].
    destruct (Ascii.eqb_spec slash a); [done|]. done.
  - rewrite cutset_slash. cbn [fmap list_fmap]. change (rev "/") with "/".
    apply last_Some in Hl as [l Hl]. cbn [first_strip].
    destruct (strip_prefix "/" _) as [r|] eqn:E; [|done].
    apply strip_prefix_Some in E. apply (f_equal chars) in E.
    rewrite chars_rev, chars_app, Hl, reverse_app in E. by simplify_eq/=.
Qed.

Lemma Join_snoc l t sep : l ≠ [] → Join (l ++ [t]) sep = Join l sep +:+ sep +:+ t.
Proof.
  induction l as [|s l IH]; [done|]. intros _. destruct l as [|s' l]; [done|].
  change ((s :: s' :: l) ++ [t]) with (s :: ((s' :: l) ++ [t])).
  rewrite (Join_cons s ((s' :: l) ++ [t])), (Join_cons s (s' :: l)), IH by done.
  by rewrite !(assoc_L String.append).
Qed.
Lemma last_chars_app s t : t ≠ "" → last (chars (s +:+ t)) = last (chars t).
Proof.
  intros Ht. rewrite chars_app, last_app. destruct (last (chars t)) eqn:E; [done|].
  apply last_None in E. destruct t; done.
Qed.
Lemma last_avoid t : t ≠ "" → slash ∉ chars t → ∃ b, last (chars t) = Some b ∧ b ≠ slash.
Proof.
  intros Ht Hs. destruct (last (chars t)) as [b|] eqn:E.
  - exists b. split; [done|]. intros ->. apply Hs. by eapply last_Some_elem_of.
  - apply last_None in E. by destruct t.
Qed.
Lemma slash_app s : "/" +:+ s = String slash s.
Proof. done. Qed.
Lemma Trim_slash_abs s : Trim (String slash s) "/" = Trim s "/".
Proof. unfold Trim, trim. f_equal. Qed.

(** The path of a list of components without slashes normalises component-wise. *)
Lemma NormalizeAccessResource_parts a k l t :
  a ≠ slash → Forall (λ p, slash ∉ chars p) (String a k :: l) → path_name t →
  plain (Join (String a k :: l ++ [t]) "/") = true →
  NormalizeAccessResource ("/" +:+ Join (String a k :: l ++ [t]) "/")
  = default ("/" +:+ Join (String a k :: l ++ [t]) "/") (canonical_parts (String a k :: l ++ [t])).
Proof.
  intros Ha Hl Ht Hp. pose proof Ht as (_ & Hne & Hs).
  rewrite app_comm_cons in *. set (parts := (String a k :: l) ++ [t]) in *.
  assert (Join parts "/" = Join (String a k :: l) "/" +:+ "/" +:+ t) as HJ by (by apply Join_snoc).
  assert (∃ s, Join parts "/" = String a s) as [s Hs'].
  { rewrite HJ. destruct l as [|p l]; [by eexists|]. rewrite Join_cons by done.
    rewrite !string_app_cons. by eexists. }
  assert (TrimSpace ("/" +:+ Join parts "/") = "/" +:+ Join parts "/") as HT.
  { rewrite HJ. exact (TrimSpace_path (Join (String a k :: l) "/") t Ht). }
  assert (Trim (Join parts "/") "/" = Join parts "/") as HTrim.
  { destruct (last_avoid t Hne Hs) as (b & Hb & Hbs).
    assert (last (chars (Join parts "/")) = Some b) as Hlast.
    { by rewrite HJ, !(assoc_L String.append), last_chars_app. }
    rewrite Hs' in *. by apply Trim_slash_id with b. }
  unfold NormalizeAccessResource. rewrite HT. unfold url_path_or.
  rewrite !slash_app. cbn [is_empty]. rewrite Hs', url_Parse_plain_path by (by rewrite <- ?Hs').
  cbn [url_Path is_empty]. rewrite !Trim_slash_abs, <- Hs', !HTrim, Split_Join;
    [done|by destruct l|].
  apply Forall_app. split; [done|]. by constructor.
Qed.

Definition canon_org (org : string) : string := "/organization/" +:+ org.
Definition canon_project (org project : string) : string :=
  "/organization/" +:+ org +:+ "/project/" +:+ project.

(** Facts about the alias keywords, by enumeration. *)
Definition keyword_ok (k : string) : bool :=
  match k with
  | String a _ => bool_decide (a ≠ slash) && bool_decide (slash ∉ chars k) && plain k
  | "" => false
  end.
Lemma org_aliases_ok : Forall (λ k, keyword_ok k = true) org_aliases.
Proof. by apply (bool_decide_unpack _); vm_compute. Qed.
Lemma project_aliases_ok : Forall (λ k, keyword_ok k = true) project_aliases.
Proof. by apply (bool_decide_unpack _); vm_compute. Qed.

Lemma plain_name_not_empty s : plain_name s → is_empty s = false.
Proof. intros (_&?&_). by apply is_empty_false. Qed.
Lemma path_name_not_empty s : path_name s → is_empty s = false.
Proof. intros (_&?&_). by apply is_empty_false. Qed.

Lemma Normalize_org_path kind org :
  kind ∈ org_aliases → plain_name org →
  NormalizeAccessResource ("/" +:+ kind +:+ "/" +:+ org) = canon_org org.
Proof.
  intros Hk Ho. pose proof org_aliases_ok as Hok. rewrite Forall_forall in Hok. specialize (Hok _ Hk).
  destruct kind as [|a k]; [done|]. simpl in Hok. apply andb_true_iff in Hok as [[Ha%bool_decide_eq_true Hs%bool_decide_eq_true]%andb_true_iff Hp].
  etrans; [apply (NormalizeAccessResource_parts a k [] org); [done|by constructor|by apply plain_name_path_name|]|].
  - change (Join _ _) with (String a k +:+ "/" +:+ org). rewrite !plain_app, Hp.
    by destruct Ho as (_&_&->&_).
  - simpl. rewrite bool_decide_eq_true_2 by done. destruct Ho as (HT & Hne & _). rewrite HT.
    apply is_empty_false in Hne as ->. done.
Qed.
Lemma Normalize_project_path kind org pkind project :
  kind ∈ org_aliases → pkind ∈ project_aliases → plain_name org → plain_name project →
  NormalizeAccessResource ("/" +:+ kind +:+ "/" +:+ org +:+ "/" +:+ pkind +:+ "/" +:+ project)
  = canon_project org project.
Proof.
  intros Hk Hpk Ho Hpr. pose proof org_aliases_ok as Hok. rewrite Forall_forall in Hok. specialize (Hok _ Hk).
  pose proof project_aliases_ok as Hpok. rewrite Forall_forall in Hpok. specialize (Hpok _ Hpk).
  destruct kind as [|a k]; [done|]. destruct pkind as [|b pk]; [done|]. simpl in Hok, Hpok.
  apply andb_true_iff in Hok as [[Ha%bool_decide_eq_true Hs%bool_decide_eq_true]%andb_true_iff Hp].
  apply andb_true_iff in Hpok as [[Hb%bool_decide_eq_true Hbs%bool_decide_eq_true]%andb_true_iff Hbp].
  etrans; [apply (NormalizeAccessResource_parts a k [org; String b pk] project);
    [done| |by apply plain_name_path_name|]|].
  - repeat constructor; [done|by destruct Ho as (_&_&_&?)|done].
  - change (Join _ _) with (String a k +:+ "/" +:+ org +:+ "/" +:+ String b pk +:+ "/" +:+ project).
    rewrite !plain_app, Hp, Hbp. destruct Ho as (_&_&->&_). by destruct Hpr as (_&_&->&_).
  - simpl. rewrite !bool_decide_eq_true_2 by done. destruct Ho as (HT & Hne & _). rewrite HT.
    apply is_empty_false in Hne as ->. destruct Hpr as (HT' & Hne' & _). rewrite HT'.
    by apply is_empty_false in Hne' as ->.
Qed.
Lemma Normalize_canon_org org : plain_name org → NormalizeAccessResource (canon_org org) = canon_org org.
Proof. apply (Normalize_org_path "organization" org). set_solver. Qed.
Lemma Normalize_canon_project org project :
  plain_name org → plain_name project →
  NormalizeAccessResource (canon_project org project) = canon_project org project.
Proof. apply (Normalize_project_path "organization" org "project" project); set_solver. Qed.

(** Every result of the normalisation is empty, canonical, or the trimmed input. *)
Inductive normalized (raw : string) : string → Prop :=
  | norm_empty : normalized raw ""
  | norm_org org : path_name org → normalized raw (canon_org org)
  | norm_project org project : path_name org → path_name project → normalized raw (canon_project org project)
  | norm_other : normalized raw (TrimSpace raw).

Lemma canonical_parts_normalized raw parts r :
  Forall (λ p, slash ∉ chars p) parts → canonical_parts parts = Some r → normalized raw r.
Proof.
  destruct parts as [|kind [|rawOrg rest]]; simpl; [done|done|].
  rewrite !Forall_cons. intros (_ & Ho & Hrest). case_bool_decide; [|done].
  destruct (is_empty (TrimSpace rawOrg)) eqn:Ee; [intros [= <-]; constructor|].
  apply is_empty_false in Ee. assert (path_name (TrimSpace rawOrg)) by (by apply path_name_TrimSpace).
  destruct rest as [|pkind [|rawProject rest]]; try (intros [= <-]; by constructor).
  rewrite !Forall_cons in Hrest. destruct Hrest as (_ & Hpr & _).
  destruct (bool_decide _ && _) eqn:Eb; intros [= <-]; [|by constructor].
  apply andb_true_iff in Eb as [_ Eb%negb_true_iff]. apply is_empty_false in Eb.
  apply norm_project; [done|]. by apply path_name_TrimSpace.
Qed.
Lemma NormalizeAccessResource_normalized raw : normalized raw (NormalizeAccessResource raw).
Proof.
  unfold NormalizeAccessResource. destruct (is_empty _) eqn:Ee; [constructor|].
  destruct (canonical_parts _) as [r|] eqn:Er; simpl; [|constructor].
  eapply canonical_parts_normalized, Er. apply Split_avoid.
Qed.
Lemma NormalizeAccessResource_TrimSpace raw :
  NormalizeAccessResource (TrimSpace raw) = NormalizeAccessResource raw.
Proof. unfold NormalizeAccessResource. by rewrite TrimSpace_idemp. Qed.

Lemma plain_canon_org org : plain (canon_org org) = plain org.
Proof. unfold canon_org. by rewrite plain_app. Qed.
Lemma plain_canon_project org project : plain (canon_project org project) = plain org && plain project.
Proof. unfold canon_project. by rewrite !plain_app. Qed.

(** ** Scopes of canonical resources *)
Lemma parseResourcePath_org r org :
  NormalizeAccessResource r = canon_org org → path_name org → parseResourcePath r = (org, "").
Proof.
  intros Hr (HT & _ & Hs). unfold parseResourcePath, canon_org in *. rewrite Hr, HasPrefix_app, TrimPrefix_app. simpl negb.
  cbv iota. by rewrite Cut_avoid, HT by done.
Qed.
Lemma parseResourcePath_project r org project :
  NormalizeAccessResource r = canon_project org project → path_name org → path_name project →
  parseResourcePath r = (org, project).
Proof.
  intros Hr (HT & _ & Hs) (HT' & _ & Hs'). unfold parseResourcePath, canon_project in *.
  rewrite Hr, HasPrefix_app, TrimPrefix_app. simpl negb. cbv iota.
  rewrite (Cut_app org slash "project/" project) by done. by rewrite HT, HT'.
Qed.
Lemma ResourceScope_org r org :
  NormalizeAccessResource r = canon_org org → path_name org → ResourceScope r = Some (org, "").
Proof.
  intros. unfold ResourceScope. rewrite (parseResourcePath_org _ org) by done.
  by rewrite path_name_not_empty.
Qed.
Lemma ResourceScope_project r org project :
  NormalizeAccessResource r = canon_project org project → path_name org → path_name project →
  ResourceScope r = Some (org, project).
Proof.
  intros. unfold ResourceScope. rewrite (parseResourcePath_project _ org project) by done.
  by rewrite path_name_not_empty.
Qed.

(** ** Normalised lists *)
Lemma NormalizeAccessResources_NoDup l : NoDup (NormalizeAccessResources l).
Proof. apply NoDup_dedup. Qed.
Lemma elem_of_NormalizeAccessResources l r :
  r ∈ NormalizeAccessResources l ↔ r ≠ "" ∧ ∃ raw, raw ∈ l ∧ r = NormalizeAccessResource raw.
Proof.
  unfold NormalizeAccessResources. rewrite elem_of_dedup, list_elem_of_filter, list_elem_of_fmap. naive_solver.
Qed.
Lemma NormalizeAccessResources_nil_iff l :
  NormalizeAccessResources l = [] ↔ ∀ raw, raw ∈ l → NormalizeAccessResource raw = "".
Proof.
  split.
  - intros H raw Hraw. destruct (decide (NormalizeAccessResource raw = "")) as [|Hne]; [done|].
    assert (NormalizeAccessResource raw ∈ NormalizeAccessResources l) as Hin
      by (apply elem_of_NormalizeAccessResources; eauto).
    rewrite H in Hin. set_solver.
  - intros H. destruct (NormalizeAccessResources l) as [|r l'] eqn:E; [done|].
    assert (r ∈ NormalizeAccessResources l) as (Hne & raw & Hraw & ->)%elem_of_NormalizeAccessResources
      by (rewrite E; set_solver). by apply H in Hraw.
Qed.
(** A list of distinct fixed points of the normalisation is left alone. *)
Lemma NormalizeAccessResources_id l :
  NoDup l → Forall (λ r, NormalizeAccessResource r = r ∧ r ≠ "") l → NormalizeAccessResources l = l.
Proof.
  intros Hnd Hf. unfold NormalizeAccessResources.
  assert (NormalizeAccessResource <$> l = l) as ->.
  { clear Hnd. induction Hf as [|r l [Hr _] _ IH]; [done|]. csimpl. by rewrite Hr, IH. }
  assert (filter (.≠ "") l = l) as ->.
  { clear Hnd. induction Hf as [|r l [_ Hr] _ IH]; [done|]. by rewrite filter_cons_True, IH. }
  by apply dedup_id.
Qed.
#[export] Hint Resolve NormalizeAccessResources_NoDup : go.

(** ** The organization map *)
(** The projects a list of paths names for one organization, in order. *)
Definition scope_project (org path : string) : option string :=
  let '(o, p) := parseResourcePath (TrimSpace path) in
  if bool_decide (o = org) && negb (is_empty p) then Some p else None.
Definition names_org (org path : string) : bool :=
  bool_decide ((parseResourcePath (TrimSpace path)).1 = org).

Lemma authz_fold_lookup m paths org :
  org ≠ "" →
  foldl authz_add m paths !! org =
    match m !! org with
    | Some l => Some (l ++ omap (scope_project org) paths)
    | None => if existsb (names_org org) paths then Some (omap (scope_project org) paths) else None
    end.
Proof.
  intros Horg. revert m. induction paths as [|path paths IH]; intros m; csimpl.
  { destruct (m !! org); [by rewrite app_nil_r|done]. }
  rewrite IH. unfold authz_add.
  assert (names_org org path = bool_decide ((parseResourcePath (TrimSpace path)).1 = org)) as -> by done.
  assert (scope_project org path = let '(o, p) := parseResourcePath (TrimSpace path) in
    if bool_decide (o = org) && negb (is_empty p) then Some p else None) as -> by done.
  destruct (parseResourcePath (TrimSpace path)) as [o p]; simpl.
  destruct (decide (o = org)) as [->|Hne].
  - rewrite !bool_decide_eq_true_2 by done. apply is_empty_false in Horg. rewrite Horg, lookup_insert_eq.
    destruct (is_empty p); simpl; destruct (m !! org); simpl; rewrite <- ?(assoc_L (++)); done.
  - rewrite !bool_decide_eq_false_2 by done. simpl.
    destruct (is_empty o); [done|]. by rewrite lookup_insert_ne.
Qed.
Lemma authz_fold_nonempty m paths : m !! "" = None → foldl authz_add m paths !! "" = None.
Proof.
  revert m. induction paths as [|path paths IH]; intros m Hm; csimpl; [done|]. apply IH.
  unfold authz_add. destruct (parseResourcePath _) as [o p]. destruct (is_empty o) eqn:E; [done|].
  apply is_empty_false in E. by rewrite lookup_insert_ne.
Qed.
Lemma AuthzListToMap_lookup paths org :
  org ≠ "" →
  AuthzListToMap paths ≫= (.!! org) =
    if existsb (names_org org) paths then Some (omap (scope_project org) paths) else None.
Proof.
  intros Horg. pose proof (authz_fold_lookup ∅ paths org Horg) as H. rewrite lookup_empty in H.
  unfold AuthzListToMap. rewrite <- H. case_decide as He; [by rewrite He|done].
Qed.

Section range_lemmas.
Context `{MapOrder}.
Lemma elem_of_AuthzMapToList m r :
  r ∈ AuthzMapToList (Some m) ↔ ∃ org projects, m !! org = Some projects ∧ r ∈ authz_entry (org, projects).
Proof.
  unfold AuthzMapToList. rewrite elem_of_concat. split.
  - intros (l & ([org projects] & -> & Hm)%list_elem_of_fmap & Hr). apply elem_of_go_range in Hm. eauto.
  - intros (org & projects & Hm & Hr). eexists. split; [|exact Hr].
    apply list_elem_of_fmap. eexists (_, _). split; [done|]. by apply elem_of_go_range.
Qed.
End range_lemmas.

(** A claim in canonical form over plain names. *)
Inductive plain_claim : string → Prop :=
  | claim_org org : plain_name org → plain_claim (canon_org org)
  | claim_project org project : plain_name org → plain_name project → plain_claim (canon_project org project).

Lemma plain_claim_normal c : plain_claim c → NormalizeAccessResource c = c ∧ c ≠ "".
Proof.
  intros [org Ho|org p Ho Hp]; (split; [by auto using Normalize_canon_org, Normalize_canon_project|]);
    unfold canon_org, canon_project; by intros [? _]%string_app_eq_nil.
Qed.
Lemma canon_org_inj o1 o2 : canon_org o1 = canon_org o2 → o1 = o2.
Proof. apply string_app_inv_l. Qed.
Lemma canon_org_project_ne o1 o2 p : plain_name o1 → canon_org o1 ≠ canon_project o2 p.
Proof.
  intros (_&_&_&Hs) E%string_app_inv_l. subst. apply Hs. rewrite !chars_app. set_solver.
Qed.
Lemma canon_project_inj o1 o2 p1 p2 :
  plain_name o1 → plain_name o2 → canon_project o1 p1 = canon_project o2 p2 → o1 = o2 ∧ p1 = p2.
Proof.
  intros (_&_&_&H1) (_&_&_&H2) E%string_app_inv_l.
  pose proof (Cut_app o1 slash "project/" p1 H1) as E1.
  pose proof (Cut_app o2 slash "project/" p2 H2) as E2. change (String slash "project/") with "/project/" in *.
  rewrite E in E1. rewrite E2 in E1. by simplify_eq.
Qed.
Lemma parse_plain_claim c :
  plain_claim c → NormalizeAccessResource (TrimSpace c) = c.
Proof. intros Hc. rewrite NormalizeAccessResource_TrimSpace. by apply plain_claim_normal. Qed.
Lemma scope_project_Some claims org p :
  Forall plain_claim claims → plain_name org → plain_name p →
  p ∈ omap (scope_project org) claims ↔ canon_project org p ∈ claims.
Proof.
  intros Hf Ho Hp. rewrite list_elem_of_omap. rewrite Forall_forall in Hf. split.
  - intros (c & Hc & Hs). specialize (Hf c Hc). pose proof (parse_plain_claim c Hf) as Hn.
    unfold scope_project in Hs. destruct Hf as [o Ho'|o p' Ho' Hp'].
    + rewrite (parseResourcePath_org _ o) in Hs by auto using plain_name_path_name.
      by rewrite andb_false_r in Hs.
    + rewrite (parseResourcePath_project _ o p') in Hs by auto using plain_name_path_name.
      rewrite plain_name_not_empty in Hs by done. case_bool_decide; simplify_eq/=; done.
  - intros Hc. exists (canon_project org p). split; [done|]. unfold scope_project.
    rewrite (parseResourcePath_project _ org p) by auto using plain_name_path_name, parse_plain_claim.
    rewrite plain_name_not_empty, bool_decide_eq_true_2; done.
Qed.

(** The scope a canonical claim names. *)
Lemma parse_claim_cases c org :
  plain_claim c → names_org org c = true →
  plain_name org ∧ (c = canon_org org ∨ ∃ p, plain_name p ∧ c = canon_project org p).
Proof.
  intros Hc. pose proof (parse_plain_claim c Hc) as Hn. unfold names_org.
  destruct Hc as [o Ho|o p Ho Hp].
  - rewrite (parseResourcePath_org _ o) by auto using plain_name_path_name.
    rewrite bool_decide_eq_true. simpl. intros <-. auto.
  - rewrite (parseResourcePath_project _ o p) by auto using plain_name_path_name.
    rewrite bool_decide_eq_true. simpl. intros <-. eauto.
Qed.
Lemma names_org_canon org c :
  plain_name org → c = canon_org org ∨ (∃ p, plain_name p ∧ c = canon_project org p) → names_org org c = true.
Proof.
  intros Ho [->|(p & Hp & ->)]; unfold names_org; apply bool_decide_eq_true.
  - by rewrite (parseResourcePath_org _ org) by
      auto using plain_name_path_name, parse_plain_claim, claim_org.
  - by rewrite (parseResourcePath_project _ org p) by
      auto using plain_name_path_name, parse_plain_claim, claim_project.
Qed.
Lemma project_names claims org :
  Forall plain_claim claims → Forall plain_name (omap (scope_project org) claims).
Proof.
  rewrite !Forall_forall. intros Hf p (c & Hc & Hs)%list_elem_of_omap. specialize (Hf c Hc).
  pose proof (parse_plain_claim c Hf) as Hn. unfold scope_project in Hs. destruct Hf as [o Ho|o p' Ho Hp].
  - rewrite (parseResourcePath_org _ o) in Hs by auto using plain_name_path_name.
    by rewrite andb_false_r in Hs.
  - rewrite (parseResourcePath_project _ o p') in Hs by auto using plain_name_path_name.
    by case_match; simplify_eq.
Qed.

(** What the organization map of canonical claims holds. *)
Lemma claims_map_lookup claims org :
  Forall plain_claim claims →
  ControlledAccessToAuthzMap claims ≫= (.!! org) =
    if decide (org ≠ "" ∧ existsb (names_org org) claims = true)
    then Some (omap (scope_project org) (dedup claims)) else None.
Proof.
  intros Hf. unfold ControlledAccessToAuthzMap.
  assert (NormalizeAccessResources claims = dedup claims) as ->.
  { unfold NormalizeAccessResources. f_equal. induction Hf as [|c claims Hc _ IH]; [done|]. csimpl.
    destruct (plain_claim_normal c Hc) as [-> Hne]. by rewrite filter_cons_True, IH. }
  assert (existsb (names_org org) (dedup claims) = existsb (names_org org) claims) as Hex.
  { apply eq_iff_eq_true. rewrite !existsb_exists. by setoid_rewrite <- list_elem_of_In; setoid_rewrite elem_of_dedup. }
  destruct (decide (org = "")) as [->|Hne].
  - rewrite decide_False by tauto. unfold AuthzListToMap. case_decide; [done|]. simpl.
    by apply authz_fold_nonempty.
  - rewrite AuthzListToMap_lookup, Hex by done. destruct (existsb (names_org org) claims);
      [rewrite decide_True by done|rewrite decide_False by (by intros [])]; done.
Qed.

Section properties.
Context `{MapOrder}.

(** What survives the trip of canonical claims through the organization map. *)
Definition survives (claims : list string) (c : string) : Prop :=
  c ∈ claims ∧ ∀ org p, plain_name org → plain_name p → c = canon_org org → canon_project org p ∉ claims.

Lemma elem_of_authz_roundtrip claims c :
  Forall plain_claim claims →
  c ∈ AuthzMapToList (ControlledAccessToAuthzMap claims) ↔ survives claims c.
Proof.
  intros Hf. pose proof (claims_map_lookup claims) as Hlook.
  assert (Forall plain_claim (dedup claims)) as Hfd by (apply Forall_forall; intros ? Hd%elem_of_dedup_on; rewrite Forall_forall in Hf; auto).
  assert (c ∈ AuthzMapToList (ControlledAccessToAuthzMap claims) ↔
    ∃ org l, ControlledAccessToAuthzMap claims ≫= (.!! org) = Some l ∧ c ∈ authz_entry (org, l)) as ->.
  { destruct (ControlledAccessToAuthzMap claims) as [m|]; simpl; [by apply elem_of_AuthzMapToList|].
    set_solver. }
  assert (∀ org p, plain_name org → plain_name p →
    p ∈ omap (scope_project org) (dedup claims) ↔ canon_project org p ∈ claims) as Hproj.
  { intros org p Ho Hp. rewrite scope_project_Some by done. by rewrite elem_of_dedup. }
  assert (∀ org, Forall plain_name (omap (scope_project org) (dedup claims))) as Hnames.
  { intros org. by apply project_names. }
  split.
  - intros (org & l & Hl & Hc). rewrite Hlook in Hl by done. case_decide as Hd; [|done].
    destruct Hd as (Hne & (c0 & Hc0%list_elem_of_In & Hn)%existsb_exists). injection Hl as <-.
    rewrite Forall_forall in Hf. destruct (parse_claim_cases c0 org (Hf _ Hc0) Hn) as [Ho Hcase].
    unfold authz_entry in Hc. specialize (Hnames org).
    destruct (omap _ _) as [|p0 ps] eqn:Eps.
    + apply list_elem_of_singleton in Hc as ->. split.
      * destruct Hcase as [->|(p & Hp & ->)]; [done|].
        exfalso. apply (Hproj org p Ho Hp) in Hc0. rewrite Eps in Hc0. set_solver.
      * intros org' p' Ho' Hp' <-%canon_org_inj Hin. apply (Hproj org p' Ho Hp') in Hin.
        rewrite Eps in Hin. set_solver.
    + rewrite <- Eps in *. apply list_elem_of_fmap in Hc as (p & -> & Hin).
      rewrite Forall_forall in Hnames. pose proof (Hnames p Hin) as Hp.
      pose proof Hp as (HT & Hpne & _). rewrite HT. apply is_empty_false in Hpne as ->.
      split; [by apply Hproj|]. intros org' p' Ho' _ E. symmetry in E. by apply (canon_org_project_ne org') in E.
  - intros [Hc Hs]. pose proof Hf as Hall. rewrite Forall_forall in Hf. specialize (Hf c Hc).
    assert (∃ org, plain_name org ∧ names_org org c = true) as (org & Ho & Hn).
    { destruct Hf as [o Ho|o p Ho Hp]; exists o; (split; [done|]); apply names_org_canon; eauto. }
    exists org, (omap (scope_project org) (dedup claims)). split.
    { rewrite Hlook by done. rewrite decide_True; [done|]. split; [apply Ho|].
      apply existsb_exists. exists c. by rewrite <- list_elem_of_In. }
    destruct (parse_claim_cases c org Hf Hn) as [_ [->|(p & Hp & ->)]].
    + destruct (omap _ _) as [|p ps] eqn:Eps; [by apply list_elem_of_singleton|].
      exfalso. assert (plain_name p) as Hp.
      { specialize (Hnames org). rewrite Eps, Forall_cons in Hnames. by destruct Hnames. }
      apply (Hs org p); [done..|]. apply Hproj; [done..|]. rewrite Eps. set_solver.
    + apply (Hproj org p) in Hc; [|done..]. unfold authz_entry. destruct (omap _ _) as [|p0 ps]; [set_solver|].
      apply list_elem_of_fmap. exists p. split; [|done]. destruct Hp as (HT & Hpne & _).
      rewrite HT. by apply is_empty_false in Hpne as ->.
Qed.

(** Controlled-access claims in canonical form, sent through the wire authorizations map and
    back, keep every project claim, and keep an organization-wide claim exactly when no project
    of the same organization is claimed; nothing is added and nothing is repeated. *)
Theorem controlled_access_roundtrip claims :
  Forall plain_claim claims →
  NoDup (AuthzMapToControlledAccess (ControlledAccessToAuthzMap claims)) ∧
  ∀ c, c ∈ AuthzMapToControlledAccess (ControlledAccessToAuthzMap claims) ↔
       c ∈ claims ∧ ∀ org p, plain_name org → plain_name p → c = canon_org org → canon_project org p ∉ claims.
Proof.
  intros Hf. split; [apply NormalizeAccessResources_NoDup|]. intros c.
  unfold AuthzMapToControlledAccess. rewrite elem_of_NormalizeAccessResources.
  pose proof Hf as Hall. rewrite Forall_forall in Hall. split.
  - intros (_ & raw & Hraw & ->). apply elem_of_authz_roundtrip in Hraw; [|done].
    by destruct (plain_claim_normal raw) as [-> _]; [apply Hall; apply Hraw|].
  - intros Hs. destruct (plain_claim_normal c) as [Hn Hne]; [apply Hall; apply Hs|]. split; [done|].
    exists c. split; [|done]. by apply elem_of_authz_roundtrip.
Qed.
End properties.

Lemma controlled_access_roundtrip_witness :
  Forall plain_claim ["/organization/cbds"; "/organization/ohsu/project/p1"; "/organization/ohsu"] ∧
  ("/organization/cbds" ∈ AuthzMapToControlledAccess (H:=canonical_order)
     (ControlledAccessToAuthzMap ["/organization/cbds"; "/organization/ohsu/project/p1"; "/organization/ohsu"])).
Proof.
  assert (Forall plain_claim ["/organization/cbds"; "/organization/ohsu/project/p1"; "/organization/ohsu"]) as Hf.
  { apply Forall_cons; split; [apply (claim_org "cbds")|apply Forall_cons; split; [apply (claim_project "ohsu" "p1")|
      apply Forall_cons; split; [apply (claim_org "ohsu")|constructor]]];
      by apply (bool_decide_unpack _); vm_compute. }
  split; [exact Hf|]. apply (proj2 (@controlled_access_roundtrip canonical_order _ Hf)). split; [set_solver|].
  intros org p _ _ <-%(canon_org_inj "cbds").
  unfold canon_project. rewrite !elem_of_cons. intros [E|[E|[E|E%elem_of_nil]]]; try done.
  all: by repeat (injection E as E).
Defined.

(** The resource path of an organization or a project reads back as that scope. *)
Theorem ResourcePath_roundtrip org project :
  plain_name org → project = "" ∨ plain_name project →
  ∃ r, ResourcePath org project = Ok r ∧ NormalizeAccessResource r = r ∧ ResourceScope r = Some (org, project).
Proof.
  intros Ho Hp. unfold ResourcePath. pose proof Ho as (-> & Hne & _). rewrite plain_name_not_empty by done.
  destruct Hp as [->|Hp].
  - exists (canon_org org). rewrite Normalize_canon_org by done. split_and!; [done..|].
    apply ResourceScope_org; auto using Normalize_canon_org, plain_name_path_name.
  - pose proof Hp as (-> & _). rewrite plain_name_not_empty by done. exists (canon_project org project).
    rewrite Normalize_canon_project by done. split_and!; [done..|].
    apply ResourceScope_project; auto using Normalize_canon_project, plain_name_path_name.
Qed.
Lemma ResourcePath_roundtrip_witness :
  plain_name "ohsu" ∧ plain_name "p1" ∧
  ∃ r, ResourcePath "ohsu" "p1" = Ok r ∧ NormalizeAccessResource r = r ∧ ResourceScope r = Some ("ohsu", "p1").
Proof.
  assert (plain_name "ohsu") by (by apply (bool_decide_unpack _); vm_compute).
  assert (plain_name "p1") by (by apply (bool_decide_unpack _); vm_compute).
  split_and!; [done..|]. apply (ResourcePath_roundtrip "ohsu" "p1"); auto.
Defined.

(** Every alias spelling of a project path, with or without surrounding white space, normalises
    to the same canonical resource. *)
Theorem NormalizeAccessResource_aliases kind pkind org project raw :
  kind ∈ org_aliases → pkind ∈ project_aliases → plain_name org → plain_name project →
  TrimSpace raw = "/" +:+ kind +:+ "/" +:+ org +:+ "/" +:+ pkind +:+ "/" +:+ project →
  NormalizeAccessResource raw = canon_project org project ∧ ResourceScope raw = Some (org, project).
Proof.
  intros Hk Hpk Ho Hp Hraw.
  assert (NormalizeAccessResource raw = canon_project org project) as Hn.
  { rewrite <- NormalizeAccessResource_TrimSpace, Hraw. by apply Normalize_project_path. }
  split; [done|]. apply ResourceScope_project; auto using plain_name_path_name.
Qed.
Lemma NormalizeAccessResource_aliases_witness :
  NormalizeAccessResource " /programs/ohsu/projects/p1 " = "/organization/ohsu/project/p1" ∧
  ResourceScope " /programs/ohsu/projects/p1 " = Some ("ohsu", "p1").
Proof.
  apply (NormalizeAccessResource_aliases "programs" "projects" "ohsu" "p1"); [set_solver..| | |].
  1,2: by apply (bool_decide_unpack _); vm_compute.
  by vm_compute.
Defined.

(** The normalisation of a resource is not idempotent: percent escapes are decoded at each pass,
    so a claim that is normalised twice can name another organization. *)
Theorem NormalizeAccessResource_not_idempotent :
  NormalizeAccessResource "/organization/a%2562" = "/organization/a%62" ∧
  NormalizeAccessResource (NormalizeAccessResource "/organization/a%2562") = "/organization/ab".
Proof. by vm_compute. Qed.
