(* ===== verification/Policy.v ===== *)
(** * Sessions and authorization decisions: internal/access (session.go, policy.go, resources.go,
    errors.go)
    A request context carries at most one session; [FromContext] returns a copy of it, or an empty
    anonymous session.  Maps and slices are values here, so cloning them is the identity and the nil
    map is the empty map.  Decisions are functions of the context. *)
From S2P Require Import Prelude GoStrings GoURL Errors Resources.

(** ** Sessions *)
Abbreviation privileges := (gmap string (gmap string bool)).
Record Session := mkSession {
  Mode : string; Source : string; Subject : string;
  sess_Resources : list string; Privileges : privileges;
  AuthHeaderPresent : bool; AuthzEnforced : bool }.

(** A request context, as far as this package reads it. *)
Definition context := option Session.

Definition SourceAnonymous := "anonymous".
Definition NewSession (mode : string) : Session :=
  mkSession (ToLower (TrimSpace mode)) SourceAnonymous "" [] ∅ false false.

Definition SetSource (source : string) (s : Session) : Session :=
  let source := TrimSpace source in
  if is_empty source then s
  else mkSession (Mode s) source (Subject s) (sess_Resources s) (Privileges s) (AuthHeaderPresent s) (AuthzEnforced s).
Definition SetSubject (subject : string) (s : Session) : Session :=
  mkSession (Mode s) (Source s) (TrimSpace subject) (sess_Resources s) (Privileges s) (AuthHeaderPresent s) (AuthzEnforced s).

Definition normalizeMethodName (method : string) (allowed : bool) : list string :=
  let method := ToLower (TrimSpace method) in
  if is_empty method || negb allowed then []
  else if String.eqb method "write" then ["file_upload"; "create"; "update"; "delete"]
  else [method].

Definition WithSession (ctx : context) (session : option Session) : context :=
  match session with None => ctx | Some s => Some s end.
Definition FromContext (ctx : context) : Session := default (NewSession "") ctx.

Section sessions.
Context `{MapOrder}.

Definition normalize_methods (methods : gmap string bool) : gmap string bool :=
  foldl (λ out '(method, allowed),
    foldl (λ out canonical, <[canonical := true]> out) out (normalizeMethodName method allowed))
    ∅ (go_range methods).
Definition normalizePrivileges (p : privileges) : privileges := normalize_methods <$> p.

Definition SetAuthorizations (resources : list string) (p : privileges) (enforced : bool) (s : Session) : Session :=
  mkSession (Mode s) (Source s) (Subject s) resources (normalizePrivileges p) (AuthHeaderPresent s) enforced.
End sessions.

(** ** Policy *)
Definition GetUserAuthz (ctx : context) : list string := sess_Resources (FromContext ctx).
Definition GetUserPrivileges (ctx : context) : privileges := Privileges (FromContext ctx).
Definition HasAuthHeader (ctx : context) : bool := AuthHeaderPresent (FromContext ctx).
Definition IsGen3Mode (ctx : context) : bool := String.eqb (Mode (FromContext ctx)) "gen3".
Definition IsAuthzEnforced (ctx : context) : bool :=
  let session := FromContext ctx in
  if String.eqb (Mode session) "gen3" then true else AuthzEnforced session.

Definition CheckAccess (recordResources userResources : list string) : bool :=
  let recordResources := NormalizeAccessResources recordResources in
  match recordResources with
  | [] => true
  | _ =>
      let userMap : gset string := list_to_set (filter (.≠ "") (NormalizeAccessResource <$> userResources)) in
      existsb (λ r, bool_decide (r ∈ userMap)) recordResources
  end.

(** The boolean map read [methods[method]]: false when absent. *)
Definition method_set (methods : gmap string bool) (method : string) : bool := default false (methods !! method).

Section policy.
Context `{MapOrder}.

Definition policy_methods (out methods : gmap string bool) : gmap string bool :=
  foldl (λ out '(method, allowed), if (allowed : bool) then <[method := true]> out else out) out (go_range methods).
Definition policy_step (out : privileges) (e : string * gmap string bool) : privileges :=
  let '(rawResource, methods) := e in
  let resource := NormalizeAccessResource rawResource in
  if is_empty resource then out
  else <[resource := policy_methods (default ∅ (out !! resource)) methods]> out.
Definition normalizePolicyPrivileges (p : privileges) : privileges := foldl policy_step ∅ (go_range p).

Definition HasMethodAccess (ctx : context) (method : string) (resources : list string) : bool :=
  if negb (IsAuthzEnforced ctx) then true
  else if IsGen3Mode ctx && negb (HasAuthHeader ctx) then false
  else
    let privs := normalizePolicyPrivileges (GetUserPrivileges ctx) in
    match NormalizeAccessResources resources with
    | [] => false
    | resources =>
        forallb (λ resource,
          match privs !! resource with
          | None => false
          | Some methods => method_set methods method || method_set methods "*"
          end) resources
    end.

Definition HasObjectMethodAccess (ctx : context) (method : string) (resources : list string) : bool :=
  if negb (IsAuthzEnforced ctx) then true
  else if IsGen3Mode ctx && negb (HasAuthHeader ctx) then false
  else
    match NormalizeAccessResources resources with
    | [] => EqualFold (TrimSpace method) "read"
    | resources =>
        let privs := normalizePolicyPrivileges (GetUserPrivileges ctx) in
        if decide (privs = ∅) then CheckAccess resources (GetUserAuthz ctx)
        else
          existsb (λ resource,
            match privs !! resource with
            | None => false
            | Some methods => method_set methods method || method_set methods "*"
            end) resources
    end.

Definition HasAnyMethodAccess (ctx : context) (resources methods : list string) : bool :=
  if negb (IsAuthzEnforced ctx) then true
  else match resources with
       | [] => true
       | _ => existsb (λ m, HasMethodAccess ctx m resources) methods
       end.

Definition HasServiceMethodAccess (ctx : context) (service method : string) (resources : list string) : bool :=
  if negb (IsAuthzEnforced ctx) then true
  else if IsGen3Mode ctx && negb (HasAuthHeader ctx) then false
  else
    let service := ToLower (TrimSpace service) in
    let method := ToLower (TrimSpace method) in
    if is_empty service || is_empty method then false
    else
      match NormalizeAccessResources resources with
      | [] => false
      | resources =>
          let privs := normalizePolicyPrivileges (GetUserPrivileges ctx) in
          let qualifiedMethod := service +:+ ":" +:+ method in
          let serviceWildcard := service +:+ ":*" in
          forallb (λ resource,
            match privs !! resource with
            | None => false
            | Some methods =>
                method_set methods qualifiedMethod || method_set methods serviceWildcard
                || method_set methods "*:*"
            end) resources
      end.

Definition HasAnyServiceMethodAccess (ctx : context) (resources : list string) (service : string)
    (methods : list string) : bool :=
  if negb (IsAuthzEnforced ctx) then true
  else match resources with
       | [] => true
       | _ => existsb (λ m, HasServiceMethodAccess ctx service m resources) methods
       end.

Definition AuthStatusCode (ctx : context) : Z :=
  if IsGen3Mode ctx && negb (HasAuthHeader ctx) then 401%Z else 403%Z.

Definition AuthorizedResources (ctx : context) (method : string) : list string :=
  let p := GetUserPrivileges ctx in
  if decide (p = ∅) then NormalizeAccessResources (GetUserAuthz ctx)
  else
    NormalizeAccessResources
      (fst <$> filter (λ e, method_set e.2 method || method_set e.2 "*" = true) (go_range p)).
End policy.

(** ** The public message of an authorization error *)
Definition formatResourceScope (resource : string) : string :=
  match ResourceScope resource with
  | Some (org, project) =>
      if negb (is_empty org) && negb (is_empty project) then org +:+ "/" +:+ project
      else if negb (is_empty org) then org +:+ "/*"
      else resource
  | None => resource
  end.
Definition formatResourceScopes (resources : list string) : list string := formatResourceScope <$> resources.

Section message.
(** The quoting of fmt's %q verb. *)
Variable quote : string → string.

Definition AuthorizationError_PublicMessage (e : AuthorizationError) : string :=
  let method := TrimSpace (ae_Method e) in
  let method := if is_empty method then "requested" else method in
  let denied := if (ae_DeniedRecords e <=? 0)%nat then 1 else ae_DeniedRecords e in
  let total := if (ae_TotalRecords e <? denied)%nat then denied else ae_TotalRecords e in
  (if (1 <? total)%nat
   then "Unauthorized: missing " +:+ method +:+ " access for " +:+ pretty denied +:+ "/" +:+ pretty total +:+ " records"
   else "Unauthorized: missing " +:+ method +:+ " access")
  +:+ (if is_empty (TrimSpace (ae_RecordID e)) then "" else "; first denied record=" +:+ quote (ae_RecordID e))
  +:+ match ae_Resources e with
      | [] => ""
      | rs =>
          "; denied organization/project scopes: " +:+ Join (formatResourceScopes rs) ", "
          +:+ (if (0 <? ae_TruncatedResources e)%nat
               then " (and " +:+ pretty (ae_TruncatedResources e) +:+ " more)" else "")
      end.
End message.

Example public_message_2 :
  AuthorizationError_PublicMessage (λ s, s) (mkAuthorizationError "read" "" ["/organization/ohsu"; "/organization/o/project/p"] 2 3 7)
  = "Unauthorized: missing read access for 2/3 records; denied organization/project scopes: ohsu/*, o/p (and 7 more)".
Proof. vm_compute. reflexivity. Qed.

(** ** Lemmas *)
(** Permission [m] on the canonical resource [r], read off the raw privilege map. *)
Definition grants (p : privileges) (r m : string) : Prop :=
  ∃ raw methods, p !! raw = Some methods ∧ NormalizeAccessResource raw = r ∧ methods !! m = Some true.

Lemma method_set_true methods m : method_set methods m = true ↔ methods !! m = Some true.
Proof. unfold method_set. destruct (methods !! m) as [[]|]; naive_solver. Qed.
Lemma method_set_empty m : method_set ∅ m = false.
Proof. done. Qed.

Section lemmas.
Context `{MapOrder}.

Lemma policy_methods_spec out methods m :
  method_set (policy_methods out methods) m = true ↔ method_set out m = true ∨ methods !! m = Some true.
Proof.
  rewrite <- elem_of_go_range. unfold policy_methods. revert out.
  induction (go_range methods) as [|[m' b] l IH]; intros out; csimpl; [set_solver|].
  rewrite IH, elem_of_cons, !method_set_true. destruct b.
  - destruct (decide (m' = m)) as [->|Hne]; [rewrite lookup_insert_eq|rewrite lookup_insert_ne by done];
      intuition congruence.
  - intuition congruence.
Qed.

Lemma policy_fold_spec out l r :
  r ≠ "" →
  (∀ m, method_set (default ∅ (foldl policy_step out l !! r)) m = true ↔
    method_set (default ∅ (out !! r)) m = true ∨
    ∃ raw methods, (raw, methods) ∈ l ∧ NormalizeAccessResource raw = r ∧ methods !! m = Some true) ∧
  (is_Some (foldl policy_step out l !! r) ↔
    is_Some (out !! r) ∨ ∃ raw methods, (raw, methods) ∈ l ∧ NormalizeAccessResource raw = r).
Proof.
  intros Hr. revert out. induction l as [|[raw ms] l IH]; intros out; [set_solver|].
  csimpl. destruct (IH (policy_step out (raw, ms))) as [IH1 IH2].
  assert (∀ m, method_set (default ∅ (policy_step out (raw, ms) !! r)) m = true ↔
    method_set (default ∅ (out !! r)) m = true ∨ NormalizeAccessResource raw = r ∧ ms !! m = Some true) as Hm.
  { intros m. unfold policy_step. destruct (is_empty _) eqn:Ee; [apply is_empty_spec in Ee; intuition congruence|].
    destruct (decide (NormalizeAccessResource raw = r)) as [->|Hne].
    - rewrite lookup_insert_eq. pose proof (policy_methods_spec (default ∅ (out !! r)) ms m) as Hpm. cbn. intuition done.
    - rewrite lookup_insert_ne by done. intuition done. }
  assert (is_Some (policy_step out (raw, ms) !! r) ↔ is_Some (out !! r) ∨ NormalizeAccessResource raw = r) as Hi.
  { unfold policy_step. destruct (is_empty _) eqn:Ee; [apply is_empty_spec in Ee; intuition congruence|].
    destruct (decide (NormalizeAccessResource raw = r)) as [->|Hne].
    - rewrite lookup_insert_eq. intuition eauto.
    - rewrite lookup_insert_ne by done. intuition done. }
  split; [intros m; rewrite IH1, Hm|rewrite IH2, Hi]; clear; split.
  - intros [[?|[? ?]]|(raw' & ms' & ? & ? & ?)]; [by left|right; exists raw, ms|right; exists raw', ms'];
      rewrite elem_of_cons; auto.
  - intros [?|(raw' & ms' & [[= -> ->]|?]%elem_of_cons & ? & ?)]; eauto 7.
  - intros [[?|?]|(raw' & ms' & ? & ?)]; [by left|right; exists raw, ms|right; exists raw', ms'];
      rewrite elem_of_cons; auto.
  - intros [?|(raw' & ms' & [[= -> ->]|?]%elem_of_cons & ?)]; eauto 7.
Qed.

Lemma policy_fold_empty_key out l : out !! "" = None → foldl policy_step out l !! "" = None.
Proof.
  revert out. induction l as [|[raw ms] l IH]; intros out Ho; csimpl; [done|]. apply IH. unfold policy_step.
  destruct (is_empty _) eqn:E; [done|]. apply is_empty_false in E. by rewrite lookup_insert_ne.
Qed.

Lemma normalizePolicyPrivileges_grants p r m :
  r ≠ "" → method_set (default ∅ (normalizePolicyPrivileges p !! r)) m = true ↔ grants p r m.
Proof.
  intros Hr. destruct (policy_fold_spec ∅ (go_range p) r Hr) as [Hs _]. unfold normalizePolicyPrivileges.
  rewrite Hs. unfold grants. setoid_rewrite elem_of_go_range. naive_solver.
Qed.
Lemma normalizePolicyPrivileges_empty p :
  normalizePolicyPrivileges p = ∅ ↔ ∀ raw, is_Some (p !! raw) → NormalizeAccessResource raw = "".
Proof.
  split.
  - intros He raw [ms Hraw]. destruct (decide (NormalizeAccessResource raw = "")) as [|Hne]; [done|].
    destruct (policy_fold_spec ∅ (go_range p) _ Hne) as [_ Hs].
    fold (normalizePolicyPrivileges p) in Hs. rewrite He, !lookup_empty in Hs.
    destruct Hs as [_ Hs]. destruct Hs; [|done]. right. exists raw, ms. by rewrite elem_of_go_range.
  - intros Hall. apply map_empty. intros r. destruct (decide (r = "")) as [->|Hr].
    { by apply policy_fold_empty_key. }
    destruct (policy_fold_spec ∅ (go_range p) r Hr) as [_ Hs]. apply eq_None_not_Some.
    fold (normalizePolicyPrivileges p) in Hs. rewrite Hs, lookup_empty.
    intros [[? ?]|(raw & ms & Hin%elem_of_go_range & <-)]; [done|]. apply Hr, Hall. eauto.
Qed.

(** The test each policy function makes on one resource. *)
Lemma grants_test p r m w :
  r ≠ "" →
  match normalizePolicyPrivileges p !! r with
  | None => false | Some methods => method_set methods m || method_set methods w end = true
  ↔ grants p r m ∨ grants p r w.
Proof.
  intros Hr. rewrite <- !normalizePolicyPrivileges_grants by done.
  destruct (normalizePolicyPrivileges p !! r); simpl; [by rewrite orb_true_iff|].
  rewrite !method_set_empty. naive_solver.
Qed.

Lemma forallb_resources (f : string → bool) (P : string → Prop) resources :
  (∀ r, r ≠ "" → f r = true ↔ P r) →
  match NormalizeAccessResources resources with [] => false | rs => forallb f rs end = true ↔
  NormalizeAccessResources resources ≠ [] ∧ ∀ r, r ∈ NormalizeAccessResources resources → P r.
Proof.
  intros Hf.
  assert (∀ r, r ∈ NormalizeAccessResources resources → f r = true ↔ P r) as Hf'.
  { intros r [Hr _]%elem_of_NormalizeAccessResources. by apply Hf. }
  destruct (NormalizeAccessResources resources) as [|r rs]; [naive_solver|].
  rewrite forallb_forall. setoid_rewrite <- list_elem_of_In. naive_solver.
Qed.

Lemma normalize_methods_spec methods c :
  method_set (normalize_methods methods) c = true ↔
  ∃ m, methods !! m = Some true ∧ c ∈ normalizeMethodName m true.
Proof.
  assert (∀ l out, method_set (foldl (λ out '(method, allowed),
    foldl (λ out canonical, <[canonical := true]> out) out (normalizeMethodName method allowed)) out l) c = true ↔
    method_set out c = true ∨ ∃ m, (m, true) ∈ l ∧ c ∈ normalizeMethodName m true) as Hgen.
  { induction l as [|[m b] l IH]; intros out; csimpl; [set_solver|]. rewrite IH.
    assert (∀ cs out, method_set (foldl (λ out canonical, <[canonical := true]> out) out cs) c = true ↔
      method_set out c = true ∨ c ∈ cs) as ->.
    { clear. induction cs as [|c' cs IH]; intros out; csimpl; [set_solver|].
      rewrite IH, elem_of_cons, !method_set_true.
      destruct (decide (c' = c)) as [->|Hne]; [rewrite lookup_insert_eq|rewrite lookup_insert_ne by done];
        intuition congruence. }
    setoid_rewrite elem_of_cons. destruct b.
    { split; [intros [[?|?]|(m0 & ? & ?)]; eauto|].
      intros [?|(m0 & [[= ->]|?] & ?)]; eauto. }
    assert (normalizeMethodName m false = []) as ->.
    { unfold normalizeMethodName. by rewrite orb_true_r. }
    set_solver. }
  unfold normalize_methods. rewrite Hgen, method_set_empty. setoid_rewrite elem_of_go_range. naive_solver.
Qed.
Lemma grants_normalizePrivileges p r c :
  grants (normalizePrivileges p) r c ↔
  ∃ raw methods m, p !! raw = Some methods ∧ NormalizeAccessResource raw = r ∧
    methods !! m = Some true ∧ c ∈ normalizeMethodName m true.
Proof.
  unfold grants, normalizePrivileges. setoid_rewrite lookup_fmap_Some. split.
  - intros (raw & ms' & (ms & <- & Hp) & Hr & Hc). apply method_set_true, normalize_methods_spec in Hc.
    destruct Hc as (m & ? & ?). eauto 8.
  - intros (raw & ms & m & Hp & Hr & Hm & Hc). exists raw, (normalize_methods ms). split_and!; [eauto|done|].
    apply method_set_true, normalize_methods_spec. eauto.
Qed.
End lemmas.

(** ** Properties *)
(** What every policy function checks before it looks at resources. *)
Definition admitted_caller (ctx : context) : Prop := IsGen3Mode ctx = true → HasAuthHeader ctx = true.

Section properties.
Context `{MapOrder}.

Lemma enforced_cases ctx (b : bool) (P : Prop) :
  (b = true ↔ P) →
  (if negb (IsAuthzEnforced ctx) then true
   else if IsGen3Mode ctx && negb (HasAuthHeader ctx) then false else b) = true ↔
  (IsAuthzEnforced ctx = false ∨ admitted_caller ctx ∧ P).
Proof.
  unfold admitted_caller. destruct (IsAuthzEnforced ctx), (IsGen3Mode ctx), (HasAuthHeader ctx); simpl;
    intuition congruence.
Qed.

(** Access to a set of resources with one method: outside enforcement it is always given;
    under enforcement the caller must carry an authorization header in gen3 mode, the normalised
    resource set must be non-empty, and EVERY normalised resource must be granted the method or
    the wildcard by some entry of the session's privilege map that normalises to it. *)
Theorem HasMethodAccess_spec ctx method resources :
  HasMethodAccess ctx method resources = true ↔
  IsAuthzEnforced ctx = false ∨
  admitted_caller ctx ∧ NormalizeAccessResources resources ≠ [] ∧
  ∀ r, r ∈ NormalizeAccessResources resources →
    grants (GetUserPrivileges ctx) r method ∨ grants (GetUserPrivileges ctx) r "*".
Proof. apply enforced_cases, forallb_resources. intros r. apply grants_test. Qed.

Lemma CheckAccess_spec rs us :
  CheckAccess rs us = true ↔
  NormalizeAccessResources rs = [] ∨
  ∃ r u, r ∈ NormalizeAccessResources rs ∧ u ∈ us ∧ NormalizeAccessResource u = r.
Proof.
  assert (∀ r, r ∈ NormalizeAccessResources rs → r ≠ "") as Hne.
  { by intros r [? _]%elem_of_NormalizeAccessResources. }
  unfold CheckAccess. destruct (NormalizeAccessResources rs) as [|r0 l]; [by split; [left|]|].
  rewrite existsb_exists. setoid_rewrite <- list_elem_of_In. setoid_rewrite bool_decide_eq_true.
  setoid_rewrite elem_of_list_to_set. setoid_rewrite list_elem_of_filter. setoid_rewrite list_elem_of_fmap.
  split.
  - intros (r & Hr & _ & u & -> & Hu). right. eauto.
  - intros [?|(r & u & Hr & Hu & <-)]; [done|]. exists (NormalizeAccessResource u). split_and!; auto. eauto.
Qed.

Lemma object_test ctx method resources :
  match NormalizeAccessResources resources with
  | [] => EqualFold (TrimSpace method) "read"
  | resources =>
      let privs := normalizePolicyPrivileges (GetUserPrivileges ctx) in
      if decide (privs = ∅) then CheckAccess resources (GetUserAuthz ctx)
      else existsb (λ resource,
            match privs !! resource with
            | None => false
            | Some methods => method_set methods method || method_set methods "*"
            end) resources
  end = true ↔
  (NormalizeAccessResources resources = [] ∧ EqualFold (TrimSpace method) "read" = true) ∨
  (NormalizeAccessResources resources ≠ [] ∧
   if decide (normalizePolicyPrivileges (GetUserPrivileges ctx) = ∅)
   then CheckAccess (NormalizeAccessResources resources) (GetUserAuthz ctx) = true
   else ∃ r, r ∈ NormalizeAccessResources resources ∧
    (grants (GetUserPrivileges ctx) r method ∨ grants (GetUserPrivileges ctx) r "*")).
Proof.
  assert (∀ r, r ∈ NormalizeAccessResources resources → r ≠ "") as Hne.
  { by intros r [? _]%elem_of_NormalizeAccessResources. }
  destruct (NormalizeAccessResources resources) as [|r0 l]; [intuition congruence|]. cbv zeta.
  case_decide; [intuition congruence|].
  rewrite existsb_exists. setoid_rewrite <- list_elem_of_In. split.
  - intros (r & Hr & Ht%grants_test); [|by apply Hne]. right. split; [done|]. eauto.
  - intros [[??]|(_ & r & Hr & Hg)]; [done|]. exists r. split; [done|]. apply grants_test; [by apply Hne|done].
Qed.

(** Access to one object, which may list several scopes: outside enforcement it is always given;
    under enforcement the caller must carry an authorization header in gen3 mode, and then an object
    without scopes is open for reading only; with scopes, ONE granted scope is enough; when no
    entry of the privilege map names a resource, the plain resource list of the session decides. *)
Theorem HasObjectMethodAccess_spec ctx method resources :
  HasObjectMethodAccess ctx method resources = true ↔
  IsAuthzEnforced ctx = false ∨
  admitted_caller ctx ∧
  ((NormalizeAccessResources resources = [] ∧ EqualFold (TrimSpace method) "read" = true) ∨
   (NormalizeAccessResources resources ≠ [] ∧
    if decide (∀ raw, raw ∈ dom (GetUserPrivileges ctx) → NormalizeAccessResource raw = "")
    then NormalizeAccessResources (NormalizeAccessResources resources) = [] ∨
         ∃ r u, r ∈ NormalizeAccessResources (NormalizeAccessResources resources) ∧
           u ∈ GetUserAuthz ctx ∧ NormalizeAccessResource u = r
    else ∃ r, r ∈ NormalizeAccessResources resources ∧
           (grants (GetUserPrivileges ctx) r method ∨ grants (GetUserPrivileges ctx) r "*"))).
Proof.
  apply enforced_cases. rewrite object_test.
  pose proof (normalizePolicyPrivileges_empty (GetUserPrivileges ctx)) as He.
  setoid_rewrite <- elem_of_dom in He.
  destruct (decide (normalizePolicyPrivileges (GetUserPrivileges ctx) = ∅)) as [Hd|Hd];
    (destruct (decide (∀ raw, raw ∈ dom (GetUserPrivileges ctx) → NormalizeAccessResource raw = "")) as [Hd'|Hd'];
     [|try done]); try tauto.
  by rewrite CheckAccess_spec.
Qed.

(** In gen3 mode a caller without an authorization header is refused by every policy function
    that is asked about at least one resource, and the refusal is reported as 401. *)
Theorem gen3_requires_header ctx service method methods resources :
  IsGen3Mode ctx = true → HasAuthHeader ctx = false → resources ≠ [] →
  HasMethodAccess ctx method resources = false ∧
  HasObjectMethodAccess ctx method resources = false ∧
  HasAnyMethodAccess ctx resources methods = false ∧
  HasServiceMethodAccess ctx service method resources = false ∧
  HasAnyServiceMethodAccess ctx resources service methods = false ∧
  AuthStatusCode ctx = 401%Z.
Proof.
  intros Hg Hh Hr.
  assert (IsAuthzEnforced ctx = true) as He.
  { unfold IsAuthzEnforced. unfold IsGen3Mode in Hg. by rewrite Hg. }
  assert (∀ m, HasMethodAccess ctx m resources = false) as H1.
  { intros m. unfold HasMethodAccess. by rewrite He, Hg, Hh. }
  assert (∀ m, HasServiceMethodAccess ctx service m resources = false) as H2.
  { intros m. unfold HasServiceMethodAccess. by rewrite He, Hg, Hh. }
  assert (∀ f : string → bool, (∀ m, f m = false) → existsb f methods = false) as Hex.
  { intros f Hf. induction methods as [|m ms IH]; [done|]. simpl. by rewrite Hf. }
  split_and!; auto.
  - unfold HasObjectMethodAccess. by rewrite He, Hg, Hh.
  - unfold HasAnyMethodAccess. rewrite He. destruct resources; [done|]. by apply Hex.
  - unfold HasAnyServiceMethodAccess. rewrite He. destruct resources; [done|]. by apply Hex.
  - unfold AuthStatusCode. by rewrite Hg, Hh.
Qed.

(** Holding a method on every scope of an object implies holding it on the object. *)
Theorem HasMethodAccess_object ctx method resources :
  HasMethodAccess ctx method resources = true → HasObjectMethodAccess ctx method resources = true.
Proof.
  unfold HasMethodAccess, HasObjectMethodAccess.
  rewrite !enforced_cases; [|reflexivity|by apply forallb_resources; intros r; apply grants_test].
  intros [?|(Ha & Hne & Hall)]; [by left|]. right. split; [done|]. apply object_test. right.
  split; [done|]. destruct (NormalizeAccessResources resources) as [|r rs] eqn:E; [done|].
  pose proof (Hall r ltac:(set_solver)) as Hr.
  assert (r ≠ "") as Hrne.
  { assert (r ∈ NormalizeAccessResources resources) as [? _]%elem_of_NormalizeAccessResources; [|done].
    rewrite E. set_solver. }
  rewrite decide_False; [exists r; set_solver|].
  rewrite normalizePolicyPrivileges_empty. intros Hemp. apply Hrne.
  destruct Hr as [(raw & ms & Hp & <- & _)|(raw & ms & Hp & <- & _)]; apply Hemp; eauto.
Qed.

(** A session whose authorizations were set from a privilege map [p] has access with method [m]
    exactly when every scope is granted by an entry of [p] whose method, lower-cased and trimmed, is
    [m] or the wildcard, where "write" stands for file_upload, create, update and delete. *)
Theorem SetAuthorizations_access s us p method resources :
  String.eqb (Mode s) "gen3" && negb (AuthHeaderPresent s) = false →
  HasMethodAccess (Some (SetAuthorizations us p true s)) method resources = true ↔
  NormalizeAccessResources resources ≠ [] ∧
  ∀ r, r ∈ NormalizeAccessResources resources →
    ∃ raw methods m, p !! raw = Some methods ∧ NormalizeAccessResource raw = r ∧
      methods !! m = Some true ∧
      (method ∈ normalizeMethodName m true ∨ "*" ∈ normalizeMethodName m true).
Proof.
  intros Hgate. unfold HasMethodAccess.
  rewrite enforced_cases by (apply forallb_resources; intros r; apply grants_test).
  assert (admitted_caller (Some (SetAuthorizations us p true s))) as Hadm.
  { unfold admitted_caller, IsGen3Mode, HasAuthHeader. simpl. intros Hm. rewrite Hm in Hgate.
    simpl in Hgate. by apply negb_false_iff. }
  assert (IsAuthzEnforced (Some (SetAuthorizations us p true s)) = true) as ->.
  { unfold IsAuthzEnforced. simpl. by destruct (String.eqb _ _). }
  change (GetUserPrivileges (Some (SetAuthorizations us p true s))) with (normalizePrivileges p).
  setoid_rewrite grants_normalizePrivileges. split.
  - intros [?|(_ & Hne & Hall)]; [done|]. split; [done|]. intros r Hr.
    destruct (Hall r Hr) as [(raw & ms & m & ?)|(raw & ms & m & ?)]; exists raw, ms, m; tauto.
  - intros [Hne Hall]. right. split_and!; [done..|]. intros r Hr.
    destruct (Hall r Hr) as (raw & ms & m & ? & ? & ? & [?|?]); [left|right]; exists raw, ms, m; tauto.
Qed.
End properties.

(** ** Concrete sessions *)
#[local] Existing Instance canonical_order.
Definition sample_privileges : privileges :=
  {["/programs/ohsu/projects/p1" := {["Write" := true; "read" := true]}; "/organization/cbds" := {["*" := true]}]}.
Definition sample_session : Session :=
  SetAuthorizations ["/organization/ohsu"] sample_privileges true
    (mkSession "gen3" "gen3-fence" "u" [] ∅ true false).

Lemma gen3_requires_header_witness :
  HasMethodAccess (Some (NewSession " Gen3 ")) "read" ["/organization/ohsu"] = false.
Proof. apply (gen3_requires_header (Some (NewSession " Gen3 ")) "drs" "read" []); by vm_compute. Defined.

Lemma HasMethodAccess_object_witness :
  HasObjectMethodAccess (Some sample_session) "update" ["/organization/ohsu/project/p1"; "/organization/cbds"] = true.
Proof. apply HasMethodAccess_object. by vm_compute. Defined.

Lemma SetAuthorizations_access_witness :
  NormalizeAccessResources ["/organization/ohsu/project/p1"] ≠ [] ∧
  ∀ r, r ∈ NormalizeAccessResources ["/organization/ohsu/project/p1"] →
    ∃ raw methods m, sample_privileges !! raw = Some methods ∧ NormalizeAccessResource raw = r ∧
      methods !! m = Some true ∧ ("delete" ∈ normalizeMethodName m true ∨ "*" ∈ normalizeMethodName m true).
Proof.
  apply (proj1 (SetAuthorizations_access (mkSession "gen3" "gen3-fence" "u" [] ∅ true false)
    ["/organization/ohsu"] sample_privileges "delete" ["/organization/ohsu/project/p1"] ltac:(by vm_compute))).
  by vm_compute.
Defined.

(** With an empty privilege map the resource list of the session decides and the method is not
    looked at: a caller who only lists an organization may delete its objects, and gaining an unrelated
    privilege takes that access away. *)
Theorem object_access_fallback_ignores_method :
  let listed := mkSession "local" "local-csv" "u" ["/organization/ohsu"] ∅ true true in
  let more := mkSession "local" "local-csv" "u" ["/organization/ohsu"] {["/organization/x" := {["read" := true]}]} true true in
  HasObjectMethodAccess (Some listed) "delete" ["/organization/ohsu"] = true ∧
  HasObjectMethodAccess (Some more) "delete" ["/organization/ohsu"] = false.
Proof. by vm_compute. Qed.
