(* ===== verification/HttpErrors.v ===== *)
(** * The public error envelope: internal/httpapi/middleware/errors.go
    Application errors, and rejections with a status, become the API error payload of the wire.  Sending
    the payload through Fiber and logging the cause are not modelled. *)
From S2P Require Import Prelude GoStrings GoURL Errors Resources Policy.

(** The texts of net/http.StatusText. *)
Definition status_texts : list (Z * string) := [
  (100, "Continue"); (101, "Switching Protocols"); (102, "Processing"); (103, "Early Hints");
  (200, "OK"); (201, "Created"); (202, "Accepted"); (203, "Non-Authoritative Information");
  (204, "No Content"); (205, "Reset Content"); (206, "Partial Content"); (207, "Multi-Status");
  (208, "Already Reported"); (226, "IM Used"); (300, "Multiple Choices");
  (301, "Moved Permanently"); (302, "Found"); (303, "See Other"); (304, "Not Modified");
  (305, "Use Proxy"); (307, "Temporary Redirect"); (308, "Permanent Redirect");
  (400, "Bad Request"); (401, "Unauthorized"); (402, "Payment Required"); (403, "Forbidden");
  (404, "Not Found"); (405, "Method Not Allowed"); (406, "Not Acceptable");
  (407, "Proxy Authentication Required"); (408, "Request Timeout"); (409, "Conflict");
  (410, "Gone"); (411, "Length Required"); (412, "Precondition Failed");
  (413, "Request Entity Too Large"); (414, "Request URI Too Long");
  (415, "Unsupported Media Type"); (416, "Requested Range Not Satisfiable");
  (417, "Expectation Failed"); (418, "I'm a teapot"); (421, "Misdirected Request");
  (422, "Unprocessable Entity"); (423, "Locked"); (424, "Failed Dependency"); (425, "Too Early");
  (426, "Upgrade Required"); (428, "Precondition Required"); (429, "Too Many Requests");
  (431, "Request Header Fields Too Large"); (451, "Unavailable For Legal Reasons");
  (500, "Internal Server Error"); (501, "Not Implemented"); (502, "Bad Gateway");
  (503, "Service Unavailable"); (504, "Gateway Timeout"); (505, "HTTP Version Not Supported");
  (506, "Variant Also Negotiates"); (507, "Insufficient Storage"); (508, "Loop Detected");
  (510, "Not Extended"); (511, "Network Authentication Required") ]%Z.
Definition StatusText (status : Z) : string :=
  default "" (snd <$> find (λ e, (e.1 =? status)%Z) status_texts).

Record APIError := mkAPIError {
  api_Code : ErrorCode; api_Category : ErrorCategory; api_Status : Z; api_Message : string;
  api_RequestId : option string }.

(** What the boundary reads of a request context. *)
Record request_context := mkRequestContext { rc_session : context; rc_request_id : string }.
Definition GetRequestID (ctx : request_context) : string := rc_request_id ctx.

Definition publicStatusText (status : Z) : string :=
  let message := StatusText status in
  if is_empty message then StatusText 500 else message.

Definition statusForCategory (category : ErrorCategory) : Z :=
  (if String.eqb category ErrorCategoryInvalidInput then 400
   else if String.eqb category ErrorCategoryUnauthorized then 401
   else if String.eqb category ErrorCategoryForbidden then 403
   else if String.eqb category ErrorCategoryNotFound then 404
   else if String.eqb category ErrorCategoryConflict then 409
   else if String.eqb category ErrorCategoryRateLimited then 429
   else if String.eqb category ErrorCategoryUnavailable then 503
   else 500)%Z.

Definition newAPIError (ctx : request_context) (code : ErrorCode) (category : ErrorCategory) (status : Z)
    (msg : string) : APIError :=
  let msg := TrimSpace msg in
  let msg := if (500 <=? status)%Z then publicStatusText status else msg in
  let msg := if is_empty msg then publicStatusText status else msg in
  mkAPIError code category status msg
    (if is_empty (GetRequestID ctx) then None else Some (GetRequestID ctx)).
Definition NewAPIError (ctx : request_context) (code : ErrorCode) (status : Z) (msg : string) : APIError :=
  newAPIError ctx code (default "" (CategoryForCode code)) status msg.

(** storage.OperationError and projects/storage.Error: their public messages *)
Definition OperationError_PublicMessage (kind : string) : string :=
  if String.eqb kind "invalid" then "storage request is invalid"
  else if String.eqb kind "unsupported" then "storage operation is unsupported"
  else "storage operation failed".
Definition ProjectError_PublicMessage (kind message : string) : string :=
  if negb (is_empty message) then message else kind.

Section classify.
(** The quoting of fmt's %q verb and the text of an error value. *)
Variables (quote : string → string) (Error : error → string).

(** [errors.As] with the interface [publicError]. *)
Definition public_visit (e : error) : option string :=
  match e with
  | EAuthorization a => Some (AuthorizationError_PublicMessage quote a)
  | EOperation k _ _ => Some (OperationError_PublicMessage k)
  | EProject k m _ => Some (ProjectError_PublicMessage k m)
  | _ => None
  end.
Definition as_public (e : error) : option string := visitErrors public_visit e.

Definition ClassifyError (ctx : request_context) (err : error) : APIError :=
  let code := default ErrorCodeInternalError (CodeOf err) in
  let category :=
    match CategoryOf err with
    | Some c => c
    | None => default ErrorCategoryInternalError (CategoryForCode code)
    end in
  let status := statusForCategory category in
  let msg := Error err in
  if String.eqb category ErrorCategoryNotFound then
    newAPIError ctx code category status
      (if String.eqb code ErrorCodeMultipartUploadNotFound then "Upload ID not found" else "Resource not found")
  else if String.eqb category ErrorCategoryUnauthorized then
    let '(code, category, status) :=
      if String.eqb code ErrorCodeUnauthorized then
        if IsGen3Mode (rc_session ctx) && negb (HasAuthHeader (rc_session ctx))
        then (ErrorCodeAuthenticationRequired, ErrorCategoryUnauthorized, 401%Z)
        else (ErrorCodeAccessDenied, ErrorCategoryForbidden, 403%Z)
      else (code, category, status) in
    newAPIError ctx code category status
      (if (status =? 403)%Z then default "Unauthorized" (as_public err) else "Unauthorized")
  else if String.eqb category ErrorCategoryForbidden then
    newAPIError ctx code category status (default "Forbidden" (as_public err))
  else if String.eqb category ErrorCategoryRateLimited then
    newAPIError ctx code category status "Rate limit exceeded"
  else if String.eqb category ErrorCategoryUnavailable then
    newAPIError ctx code category status "Service unavailable"
  else if String.eqb category ErrorCategoryInvalidInput then
    newAPIError ctx code category status
      (if String.eqb code ErrorCodeNoValidSha256 then "A valid SHA256 checksum is required"
       else if String.eqb code ErrorCodeAccessMethodsRequired then msg
       else default msg (as_public err))
  else if String.eqb category ErrorCategoryConflict then
    newAPIError ctx code category status (default msg (as_public err))
  else if String.eqb category ErrorCategoryInternalError then
    newAPIError ctx code category status (StatusText 500)
  else newAPIError ctx code category status msg.
End classify.

(** The payload of [Reject] (the response that [sendWithCategory] sends). *)
Definition Reject (ctx : request_context) (status : Z) (msg : string) : APIError :=
  let code :=
    if (status =? 401)%Z then ErrorCodeAuthenticationRequired
    else if (status =? 403)%Z then ErrorCodeAccessDenied
    else CodeForStatus status in
  newAPIError ctx code (default "" (CategoryForCode code)) status msg.

(** ** Properties *)
Definition public_statuses : list Z := [400; 401; 403; 404; 409; 429; 500; 503]%Z.
Lemma statusForCategory_public c : statusForCategory c ∈ public_statuses.
Proof. unfold statusForCategory, public_statuses. repeat case_match; set_solver. Qed.
Lemma publicStatusText_nonempty s : publicStatusText s ≠ "".
Proof. unfold publicStatusText. destruct (is_empty _) eqn:E; [done|]. by apply is_empty_false. Qed.

Lemma newAPIError_safe ctx code category status msg :
  let a := newAPIError ctx code category status msg in
  api_Code a = code ∧ api_Category a = category ∧ api_Status a = status ∧ api_Message a ≠ "" ∧
  ((500 <= status)%Z → api_Message a = publicStatusText status).
Proof.
  pose proof (publicStatusText_nonempty status) as Hne. cbn.
  destruct (Z.leb_spec 500 status) as [Hs|Hs].
  - apply is_empty_false in Hne as ->. split_and!; auto using publicStatusText_nonempty.
  - destruct (is_empty (TrimSpace msg)) eqn:E; split_and!; auto; try lia. by apply is_empty_false.
Qed.

(** What every envelope satisfies: the status is the one of the category, the message is never empty,
    and with a server-side status it is the fixed text of that status. *)
Definition safe_envelope (a : APIError) : Prop :=
  api_Status a = statusForCategory (api_Category a) ∧ api_Message a ≠ "" ∧
  ((500 <= api_Status a)%Z → api_Message a = publicStatusText (api_Status a)).
Lemma newAPIError_envelope ctx code category status msg :
  status = statusForCategory category → safe_envelope (newAPIError ctx code category status msg).
Proof.
  intros ->. unfold safe_envelope.
  by destruct (newAPIError_safe ctx code category (statusForCategory category) msg) as (_&->&->&?&?).
Qed.

(** Whatever the error, its text and the caller, the response status is the status of the response
    category (one of 400, 401, 403, 404, 409, 429, 500, 503), the message is not empty, and a response
    with a 5xx status carries only the fixed text of that status: no detail of a server failure leaves
    the server. *)
Theorem ClassifyError_safe quote Error ctx err :
  safe_envelope (ClassifyError quote Error ctx err) ∧
  api_Status (ClassifyError quote Error ctx err) ∈ public_statuses.
Proof.
  assert (safe_envelope (ClassifyError quote Error ctx err)) as Hs.
  { unfold ClassifyError. cbv zeta.
    repeat match goal with
    | |- safe_envelope (if ?b then _ else _) => destruct b eqn:?
    | |- safe_envelope (newAPIError _ _ _ _ _) => by apply newAPIError_envelope
    end.
    destruct (String.eqb (default ErrorCodeInternalError (CodeOf err)) ErrorCodeUnauthorized);
      [destruct (_ && _)|]; by apply newAPIError_envelope. }
  split; [done|]. destruct Hs as [-> _]. apply statusForCategory_public.
Qed.

(** A sentinel error, under any number of wrappings, is reported with its own code and the status of
    its category; only the plain "unauthorized" sentinel is rewritten, to authentication_required (401)
    for a gen3 caller without a header and to access_denied (403) otherwise. *)
Theorem ClassifyError_sentinel quote Error ctx d ms :
  d ∈ sentinels →
  let a := ClassifyError quote Error ctx (foldr EWrap (EDef d) ms) in
  if decide (d = ErrUnauthorized)
  then (api_Code a, api_Status a) =
       (if bool_decide (admitted_caller (rc_session ctx)) then (ErrorCodeAccessDenied, 403%Z)
        else (ErrorCodeAuthenticationRequired, 401%Z))
  else (api_Code a, api_Status a) = (def_code d, statusForCategory (def_category d)).
Proof.
  intros Hd. cbv zeta.
  assert (CodeOf (foldr EWrap (EDef d) ms) = Some (def_code d) ∧
          CategoryOf (foldr EWrap (EDef d) ms) = Some (def_category d)) as [Hc Hk].
  { induction ms as [|m ms [IH1 IH2]]; [|by rewrite <- IH1, <- IH2].
    revert d Hd. apply Forall_forall. repeat constructor. }
  unfold ClassifyError. rewrite Hc, Hk. cbn [default from_option id]. clear Hc Hk.
  destruct (decide (d = ErrUnauthorized)) as [->|Hne].
  - assert (bool_decide (admitted_caller (rc_session ctx)) =
      negb (IsGen3Mode (rc_session ctx) && negb (HasAuthHeader (rc_session ctx)))) as ->.
    { apply eq_iff_eq_true. rewrite bool_decide_eq_true. unfold admitted_caller.
      destruct (IsGen3Mode _), (HasAuthHeader _); simpl; intuition congruence. }
    simpl. by destruct (IsGen3Mode _ && _).
  - revert d Hd Hne. apply (Forall_forall (λ d, d ≠ ErrUnauthorized → _)).
    repeat (apply Forall_cons; split; [first [intros ?; reflexivity|intros []; reflexivity]|]). constructor.
Qed.
Lemma ClassifyError_sentinel_witness :
  let a := ClassifyError (λ s, s) (λ _, "secret") (mkRequestContext None "r1")
             (foldr EWrap (EDef ErrStorageProviderError) ["upload %s: %w"]) in
  (api_Code a, api_Status a) = (ErrorCodeStorageProviderError, 503%Z).
Proof.
  exact (ClassifyError_sentinel (λ s, s) (λ _, "secret") (mkRequestContext None "r1") ErrStorageProviderError
    ["upload %s: %w"] ltac:(apply (bool_decide_unpack _); by vm_compute)).
Defined.

(** A rejection keeps the status it was asked for, is in the category of that status, has a non-empty
    message, and with a 5xx status carries only a fixed status text, whatever message was given. *)
Theorem Reject_spec ctx status msg :
  let a := Reject ctx status msg in
  api_Status a = status ∧ api_Category a = CategoryForStatus status ∧ api_Message a ≠ "" ∧
  ((500 <= status)%Z → api_Message a = publicStatusText status).
Proof.
  cbv zeta. unfold Reject.
  set (code := if (status =? 401)%Z then _ else _).
  destruct (newAPIError_safe ctx code (default "" (CategoryForCode code)) status msg) as (_&Hk&Hs&?&?).
  split_and!; auto. etrans; [apply Hk|]. subst code. unfold CategoryForStatus. unfold CodeForStatus.
  destruct (status =? 404)%Z eqn:E404; [apply Z.eqb_eq in E404 as ->; done|].
  repeat match goal with |- context [if ?b then _ else _] => destruct b; [by vm_compute|] end.
  by vm_compute.
Qed.
