(* ===== verification/Objects.v ===== *)
(** * Object records: client/hash/oid.go and internal/objects
    Checksums, record identity, names, registration candidates, and the two merges of metadata (update and
    registration).  A pointer or a slice whose nil value matters is an [option]; times are instants on a
    discrete line whose origin 0 is Go's zero time.  JSON property values are opaque strings. *)
From S2P Require Import Prelude GoStrings GoURL Errors Resources.
#[local] Set Warnings "-automation".

(** ** client/hash: SHA-256 object identifiers *)
Definition hex_char (a : Ascii.ascii) : bool :=
  let n := Ascii.nat_of_ascii a in ((48 <=? n) && (n <=? 57)) || ((97 <=? n) && (n <=? 102)).
Definition NormalizeOid (oid : string) : string :=
  let v := TrimPrefix (TrimSpace (ToLower oid)) "sha256:" in
  if negb (String.length v =? 64)%nat then ""
  else if forallb hex_char (chars v) then v else "".
(** [NormalizeChecksum] of client/hash *)
Definition hash_NormalizeChecksum (raw : string) : string := TrimSpace (TrimPrefix (TrimSpace raw) "sha256:").

(** ** types.go *)
Record Checksum := mkChecksum { cs_Type : string; cs_Checksum : string }.
Record AccessURL := mkAccessURL { au_Headers : option (list string); au_Url : string }.
Record AccessAuthorizations := mkAccessAuthorizations {
  aa_BearerAuthIssuers : option (list string); aa_DrsObjectId : option string;
  aa_PassportAuthIssuers : option (list string); aa_SupportedTypes : option (list string) }.
Record AccessMethod := mkAccessMethod {
  am_AccessId : option string; am_AccessUrl : option AccessURL;
  am_Authorizations : option AccessAuthorizations; am_Available : option bool;
  am_Cloud : option string; am_Region : option string; am_Type : string }.
Inductive Content := mkContent {
  ct_Contents : option (list Content); ct_DrsUri : option (list string);
  ct_Id : option string; ct_Name : string }.
Record Candidate := mkCandidate {
  cand_AccessMethods : option (list AccessMethod); cand_Aliases : option (list string);
  cand_Checksums : option (list Checksum); cand_Contents : option (list Content);
  cand_ControlledAccess : option (list string); cand_Description : option string;
  cand_MimeType : option string; cand_Name : option string; cand_Size : option Z }.

#[export] Instance Checksum_eq_dec : EqDecision Checksum.
Proof. solve_decision. Defined.
#[export] Instance AccessURL_eq_dec : EqDecision AccessURL.
Proof. solve_decision. Defined.
#[export] Instance AccessAuthorizations_eq_dec : EqDecision AccessAuthorizations.
Proof. solve_decision. Defined.
#[export] Instance AccessMethod_eq_dec : EqDecision AccessMethod.
Proof. solve_decision. Defined.

(** One physical object record (type [Record] in the source). *)
Record ObjectRecord := mkRecord {
  r_Id : string;
  r_AccessMethods : option (list AccessMethod);
  r_Aliases : option (list string);
  r_Authorizations : authz_map;
  r_Checksums : option (list Checksum);
  r_Contents : option (list Content);
  r_ControlledAccess : option (list string);
  r_CreatedTime : Z;
  r_Description : option string;
  r_MimeType : option string;
  r_Name : option string;
  r_NameAliases : list string;
  r_Properties : option (gmap string string);
  r_Project : string;
  r_PublicRead : bool;
  r_PublicReadPolicyKnown : bool;
  r_SelfUri : string;
  r_Size : Z;
  r_UpdatedTime : option Z;
  r_Version : option string }.

(** Field updates *)
Section setters.
Context (r : ObjectRecord).
Definition set_Id (v : string) : ObjectRecord :=
  mkRecord v (r_AccessMethods r) (r_Aliases r) (r_Authorizations r) (r_Checksums r) (r_Contents r)
    (r_ControlledAccess r) (r_CreatedTime r) (r_Description r) (r_MimeType r) (r_Name r)
    (r_NameAliases r) (r_Properties r) (r_Project r) (r_PublicRead r) (r_PublicReadPolicyKnown r)
    (r_SelfUri r) (r_Size r) (r_UpdatedTime r) (r_Version r).
Definition set_AccessMethods (v : option (list AccessMethod)) : ObjectRecord :=
  mkRecord (r_Id r) v (r_Aliases r) (r_Authorizations r) (r_Checksums r) (r_Contents r)
    (r_ControlledAccess r) (r_CreatedTime r) (r_Description r) (r_MimeType r) (r_Name r)
    (r_NameAliases r) (r_Properties r) (r_Project r) (r_PublicRead r) (r_PublicReadPolicyKnown r)
    (r_SelfUri r) (r_Size r) (r_UpdatedTime r) (r_Version r).
Definition set_Aliases (v : option (list string)) : ObjectRecord :=
  mkRecord (r_Id r) (r_AccessMethods r) v (r_Authorizations r) (r_Checksums r) (r_Contents r)
    (r_ControlledAccess r) (r_CreatedTime r) (r_Description r) (r_MimeType r) (r_Name r)
    (r_NameAliases r) (r_Properties r) (r_Project r) (r_PublicRead r) (r_PublicReadPolicyKnown r)
    (r_SelfUri r) (r_Size r) (r_UpdatedTime r) (r_Version r).
Definition set_Authorizations (v : authz_map) : ObjectRecord :=
  mkRecord (r_Id r) (r_AccessMethods r) (r_Aliases r) v (r_Checksums r) (r_Contents r)
    (r_ControlledAccess r) (r_CreatedTime r) (r_Description r) (r_MimeType r) (r_Name r)
    (r_NameAliases r) (r_Properties r) (r_Project r) (r_PublicRead r) (r_PublicReadPolicyKnown r)
    (r_SelfUri r) (r_Size r) (r_UpdatedTime r) (r_Version r).
Definition set_Checksums (v : option (list Checksum)) : ObjectRecord :=
  mkRecord (r_Id r) (r_AccessMethods r) (r_Aliases r) (r_Authorizations r) v (r_Contents r)
    (r_ControlledAccess r) (r_CreatedTime r) (r_Description r) (r_MimeType r) (r_Name r)
    (r_NameAliases r) (r_Properties r) (r_Project r) (r_PublicRead r) (r_PublicReadPolicyKnown r)
    (r_SelfUri r) (r_Size r) (r_UpdatedTime r) (r_Version r).
Definition set_ControlledAccess (v : option (list string)) : ObjectRecord :=
  mkRecord (r_Id r) (r_AccessMethods r) (r_Aliases r) (r_Authorizations r) (r_Checksums r)
    (r_Contents r) v (r_CreatedTime r) (r_Description r) (r_MimeType r) (r_Name r) (r_NameAliases r)
    (r_Properties r) (r_Project r) (r_PublicRead r) (r_PublicReadPolicyKnown r) (r_SelfUri r) (r_Size r)
    (r_UpdatedTime r) (r_Version r).
Definition set_Description (v : option string) : ObjectRecord :=
  mkRecord (r_Id r) (r_AccessMethods r) (r_Aliases r) (r_Authorizations r) (r_Checksums r)
    (r_Contents r) (r_ControlledAccess r) (r_CreatedTime r) v (r_MimeType r) (r_Name r)
    (r_NameAliases r) (r_Properties r) (r_Project r) (r_PublicRead r) (r_PublicReadPolicyKnown r)
    (r_SelfUri r) (r_Size r) (r_UpdatedTime r) (r_Version r).
Definition set_MimeType (v : option string) : ObjectRecord :=
  mkRecord (r_Id r) (r_AccessMethods r) (r_Aliases r) (r_Authorizations r) (r_Checksums r)
    (r_Contents r) (r_ControlledAccess r) (r_CreatedTime r) (r_Description r) v (r_Name r)
    (r_NameAliases r) (r_Properties r) (r_Project r) (r_PublicRead r) (r_PublicReadPolicyKnown r)
    (r_SelfUri r) (r_Size r) (r_UpdatedTime r) (r_Version r).
Definition set_Name (v : option string) : ObjectRecord :=
  mkRecord (r_Id r) (r_AccessMethods r) (r_Aliases r) (r_Authorizations r) (r_Checksums r)
    (r_Contents r) (r_ControlledAccess r) (r_CreatedTime r) (r_Description r) (r_MimeType r) v
    (r_NameAliases r) (r_Properties r) (r_Project r) (r_PublicRead r) (r_PublicReadPolicyKnown r)
    (r_SelfUri r) (r_Size r) (r_UpdatedTime r) (r_Version r).
Definition set_NameAliases (v : list string) : ObjectRecord :=
  mkRecord (r_Id r) (r_AccessMethods r) (r_Aliases r) (r_Authorizations r) (r_Checksums r)
    (r_Contents r) (r_ControlledAccess r) (r_CreatedTime r) (r_Description r) (r_MimeType r) (r_Name r)
    v (r_Properties r) (r_Project r) (r_PublicRead r) (r_PublicReadPolicyKnown r) (r_SelfUri r)
    (r_Size r) (r_UpdatedTime r) (r_Version r).
Definition set_Properties (v : option (gmap string string)) : ObjectRecord :=
  mkRecord (r_Id r) (r_AccessMethods r) (r_Aliases r) (r_Authorizations r) (r_Checksums r)
    (r_Contents r) (r_ControlledAccess r) (r_CreatedTime r) (r_Description r) (r_MimeType r) (r_Name r)
    (r_NameAliases r) v (r_Project r) (r_PublicRead r) (r_PublicReadPolicyKnown r) (r_SelfUri r)
    (r_Size r) (r_UpdatedTime r) (r_Version r).
Definition set_PublicRead (v : bool) : ObjectRecord :=
  mkRecord (r_Id r) (r_AccessMethods r) (r_Aliases r) (r_Authorizations r) (r_Checksums r)
    (r_Contents r) (r_ControlledAccess r) (r_CreatedTime r) (r_Description r) (r_MimeType r) (r_Name r)
    (r_NameAliases r) (r_Properties r) (r_Project r) v (r_PublicReadPolicyKnown r) (r_SelfUri r)
    (r_Size r) (r_UpdatedTime r) (r_Version r).
Definition set_PublicReadPolicyKnown (v : bool) : ObjectRecord :=
  mkRecord (r_Id r) (r_AccessMethods r) (r_Aliases r) (r_Authorizations r) (r_Checksums r)
    (r_Contents r) (r_ControlledAccess r) (r_CreatedTime r) (r_Description r) (r_MimeType r) (r_Name r)
    (r_NameAliases r) (r_Properties r) (r_Project r) (r_PublicRead r) v (r_SelfUri r) (r_Size r)
    (r_UpdatedTime r) (r_Version r).
Definition set_SelfUri (v : string) : ObjectRecord :=
  mkRecord (r_Id r) (r_AccessMethods r) (r_Aliases r) (r_Authorizations r) (r_Checksums r)
    (r_Contents r) (r_ControlledAccess r) (r_CreatedTime r) (r_Description r) (r_MimeType r) (r_Name r)
    (r_NameAliases r) (r_Properties r) (r_Project r) (r_PublicRead r) (r_PublicReadPolicyKnown r) v
    (r_Size r) (r_UpdatedTime r) (r_Version r).
Definition set_Size (v : Z) : ObjectRecord :=
  mkRecord (r_Id r) (r_AccessMethods r) (r_Aliases r) (r_Authorizations r) (r_Checksums r)
    (r_Contents r) (r_ControlledAccess r) (r_CreatedTime r) (r_Description r) (r_MimeType r) (r_Name r)
    (r_NameAliases r) (r_Properties r) (r_Project r) (r_PublicRead r) (r_PublicReadPolicyKnown r)
    (r_SelfUri r) v (r_UpdatedTime r) (r_Version r).
Definition set_UpdatedTime (v : option Z) : ObjectRecord :=
  mkRecord (r_Id r) (r_AccessMethods r) (r_Aliases r) (r_Authorizations r) (r_Checksums r)
    (r_Contents r) (r_ControlledAccess r) (r_CreatedTime r) (r_Description r) (r_MimeType r) (r_Name r)
    (r_NameAliases r) (r_Properties r) (r_Project r) (r_PublicRead r) (r_PublicReadPolicyKnown r)
    (r_SelfUri r) (r_Size r) v (r_Version r).
Definition set_Version (v : option string) : ObjectRecord :=
  mkRecord (r_Id r) (r_AccessMethods r) (r_Aliases r) (r_Authorizations r) (r_Checksums r)
    (r_Contents r) (r_ControlledAccess r) (r_CreatedTime r) (r_Description r) (r_MimeType r) (r_Name r)
    (r_NameAliases r) (r_Properties r) (r_Project r) (r_PublicRead r) (r_PublicReadPolicyKnown r)
    (r_SelfUri r) (r_Size r) (r_UpdatedTime r) v.
End setters.
(** The value of a slice that may be nil. *)
Abbreviation slice := (default []).

Definition zero_record : ObjectRecord :=
  mkRecord "" None None None None None None 0%Z None None None [] None "" false false "" 0%Z None None.

(** ** checksums.go *)
Definition hex_any (a : Ascii.ascii) : bool :=
  let n := Ascii.nat_of_ascii a in hex_char a || ((65 <=? n) && (n <=? 70)).
Definition LooksLikeSHA256 (v : string) : bool :=
  let v := TrimSpace v in (String.length v =? 64)%nat && forallb hex_any (chars v).

Definition NormalizeChecksum (cs : string) : string :=
  match Cut cs ":" with Some (_, v) => v | None => cs end.
Definition NormalizeChecksumType (checksumType : string) : string :=
  ReplaceAll (ToLower (TrimSpace checksumType)) "-" "".

(** The cutset of the double and the single quote. *)
Definition quotes : string := bytes [34; 39].
Definition checksum_value (v : string) : string := Trim (TrimSpace (NormalizeChecksum v)) quotes.

Definition ParseHashQuery (rawHash rawType : string) : string * string :=
  let hashType := NormalizeChecksumType rawType in
  let hashValue := checksum_value rawHash in
  let hashType :=
    if is_empty hashType then
      match Cut (Trim (TrimSpace rawHash) quotes) ":" with
      | Some (t, _) => NormalizeChecksumType t
      | None => hashType
      end
    else hashType in
  (hashType, hashValue).

Definition RecordHasChecksumTypeAndValue (obj : ObjectRecord) (hashType hashValue : string) : bool :=
  if is_empty hashType then true
  else
    let targetType := NormalizeChecksumType hashType in
    let targetValue := checksum_value hashValue in
    if is_empty targetType || is_empty targetValue then false
    else
      existsb (λ c, String.eqb (NormalizeChecksumType (cs_Type c)) targetType
                    && String.eqb (checksum_value (cs_Checksum c)) targetValue) (slice (r_Checksums obj)).

(** The additions that survive, given the types already seen. *)
Fixpoint fresh_additions (seenTypes : gset string) (additions : list Checksum) : list Checksum :=
  match additions with
  | [] => []
  | cs :: additions =>
      let t := NormalizeChecksumType (cs_Type cs) in
      let v := TrimSpace (NormalizeChecksum (cs_Checksum cs)) in
      if is_empty t || is_empty v then fresh_additions seenTypes additions
      else if decide (t ∈ seenTypes) then fresh_additions seenTypes additions
      else mkChecksum (TrimSpace (cs_Type cs)) v :: fresh_additions ({[t]} ∪ seenTypes) additions
  end.
Definition checksum_types (l : list Checksum) : gset string :=
  list_to_set (filter (.≠ "") ((λ c, NormalizeChecksumType (cs_Type c)) <$> l)).
Definition MergeAdditionalChecksums (existing additions : list Checksum) : list Checksum :=
  existing ++ fresh_additions (checksum_types existing) additions.

Definition sha256_of (c : Checksum) : option string :=
  if String.eqb (NormalizeChecksumType (cs_Type c)) "sha256" then
    let normalized := NormalizeOid (cs_Checksum c) in
    if is_empty normalized then None else Some normalized
  else None.
Definition SHA256Values (checksums : list Checksum) : list string := dedup (omap sha256_of checksums).
Definition CanonicalSHA256 (checksums : list Checksum) : option string := head (SHA256Values checksums).
(** [Ok (Some sha)] is (sha, true, nil), [Ok None] is ("", false, nil). *)
Definition ValidateCanonicalSHA256 (checksums : list Checksum) : result error (option string) :=
  match SHA256Values checksums with
  | [] => Ok None
  | [v] => Ok (Some v)
  | _ => Err (EWrap "%w: %s" (EDef ErrConflictingSHA256))
  end.
Definition NormalizeSHA256Query (value : string) : option string :=
  let normalized := NormalizeOid value in
  if is_empty normalized then None else Some normalized.

(** ** names.go *)
Definition CleanToBasename (name : string) : string :=
  let trimmed := TrimSpace name in
  if is_empty trimmed then ""
  else
    let trimmed := ReplaceAll trimmed "\" "/" in
    let base := filepath_Base trimmed in
    if bool_decide (base ∈ ["."; "/"; ""]) then trimmed else base.
Definition NormalizeNameAliases (primary : string) (aliases : list string) : list string :=
  let primary := CleanToBasename primary in
  sort_Strings (dedup (filter (λ n, n ≠ "" ∧ n ≠ primary) (CleanToBasename <$> aliases))).

(** ** access.go *)
Section access.
Context `{MapOrder}.
Definition AccessResources (obj : ObjectRecord) : list string :=
  match r_ControlledAccess obj with
  | Some l => NormalizeAccessResources l
  | None => AuthzMapToList (r_Authorizations obj)
  end.
End access.

(** ** identity.go
    The digest functions are the two hash functions of the source's imports: SHA-256 in lower-case
    hexadecimal, and the name-based UUID (SHA-1) in the object namespace. *)
Class Digests := { sha256_hex : string → string; uuid_NewSHA1 : string → string }.

Definition normalizeSHA256Checksum (raw : string) : string :=
  TrimPrefix (TrimSpace (ToLower raw)) "sha256:".

Definition project_scope (resource : string) : bool :=
  match ResourceScope resource with
  | Some (org, project) => negb (is_empty (TrimSpace org)) && negb (is_empty (TrimSpace project))
  | None => false
  end.
Definition canonicalProjectScope (authz : list string) : result error string :=
  match filter (λ r, project_scope r = true) (NormalizeAccessResources authz) with
  | [] => Err (EWrap "%w: project scope is required when object id is not provided" (EDef ErrInvalidInput))
  | [r] => Ok r
  | _ => Err (EWrap "%w: exactly one project scope is required when object id is not provided" (EDef ErrInvalidInput))
  end.

Section identity.
Context `{Digests}.
Definition AccessMethodID (accessType accessURL : string) : string :=
  let accessType := ToLower (TrimSpace accessType) in
  let accessURL := TrimSpace accessURL in
  accessType +:+ "-" +:+ String.substring 0 24 (sha256_hex (accessType +:+ bytes [0] +:+ accessURL)).

Definition record_seed (checksum scope : string) : string := "sha256:" +:+ checksum +:+ "|" +:+ scope.
Definition MintRecordIDFromChecksum (checksum : string) (authz : list string) : result error string :=
  let checksum := normalizeSHA256Checksum checksum in
  if is_empty checksum
  then Err (EWrap "%w: sha256 checksum is required when object id is not provided" (EDef ErrInvalidInput))
  else
    scope ← canonicalProjectScope authz;
    Ok (uuid_NewSHA1 (record_seed checksum scope)).
End identity.

(** ** candidate.go *)
Section candidate.
Context `{MapOrder} `{Digests}.
Definition alias_id (aliases : list string) : string :=
  default "" (head (omap (λ a, strip_prefix "id:" a) aliases)).
Definition default_access_id (m : AccessMethod) : AccessMethod :=
  if bool_decide (default "" (am_AccessId m) = "")
  then mkAccessMethod (Some (am_Type m)) (am_AccessUrl m) (am_Authorizations m) (am_Available m)
         (am_Cloud m) (am_Region m) (am_Type m)
  else m.
Definition CandidateToRecord (c : Candidate) (now : Z) : result error ObjectRecord :=
  match CanonicalSHA256 (slice (cand_Checksums c)) with
  | None => Err (EDef ErrNoValidSHA256)
  | Some oid =>
      match cand_AccessMethods c with
      | None | Some [] => Err (EDef ErrAccessMethodsRequired)
      | Some methods =>
          let authzList := ControlledAccessToAuthzMap (slice (cand_ControlledAccess c)) in
          let id := match cand_Aliases c with Some l => alias_id l | None => "" end in
          id ← (if is_empty id then MintRecordIDFromChecksum oid (AuthzMapToList authzList) else Ok id);
          let name := match cand_Name c with
                      | Some n => let n := CleanToBasename n in if is_empty n then None else Some n
                      | None => None
                      end in
          let name := match name with
                      | Some n => if is_empty (TrimSpace n) then Some oid else Some n
                      | None => Some oid
                      end in
          Ok (mkRecord id (Some (default_access_id <$> methods)) (cand_Aliases c) authzList
                (Some [mkChecksum "sha256" oid]) None
                (NormalizeAccessResources <$> cand_ControlledAccess c) now (cand_Description c)
                (cand_MimeType c) name [] None "" false false ("drs://" +:+ id)
                (default 0%Z (cand_Size c)) (Some now) (Some "1"))
      end
  end.
End candidate.

(** ** record_updates.go *)
Section updates.
Context `{MapOrder}.
Definition EnforceCanonicalProjectScope (obj : ObjectRecord) (organization project : string)
  : result error ObjectRecord :=
  let organization := TrimSpace organization in
  let project := TrimSpace project in
  if negb (is_empty project) && is_empty organization
  then Err (EText "organization is required when project is set")
  else if is_empty organization || is_empty project then Ok obj
  else
    resource ← ResourcePath organization project;
    let controlled := NormalizeAccessResources (AccessResources obj ++ [resource]) in
    Ok (set_Authorizations (set_ControlledAccess obj (Some controlled)) (ControlledAccessToAuthzMap controlled)).
End updates.

Definition or_else {A} (update existing : option A) : option A :=
  match update with Some _ => update | None => existing end.
Definition MergeRecordUpdate (existing update : ObjectRecord) (id : string) (now : Z) : ObjectRecord :=
  let merged := set_UpdatedTime (set_Id existing id) (Some now) in
  let merged := match r_Properties update with
                | Some props => set_Properties merged (Some (props ∪ default ∅ (r_Properties existing)))
                | None => merged
                end in
  let merged := match r_Name update with
                | Some n => let n := CleanToBasename n in
                            set_Name merged (if is_empty n then None else Some n)
                | None => merged
                end in
  let merged := set_Description merged (or_else (r_Description update) (r_Description merged)) in
  let merged := set_MimeType merged (or_else (r_MimeType update) (r_MimeType merged)) in
  let merged := set_Version merged (or_else (r_Version update) (r_Version merged)) in
  let merged := set_Aliases merged (or_else (r_Aliases update) (r_Aliases merged)) in
  let merged := set_Authorizations merged (or_else (r_Authorizations update) (r_Authorizations merged)) in
  let merged := match r_ControlledAccess update with
                | Some l => set_Authorizations (set_ControlledAccess merged (Some l)) (ControlledAccessToAuthzMap l)
                | None => merged
                end in
  let merged := set_AccessMethods merged (or_else (r_AccessMethods update) (r_AccessMethods merged)) in
  match r_Checksums update with
  | Some l => set_Checksums merged (Some (MergeAdditionalChecksums (slice (r_Checksums existing)) l))
  | None => merged
  end.

(** ** registration_merge.go *)
Record RegistrationMergeInput := mkRegistrationMergeInput {
  ExistingName : string; ExistingVersion : string; ExistingDescription : string;
  ExistingSize : Z; ExistingUpdated : Z;
  IncomingName : string; IncomingVersion : string; IncomingDescription : string;
  IncomingSize : Z; IncomingUpdated : Z;
  IncomingResources : list string; CurrentResources : list string }.
Record RegistrationMergeResult := mkRegistrationMergeResult {
  mr_Name : string; mr_Version : string; mr_Description : string; mr_Size : Z; mr_Updated : Z;
  mr_NameAlias : string }.

Definition hasRegistrationResourceOverlap (left right : list string) : bool :=
  existsb (λ r, bool_decide (r ∈ left)) right.
(** A text field is filled or replaced by a non-blank incoming value. *)
Definition merge_text (allowReplacement : bool) (existing incoming : string) : string :=
  if (allowReplacement || is_empty (TrimSpace existing)) && negb (is_empty incoming) then incoming else existing.
Definition MergeRegistrationMetadata (input : RegistrationMergeInput) : RegistrationMergeResult :=
  let allowReplacement :=
    (length (CurrentResources input) =? 1)%nat
    && hasRegistrationResourceOverlap (IncomingResources input) (CurrentResources input) in
  let incomingName := CleanToBasename (IncomingName input) in
  let nameAlias :=
    if negb (is_empty (ExistingName input)) && negb (is_empty incomingName)
       && negb (String.eqb (ExistingName input) incomingName)
    then (if allowReplacement then ExistingName input else incomingName) else "" in
  mkRegistrationMergeResult
    (merge_text allowReplacement (ExistingName input) incomingName)
    (merge_text allowReplacement (ExistingVersion input) (TrimSpace (IncomingVersion input)))
    (merge_text allowReplacement (ExistingDescription input) (TrimSpace (IncomingDescription input)))
    (if (ExistingSize input =? 0)%Z && negb (IncomingSize input =? 0)%Z then IncomingSize input else ExistingSize input)
    (if (ExistingUpdated input <? IncomingUpdated input)%Z then IncomingUpdated input else ExistingUpdated input)
    nameAlias.

(** ** SHA-256 identifiers *)
Definition valid_oid (v : string) : Prop := String.length v = 64 ∧ forallb hex_char (chars v) = true.
#[export] Instance valid_oid_dec v : Decision (valid_oid v).
Proof. unfold valid_oid. apply _. Defined.

Lemma valid_oid_not_empty v : valid_oid v → is_empty v = false.
Proof. intros [Hl _]. by destruct v. Qed.
Lemma NormalizeOid_valid oid : NormalizeOid oid ≠ "" → valid_oid (NormalizeOid oid).
Proof.
  unfold NormalizeOid. cbv zeta. set (v := TrimPrefix _ _). destruct (Nat.eqb_spec (String.length v) 64); simpl; [|done].
  destruct (forallb hex_char (chars v)) eqn:E; [|done]. by intros _.
Qed.
Lemma hex_char_lower a : hex_char a = true → lower_char a = a.
Proof. destruct a as [[] [] [] [] [] [] [] []]; vm_compute; done. Qed.
Lemma hex_lower v : forallb hex_char (chars v) = true → ToLower v = v.
Proof.
  induction v as [|a v IH]; [done|]. simpl. intros [Ha Hv]%andb_true_iff.
  by rewrite hex_char_lower, IH.
Qed.
Lemma hex_TrimSpace v : forallb hex_char (chars v) = true → TrimSpace v = v.
Proof.
  intros Hv. apply trim_avoid_chars. rewrite forallb_forall in Hv.
  assert (Forall (λ w, w ≠ "" ∧ forallb (λ c, negb (hex_char c)) (chars w) = true) unicode_spaces) as Hs.
  { by apply (bool_decide_unpack _); vm_compute. }
  eapply Forall_impl; [exact Hs|]. intros w [Hne Hw]. split; [done|]. intros c Hc Hin.
  rewrite forallb_forall in Hw. specialize (Hw c). specialize (Hv c).
  rewrite <- list_elem_of_In in Hw, Hv. rewrite Hv in Hw by done. by specialize (Hw Hc).
Qed.
Lemma valid_oid_trimmed v : valid_oid v → TrimSpace v = v.
Proof. intros [_ Hv]. by apply hex_TrimSpace. Qed.
Lemma hex_no_prefix v : forallb hex_char (chars v) = true → TrimPrefix v "sha256:" = v.
Proof.
  unfold TrimPrefix. destruct (strip_prefix "sha256:" v) as [r|] eqn:E; [|done].
  apply strip_prefix_Some in E as ->. done.
Qed.
Lemma NormalizeOid_id v : valid_oid v → NormalizeOid v = v.
Proof.
  intros [Hl Hv]. unfold NormalizeOid. rewrite hex_lower, hex_TrimSpace, hex_no_prefix by done.
  by rewrite Hl, Hv.
Qed.
Lemma NormalizeOid_idemp oid : NormalizeOid (NormalizeOid oid) = NormalizeOid oid.
Proof.
  destruct (decide (NormalizeOid oid = "")) as [->|Hne]; [done|]. by apply NormalizeOid_id, NormalizeOid_valid.
Qed.
Lemma sha256_of_valid c v : sha256_of c = Some v → valid_oid v.
Proof.
  unfold sha256_of. destruct (String.eqb _ _); [|done]. cbv zeta.
  destruct (is_empty _) eqn:E; [done|]. intros [= <-]. by apply NormalizeOid_valid, is_empty_false.
Qed.
Lemma elem_of_SHA256Values l v : v ∈ SHA256Values l ↔ ∃ c, c ∈ l ∧ sha256_of c = Some v.
Proof. unfold SHA256Values. by rewrite elem_of_dedup, list_elem_of_omap. Qed.
Lemma CanonicalSHA256_valid l v : CanonicalSHA256 l = Some v → valid_oid v.
Proof.
  unfold CanonicalSHA256. intros Hv%head_Some_elem_of.
  apply elem_of_SHA256Values in Hv as (c & _ & Hc). by eapply sha256_of_valid.
Qed.
Lemma SHA256Values_canonical v : valid_oid v → SHA256Values [mkChecksum "sha256" v] = [v].
Proof.
  intros Hv. unfold SHA256Values, sha256_of. csimpl.
  change (String.eqb (NormalizeChecksumType "sha256") "sha256") with true. cbv iota.
  by rewrite NormalizeOid_id, valid_oid_not_empty by done.
Qed.
Lemma ValidateCanonicalSHA256_canonical v :
  valid_oid v → ValidateCanonicalSHA256 [mkChecksum "sha256" v] = Ok (Some v).
Proof. intros Hv. unfold ValidateCanonicalSHA256. by rewrite SHA256Values_canonical. Qed.

(** ** Properties *)
(** The SHA-256 of a checksum list: validation answers [Some v] exactly when [v] is the only identifier
    that the SHA-256 entries of the list normalise to, [None] exactly when no entry normalises to one, and
    otherwise fails because two entries disagree; whatever it answers is a well-formed identifier. *)
Theorem ValidateCanonicalSHA256_spec l :
  match ValidateCanonicalSHA256 l with
  | Ok (Some v) => valid_oid v ∧ ∀ w, (∃ c, c ∈ l ∧ sha256_of c = Some w) ↔ w = v
  | Ok None => ∀ c, c ∈ l → sha256_of c = None
  | Err e => CodeOf e = Some ErrorCodeConflictingSha256 ∧
             ∃ c d v w, c ∈ l ∧ d ∈ l ∧ sha256_of c = Some v ∧ sha256_of d = Some w ∧ v ≠ w
  end.
Proof.
  pose proof (elem_of_SHA256Values l) as Hs.
  assert (NoDup (SHA256Values l)) as Hnd by apply NoDup_dedup.
  unfold ValidateCanonicalSHA256. destruct (SHA256Values l) as [|v [|w vs]].
  - intros c Hc. destruct (sha256_of c) as [v|] eqn:E; [|done].
    assert (v ∈ []) by (apply Hs; eauto). set_solver.
  - split.
    + destruct (proj1 (Hs v)) as (c & _ & Hc); [set_solver|]. by eapply sha256_of_valid.
    + intros w. rewrite <- Hs. set_solver.
  - split; [done|]. destruct (proj1 (Hs v)) as (c & ? & ?); [set_solver|].
    destruct (proj1 (Hs w)) as (d & ? & ?); [set_solver|]. exists c, d, v, w.
    apply NoDup_cons in Hnd as [Hnd _]. set_solver.
Qed.

Lemma fresh_additions_spec seen l c :
  c ∈ fresh_additions seen l →
  (NormalizeChecksumType (cs_Type c) ∉ seen) ∧ cs_Checksum c ≠ "" ∧
  ∃ a, a ∈ l ∧ cs_Type c = TrimSpace (cs_Type a) ∧ cs_Checksum c = TrimSpace (NormalizeChecksum (cs_Checksum a)).
Proof.
  revert seen. induction l as [|a l IH]; intros seen; simpl; [set_solver|].
  destruct (is_empty (NormalizeChecksumType (cs_Type a)) || _) eqn:Ee.
  { intros Hc. destruct (IH seen Hc) as (?&?&a'&?&?&?). split_and!; [done..|]. exists a'. set_solver. }
  apply orb_false_iff in Ee as [_ Ev%is_empty_false].
  case_decide.
  { intros Hc. destruct (IH seen Hc) as (?&?&a'&?&?&?). split_and!; [done..|]. exists a'. set_solver. }
  intros [->|Hc]%elem_of_cons; simpl.
  - unfold NormalizeChecksumType. rewrite TrimSpace_idemp. split_and!; [done..|]. exists a. set_solver.
  - destruct (IH _ Hc) as (?&?&a'&?&?&?). split_and!; [set_solver|done|]. exists a'. set_solver.
Qed.
Lemma fresh_additions_NoDup seen l :
  NoDup ((λ c, NormalizeChecksumType (cs_Type c)) <$> fresh_additions seen l).
Proof.
  revert seen. induction l as [|a l IH]; intros seen; simpl; [constructor|].
  destruct (is_empty (NormalizeChecksumType (cs_Type a)) || _); [done|]. case_decide; [done|]. rewrite fmap_cons.
  constructor; [|done]. intros (c & Hc & Hin)%list_elem_of_fmap.
  apply fresh_additions_spec in Hin as (Hn & _). unfold NormalizeChecksumType in *. simpl in *.
  rewrite TrimSpace_idemp in Hc. set_solver.
Qed.
Lemma fresh_additions_complete seen l a :
  a ∈ l → NormalizeChecksumType (cs_Type a) ≠ "" → TrimSpace (NormalizeChecksum (cs_Checksum a)) ≠ "" →
  NormalizeChecksumType (cs_Type a) ∈ seen ∨
  ∃ c, c ∈ fresh_additions seen l ∧ NormalizeChecksumType (cs_Type c) = NormalizeChecksumType (cs_Type a).
Proof.
  intros Ha Ht Hv. revert seen Ha. induction l as [|b l IH]; intros seen; [set_solver|].
  intros [<-|Ha]%elem_of_cons; simpl.
  - apply is_empty_false in Ht, Hv. rewrite Ht, Hv. simpl. case_decide; [by left|].
    right. eexists. split; [apply list_elem_of_here|]. unfold NormalizeChecksumType. simpl. by rewrite TrimSpace_idemp.
  - destruct (is_empty (NormalizeChecksumType (cs_Type b)) || _); [by apply IH|]. case_decide; [by apply IH|].
    destruct (IH ({[NormalizeChecksumType (cs_Type b)]} ∪ seen) Ha) as [[Hb|?]%elem_of_union|(c & ? & ?)].
    + apply elem_of_singleton in Hb. right. eexists. split; [apply list_elem_of_here|].
      unfold NormalizeChecksumType in *. simpl. by rewrite TrimSpace_idemp.
    + by left.
    + right. exists c. set_solver.
Qed.

(** Merging additional checksums keeps the existing list as it is, adds at most one entry per
    checksum type and never one of a type that is already there, and leaves no type of a non-blank
    addition unrepresented: a recorded digest is never overwritten. *)
Theorem MergeAdditionalChecksums_spec existing additions :
  let type c := NormalizeChecksumType (cs_Type c) in
  ∃ added, MergeAdditionalChecksums existing additions = existing ++ added ∧
    NoDup (type <$> added) ∧
    (∀ c, c ∈ added → cs_Checksum c ≠ "" ∧ ∀ e, e ∈ existing → type e ≠ "" → type c ≠ type e) ∧
    (∀ a, a ∈ additions → type a ≠ "" → TrimSpace (NormalizeChecksum (cs_Checksum a)) ≠ "" →
      ∃ c, c ∈ existing ++ added ∧ type c = type a).
Proof.
  cbv zeta. exists (fresh_additions (checksum_types existing) additions).
  assert (∀ t, t ∈ checksum_types existing ↔ t ≠ "" ∧ ∃ e, e ∈ existing ∧ NormalizeChecksumType (cs_Type e) = t) as Ht.
  { intros t. unfold checksum_types. rewrite elem_of_list_to_set, list_elem_of_filter, list_elem_of_fmap. naive_solver. }
  split_and!; [done|apply fresh_additions_NoDup| |].
  - intros c Hc. apply fresh_additions_spec in Hc as (Hn & Hv & _). split; [done|].
    intros e He Hne Heq. apply Hn. apply Ht. rewrite Heq. eauto.
  - intros a Ha Hta Hva.
    destruct (fresh_additions_complete (checksum_types existing) additions a Ha Hta Hva) as [Hs|(c & Hc & Heq)].
    + apply Ht in Hs as (_ & e & He & ?). exists e. set_solver.
    + exists c. set_solver.
Qed.

(** Registration metadata: the size once set and the version, description and name of a record that
    is not replaceable never change, the update time never goes back, and of two different names both
    survive, one as the name and the other as the alias to insert. *)
Theorem MergeRegistrationMetadata_keeps input :
  let r := MergeRegistrationMetadata input in
  let incoming := CleanToBasename (IncomingName input) in
  (ExistingSize input ≠ 0%Z → mr_Size r = ExistingSize input) ∧
  (ExistingUpdated input <= mr_Updated r ∧ IncomingUpdated input <= mr_Updated r)%Z ∧
  (TrimSpace (ExistingName input) ≠ "" →
     ExistingName input = mr_Name r ∨ ExistingName input = mr_NameAlias r) ∧
  (incoming ≠ "" → incoming = mr_Name r ∨ incoming = mr_NameAlias r) ∧
  ((∀ r', r' ∈ IncomingResources input → CurrentResources input ≠ [r']) →
     (TrimSpace (ExistingName input) ≠ "" → mr_Name r = ExistingName input) ∧
     (TrimSpace (ExistingVersion input) ≠ "" → mr_Version r = ExistingVersion input) ∧
     (TrimSpace (ExistingDescription input) ≠ "" → mr_Description r = ExistingDescription input)).
Proof.
  cbv zeta. unfold MergeRegistrationMetadata. cbv zeta. simpl.
  set (allow := _ && hasRegistrationResourceOverlap _ _).
  assert ((∀ r', r' ∈ IncomingResources input → CurrentResources input ≠ [r']) → allow = false) as Hallow.
  { intros Hno. subst allow. destruct (CurrentResources input) as [|r' [|? ?]]; simpl; [done| |done].
    rewrite orb_false_r. apply bool_decide_eq_false. intros Hr. by eapply Hno. }
  set (incoming := CleanToBasename (IncomingName input)).
  assert (∀ s, TrimSpace s ≠ "" → is_empty s = false) as Hne.
  { intros [|] Hs; [by exfalso; apply Hs|done]. }
  split_and!.
  - intros Hs. by destruct (Z.eqb_spec (ExistingSize input) 0).
  - destruct (Z.ltb_spec (ExistingUpdated input) (IncomingUpdated input)); lia.
  - destruct (Z.ltb_spec (ExistingUpdated input) (IncomingUpdated input)); lia.
  - intros Hs. pose proof Hs as Hs'%is_empty_false. apply Hne in Hs. unfold merge_text.
    rewrite Hs, Hs'. destruct (String.eqb_spec (ExistingName input) incoming) as [->|];
      destruct allow, (is_empty incoming); simpl; auto.
  - intros Hi%is_empty_false. unfold merge_text. rewrite Hi. simpl. rewrite andb_true_r.
    destruct allow; simpl; [by left|].
    destruct (is_empty (TrimSpace (ExistingName input))) eqn:Et; [by left|].
    rewrite Hne by by apply is_empty_false. simpl.
    destruct (String.eqb_spec (ExistingName input) incoming) as [->|]; simpl; auto.
  - intros ->%Hallow. unfold merge_text. simpl.
    split_and!; intros ->%is_empty_false; done.
Qed.

Section properties.
Context `{MapOrder} `{Digests}.

Lemma canonicalProjectScope_Ok authz scope :
  canonicalProjectScope authz = Ok scope →
  filter (λ r, project_scope r = true) (NormalizeAccessResources authz) = [scope].
Proof. unfold canonicalProjectScope. intros Hs. repeat case_match; by simplify_eq. Qed.

(** C39 A candidate that registers becomes a record whose only checksum is the first SHA-256 identifier of
    the candidate, whose self URI names its id, whose name is not blank, and which has an access method,
    each with an access id unless its type is empty.  Its id is the one of the first id: alias; without
    one it is minted from the checksum and the only project scope the claims name. *)
Theorem CandidateToRecord_wf c now r :
  CandidateToRecord c now = Ok r →
  ∃ oid methods,
    CanonicalSHA256 (slice (cand_Checksums c)) = Some oid ∧ valid_oid oid ∧
    r_Checksums r = Some [mkChecksum "sha256" oid] ∧
    ValidateCanonicalSHA256 (slice (r_Checksums r)) = Ok (Some oid) ∧
    r_SelfUri r = "drs://" +:+ r_Id r ∧
    (∃ n, r_Name r = Some n ∧ TrimSpace n ≠ "") ∧
    r_AccessMethods r = Some methods ∧ methods ≠ [] ∧
    Forall (λ m, am_Type m ≠ "" → default "" (am_AccessId m) ≠ "") methods ∧
    (let id := alias_id (slice (cand_Aliases c)) in
     if is_empty id
     then ∃ scope, filter (λ x, project_scope x = true) (NormalizeAccessResources
              (AuthzMapToList (ControlledAccessToAuthzMap (slice (cand_ControlledAccess c))))) = [scope] ∧
            r_Id r = uuid_NewSHA1 (record_seed oid scope)
     else r_Id r = id).
Proof.
  unfold CandidateToRecord. destruct (CanonicalSHA256 _) as [oid|] eqn:Eoid; [|done].
  pose proof (CanonicalSHA256_valid _ _ Eoid) as Hoid.
  destruct (cand_AccessMethods c) as [[|m ms]|]; [done| |done]. cbv zeta.
  set (id0 := match cand_Aliases c with Some l => alias_id l | None => "" end).
  assert (id0 = alias_id (slice (cand_Aliases c))) as Hid0 by (subst id0; by destruct (cand_Aliases c)).
  rewrite bind_Ok. intros (id & Hid & [= <-]). exists oid, (default_access_id <$> m :: ms). cbn [r_Checksums r_SelfUri r_Id r_Name r_AccessMethods default from_option].
  split_and!; try reflexivity; try exact Hoid; try discriminate.
  - by apply ValidateCanonicalSHA256_canonical.
  - assert (TrimSpace oid ≠ "") as Hne.
    { rewrite hex_TrimSpace by apply Hoid. by apply is_empty_false, valid_oid_not_empty. }
    destruct (cand_Name c) as [n|]; [|by eauto]. destruct (is_empty (CleanToBasename n)) eqn:En; [by eauto|].
    destruct (is_empty (TrimSpace (CleanToBasename n))) eqn:En'; [by eauto|].
    eexists. split; [done|]. by apply is_empty_false.
  - apply Forall_fmap, Forall_true. intros x. simpl. unfold default_access_id.
    case_bool_decide; simpl; auto.
  - rewrite <- Hid0. destruct (is_empty id0); [|by injection Hid as ->].
    unfold MintRecordIDFromChecksum in Hid. assert (normalizeSHA256Checksum oid = oid) as Hn.
    { unfold normalizeSHA256Checksum. destruct Hoid as [_ Hh]. by rewrite hex_lower, hex_TrimSpace, hex_no_prefix. }
    rewrite Hn, valid_oid_not_empty in Hid by done. cbv zeta in Hid.
    apply bind_Ok in Hid as (scope & Hs%canonicalProjectScope_Ok & [= <-]). eauto.
Qed.
End properties.

Definition sample_sha : string := "00112233445566778899aabbccddeeff00112233445566778899AABBCCDDEEFF".
Definition sample_candidate : Candidate :=
  mkCandidate (Some [mkAccessMethod None (Some (mkAccessURL None "s3://b/k")) None None None None "s3"]) None
    (Some [mkChecksum "SHA-256" ("sha256:" +:+ sample_sha)]) None (Some ["/organization/ohsu/project/p1"])
    None None (Some "dir/file.txt") (Some 12%Z).
Lemma CandidateToRecord_wf_witness :
  ∃ r, @CandidateToRecord canonical_order (Build_Digests (λ s, s) (λ s, "uuid:" +:+ s)) sample_candidate 5 = Ok r ∧
    r_SelfUri r = "drs://" +:+ r_Id r.
Proof.
  eexists. assert (@CandidateToRecord canonical_order (Build_Digests (λ s, s) (λ s, "uuid:" +:+ s)) sample_candidate 5
    = Ok _) as Hr by (vm_compute; reflexivity).
  split; [exact Hr|].
  destruct (@CandidateToRecord_wf canonical_order (Build_Digests (λ s, s) (λ s, "uuid:" +:+ s)) sample_candidate 5 _ Hr)
    as (oid & methods & _ & _ & _ & _ & Hu & _). exact Hu.
Defined.
