(* ===== verification/ContentStore.v ===== *)
(** * The content store: internal/persistence/sqlite
    (content_identity.go, content_replacement.go, object_mutations.go, the usage flush of
    usage_accounting.go, and sqlite.go's data source name)
    A database is the value of its tables.  A statement of the source becomes the table operation that its
    SQL text describes; a transaction is a function that returns the new database or an error, and [commit]
    keeps the old database on an error (the deferred rollback).  Errors of the database driver itself are
    not modelled.  SQLite's [trim] removes spaces only and [lower] changes ASCII letters only. *)
From S2P Require Import Prelude GoStrings GoURL Errors Resources Policy Objects.

(** ** Tables (schema.go) *)
Record object_row := mkObjectRow {
  o_size : Z; o_created : Z; o_updated : Z; o_name : string; o_version : string; o_description : string }.
Record usage_row := mkUsageRow {
  u_upload_count : Z; u_download_count : Z; u_last_upload : option Z; u_last_download : option Z;
  u_updated : Z }.
Inductive usage_event_type := UploadEvent | DownloadEvent.
#[export] Instance usage_event_type_eq_dec : EqDecision usage_event_type.
Proof. solve_decision. Defined.

Record DB := mkDB {
  drs_object : gmap string object_row;
  access_method : list (string * (string * string));      (* object_id, url, type *)
  controlled_access : list (string * string);             (* object_id, resource *)
  checksum : list (string * (string * string));           (* object_id, type, checksum *)
  read_policy : gmap string bool;
  object_alias : gmap string string;                      (* alias_id, object_id *)
  name_alias : list (string * string);                    (* object_id, name_alias *)
  object_usage : gmap string usage_row;
  usage_event : list (string * (usage_event_type * Z)) }. (* object_id, event_type, event_time *)
Definition empty_db : DB := mkDB ∅ [] [] [] ∅ ∅ [] ∅ [].

Section set_table.
Context (db : DB).
Definition set_drs_object v := mkDB v (access_method db) (controlled_access db) (checksum db) (read_policy db)
  (object_alias db) (name_alias db) (object_usage db) (usage_event db).
Definition set_access_method v := mkDB (drs_object db) v (controlled_access db) (checksum db) (read_policy db)
  (object_alias db) (name_alias db) (object_usage db) (usage_event db).
Definition set_controlled_access v := mkDB (drs_object db) (access_method db) v (checksum db) (read_policy db)
  (object_alias db) (name_alias db) (object_usage db) (usage_event db).
Definition set_checksum v := mkDB (drs_object db) (access_method db) (controlled_access db) v (read_policy db)
  (object_alias db) (name_alias db) (object_usage db) (usage_event db).
Definition set_read_policy v := mkDB (drs_object db) (access_method db) (controlled_access db) (checksum db) v
  (object_alias db) (name_alias db) (object_usage db) (usage_event db).
Definition set_object_alias v := mkDB (drs_object db) (access_method db) (controlled_access db) (checksum db)
  (read_policy db) v (name_alias db) (object_usage db) (usage_event db).
Definition set_name_alias v := mkDB (drs_object db) (access_method db) (controlled_access db) (checksum db)
  (read_policy db) (object_alias db) v (object_usage db) (usage_event db).
Definition set_usage u e := mkDB (drs_object db) (access_method db) (controlled_access db) (checksum db)
  (read_policy db) (object_alias db) (name_alias db) u e.
End set_table.

(** A committed transaction replaces the database; a failed one is rolled back. *)
Definition commit {A} (db : DB) (r : result error (DB * A)) : DB * result error A :=
  match r with Ok (db', a) => (db', Ok a) | Err e => (db, Err e) end.

(** [INSERT OR IGNORE], and [INSERT ... WHERE NOT EXISTS] on the whole row. *)
Definition insert_if_absent {A} `{EqDecision A} (row : A) (table : list A) : list A :=
  if decide (row ∈ table) then table else table ++ [row].

(** ** SQL string functions *)
Definition sql_trim (s : string) : string := Trim s " ".
Definition sql_type (t : string) : string := ReplaceAll (ToLower (sql_trim t)) "-" "".
Definition sql_sha (v : string) : string := ReplaceAll (ToLower (sql_trim v)) "sha256:" "".
Definition sha_row (row : string * (string * string)) : bool := String.eqb (sql_type row.2.1) "sha256".

(** ** Queries *)
Definition identityConflict (format : string) : error := EWrap ("%w: " +:+ format) (EDef ErrConflict).
Definition legacyDuplicateError : error := identityConflict "legacy duplicate physical rows for SHA %q: %s".

Definition sqliteObjectIDTx (db : DB) (id : string) : option string :=
  match drs_object db !! id with Some _ => Some id | None => object_alias db !! id end.
Definition sqliteObjectIDsBySHATx (db : DB) (sha : string) : list string :=
  TrimSpace <$> sort_Strings (dedup (fst <$>
    filter (λ row, sha_row row && String.eqb (sql_sha row.2.2) sha = true) (checksum db))).
Definition sqliteObjectSHAsTx (db : DB) (id : string) : list string :=
  filter (.≠ "") (NormalizeOid <$> dedup ((λ row, sql_sha row.2.2) <$>
    filter (λ row, String.eqb row.1 id && sha_row row = true) (checksum db))).
Definition sqliteResourcesTx (db : DB) (id : string) : list string :=
  NormalizeAccessResources (snd <$> filter (λ row, row.1 = id) (controlled_access db)).
Definition sqlitePublicReadTx (db : DB) (id : string) (inferred : bool) : bool := default inferred (read_policy db !! id).

Definition checkUUIDClaimTx (db : DB) (requested canonical : string) : result error unit :=
  match object_alias db !! requested with
  | Some aliasTarget =>
      if String.eqb aliasTarget canonical then Ok tt
      else Err (identityConflict "UUID %q is already an alias for %q")
  | None => Ok tt
  end.
Definition sqliteEnsureNoLegacyDuplicateTx (db : DB) (id : string) : result error unit :=
  if existsb (λ sha, (1 <? length (sqliteObjectIDsBySHATx db sha))%nat) (sqliteObjectSHAsTx db id)
  then Err legacyDuplicateError else Ok tt.

Definition identityAliases (obj : ObjectRecord) : list string :=
  sort_Strings (dedup (filter (.≠ "") (TrimSpace <$> omap (strip_prefix "id:") (slice (r_Aliases obj))))).
Definition normalizeObjectNameAliases (obj : ObjectRecord) : list string :=
  NormalizeNameAliases (default "" (r_Name obj)) (r_NameAliases obj).
Definition valueTime (t : option Z) : Z := default 0%Z t.
Definition sqliteHasNewResource (resources current : list string) : bool :=
  existsb (λ r, bool_decide (r ∉ current)) resources.

(** ** Statements *)
Definition setPublicReadTx (db : DB) (id : string) (public : bool) : DB :=
  set_read_policy db (<[id := public || default false (read_policy db !! id)]> (read_policy db)).
Definition insertObjectAliasTx (db : DB) (alias canonical : string) : result error DB :=
  if String.eqb alias canonical then Ok db
  else
    _ ← checkUUIDClaimTx db alias canonical;
    Ok (match object_alias db !! alias with
        | Some _ => db
        | None => set_object_alias db (<[alias := canonical]> (object_alias db))
        end).
Definition insertIdentityAliases (db : DB) (id canonicalID : string) (obj : ObjectRecord) : result error DB :=
  db ← (if String.eqb id canonicalID then Ok db else insertObjectAliasTx db id canonicalID);
  foldlM (λ db alias, if String.eqb alias canonicalID then Ok db else insertObjectAliasTx db alias canonicalID)
    db (identityAliases obj).

(** A loaded object row, with its id. *)
Record sqliteContentRow := mkContentRow { row_id : string; row_data : object_row }.
Definition sqliteLoadContentRowTx (db : DB) (id : string) : option sqliteContentRow :=
  mkContentRow id <$> drs_object db !! id.
Definition insertContentRowTx (db : DB) (id : string) (obj : ObjectRecord) : DB :=
  set_drs_object db (<[id := mkObjectRow (r_Size obj) (r_CreatedTime obj) (valueTime (r_UpdatedTime obj))
    (CleanToBasename (default "" (r_Name obj))) (default "" (r_Version obj)) (default "" (r_Description obj))]>
    (drs_object db)).

Definition update_row (db : DB) (row : sqliteContentRow) (size updated : Z) (name version description : string) : DB :=
  set_drs_object db (alter (λ old, mkObjectRow size (o_created old) updated name version description)
    (row_id row) (drs_object db)).
Definition add_name_alias (db : DB) (id alias : string) : DB :=
  set_name_alias db (insert_if_absent (id, alias) (name_alias db)).

Definition mergeContentRowTx (db : DB) (row : sqliteContentRow) (obj : ObjectRecord)
    (resources currentResources : list string) : DB :=
  let d := row_data row in
  let merged := MergeRegistrationMetadata (mkRegistrationMergeInput (o_name d) (o_version d) (o_description d)
    (o_size d) (o_updated d) (default "" (r_Name obj)) (default "" (r_Version obj))
    (default "" (r_Description obj)) (r_Size obj) (valueTime (r_UpdatedTime obj)) resources currentResources) in
  let db := if is_empty (mr_NameAlias merged) then db else add_name_alias db (row_id row) (mr_NameAlias merged) in
  update_row db row (mr_Size merged) (mr_Updated merged) (mr_Name merged) (mr_Version merged) (mr_Description merged).

(** The url and type of a usable access method. *)
Definition method_row (m : AccessMethod) : option (string * string) :=
  match am_AccessUrl m with
  | Some u => if is_empty (TrimSpace (au_Url u)) then None else Some (TrimSpace (au_Url u), TrimSpace (am_Type m))
  | None => None
  end.
Definition insert_method (id : string) (table : list (string * (string * string))) (m : string * string) :=
  let '(url, typ) := m in
  if existsb (λ row, String.eqb row.1 id && String.eqb (ToLower (sql_trim row.2.2)) (ToLower (sql_trim typ))
                     && String.eqb row.2.1 url) table
  then table else table ++ [(id, (url, typ))].

(** A checksum that is stored as given: everything but the SHA-256 identifiers, which are stored apart. *)
Definition raw_checksum (c : Checksum) : option (string * string) :=
  let typ := TrimSpace (cs_Type c) in
  let value := TrimSpace (cs_Checksum c) in
  if is_empty typ || is_empty value
     || (String.eqb (NormalizeChecksumType typ) "sha256" && negb (is_empty (NormalizeOid value)))
  then None else Some (typ, value).
Definition insert_raw_checksums (table : list (string * (string * string))) (id : string) (l : list Checksum) :=
  foldl (λ table row, insert_if_absent (id, row) table) table (omap raw_checksum l).
Definition insert_sha (table : list (string * (string * string))) (id sha : string) :=
  if existsb (λ row, String.eqb row.1 id && sha_row row && String.eqb (sql_sha row.2.2) sha) table
  then table else table ++ [(id, ("sha256", sha))].
Definition insert_name_aliases (db : DB) (id : string) (obj : ObjectRecord) : DB :=
  set_name_alias db (foldl (λ table alias, insert_if_absent (id, alias) table) (name_alias db)
    (normalizeObjectNameAliases obj)).

Definition mergeContentChildrenTx (db : DB) (id : string) (sha : option string) (resources : list string)
    (obj : ObjectRecord) : DB :=
  let db := set_controlled_access db
    (foldl (λ table r, insert_if_absent (id, r) table) (controlled_access db) resources) in
  let db := match r_AccessMethods obj with
            | Some methods => set_access_method db (foldl (insert_method id) (access_method db) (omap method_row methods))
            | None => db
            end in
  let db := insert_name_aliases db id obj in
  let table := match sha with Some sha => insert_sha (checksum db) id sha | None => checksum db end in
  set_checksum db (insert_raw_checksums table id (slice (r_Checksums obj))).

(** ** Usage events: usage_accounting.go *)
Definition sqliteMaxParams : nat := 900.
(** Later of two optional times, NULL being earlier than any. *)
Definition merge_last (existing excluded : option Z) : option Z :=
  match excluded, existing with
  | None, _ => existing
  | Some _, None => excluded
  | Some e, Some x => if (x <? e)%Z then excluded else existing
  end.
Definition count_events (t : usage_event_type) (events : list (string * (usage_event_type * Z))) (id : string) : Z :=
  Z.of_nat (length (filter (λ e, e.1 = id ∧ e.2.1 = t) events)).
Definition last_event (t : usage_event_type) (events : list (string * (usage_event_type * Z))) (id : string) : option Z :=
  foldl (λ m e, merge_last m (Some e.2.2)) None (filter (λ e, e.1 = id ∧ e.2.1 = t) events).
(** One group of the INSERT ... SELECT ... GROUP BY, with its ON CONFLICT clause. *)
Definition flush_id (now : Z) (events : list (string * (usage_event_type * Z))) (objs : gmap string object_row)
    (usage : gmap string usage_row) (id : string) : gmap string usage_row :=
  if decide (is_Some (objs !! id) ∧ id ∈ events.*1) then
    let up := count_events UploadEvent events id in
    let down := count_events DownloadEvent events id in
    let last_up := last_event UploadEvent events id in
    let last_down := last_event DownloadEvent events id in
    <[id := match usage !! id with
            | Some u => mkUsageRow (u_upload_count u + up) (u_download_count u + down)
                          (merge_last (u_last_upload u) last_up) (merge_last (u_last_download u) last_down) now
            | None => mkUsageRow up down last_up last_down now
            end]> usage
  else usage.
Definition flushObjectUsageEventsForIDChunkTx (now : Z) (db : DB) (ids : list string) : DB :=
  set_usage db (foldl (flush_id now (usage_event db) (drs_object db)) (object_usage db) (dedup ids))
    (filter (λ e, e.1 ∉ ids) (usage_event db)).
Definition flushObjectUsageEventsForIDsTx (now : Z) (db : DB) (ids : list string) : DB :=
  let fix go (fuel : nat) (db : DB) (ids : list string) : DB :=
    match fuel, ids with
    | S fuel, _ :: _ =>
        go fuel (flushObjectUsageEventsForIDChunkTx now db (take (sqliteMaxParams - 1) ids))
          (drop (sqliteMaxParams - 1) ids)
    | _, _ => db
    end in
  go (length ids) db ids.

(** ** Transactions *)
Section transactions.
Context `{MapOrder}.

Definition sqliteObjectResources (obj : ObjectRecord) : list string :=
  match r_ControlledAccess obj with
  | Some l => NormalizeAccessResources l
  | None => NormalizeAccessResources (AuthzMapToList (r_Authorizations obj))
  end.
Definition sqliteCanReadContent (ctx : context) (resources : list string) : bool :=
  if negb (IsAuthzEnforced ctx) then true
  else match resources with [] => false | _ => HasObjectMethodAccess ctx "read" resources end.
Definition sqliteCanCreateResources (ctx : context) (resources current : list string) : bool :=
  forallb (λ r, bool_decide (r ∈ current) || HasMethodAccess ctx "create" [r]) resources.
Definition sqliteRequireContentMethodTx (ctx : context) (db : DB) (id method : string) : result error unit :=
  if HasMethodAccess ctx method (sqliteResourcesTx db id) then Ok tt else Err (EDef ErrAccessDenied).

(** The object a registration is about: the first half of [registerContentTx]. *)
Definition register_target (db : DB) (id : string) (sha : option string) : result error string :=
  let foundByID := sqliteObjectIDTx db id in
  canonicalID ← match sha with
    | Some sha =>
        match sqliteObjectIDsBySHATx db sha with
        | [] =>
            match foundByID with
            | None => Ok id
            | Some canonicalID =>
                if existsb (λ existingSHA, negb (String.eqb existingSHA sha)) (sqliteObjectSHAsTx db canonicalID)
                then Err (identityConflict "UUID %q already identifies SHA %q") else Ok canonicalID
            end
        | [owner] =>
            match foundByID with
            | Some canonicalID =>
                if String.eqb canonicalID owner then Ok owner
                else Err (identityConflict "UUID %q belongs to %q, not SHA %q")
            | None => Ok owner
            end
        | _ => Err legacyDuplicateError
        end
    | None => Ok (default id foundByID)
    end;
  if is_empty canonicalID then Err (identityConflict "empty canonical object id for %q")
  else
    _ ← checkUUIDClaimTx db id canonicalID;
    Ok canonicalID.

Definition registerContentTx (ctx : context) (db : DB) (obj : ObjectRecord) : result error (DB * string) :=
  let id := TrimSpace (r_Id obj) in
  if is_empty id then Err (EText "object id is required")
  else
    sha ← ValidateCanonicalSHA256 (slice (r_Checksums obj));
    canonicalID ← register_target db id sha;
    let loaded := sqliteLoadContentRowTx db canonicalID in
    let wasExisting := bool_decide (is_Some loaded) in
    let '(db, row) := match loaded with
      | Some row => (db, row)
      | None =>
          (insertContentRowTx db canonicalID obj,
           mkContentRow canonicalID
             (mkObjectRow (r_Size obj) (r_CreatedTime obj) (valueTime (r_UpdatedTime obj)) "" "" ""))
      end in
    let size := o_size (row_data row) in
    if bool_decide (is_Some sha) && negb (size =? 0)%Z && negb (r_Size obj =? 0)%Z && negb (size =? r_Size obj)%Z
    then Err (identityConflict "SHA %q has conflicting sizes %d and %d")
    else
      let resources := sqliteObjectResources obj in
      let currentResources := sqliteResourcesTx db canonicalID in
      let inferredPublic :=
        if wasExisting then bool_decide (currentResources = []) else bool_decide (resources = []) in
      let publicRead := sqlitePublicReadTx db canonicalID inferredPublic in
      if wasExisting && negb publicRead
         && (sqliteHasNewResource resources currentResources || bool_decide (currentResources = [])
             || bool_decide (is_Some (r_AccessMethods obj)))
         && negb (sqliteCanReadContent ctx currentResources)
      then Err (EDef ErrAccessDenied)
      else if negb (sqliteCanCreateResources ctx resources currentResources) then Err (EDef ErrAccessDenied)
      else
        let db := mergeContentRowTx db row obj resources currentResources in
        let db := mergeContentChildrenTx db canonicalID sha resources obj in
        let db := setPublicReadTx db canonicalID publicRead in
        db ← insertIdentityAliases db id canonicalID obj;
        Ok (db, canonicalID).

(** The loop of a batch: the canonical ids, in order of first appearance, without repetition. *)
Definition batch_step (f : DB → ObjectRecord → result error (DB * string)) (s : DB * list string) (obj : ObjectRecord)
  : result error (DB * list string) :=
  let '(db, canonicalIDs) := s in
  match f db obj with
  | Ok (db, canonicalID) =>
      Ok (db, if decide (canonicalID ∈ canonicalIDs) then canonicalIDs else canonicalIDs ++ [canonicalID])
  | Err e => Err (EWrap "object[%d]: %w" e)
  end.
Definition run_batch (f : DB → ObjectRecord → result error (DB * string)) (now : Z) (db : DB)
    (objs : list ObjectRecord) : result error (DB * unit) :=
  match objs with
  | [] => Ok (db, tt)
  | _ =>
      s ← foldlM (batch_step f) (db, []) objs;
      Ok (flushObjectUsageEventsForIDsTx now s.1 s.2, tt)
  end.
Definition RegisterObjects (ctx : context) (now : Z) (objs : list ObjectRecord) (db : DB) : DB * result error unit :=
  commit db (run_batch (registerContentTx ctx) now db objs).
Definition CreateObject (ctx : context) (now : Z) (obj : option ObjectRecord) (db : DB) : DB * result error unit :=
  match obj with
  | None => (db, Err (EText "object is required"))
  | Some obj => RegisterObjects ctx now [obj] db
  end.

(** *** content_replacement.go *)
Definition replaceMetadataTx (db : DB) (row : sqliteContentRow) (obj : ObjectRecord) : DB :=
  let d := row_data row in
  let keep (incoming existing : string) := if is_empty incoming then existing else incoming in
  let name := keep (CleanToBasename (default "" (r_Name obj))) (o_name d) in
  let db := if negb (is_empty (o_name d)) && negb (is_empty name) && negb (String.eqb (o_name d) name)
            then add_name_alias db (row_id row) (o_name d) else db in
  let version := keep (TrimSpace (default "" (r_Version obj))) (o_version d) in
  let description := keep (TrimSpace (default "" (r_Description obj))) (o_description d) in
  let size := if (r_Size obj =? 0)%Z then o_size d else r_Size obj in
  let incoming := valueTime (r_UpdatedTime obj) in
  let updated := if (o_updated d <? incoming)%Z then incoming else o_updated d in
  update_row db row size updated name version description.

(** The methods of a record, the first one per lower-cased type and url. *)
Definition replace_methods (methods : list AccessMethod) : list (string * string) :=
  dedup_on (λ m, ToLower m.2 +:+ bytes [0] +:+ m.1) (omap method_row methods).
Definition replaceChildrenTx (db : DB) (id : string) (obj : ObjectRecord) (sha : option string) : DB :=
  let db := match r_AccessMethods obj with
    | Some methods =>
        set_access_method db (filter (λ row, row.1 ≠ id) (access_method db) ++ ((λ m, (id, m)) <$> replace_methods methods))
    | None => db
    end in
  let db := if bool_decide (is_Some (r_ControlledAccess obj)) || bool_decide (is_Some (r_Authorizations obj))
    then set_controlled_access db (filter (λ row, row.1 ≠ id) (controlled_access db)
           ++ ((λ r, (id, r)) <$> sqliteObjectResources obj))
    else db in
  let db := match r_Checksums obj with
    | Some l =>
        let db := match sha with
          | Some sha =>
              let updated := (λ row, if String.eqb row.1 id && sha_row row then (row.1, (row.2.1, sha)) else row)
                               <$> checksum db in
              set_checksum db (if existsb (λ row, String.eqb row.1 id && sha_row row) updated
                               then updated else updated ++ [(id, ("sha256", sha))])
          | None => db
          end in
        let db := set_checksum db (filter (λ row, row.1 ≠ id ∨ sha_row row = true) (checksum db)) in
        set_checksum db (checksum db ++ ((λ row, (id, row)) <$> omap raw_checksum l))
    | None => db
    end in
  insert_name_aliases db id obj.
Definition replacePolicyTx (db : DB) (id : string) (currentResources : list string) (obj : ObjectRecord) : DB :=
  setPublicReadTx db id
    (if r_PublicRead obj then true else sqlitePublicReadTx db id (bool_decide (currentResources = []))).

(** The checks of [replaceObjectTx] on the SHA-256 of the incoming record. *)
Definition replace_sha_check (db : DB) (canonicalID : string) (sha : option string) : result error unit :=
  match sha with
  | None => Ok tt
  | Some sha =>
      let storedSHAs := sqliteObjectSHAsTx db canonicalID in
      _ ← match storedSHAs with
          | [] =>
              match sqliteObjectIDsBySHATx db sha with
              | [] => Ok tt
              | [owner] => if String.eqb owner canonicalID then Ok tt
                           else Err (identityConflict "SHA %q already belongs to object %q")
              | _ => Err legacyDuplicateError
              end
          | _ => Ok tt
          end;
      if existsb (λ storedSHA, negb (String.eqb storedSHA sha)) storedSHAs
      then Err (identityConflict "UUID %q already identifies SHA %q") else Ok tt
  end.
Definition replaceObjectTx (ctx : context) (db : DB) (obj : ObjectRecord) : result error (DB * string) :=
  let id := TrimSpace (r_Id obj) in
  if is_empty id then Err (EText "object id is required")
  else
    match sqliteObjectIDTx db id with
    | None => Err (EDef ErrObjectNotFound)
    | Some canonicalID =>
        _ ← sqliteEnsureNoLegacyDuplicateTx db canonicalID;
        let currentResources := sqliteResourcesTx db canonicalID in
        if negb (HasMethodAccess ctx "update" currentResources) then Err (EDef ErrAccessDenied)
        else
          sha ← ValidateCanonicalSHA256 (slice (r_Checksums obj));
          let storedSHAs := sqliteObjectSHAsTx db canonicalID in
          _ ← replace_sha_check db canonicalID sha;
          let incomingResources := sqliteObjectResources obj in
          let publicRead := sqlitePublicReadTx db canonicalID (bool_decide (currentResources = [])) in
          if sqliteHasNewResource incomingResources currentResources
             && ((negb publicRead && negb (sqliteCanReadContent ctx currentResources))
                 || negb (sqliteCanCreateResources ctx incomingResources currentResources))
          then Err (EDef ErrAccessDenied)
          else
            match sqliteLoadContentRowTx db canonicalID with
            | None => Err (EDef ErrObjectNotFound)
            | Some row =>
                let size := o_size (row_data row) in
                if negb (size =? 0)%Z && negb (r_Size obj =? 0)%Z && negb (size =? r_Size obj)%Z
                   && bool_decide (storedSHAs ≠ [])
                then Err (identityConflict "SHA %q has conflicting sizes %d and %d")
                else
                  let db := replaceMetadataTx db row obj in
                  let db := replaceChildrenTx db canonicalID obj sha in
                  let db := replacePolicyTx db canonicalID currentResources obj in
                  db ← insertIdentityAliases db id canonicalID obj;
                  Ok (db, canonicalID)
            end
    end.
Definition ReplaceObjects (ctx : context) (now : Z) (objs : list ObjectRecord) (db : DB) : DB * result error unit :=
  commit db (run_batch (replaceObjectTx ctx) now db objs).

(** *** object_mutations.go *)
(** [DELETE FROM drs_object WHERE id IN ids], with the ON DELETE CASCADE of every child table. *)
Definition delete_objects (db : DB) (ids : list string) : DB :=
  mkDB (filter (λ e, e.1 ∉ ids) (drs_object db))
    (filter (λ row, row.1 ∉ ids) (access_method db)) (filter (λ row, row.1 ∉ ids) (controlled_access db))
    (filter (λ row, row.1 ∉ ids) (checksum db)) (filter (λ e, e.1 ∉ ids) (read_policy db))
    (filter (λ e, e.2 ∉ ids) (object_alias db)) (filter (λ row, row.1 ∉ ids) (name_alias db))
    (filter (λ e, e.1 ∉ ids) (object_usage db)) (usage_event db).

Definition DeleteObject (ctx : context) (id : string) (db : DB) : DB * result error unit :=
  commit db (
    let requestedID := TrimSpace id in
    if is_empty requestedID then Err (EDef ErrObjectNotFound)
    else
      match sqliteObjectIDTx db requestedID with
      | None => Err (EDef ErrObjectNotFound)
      | Some canonicalID =>
          _ ← sqliteEnsureNoLegacyDuplicateTx db canonicalID;
          _ ← sqliteRequireContentMethodTx ctx db canonicalID "delete";
          match drs_object db !! canonicalID with
          | None => Err (EDef ErrObjectNotFound)
          | Some _ => Ok (delete_objects db [canonicalID], tt)
          end
      end).
Definition DeleteObjectAlias (aliasID : string) (db : DB) : DB * result error unit :=
  commit db (
    match object_alias db !! aliasID with
    | None => Err (EDef ErrObjectNotFound)
    | Some _ => Ok (set_object_alias db (delete aliasID (object_alias db)), tt)
    end).
Definition CreateObjectAlias (ctx : context) (aliasID canonicalObjectID : string) (db : DB) : DB * result error unit :=
  let aliasID := TrimSpace aliasID in
  let canonicalObjectID := TrimSpace canonicalObjectID in
  if is_empty aliasID || is_empty canonicalObjectID
  then (db, Err (EText "alias_id and canonical object id are required"))
  else if String.eqb aliasID canonicalObjectID then (db, Ok tt)
  else
    commit db (
      match drs_object db !! canonicalObjectID with
      | None => Err (EDef ErrObjectNotFound)
      | Some _ =>
          _ ← sqliteEnsureNoLegacyDuplicateTx db canonicalObjectID;
          _ ← sqliteRequireContentMethodTx ctx db canonicalObjectID "update";
          match drs_object db !! aliasID with
          | Some _ => Err (EWrap "%w: alias %q is already a physical object" (EDef ErrConflict))
          | None =>
              match object_alias db !! aliasID with
              | Some aliasTarget =>
                  if String.eqb aliasTarget canonicalObjectID then Ok (db, tt)
                  else Err (EWrap "%w: alias %q already points to %q" (EDef ErrConflict))
              | None => Ok (set_object_alias db (<[aliasID := canonicalObjectID]> (object_alias db)), tt)
              end
          end
      end).

Definition bulk_delete_step (ctx : context) (db : DB) (canonicalIDs : list string) (rawID : string)
  : result error (list string) :=
  match sqliteObjectIDTx db (TrimSpace rawID) with
  | None => Ok canonicalIDs
  | Some canonicalID =>
      _ ← (if String.eqb (TrimSpace rawID) canonicalID then Ok tt else sqliteEnsureNoLegacyDuplicateTx db canonicalID);
      _ ← sqliteRequireContentMethodTx ctx db canonicalID "delete";
      Ok (if decide (canonicalID ∈ canonicalIDs) then canonicalIDs else canonicalIDs ++ [canonicalID])
  end.
Definition BulkDeleteObjects (ctx : context) (ids : list string) (db : DB) : DB * result error unit :=
  match ids with
  | [] => (db, Ok tt)
  | _ =>
      commit db (
        canonicalIDs ← foldlM (bulk_delete_step ctx db) [] ids;
        Ok (match canonicalIDs with [] => db | _ => delete_objects db canonicalIDs end, tt))
  end.

(** The url and type of a method as the update statements store them. *)
Definition plain_method_row (m : AccessMethod) : option (string * string) :=
  match am_AccessUrl m with
  | Some u => if is_empty (au_Url u) then None else Some (au_Url u, am_Type m)
  | None => None
  end.
Definition update_access_methods_tx (ctx : context) (db : DB) (e : string * list AccessMethod) : result error DB :=
  let '(objectID, methods) := e in
  match sqliteObjectIDTx db (TrimSpace objectID) with
  | None => Err (EDef ErrObjectNotFound)
  | Some canonicalID =>
      _ ← sqliteRequireContentMethodTx ctx db canonicalID "update";
      Ok (set_access_method db (filter (λ row, row.1 ≠ canonicalID) (access_method db)
            ++ ((λ m, (canonicalID, m)) <$> omap plain_method_row methods)))
  end.
Definition UpdateObjectAccessMethods (ctx : context) (objectID : string) (methods : list AccessMethod) (db : DB)
  : DB * result error unit :=
  commit db (db ← update_access_methods_tx ctx db (objectID, methods); Ok (db, tt)).
Definition BulkUpdateAccessMethods (ctx : context) (updates : gmap string (list AccessMethod)) (db : DB)
  : DB * result error unit :=
  commit db (db ← foldlM (update_access_methods_tx ctx) db (go_range updates); Ok (db, tt)).

Definition delete_grant (db : DB) (id resource : string) : DB :=
  set_controlled_access db (filter (λ row, row ≠ (id, resource)) (controlled_access db)).
Definition RemoveObjectControlledAccess (ctx : context) (objectID resource : string) (db : DB)
  : DB * result error unit :=
  match NormalizeAccessResources [resource] with
  | [] => (db, Err (EText "resource is required"))
  | resource :: _ =>
      commit db (
        match sqliteObjectIDTx db (TrimSpace objectID) with
        | None => Err (EDef ErrObjectNotFound)
        | Some canonicalID =>
            _ ← sqliteEnsureNoLegacyDuplicateTx db canonicalID;
            if negb (HasMethodAccess ctx "update" [resource]) then Err (EDef ErrAccessDenied)
            else if decide ((canonicalID, resource) ∈ controlled_access db) then
              let currentResources := sqliteResourcesTx db canonicalID in
              let publicRead := sqlitePublicReadTx db canonicalID (bool_decide (currentResources = [])) in
              Ok (delete_grant (setPublicReadTx db canonicalID publicRead) canonicalID resource, tt)
            else Err (EDef ErrObjectNotFound)
        end)
  end.

(** One object of the bulk removal: the state is the database, the ids seen and the grants removed. *)
Definition remove_bulk_step (ctx : context) (resource : string) (orgWide : bool) (s : DB * list string * nat)
    (rawID : string) : result error (DB * list string * nat) :=
  let '(db, seen, removed) := s in
  match sqliteObjectIDTx db (TrimSpace rawID) with
  | None => Ok s
  | Some canonicalID =>
      if decide (canonicalID ∈ seen) then Ok s
      else
        let seen := seen ++ [canonicalID] in
        _ ← sqliteEnsureNoLegacyDuplicateTx db canonicalID;
        let targets := filter (λ current,
          (String.eqb current resource || (orgWide && HasPrefix current (resource +:+ "/project/")))
          && HasMethodAccess ctx "delete" [current] = true) (sqliteResourcesTx db canonicalID) in
        match targets with
        | [] => Ok (db, seen, removed)
        | _ =>
            let db := foldl (λ db current, delete_grant db canonicalID current) db targets in
            let currentResources := sqliteResourcesTx db canonicalID in
            let publicRead := sqlitePublicReadTx db canonicalID (bool_decide (currentResources = [])) in
            Ok (setPublicReadTx db canonicalID publicRead, seen, (removed + length targets)%nat)
        end
  end.
Definition RemoveObjectControlledAccessBulk (ctx : context) (objectIDs : list string) (resource : string) (db : DB)
  : DB * result error nat :=
  match objectIDs with
  | [] => (db, Ok 0)
  | _ =>
      match NormalizeAccessResources [resource] with
      | [] => (db, Err (EText "resource is required"))
      | resource :: _ =>
          let orgWide := negb (Contains resource "/project/") in
          commit db (
            if negb orgWide && negb (HasMethodAccess ctx "delete" [resource]) then Err (EDef ErrAccessDenied)
            else
              s ← foldlM (remove_bulk_step ctx resource orgWide) (db, [], 0) objectIDs;
              Ok (s.1.1, s.2))
      end
  end.
End transactions.

(** ** The data source name: sqlite.go *)
Definition sqliteDSN (dsn : string) : string :=
  match Cut dsn "_txlock=" with
  | Some (before, rest) =>
      match Cut rest "&" with
      | Some (_, tail) => before +:+ "_txlock=immediate" +:+ "&" +:+ tail
      | None => before +:+ "_txlock=immediate"
      end
  | None =>
      let params := if Contains dsn "_foreign_keys=" then [] else ["_foreign_keys=on"] in
      let params := params ++ ["_txlock=immediate"] in
      if String.eqb dsn ":memory:" then "file::memory:?" +:+ Join params "&"
      else dsn +:+ (if Contains dsn "?" then "&" else "?") +:+ Join params "&"
  end.

(** ** String lemmas *)
Lemma trim_subset cs cs' s : cs' ⊆ cs → trimmed cs s → trimmed cs' s.
Proof.
  intros Hsub [H1 H2]. rewrite first_strip_None in H1, H2. split; apply first_strip_None.
  - intros c Hc. apply H1. set_solver.
  - intros c (c0 & -> & Hc)%list_elem_of_fmap. apply H2. apply list_elem_of_fmap. set_solver.
Qed.
Lemma sql_trim_TrimSpace s : sql_trim (TrimSpace s) = TrimSpace s.
Proof.
  apply trim_id. apply (trim_subset unicode_spaces); [|apply trim_trimmed, unicode_spaces_ok].
  intros c. change (cutset " ") with [" "]. unfold unicode_spaces. set_solver.
Qed.
Lemma sql_type_TrimSpace t : sql_type (TrimSpace t) = NormalizeChecksumType t.
Proof. unfold sql_type. by rewrite sql_trim_TrimSpace. Qed.
Lemma sql_sha_valid v : valid_oid v → sql_sha v = v.
Proof.
  intros [Hl Hv]. unfold sql_sha.
  assert (sql_trim v = v) as ->. { rewrite <- (hex_TrimSpace v Hv). apply sql_trim_TrimSpace. }
  rewrite hex_lower by done. apply (ReplaceAll_avoid _ _ _ (Ascii.ascii_of_nat 58)).
  - vm_compute. set_solver.
  - intros Hc. rewrite forallb_forall in Hv. specialize (Hv (Ascii.ascii_of_nat 58)).
    rewrite <- list_elem_of_In in Hv. by specialize (Hv Hc).
Qed.
