(* ===== verification/ContentInvariant.v ===== *)
(** * The content identity invariant of the store
    Every SHA-256 identifier belongs to at most one object, every object has at most one identifier, and
    every alias leads to an object.  Each transaction preserves the invariant, provided the incoming records
    have clean checksums; what can happen otherwise is shown by computation at the end. *)
From S2P Require Import Prelude GoStrings GoURL Errors Resources Policy Objects ContentStore.

(** ** Claims *)
Abbreviation checksum_table := (list (string * (string * string))).
(** Object [id] has a SHA-256 row whose value reads as [v] in the identity index. *)
Definition claims (table : checksum_table) (id v : string) : Prop :=
  ∃ typ raw, (id, (typ, raw)) ∈ table ∧ sql_type typ = "sha256" ∧ sql_sha raw = v.

Lemma claims_app t1 t2 id v : claims (t1 ++ t2) id v ↔ claims t1 id v ∨ claims t2 id v.
Proof. unfold claims. setoid_rewrite elem_of_app. naive_solver. Qed.
Lemma claims_singleton id0 typ raw id v :
  claims [(id0, (typ, raw))] id v ↔ id = id0 ∧ sql_type typ = "sha256" ∧ sql_sha raw = v.
Proof. unfold claims. setoid_rewrite list_elem_of_singleton. naive_solver. Qed.

Lemma elem_of_IDsBySHA db i v :
  i ∈ sqliteObjectIDsBySHATx db v ↔ ∃ id, i = TrimSpace id ∧ claims (checksum db) id v.
Proof.
  unfold sqliteObjectIDsBySHATx. rewrite list_elem_of_fmap. setoid_rewrite elem_of_sort_Strings.
  setoid_rewrite elem_of_dedup. setoid_rewrite list_elem_of_fmap. setoid_rewrite list_elem_of_filter.
  unfold claims, sha_row. split.
  - intros (id & -> & [id' [typ raw]] & -> & Hr & Hin). simpl in *.
    apply andb_true_iff in Hr as [?%String.eqb_eq ?%String.eqb_eq]. eauto 8.
  - intros (id & -> & typ & raw & Hin & Ht & Hv). exists id. split; [done|].
    exists (id, (typ, raw)). split; [done|]. split; [|done]. simpl. by rewrite Ht, Hv, !String.eqb_refl.
Qed.
Lemma elem_of_SHAs db id v :
  v ∈ sqliteObjectSHAsTx db id ↔ v ≠ "" ∧ ∃ w, v = NormalizeOid w ∧ claims (checksum db) id w.
Proof.
  unfold sqliteObjectSHAsTx. rewrite list_elem_of_filter, list_elem_of_fmap.
  setoid_rewrite elem_of_dedup. setoid_rewrite list_elem_of_fmap. setoid_rewrite list_elem_of_filter.
  unfold claims, sha_row. split.
  - intros (Hne & w & -> & [id' [typ raw]] & -> & Hr & Hin). simpl in *.
    apply andb_true_iff in Hr as [->%String.eqb_eq ?%String.eqb_eq]. split; [done|]. eauto 8.
  - intros (Hne & w & -> & typ & raw & Hin & Ht & Hw). split; [done|]. exists w. split; [done|].
    exists (id, (typ, raw)). split; [done|]. split; [|done]. simpl. by rewrite Ht, !String.eqb_refl.
Qed.
Lemma NoDup_IDsBySHA db v :
  (∀ id, claims (checksum db) id v → TrimSpace id = id) → NoDup (sqliteObjectIDsBySHATx db v).
Proof.
  intros Htrim. unfold sqliteObjectIDsBySHATx. set (l := sort_Strings _).
  assert (∀ id, id ∈ l → TrimSpace id = id) as Hid.
  { intros id Hin. apply Htrim. subst l. rewrite elem_of_sort_Strings, elem_of_dedup, list_elem_of_fmap in Hin.
    destruct Hin as ([id' [typ raw]] & -> & Hr). apply list_elem_of_filter in Hr as [Hr Hin].
    unfold sha_row in Hr. simpl in *. apply andb_true_iff in Hr as [?%String.eqb_eq ?%String.eqb_eq].
    exists typ, raw. done. }
  assert (TrimSpace <$> l = l) as ->.
  { clear -Hid. induction l as [|x l IH]; [done|]. csimpl. rewrite Hid, IH by set_solver. done. }
  apply NoDup_sort_Strings, NoDup_dedup.
Qed.

(** ** The invariant *)
(** A stored SHA-256 row either is a canonical identifier for the index or reads as none at all. *)
Definition clean_row (row : string * (string * string)) : Prop :=
  sql_type row.2.1 = "sha256" → valid_oid (sql_sha row.2.2) ∨ NormalizeOid (sql_sha row.2.2) = "".
(** The condition on incoming checksums: what Go does not take for an identifier, the index does not either. *)
Definition clean_checksum (c : Checksum) : Prop :=
  ∀ typ value, raw_checksum c = Some (typ, value) → sql_type typ = "sha256" → NormalizeOid (sql_sha value) = "".
Definition clean_record (obj : ObjectRecord) : Prop := Forall clean_checksum (slice (r_Checksums obj)).

Record store_inv_on (O : gset string) (table : checksum_table) (aliases : gmap string string) : Prop := {
  inv_ids : ∀ id, id ∈ O → TrimSpace id = id ∧ id ≠ "";
  inv_rows : ∀ row, row ∈ table → row.1 ∈ O ∧ clean_row row;
  inv_unique : ∀ id1 id2 v, valid_oid v → claims table id1 v → claims table id2 v → id1 = id2;
  inv_single : ∀ id v w, valid_oid v → valid_oid w → claims table id v → claims table id w → v = w;
  inv_alias : ∀ a c, aliases !! a = Some c → c ∈ O }.
Arguments inv_ids {_ _ _} _ _ _.
Arguments inv_rows {_ _ _} _ _ _.
Arguments inv_unique {_ _ _} _ _ _ _ _ _.
Arguments inv_single {_ _ _} _ _ _ _ _ _.
Arguments inv_alias {_ _ _} _ _ _ _.
Definition store_inv (db : DB) : Prop := store_inv_on (dom (drs_object db)) (checksum db) (object_alias db).

Section invariant.
Context {O : gset string} {table : checksum_table} {aliases : gmap string string}.
Context (Hinv : store_inv_on O table aliases).

Lemma claims_id id v : claims table id v → id ∈ O.
Proof. intros (typ & raw & Hin & _). by apply (inv_rows Hinv) in Hin as [? _]. Qed.

Lemma inv_add_object id : TrimSpace id = id → id ≠ "" → store_inv_on ({[id]} ∪ O) table aliases.
Proof.
  intros Ht Hne. split.
  - intros id' [->%elem_of_singleton|Hin]%elem_of_union; [done|]. by apply (inv_ids Hinv).
  - intros row Hin. apply (inv_rows Hinv) in Hin. set_solver.
  - apply (inv_unique Hinv).
  - apply (inv_single Hinv).
  - intros a c Ha. apply (inv_alias Hinv) in Ha. set_solver.
Qed.
(** Rows of an existing object that the identity index does not see. *)
Lemma inv_add_rows rows :
  (∀ row, row ∈ rows → row.1 ∈ O ∧ (sql_type row.2.1 = "sha256" → NormalizeOid (sql_sha row.2.2) = "")) →
  store_inv_on O (table ++ rows) aliases.
Proof.
  intros Hrows.
  assert (∀ id v, valid_oid v → claims (table ++ rows) id v → claims table id v) as Hold.
  { intros id v Hv [?|(typ & raw & Hin & Ht & <-)]%claims_app; [done|].
    destruct (Hrows _ Hin) as [_ Hn]. specialize (Hn Ht). simpl in Hn.
    rewrite NormalizeOid_id in Hn by done. apply valid_oid_not_empty in Hv. by rewrite Hn in Hv. }
  split.
  - apply (inv_ids Hinv).
  - intros row [Hin|Hin]%elem_of_app; [by apply (inv_rows Hinv)|].
    destruct (Hrows _ Hin) as [? Hn]. split; [done|]. intros Ht. right. auto.
  - intros id1 id2 v Hv H1 H2. eapply (inv_unique Hinv); eauto.
  - intros id v w Hv Hw H1 H2. eapply (inv_single Hinv); eauto.
  - apply (inv_alias Hinv).
Qed.
(** The identifier row of an object, when nobody else has the identifier and it has no other one. *)
Lemma inv_add_sha id typ raw v :
  id ∈ O → sql_sha raw = v → valid_oid v →
  (∀ id', claims table id' v → id' = id) → (∀ w, valid_oid w → claims table id w → w = v) →
  store_inv_on O (table ++ [(id, (typ, raw))]) aliases.
Proof.
  intros Hid Hraw Hv Howner Hsingle.
  assert (∀ id' w, claims (table ++ [(id, (typ, raw))]) id' w → claims table id' w ∨ id' = id ∧ w = v) as Hc.
  { intros id' w [?|(-> & _ & <-)%claims_singleton]%claims_app; auto. }
  split.
  - apply (inv_ids Hinv).
  - intros row [Hin| ->%list_elem_of_singleton]%elem_of_app; [by apply (inv_rows Hinv)|].
    split; [done|]. intros _. left. simpl. by rewrite Hraw.
  - intros id1 id2 w Hw H1%Hc H2%Hc.
    destruct H1 as [H1|[-> ->]], H2 as [H2|[-> ?]]; subst; auto; [by eapply (inv_unique Hinv)|].
    symmetry. auto.
  - intros id' w w' Hw Hw' H1%Hc H2%Hc.
    destruct H1 as [H1|[? ->]], H2 as [H2|[? ->]]; subst; auto; [by eapply (inv_single Hinv)|].
    symmetry. auto.
  - apply (inv_alias Hinv).
Qed.
Lemma inv_add_alias a c : c ∈ O → store_inv_on O table (<[a := c]> aliases).
Proof.
  intros Hc. split; [apply (inv_ids Hinv)|apply (inv_rows Hinv)|apply (inv_unique Hinv)|apply (inv_single Hinv)|].
  intros a' c' [[-> <-]|[_ Ha]]%lookup_insert_Some; [done|]. by eapply (inv_alias Hinv).
Qed.
(** A sub-table, with fewer aliases, over the objects that remain. *)
Lemma inv_shrink O' table' aliases' :
  O' ⊆ O → (∀ row, row ∈ table' → row ∈ table ∧ row.1 ∈ O') →
  (∀ a c, aliases' !! a = Some c → aliases !! a = Some c ∧ c ∈ O') → store_inv_on O' table' aliases'.
Proof.
  intros HO Htab Hal.
  assert (∀ id v, claims table' id v → claims table id v) as Hc.
  { intros id v (typ & raw & Hin & ?). exists typ, raw. split; [by apply Htab|done]. }
  split.
  - intros id Hid. apply (inv_ids Hinv). set_solver.
  - intros row Hin. destruct (Htab _ Hin) as [Hin' ?]. split; [done|]. by apply (inv_rows Hinv).
  - intros id1 id2 v Hv H1 H2. eapply (inv_unique Hinv); eauto.
  - intros id v w Hv Hw H1 H2. eapply (inv_single Hinv); eauto.
  - intros a c Ha. by destruct (Hal a c Ha).
Qed.
End invariant.

(** ** Lookups under the invariant *)
Lemma sqliteObjectIDTx_cases db id c :
  sqliteObjectIDTx db id = Some c ↔
  (id ∈ dom (drs_object db) ∧ c = id) ∨ ((id ∉ dom (drs_object db)) ∧ object_alias db !! id = Some c).
Proof.
  unfold sqliteObjectIDTx. rewrite not_elem_of_dom, elem_of_dom.
  destruct (drs_object db !! id) eqn:E; [|naive_solver]. split; [intros [= <-]; eauto|].
  intros [[_ ->]|[? _]]; [done|congruence].
Qed.
Lemma sqliteObjectIDTx_exists db id c : store_inv db → sqliteObjectIDTx db id = Some c → c ∈ dom (drs_object db).
Proof. intros Hinv [[? ->]|[_ Ha]]%sqliteObjectIDTx_cases; [done|]. by eapply (inv_alias Hinv). Qed.
Lemma IDsBySHA_owner db v id :
  store_inv db → id ∈ sqliteObjectIDsBySHATx db v ↔ claims (checksum db) id v.
Proof.
  intros Hinv. rewrite elem_of_IDsBySHA. split.
  - intros (id' & -> & Hc). pose proof (claims_id Hinv _ _ Hc) as Hid. apply (inv_ids Hinv) in Hid as [-> _]. done.
  - intros Hc. exists id. split; [|done]. pose proof (claims_id Hinv _ _ Hc) as Hid.
    by apply (inv_ids Hinv) in Hid as [-> _].
Qed.
Lemma SHAs_valid db id v :
  store_inv db → v ∈ sqliteObjectSHAsTx db id ↔ valid_oid v ∧ claims (checksum db) id v.
Proof.
  intros Hinv. rewrite elem_of_SHAs. split.
  - intros (Hne & w & -> & Hc). pose proof (NormalizeOid_valid w Hne) as Hv. split; [done|].
    destruct Hc as (typ & raw & Hin & Ht & <-). pose proof (inv_rows Hinv _ Hin) as [_ Hcl].
    destruct (Hcl Ht) as [Hok|Hno]; simpl in *; [|by rewrite Hno in Hne].
    rewrite NormalizeOid_id by done. exists typ, raw. done.
  - intros [Hv Hc]. split; [by apply is_empty_false, valid_oid_not_empty|]. exists v.
    by rewrite NormalizeOid_id.
Qed.
Lemma no_legacy_duplicates db id : store_inv db → sqliteEnsureNoLegacyDuplicateTx db id = Ok tt.
Proof.
  intros Hinv. unfold sqliteEnsureNoLegacyDuplicateTx.
  destruct (existsb _ _) eqn:E; [|done]. exfalso. apply existsb_exists in E as (v & Hv%list_elem_of_In & Hl).
  apply (SHAs_valid _ _ _ Hinv) in Hv as [Hv _].
  pose proof (NoDup_IDsBySHA db v (λ i Hc, proj1 (inv_ids Hinv i (claims_id Hinv i v Hc)))) as Hnd.
  apply Nat.ltb_lt in Hl. destruct (sqliteObjectIDsBySHATx db v) as [|i1 [|i2 l]] eqn:El; simpl in Hl; [lia..|].
  assert (claims (checksum db) i1 v ∧ claims (checksum db) i2 v) as [H1 H2].
  { rewrite <- !(IDsBySHA_owner db v _ Hinv), El. set_solver. }
  pose proof (inv_unique Hinv _ _ _ Hv H1 H2). apply NoDup_cons in Hnd as [Hnd _]. set_solver.
Qed.

Lemma register_target_spec db id sha c :
  store_inv db → TrimSpace id = id → id ≠ "" → (∀ s, sha = Some s → valid_oid s) →
  register_target db id sha = Ok c →
  (TrimSpace c = c ∧ c ≠ "") ∧
  (c ∈ dom (drs_object db) ∨ c = id) ∧
  (∀ s, sha = Some s → (∀ id', claims (checksum db) id' s → id' = c) ∧
                       ∀ w, valid_oid w → claims (checksum db) c w → w = s) ∧
  (id ∈ dom (drs_object db) → c = id) ∧
  (∀ t, object_alias db !! id = Some t → t = c).
Proof.
  intros Hinv Hid Hne Hsha. unfold register_target. cbv zeta. rewrite bind_Ok. intros (c' & Hc & Hrest).
  destruct (is_empty c') eqn:Ec; [done|]. apply bind_Ok in Hrest as ([] & Hclaim & [= ->]).
  assert (∀ t, object_alias db !! id = Some t → t = c) as Halias.
  { intros t Ht. unfold checkUUIDClaimTx in Hclaim. rewrite Ht in Hclaim.
    by destruct (String.eqb_spec t c). }
  assert (∀ f, sqliteObjectIDTx db id = Some f → f ∈ dom (drs_object db)) as Hex
    by (intros f; by apply sqliteObjectIDTx_exists).
  assert (id ∈ dom (drs_object db) → sqliteObjectIDTx db id = Some id) as Hself.
  { intros ?. apply sqliteObjectIDTx_cases. auto. }
  assert ((c ∈ dom (drs_object db) ∨ c = id) → TrimSpace c = c) as Ht1.
  { intros [Hin| ->]; [by apply (inv_ids Hinv)|done]. }
  assert ((c ∈ dom (drs_object db) ∨ c = id) → c ≠ "") as Ht2.
  { intros [Hin| ->]; [by apply (inv_ids Hinv)|done]. }
  destruct sha as [s|].
  - specialize (Hsha s eq_refl).
    destruct (sqliteObjectIDsBySHATx db s) as [|o [|o' os]] eqn:El; [| |done].
    + assert (∀ id', claims (checksum db) id' s → id' = c) as Hno.
      { intros id' Hcl. apply (IDsBySHA_owner db s _ Hinv) in Hcl. rewrite El in Hcl. set_solver. }
      destruct (sqliteObjectIDTx db id) as [f|] eqn:Ef.
      * destruct (existsb _ _) eqn:Ee; [done|]. injection Hc as ->.
        split_and!; auto; [|by intros ?%Hself; simplify_eq].
        intros s' [= <-]. split; [done|]. intros w Hw Hcl.
        assert (w ∈ sqliteObjectSHAsTx db c) as Hin by (by apply SHAs_valid).
        apply not_true_iff_false in Ee. destruct (String.eqb_spec w s) as [|Hws]; [done|]. exfalso. apply Ee.
        apply existsb_exists. exists w. rewrite <- list_elem_of_In. split; [done|]. apply negb_true_iff.
        by apply String.eqb_neq.
      * injection Hc as ->. split_and!; auto. intros s' [= <-]. split; [done|]. intros w Hw Hcl.
        apply (claims_id Hinv), Hself in Hcl. congruence.
    + assert (claims (checksum db) o s) as Ho.
      { apply (IDsBySHA_owner db s _ Hinv). rewrite El. set_solver. }
      assert (c = o ∧ (∀ f, sqliteObjectIDTx db id = Some f → f = o)) as [-> Hfo].
      { destruct (sqliteObjectIDTx db id) as [f|]; [|by injection Hc as ->].
        destruct (String.eqb_spec f o); [|done]. injection Hc as ->. split; [done|]. by intros ? [= <-]. }
      pose proof (claims_id Hinv _ _ Ho). split_and!; auto; [|by intros Hd%Hself%Hfo].
      intros s' [= <-]. split.
      * intros id' Hcl. by eapply (inv_unique Hinv).
      * intros w Hw Hcl. by eapply (inv_single Hinv).
  - injection Hc as <-. destruct (sqliteObjectIDTx db id) as [f|] eqn:Ef; simpl in *.
    + split_and!; auto; [done|]. by intros ?%Hself; simplify_eq.
    + split_and!; auto. done.
Qed.

(** ** What the statements change *)
(** [db'] differs from [db] only by new aliases of [c]. *)
Definition alias_ext (c : string) (db db' : DB) : Prop :=
  db' = set_object_alias db (object_alias db') ∧ object_alias db ⊆ object_alias db' ∧
  ∀ x t, object_alias db' !! x = Some t → object_alias db !! x = Some t ∨ t = c.

Lemma alias_ext_refl c db : alias_ext c db db.
Proof. split_and!; [by destruct db|done|auto]. Qed.
Lemma alias_ext_trans c db1 db2 db3 : alias_ext c db1 db2 → alias_ext c db2 db3 → alias_ext c db1 db3.
Proof.
  intros (E1 & S1 & H1) (E2 & S2 & H2). split_and!.
  - rewrite E2, E1. done.
  - by etrans.
  - intros x t [?|?]%H2; auto.
Qed.
Lemma insertObjectAliasTx_ext db a c db' :
  insertObjectAliasTx db a c = Ok db' → alias_ext c db db' ∧ (a ≠ c → object_alias db' !! a = Some c).
Proof.
  unfold insertObjectAliasTx. destruct (String.eqb_spec a c) as [|Hac].
  { intros [= <-]. split; [apply alias_ext_refl|done]. }
  rewrite bind_Ok. intros ([] & Hc & [= <-]). unfold checkUUIDClaimTx in Hc.
  destruct (object_alias db !! a) as [t|] eqn:E.
  - destruct (String.eqb_spec t c); [|done]. subst. split; [apply alias_ext_refl|done].
  - split; [|intros _; simpl; by rewrite lookup_insert_eq]. split_and!; simpl; [done|by apply insert_subseteq|].
    intros x t [[_ <-]|[_ ?]]%lookup_insert_Some; auto.
Qed.
Lemma insertIdentityAliases_ext db id c obj db' :
  insertIdentityAliases db id c obj = Ok db' →
  alias_ext c db db' ∧ (id ≠ c → object_alias db' !! id = Some c).
Proof.
  unfold insertIdentityAliases. rewrite bind_Ok. intros (db1 & H1 & H2).
  assert (alias_ext c db db1 ∧ (id ≠ c → object_alias db1 !! id = Some c)) as [Hext Hid].
  { revert H1. destruct (String.eqb_spec id c); [|by apply insertObjectAliasTx_ext].
    intros [= <-]. split; [apply alias_ext_refl|done]. }
  assert (alias_ext c db1 db') as (E & Hsub & Hnew).
  { eapply (foldlM_inv _ (alias_ext c db1)); [apply alias_ext_refl| |exact H2].
    intros s a s' _ Hs. cbn beta. destruct (String.eqb a c); [by intros [= <-]|].
    intros [? _]%insertObjectAliasTx_ext. by eapply alias_ext_trans. }
  split; [by eapply alias_ext_trans|]. intros Hne. eapply lookup_weaken; [by apply Hid|done].
Qed.

(** The tables after the child rows of a registration are merged. *)
Definition registered_checksums (table : checksum_table) (c : string) (sha : option string) (obj : ObjectRecord) :=
  insert_raw_checksums (match sha with Some sha => insert_sha table c sha | None => table end) c (slice (r_Checksums obj)).

Section effects.
Context `{MapOrder}.

Lemma mergeContentRowTx_effect db row obj rs cur :
  let db' := mergeContentRowTx db row obj rs cur in
  dom (drs_object db') = dom (drs_object db) ∧ object_alias db' = object_alias db ∧
  checksum db' = checksum db ∧ controlled_access db' = controlled_access db ∧
  read_policy db' = read_policy db ∧ object_usage db' = object_usage db ∧ usage_event db' = usage_event db.
Proof.
  cbv zeta. unfold mergeContentRowTx. cbv zeta. destruct (is_empty _); simpl; rewrite dom_alter_L; done.
Qed.
Lemma mergeContentChildrenTx_effect db c sha rs obj :
  let db' := mergeContentChildrenTx db c sha rs obj in
  drs_object db' = drs_object db ∧ object_alias db' = object_alias db ∧
  checksum db' = registered_checksums (checksum db) c sha obj ∧
  controlled_access db' = foldl (λ table r, insert_if_absent (c, r) table) (controlled_access db) rs ∧
  read_policy db' = read_policy db ∧ object_usage db' = object_usage db ∧ usage_event db' = usage_event db.
Proof.
  cbv zeta. unfold mergeContentChildrenTx, registered_checksums. destruct (r_AccessMethods obj); simpl; done.
Qed.

(** What a successful registration of one record did. *)
Record registration (ctx : context) (db : DB) (obj : ObjectRecord) (db' : DB) (c : string)
    (sha : option string) (public : bool) : Prop := {
  reg_id : TrimSpace (r_Id obj) ≠ "";
  reg_sha : ValidateCanonicalSHA256 (slice (r_Checksums obj)) = Ok sha;
  reg_target : register_target db (TrimSpace (r_Id obj)) sha = Ok c;
  reg_alias : object_alias db ⊆ object_alias db' ∧
    (∀ x t, object_alias db' !! x = Some t → object_alias db !! x = Some t ∨ t = c);
  reg_own_alias : TrimSpace (r_Id obj) ≠ c → object_alias db' !! TrimSpace (r_Id obj) = Some c;
  reg_dom : dom (drs_object db') = {[c]} ∪ dom (drs_object db);
  reg_checksum : checksum db' = registered_checksums (checksum db) c sha obj;
  reg_access : controlled_access db' =
    foldl (λ table r, insert_if_absent (c, r) table) (controlled_access db) (sqliteObjectResources obj);
  reg_policy : read_policy db' = <[c := public || default false (read_policy db !! c)]> (read_policy db);
  reg_create : sqliteCanCreateResources ctx (sqliteObjectResources obj) (sqliteResourcesTx db c) = true;
  reg_usage : object_usage db' = object_usage db ∧ usage_event db' = usage_event db }.

Lemma registerContentTx_effect ctx db obj db' c :
  registerContentTx ctx db obj = Ok (db', c) → ∃ sha public, registration ctx db obj db' c sha public.
Proof.
  unfold registerContentTx. cbv zeta. destruct (is_empty _) eqn:Ei; [done|]. apply is_empty_false in Ei.
  rewrite bind_Ok. intros (sha & Hsha & Hr). apply bind_Ok in Hr as (c' & Htarget & Hr).
  set (db0 := match sqliteLoadContentRowTx db c' with Some _ => db | None => insertContentRowTx db c' obj end).
  assert (dom (drs_object db0) = {[c']} ∪ dom (drs_object db) ∧ object_alias db0 = object_alias db ∧
    checksum db0 = checksum db ∧ controlled_access db0 = controlled_access db ∧
    read_policy db0 = read_policy db ∧ object_usage db0 = object_usage db ∧ usage_event db0 = usage_event db)
    as (Hd0 & Ha0 & Hc0 & Hca0 & Hp0 & Hu0 & He0).
  { subst db0. unfold sqliteLoadContentRowTx. destruct (drs_object db !! c') eqn:E; simpl.
    - split_and!; try done. apply elem_of_dom_2 in E. set_solver.
    - split_and!; try done. apply dom_insert_L. }
  assert (sqliteResourcesTx db0 c' = sqliteResourcesTx db c') as Hres by (unfold sqliteResourcesTx; by rewrite Hca0).
  assert (∃ row pub,
    sqliteCanCreateResources ctx (sqliteObjectResources obj) (sqliteResourcesTx db0 c') = true ∧
    insertIdentityAliases (setPublicReadTx (mergeContentChildrenTx
      (mergeContentRowTx db0 row obj (sqliteObjectResources obj) (sqliteResourcesTx db0 c'))
      c' sha (sqliteObjectResources obj) obj) c' pub) (TrimSpace (r_Id obj)) c' obj = Ok db' ∧ c = c')
    as (row & pub & Hcreate & Hins & ->).
  { subst db0. destruct (sqliteLoadContentRowTx db c') as [row|]; cbn [default] in Hr.
    all: match type of Hr with (if ?b then _ else _) = _ => destruct b; [done|] end.
    all: match type of Hr with (if ?b then _ else _) = _ => destruct b; [done|] end.
    all: match type of Hr with (if ?b then _ else _) = _ => destruct b eqn:Hcreate; [done|] end.
    all: apply negb_false_iff in Hcreate; apply bind_Ok in Hr as (db1 & Hins & [= <- <-]); eauto. }
  clear Hr. apply insertIdentityAliases_ext in Hins as [(E & Hsub & Hnew) Hown].
  destruct (mergeContentRowTx_effect db0 row obj (sqliteObjectResources obj) (sqliteResourcesTx db0 c'))
    as (Hd1 & Ha1 & Hc1 & Hca1 & Hp1 & Hu1 & He1).
  destruct (mergeContentChildrenTx_effect (mergeContentRowTx db0 row obj (sqliteObjectResources obj) (sqliteResourcesTx db0 c'))
    c' sha (sqliteObjectResources obj) obj) as (Hd2 & Ha2 & Hc2 & Hca2 & Hp2 & Hu2 & He2).
  set (db2 := mergeContentChildrenTx _ _ _ _ _) in *. set (db1 := mergeContentRowTx _ _ _ _ _) in *.
  clearbody db2 db1 db0. exists sha, pub. rewrite Hres in Hcreate. simpl in Hsub, Hnew. rewrite Ha2, Ha1, Ha0 in Hsub, Hnew.
  split; auto; rewrite E; simpl.
  - by rewrite Hd2, Hd1, Hd0.
  - by rewrite Hc2, Hc1, Hc0.
  - by rewrite Hca2, Hca1, Hca0.
  - by rewrite Hp2, Hp1, Hp0.
  - by rewrite Hu2, Hu1, Hu0, He2, He1, He0.
Qed.
End effects.

(** ** Preservation *)
Lemma insert_raw_checksums_inv O table aliases c l :
  store_inv_on O table aliases → c ∈ O → Forall clean_checksum l →
  store_inv_on O (insert_raw_checksums table c l) aliases.
Proof.
  intros Hinv Hc Hl. unfold insert_raw_checksums.
  assert (∀ row, row ∈ omap raw_checksum l → sql_type row.1 = "sha256" → NormalizeOid (sql_sha row.2) = "") as Hrows.
  { intros [typ value] (ck & Hin & Hraw)%list_elem_of_omap. rewrite Forall_forall in Hl. by apply (Hl ck). }
  revert table Hinv. induction (omap raw_checksum l) as [|row rows IH]; intros table Hinv; [done|].
  csimpl. apply IH; [set_solver|]. unfold insert_if_absent. case_decide; [done|].
  apply (inv_add_rows Hinv). intros row' ->%list_elem_of_singleton. split; [done|]. apply Hrows. set_solver.
Qed.
Lemma insert_sha_inv O table aliases c s :
  store_inv_on O table aliases → c ∈ O → valid_oid s →
  (∀ id', claims table id' s → id' = c) → (∀ w, valid_oid w → claims table c w → w = s) →
  store_inv_on O (insert_sha table c s) aliases.
Proof.
  intros Hinv Hc Hs Howner Hsingle. unfold insert_sha. destruct (existsb _ _); [done|].
  apply (inv_add_sha Hinv _ _ _ s); auto using sql_sha_valid.
Qed.
Lemma ValidateCanonicalSHA256_valid l s : ValidateCanonicalSHA256 l = Ok (Some s) → valid_oid s.
Proof.
  unfold ValidateCanonicalSHA256. pose proof (elem_of_SHA256Values l) as Hv.
  destruct (SHA256Values l) as [|v [|? ?]]; [done| |done]. intros [= ->].
  destruct (proj1 (Hv s)) as (ck & _ & Hck); [set_solver|]. by eapply sha256_of_valid.
Qed.
Lemma raw_table_unchanged_nosha table c l id v :
  Forall clean_checksum l → valid_oid v → claims (insert_raw_checksums table c l) id v ↔ claims table id v.
Proof.
  intros Hl Hv. unfold insert_raw_checksums.
  assert (∀ row, row ∈ omap raw_checksum l → sql_type row.1 = "sha256" → NormalizeOid (sql_sha row.2) = "") as Hrows.
  { intros [typ value] (ck & Hin & Hraw)%list_elem_of_omap. rewrite Forall_forall in Hl. by apply (Hl ck). }
  revert table. induction (omap raw_checksum l) as [|[typ raw] rows IH]; intros table; [done|].
  csimpl. rewrite IH by set_solver. unfold insert_if_absent. case_decide; [done|].
  rewrite claims_app, claims_singleton. split; [|by left]. intros [?|(-> & Ht & <-)]; [done|].
  assert (NormalizeOid (sql_sha raw) = "") as Hn by (apply (Hrows (typ, raw)); set_solver).
  rewrite NormalizeOid_id in Hn by done. apply valid_oid_not_empty in Hv. by rewrite Hn in Hv.
Qed.

(** Any table whose identifiers come from the old table or are the checked one of [c]. *)
Lemma inv_by_claims O table table' aliases c sha :
  store_inv_on O table aliases →
  (∀ row, row ∈ table' → row.1 ∈ O ∧ clean_row row) →
  (∀ id v, valid_oid v → claims table' id v → claims table id v ∨ id = c ∧ sha = Some v) →
  (∀ s, sha = Some s → (∀ id', claims table id' s → id' = c) ∧ ∀ w, valid_oid w → claims table c w → w = s) →
  store_inv_on O table' aliases.
Proof.
  intros Hinv Hrows Hc Hsha. split; [apply (inv_ids Hinv)|exact Hrows| | |apply (inv_alias Hinv)].
  - intros id1 id2 v Hv H1%Hc H2%Hc; [|done..].
    destruct H1 as [H1|[-> Hs1]], H2 as [H2|[-> Hs2]]; auto; [by eapply (inv_unique Hinv)| |].
    + destruct (Hsha v Hs2) as [Ho _]. by apply Ho.
    + destruct (Hsha v Hs1) as [Ho _]. symmetry. by apply Ho.
  - intros id v w Hv Hw H1%Hc H2%Hc; [|done..].
    destruct H1 as [H1|[E1 Hs1]], H2 as [H2|[E2 Hs2]].
    + by eapply (inv_single Hinv).
    + destruct (Hsha w Hs2) as [_ Ho]. apply Ho; [done|by rewrite <- E2].
    + destruct (Hsha v Hs1) as [_ Ho]. symmetry. apply Ho; [done|by rewrite <- E1].
    + congruence.
Qed.
Lemma elem_of_raw_rows l (c id typ raw : string) :
  Forall clean_checksum l → (id, (typ, raw)) ∈ (λ row, (c, row)) <$> omap raw_checksum l →
  id = c ∧ (sql_type typ = "sha256" → NormalizeOid (sql_sha raw) = "").
Proof.
  intros Hl ([typ' raw'] & [= -> -> ->] & (ck & Hin & Hraw)%list_elem_of_omap)%list_elem_of_fmap.
  split; [done|]. rewrite Forall_forall in Hl. by apply (Hl ck).
Qed.

(** The checksum table after [replaceChildrenTx]. *)
Definition replaced_checksums (table : checksum_table) (c : string) (sha : option string) (obj : ObjectRecord) :=
  match r_Checksums obj with
  | None => table
  | Some l =>
      let t1 := match sha with
        | Some sha =>
            let updated := (λ row, if String.eqb row.1 c && sha_row row then (row.1, (row.2.1, sha)) else row) <$> table in
            if existsb (λ row, String.eqb row.1 c && sha_row row) updated then updated
            else updated ++ [(c, ("sha256", sha))]
        | None => table
        end in
      filter (λ row, row.1 ≠ c ∨ sha_row row = true) t1 ++ ((λ row, (c, row)) <$> omap raw_checksum l)
  end.
Lemma elem_of_replaced table c sha obj id typ raw :
  clean_record obj → (id, (typ, raw)) ∈ replaced_checksums table c sha obj →
  (id, (typ, raw)) ∈ table ∨
  id = c ∧ (sql_type typ = "sha256" → sha = Some raw ∨ NormalizeOid (sql_sha raw) = "").
Proof.
  unfold clean_record, replaced_checksums. destruct (r_Checksums obj) as [l|]; [|by left]. simpl. intros Hcl Hin.
  apply elem_of_app in Hin as [Hin|Hin]; [|destruct (elem_of_raw_rows l c id typ raw Hcl Hin); auto].
  apply list_elem_of_filter in Hin as [_ Hin]. destruct sha as [s|]; [|by left].
  set (updated := _ <$> table) in Hin.
  assert ((id, (typ, raw)) ∈ updated → (id, (typ, raw)) ∈ table ∨ id = c ∧ raw = s) as Hup.
  { intros ([id' [typ' raw']] & E & Hin')%list_elem_of_fmap. simpl in E.
    destruct (String.eqb_spec id' c) as [->|]; simpl in E; [|by left; simplify_eq].
    destruct (sha_row _); simplify_eq; auto. }
  destruct (existsb _ _); [destruct (Hup Hin) as [?|[? ->]]; auto|].
  apply elem_of_app in Hin as [Hin|Hin%list_elem_of_singleton]; [destruct (Hup Hin) as [?|[? ->]]; auto|].
  simplify_eq. auto.
Qed.
Lemma replaced_checksums_inv O table aliases c sha obj :
  store_inv_on O table aliases → c ∈ O → clean_record obj →
  (∀ s, sha = Some s → valid_oid s ∧ (∀ id', claims table id' s → id' = c) ∧ ∀ w, valid_oid w → claims table c w → w = s) →
  store_inv_on O (replaced_checksums table c sha obj) aliases.
Proof.
  intros Hinv Hc Hcl Hsha. apply (inv_by_claims O table _ aliases c sha Hinv).
  - intros [id [typ raw]] [Hin|[-> Hr]]%elem_of_replaced; [by apply (inv_rows Hinv)| |done].
    split; [done|]. intros Ht. destruct (Hr Ht) as [->|?]; simpl; [|by right].
    left. destruct (Hsha raw eq_refl) as [? _]. by rewrite sql_sha_valid.
  - intros id v Hv (typ & raw & Hin & Ht & <-). apply elem_of_replaced in Hin as [Hin|[-> Hr]]; [|right|done].
    + left. by exists typ, raw.
    + split; [done|]. destruct (Hr Ht) as [->|Hn].
      * destruct (Hsha raw eq_refl) as [? _]. by rewrite sql_sha_valid.
      * rewrite NormalizeOid_id in Hn by done. apply valid_oid_not_empty in Hv. by rewrite Hn in Hv.
  - intros s Hs. by destruct (Hsha s Hs) as (_&?&?).
Qed.

Section preservation.
Context `{MapOrder}.

Lemma registration_inv ctx db obj db' c :
  store_inv db → clean_record obj → registerContentTx ctx db obj = Ok (db', c) → store_inv db'.
Proof.
  intros Hinv Hclean (sha & public & Hreg)%registerContentTx_effect.
  destruct (register_target_spec db (TrimSpace (r_Id obj)) sha c Hinv) as ([Htrim Hne] & _ & Hsha & _ & _).
  { apply TrimSpace_idemp. } { apply Hreg. }
  { intros s ->. eapply ValidateCanonicalSHA256_valid, (reg_sha _ _ _ _ _ _ _ Hreg). } { apply Hreg. }
  unfold store_inv. rewrite (reg_dom _ _ _ _ _ _ _ Hreg), (reg_checksum _ _ _ _ _ _ _ Hreg).
  assert (store_inv_on ({[c]} ∪ dom (drs_object db)) (checksum db) (object_alias db)) as H0 by by apply inv_add_object.
  assert (store_inv_on ({[c]} ∪ dom (drs_object db)) (registered_checksums (checksum db) c sha obj) (object_alias db)) as H1.
  { apply insert_raw_checksums_inv; [|set_solver|done]. destruct sha as [s|]; [|done].
    destruct (Hsha s eq_refl) as [??]. apply insert_sha_inv; auto; [set_solver|].
    eapply ValidateCanonicalSHA256_valid, (reg_sha _ _ _ _ _ _ _ Hreg). }
  destruct (reg_alias _ _ _ _ _ _ _ Hreg) as [_ Hal].
  split; [apply (inv_ids H1)|apply (inv_rows H1)|apply (inv_unique H1)|apply (inv_single H1)|].
  intros a t [Ha| ->]%Hal; [by eapply (inv_alias H1)|set_solver].
Qed.

Lemma flush_effect now db ids :
  let db' := flushObjectUsageEventsForIDsTx now db ids in
  drs_object db' = drs_object db ∧ checksum db' = checksum db ∧ object_alias db' = object_alias db ∧
  read_policy db' = read_policy db ∧ controlled_access db' = controlled_access db.
Proof.
  cbv zeta. unfold flushObjectUsageEventsForIDsTx. generalize (length ids) as n.
  intros n. revert db ids. induction n as [|n IH]; intros db ids; [done|].
  destruct ids as [|i ids]; [done|]. by destruct (IH (flushObjectUsageEventsForIDChunkTx now db
    (take (sqliteMaxParams - 1) (i :: ids))) (drop (sqliteMaxParams - 1) (i :: ids))) as (->&->&->&->&->).
Qed.

(** A batch keeps what each of its steps keeps and the flush of usage events keeps. *)
Lemma run_batch_inv (P : DB → Prop) f now objs db db' u :
  (∀ now db ids, P db → P (flushObjectUsageEventsForIDsTx now db ids)) →
  (∀ obj db db' c, obj ∈ objs → P db → f db obj = Ok (db', c) → P db') →
  P db → run_batch f now db objs = Ok (db', u) → P db'.
Proof.
  intros Hflush Hstep Hdb. unfold run_batch. destruct objs as [|o objs]; [by intros [= <- _]|].
  rewrite bind_Ok. intros ([db1 ids] & Hfold & [= <- _]). apply Hflush.
  refine (foldlM_inv (batch_step f) (λ s, P s.1) (db, []) (o :: objs) (db1, ids) Hdb _ Hfold).
  intros [db2 ids2] obj [db3 ids3] Hin HP. unfold batch_step. destruct (f db2 obj) as [[db4 c]|] eqn:E; [|done].
  intros [= <- _]. by eapply Hstep.
Qed.
Lemma store_inv_flush now db ids : store_inv db → store_inv (flushObjectUsageEventsForIDsTx now db ids).
Proof. unfold store_inv. by destruct (flush_effect now db ids) as (->&->&->&_). Qed.

Lemma replace_sha_check_spec db c sha :
  store_inv db → (∀ s, sha = Some s → valid_oid s) → replace_sha_check db c sha = Ok tt →
  ∀ s, sha = Some s → valid_oid s ∧
    (∀ id', claims (checksum db) id' s → id' = c) ∧ ∀ w, valid_oid w → claims (checksum db) c w → w = s.
Proof.
  intros Hinv Hv Hcheck s ->. specialize (Hv s eq_refl). split; [done|].
  unfold replace_sha_check in Hcheck. cbv zeta in Hcheck. apply bind_Ok in Hcheck as ([] & Howner & Hall).
  assert (∀ w, w ∈ sqliteObjectSHAsTx db c → w = s) as Hstored.
  { intros w Hw. destruct (String.eqb_spec w s) as [|Hne]; [done|]. exfalso.
    destruct (existsb _ _) eqn:E; [done|]. apply not_true_iff_false in E. apply E, existsb_exists. exists w.
    rewrite <- list_elem_of_In. split; [done|]. by apply negb_true_iff, String.eqb_neq. }
  split; [|intros w Hw Hcl; apply Hstored; by apply SHAs_valid]. intros id' Hcl.
  destruct (sqliteObjectSHAsTx db c) as [|w ws] eqn:Es.
  - apply (IDsBySHA_owner db s _ Hinv) in Hcl.
    destruct (sqliteObjectIDsBySHATx db s) as [|o [|]]; [set_solver| |done].
    apply list_elem_of_singleton in Hcl as ->. by destruct (String.eqb_spec o c).
  - assert (w ∈ sqliteObjectSHAsTx db c) as Hw by (rewrite Es; set_solver).
    assert (w = s) as -> by (apply Hstored; set_solver).
    apply (SHAs_valid _ _ _ Hinv) in Hw as [_ Hw]. by eapply (inv_unique Hinv).
Qed.

(** What a successful replacement of one record did. *)
Record replacement (ctx : context) (db : DB) (obj : ObjectRecord) (db' : DB) (c : string)
    (sha : option string) (public : bool) : Prop := {
  rep_id : TrimSpace (r_Id obj) ≠ "";
  rep_sha : ValidateCanonicalSHA256 (slice (r_Checksums obj)) = Ok sha;
  rep_check : replace_sha_check db c sha = Ok tt;
  rep_lookup : sqliteObjectIDTx db (TrimSpace (r_Id obj)) = Some c;
  rep_update : HasMethodAccess ctx "update" (sqliteResourcesTx db c) = true;
  rep_alias : object_alias db ⊆ object_alias db' ∧
    (∀ x t, object_alias db' !! x = Some t → object_alias db !! x = Some t ∨ t = c);
  rep_dom : dom (drs_object db') = dom (drs_object db);
  rep_checksum : checksum db' = replaced_checksums (checksum db) c sha obj;
  rep_policy : read_policy db' = <[c := public || default false (read_policy db !! c)]> (read_policy db) }.

Lemma replaceChildrenTx_effect db c obj sha :
  let db' := replaceChildrenTx db c obj sha in
  drs_object db' = drs_object db ∧ object_alias db' = object_alias db ∧
  checksum db' = replaced_checksums (checksum db) c sha obj ∧ read_policy db' = read_policy db.
Proof.
  cbv zeta. unfold replaceChildrenTx, replaced_checksums.
  destruct (r_AccessMethods obj), (_ || _), (r_Checksums obj), sha; done.
Qed.
Lemma replaceObjectTx_effect ctx db obj db' c :
  replaceObjectTx ctx db obj = Ok (db', c) → ∃ sha public, replacement ctx db obj db' c sha public.
Proof.
  unfold replaceObjectTx. cbv zeta. destruct (is_empty _) eqn:Ei; [done|]. apply is_empty_false in Ei.
  destruct (sqliteObjectIDTx db (TrimSpace (r_Id obj))) as [c'|] eqn:Ef; [|done].
  rewrite bind_Ok. intros ([] & _ & Hr).
  destruct (HasMethodAccess ctx "update" (sqliteResourcesTx db c')) eqn:Hup; simpl in Hr; [|done].
  apply bind_Ok in Hr as (sha & Hsha & Hr). apply bind_Ok in Hr as ([] & Hcheck & Hr).
  match type of Hr with (if ?b then _ else _) = _ => destruct b; [done|] end.
  destruct (sqliteLoadContentRowTx db c') as [row|]; [|done].
  match type of Hr with (if ?b then _ else _) = _ => destruct b; [done|] end.
  apply bind_Ok in Hr as (db1 & Hins & [= -> ->]).
  apply insertIdentityAliases_ext in Hins as [(E & Hsub & Hnew) _].
  assert (dom (drs_object (replaceMetadataTx db row obj)) = dom (drs_object db) ∧
    object_alias (replaceMetadataTx db row obj) = object_alias db ∧
    checksum (replaceMetadataTx db row obj) = checksum db ∧
    read_policy (replaceMetadataTx db row obj) = read_policy db) as (Hd1 & Ha1 & Hc1 & Hp1).
  { unfold replaceMetadataTx. cbv zeta. destruct (_ && _); simpl; rewrite dom_alter_L; done. }
  set (db1 := replaceMetadataTx db row obj) in *. clearbody db1.
  destruct (replaceChildrenTx_effect db1 c obj sha) as (Hd2 & Ha2 & Hc2 & Hp2).
  set (db2 := replaceChildrenTx _ _ _ _) in *. clearbody db2.
  unfold replacePolicyTx in *. simpl in Hsub, Hnew. rewrite Ha2, Ha1 in Hsub, Hnew.
  eexists sha, _. split; auto; rewrite E; simpl.
  - by rewrite Hd2, Hd1.
  - by rewrite Hc2, Hc1.
  - by rewrite Hp2, Hp1.
Qed.
Lemma replacement_inv ctx db obj db' c :
  store_inv db → clean_record obj → replaceObjectTx ctx db obj = Ok (db', c) → store_inv db'.
Proof.
  intros Hinv Hclean (sha & public & Hrep)%replaceObjectTx_effect.
  assert (c ∈ dom (drs_object db)) as Hc by (eapply sqliteObjectIDTx_exists, Hrep; done).
  unfold store_inv. rewrite (rep_dom _ _ _ _ _ _ _ Hrep), (rep_checksum _ _ _ _ _ _ _ Hrep).
  assert (store_inv_on (dom (drs_object db)) (replaced_checksums (checksum db) c sha obj) (object_alias db)) as H1.
  { apply replaced_checksums_inv; auto. apply replace_sha_check_spec; [done| |apply Hrep].
    intros s ->. eapply ValidateCanonicalSHA256_valid, (rep_sha _ _ _ _ _ _ _ Hrep). }
  destruct (rep_alias _ _ _ _ _ _ _ Hrep) as [_ Hal].
  split; [apply (inv_ids H1)|apply (inv_rows H1)|apply (inv_unique H1)|apply (inv_single H1)|].
  intros a t [Ha| ->]%Hal; [by eapply (inv_alias H1)|done].
Qed.

Lemma delete_objects_inv db ids : store_inv db → store_inv (delete_objects db ids).
Proof.
  intros Hinv. unfold store_inv. simpl.
  assert (∀ i, i ∈ dom (filter (λ e : string * object_row, e.1 ∉ ids) (drs_object db)) ↔
    i ∈ dom (drs_object db) ∧ i ∉ ids) as Hdom.
  { intros i. rewrite !elem_of_dom. unfold is_Some. setoid_rewrite map_lookup_filter_Some. naive_solver. }
  apply (inv_shrink Hinv).
  - intros i Hi. by apply Hdom in Hi as [? _].
  - intros row [Hn Hin]%list_elem_of_filter. split; [done|]. apply Hdom. split; [|done].
    by apply (inv_rows Hinv) in Hin as [? _].
  - intros a c [Ha Hn]%map_lookup_filter_Some. split; [done|]. apply Hdom. split; [|done].
    by eapply (inv_alias Hinv).
Qed.
End preservation.

(** ** Transactions as steps *)
Inductive store_op :=
  | OpRegister (ctx : context) (now : Z) (objs : list ObjectRecord)
  | OpCreate (ctx : context) (now : Z) (obj : option ObjectRecord)
  | OpReplace (ctx : context) (now : Z) (objs : list ObjectRecord)
  | OpDelete (ctx : context) (id : string)
  | OpBulkDelete (ctx : context) (ids : list string)
  | OpCreateAlias (ctx : context) (aliasID canonicalID : string)
  | OpDeleteAlias (aliasID : string)
  | OpUpdateMethods (ctx : context) (id : string) (methods : list AccessMethod)
  | OpBulkUpdateMethods (ctx : context) (updates : gmap string (list AccessMethod))
  | OpRemoveGrant (ctx : context) (id resource : string)
  | OpRemoveGrants (ctx : context) (ids : list string) (resource : string).
Definition incoming (op : store_op) : list ObjectRecord :=
  match op with
  | OpRegister _ _ objs | OpReplace _ _ objs => objs
  | OpCreate _ _ (Some obj) => [obj]
  | _ => []
  end.

Section steps.
Context `{MapOrder}.

Definition run_op (op : store_op) (db : DB) : DB * result error unit :=
  match op with
  | OpRegister ctx now objs => RegisterObjects ctx now objs db
  | OpCreate ctx now obj => CreateObject ctx now obj db
  | OpReplace ctx now objs => ReplaceObjects ctx now objs db
  | OpDelete ctx id => DeleteObject ctx id db
  | OpBulkDelete ctx ids => BulkDeleteObjects ctx ids db
  | OpCreateAlias ctx a c => CreateObjectAlias ctx a c db
  | OpDeleteAlias a => DeleteObjectAlias a db
  | OpUpdateMethods ctx id methods => UpdateObjectAccessMethods ctx id methods db
  | OpBulkUpdateMethods ctx updates => BulkUpdateAccessMethods ctx updates db
  | OpRemoveGrant ctx id r => RemoveObjectControlledAccess ctx id r db
  | OpRemoveGrants ctx ids r =>
      let '(db, r) := RemoveObjectControlledAccessBulk ctx ids r db in (db, (λ _, tt) <$> r)
  end.
(** The databases that the transactions can produce from the empty one, with clean incoming records. *)
Inductive reachable : DB → Prop :=
  | reach_empty : reachable empty_db
  | reach_step op db : reachable db → Forall clean_record (incoming op) → reachable (run_op op db).1.

Lemma commit_inv {A} (P : DB → Prop) db (r : result error (DB * A)) :
  P db → (∀ db' a, r = Ok (db', a) → P db') → P (commit db r).1.
Proof. intros Hdb Hr. destruct r as [[db' a]|e]; simpl; eauto. Qed.

(** Invariants of every transaction: it is enough to look at the table operations. *)
Lemma update_methods_frame ctx db e db' :
  update_access_methods_tx ctx db e = Ok db' →
  db' = set_access_method db (access_method db').
Proof.
  destruct e as [id ms]. unfold update_access_methods_tx.
  destruct (sqliteObjectIDTx _ _); [|done]. rewrite bind_Ok. by intros (_ & _ & [= <-]).
Qed.
Lemma delete_grants_frame db c rs :
  foldl (λ db r, delete_grant db c r) db rs =
  set_controlled_access db (controlled_access (foldl (λ db r, delete_grant db c r) db rs)).
Proof.
  revert db. induction rs as [|r rs IH]; intros db; simpl; [by destruct db|]. rewrite IH. done.
Qed.
Lemma remove_bulk_step_frame ctx r w s id s' :
  remove_bulk_step ctx r w s id = Ok s' →
  s'.1.1 = s.1.1 ∨
  ∃ c grants public, s'.1.1 = setPublicReadTx (set_controlled_access s.1.1 grants) c public.
Proof.
  destruct s as [[db seen] n]. unfold remove_bulk_step. destruct (sqliteObjectIDTx db (TrimSpace id)) as [c|];
    [|intros [= <-]; by left].
  case_decide; [intros [= <-]; by left|]. rewrite bind_Ok. intros (_ & _ & Hr). cbv zeta in Hr.
  destruct (filter _ _) as [|t ts]; [injection Hr as <-; by left|]. injection Hr as <-. right.
  rewrite delete_grants_frame. simpl. eauto.
Qed.
Definition caller (op : store_op) : context :=
  match op with OpDelete ctx _ | OpBulkDelete ctx _ => ctx | _ => None end.
Definition is_delete (op : store_op) : Prop := match op with OpDelete _ _ | OpBulkDelete _ _ => True | _ => False end.
(** The ids a deletion may remove: the caller has delete access to every grant of each object. *)
Definition may_delete (op : store_op) (db : DB) (ids : list string) : Prop :=
  is_delete op ∧ ∀ id, id ∈ ids → HasMethodAccess (caller op) "delete" (sqliteResourcesTx db id) = true.

Lemma require_method_Ok ctx db id method :
  sqliteRequireContentMethodTx ctx db id method = Ok tt → HasMethodAccess ctx method (sqliteResourcesTx db id) = true.
Proof. unfold sqliteRequireContentMethodTx. by destruct (HasMethodAccess _ _ _). Qed.
Lemma bulk_delete_authorised ctx db ids cs :
  foldlM (bulk_delete_step ctx db) [] ids = Ok cs →
  ∀ id, id ∈ cs → HasMethodAccess ctx "delete" (sqliteResourcesTx db id) = true.
Proof.
  apply (foldlM_inv (bulk_delete_step ctx db)
    (λ cs, ∀ id, id ∈ cs → HasMethodAccess ctx "delete" (sqliteResourcesTx db id) = true)); [set_solver|].
  intros cs1 raw cs2 _ Hcs1. unfold bulk_delete_step. destruct (sqliteObjectIDTx _ _) as [c|]; [|by intros [= <-]].
  rewrite bind_Ok. intros (_ & _ & Hr). apply bind_Ok in Hr as ([] & Hm & [= <-]).
  apply require_method_Ok in Hm. case_decide; [done|].
  intros id [?| ->%list_elem_of_singleton]%elem_of_app; auto.
Qed.

(** The rule for invariants of transactions: a property of databases that holds before a transaction and
    is kept by the table operations the transaction is made of holds after it. *)
Lemma run_op_rule (P : DB → Prop) op db :
  P db →
  (∀ now db ids, P db → P (flushObjectUsageEventsForIDsTx now db ids)) →
  (∀ ctx obj db db' c, obj ∈ incoming op → P db → registerContentTx ctx db obj = Ok (db', c) → P db') →
  (∀ ctx obj db db' c, obj ∈ incoming op → P db → replaceObjectTx ctx db obj = Ok (db', c) → P db') →
  (∀ ids, may_delete op db ids → P (delete_objects db ids)) →
  (∀ a c, c ∈ dom (drs_object db) → P (set_object_alias db (<[a := c]> (object_alias db)))) →
  (∀ a, P (set_object_alias db (delete a (object_alias db)))) →
  (∀ db v, P db → P (set_access_method db v)) →
  (∀ db v, P db → P (set_controlled_access db v)) →
  (∀ db c p, P db → P (setPublicReadTx db c p)) →
  P (run_op op db).1.
Proof.
  intros Hdb Hflush Hreg Hrep Hdel Hali Halid Hmeth Hgr Hpol.
  assert (∀ f now objs, (∀ obj db db' c, obj ∈ objs → P db → f db obj = Ok (db', c) → P db') →
    P (commit db (run_batch f now db objs)).1) as Hbatch.
  { intros f now objs Hf. apply (commit_inv P); [done|]. intros db' u Hr. by eapply run_batch_inv. }
  destruct op as [ctx now objs|ctx now obj|ctx now objs|ctx id|ctx ids|ctx a c|a|ctx id ms|ctx ups|ctx id r|ctx ids r];
    simpl in Hreg, Hrep.
  - apply Hbatch. intros obj db1 db2 c ?. by apply Hreg.
  - destruct obj as [obj|]; [|done]. apply Hbatch. intros o db1 db2 c ?. by apply Hreg.
  - apply Hbatch. intros obj db1 db2 c ?. by apply Hrep.
  - apply (commit_inv P); [done|]. intros db' u. cbv zeta. destruct (is_empty _); [done|].
    destruct (sqliteObjectIDTx _ _) as [c|]; [|done]. rewrite bind_Ok. intros (_ & _ & Hr).
    apply bind_Ok in Hr as ([] & Hm & Hr). destruct (drs_object db !! c); [|done]. injection Hr as <- _.
    apply Hdel. split; [done|]. intros i ->%list_elem_of_singleton. by apply require_method_Ok.
  - simpl. destruct ids as [|i ids]; [done|]. apply (commit_inv P); [done|]. intros db' u. rewrite bind_Ok.
    intros (cs & Hcs & [= <- _]). destruct cs as [|c cs]; [done|]. apply Hdel. split; [done|].
    by apply (bulk_delete_authorised ctx db (i :: ids)).
  - simpl. unfold CreateObjectAlias. cbv zeta. destruct (_ || _); [done|]. destruct (String.eqb _ _); [done|].
    apply (commit_inv P); [done|]. intros db' u. destruct (drs_object db !! TrimSpace c) eqn:Ec; [|done].
    rewrite bind_Ok. intros (_ & _ & Hr). apply bind_Ok in Hr as (_ & _ & Hr).
    destruct (drs_object db !! TrimSpace a); [done|]. destruct (object_alias db !! TrimSpace a).
    + destruct (String.eqb _ _); [|done]. by injection Hr as <- _.
    + injection Hr as <- _. apply Hali. by apply elem_of_dom_2 in Ec.
  - apply (commit_inv P); [done|]. intros db' u. destruct (object_alias db !! a); [|done]. intros [= <- _]. apply Halid.
  - apply (commit_inv P); [done|]. intros db' u. rewrite bind_Ok. intros (db1 & H1 & [= <- _]).
    apply update_methods_frame in H1 as ->. by apply Hmeth.
  - apply (commit_inv P); [done|]. intros db' u. rewrite bind_Ok. intros (db1 & H1 & [= <- _]).
    refine (foldlM_inv _ P _ _ _ Hdb _ H1). intros s e s' _ Hs Hstep.
    apply update_methods_frame in Hstep as ->. by apply Hmeth.
  - simpl. unfold RemoveObjectControlledAccess. destruct (NormalizeAccessResources [r]); [done|].
    apply (commit_inv P); [done|]. intros db' u. destruct (sqliteObjectIDTx _ _); [|done]. rewrite bind_Ok.
    intros (_ & _ & Hr). destruct (negb _); [done|]. case_decide; [|done]. injection Hr as <- _.
    unfold delete_grant. auto.
  - simpl. unfold RemoveObjectControlledAccessBulk. destruct ids as [|i ids]; [done|].
    destruct (NormalizeAccessResources [r]) as [|r' rs]; [done|]. cbv zeta.
    match goal with |- P (let '(_, _) := commit db ?m in _).1 =>
      assert (P (commit db m).1) as Hc; [|by destruct (commit db m)] end.
    apply (commit_inv P); [done|]. intros db' n. destruct (_ && _); [done|]. rewrite bind_Ok.
    intros (s & Hs & [= <- _]). refine (foldlM_inv _ (λ s, P s.1.1) _ _ _ _ _ Hs); [done|].
    intros s1 x s2 _ H1 H2. apply remove_bulk_step_frame in H2 as [->|(c & gr & p & ->)]; auto.
Qed.

Lemma run_op_inv op db :
  store_inv db → Forall clean_record (incoming op) → store_inv (run_op op db).1.
Proof.
  intros Hinv Hcl. rewrite Forall_forall in Hcl. apply run_op_rule; auto.
  - intros. by apply store_inv_flush.
  - intros ctx obj db1 db2 c Hin Hdb1. apply registration_inv; auto.
  - intros ctx obj db1 db2 c Hin Hdb1. apply replacement_inv; auto.
  - intros ids _. by apply delete_objects_inv.
  - intros a c Hc. by apply (inv_add_alias Hinv).
  - intros a. apply (inv_shrink Hinv); [done| |].
    + intros row Hin. split; [done|]. by apply (inv_rows Hinv) in Hin as [? _].
    + intros x c Hx. simpl in Hx. apply lookup_delete_Some in Hx as [_ Hx]. split; [done|]. by eapply (inv_alias Hinv).
Qed.
Lemma reachable_store_inv db : reachable db → store_inv db.
Proof.
  induction 1 as [|op db _ IH Hcl]; [|by apply run_op_inv].
  split; simpl; [set_solver|set_solver| | |].
  - intros ? ? v _ (?&?&Hin&_). by apply elem_of_nil in Hin.
  - intros ? ? v _ _ (?&?&Hin&_). by apply elem_of_nil in Hin.
  - by intros a c Ha.
Qed.
End steps.
