(* ===== verification/ContentProperties.v ===== *)
(** * What the content store guarantees
    Properties of the transactions of ContentStore: content identity, grants, the public-read policy,
    deletion, usage accounting; and, by computation, what happens outside the assumptions. *)
From S2P Require Import Prelude GoStrings GoURL Errors Resources Policy Objects ContentStore ContentInvariant.

(** ** Lemmas on the effects *)
Lemma elem_of_insert_all {A} `{EqDecision A} {B} (f : B → A) (l : list B) (table : list A) x :
  x ∈ foldl (λ table b, insert_if_absent (f b) table) table l → x ∈ table ∨ ∃ b, b ∈ l ∧ x = f b.
Proof.
  revert table. induction l as [|b l IH]; intros table; csimpl; [by left|].
  intros [Hin|(b' & ? & ->)]%IH; [|right; set_solver].
  unfold insert_if_absent in Hin. case_decide; [by left|].
  apply elem_of_app in Hin as [?|Hin%list_elem_of_singleton]; [by left|]. right. set_solver.
Qed.

Definition usage_count (t : usage_event_type) (u : usage_row) : Z :=
  match t with UploadEvent => u_upload_count u | DownloadEvent => u_download_count u end.
(** The recorded and the pending events of an object. *)
Definition total_usage (t : usage_event_type) (db : DB) (id : string) : Z :=
  (from_option (usage_count t) 0 (object_usage db !! id) + count_events t (usage_event db) id)%Z.

Lemma flush_id_lookup now events objs usage id i :
  flush_id now events objs usage id !! i =
    if decide (i = id) then flush_id now events objs usage id !! id else usage !! i.
Proof.
  case_decide as Hi; [by subst|]. unfold flush_id. case_decide; [|done]. by rewrite lookup_insert_ne.
Qed.
Lemma flush_fold_lookup now events objs usage l i :
  NoDup l →
  foldl (flush_id now events objs) usage l !! i =
    if decide (i ∈ l) then flush_id now events objs usage i !! i else usage !! i.
Proof.
  intros Hnd. revert usage. induction Hnd as [|x l Hx _ IH]; intros usage; [done|]. csimpl. rewrite IH.
  destruct (decide (i = x)) as [->|Hix].
  - rewrite decide_False by done. by rewrite decide_True by set_solver.
  - assert (flush_id now events objs usage x !! i = usage !! i) as Hu by (rewrite flush_id_lookup; by rewrite decide_False).
    destruct (decide (i ∈ l)).
    + rewrite decide_True by set_solver. unfold flush_id at 1 3. case_decide; [|done].
      by rewrite !lookup_insert_eq, Hu.
    + by rewrite decide_False by set_solver.
Qed.
Lemma count_events_cons t e events id :
  count_events t (e :: events) id =
    ((if decide (e.1 = id ∧ e.2.1 = t) then 1 else 0) + count_events t events id)%Z.
Proof. unfold count_events. rewrite filter_cons. case_decide; simpl; lia. Qed.
Lemma count_events_none t events id : id ∉ events.*1 → count_events t events id = 0%Z.
Proof.
  induction events as [|e events IH]; [done|]. csimpl. intros Hn. rewrite count_events_cons, IH by set_solver.
  rewrite decide_False; [done|]. intros [<- _]. set_solver.
Qed.
Lemma count_events_filter t events (ids : list string) id :
  count_events t (filter (λ e : string * (usage_event_type * Z), e.1 ∉ ids) events) id =
    if decide (id ∈ ids) then 0%Z else count_events t events id.
Proof.
  induction events as [|e events IH]; [by case_decide|]. rewrite filter_cons, count_events_cons.
  destruct (decide (e.1 ∉ ids)) as [He|He]; rewrite ?count_events_cons, IH; destruct (decide (id ∈ ids)) as [Hid|Hid]; try done.
  - rewrite decide_False; [done|]. intros [E _]. rewrite E in He. done.
  - rewrite decide_False; [done|]. intros [E _]. by rewrite E in He.
Qed.
Lemma flush_chunk_total t now db ids id :
  id ∈ dom (drs_object db) →
  total_usage t (flushObjectUsageEventsForIDChunkTx now db ids) id = total_usage t db id.
Proof.
  intros Hid%elem_of_dom. unfold total_usage, flushObjectUsageEventsForIDChunkTx. simpl.
  rewrite flush_fold_lookup, count_events_filter by apply NoDup_dedup.
  destruct (decide (id ∈ ids)) as [Hin|Hin]; [|by rewrite decide_False by by rewrite elem_of_dedup].
  rewrite decide_True by by apply elem_of_dedup. unfold flush_id.
  destruct (decide (id ∈ (usage_event db).*1)) as [He|He].
  - rewrite decide_True by done. cbv zeta. rewrite lookup_insert_eq.
    destruct (object_usage db !! id); destruct t; simpl; lia.
  - rewrite decide_False by tauto. rewrite (count_events_none t _ id He). lia.
Qed.
(** ** Properties *)
Section properties.
Context `{MapOrder}.

(** C1 Content identity: in every database that the transactions produce from the empty one out of records
    with clean checksums, an identifier belongs to at most one object, an object has at most one
    identifier, every id or alias that resolves leads to a stored object, and the check for legacy
    duplicates never fires. *)
Theorem content_identity db :
  reachable db →
  (∀ sha, valid_oid sha → length (sqliteObjectIDsBySHATx db sha) ≤ 1) ∧
  (∀ id sha1 sha2, sha1 ∈ sqliteObjectSHAsTx db id → sha2 ∈ sqliteObjectSHAsTx db id → sha1 = sha2) ∧
  (∀ id c, sqliteObjectIDTx db id = Some c → is_Some (drs_object db !! c)) ∧
  (∀ id, sqliteEnsureNoLegacyDuplicateTx db id = Ok tt).
Proof.
  intros Hinv%reachable_store_inv. split_and!.
  - intros sha Hsha.
    pose proof (NoDup_IDsBySHA db sha (λ i Hc, proj1 (inv_ids Hinv i (claims_id Hinv i sha Hc)))) as Hnd.
    destruct (sqliteObjectIDsBySHATx db sha) as [|i1 [|i2 l]] eqn:El; simpl; [lia..|]. exfalso.
    assert (claims (checksum db) i1 sha ∧ claims (checksum db) i2 sha) as [H1 H2].
    { rewrite <- !(IDsBySHA_owner db sha _ Hinv), El. set_solver. }
    pose proof (inv_unique Hinv _ _ _ Hsha H1 H2). apply NoDup_cons in Hnd as [Hnd _]. set_solver.
  - intros id v w [Hv Hcv]%(SHAs_valid _ _ _ Hinv) [Hw Hcw]%(SHAs_valid _ _ _ Hinv).
    by eapply (inv_single Hinv).
  - intros id c Hc. apply elem_of_dom. by eapply sqliteObjectIDTx_exists.
  - intros id. by apply no_legacy_duplicates.
Qed.

Lemma RegisterObjects_single ctx now obj db db' :
  RegisterObjects ctx now [obj] db = (db', Ok tt) →
  ∃ db1 c, registerContentTx ctx db obj = Ok (db1, c) ∧ db' = flushObjectUsageEventsForIDsTx now db1 [c].
Proof.
  unfold RegisterObjects, run_batch, batch_step. simpl.
  destruct (registerContentTx ctx db obj) as [[db1 c]|e]; simpl; [|done].
  intros [= <-]. by exists db1, c.
Qed.

(** The owner of an identifier after its registration. *)
Lemma registered_owner ctx now obj sha db db' :
  store_inv db → clean_record obj →
  ValidateCanonicalSHA256 (slice (r_Checksums obj)) = Ok (Some sha) →
  RegisterObjects ctx now [obj] db = (db', Ok tt) →
  store_inv db' ∧ ∃ c, claims (checksum db') c sha ∧ sqliteObjectIDTx db' (TrimSpace (r_Id obj)) = Some c ∧
    (∀ id, claims (checksum db) id sha → id = c).
Proof.
  intros Hinv Hcl Hsha (db1 & c & Hreg & ->)%RegisterObjects_single.
  pose proof (registration_inv ctx db obj db1 c Hinv Hcl Hreg) as Hinv1.
  apply registerContentTx_effect in Hreg as (sha' & public & Hreg).
  pose proof (reg_sha _ _ _ _ _ _ _ Hreg) as E. rewrite Hsha in E. injection E as <-.
  pose proof (ValidateCanonicalSHA256_valid _ _ Hsha) as Hv.
  destruct (register_target_spec db (TrimSpace (r_Id obj)) (Some sha) c Hinv) as (_ & _ & Hown & Hself & Halias).
  { apply TrimSpace_idemp. } { apply Hreg. } { by intros s [= <-]. } { apply Hreg. }
  destruct (Hown sha eq_refl) as [Howner _]. split; [by apply store_inv_flush|].
  destruct (flush_effect now db1 [c]) as (Hd & Hc & Ha & _). exists c. rewrite Hc. split_and!.
  - rewrite (reg_checksum _ _ _ _ _ _ _ Hreg). apply raw_table_unchanged_nosha; [done..|].
    unfold insert_sha. destruct (existsb _ _) eqn:Ee.
    + apply existsb_exists in Ee as ([i [typ raw]] & Hin%list_elem_of_In & Hr). simpl in Hr.
      apply andb_true_iff in Hr as [[->%String.eqb_eq Ht%String.eqb_eq]%andb_true_iff ?%String.eqb_eq].
      by exists typ, raw.
    + apply claims_app. right. apply claims_singleton. by rewrite sql_sha_valid.
  - apply sqliteObjectIDTx_cases. rewrite Hd, Ha, (reg_dom _ _ _ _ _ _ _ Hreg).
    destruct (decide (TrimSpace (r_Id obj) = c)) as [E|Hne]; [left; set_solver|].
    right. split; [|by apply (reg_own_alias _ _ _ _ _ _ _ Hreg)].
    intros [?%elem_of_singleton|Hin]%elem_of_union; [done|]. apply Hne. symmetry. by apply Hself.
  - exact Howner.
Qed.
Lemma IDsBySHA_none_or_owner db sha c :
  store_inv db → (∀ id, claims (checksum db) id sha → id = c) →
  sqliteObjectIDsBySHATx db sha = [] ∨ sqliteObjectIDsBySHATx db sha = [c].
Proof.
  intros Hinv Hc. apply NoDup_all_equal.
  - apply NoDup_IDsBySHA. intros i Hi. by apply (inv_ids Hinv), (claims_id Hinv i sha).
  - intros i Hi. by apply Hc, (IDsBySHA_owner db sha i Hinv).
Qed.

(** C2 Registration is content-addressed: after a record with an identifier is registered, exactly one
    object has that identifier, the id of the record resolves to this object, and an object that had the
    identifier before is the one that still has it. *)
Theorem registration_content_addressed ctx now obj sha db db' :
  reachable db → clean_record obj →
  ValidateCanonicalSHA256 (slice (r_Checksums obj)) = Ok (Some sha) →
  RegisterObjects ctx now [obj] db = (db', Ok tt) →
  ∃ c, sqliteObjectIDsBySHATx db' sha = [c] ∧ sqliteObjectIDTx db' (TrimSpace (r_Id obj)) = Some c ∧
    (sqliteObjectIDsBySHATx db sha = [] ∨ sqliteObjectIDsBySHATx db sha = [c]).
Proof.
  intros Hinv%reachable_store_inv Hcl Hsha Hreg. pose proof (ValidateCanonicalSHA256_valid _ _ Hsha) as Hv.
  destruct (registered_owner _ _ _ _ _ _ Hinv Hcl Hsha Hreg) as (Hinv' & c & Hown & Hid & Hold).
  exists c. split_and!; [|done|by apply IDsBySHA_none_or_owner].
  destruct (IDsBySHA_none_or_owner db' sha c Hinv') as [El|]; [|exfalso|done].
  { intros i Hi. by eapply (inv_unique Hinv'). }
  apply (IDsBySHA_owner db' sha c Hinv') in Hown. rewrite El in Hown. by apply elem_of_nil in Hown.
Qed.

(** Registering a record only adds grants to the object it resolves to, and each grant it adds was
    already among the object's normalised grants or is one for which the caller may create. *)
Theorem registration_grants ctx db obj db' c id r :
  registerContentTx ctx db obj = Ok (db', c) →
  (id, r) ∈ controlled_access db' → (id, r) ∉ controlled_access db →
  id = c ∧ r ∈ sqliteObjectResources obj ∧
  (r ∈ sqliteResourcesTx db c ∨ HasMethodAccess ctx "create" [r] = true).
Proof.
  intros (sha & public & Hreg)%registerContentTx_effect Hin Hnew.
  rewrite (reg_access _ _ _ _ _ _ _ Hreg) in Hin.
  apply elem_of_insert_all in Hin as [?|(r' & Hr & [= -> ->])]; [done|]. split_and!; [done..|].
  pose proof (reg_create _ _ _ _ _ _ _ Hreg) as Hcr. unfold sqliteCanCreateResources in Hcr.
  rewrite forallb_forall in Hcr. specialize (Hcr r'). rewrite <- list_elem_of_In in Hcr.
  specialize (Hcr Hr). apply orb_true_iff in Hcr as [?%bool_decide_eq_true|?]; auto.
Qed.

(** Usage accounting loses no event of a stored object: the flush moves pending events into the
    counters, and the sum of the counter and of the pending events of the object stays the same, for
    uploads and for downloads, whatever ids are flushed and however they are cut into chunks. *)
Theorem flush_conserves_usage t now db ids id :
  id ∈ dom (drs_object db) →
  total_usage t (flushObjectUsageEventsForIDsTx now db ids) id = total_usage t db id.
Proof.
  unfold flushObjectUsageEventsForIDsTx. generalize (length ids) as n. intros n. revert db ids.
  induction n as [|n IH]; intros db ids Hid; [done|]. destruct ids as [|i ids]; [done|].
  cbn -[flushObjectUsageEventsForIDChunkTx sqliteMaxParams take drop].
  rewrite IH by done. by apply flush_chunk_total.
Qed.

Lemma setPublicReadTx_keeps db id c p :
  read_policy db !! id = Some true → read_policy (setPublicReadTx db c p) !! id = Some true.
Proof.
  intros Hid. simpl. destruct (decide (c = id)) as [->|]; [|by rewrite lookup_insert_ne].
  by rewrite lookup_insert_eq, Hid, orb_true_r.
Qed.
(** An object that is open for public reading stays so through every transaction, for as long as it
    is stored. *)
Theorem public_read_sticky op db id :
  read_policy db !! id = Some true → id ∈ dom (drs_object (run_op op db).1) →
  read_policy (run_op op db).1 !! id = Some true.
Proof.
  intros Hid Hdom.
  assert ((is_delete op ∧ id ∉ dom (drs_object (run_op op db).1)) ∨ read_policy (run_op op db).1 !! id = Some true)
    as [[_ ?]|?]; [|done..].
  clear Hdom. apply (run_op_rule (λ db', (is_delete op ∧ id ∉ dom (drs_object db')) ∨ read_policy db' !! id = Some true)).
  - by right.
  - intros now db1 ids. destruct (flush_effect now db1 ids) as (->&_&_&->&_). done.
  - intros ctx obj db1 db2 c Hin [[Hd _]|Hk] Hreg; [by destruct op; simpl in *; try (by apply elem_of_nil in Hin)|].
    right. apply registerContentTx_effect in Hreg as (sha & public & Hreg).
    rewrite (reg_policy _ _ _ _ _ _ _ Hreg). by apply (setPublicReadTx_keeps db1).
  - intros ctx obj db1 db2 c Hin [[Hd _]|Hk] Hrep; [by destruct op; simpl in *; try (by apply elem_of_nil in Hin)|].
    right. apply replaceObjectTx_effect in Hrep as (sha & public & Hrep).
    rewrite (rep_policy _ _ _ _ _ _ _ Hrep). by apply (setPublicReadTx_keeps db1).
  - intros ids [Hd _]. destruct (decide (id ∈ ids)) as [Hi|Hi]; [left; split; [done|]|right]; simpl.
    + rewrite elem_of_dom. intros [row [_ Hn]%map_lookup_filter_Some]. by apply Hn.
    + by apply map_lookup_filter_Some.
  - intros a c _. by right.
  - intros a. by right.
  - done.
  - done.
  - intros db1 c p [?|?]; [by left|]. right. by apply setPublicReadTx_keeps.
Qed.

(** Deletion is authorised: an object that is stored before a transaction and not after it was removed
    by a deletion whose caller has delete access to every one of its grants; and a transaction that
    reports an error leaves the database as it was. *)
Theorem deletion_authorised op db :
  (∀ id, id ∈ dom (drs_object db) → id ∉ dom (drs_object (run_op op db).1) →
     is_delete op ∧ HasMethodAccess (caller op) "delete" (sqliteResourcesTx db id) = true) ∧
  (is_ok (run_op op db).2 = false → (run_op op db).1 = db).
Proof.
  split.
  - intros id Hid Hgone.
    assert (id ∈ dom (drs_object (run_op op db).1) ∨ may_delete op db [id]) as [?|[Hd Hm]]; [|done|].
    { apply (run_op_rule (λ db', id ∈ dom (drs_object db') ∨ may_delete op db [id])); try (by auto).
      - intros now db1 ids. by destruct (flush_effect now db1 ids) as (->&_).
      - intros ctx obj db1 db2 c _ [Hin|?] Hreg; [left|by right].
        apply registerContentTx_effect in Hreg as (sha & public & Hreg). rewrite (reg_dom _ _ _ _ _ _ _ Hreg). set_solver.
      - intros ctx obj db1 db2 c _ [Hin|?] Hrep; [left|by right].
        apply replaceObjectTx_effect in Hrep as (sha & public & Hrep). by rewrite (rep_dom _ _ _ _ _ _ _ Hrep).
      - intros ids [Hd Hm]. destruct (decide (id ∈ ids)) as [Hi|Hi]; [right|left].
        + split; [done|]. intros i ->%list_elem_of_singleton. by apply Hm.
        + simpl. apply elem_of_dom in Hid as [row Hrow]. apply elem_of_dom. exists row.
          by apply map_lookup_filter_Some. }
    split; [done|]. apply Hm. set_solver.
  - assert (∀ A (r : result error (DB * A)), is_ok (commit db r).2 = false → (commit db r).1 = db) as Hc.
    { by intros A [[db' a]|e]. }
    destruct op; simpl; try apply Hc.
    + destruct obj; simpl; [apply Hc|done].
    + unfold BulkDeleteObjects. destruct ids; [done|apply Hc].
    + unfold CreateObjectAlias. cbv zeta. destruct (_ || _); [done|]. destruct (String.eqb _ _); [done|apply Hc].
    + unfold RemoveObjectControlledAccess. destruct (NormalizeAccessResources _); [done|apply Hc].
    + unfold RemoveObjectControlledAccessBulk. destruct ids; [done|]. destruct (NormalizeAccessResources _); [done|].
      match goal with |- context [commit db ?m] => specialize (Hc _ m); destruct (commit db m) as [db' [n|e]] end;
        simpl in *; auto.
Qed.
End properties.

(** ** Concrete databases *)
#[local] Existing Instance canonical_order.
Definition oid_a : string := "00112233445566778899aabbccddeeff00112233445566778899aabbccddeeff".
Definition stored (id : string) (checksums : list Checksum) (aliases : option (list string)) : ObjectRecord :=
  set_Aliases (set_Checksums (set_ControlledAccess (set_Size (set_Id zero_record id) 12)
    (Some ["/organization/ohsu/project/p1"])) (Some checksums)) aliases.
Definition record_a : ObjectRecord := stored "a" [mkChecksum "SHA-256" ("sha256:" +:+ oid_a)] None.
Definition record_b : ObjectRecord := stored "b" [mkChecksum "sha256" oid_a; mkChecksum "md5" "d41d8cd9"] None.
Definition db_ab : DB := (run_op (OpRegister None 7 [record_a; record_b]) empty_db).1.

Lemma clean_decide c :
  match raw_checksum c with
  | Some (typ, value) => negb (String.eqb (sql_type typ) "sha256") || is_empty (NormalizeOid (sql_sha value))
  | None => true
  end = true → clean_checksum c.
Proof.
  intros Hc typ value Hraw Ht. rewrite Hraw, Ht in Hc. by apply is_empty_spec.
Qed.
Lemma record_ab_clean : Forall clean_record [record_a; record_b].
Proof.
  assert (∀ c, c ∈ [mkChecksum "SHA-256" ("sha256:" +:+ oid_a); mkChecksum "sha256" oid_a; mkChecksum "md5" "d41d8cd9"] →
    clean_checksum c) as Hc.
  { intros c Hin. apply clean_decide. rewrite !elem_of_cons in Hin. destruct Hin as [->|[->|[->|Hin%elem_of_nil]]];
      [by vm_compute..|done]. }
  repeat constructor; apply Hc; set_solver.
Qed.
Lemma db_ab_reachable : reachable db_ab.
Proof. apply reach_step; [apply reach_empty|apply record_ab_clean]. Qed.

Lemma content_identity_witness :
  reachable db_ab ∧ length (sqliteObjectIDsBySHATx db_ab oid_a) ≤ 1 ∧ sqliteObjectIDTx db_ab "b" = Some "a".
Proof.
  split; [exact db_ab_reachable|]. split; [|by vm_compute].
  apply (proj1 (content_identity db_ab db_ab_reachable)). by apply (bool_decide_unpack _); vm_compute.
Defined.
Lemma registration_content_addressed_witness :
  ∃ c, sqliteObjectIDsBySHATx (run_op (OpRegister None 9 [record_b]) db_ab).1 oid_a = [c].
Proof.
  destruct (registration_content_addressed None 9 record_b oid_a db_ab (run_op (OpRegister None 9 [record_b]) db_ab).1)
    as (c & Hc & _).
  - exact db_ab_reachable.
  - pose proof record_ab_clean as Hcl. rewrite !Forall_cons in Hcl. apply Hcl.
  - by vm_compute.
  - by vm_compute.
  - exists c. exact Hc.
Defined.
Lemma registration_grants_witness :
  ∃ db' c, registerContentTx None empty_db record_a = Ok (db', c) ∧
    "/organization/ohsu/project/p1" ∈ sqliteObjectResources record_a.
Proof.
  assert (∃ db' c, registerContentTx None empty_db record_a = Ok (db', c) ∧
    ("a", "/organization/ohsu/project/p1") ∈ controlled_access db') as (db' & c & Hr & Hin).
  { eexists _, _. split; [by vm_compute|]. by apply (bool_decide_unpack _); vm_compute. }
  exists db', c. split; [exact Hr|].
  apply (registration_grants None empty_db record_a db' c "a" _ Hr Hin). by intros Hn%elem_of_nil.
Defined.
Lemma flush_conserves_usage_witness :
  let db := set_usage db_ab ∅ [("a", (UploadEvent, 3%Z)); ("a", (DownloadEvent, 4%Z)); ("a", (DownloadEvent, 5%Z))] in
  total_usage DownloadEvent (flushObjectUsageEventsForIDsTx 9 db ["a"]) "a" = 2%Z.
Proof.
  cbv zeta. rewrite flush_conserves_usage; [by vm_compute|]. by apply (bool_decide_unpack _); vm_compute.
Defined.
Definition db_public : DB := setPublicReadTx db_ab "a" true.
Lemma public_read_sticky_witness :
  read_policy (run_op (OpReplace None 9 [record_b]) db_public).1 !! "a" = Some true.
Proof. apply public_read_sticky; [by vm_compute|]. by apply (bool_decide_unpack _); vm_compute. Defined.

(** ** Outside the assumptions *)
(** A checksum that is no identifier for Go but reads as one in the identity index. *)
Definition record_twice : ObjectRecord := stored "b" [mkChecksum "sha256" ("sha256:sha256:" +:+ oid_a)] None.
(** The condition on checksums is needed: a record whose SHA-256 value repeats the prefix registers as
    another object that the identity index gives the same identifier, and from then on the owner of the
    identifier can be neither registered again nor deleted. *)
Theorem unclean_checksum_breaks_identity :
  let db := (run_op (OpRegister None 7 [record_twice]) (run_op (OpRegister None 5 [record_a]) empty_db).1).1 in
  is_ok (run_op (OpRegister None 7 [record_twice]) (run_op (OpRegister None 5 [record_a]) empty_db).1).2 = true ∧
  sqliteObjectIDsBySHATx db oid_a = ["a"; "b"] ∧
  is_ok (run_op (OpRegister None 9 [record_a]) db).2 = false ∧
  is_ok (run_op (OpDelete None "a") db).2 = false.
Proof. by vm_compute. Qed.

Definition oid_b : string := "ffeeddccbbaa99887766554433221100ffeeddccbbaa99887766554433221100".
Definition record_thief : ObjectRecord := stored "b" [mkChecksum "sha256" oid_b] (Some ["id:a"]).
(** An id alias of a registration may name a stored object: [CreateObjectAlias] refuses it, a
    registration does not.  The named object can then not be registered again, and after its deletion
    its id resolves to the other object. *)
Theorem registration_alias_captures_object :
  let db := (run_op (OpRegister None 7 [record_thief]) (run_op (OpRegister None 5 [record_a]) empty_db).1).1 in
  is_ok (run_op (OpCreateAlias None "a" "b") db).2 = false ∧
  object_alias db !! "a" = Some "b" ∧ sqliteObjectIDTx db "a" = Some "a" ∧
  is_ok (run_op (OpRegister None 9 [record_a]) db).2 = false ∧
  sqliteObjectIDTx (run_op (OpDelete None "a") db).1 "a" = Some "b".
Proof. by vm_compute. Qed.

(** A database written before the read-policy table existed. *)
Definition db_legacy : DB := set_read_policy db_ab ∅.
(** Removing the last grant of an object without a policy row keeps it closed when the grant is removed
    alone, and opens it to everybody when it is removed in bulk. *)
Theorem bulk_removal_opens_legacy_object :
  let r := "/organization/ohsu/project/p1" in
  read_policy (run_op (OpRemoveGrant None "a" r) db_legacy).1 !! "a" = Some false ∧
  read_policy (run_op (OpRemoveGrants None ["a"] r) db_legacy).1 !! "a" = Some true ∧
  sqliteResourcesTx (run_op (OpRemoveGrant None "a" r) db_legacy).1 "a" = [] ∧
  sqliteResourcesTx (run_op (OpRemoveGrants None ["a"] r) db_legacy).1 "a" = [].
Proof. by vm_compute. Qed.

(** The data source name asks for foreign keys and immediate transactions, except that a name which
    already has a transaction-lock setting gets no foreign-key setting, and the cascades are then off. *)
Theorem sqliteDSN_foreign_keys :
  sqliteDSN "drs.db" = "drs.db?_foreign_keys=on&_txlock=immediate" ∧
  sqliteDSN ":memory:" = "file::memory:?_foreign_keys=on&_txlock=immediate" ∧
  sqliteDSN "drs.db?_txlock=deferred&cache=shared" = "drs.db?_txlock=immediate&cache=shared" ∧
  Contains (sqliteDSN "drs.db?_txlock=deferred&cache=shared") "_foreign_keys=" = false.
Proof. by vm_compute. Qed.
