(* ===== verification/Canonical.v ===== *)
(** * Canonical records: internal/objects/records/canonicalization.go
    Several physical records may describe the same content.  The records of a group are collapsed into one
    presentation: the identity of the oldest record, the metadata of the newest ones, and the union of
    checksums, access methods, grants and aliases.  Cloning a record is the identity on values. *)
From S2P Require Import Prelude GoStrings GoURL Errors Resources Objects.

Definition canonicalObjectSortTime (obj : ObjectRecord) : Z :=
  match r_UpdatedTime obj with
  | Some t => if (t =? 0)%Z then r_CreatedTime obj else t
  | None => r_CreatedTime obj
  end.
Definition canonicalObjectOlder (a b : ObjectRecord) : bool :=
  if negb (r_CreatedTime a =? r_CreatedTime b)%Z then (r_CreatedTime a <? r_CreatedTime b)%Z
  else String.ltb (r_Id a) (r_Id b).
Definition canonicalObjectNewer (a b : ObjectRecord) : bool :=
  let at_ := canonicalObjectSortTime a in
  let bt := canonicalObjectSortTime b in
  if negb (at_ =? bt)%Z then (bt <? at_)%Z else String.ltb (r_Id b) (r_Id a).

(** ** Merging the fields of a group *)
Definition checksum_less (a b : Checksum) : bool :=
  if String.eqb (cs_Type a) (cs_Type b) then String.ltb (cs_Checksum a) (cs_Checksum b)
  else String.ltb (cs_Type a) (cs_Type b).
Definition mergeChecksums (group : list ObjectRecord) : list Checksum :=
  sort_Slice checksum_less
    (dedup_on (λ c, cs_Type c +:+ "|" +:+ cs_Checksum c) (concat ((λ obj, slice (r_Checksums obj)) <$> group))).

Definition method_url (m : AccessMethod) : string :=
  match am_AccessUrl m with Some u => au_Url u | None => "" end.
Definition method_less (a b : AccessMethod) : bool :=
  if String.eqb (am_Type a) (am_Type b) then String.ltb (method_url a) (method_url b)
  else String.ltb (am_Type a) (am_Type b).
Section methods.
Context `{Digests}.
Definition with_stable_id (m : AccessMethod) : AccessMethod :=
  mkAccessMethod (Some (AccessMethodID (am_Type m) (method_url m))) (am_AccessUrl m) (am_Authorizations m)
    (am_Available m) (am_Cloud m) (am_Region m) (am_Type m).
Definition mergeAccessMethods (group : list ObjectRecord) : option (list AccessMethod) :=
  match with_stable_id <$> dedup_on (λ m, am_Type m +:+ "|" +:+ method_url m)
          (concat ((λ obj, slice (r_AccessMethods obj)) <$> group)) with
  | [] => None
  | methods => Some (sort_Slice method_less methods)
  end.
End methods.

Section access.
Context `{MapOrder}.
Definition mergeControlledAccess (group : list ObjectRecord) : list string * bool :=
  let resources := concat (AccessResources <$> group) in
  let inferred := existsb (λ obj, bool_decide (AccessResources obj = [])
                                  && (r_PublicRead obj || negb (r_PublicReadPolicyKnown obj))) group in
  (NormalizeAccessResources resources, inferred || existsb r_PublicRead group).
End access.

Definition mergeNameAliases (primary : option string) (group : list ObjectRecord) : list string :=
  NormalizeNameAliases (default "" primary)
    (concat ((λ obj, option_list (r_Name obj) ++ r_NameAliases obj) <$> group)).

(** The running choice of the value of the newest record that has one. *)
Definition pick_step {A B} (value : ObjectRecord → option B) (unset : A → bool) (inj : B → A)
    (s : A * Z * string) (obj : ObjectRecord) : A * Z * string :=
  let '(best, bestTime, bestID) := s in
  match value obj with
  | None => s
  | Some v =>
      let when := canonicalObjectSortTime obj in
      if unset best || (bestTime <? when)%Z || ((when =? bestTime)%Z && String.ltb bestID (r_Id obj))
      then (inj v, when, r_Id obj) else s
  end.
Definition pickLatestNonZeroSize (group : list ObjectRecord) (fallback : Z) : Z :=
  (foldl (pick_step (λ obj, if (r_Size obj <=? 0)%Z then None else Some (r_Size obj)) (λ best, (best <=? 0)%Z) id)
    (fallback, 0%Z, "") group).1.1.
Definition nonblank (value : option string) : option string :=
  match value with
  | Some v => if is_empty (TrimSpace v) then None else Some (TrimSpace v)
  | None => None
  end.
Definition pickLatestStringPtr (group : list ObjectRecord) (getter : ObjectRecord → option string)
    (fallback : option string) : option string :=
  (foldl (pick_step (λ obj, nonblank (getter obj)) (λ best, bool_decide (best = None)) Some)
    (fallback, 0%Z, "") group).1.1.

(** Trimmed, non-blank, without repetition, sorted. *)
Definition uniqueStrings (values : list string) : list string :=
  sort_Strings (dedup (filter (.≠ "") (TrimSpace <$> values))).
Definition mergeStringPointerValues (getter : ObjectRecord → list string) (group : list ObjectRecord)
  : option (list string) :=
  match uniqueStrings (concat (getter <$> group)) with [] => None | values => Some values end.

(** ** Collapsing a group *)
Definition oldest (first : ObjectRecord) (rest : list ObjectRecord) : ObjectRecord :=
  foldl (λ canonical obj, if canonicalObjectOlder obj canonical then obj else canonical) first rest.
Definition newest (first : ObjectRecord) (rest : list ObjectRecord) : ObjectRecord :=
  foldl (λ latest obj, if canonicalObjectNewer obj latest then obj else latest) first rest.

Section collapse.
Context `{MapOrder} `{Digests}.
Definition collapseCanonicalGroup (group : list ObjectRecord) : ObjectRecord :=
  match group with
  | [] => zero_record
  | first :: rest =>
      let canonical := oldest first rest in
      let latest := newest first rest in
      let merged := set_Name canonical (r_Name latest) in
      let merged := set_Size merged (pickLatestNonZeroSize group (r_Size canonical)) in
      let merged := set_Description merged (pickLatestStringPtr group r_Description (r_Description canonical)) in
      let merged := set_MimeType merged (pickLatestStringPtr group r_MimeType (r_MimeType canonical)) in
      let merged := set_Version merged (pickLatestStringPtr group r_Version (r_Version canonical)) in
      let merged := set_UpdatedTime merged (Some (canonicalObjectSortTime latest)) in
      let merged := set_Checksums merged (Some (mergeChecksums group)) in
      let merged := set_AccessMethods merged (mergeAccessMethods group) in
      let '(controlled, public) := mergeControlledAccess group in
      let merged := set_PublicRead merged public in
      let merged := if existsb r_PublicReadPolicyKnown group then set_PublicReadPolicyKnown merged true else merged in
      let merged := match controlled with
        | [] => set_Authorizations (set_ControlledAccess merged None) None
        | _ => set_Authorizations (set_ControlledAccess merged (Some controlled)) (ControlledAccessToAuthzMap controlled)
        end in
      let merged := set_NameAliases merged (mergeNameAliases (r_Name merged) group) in
      let merged := set_Aliases merged (mergeStringPointerValues (λ obj, slice (r_Aliases obj)) group) in
      set_SelfUri merged ("drs://" +:+ r_Id merged)
  end.

(** ** Grouping *)
(** The Go loop that fills [grouped], and the records without a key, in order. *)
Definition group_step (key : ObjectRecord → option string) (grouped : gmap string (list ObjectRecord))
    (obj : ObjectRecord) : gmap string (list ObjectRecord) :=
  match key obj with
  | Some k => <[k := default [] (grouped !! k) ++ [obj]]> grouped
  | None => grouped
  end.
Definition group_by (key : ObjectRecord → option string) (objects : list ObjectRecord)
  : gmap string (list ObjectRecord) := foldl (group_step key) ∅ objects.
Definition passthrough (key : ObjectRecord → option string) (objects : list ObjectRecord) : list ObjectRecord :=
  filter (λ obj, key obj = None) objects.

Definition projectScopeResources (obj : ObjectRecord) : list string :=
  NormalizeAccessResources (filter (λ r, project_scope r = true) (AccessResources obj)).
Definition canonicalProjectChecksumKey (forcedResource : string) (obj : ObjectRecord) : option string :=
  match CanonicalSHA256 (slice (r_Checksums obj)) with
  | None => None
  | Some sha =>
      if is_empty (TrimSpace sha) then None
      else
        let resource := TrimSpace forcedResource in
        if is_empty resource then
          match projectScopeResources obj with
          | [resource] => Some (resource +:+ "|" +:+ sha)
          | _ => None
          end
        else Some (resource +:+ "|" +:+ sha)
  end.
Definition scoped_less (a b : ObjectRecord) : bool :=
  if String.eqb (r_Id a) (r_Id b) then (canonicalObjectSortTime b <? canonicalObjectSortTime a)%Z
  else String.ltb (r_Id a) (r_Id b).
Definition canonicalizeProjectScopedObjects (objects : list ObjectRecord) (organization project : string)
  : list ObjectRecord :=
  match objects with
  | [] | [_] => objects
  | _ =>
      let organization := TrimSpace organization in
      let project := TrimSpace project in
      let forcedResource :=
        if negb (is_empty organization) && negb (is_empty project)
        then match ResourcePath organization project with Ok r => r | Err _ => "" end else "" in
      let key := canonicalProjectChecksumKey forcedResource in
      let grouped := group_by key objects in
      let keys := sort_Strings (fst <$> go_range grouped) in
      sort_Slice scoped_less
        (((λ k, collapseCanonicalGroup (default [] (grouped !! k))) <$> keys) ++ passthrough key objects)
  end.

Definition content_key (obj : ObjectRecord) : option string := CanonicalSHA256 (slice (r_Checksums obj)).
Definition canonicalizeContentObjects (objects : list ObjectRecord) : list ObjectRecord :=
  match objects with
  | [] | [_] => objects
  | _ =>
      sort_Slice (λ a b, String.ltb (r_Id a) (r_Id b))
        ((collapseCanonicalGroup <$> (snd <$> go_range (group_by content_key objects))) ++ passthrough content_key objects)
  end.

Definition objectsWithSHA256 (objects : list ObjectRecord) (checksum : string) : list ObjectRecord :=
  let target := NormalizeOid checksum in
  if is_empty target then objects else filter (λ obj, content_key obj = Some target) objects.
End collapse.

(** ** Orders on keys *)
(** Instants first, ids second. *)
Definition lexlt (a b : Z * string) : bool :=
  if negb (a.1 =? b.1)%Z then (a.1 <? b.1)%Z else String.ltb a.2 b.2.
Lemma lexlt_false a b : lexlt a b = false ↔ (b.1 < a.1)%Z ∨ a.1 = b.1 ∧ String.le b.2 a.2.
Proof.
  unfold lexlt. destruct (Z.eqb_spec a.1 b.1) as [E|E]; simpl.
  - rewrite ltb_leb, negb_false_iff, leb_le. intuition lia.
  - rewrite Z.ltb_ge. intuition lia.
Qed.
Lemma lexlt_irrefl a : lexlt a a = false.
Proof. apply lexlt_false. right. by split. Qed.
Lemma lexlt_asym a b : lexlt a b = true → lexlt b a = false.
Proof.
  intros Hab. destruct (lexlt b a) eqn:Hba; [|done]. revert Hab Hba. unfold lexlt. rewrite !ltb_leb.
  rewrite (Z.eqb_sym b.1 a.1). destruct (Z.eqb_spec a.1 b.1); simpl.
  - rewrite !negb_true_iff. destruct (String.leb_total a.2 b.2); congruence.
  - rewrite !Z.ltb_lt. lia.
Qed.
Lemma lexlt_neg_trans a b c : lexlt a b = false → lexlt b c = false → lexlt a c = false.
Proof.
  rewrite !lexlt_false. intros [H1|[E1 L1]] [H2|[E2 L2]]; [left; lia..|].
  right. split; [congruence|]. by etrans.
Qed.
Lemma lexlt_antisym a b : lexlt a b = false → lexlt b a = false → a = b.
Proof.
  rewrite !lexlt_false. destruct a as [t s], b as [t' s']. simpl. intros [H1|[E1 L1]] [H2|[E2 L2]]; [lia..|].
  subst. f_equal. by apply (anti_symm String.le).
Qed.

Definition created_key (obj : ObjectRecord) : Z * string := (r_CreatedTime obj, r_Id obj).
Definition updated_key (obj : ObjectRecord) : Z * string := (canonicalObjectSortTime obj, r_Id obj).
Lemma canonicalObjectOlder_key a b : canonicalObjectOlder a b = lexlt (created_key a) (created_key b).
Proof. done. Qed.
Lemma canonicalObjectNewer_key a b : canonicalObjectNewer a b = lexlt (updated_key b) (updated_key a).
Proof.
  unfold canonicalObjectNewer, lexlt. cbv zeta. simpl.
  by rewrite (Z.eqb_sym (canonicalObjectSortTime b) (canonicalObjectSortTime a)).
Qed.

(** ** The champion of a running choice *)
Section champion.
Context {A : Type} (better : A → A → bool).
Context (asym : ∀ a b, better a b = true → better b a = false).
Context (neg_trans : ∀ a b c, better a b = false → better b c = false → better a c = false).
Definition champion (first : A) (rest : list A) : A :=
  foldl (λ best x, if better x best then x else best) first rest.
Lemma champion_spec first rest :
  champion first rest ∈ first :: rest ∧ ∀ x, x ∈ first :: rest → better x (champion first rest) = false.
Proof.
  assert (∀ a, better a a = false) as irrefl.
  { intros a. destruct (better a a) eqn:E; [|done]. pose proof (asym _ _ E). congruence. }
  assert (∀ rest seen best, best ∈ seen → (∀ x, x ∈ seen → better x best = false) →
    champion best rest ∈ seen ++ rest ∧ ∀ x, x ∈ seen ++ rest → better x (champion best rest) = false) as Hgen.
  { clear first rest. induction rest as [|y rest IH]; intros seen best Hin Hbest; simpl.
    { rewrite app_nil_r. done. }
    rewrite cons_middle, (assoc_L (++)). apply IH.
    - destruct (better y best); set_solver.
    - intros x [Hx| ->%list_elem_of_singleton]%elem_of_app.
      + destruct (better y best) eqn:E; [|by apply Hbest].
        apply (neg_trans x best); [by apply Hbest|by apply asym].
      + destruct (better y best) eqn:E; [apply irrefl|done]. }
  apply (Hgen rest [first] first); [set_solver|]. intros x ->%list_elem_of_singleton. apply irrefl.
Qed.
End champion.

Lemma oldest_spec first rest :
  oldest first rest ∈ first :: rest ∧
  ∀ x, x ∈ first :: rest → lexlt (created_key x) (created_key (oldest first rest)) = false.
Proof.
  apply (champion_spec canonicalObjectOlder); intros *; rewrite !canonicalObjectOlder_key;
    [apply lexlt_asym|apply lexlt_neg_trans].
Qed.
Lemma newest_spec first rest :
  newest first rest ∈ first :: rest ∧
  ∀ x, x ∈ first :: rest → lexlt (updated_key (newest first rest)) (updated_key x) = false.
Proof.
  destruct (champion_spec canonicalObjectNewer) with (first := first) (rest := rest) as [Hin Hall].
  - intros a b. rewrite !canonicalObjectNewer_key. apply lexlt_asym.
  - intros a b c. rewrite !canonicalObjectNewer_key. intros H1 H2. by eapply lexlt_neg_trans.
  - split; [exact Hin|]. intros x Hx. rewrite <- canonicalObjectNewer_key. by apply Hall.
Qed.
Lemma NoDup_fmap_inj {A B} (f : A → B) (l : list A) x y : NoDup (f <$> l) → x ∈ l → y ∈ l → f x = f y → x = y.
Proof.
  intros Hnd Hx Hy Hf. apply list_elem_of_lookup in Hx as [i Hi], Hy as [j Hj].
  assert (i = j) as ->; [|congruence]. eapply (NoDup_lookup (f <$> l)); [done|rewrite list_lookup_fmap, Hi; done|].
  rewrite list_lookup_fmap, Hj. simpl. by rewrite Hf.
Qed.
Lemma newest_perm c cs c' cs' :
  c :: cs ≡ₚ c' :: cs' → NoDup (r_Id <$> c :: cs) → newest c cs = newest c' cs'.
Proof.
  intros Hp Hnd. destruct (newest_spec c cs) as [Hin1 H1], (newest_spec c' cs') as [Hin2 H2].
  rewrite <- Hp in Hin2. apply (NoDup_fmap_inj r_Id (c :: cs)); [done..|].
  assert (updated_key (newest c cs) = updated_key (newest c' cs')) as E; [|by injection E].
  apply lexlt_antisym; [by apply H1|]. apply H2. by rewrite <- Hp.
Qed.
Lemma oldest_perm c cs c' cs' :
  c :: cs ≡ₚ c' :: cs' → NoDup (r_Id <$> c :: cs) → oldest c cs = oldest c' cs'.
Proof.
  intros Hp Hnd. destruct (oldest_spec c cs) as [Hin1 H1], (oldest_spec c' cs') as [Hin2 H2].
  rewrite <- Hp in Hin2. apply (NoDup_fmap_inj r_Id (c :: cs)); [done..|].
  assert (created_key (oldest c cs) = created_key (oldest c' cs')) as E; [|by injection E].
  apply lexlt_antisym; [apply H2; by rewrite <- Hp|by apply H1].
Qed.

(** ** The newest value *)
Definition proper_record (obj : ObjectRecord) : Prop := (0 <= canonicalObjectSortTime obj)%Z ∧ r_Id obj ≠ "".
Definition newest_value {A B} (value : ObjectRecord → option B) (inj : B → A) (fallback : A) (l : list ObjectRecord) : A :=
  match filter (λ o, is_Some (value o)) l with
  | [] => fallback
  | c :: cs => from_option inj fallback (value (newest c cs))
  end.
Section pick.
Context {A B : Type} (value : ObjectRecord → option B) (unset : A → bool) (inj : B → A) (fallback : A).
Context (Hset : ∀ o v, value o = Some v → unset (inj v) = false).
Lemma pick_candidates l best t i :
  foldl (pick_step value unset inj) (best, t, i) l =
  foldl (pick_step value unset inj) (best, t, i) (filter (λ o, is_Some (value o)) l).
Proof.
  revert best t i. induction l as [|o l IH]; intros best t i; [done|]. rewrite filter_cons. case_decide as Hv.
  - cbn [foldl]. destruct (pick_step value unset inj (best, t, i) o) as [[b' t'] i']. apply IH.
  - cbn [foldl]. unfold pick_step at 2. assert (value o = None) as -> by (by apply eq_None_not_Some). apply IH.
Qed.
Lemma pick_running c cs v :
  value c = Some v → Forall (λ o, is_Some (value o)) cs →
  foldl (pick_step value unset inj) (inj v, canonicalObjectSortTime c, r_Id c) cs =
  (from_option inj fallback (value (newest c cs)), canonicalObjectSortTime (newest c cs), r_Id (newest c cs)).
Proof.
  revert c v. induction cs as [|o cs IH]; intros c v Hv Hcs; csimpl; [by rewrite Hv|].
  apply Forall_cons in Hcs as [[w Hw] Hcs]. rewrite Hw, (Hset c v Hv). simpl.
  assert ((canonicalObjectSortTime c <? canonicalObjectSortTime o)%Z ||
    ((canonicalObjectSortTime o =? canonicalObjectSortTime c)%Z && String.ltb (r_Id c) (r_Id o))
    = canonicalObjectNewer o c) as ->.
  { unfold canonicalObjectNewer. cbv zeta.
    destruct (Z.eqb_spec (canonicalObjectSortTime o) (canonicalObjectSortTime c)) as [->|]; simpl.
    - by rewrite Z.ltb_irrefl.
    - by rewrite orb_false_r. }
  destruct (canonicalObjectNewer o c); by apply IH.
Qed.
Lemma pick_newest l :
  Forall proper_record l →
  (foldl (pick_step value unset inj) (fallback, 0%Z, "") l).1.1 = newest_value value inj fallback l.
Proof.
  intros Hl. rewrite pick_candidates. unfold newest_value.
  assert (∀ o, o ∈ filter (λ o, is_Some (value o)) l → is_Some (value o) ∧ proper_record o) as Hf.
  { intros o [Ho Hin]%list_elem_of_filter. split; [done|]. rewrite Forall_forall in Hl. auto. }
  destruct (filter (λ o, is_Some (value o)) l) as [|c cs]; [done|]. csimpl.
  destruct (Hf c) as [[v Hv] [Hpos Hid]]; [set_solver|]. rewrite Hv.
  assert (unset fallback || (0 <? canonicalObjectSortTime c)%Z ||
    ((canonicalObjectSortTime c =? 0)%Z && String.ltb "" (r_Id c)) = true) as ->.
  { destruct (unset fallback); [done|]. destruct (Z.ltb_spec 0 (canonicalObjectSortTime c)); [done|]. simpl.
    assert (canonicalObjectSortTime c = 0%Z) as -> by lia. by destruct (r_Id c). }
  rewrite (pick_running c cs v Hv); [done|]. apply Forall_forall. intros o Ho. apply Hf. set_solver.
Qed.
End pick.
Lemma newest_value_perm {A B} (value : ObjectRecord → option B) (inj : B → A) fallback l l' :
  l ≡ₚ l' → NoDup (r_Id <$> l) → newest_value value inj fallback l = newest_value value inj fallback l'.
Proof.
  intros Hp Hnd. unfold newest_value.
  assert (filter (λ o, is_Some (value o)) l ≡ₚ filter (λ o, is_Some (value o)) l') as Hf by by rewrite Hp.
  assert (NoDup (r_Id <$> filter (λ o, is_Some (value o)) l)) as Hnd'.
  { eapply sublist_NoDup; [exact Hnd|]. apply fmap_sublist, sublist_filter. }
  destruct (filter _ l) as [|c cs], (filter _ l') as [|c' cs'].
  - done.
  - by apply Permutation_nil_l in Hf.
  - by apply Permutation_nil_r in Hf.
  - by rewrite (newest_perm c cs c' cs').
Qed.

(** ** Order independence of the parts *)
Lemma dedup_same_elements (l l' : list string) : (∀ s, s ∈ l ↔ s ∈ l') → dedup l ≡ₚ dedup l'.
Proof. intros Hs. apply NoDup_Permutation; [apply NoDup_dedup..|]. intros s. by rewrite !elem_of_dedup. Qed.
Lemma uniqueStrings_same l l' : (∀ s, s ∈ l ↔ s ∈ l') → uniqueStrings l = uniqueStrings l'.
Proof.
  intros Hs. unfold uniqueStrings. apply sort_Strings_proper, dedup_same_elements. intros s.
  rewrite !list_elem_of_filter, !list_elem_of_fmap. by setoid_rewrite Hs.
Qed.
Lemma NormalizeNameAliases_same primary l l' :
  (∀ s, s ∈ l ↔ s ∈ l') → NormalizeNameAliases primary l = NormalizeNameAliases primary l'.
Proof.
  intros Hs. unfold NormalizeNameAliases. apply sort_Strings_proper, dedup_same_elements. intros s.
  rewrite !list_elem_of_filter, !list_elem_of_fmap. by setoid_rewrite Hs.
Qed.
Lemma elem_of_concat_fmap {A B} (f : A → list B) l x : x ∈ concat (f <$> l) ↔ ∃ a, a ∈ l ∧ x ∈ f a.
Proof.
  rewrite elem_of_concat. setoid_rewrite list_elem_of_fmap. split.
  - intros (? & (a & -> & ?) & ?). eauto.
  - intros (a & ? & ?). eauto.
Qed.
Lemma concat_fmap_perm {A B} (f : A → list B) l l' x : l ≡ₚ l' → x ∈ concat (f <$> l) ↔ x ∈ concat (f <$> l').
Proof. intros Hp. rewrite !elem_of_concat_fmap. by setoid_rewrite Hp. Qed.
Lemma existsb_perm {A} (f : A → bool) l l' : l ≡ₚ l' → existsb f l = existsb f l'.
Proof.
  intros Hp. apply eq_iff_eq_true. rewrite !existsb_exists. setoid_rewrite <- list_elem_of_In.
  by setoid_rewrite Hp.
Qed.

Section properties.
Context `{MapOrder} `{Digests}.

(** The fields of a collapsed group, each from the part that decides it. *)
Lemma collapse_fields first rest :
  let group := first :: rest in
  let a := collapseCanonicalGroup group in
  let canonical := oldest first rest in
  let latest := newest first rest in
  r_Id a = r_Id canonical ∧ r_CreatedTime a = r_CreatedTime canonical ∧
  r_SelfUri a = "drs://" +:+ r_Id canonical ∧ r_Name a = r_Name latest ∧
  r_UpdatedTime a = Some (canonicalObjectSortTime latest) ∧
  r_Size a = pickLatestNonZeroSize group (r_Size canonical) ∧
  r_Description a = pickLatestStringPtr group r_Description (r_Description canonical) ∧
  r_MimeType a = pickLatestStringPtr group r_MimeType (r_MimeType canonical) ∧
  r_Version a = pickLatestStringPtr group r_Version (r_Version canonical) ∧
  r_NameAliases a = mergeNameAliases (r_Name latest) group ∧
  r_Aliases a = mergeStringPointerValues (λ obj, slice (r_Aliases obj)) group ∧
  r_PublicRead a = (mergeControlledAccess group).2 ∧
  slice (r_ControlledAccess a) = (mergeControlledAccess group).1 ∧
  r_Checksums a = Some (mergeChecksums group) ∧ r_AccessMethods a = mergeAccessMethods group.
Proof.
  cbv zeta. unfold collapseCanonicalGroup. destruct (mergeControlledAccess (first :: rest)) as [controlled public].
  cbv zeta. destruct (existsb r_PublicReadPolicyKnown (first :: rest)), controlled; simpl; done.
Qed.

Lemma mergeControlledAccess_perm group group' :
  group ≡ₚ group' →
  (∀ r, r ∈ (mergeControlledAccess group).1 ↔ r ∈ (mergeControlledAccess group').1) ∧
  (mergeControlledAccess group).2 = (mergeControlledAccess group').2.
Proof.
  intros Hp. unfold mergeControlledAccess. simpl. split.
  - intros r. rewrite !elem_of_NormalizeAccessResources. setoid_rewrite (concat_fmap_perm AccessResources _ _ _ Hp). done.
  - by rewrite !(existsb_perm _ _ _ Hp).
Qed.

(** Collapsing the replicas of one content is deterministic: whatever the order in which distinct
    records (with real times) come, the result has the same id, creation time, self URI, name, update
    time, size, description, MIME type, version, name aliases, aliases, public flag and grants. *)
Theorem collapse_order_independent group group' :
  group ≡ₚ group' → NoDup (r_Id <$> group) → Forall proper_record group →
  let a := collapseCanonicalGroup group in
  let b := collapseCanonicalGroup group' in
  r_Id a = r_Id b ∧ r_CreatedTime a = r_CreatedTime b ∧ r_SelfUri a = r_SelfUri b ∧ r_Name a = r_Name b ∧
  r_UpdatedTime a = r_UpdatedTime b ∧ r_Size a = r_Size b ∧ r_Description a = r_Description b ∧
  r_MimeType a = r_MimeType b ∧ r_Version a = r_Version b ∧ r_NameAliases a = r_NameAliases b ∧
  r_Aliases a = r_Aliases b ∧ r_PublicRead a = r_PublicRead b ∧
  (∀ r, r ∈ slice (r_ControlledAccess a) ↔ r ∈ slice (r_ControlledAccess b)).
Proof.
  intros Hp Hnd Hproper. assert (Forall proper_record group') as Hproper' by by rewrite <- Hp.
  destruct group as [|f rest], group' as [|f' rest'].
  { done. } { by apply Permutation_nil_l in Hp. } { by apply Permutation_nil_r in Hp. }
  cbv zeta.
  destruct (collapse_fields f rest) as (->&->&->&->&->&->&->&->&->&->&->&->&->&_).
  destruct (collapse_fields f' rest') as (->&->&->&->&->&->&->&->&->&->&->&->&->&_).
  rewrite (oldest_perm f rest f' rest' Hp Hnd), (newest_perm f rest f' rest' Hp Hnd).
  destruct (mergeControlledAccess_perm _ _ Hp) as [Hca ->].
  assert (∀ getter fb, pickLatestStringPtr (f :: rest) getter fb = pickLatestStringPtr (f' :: rest') getter fb) as Hstr.
  { intros getter fb. unfold pickLatestStringPtr. rewrite !pick_newest by done. by apply newest_value_perm. }
  rewrite !Hstr. split_and!; try done.
  - unfold pickLatestNonZeroSize. rewrite !pick_newest; [by apply newest_value_perm|..];
      try done; intros o v; destruct (Z.leb_spec (r_Size o) 0); intros [= <-]; apply Z.leb_gt; simpl; lia.
  - unfold mergeNameAliases. apply NormalizeNameAliases_same. intros s. by apply concat_fmap_perm.
  - unfold mergeStringPointerValues.
    rewrite (uniqueStrings_same _ (concat ((λ obj, slice (r_Aliases obj)) <$> f' :: rest'))); [done|].
    intros s. by apply concat_fmap_perm.
Qed.

(** The presentation of a group: its identity and creation time are those of a record older than
    every other one, its name and update time those of a record newer than every other one, every
    checksum of a record is represented by one of the same type and value, and its grants are those of
    its records. *)
Theorem collapse_presentation group :
  group ≠ [] →
  let a := collapseCanonicalGroup group in
  ∃ c n, c ∈ group ∧ n ∈ group ∧
    r_Id a = r_Id c ∧ r_CreatedTime a = r_CreatedTime c ∧ r_SelfUri a = "drs://" +:+ r_Id c ∧
    (∀ o, o ∈ group → canonicalObjectOlder o c = false) ∧
    r_Name a = r_Name n ∧ r_UpdatedTime a = Some (canonicalObjectSortTime n) ∧
    (∀ o, o ∈ group → canonicalObjectNewer o n = false) ∧
    (∀ o k, o ∈ group → k ∈ slice (r_Checksums o) →
       ∃ k', k' ∈ slice (r_Checksums a) ∧ cs_Type k' +:+ "|" +:+ cs_Checksum k' = cs_Type k +:+ "|" +:+ cs_Checksum k) ∧
    (∀ r, r ∈ slice (r_ControlledAccess a) ↔
       r ∈ NormalizeAccessResources (concat (AccessResources <$> group))).
Proof.
  destruct group as [|f rest]; [done|]. intros _. cbv zeta.
  destruct (collapse_fields f rest) as (E1&E2&E3&E4&E5&_&_&_&_&_&_&_&E13&E14&_).
  destruct (oldest_spec f rest) as [Hc Hold], (newest_spec f rest) as [Hn Hnew].
  exists (oldest f rest), (newest f rest). split_and!; try done.
  - intros o Ho. rewrite canonicalObjectNewer_key. by apply Hnew.
  - intros o k Ho Hk. rewrite E14. cbn [default from_option]. unfold mergeChecksums.
    destruct (dedup_on_complete (λ c, cs_Type c +:+ "|" +:+ cs_Checksum c)
      (concat ((λ obj, slice (r_Checksums obj)) <$> f :: rest)) k) as (k' & Hk' & E).
    { apply elem_of_concat_fmap. eauto. }
    exists k'. split; [|done]. by rewrite sort_Slice_Permutation.
  - intros r. by rewrite E13.
Qed.

Lemma group_by_fold_lookup key m l k :
  foldl (group_step key) m l !! k =
  match m !! k, filter (λ o, key o = Some k) l with
  | None, [] => None
  | old, new => Some (default [] old ++ new)
  end.
Proof.
  revert m. induction l as [|o l IH]; intros m; csimpl.
  { destruct (m !! k); simpl; [by rewrite app_nil_r|done]. }
  rewrite IH, filter_cons. clear IH. unfold group_step. destruct (key o) as [k'|] eqn:Ek.
  - destruct (decide (k' = k)) as [->|Hne].
    + rewrite lookup_insert_eq, decide_True by done.
      destruct (m !! k); simpl; rewrite <- ?(assoc_L (++)); done.
    + rewrite lookup_insert_ne by done. rewrite decide_False by naive_solver. done.
  - by rewrite decide_False by done.
Qed.
Lemma group_by_lookup key l k g :
  group_by key l !! k = Some g ↔ g = filter (λ o, key o = Some k) l ∧ g ≠ [].
Proof.
  unfold group_by. rewrite group_by_fold_lookup, lookup_empty.
  destruct (filter _ l) as [|o os]; simpl; naive_solver.
Qed.

(** Canonicalising content gives one record per identifier and keeps the records that have none: up to
    order, it is the collapse of the records of each identifier that occurs, together with the records
    without an identifier; the iteration order of the map of groups plays no part. *)
Theorem canonicalizeContentObjects_spec objects :
  2 ≤ length objects →
  canonicalizeContentObjects objects ≡ₚ
    ((λ sha, collapseCanonicalGroup (filter (λ o, content_key o = Some sha) objects)) <$> dedup (omap content_key objects))
    ++ filter (λ o, content_key o = None) objects.
Proof.
  intros Hl. unfold canonicalizeContentObjects. destruct objects as [|o1 [|o2 os]]; simpl in Hl; [lia..|].
  set (objects := o1 :: o2 :: os) in *. rewrite sort_Slice_Permutation. apply Permutation_app; [|done].
  set (m := group_by content_key objects).
  assert ((λ sha, filter (λ o, content_key o = Some sha) objects) <$> dedup (omap content_key objects) ≡ₚ snd <$> go_range m) as Hp.
  { assert (go_range m ≡ₚ (λ sha, (sha, filter (λ o, content_key o = Some sha) objects)) <$> dedup (omap content_key objects)) as ->.
    { apply NoDup_Permutation.
      - eapply NoDup_fmap_1, NoDup_fst_go_range.
      - eapply (NoDup_fmap_1 fst). rewrite <- list_fmap_compose. simpl. rewrite list_fmap_id. apply NoDup_dedup.
      - intros [sha g]. rewrite elem_of_go_range, list_elem_of_fmap. subst m. rewrite group_by_lookup. split.
        + intros [-> Hne]. exists sha. split; [done|]. apply elem_of_dedup, list_elem_of_omap.
          destruct (filter _ objects) as [|o l] eqn:Ef; [done|]. exists o.
          assert (o ∈ filter (λ o, content_key o = Some sha) objects) as [??]%list_elem_of_filter
            by (rewrite Ef; set_solver). done.
        + intros (sha' & [= -> ->] & Hin). split; [done|].
          apply elem_of_dedup, list_elem_of_omap in Hin as (o & Hin & Hk). intros Hnil.
          assert (o ∈ filter (λ o, content_key o = Some sha') objects) as Ho by by apply list_elem_of_filter.
          rewrite Hnil in Ho. set_solver. }
    by rewrite <- list_fmap_compose. }
  rewrite <- Hp, <- list_fmap_compose. done.
Qed.
End properties.

(** ** Concrete groups *)
#[local] Existing Instance canonical_order.
#[local] Instance sample_digests : Digests := {| sha256_hex := λ s, s; uuid_NewSHA1 := λ s, s |}.
Definition replica (id : string) (created : Z) (updated : option Z) (name : string) (size : Z) : ObjectRecord :=
  mkRecord id None None None (Some [mkChecksum "sha256" "00112233445566778899aabbccddeeff00112233445566778899aabbccddeeff"])
    None (Some ["/organization/ohsu/project/p1"]) created None None (Some name) [] None "" false true "" size updated None.
Definition replicas : list ObjectRecord := [replica "b" 5 (Some 9%Z) "new.txt" 0; replica "a" 5 None "old.txt" 12].

Lemma collapse_order_independent_witness :
  r_Size (collapseCanonicalGroup replicas) = r_Size (collapseCanonicalGroup (reverse replicas)) ∧
  r_Id (collapseCanonicalGroup replicas) = "a" ∧ r_Name (collapseCanonicalGroup replicas) = Some "new.txt".
Proof.
  split; [|by vm_compute]. apply collapse_order_independent; [by rewrite reverse_Permutation| |].
  - by apply (bool_decide_unpack _); vm_compute.
  - repeat constructor; vm_compute; done.
Defined.
Lemma collapse_presentation_witness :
  ∃ c, c ∈ replicas ∧ r_Id (collapseCanonicalGroup replicas) = r_Id c.
Proof.
  destruct (collapse_presentation replicas ltac:(done)) as (c & n & Hc & _ & Hid & _). exists c. split; [exact Hc|exact Hid].
Defined.
Lemma canonicalizeContentObjects_spec_witness :
  length (canonicalizeContentObjects (replica "c" 1 None "c" 0 :: replicas)) = 1.
Proof.
  etrans; [apply Permutation_length, canonicalizeContentObjects_spec; simpl; lia|]. by vm_compute.
Defined.
