(* ===== verification/Records.v ===== *)
(** * The record service: internal/objects/records
    Lookup, access checks, registration, update, bulk overwrite, deletion and duplicate collapse over the
    repository ports of ports.go.  A port is an operation on an abstract store state; a service method is a
    function from a state to the new state and a value or an error. *)
From S2P Require Import Prelude GoStrings GoURL Errors Resources Policy Objects Canonical.

(** ** ports.go *)
Class RecordPorts (S : Type) := {
  port_GetObject : context → string → S → result error ObjectRecord;
  port_GetBulkObjects : context → list string → S → result error (list ObjectRecord);
  port_DeleteObject : context → string → service S unit;
  port_CreateObject : context → ObjectRecord → service S unit;
  port_BulkDeleteObjects : context → list string → service S unit;
  port_RegisterObjects : context → list ObjectRecord → service S unit;
  port_ReplaceObjects : context → list ObjectRecord → service S unit;
  port_UpdateObjectAccessMethods : context → string → list AccessMethod → service S unit;
  port_BulkUpdateAccessMethods : context → gmap string (list AccessMethod) → service S unit;
  port_RemoveObjectControlledAccess : context → string → string → service S unit;
  port_RemoveObjectControlledAccessBulk : context → list string → string → service S nat;
  port_DeleteObjectAlias : context → string → service S unit;
  port_CreateObjectAlias : context → string → string → service S unit;
  port_ResolveObjectAlias : context → string → S → result error string;
  port_GetObjectsByChecksum : context → string → S → result error (list ObjectRecord);
  port_GetObjectsByChecksums : context → list string → S → result error (gmap string (list ObjectRecord));
  port_ListScopedObjectIDsByChecksums :
    context → string → string → list string → S → result error (gmap string (list string));
  port_ListObjectIDsByScope : context → string → string → S → result error (list string);
  (** The queries a repository may have: by resources, by page, by URL, and with authorization. *)
  port_ListObjectIDsByResources : option (context → list string → bool → S → result error (list string));
  port_ListObjectIDsPageByScope :
    option (context → string → string → string → Z → Z → S → result error (list string));
  port_ListObjectIDsPageByURL :
    option (context → string → string → string → string → Z → Z → list string → bool → bool → S →
            result error (list string));
  port_ListObjectIDsByScopeAndResources :
    option (context → string → string → list string → bool → S → result error (list string));
  port_ListObjectIDsByChecksumsAndResources :
    option (context → list string → list string → bool → bool → S → result error (gmap string (list string))) }.

(** ** access_policy.go: the checks *)
Definition objectMethodRead := "read".
Definition objectMethodCreate := "create".
Definition objectMethodUpdate := "update".
Definition objectMethodDelete := "delete".
Definition maxDeniedAccessResources : nat := 25.

Section checks.
Context `{MapOrder}.

Definition hasObjectMethod (ctx : context) (obj : ObjectRecord) (method : string) : bool :=
  let method := TrimSpace method in
  if is_empty method then true
  else if EqualFold method objectMethodRead && r_PublicRead obj then true
  else if EqualFold method objectMethodRead && r_PublicReadPolicyKnown obj && bool_decide (AccessResources obj = [])
  then false
  else HasObjectMethodAccess ctx method (AccessResources obj).
Definition requireObjectMethod (ctx : context) (obj : ObjectRecord) (method : string) : result error unit :=
  if hasObjectMethod ctx obj method then Ok tt else Err (EDef ErrAccessDenied).
Definition requireAllObjectMethod (ctx : context) (obj : ObjectRecord) (method : string) : result error unit :=
  let resources := AccessResources obj in
  if (if decide (resources = []) then HasObjectMethodAccess ctx method resources
      else HasMethodAccess ctx method resources)
  then Ok tt else Err (EDef ErrAccessDenied).
Definition RequireObjectResources (ctx : context) (method : string) (resources : list string) : result error unit :=
  if is_empty (TrimSpace method) then Ok tt
  else if HasObjectMethodAccess ctx method resources then Ok tt else Err (EDef ErrAccessDenied).
Definition requireScopeMethod (ctx : context) (organization project method : string) : result error unit :=
  resource ← ResourcePath organization project;
  if is_empty (TrimSpace resource) then Err (EDef ErrAccessDenied)
  else if HasObjectMethodAccess ctx method [resource] then Ok tt else Err (EDef ErrAccessDenied).
Definition filterObjectsByMethod (ctx : context) (objects : list ObjectRecord) (method : string) : list ObjectRecord :=
  if is_empty (TrimSpace method) then objects else filter (λ obj, hasObjectMethod ctx obj method = true) objects.

Definition bulkObjectMethodError (ctx : context) (objs : list ObjectRecord) (method : string)
  : option AuthorizationError :=
  match filter (λ obj, hasObjectMethod ctx obj method = false) objs with
  | [] => None
  | denied =>
      let firstDeniedID := default "" (head (filter (.≠ "") (r_Id <$> denied))) in
      let resourceList := sort_Strings (dedup (filter (λ r, TrimSpace r ≠ "") (concat (AccessResources <$> denied)))) in
      Some (mkAuthorizationError method firstDeniedID (take maxDeniedAccessResources resourceList)
        (length denied) (length objs) (length resourceList - maxDeniedAccessResources))
  end.
Definition method_error (ctx : context) (objs : list ObjectRecord) (method : string) : result error unit :=
  match bulkObjectMethodError ctx objs method with None => Ok tt | Some a => Err (EAuthorization a) end.

Definition objectMethodResourceFilter (ctx : context) (method : string) : list string * bool * bool :=
  let method := TrimSpace method in
  if is_empty method || negb (IsAuthzEnforced ctx) then ([], true, false)
  else if IsGen3Mode ctx && negb (HasAuthHeader ctx) then ([], false, true)
  else if HasMethodAccess ctx method ["/programs"] || HasMethodAccess ctx method ["/data_file"]
  then ([], EqualFold method objectMethodRead, false)
  else (AuthorizedResources ctx method, EqualFold method objectMethodRead, true).
End checks.

Definition containsResource (resources : list string) (target : string) : bool :=
  existsb (λ r, String.eqb (TrimSpace r) target) resources.

(** ** lookup.go *)
Record CanonicalContent := mkCanonicalContent {
  cc_ContentID : string; cc_Record : ObjectRecord; cc_Records : list ObjectRecord }.

Section service.
Context `{MapOrder} `{Digests} {S : Type} `{!RecordPorts S}.

(** Turns a not-found error of a port into [None]. *)
Definition optional {A} (r : result error A) : result error (option A) :=
  match r with
  | Ok a => Ok (Some a)
  | Err e => if IsNotFoundError e then Ok None else Err e
  end.

Definition canonicalContentForChecksum (ctx : context) (checksum method : string) (s : S)
  : result error (option CanonicalContent) :=
  physical ← port_GetObjectsByChecksum ctx checksum s;
  let physical := objectsWithSHA256 physical checksum in
  match physical, canonicalizeContentObjects physical with
  | _ :: _, record :: _ =>
      _ ← requireObjectMethod ctx record method;
      Ok (Some (mkCanonicalContent checksum record physical))
  | _, _ => Ok None
  end.
Definition lookupObjectByID (ctx : context) (ident : string) (s : S) : result error (option ObjectRecord) :=
  optional (port_GetObject ctx ident s).
Definition lookupObjectByAlias (ctx : context) (ident : string) (s : S) : result error (option ObjectRecord) :=
  canonicalID ← optional (port_ResolveObjectAlias ctx ident s);
  match canonicalID with
  | None => Ok None
  | Some canonicalID =>
      if is_empty (TrimSpace canonicalID) then Ok None else optional (port_GetObject ctx canonicalID s)
  end.
(** [GetObjectsByChecksum] of the query service (listing.go) *)
Definition GetObjectsByChecksum (ctx : context) (checksum requiredMethod : string) (s : S)
  : result error (list ObjectRecord) :=
  objects ← port_GetObjectsByChecksum ctx checksum s;
  Ok (filterObjectsByMethod ctx (canonicalizeContentObjects (objectsWithSHA256 objects checksum)) requiredMethod).
Definition lookupObjectByChecksum (ctx : context) (ident requiredMethod : string) (s : S)
  : result error (option ObjectRecord) :=
  byChecksum ← GetObjectsByChecksum ctx ident requiredMethod s;
  match byChecksum with
  | obj :: _ => Ok (Some obj)
  | [] =>
      if is_empty (TrimSpace requiredMethod) then Ok None
      else
        allMatches ← GetObjectsByChecksum ctx ident "" s;
        match allMatches with [] => Ok None | _ => Err (EDef ErrAccessDenied) end
  end.
Definition canonicalContentForObject (ctx : context) (obj : ObjectRecord) (s : S) : result error CanonicalContent :=
  match CanonicalSHA256 (slice (r_Checksums obj)) with
  | None => Ok (mkCanonicalContent "" obj [obj])
  | Some sha =>
      siblings ← port_GetObjectsByChecksum ctx sha s;
      let physical := objectsWithSHA256 siblings sha in
      match canonicalizeContentObjects physical with
      | [] => Err (EDef ErrObjectNotFound)
      | record :: _ => Ok (mkCanonicalContent sha record physical)
      end
  end.
Definition canonicalContentAndCheckAccess (ctx : context) (obj : ObjectRecord) (method : string) (s : S)
  : result error CanonicalContent :=
  view ← canonicalContentForObject ctx obj s;
  _ ← requireObjectMethod ctx (cc_Record view) method;
  Ok view.
Definition GetCanonicalContent (ctx : context) (ident requiredMethod : string) (s : S) : result error CanonicalContent :=
  if is_empty (TrimSpace ident) then Err (EDef ErrObjectNotFound)
  else
    let checksum := NormalizeSHA256Query ident in
    byContent ← match checksum with
      | Some checksum => canonicalContentForChecksum ctx checksum requiredMethod s
      | None => Ok None
      end;
    match byContent with
    | Some view => Ok view
    | None =>
        byID ← lookupObjectByID ctx ident s;
        match byID with
        | Some obj => canonicalContentAndCheckAccess ctx obj requiredMethod s
        | None =>
            byAlias ← lookupObjectByAlias ctx ident s;
            match byAlias with
            | Some obj => canonicalContentAndCheckAccess ctx obj requiredMethod s
            | None =>
                byChecksum ← match checksum with
                  | None => lookupObjectByChecksum ctx ident requiredMethod s
                  | Some _ => Ok None
                  end;
                match byChecksum with
                | Some obj => canonicalContentAndCheckAccess ctx obj requiredMethod s
                | None => Err (EDef ErrObjectNotFound)
                end
            end
        end
    end.
Definition GetObject (ctx : context) (ident requiredMethod : string) (s : S) : result error ObjectRecord :=
  cc_Record <$> GetCanonicalContent ctx ident requiredMethod s.
End service.
