(* ===== verification/RecordMutations.v ===== *)
(** * Mutations of the record service: registration.go, update.go, aliases.go, access_policy.go,
    deletion.go, bulk_overwrite.go and the duplicate collapse of canonicalization.go
    (internal/objects/records).  Each method is a function of the store state; the reads it makes
    before its write see the state it started from. *)
From S2P Require Import Prelude GoStrings GoURL Errors Resources Policy Objects Canonical Records.

(** [for _, a := range l { if err := f(a); err != nil { return err } }] *)
Fixpoint service_each {S A} (f : A → service S unit) (l : list A) : service S unit :=
  match l with
  | [] => mret tt
  | a :: l => _ ← f a; service_each f l
  end.

(** [byID[obj.Id] = obj] over a list: the last record with an id stays. *)
Definition index_by_id (objects : list ObjectRecord) : gmap string ObjectRecord :=
  foldl (λ byID obj, <[r_Id obj := obj]> byID) ∅ objects.

Record DeleteOptions := mkDeleteOptions { DeleteStorageData : bool }.
Record BulkOverwriteResult := mkBulkOverwriteResult {
  Created : nat; Replaced : nat; DIDMatched : nat; ChecksumMatched : nat }.
Definition no_overwrite : BulkOverwriteResult := mkBulkOverwriteResult 0 0 0 0.

(** Trimmed, non-blank, without repetition, sorted. *)
Definition uniqueOverwriteStrings (values : list string) : list string :=
  sort_Strings (dedup (filter (.≠ "") (TrimSpace <$> values))).

Section mutations.
Context `{MapOrder} `{Digests} {S : Type} `{!RecordPorts S}.

(** ** registration.go *)
Definition validateExistingContentRead (ctx : context) (objs : list ObjectRecord) (s : S) : result error unit :=
  foldlM (λ _ sha,
    existing ← port_GetObjectsByChecksum ctx sha s;
    if forallb (λ e, r_PublicRead e || hasObjectMethod ctx e objectMethodRead) existing
    then Ok tt else Err (EDef ErrAccessDenied))
    tt (dedup (filter (.≠ "") (omap content_key objs))).
Definition RegisterObjects (ctx : context) (objs : list ObjectRecord) : service S unit :=
  _ ← ask (validateExistingContentRead ctx objs);
  _ ← check (method_error ctx objs objectMethodCreate);
  port_RegisterObjects ctx objs.

(** ** update.go *)
Definition UpdateRecord (ctx : context) (id : string) (update : ObjectRecord) (explicitSize : option Z) (now : Z)
  : service S ObjectRecord :=
  existing ← ask (GetObject ctx id objectMethodUpdate);
  _ ← check (match explicitSize with
             | Some size => if (size =? r_Size existing)%Z then Ok tt else Err (EDef ErrObjectSizeImmutable)
             | None => Ok tt
             end);
  _ ← check (match content_key update, content_key existing with
             | Some incoming, Some stored =>
                 if String.eqb incoming stored then Ok tt else Err (EDef ErrObjectChecksumImmutable)
             | _, _ => Ok tt
             end);
  let merged := MergeRecordUpdate existing update id now in
  _ ← port_ReplaceObjects ctx [merged];
  mret merged.
Definition ReplaceObjects (ctx : context) (objs : list ObjectRecord) : service S unit := port_ReplaceObjects ctx objs.

(** ** aliases.go *)
Definition CreateObjectAlias (ctx : context) (aliasID canonicalID : string) : service S unit :=
  obj ← ask (port_GetObject ctx canonicalID);
  _ ← check (requireObjectMethod ctx obj objectMethodUpdate);
  port_CreateObjectAlias ctx aliasID canonicalID.

(** ** access_policy.go *)
Definition UpdateObjectAccessMethods (ctx : context) (objectID : string) (accessMethods : list AccessMethod)
  : service S unit :=
  obj ← ask (port_GetObject ctx objectID);
  _ ← check (requireAllObjectMethod ctx obj objectMethodUpdate);
  port_UpdateObjectAccessMethods ctx objectID accessMethods.
Definition BulkUpdateAccessMethods (ctx : context) (updates : gmap string (list AccessMethod)) : service S unit :=
  if decide (updates = ∅) then mret tt
  else
    let ids := (go_range updates).*1 in
    objects ← ask (port_GetBulkObjects ctx ids);
    let byID := index_by_id objects in
    _ ← check (foldlM (λ _ objectID,
          match byID !! objectID with
          | None => Err (EDef ErrObjectNotFound)
          | Some obj => requireAllObjectMethod ctx obj objectMethodUpdate
          end) tt ids);
    port_BulkUpdateAccessMethods ctx updates.
Definition RemoveObjectControlledAccess (ctx : context) (objectID resource : string) : service S ObjectRecord :=
  obj ← ask (port_GetObject ctx objectID);
  _ ← check (requireObjectMethod ctx obj objectMethodUpdate);
  match NormalizeAccessResources [resource] with
  | [] => fail (EText "resource is required")
  | resource :: _ =>
      if containsResource (AccessResources obj) resource
      then
        _ ← port_RemoveObjectControlledAccess ctx objectID resource;
        ask (port_GetObject ctx objectID)
      else fail (EDef ErrObjectNotFound)
  end.

(** ** deletion.go *)
Definition atomic_conflict : error :=
  EWrap "%w: physical storage deletion is not atomic with catalog mutation" (EDef ErrConflict).

Definition deletableObjectIDsForMethod (ctx : context) (ids : list string) (requireAll : bool) (s : S)
  : result error (list string) :=
  objects ← port_GetBulkObjects ctx ids s;
  Ok (r_Id <$> filter (λ obj, negb requireAll || is_ok (requireAllObjectMethod ctx obj objectMethodDelete) = true)
                 (filterObjectsByMethod ctx objects objectMethodDelete)).
Definition DeleteBulkByScope (ctx : context) (organization project : string) : service S nat :=
  _ ← check (requireScopeMethod ctx organization project objectMethodDelete);
  ids ← ask (port_ListObjectIDsByScope ctx organization project);
  ids ← ask (λ s,
    match port_ListObjectIDsByScopeAndResources with
    | Some lister =>
        let '(resources, _, restrictToResources) := objectMethodResourceFilter ctx objectMethodDelete in
        match lister ctx organization project resources restrictToResources s with
        | Ok optimized => Ok optimized
        | Err _ => Ok ids
        end
    | None => Ok ids
    end);
  toDelete ← ask (deletableObjectIDsForMethod ctx ids false);
  match toDelete with
  | [] => mret 0
  | _ =>
      resource ← check (ResourcePath organization project);
      port_RemoveObjectControlledAccessBulk ctx toDelete resource
  end.

Definition DeleteObjectWithOptions (ctx : context) (id : string) (opts : DeleteOptions) : service S unit :=
  if DeleteStorageData opts then fail atomic_conflict
  else
    obj ← ask (port_GetObject ctx id);
    _ ← check (requireAllObjectMethod ctx obj objectMethodDelete);
    if DeleteStorageData opts && (r_PublicRead obj || negb (bool_decide (AccessResources obj = [])))
    then fail (EWrap "%w: cannot delete shared content storage without exclusive ownership" (EDef ErrConflict))
    else port_DeleteObject ctx id.
Definition DeleteObject (ctx : context) (id : string) : service S unit :=
  DeleteObjectWithOptions ctx id (mkDeleteOptions false).

(** One requested id; the accumulator is [toDelete], whose elements are the keys of [seen]. *)
Definition deletable_step (ctx : context) (byID : gmap string ObjectRecord) (s : S) (toDelete : list string)
    (rawID : string) : result error (list string) :=
  let objectID := TrimSpace rawID in
  if is_empty objectID then Ok toDelete
  else match byID !! objectID with
       | None =>
           match port_ResolveObjectAlias ctx objectID s with
           | Ok canonicalID =>
               if is_empty (TrimSpace canonicalID) then Ok toDelete
               else Err (EWrap "%w: bulk delete requires a physical object UUID; %q is an alias for %q" (EDef ErrConflict))
           | Err e => if errors_Is e ErrNotFound then Ok toDelete else Err e
           end
       | Some obj =>
           if hasObjectMethod ctx obj objectMethodDelete
              && is_ok (requireAllObjectMethod ctx obj objectMethodDelete)
              && negb (bool_decide (objectID ∈ toDelete))
           then Ok (toDelete ++ [objectID]) else Ok toDelete
       end.
Definition deletablePhysicalObjectIDsForBulk (ctx : context) (ids : list string) (s : S)
  : result error (list string) :=
  objects ← port_GetBulkObjects ctx ids s;
  foldlM (deletable_step ctx (index_by_id objects) s) [] ids.
Definition BulkDeleteObjectsWithOptions (ctx : context) (ids : list string) (opts : DeleteOptions) : service S unit :=
  if DeleteStorageData opts then fail atomic_conflict
  else
    toDelete ← ask (deletablePhysicalObjectIDsForBulk ctx ids);
    match toDelete with
    | [] => mret tt
    | _ => port_BulkDeleteObjects ctx toDelete
    end.
Definition BulkDeleteObjects (ctx : context) (ids : list string) : service S unit :=
  BulkDeleteObjectsWithOptions ctx ids (mkDeleteOptions false).

(** Deletes the ids, unless there are none, and answers how many there were. *)
Definition delete_counted (ctx : context) (ids : list string) : service S nat :=
  match ids with
  | [] => mret 0
  | _ => _ ← port_BulkDeleteObjects ctx ids; mret (length ids)
  end.
Definition mayDelete (ctx : context) (obj : ObjectRecord) : bool :=
  hasObjectMethod ctx obj objectMethodDelete && is_ok (requireAllObjectMethod ctx obj objectMethodDelete).
Definition delete_by_scan (ctx : context) (hashes : list string) : service S nat :=
  objectsByChecksum ← ask (port_GetObjectsByChecksums ctx hashes);
  let matches := concat ((λ hash, default [] (objectsByChecksum !! hash)) <$> hashes) in
  delete_counted ctx (r_Id <$> dedup_on r_Id (filter (λ obj, mayDelete ctx obj = true) matches)).
Definition DeleteObjectsByChecksums (ctx : context) (hashes : list string) : service S nat :=
  match port_ListObjectIDsByChecksumsAndResources with
  | None => delete_by_scan ctx hashes
  | Some lister =>
      let '(resources, includeUnscoped, restrictToResources) := objectMethodResourceFilter ctx objectMethodDelete in
      byChecksum ← ask (λ s, Ok (lister ctx hashes resources includeUnscoped restrictToResources s));
      match byChecksum with
      | Err _ => delete_by_scan ctx hashes
      | Ok byChecksum =>
          match dedup (concat ((λ hash, default [] (byChecksum !! hash)) <$> hashes)) with
          | [] => mret 0
          | toDelete =>
              objects ← ask (port_GetBulkObjects ctx toDelete);
              delete_counted ctx
                (r_Id <$> filter (λ obj, is_ok (requireAllObjectMethod ctx obj objectMethodDelete) = true) objects)
          end
      end
  end.

(** ** bulk_overwrite.go *)
Definition overwrite_conflict (format : string) : error := EWrap format (EDef ErrBulkOverwriteConflict).

(** First loop: distinct non-blank dids inside the project; their SHA-256 values are collected. *)
Definition overwrite_check (resource : string) (st : gmap string nat * list string) (e : nat * ObjectRecord)
  : result error (gmap string nat * list string) :=
  let '(byDID, hashes) := st in
  let '(i, candidate) := e in
  let did := TrimSpace (r_Id candidate) in
  if is_empty did then Err (EText "record[%d]: did is required")
  else if bool_decide (is_Some (byDID !! did)) then Err (overwrite_conflict "%w: duplicate source did %q")
  else if containsResource (AccessResources candidate) resource
  then Ok (<[did := i]> byDID, hashes ++ option_list (content_key candidate))
  else Err (EText "record %q must include target project %s").

(** Where a candidate goes: the did it addresses, or the only record of the scope with its content. *)
Inductive overwrite_match := MatchNone | MatchDID | MatchChecksum (target : string).
Definition overwrite_target (ctx : context) (resource : string) (existing : gmap string ObjectRecord)
    (checksumMatches : gmap string (list string)) (s : S) (candidate : ObjectRecord)
  : result error overwrite_match :=
  let sourceDID := r_Id candidate in
  _ ← match port_ResolveObjectAlias ctx sourceDID s with
      | Ok canonicalID =>
          if String.eqb canonicalID sourceDID then Ok tt
          else Err (overwrite_conflict "%w: target DID %q is an alias for %q")
      | Err e => if IsNotFoundError e then Ok tt else Err e
      end;
  match existing !! sourceDID with
  | Some current =>
      if containsResource (AccessResources current) resource then Ok MatchDID
      else Err (overwrite_conflict "%w: target DID %q is outside project %s")
  | None =>
      match content_key candidate with
      | None => Ok MatchNone
      | Some sha =>
          match uniqueOverwriteStrings (default [] (checksumMatches !! sha)) with
          | [] => Ok MatchNone
          | [target] => Ok (MatchChecksum target)
          | _ => Err (overwrite_conflict "%w: target project already has multiple records for sha256 %q: %s")
          end
      end
  end.
Definition matched_did (m : overwrite_match) (sourceDID : string) : string :=
  match m with MatchChecksum target => target | _ => sourceDID end.
Definition is_matched (m : overwrite_match) : bool := match m with MatchNone => false | _ => true end.
Definition count_match (m : overwrite_match) (r : BulkOverwriteResult) : BulkOverwriteResult :=
  match m with
  | MatchNone => mkBulkOverwriteResult (Datatypes.S (Created r)) (Replaced r) (DIDMatched r) (ChecksumMatched r)
  | MatchDID => mkBulkOverwriteResult (Created r) (Datatypes.S (Replaced r)) (Datatypes.S (DIDMatched r)) (ChecksumMatched r)
  | MatchChecksum _ =>
      mkBulkOverwriteResult (Created r) (Datatypes.S (Replaced r)) (DIDMatched r) (Datatypes.S (ChecksumMatched r))
  end.
(** The permissions a match needs: on the project, on the stored record it replaces, on the new record. *)
Definition overwrite_allowed (ctx : context) (resource : string) (existing : gmap string ObjectRecord)
    (m : overwrite_match) (targetDID : string) (candidate : ObjectRecord) : result error unit :=
  let method := if is_matched m then objectMethodUpdate else objectMethodCreate in
  _ ← RequireObjectResources ctx method [resource];
  _ ← (if is_matched m
       then requireAllObjectMethod ctx (default zero_record (existing !! targetDID)) objectMethodUpdate
       else Ok tt);
  if hasObjectMethod ctx candidate method then Ok tt else Err (EDef ErrAccessDenied).

(** Second loop: the state is [resolved], [usedTargets] and the counters. *)
Definition overwrite_step (ctx : context) (resource : string) (existing : gmap string ObjectRecord)
    (checksumMatches : gmap string (list string)) (s : S)
    (st : list ObjectRecord * gmap string string * BulkOverwriteResult) (candidate : ObjectRecord)
  : result error (list ObjectRecord * gmap string string * BulkOverwriteResult) :=
  let '(resolved, usedTargets, counts) := st in
  let sourceDID := r_Id candidate in
  m ← overwrite_target ctx resource existing checksumMatches s candidate;
  let targetDID := matched_did m sourceDID in
  if bool_decide (is_Some (usedTargets !! targetDID))
  then Err (overwrite_conflict "%w: source records %q and %q resolve to target DID %q")
  else
    let candidate := set_SelfUri (set_Id candidate targetDID) ("drs://" +:+ targetDID) in
    _ ← overwrite_allowed ctx resource existing m targetDID candidate;
    Ok (resolved ++ [candidate], <[targetDID := sourceDID]> usedTargets, count_match m counts).

Definition overwrite_plan (ctx : context) (organization project : string) (candidates : list ObjectRecord) (s : S)
  : result error (list ObjectRecord * BulkOverwriteResult) :=
  resource ← ResourcePath organization project;
  checked ← foldlM (overwrite_check resource) (∅, []) (imap pair candidates);
  let '(byDID, hashes) := checked in
  checksumMatches ← port_ListScopedObjectIDsByChecksums ctx organization project (uniqueOverwriteStrings hashes) s;
  let ids := (go_range byDID).*1 ++ concat ((go_range checksumMatches).*2) in
  existingList ← port_GetBulkObjects ctx (uniqueOverwriteStrings ids) s;
  let existing := index_by_id existingList in
  planned ← foldlM (overwrite_step ctx resource existing checksumMatches s) ([], ∅, no_overwrite) candidates;
  let '(resolved, _, counts) := planned in
  Ok (resolved, counts).
Definition BulkOverwriteObjects (ctx : context) (organization project : string) (candidates : list ObjectRecord)
  : service S BulkOverwriteResult :=
  match candidates with
  | [] => mret no_overwrite
  | _ =>
      planned ← ask (overwrite_plan ctx organization project candidates);
      let '(resolved, counts) := planned in
      _ ← port_RegisterObjects ctx resolved;
      mret counts
  end.

(** ** CollapseProjectChecksumDuplicates (canonicalization.go) *)
(** The replicas of each project and checksum, in key order. *)
Definition duplicate_groups (objects : list ObjectRecord) : list (list ObjectRecord) :=
  let grouped := group_by (canonicalProjectChecksumKey "") objects in
  let keys := sort_Strings (filter (λ e : string * list ObjectRecord, 2 <= length e.2) (go_range grouped)).*1 in
  (λ key, default [] (grouped !! key)) <$> keys.
(** The ids a group gives up, each with the id that stays. *)
Definition superseded (group : list ObjectRecord) : list (string * string) :=
  let canonical := r_Id (collapseCanonicalGroup group) in
  (λ obj, (r_Id obj, canonical)) <$> filter (λ obj, r_Id obj ≠ canonical) group.
Definition CollapseProjectChecksumDuplicates (ctx : context) (organization project : string) : service S nat :=
  ids ← ask (port_ListObjectIDsByScope ctx organization project);
  objects ← ask (port_GetBulkObjects ctx ids);
  _ ← check (method_error ctx objects objectMethodUpdate);
  let groups := duplicate_groups objects in
  let aliases := concat (superseded <$> groups) in
  let aliasMap := foldl (λ m e, <[e.1 := e.2]> m) (∅ : gmap string string) aliases in
  match collapseCanonicalGroup <$> groups with
  | [] => mret 0
  | merged =>
      _ ← port_RegisterObjects ctx merged;
      _ ← service_each (λ e, port_CreateObjectAlias ctx e.1 e.2) (go_range aliasMap);
      _ ← port_BulkDeleteObjects ctx (uniqueStrings aliases.*1);
      mret (size aliasMap)
  end.
End mutations.
