(* ===== verification/RecordProperties.v ===== *)
(** * What the record service guarantees
    Theorems about the methods of Records.v and RecordMutations.v, for every implementation of the ports.
    The witnesses run the methods on small stores. *)
From S2P Require Import Prelude GoStrings GoURL Errors Resources Policy Objects Canonical Records RecordMutations.

(** ** Running a method step by step *)
Section service_rules.
Context {S : Type}.
(** A read or a check that fails ends the method where it started. *)
Lemma ask_bind {A B} (g : S → result error A) (f : A → service S B) s :
  (ask g ≫= f) s = match g s with Ok a => f a s | Err e => (s, Err e) end.
Proof. unfold mbind, service_bind, ask. by destruct (g s). Qed.
Lemma check_bind {A B} (r : result error A) (f : A → service S B) s :
  (check r ≫= f) s = match r with Ok a => f a s | Err e => (s, Err e) end.
Proof. by destruct r. Qed.

(** The run of [m] from [s] leaves the store as it was, or performs one of the writes of [W]. *)
Definition writes_only {A} (W : service S A → Prop) (run : S * result error A) (s : S) : Prop :=
  (run.1 = s) ∨ ∃ w, W w ∧ run = w s.
End service_rules.

(** ** Lookup *)
Section lookup.
Context `{MapOrder} `{Digests} {S : Type} `{!RecordPorts S}.

Lemma requireObjectMethod_Ok ctx obj method u :
  requireObjectMethod ctx obj method = Ok u ↔ hasObjectMethod ctx obj method = true.
Proof. unfold requireObjectMethod. destruct u. by destruct (hasObjectMethod _ _ _). Qed.

(** What a view must satisfy: the caller has the method on the presented record, and the records listed
    beside it are exactly the content it names. *)
Definition sound_view (ctx : context) (method : string) (view : CanonicalContent) : Prop :=
  hasObjectMethod ctx (cc_Record view) method = true ∧
  (cc_ContentID view = "" → cc_Records view = [cc_Record view] ∧ content_key (cc_Record view) = None) ∧
  (cc_ContentID view ≠ "" →
     valid_oid (cc_ContentID view) ∧ cc_Records view ≠ [] ∧
     ∀ r, r ∈ cc_Records view → content_key r = Some (cc_ContentID view)).

Lemma objectsWithSHA256_valid objects sha r :
  valid_oid sha → r ∈ objectsWithSHA256 objects sha → content_key r = Some sha.
Proof.
  intros Hv. unfold objectsWithSHA256. rewrite NormalizeOid_id by done. cbv zeta.
  rewrite valid_oid_not_empty by done. by intros [? _]%list_elem_of_filter.
Qed.
Lemma canonicalizeContentObjects_nil : canonicalizeContentObjects [] = [].
Proof. done. Qed.
Lemma NormalizeSHA256Query_valid ident sha : NormalizeSHA256Query ident = Some sha → valid_oid sha.
Proof.
  unfold NormalizeSHA256Query. destruct (is_empty (NormalizeOid ident)) eqn:E; [done|].
  intros [= <-]. by apply NormalizeOid_valid, is_empty_false.
Qed.

Lemma canonicalContentForChecksum_sound ctx ident sha method s view :
  NormalizeSHA256Query ident = Some sha →
  canonicalContentForChecksum ctx sha method s = Ok (Some view) → sound_view ctx method view.
Proof.
  intros Hv%NormalizeSHA256Query_valid. unfold canonicalContentForChecksum.
  rewrite bind_Ok. intros (physical & _ & Hr). cbv zeta in Hr.
  destruct (objectsWithSHA256 physical sha) as [|p ps] eqn:Ep; [done|].
  destruct (canonicalizeContentObjects (p :: ps)) as [|record ?]; [done|].
  apply bind_Ok in Hr as (u & Hu%requireObjectMethod_Ok & [= <-]).
  split; [done|]. simpl. split; intros Hsha.
  - rewrite Hsha in Hv. by destruct Hv.
  - split_and!; [done..|]. intros r Hin. rewrite <- Ep in Hin. by eapply objectsWithSHA256_valid.
Qed.
Lemma canonicalContentAndCheckAccess_sound ctx obj method s view :
  canonicalContentAndCheckAccess ctx obj method s = Ok view → sound_view ctx method view.
Proof.
  unfold canonicalContentAndCheckAccess. rewrite bind_Ok. intros (view' & Hc & Hr).
  apply bind_Ok in Hr as (u & Hu%requireObjectMethod_Ok & [= <-]). split; [done|]. clear Hu.
  unfold canonicalContentForObject in Hc. fold (content_key obj) in Hc.
  destruct (content_key obj) as [sha|] eqn:Ek.
  - apply bind_Ok in Hc as (siblings & _ & Hc). cbv zeta in Hc.
    assert (valid_oid sha) as Hv by (eapply CanonicalSHA256_valid, Ek).
    destruct (objectsWithSHA256 siblings sha) as [|p ps] eqn:Ep; [done|].
    destruct (canonicalizeContentObjects _) as [|record ?]; [done|]. injection Hc as <-. simpl. split; intros Hsha.
    + rewrite Hsha in Hv. by destruct Hv.
    + split_and!; [done..|]. intros r Hin. rewrite <- Ep in Hin. by eapply objectsWithSHA256_valid.
  - injection Hc as <-. by split.
Qed.

Lemma GetCanonicalContent_view ctx ident method s view :
  GetCanonicalContent ctx ident method s = Ok view → sound_view ctx method view.
Proof.
  unfold GetCanonicalContent. destruct (is_empty _); [done|]. cbv zeta. rewrite bind_Ok.
  intros (byContent & Hbc & Hrest). destruct byContent as [v|].
  { injection Hrest as <-. destruct (NormalizeSHA256Query ident) eqn:E; [|done].
    by eapply canonicalContentForChecksum_sound. }
  apply bind_Ok in Hrest as ([obj|] & _ & Hrest); [by eapply canonicalContentAndCheckAccess_sound|].
  apply bind_Ok in Hrest as ([obj|] & _ & Hrest); [by eapply canonicalContentAndCheckAccess_sound|].
  apply bind_Ok in Hrest as ([obj|] & _ & Hrest); [by eapply canonicalContentAndCheckAccess_sound|done].
Qed.
Lemma GetObject_authorised ctx ident method s obj :
  GetObject ctx ident method s = Ok obj → hasObjectMethod ctx obj method = true.
Proof.
  unfold GetObject. destruct (GetCanonicalContent ctx ident method s) as [view|] eqn:E; [|done].
  intros [= <-]. by apply GetCanonicalContent_view in E as [? _].
Qed.

End lookup.

(** ** The report of a denied batch *)
Section batch.
Context `{MapOrder}.
Definition denied_records (ctx : context) (objs : list ObjectRecord) (method : string) : list ObjectRecord :=
  filter (λ obj, hasObjectMethod ctx obj method = false) objs.
Lemma elem_of_denied_records ctx objs method obj :
  obj ∈ denied_records ctx objs method ↔ obj ∈ objs ∧ hasObjectMethod ctx obj method = false.
Proof. unfold denied_records. rewrite list_elem_of_filter. tauto. Qed.

(** A batch passes exactly when the caller has the method on each record of it.  Otherwise the report
    counts the denied records, names at most 25 scopes, in order and each once, all of them scopes of
    denied records, and the truncation count accounts for the scopes it leaves out. *)
Theorem bulkObjectMethodError_spec ctx objs method :
  match bulkObjectMethodError ctx objs method with
  | None => ∀ obj, obj ∈ objs → hasObjectMethod ctx obj method = true
  | Some e =>
      0 < ae_DeniedRecords e ≤ ae_TotalRecords e ∧ ae_TotalRecords e = length objs ∧
      ae_DeniedRecords e = length (denied_records ctx objs method) ∧
      length (ae_Resources e) ≤ 25 ∧ NoDup (ae_Resources e) ∧
      (∀ r, r ∈ ae_Resources e →
         TrimSpace r ≠ "" ∧ ∃ obj, obj ∈ denied_records ctx objs method ∧ r ∈ AccessResources obj) ∧
      ∃ omitted, ae_TruncatedResources e = length omitted ∧ (omitted ≠ [] → length (ae_Resources e) = 25) ∧
        StronglySorted String.le (ae_Resources e ++ omitted) ∧ NoDup (ae_Resources e ++ omitted) ∧
        ∀ obj r, obj ∈ denied_records ctx objs method → r ∈ AccessResources obj → TrimSpace r ≠ "" →
          r ∈ ae_Resources e ++ omitted
  end.
Proof.
  unfold bulkObjectMethodError. fold (denied_records ctx objs method).
  destruct (denied_records ctx objs method) as [|d ds] eqn:Ed.
  { intros obj Hin. destruct (hasObjectMethod ctx obj method) eqn:E; [done|]. exfalso.
    assert (obj ∈ denied_records ctx objs method) as Hd by by apply elem_of_denied_records.
    rewrite Ed in Hd. set_solver. }
  set (denied := d :: ds) in *. cbv zeta.
  cbn [ae_DeniedRecords ae_TotalRecords ae_Resources ae_TruncatedResources]. unfold maxDeniedAccessResources.
  set (l := sort_Strings (dedup (filter (λ r, TrimSpace r ≠ "") (concat (AccessResources <$> denied))))).
  assert (NoDup l) as Hnd by (unfold l; auto using NoDup_sort_Strings, NoDup_dedup).
  assert (∀ r, r ∈ l ↔ TrimSpace r ≠ "" ∧ ∃ obj, obj ∈ denied ∧ r ∈ AccessResources obj) as Hl.
  { intros r. unfold l. rewrite elem_of_sort_Strings, elem_of_dedup, list_elem_of_filter.
    by rewrite elem_of_concat_fmap. }
  assert (length denied ≤ length objs) as Hle.
  { rewrite <- Ed. unfold denied_records. apply length_filter. }
  rewrite length_take. split_and!; [simpl; lia|done|done|done|lia| | |].
  - eapply sublist_NoDup; [exact Hnd|]. apply sublist_take.
  - intros r Hr. apply Hl. apply elem_of_take in Hr as (i & Hi & _). by eapply list_elem_of_lookup_2.
  - exists (drop 25 l). rewrite take_drop, length_drop. split_and!; [done| |apply sort_Strings_sorted|exact Hnd|].
    + intros Hne. assert (25 < length l); [|lia].
      destruct (decide (25 < length l)); [done|]. by rewrite drop_ge in Hne by lia.
    + intros obj r ???. apply Hl. eauto.
Qed.
End batch.

(** ** Deletion *)
Section deletion.
Context `{MapOrder} `{Digests} {S : Type} `{!RecordPorts S}.

Lemma index_by_id_go (m : gmap string ObjectRecord) objects id obj :
  foldl (λ byID obj, <[r_Id obj := obj]> byID) m objects !! id = Some obj →
  m !! id = Some obj ∨ obj ∈ objects ∧ r_Id obj = id.
Proof.
  revert m. induction objects as [|o os IH]; intros m; simpl; [by left|].
  intros [Hm|[??]]%IH; [|right; split; [by right|done]].
  destruct (decide (r_Id o = id)) as [<-|Hne].
  - rewrite lookup_insert_eq in Hm. injection Hm as <-. right. split; [by left|done].
  - rewrite lookup_insert_ne in Hm by done. by left.
Qed.
Lemma index_by_id_Some objects id obj :
  index_by_id objects !! id = Some obj → obj ∈ objects ∧ r_Id obj = id.
Proof. intros [Hm|?]%index_by_id_go; [by rewrite lookup_empty in Hm|done]. Qed.

(** The requested ids that name a physical record the caller may delete. *)
Definition chosen_for_deletion (ctx : context) (byID : gmap string ObjectRecord) (ids : list string) (id : string) : Prop :=
  id ≠ "" ∧ id ∈ TrimSpace <$> ids ∧ ∃ obj, byID !! id = Some obj ∧ mayDelete ctx obj = true.
(** The requested ids that are an alias of something. *)
Definition requested_alias (ctx : context) (byID : gmap string ObjectRecord) (s : S) (ids : list string) : Prop :=
  ∃ id target, id ∈ TrimSpace <$> ids ∧ id ≠ "" ∧ byID !! id = None ∧
    port_ResolveObjectAlias ctx id s = Ok target ∧ TrimSpace target ≠ "".

Lemma fmap_singleton (raw id : string) : id ∈ TrimSpace <$> [raw] ↔ id = TrimSpace raw.
Proof. apply list_elem_of_singleton. Qed.
Lemma not_requested_alias ctx byID s raw :
  (∀ t, TrimSpace raw ≠ "" → byID !! TrimSpace raw = None →
        port_ResolveObjectAlias ctx (TrimSpace raw) s = Ok t → TrimSpace t = "") →
  ¬ requested_alias ctx byID s [raw].
Proof. intros Hno (id & t & ->%fmap_singleton & Hne & Hb & Hr & Ht). by apply Ht, (Hno t). Qed.
Lemma keeps_chosen ctx byID (acc : list string) raw :
  (∀ obj, TrimSpace raw ≠ "" → byID !! TrimSpace raw = Some obj → mayDelete ctx obj = true → TrimSpace raw ∈ acc) →
  ∀ id : string, id ∈ acc ↔ id ∈ acc ∨ chosen_for_deletion ctx byID [raw] id.
Proof.
  intros Hin id. split; [by left|]. intros [?|(Hne & ->%fmap_singleton & obj & ? & ?)]; [done|]. by apply (Hin obj).
Qed.

Lemma deletable_step_spec ctx byID s acc raw acc' :
  deletable_step ctx byID s acc raw = Ok acc' →
  ¬ requested_alias ctx byID s [raw] ∧
  (acc' = acc ∨ ((TrimSpace raw ∉ acc) ∧ acc' = acc ++ [TrimSpace raw])) ∧
  (∀ id, id ∈ acc' ↔ id ∈ acc ∨ chosen_for_deletion ctx byID [raw] id).
Proof.
  unfold deletable_step. cbv zeta. destruct (is_empty (TrimSpace raw)) eqn:Ee.
  { apply is_empty_spec in Ee. intros [= <-]. split_and!; [|by left|].
    - apply not_requested_alias. congruence.
    - apply keeps_chosen. congruence. }
  apply is_empty_false in Ee. destruct (byID !! TrimSpace raw) as [obj|] eqn:Eb.
  - intros Hstep. split; [apply not_requested_alias; congruence|].
    change (hasObjectMethod ctx obj objectMethodDelete && _) with (mayDelete ctx obj) in Hstep.
    destruct (mayDelete ctx obj) eqn:Ed; cbn in Hstep; [case_bool_decide as Hin; cbn in Hstep|];
      injection Hstep as <-.
    + split; [by left|]. by apply keeps_chosen.
    + split; [by right|]. intros id. rewrite elem_of_app, list_elem_of_singleton. split.
      * intros [Hid|Hid]; [by left|right]. subst id. split_and!; [exact Ee|by apply fmap_singleton|by exists obj].
      * intros [?|(_ & ?%fmap_singleton & _)]; [by left|by right].
    + split; [by left|]. apply keeps_chosen. congruence.
  - destruct (port_ResolveObjectAlias ctx (TrimSpace raw) s) as [c|e] eqn:Er.
    + destruct (is_empty (TrimSpace c)) eqn:Ec; [|done]. apply is_empty_spec in Ec. intros [= <-].
      split_and!; [apply not_requested_alias|by left|apply keeps_chosen]; congruence.
    + destruct (errors_Is e ErrNotFound); [|done]. intros [= <-].
      split_and!; [apply not_requested_alias|by left|apply keeps_chosen]; congruence.
Qed.

Lemma chosen_app ctx byID l1 l2 id :
  chosen_for_deletion ctx byID (l1 ++ l2) id ↔
  chosen_for_deletion ctx byID l1 id ∨ chosen_for_deletion ctx byID l2 id.
Proof. unfold chosen_for_deletion. rewrite fmap_app, elem_of_app. tauto. Qed.
Lemma requested_alias_app ctx byID s l1 l2 :
  requested_alias ctx byID s (l1 ++ l2) → requested_alias ctx byID s l1 ∨ requested_alias ctx byID s l2.
Proof.
  intros (id & t & Hin & Hrest). rewrite fmap_app, elem_of_app in Hin.
  destruct Hin; [left|right]; exists id, t; done.
Qed.

Lemma deletable_spec ctx byID s ids chosen :
  foldlM (deletable_step ctx byID s) [] ids = Ok chosen →
  ¬ requested_alias ctx byID s ids ∧ NoDup chosen ∧ ∀ id, id ∈ chosen ↔ chosen_for_deletion ctx byID ids id.
Proof.
  apply (foldlM_inv_prefix _ (λ seen acc, ¬ requested_alias ctx byID s seen ∧ NoDup acc ∧
    ∀ id, id ∈ acc ↔ chosen_for_deletion ctx byID seen id)).
  - split_and!; [|constructor|].
    + intros (id & t & Hin & _). by apply elem_of_nil in Hin.
    + intros id. unfold chosen_for_deletion. simpl. rewrite !elem_of_nil. tauto.
  - intros seen raw acc acc' (Hal & Hnd & Hacc) (Hal' & Hacc' & Hmem)%deletable_step_spec. split_and!.
    + by intros [?|?]%requested_alias_app.
    + destruct Hacc' as [->|[Hnin ->]]; [done|]. apply NoDup_app. split_and!; [done| |apply NoDup_singleton].
      intros id Hid ->%list_elem_of_singleton. done.
    + intros id. by rewrite chosen_app, Hmem, Hacc.
Qed.

(** A bulk deletion removes, in one write, exactly the requested ids that name a physical record on which
    the caller has the delete permission for each of its scopes, each once; blank, unknown and
    unauthorised ids are passed over, and the request fails without a write when it names an alias or asks
    for the removal of stored bytes. *)
Theorem BulkDeleteObjects_exact ctx ids opts s :
  let run := BulkDeleteObjectsWithOptions ctx ids opts s in
  (∃ e, run = (s, Err e)) ∨
  DeleteStorageData opts = false ∧ ∃ objects, port_GetBulkObjects ctx ids s = Ok objects ∧
    ¬ requested_alias ctx (index_by_id objects) s ids ∧
    ∃ chosen, NoDup chosen ∧ (∀ id, id ∈ chosen ↔ chosen_for_deletion ctx (index_by_id objects) ids id) ∧
      run = match chosen with [] => (s, Ok tt) | _ => port_BulkDeleteObjects ctx chosen s end.
Proof.
  cbv zeta. unfold BulkDeleteObjectsWithOptions. destruct (DeleteStorageData opts); [left; by eexists|].
  rewrite ask_bind. destruct (deletablePhysicalObjectIDsForBulk ctx ids s) as [chosen|e] eqn:Ed; [|left; by eexists].
  right. split; [done|]. unfold deletablePhysicalObjectIDsForBulk in Ed.
  apply bind_Ok in Ed as (objects & Ho & Hf). exists objects. split; [done|].
  apply deletable_spec in Hf as (? & ? & ?). split; [done|]. exists chosen. split_and!; [done..|]. by destruct chosen.
Qed.

(** The records a deletion by checksum may take: read from the store, and the caller may delete them. *)
Definition found_deletable (ctx : context) (hashes : list string) (s : S) (id : string) : Prop :=
  ∃ obj, r_Id obj = id ∧ requireAllObjectMethod ctx obj objectMethodDelete = Ok tt ∧
    ((∃ m hash l, port_GetObjectsByChecksums ctx hashes s = Ok m ∧ hash ∈ hashes ∧ m !! hash = Some l ∧ obj ∈ l ∧
        hasObjectMethod ctx obj objectMethodDelete = true) ∨
     (∃ lister m ids l, port_ListObjectIDsByChecksumsAndResources = Some lister ∧
        (let '(resources, includeUnscoped, restrict) := objectMethodResourceFilter ctx objectMethodDelete in
         lister ctx hashes resources includeUnscoped restrict s = Ok m) ∧
        (∀ id, id ∈ ids → ∃ hash found, hash ∈ hashes ∧ m !! hash = Some found ∧ id ∈ found) ∧
        port_GetBulkObjects ctx ids s = Ok l ∧ obj ∈ l)).

Lemma requireAll_ok ctx obj method :
  is_ok (requireAllObjectMethod ctx obj method) = true → requireAllObjectMethod ctx obj method = Ok tt.
Proof. by destruct (requireAllObjectMethod ctx obj method) as [[]|]. Qed.
Lemma mayDelete_spec ctx obj :
  mayDelete ctx obj = true →
  hasObjectMethod ctx obj objectMethodDelete = true ∧ requireAllObjectMethod ctx obj objectMethodDelete = Ok tt.
Proof. intros [? ?%requireAll_ok]%andb_true_iff. done. Qed.

Lemma elem_of_concat_default (m : gmap string (list string)) hashes id :
  id ∈ concat ((λ hash, default [] (m !! hash)) <$> hashes) →
  ∃ hash found, hash ∈ hashes ∧ m !! hash = Some found ∧ id ∈ found.
Proof.
  intros (hash & Hin & Hid)%elem_of_concat_fmap. destruct (m !! hash) as [l|] eqn:E; simpl in Hid; [|set_solver].
  by exists hash, l.
Qed.
(** What a run of [delete_counted] on authorised ids may do. *)
Definition counted_deletion (ctx : context) (hashes : list string) (s : S) (run : S * result error nat) : Prop :=
  run.1 = s ∨
  ∃ chosen, chosen ≠ [] ∧ (∀ id, id ∈ chosen → found_deletable ctx hashes s id) ∧
    run = (let '(s', r) := port_BulkDeleteObjects ctx chosen s in (s', _ ← r; Ok (length chosen))).
Lemma delete_counted_spec ctx hashes s ids :
  (∀ id, id ∈ ids → found_deletable ctx hashes s id) → counted_deletion ctx hashes s (delete_counted ctx ids s).
Proof.
  intros Hids. destruct ids as [|id ids]; [by left|]. right. exists (id :: ids). split_and!; [done..|].
  simpl. unfold mbind at 1, service_bind. by destruct (port_BulkDeleteObjects _ _ _) as [s' [u|e]].
Qed.

Lemma delete_by_scan_spec ctx hashes s : counted_deletion ctx hashes s (delete_by_scan ctx hashes s).
Proof.
  unfold delete_by_scan. rewrite ask_bind. destruct (port_GetObjectsByChecksums ctx hashes s) as [m|e] eqn:Em; [|by left].
  cbv zeta. apply delete_counted_spec. intros id (obj & -> & Hin)%list_elem_of_fmap.
  apply elem_of_dedup_on in Hin. apply list_elem_of_filter in Hin as [[? ?]%mayDelete_spec Hin].
  apply elem_of_concat_fmap in Hin as (hash & Hh & Hobj).
  destruct (m !! hash) as [l|] eqn:El; simpl in Hobj; [|set_solver].
  exists obj. split_and!; [done..|]. left. exists m, hash, l. split_and!; assumption.
Qed.

(** Deletion by checksum, with or without the repository's filtered query: either the store is untouched,
    or one write removes ids of records found under the given checksums on whose every scope the caller has
    the delete permission, and the answer is their number. *)
Theorem DeleteObjectsByChecksums_safe ctx hashes s :
  counted_deletion ctx hashes s (DeleteObjectsByChecksums ctx hashes s).
Proof.
  unfold DeleteObjectsByChecksums.
  destruct port_ListObjectIDsByChecksumsAndResources as [lister|] eqn:El; [|apply delete_by_scan_spec].
  destruct (objectMethodResourceFilter ctx objectMethodDelete) as [[resources unscoped] restrict] eqn:Ef.
  rewrite ask_bind. destruct (lister _ _ _ _ _ _) as [m|e] eqn:Em; [|apply delete_by_scan_spec].
  destruct (dedup _) as [|id ids] eqn:Ed; [by left|]. rewrite ask_bind.
  destruct (port_GetBulkObjects ctx (id :: ids) s) as [l|e] eqn:Eb; [|by left].
  apply delete_counted_spec. intros x (obj & -> & [Hok%requireAll_ok Hin]%list_elem_of_filter)%list_elem_of_fmap.
  exists obj. split_and!; [done..|]. right. exists lister, m, (id :: ids), l. rewrite Ef. split_and!; [done..| |done|done].
  intros y Hy. rewrite <- Ed in Hy. apply elem_of_concat_default. by apply elem_of_dedup_on in Hy.
Qed.
End deletion.
