(* ===== verification/RecordUpdateProperties.v ===== *)
(** * What the record service guarantees: updates, bulk overwrite, collapse of duplicates
    Continues RecordProperties.v for the methods that rewrite records. *)
From S2P Require Import Prelude GoStrings GoURL Errors Resources Policy Objects Canonical Records RecordMutations RecordProperties.

(** ** Update *)
Section update.
Context `{MapOrder} `{Digests} {S : Type} `{!RecordPorts S}.

Lemma MergeRecordUpdate_fixed existing update id now :
  let merged := MergeRecordUpdate existing update id now in
  r_Id merged = id ∧ r_Size merged = r_Size existing ∧ r_CreatedTime merged = r_CreatedTime existing ∧
  r_UpdatedTime merged = Some now ∧ r_PublicRead merged = r_PublicRead existing ∧
  r_Checksums merged = match r_Checksums update with
                       | Some l => Some (MergeAdditionalChecksums (slice (r_Checksums existing)) l)
                       | None => r_Checksums existing
                       end.
Proof.
  unfold MergeRecordUpdate. cbv zeta.
  destruct (r_Properties update), (r_Name update), (r_ControlledAccess update), (r_Checksums update); done.
Qed.
Lemma head_dedup (l1 l2 : list string) v : head (dedup l1) = Some v → head (dedup (l1 ++ l2)) = Some v.
Proof. by destruct l1. Qed.
Lemma CanonicalSHA256_app l1 l2 v : CanonicalSHA256 l1 = Some v → CanonicalSHA256 (l1 ++ l2) = Some v.
Proof.
  unfold CanonicalSHA256, SHA256Values. intros Hh.
  assert (omap sha256_of (l1 ++ l2) = omap sha256_of l1 ++ omap sha256_of l2) as ->; [|by apply head_dedup].
  clear Hh. induction l1 as [|c l1 IH]; [done|]. csimpl. destruct (sha256_of c); csimpl; by rewrite IH.
Qed.
Lemma MergeRecordUpdate_checksums existing update id now c :
  c ∈ slice (r_Checksums existing) → c ∈ slice (r_Checksums (MergeRecordUpdate existing update id now)).
Proof.
  destruct (MergeRecordUpdate_fixed existing update id now) as (_ & _ & _ & _ & _ & ->).
  destruct (r_Checksums update); [|done]. simpl. unfold MergeAdditionalChecksums. rewrite elem_of_app. by left.
Qed.
Lemma MergeRecordUpdate_content existing update id now sha :
  content_key existing = Some sha → content_key (MergeRecordUpdate existing update id now) = Some sha.
Proof.
  unfold content_key. destruct (MergeRecordUpdate_fixed existing update id now) as (_ & _ & _ & _ & _ & ->).
  destruct (r_Checksums update); [|done]. simpl. apply CanonicalSHA256_app.
Qed.

(** An update is one replacement of one record, made only when the caller may update the presented record;
    it cannot change the size, the creation time, the public flag or the content identifier of the record,
    and no checksum is ever lost.  A request that contradicts the stored size or identifier is refused. *)
Theorem UpdateRecord_immutable ctx id update explicitSize now s :
  let run := UpdateRecord ctx id update explicitSize now s in
  (∃ e, run = (s, Err e)) ∨
  ∃ existing merged, GetObject ctx id objectMethodUpdate s = Ok existing ∧
    hasObjectMethod ctx existing objectMethodUpdate = true ∧
    run = (let '(s', r) := port_ReplaceObjects ctx [merged] s in (s', _ ← r; Ok merged)) ∧
    r_Id merged = id ∧ r_Size merged = r_Size existing ∧ r_CreatedTime merged = r_CreatedTime existing ∧
    r_PublicRead merged = r_PublicRead existing ∧ r_UpdatedTime merged = Some now ∧
    (∀ size, explicitSize = Some size → size = r_Size existing) ∧
    (∀ c, c ∈ slice (r_Checksums existing) → c ∈ slice (r_Checksums merged)) ∧
    (∀ sha, content_key existing = Some sha →
       content_key merged = Some sha ∧ (content_key update = None ∨ content_key update = Some sha)).
Proof.
  cbv zeta. unfold UpdateRecord. rewrite ask_bind.
  destruct (GetObject ctx id objectMethodUpdate s) as [existing|e] eqn:Eg; [|left; by eexists].
  rewrite check_bind. destruct (match explicitSize with Some _ => _ | None => _ end) as [[]|e] eqn:Esz; [|left; by eexists].
  rewrite check_bind. destruct (match content_key update with Some _ => _ | None => _ end) as [[]|e] eqn:Esha;
    [|left; by eexists].
  right. cbv zeta. exists existing, (MergeRecordUpdate existing update id now).
  destruct (MergeRecordUpdate_fixed existing update id now) as (Hid & Hsize & Hcr & Hup & Hpub & _).
  split; [done|]. split; [by eapply GetObject_authorised|].
  split; [unfold mbind at 1, service_bind; by destruct (port_ReplaceObjects _ _ _) as [s' [u|e]]|].
  repeat (split; [assumption|]). split_and!.
  - intros size ->. revert Esz. destruct (Z.eqb_spec size (r_Size existing)); done.
  - intros c. apply MergeRecordUpdate_checksums.
  - intros sha Hk. split; [by apply MergeRecordUpdate_content|]. rewrite Hk in Esha.
    destruct (content_key update) as [incoming|]; [|by left]. right.
    revert Esha. destruct (String.eqb_spec incoming sha) as [->|]; done.
Qed.
End update.

(** ** Bulk overwrite *)
Section overwrite.
Context `{MapOrder} `{Digests} {S : Type} `{!RecordPorts S}.

(** The record [r] that a candidate [c] becomes, and the authority it needs: a creation under the did it
    asks for, or an update, of the record of that did inside the project, or else of the only record of the
    project with the same content. *)
Definition placed (ctx : context) (resource : string) (existing : gmap string ObjectRecord)
    (checksumMatches : gmap string (list string)) (c r : ObjectRecord) (updated : bool) : Prop :=
  let t := r_Id r in
  let method := if updated then objectMethodUpdate else objectMethodCreate in
  r = set_SelfUri (set_Id c t) ("drs://" +:+ t) ∧
  HasObjectMethodAccess ctx method [resource] = true ∧ hasObjectMethod ctx r method = true ∧
  (if updated
   then requireAllObjectMethod ctx (default zero_record (existing !! t)) objectMethodUpdate = Ok tt ∧
        ((t = r_Id c ∧ ∃ current, existing !! t = Some current ∧ containsResource (AccessResources current) resource = true)
         ∨ (existing !! r_Id c = None ∧ ∃ sha, content_key c = Some sha ∧
              uniqueOverwriteStrings (default [] (checksumMatches !! sha)) = [t]))
   else t = r_Id c ∧ existing !! t = None).

Lemma overwrite_target_spec ctx resource existing checksumMatches s c m :
  overwrite_target ctx resource existing checksumMatches s c = Ok m →
  match m with
  | MatchNone => existing !! r_Id c = None
  | MatchDID => ∃ current, existing !! r_Id c = Some current ∧ containsResource (AccessResources current) resource = true
  | MatchChecksum t => existing !! r_Id c = None ∧ ∃ sha, content_key c = Some sha ∧
      uniqueOverwriteStrings (default [] (checksumMatches !! sha)) = [t]
  end.
Proof.
  unfold overwrite_target. cbv zeta. rewrite bind_Ok. intros (? & _ & Hm).
  destruct (existing !! r_Id c) as [current|] eqn:Ee.
  { destruct (containsResource _ _) eqn:Ec; [|done]. injection Hm as <-. by exists current. }
  destruct (content_key c) as [sha|] eqn:Ek; [|by injection Hm as <-].
  destruct (uniqueOverwriteStrings _) as [|t [|? ?]] eqn:Eu; [by injection Hm as <-| |done].
  injection Hm as <-. split; [done|]. by exists sha.
Qed.
Lemma RequireObjectResources_Ok ctx method resources u :
  is_empty (TrimSpace method) = false → RequireObjectResources ctx method resources = Ok u →
  HasObjectMethodAccess ctx method resources = true.
Proof. unfold RequireObjectResources. intros ->. by destruct (HasObjectMethodAccess _ _ _). Qed.
Lemma overwrite_allowed_spec ctx resource existing m t c u :
  overwrite_allowed ctx resource existing m t c = Ok u →
  let method := if is_matched m then objectMethodUpdate else objectMethodCreate in
  HasObjectMethodAccess ctx method [resource] = true ∧ hasObjectMethod ctx c method = true ∧
  (is_matched m = true →
   requireAllObjectMethod ctx (default zero_record (existing !! t)) objectMethodUpdate = Ok tt).
Proof.
  unfold overwrite_allowed. cbv zeta. rewrite bind_Ok. intros (u1 & H1 & Hr).
  apply bind_Ok in Hr as (u2 & H2 & Hr). split_and!.
  - apply (RequireObjectResources_Ok _ _ _ u1); [by destruct (is_matched m)|done].
  - by destruct (hasObjectMethod _ _ _).
  - intros Hm. rewrite Hm in H2. by destruct u2.
Qed.

(** The plan after the candidates [seen]. *)
Definition plan_inv (ctx : context) (resource : string) (existing : gmap string ObjectRecord)
    (checksumMatches : gmap string (list string)) (seen : list ObjectRecord)
    (st : list ObjectRecord * gmap string string * BulkOverwriteResult) : Prop :=
  let '(resolved, usedTargets, counts) := st in
  ∃ updates, Forall3 (placed ctx resource existing checksumMatches) seen resolved updates ∧
    NoDup (r_Id <$> resolved) ∧ (∀ t, t ∈ r_Id <$> resolved ↔ is_Some (usedTargets !! t)) ∧
    Created counts = length (filter (.= false) updates) ∧ Replaced counts = length (filter (.= true) updates) ∧
    DIDMatched counts + ChecksumMatched counts = Replaced counts.

Lemma plan_step ctx resource existing checksumMatches s seen st c st' :
  plan_inv ctx resource existing checksumMatches seen st →
  overwrite_step ctx resource existing checksumMatches s st c = Ok st' →
  plan_inv ctx resource existing checksumMatches (seen ++ [c]) st'.
Proof.
  destruct st as [[resolved used] counts]. intros (updates & HF & Hnd & Hused & Hc & Hr & Hm) Hstep.
  unfold overwrite_step in Hstep. cbv zeta in Hstep. apply bind_Ok in Hstep as (m & Htgt%overwrite_target_spec & Hstep).
  case_bool_decide as Hfresh; [done|].
  apply bind_Ok in Hstep as (u & Hal%overwrite_allowed_spec & Hst). cbv zeta in Hal. destruct Hal as (Hp & Ho & Hall).
  injection Hst as <-. exists (updates ++ [is_matched m]). set (t := matched_did m (r_Id c)) in *.
  assert (t ∉ r_Id <$> resolved) as Hnin by by rewrite Hused. split_and!.
  - apply Forall3_app; [exact HF|]. constructor; [|constructor]. unfold placed. cbn.
    split_and!; [done..|exact Hp|exact Ho|]. destruct m as [| |t']; simpl in *; [by split| |].
    + split; [by apply Hall|]. left. split; [done|exact Htgt].
    + split; [by apply Hall|]. right. exact Htgt.
  - rewrite fmap_app. apply NoDup_app. split_and!; [done| |apply NoDup_singleton].
    intros x Hx ->%list_elem_of_singleton. done.
  - intros x. rewrite fmap_app, elem_of_app, Hused. simpl. rewrite list_elem_of_singleton, lookup_insert_is_Some'.
    split; intros [?|?]; auto.
  - rewrite filter_app, length_app. destruct m; simpl; rewrite ?Hc; simpl; lia.
  - rewrite filter_app, length_app. destruct m; simpl; rewrite ?Hr; simpl; lia.
  - destruct m; simpl; lia.
Qed.

(** The candidates that pass the first loop: distinct dids, all inside the project. *)
Lemma overwrite_check_spec resource l st st' :
  foldlM (overwrite_check resource) st l = Ok st' →
  (∀ d, is_Some (st'.1 !! d) ↔ is_Some (st.1 !! d) ∨ ∃ e, e ∈ l ∧ TrimSpace (r_Id e.2) = d) ∧
  NoDup ((λ e, TrimSpace (r_Id e.2)) <$> l) ∧
  (∀ e, e ∈ l → TrimSpace (r_Id e.2) ≠ "" ∧ st.1 !! TrimSpace (r_Id e.2) = None ∧
                containsResource (AccessResources e.2) resource = true).
Proof.
  revert st. induction l as [|[i c] l IH]; intros [byDID hashes] Hf.
  { injection Hf as <-. split_and!; [|constructor|set_solver]. intros d. split; [by left|]. intros [?|(e & []%elem_of_nil & _)]. done. }
  simpl in Hf. apply bind_Ok in Hf as (st1 & H1 & Hf). cbv zeta in H1.
  destruct (is_empty (TrimSpace (r_Id c))) eqn:Ee; [done|]. apply is_empty_false in Ee.
  case_bool_decide as Hfresh; [done|]. destruct (containsResource _ _) eqn:Ec; [|done]. injection H1 as <-.
  apply eq_None_not_Some in Hfresh. destruct (IH _ Hf) as (Hkeys & Hnd & Hall). cbn [fst] in *.
  assert (∀ e, e ∈ l → TrimSpace (r_Id e.2) ≠ TrimSpace (r_Id c)) as Hne.
  { intros e He Heq. destruct (Hall e He) as (_ & Hn & _). rewrite Heq, lookup_insert_eq in Hn. done. }
  split_and!.
  - intros d. rewrite Hkeys, lookup_insert_is_Some'. split.
    + intros [[<-|?]|(e & ? & ?)]; [|by left|].
      * right. exists (i, c). split; [by left|done].
      * right. exists e. split; [by right|done].
    + intros [?|(e & [->|?]%elem_of_cons & ?)]; [by left; right|by left; left|]. right. by exists e.
  - rewrite fmap_cons. constructor; [|done]. cbn [snd]. intros (e & Heq & He)%list_elem_of_fmap.
    by apply (Hne e He).
  - intros e [->|He]%elem_of_cons; [done|]. destruct (Hall e He) as (? & Hn & ?). split_and!; [done| |done].
    by rewrite lookup_insert_ne in Hn by (by apply not_eq_sym, Hne).
Qed.
Lemma imap_pair_snd {A} (l : list A) : (imap pair l).*2 = l.
Proof.
  rewrite fmap_imap. apply list_eq. intros i. rewrite list_lookup_imap. by destruct (l !! i).
Qed.
Lemma plan_fold ctx resource existing checksumMatches s candidates st :
  foldlM (overwrite_step ctx resource existing checksumMatches s) ([], ∅, no_overwrite) candidates = Ok st →
  plan_inv ctx resource existing checksumMatches candidates st.
Proof.
  apply (foldlM_inv_prefix _ (plan_inv ctx resource existing checksumMatches)).
  - exists []. split_and!; [constructor|constructor| |done..]. intros t. simpl. rewrite elem_of_nil.
    split; [done|]. intros [? [=]].
  - intros seen c st1 st2. apply plan_step.
Qed.

(** A bulk overwrite is one registration or nothing at all.  The dids of the snapshot are distinct and every
    candidate names the project; candidates go to pairwise distinct records, each with the authority it needs
    on the project, on the record it becomes and on every scope of the record it replaces; and the counters
    of the answer add up to the size of the snapshot. *)
Theorem BulkOverwriteObjects_spec ctx organization project candidates s :
  let run := BulkOverwriteObjects ctx organization project candidates s in
  (∃ e, run = (s, Err e)) ∨ (candidates = [] ∧ run = (s, Ok no_overwrite)) ∨
  ∃ resource resolved counts existing checksumMatches updates,
    ResourcePath organization project = Ok resource ∧
    run = (let '(s', r) := port_RegisterObjects ctx resolved s in (s', _ ← r; Ok counts)) ∧
    NoDup ((λ c, TrimSpace (r_Id c)) <$> candidates) ∧
    (∀ c, c ∈ candidates → TrimSpace (r_Id c) ≠ "" ∧ containsResource (AccessResources c) resource = true) ∧
    Forall3 (placed ctx resource existing checksumMatches) candidates resolved updates ∧
    NoDup (r_Id <$> resolved) ∧
    Created counts + Replaced counts = length candidates ∧
    Replaced counts = length (filter (.= true) updates) ∧
    DIDMatched counts + ChecksumMatched counts = Replaced counts.
Proof.
  cbv zeta. unfold BulkOverwriteObjects. destruct candidates as [|c cs]; [right; by left|].
  set (candidates := c :: cs). rewrite ask_bind.
  destruct (overwrite_plan ctx organization project candidates s) as [[resolved counts]|e] eqn:Ep; [|left; by eexists].
  right. right. unfold overwrite_plan in Ep. apply bind_Ok in Ep as (resource & Hres & Ep).
  apply bind_Ok in Ep as ([byDID hashes] & Hcheck & Ep). apply bind_Ok in Ep as (checksumMatches & _ & Ep). cbv zeta in Ep.
  apply bind_Ok in Ep as (existingList & _ & Ep). apply bind_Ok in Ep as ([[resolved' used] counts'] & Hplan & Ep).
  injection Ep as -> ->. apply plan_fold in Hplan as (updates & HF & Hnd & _ & Hc & Hr & Hm).
  apply overwrite_check_spec in Hcheck as (_ & Hdids & Hall).
  exists resource, resolved, counts, (index_by_id existingList), checksumMatches, updates. split_and!; try done.
  - unfold mbind at 1, service_bind. by destruct (port_RegisterObjects _ _ _) as [s' [u|e]].
  - rewrite <- (imap_pair_snd candidates), <- list_fmap_compose. exact Hdids.
  - intros x Hx. rewrite <- (imap_pair_snd candidates) in Hx. apply list_elem_of_fmap in Hx as (e & -> & He).
    by destruct (Hall e He) as (? & _ & ?).
  - assert (length candidates = length updates) as -> by exact (Forall3_length_lr _ _ _ _ HF).
    rewrite Hc, Hr. clear. induction updates as [|[] us IH]; csimpl; rewrite ?filter_cons; simpl; lia.
Qed.
End overwrite.
