(* ===== verification/RecordCollapse.v ===== *)
(** * What the record service guarantees: the collapse of duplicates
    CollapseProjectChecksumDuplicates keeps one record per project and checksum, turns the ids of the others
    into aliases of it, and removes them.  The last part runs the service on a small store. *)
From S2P Require Import Prelude GoStrings GoURL Errors Resources Policy Objects Canonical Records RecordMutations RecordProperties.

(** ** Lists of pairs as maps *)
Lemma fmap_concat {A B} (f : A → B) (ls : list (list A)) : f <$> concat ls = concat ((λ l : list A, f <$> l : list B) <$> ls).
Proof. induction ls as [|l ls IH]; [done|]. csimpl. by rewrite fmap_app, IH. Qed.
Lemma NoDup_concat_fmap {A B} (f : A → list B) (l : list A) :
  NoDup l → (∀ a, a ∈ l → NoDup (f a)) → (∀ a b x, a ∈ l → b ∈ l → x ∈ f a → x ∈ f b → a = b) →
  NoDup (concat (f <$> l)).
Proof.
  induction l as [|a l IH]; intros Hl Hf Hdis; [constructor|]. csimpl. apply NoDup_cons in Hl as [Ha Hl].
  apply NoDup_app. split_and!.
  - apply Hf. by left.
  - intros x Hx (b & Hb & Hxb)%elem_of_concat_fmap.
    assert (a = b) as ->; [|done]. apply (Hdis a b x); [by left|by right|done..].
  - apply IH; [done| |].
    + intros b Hb. apply Hf. by right.
    + intros b b' x Hb Hb'. apply Hdis; by right.
Qed.
Lemma insert_all_lookup (l : list (string * string)) (m : gmap string string) :
  NoDup l.*1 → (∀ k, k ∈ l.*1 → m !! k = None) →
  ∀ k v, foldl (λ m e, <[e.1 := e.2]> m) m l !! k = Some v ↔ m !! k = Some v ∨ (k, v) ∈ l.
Proof.
  revert m. induction l as [|[a b] l IH]; intros m Hnd Hm k v; simpl.
  { split; [by left|]. by intros [?|?%elem_of_nil]. }
  simpl in Hnd. apply NoDup_cons in Hnd as [Ha Hnd]. rewrite IH; [|done|].
  - rewrite elem_of_cons. destruct (decide (a = k)) as [->|Hne].
    + rewrite lookup_insert_eq, (Hm k) by by left. split.
      * intros [[= ->]|?]; [right; by left|right; by right].
      * intros [[=]|[[= ->]|?]]; [by left|by right].
    + rewrite lookup_insert_ne by done. split; [intuition|]. intros [?|[[= -> ->]|?]]; [by left|done|by right].
  - intros x Hx. rewrite lookup_insert_ne by (intros ->; done). apply Hm. by right.
Qed.
Lemma insert_all_perm `{MapOrder} (l : list (string * string)) :
  NoDup l.*1 → go_range (foldl (λ m e, <[e.1 := e.2]> m) (∅ : gmap string string) l) ≡ₚ l.
Proof.
  intros Hnd. apply NoDup_Permutation.
  - eapply NoDup_fmap_1, NoDup_fst_go_range.
  - by eapply NoDup_fmap_1.
  - intros [k v]. rewrite elem_of_go_range, insert_all_lookup by done. rewrite lookup_empty.
    split; [by intros [?|?]|by right].
Qed.

Section collapse.
Context `{MapOrder} `{Digests}.

Definition project_key : ObjectRecord → option string := canonicalProjectChecksumKey "".
Lemma collapse_Id_in group : group ≠ [] → r_Id (collapseCanonicalGroup group) ∈ r_Id <$> group.
Proof.
  destruct group as [|first rest]; [done|]. intros _. destruct (collapse_fields first rest) as (-> & _).
  apply list_elem_of_fmap_2. by destruct (oldest_spec first rest).
Qed.
(** The group of a key is the list of the records with that key. *)
Lemma duplicate_groups_spec objects :
  ∃ keys, NoDup keys ∧
    duplicate_groups objects = (λ key, filter (λ o, project_key o = Some key) objects) <$> keys ∧
    ∀ key, key ∈ keys ↔ 2 ≤ length (filter (λ o, project_key o = Some key) objects).
Proof.
  unfold duplicate_groups. cbv zeta. set (m := group_by (canonicalProjectChecksumKey "") objects).
  set (keys := sort_Strings _). exists keys.
  assert (∀ key, key ∈ keys ↔ ∃ g, m !! key = Some g ∧ 2 ≤ length g) as Hkeys.
  { intros key. unfold keys. rewrite elem_of_sort_Strings, list_elem_of_fmap. split.
    - intros ([k g] & -> & [Hl Hin%elem_of_go_range]%list_elem_of_filter). by exists g.
    - intros (g & Hin%elem_of_go_range & Hl). exists (key, g). split; [done|]. by apply list_elem_of_filter. }
  assert (∀ key g, m !! key = Some g ↔ g = filter (λ o, project_key o = Some key) objects ∧ g ≠ []) as Hm
    by (intros; apply group_by_lookup).
  split_and!.
  - apply NoDup_sort_Strings. eapply sublist_NoDup; [apply (NoDup_fst_go_range m)|].
    apply fmap_sublist, sublist_filter.
  - apply list_fmap_ext. intros i key Hk%list_elem_of_lookup_2. apply Hkeys in Hk as (g & Hg & _). rewrite Hg.
    apply Hm in Hg as [-> _]. done.
  - intros key. rewrite Hkeys. setoid_rewrite Hm. split; [by intros (g & [-> _] & ?)|].
    intros Hl. eexists. split; [split; [done|]|exact Hl]. intros E. rewrite E in Hl. simpl in Hl. lia.
Qed.

Lemma elem_of_superseded group id target :
  (id, target) ∈ superseded group ↔
  target = r_Id (collapseCanonicalGroup group) ∧ id ≠ target ∧ ∃ o, o ∈ group ∧ r_Id o = id.
Proof.
  unfold superseded. cbv zeta. rewrite list_elem_of_fmap. split.
  - intros (o & [= -> ->] & [Hne Hin]%list_elem_of_filter). split_and!; [done..|]. by exists o.
  - intros (-> & Hne & o & Hin & <-). exists o. split; [done|]. by apply list_elem_of_filter.
Qed.
Lemma superseded_NoDup group : NoDup (r_Id <$> group) → NoDup (superseded group).*1.
Proof.
  intros Hnd. unfold superseded. cbv zeta. rewrite <- list_fmap_compose. simpl.
  eapply sublist_NoDup; [exact Hnd|]. apply fmap_sublist, sublist_filter.
Qed.

Section objects.
Context (objects : list ObjectRecord) (Hids : NoDup (r_Id <$> objects)).
Let group (key : string) : list ObjectRecord := filter (λ o, project_key o = Some key) objects.

Lemma elem_of_group key o : o ∈ group key ↔ o ∈ objects ∧ project_key o = Some key.
Proof. unfold group. rewrite list_elem_of_filter. tauto. Qed.
(** The survivor of a group, as a record read from the store. *)
Lemma group_survivor key :
  2 ≤ length (group key) → ∃ k, k ∈ objects ∧ project_key k = Some key ∧ r_Id (collapseCanonicalGroup (group key)) = r_Id k.
Proof.
  intros Hl.
  assert (group key ≠ []) as Hne by (intros E; rewrite E in Hl; simpl in Hl; lia).
  apply collapse_Id_in, list_elem_of_fmap in Hne as (k & Hk & [Hin Hkey]%elem_of_group). by exists k.
Qed.
(** Ids decide the group. *)
Lemma group_of_id k1 k2 o1 o2 : o1 ∈ group k1 → o2 ∈ group k2 → r_Id o1 = r_Id o2 → k1 = k2.
Proof.
  intros [H1 K1]%elem_of_group [H2 K2]%elem_of_group Heq.
  assert (o1 = o2) as -> by by apply (NoDup_fmap_inj r_Id objects). congruence.
Qed.

Context (keys : list string) (Hkeys : NoDup keys).
Context (Hdup : ∀ key, key ∈ keys ↔ 2 ≤ length (group key)).
Let aliases : list (string * string) := concat ((λ key, superseded (group key)) <$> keys).

Lemma elem_of_aliases id target :
  (id, target) ∈ aliases ↔ ∃ key, key ∈ keys ∧ target = r_Id (collapseCanonicalGroup (group key)) ∧ id ≠ target ∧
    ∃ o, o ∈ group key ∧ r_Id o = id.
Proof. unfold aliases. rewrite elem_of_concat_fmap. by setoid_rewrite elem_of_superseded. Qed.
Lemma aliases_NoDup : NoDup aliases.*1.
Proof.
  unfold aliases. rewrite fmap_concat, <- list_fmap_compose. apply NoDup_concat_fmap; [done| |].
  - intros key _. apply superseded_NoDup. eapply sublist_NoDup; [exact Hids|]. apply fmap_sublist, sublist_filter.
  - intros k1 k2 x _ _ ([i1 t1] & -> & (_ & _ & o1 & Ho1 & Hi1)%elem_of_superseded)%list_elem_of_fmap
      ([i2 t2] & Hx & (_ & _ & o2 & Ho2 & Hi2)%elem_of_superseded)%list_elem_of_fmap. simpl in Hx.
    apply (group_of_id k1 k2 o1 o2); congruence.
Qed.
Lemma aliases_target_kept id target : (id, target) ∈ aliases → target ∉ aliases.*1.
Proof.
  intros (key & Hkey & -> & _ & o & Ho & _)%elem_of_aliases ([i t] & Hi & Hin)%list_elem_of_fmap. simpl in Hi.
  apply elem_of_aliases in Hin as (key' & _ & Ht & Hne & o' & Ho' & Hi').
  destruct (group_survivor key) as (k & Hk & Hpk & Hid); [by apply Hdup|].
  assert (key = key') as <-; [|congruence]. apply (group_of_id key key' k o'); [by apply elem_of_group|done|congruence].
Qed.
(** A group of two records gives up an id. *)
Lemma superseded_exists : keys ≠ [] → aliases ≠ [].
Proof.
  intros Hne. assert (∃ key, key ∈ keys) as [key Hkey].
  { clear -Hne. destruct keys as [|key ks]; [done|]. exists key. by left. }
  assert (2 ≤ length (group key)) as Hl by by apply Hdup.
  assert (∃ o, o ∈ group key ∧ r_Id o ≠ r_Id (collapseCanonicalGroup (group key))) as (o & Ho & Hid).
  { assert (NoDup (r_Id <$> group key)) as Hnd.
    { eapply sublist_NoDup; [exact Hids|]. apply fmap_sublist, sublist_filter. }
    destruct (group key) as [|a [|b l]]; simpl in Hl; [lia..|]. set (c := r_Id (collapseCanonicalGroup _)).
    destruct (decide (r_Id a = c)) as [Ha|Ha]; [|exists a; split; [by left|done]].
    exists b. split; [right; by left|]. rewrite <- Ha. rewrite !fmap_cons in Hnd. apply NoDup_cons in Hnd as [Hnd _].
    intros E. apply Hnd. rewrite E. by left. }
  intros Hnil. assert ((r_Id o, r_Id (collapseCanonicalGroup (group key))) ∈ aliases) as Hin.
  { apply elem_of_aliases. exists key. split_and!; [done..|]. by exists o. }
  rewrite Hnil in Hin. by apply elem_of_nil in Hin.
Qed.
Lemma survivor_unique o o' key :
  o ∈ objects → o' ∈ objects → project_key o = Some key → project_key o' = Some key →
  r_Id o ∉ aliases.*1 → r_Id o' ∉ aliases.*1 → o = o'.
Proof.
  intros Ho Ho' Hk Hk' Hn Hn'. destruct (decide (r_Id o = r_Id o')) as [|Hne]; [by apply (NoDup_fmap_inj r_Id objects)|].
  assert (o ∈ group key ∧ o' ∈ group key) as [Hg Hg'] by by rewrite !elem_of_group.
  assert (key ∈ keys) as Hin.
  { apply Hdup. destruct (group key) as [|a [|b l]]; simpl; [by apply elem_of_nil in Hg| |lia].
    apply list_elem_of_singleton in Hg, Hg'. congruence. }
  assert (∀ x, x ∈ group key → r_Id x ∉ aliases.*1 → r_Id x = r_Id (collapseCanonicalGroup (group key))) as Hsurv.
  { intros x Hx Hnx. destruct (decide (r_Id x = r_Id (collapseCanonicalGroup (group key)))) as [|Hc]; [done|].
    exfalso. apply Hnx. apply list_elem_of_fmap. exists (r_Id x, r_Id (collapseCanonicalGroup (group key))).
    split; [done|]. apply elem_of_aliases. exists key. split_and!; [done..|]. by exists x. }
  apply (NoDup_fmap_inj r_Id objects); [done..|]. by rewrite (Hsurv o), (Hsurv o').
Qed.
End objects.

(** Trimmed ids are deleted under their own spelling. *)
Lemma uniqueStrings_id l : NoDup l → (∀ x, x ∈ l → TrimSpace x = x ∧ x ≠ "") → uniqueStrings l ≡ₚ l.
Proof.
  intros Hnd Hl. unfold uniqueStrings. rewrite sort_Strings_Permutation.
  assert (TrimSpace <$> l = l) as ->.
  { rewrite <- (list_fmap_id l) at 2. apply list_fmap_ext. intros i x Hx%list_elem_of_lookup_2. by apply Hl. }
  assert (filter (.≠ "") l = l) as ->; [|by rewrite dedup_id].
  clear Hnd. induction l as [|x l IH]; [done|]. rewrite filter_cons_True by (apply Hl; by left).
  f_equal. apply IH. intros y Hy. apply Hl. by right.
Qed.
End collapse.

Section safety.
Context `{MapOrder} `{Digests} {S : Type} `{!RecordPorts S}.

(** The store hands out each physical record once, under a trimmed id. *)
Definition physical_reads (ctx : context) (s : S) : Prop :=
  ∀ ids l, port_GetBulkObjects ctx ids s = Ok l →
    NoDup (r_Id <$> l) ∧ ∀ o, o ∈ l → TrimSpace (r_Id o) = r_Id o ∧ r_Id o ≠ "".

Lemma method_error_Ok ctx objs method u :
  method_error ctx objs method = Ok u → ∀ o, o ∈ objs → hasObjectMethod ctx o method = true.
Proof.
  unfold method_error, bulkObjectMethodError. destruct (filter _ objs) as [|d ds] eqn:Ed; [|done]. intros _ o Ho.
  destruct (hasObjectMethod ctx o method) eqn:E; [done|]. exfalso.
  assert (o ∈ filter (λ obj, hasObjectMethod ctx obj method = false) objs) as Hin by by apply list_elem_of_filter.
  rewrite Ed in Hin. by apply elem_of_nil in Hin.
Qed.

(** Collapsing the duplicates of a project registers the merged records, turns every other id of a group into
    an alias of the id that stays, and then deletes exactly those ids: a removed id points to a kept record
    of the same project and content, no alias points to a removed id, of the replicas of one content exactly
    one id stays, and the answer is the number of removed ids.  It writes only if the caller may update every
    record of the scope. *)
Theorem CollapseProjectChecksumDuplicates_safe ctx organization project s :
  physical_reads ctx s →
  let run := CollapseProjectChecksumDuplicates ctx organization project s in
  (∃ e, run = (s, Err e)) ∨ run = (s, Ok 0) ∨
  ∃ ids objects merged aliases removed,
    port_ListObjectIDsByScope ctx organization project s = Ok ids ∧ port_GetBulkObjects ctx ids s = Ok objects ∧
    (∀ o, o ∈ objects → hasObjectMethod ctx o objectMethodUpdate = true) ∧
    run = (_ ← port_RegisterObjects ctx merged; _ ← service_each (λ e, (port_CreateObjectAlias ctx e.1 e.2)) aliases;
           _ ← port_BulkDeleteObjects ctx removed; mret (length removed)) s ∧
    NoDup aliases.*1 ∧ removed ≡ₚ aliases.*1 ∧
    (∀ id target, (id, target) ∈ aliases → id ≠ target ∧ target ∈ r_Id <$> merged ∧ (target ∉ removed) ∧
       ∃ o k key, o ∈ objects ∧ k ∈ objects ∧ r_Id o = id ∧ r_Id k = target ∧
         project_key o = Some key ∧ project_key k = Some key) ∧
    (∀ o o' key, o ∈ objects → o' ∈ objects → project_key o = Some key → project_key o' = Some key →
       r_Id o ∉ removed → r_Id o' ∉ removed → o = o').
Proof.
  intros Hreads. cbv zeta. unfold CollapseProjectChecksumDuplicates. rewrite ask_bind.
  destruct (port_ListObjectIDsByScope ctx organization project s) as [ids|e] eqn:Eids; [|left; by eexists].
  rewrite ask_bind. destruct (port_GetBulkObjects ctx ids s) as [objects|e] eqn:Eobjs; [|left; by eexists].
  rewrite check_bind. destruct (method_error ctx objects objectMethodUpdate) as [u|e] eqn:Eauth; [|left; by eexists].
  right. cbv zeta. destruct (Hreads _ _ Eobjs) as [Hids Htrim].
  destruct (duplicate_groups_spec objects) as (keys & Hkeys & Hgroups & Hdup). rewrite Hgroups, <- !list_fmap_compose. unfold compose.
  set (aliases := concat _). assert (NoDup aliases.*1) as Hnd by by apply aliases_NoDup.
  pose proof (insert_all_perm aliases Hnd) as Hperm. set (aliasMap := foldl _ _ _) in *.
  assert (uniqueStrings aliases.*1 ≡ₚ aliases.*1) as Hrem.
  { apply uniqueStrings_id; [done|]. intros x ([i t] & -> & Hin)%list_elem_of_fmap.
    apply elem_of_aliases in Hin as (key & _ & _ & _ & o & [Ho _]%elem_of_group & <-). by apply Htrim. }
  assert (size aliasMap = length (uniqueStrings aliases.*1)) as ->.
  { rewrite Hrem, length_fmap, <- Hperm, go_range_perm. symmetry. apply length_map_to_list. }
  destruct ((λ key, collapseCanonicalGroup _) <$> keys) as [|m ms] eqn:Em; [by left|right].
  exists ids, objects, (m :: ms), (go_range aliasMap), (uniqueStrings aliases.*1).
  split_and!; [done|done|by eapply method_error_Ok|done| | | |].
  - by rewrite Hperm.
  - by rewrite Hperm, Hrem.
  - intros id target Hin. rewrite Hperm in Hin. pose proof Hin as Hin'.
    apply elem_of_aliases in Hin as (key & Hkey & -> & Hne & o & Ho & <-). split; [done|]. split_and!.
    + rewrite <- Em, <- list_fmap_compose. apply list_elem_of_fmap. by exists key.
    + rewrite Hrem. by eapply aliases_target_kept.
    + apply Hdup, group_survivor in Hkey as (k & Hk & Hpk & ->). apply elem_of_group in Ho as [??].
      by exists o, k, key.
  - intros o o' key Ho Ho' Hk Hk' Hn Hn'. rewrite Hrem in Hn, Hn'. by apply (survivor_unique objects Hids keys Hdup o o' key).
Qed.
End safety.

(** ** A reference store
    The ports over a plain list of records and a map of aliases, to run the service on concrete inputs. *)
Record list_store := mkListStore { ls_records : list ObjectRecord; ls_aliases : gmap string string }.
Definition not_found : error := EDef ErrObjectNotFound.
Definition with_id (id : string) (s : list_store) : result error ObjectRecord :=
  match filter (λ o, r_Id o = id) (ls_records s) with [] => Err not_found | o :: _ => Ok o end.
Definition drop_ids (ids : list string) (s : list_store) : list_store :=
  mkListStore (filter (λ o, r_Id o ∉ ids) (ls_records s)) (ls_aliases s).
Definition put_records (objs : list ObjectRecord) (s : list_store) : list_store :=
  mkListStore (ls_records (drop_ids (r_Id <$> objs) s) ++ objs) (ls_aliases s).
#[local] Existing Instance canonical_order.
#[local] Instance list_ports : RecordPorts list_store := {|
  port_GetObject := λ _, with_id;
  port_GetBulkObjects := λ _ ids s, Ok (filter (λ o, r_Id o ∈ ids) (ls_records s));
  port_DeleteObject := λ _ id s, (drop_ids [id] s, Ok tt);
  port_CreateObject := λ _ obj s, (put_records [obj] s, Ok tt);
  port_BulkDeleteObjects := λ _ ids s, (drop_ids ids s, Ok tt);
  port_RegisterObjects := λ _ objs s, (put_records objs s, Ok tt);
  port_ReplaceObjects := λ _ objs s, (put_records objs s, Ok tt);
  port_UpdateObjectAccessMethods := λ _ id methods s,
    (match with_id id s with Ok o => put_records [set_AccessMethods o (Some methods)] s | Err _ => s end, Ok tt);
  port_BulkUpdateAccessMethods := λ _ updates s,
    (foldl (λ s e, match with_id e.1 s with
                   | Ok o => put_records [set_AccessMethods o (Some e.2)] s
                   | Err _ => s
                   end) s (go_range updates), Ok tt);
  port_RemoveObjectControlledAccess := λ _ id resource s,
    (match with_id id s with
     | Ok o => put_records [set_ControlledAccess o (Some (filter (.≠ resource) (AccessResources o)))] s
     | Err _ => s
     end, Ok tt);
  port_RemoveObjectControlledAccessBulk := λ _ ids resource s, (s, Ok (length ids));
  port_DeleteObjectAlias := λ _ id s, (mkListStore (ls_records s) (delete id (ls_aliases s)), Ok tt);
  port_CreateObjectAlias := λ _ id target s, (mkListStore (ls_records s) (<[id := target]> (ls_aliases s)), Ok tt);
  port_ResolveObjectAlias := λ _ id s, match ls_aliases s !! id with Some t => Ok t | None => Err not_found end;
  port_GetObjectsByChecksum := λ _ sha s, Ok (filter (λ o, content_key o = Some sha) (ls_records s));
  port_GetObjectsByChecksums := λ _ shas s,
    Ok (list_to_map ((λ sha, (sha, filter (λ o, content_key o = Some sha) (ls_records s))) <$> shas));
  port_ListScopedObjectIDsByChecksums := λ _ _ _ shas s,
    Ok (list_to_map ((λ sha, (sha, r_Id <$> filter (λ o, content_key o = Some sha) (ls_records s))) <$> shas));
  port_ListObjectIDsByScope := λ _ organization project s,
    resource ← ResourcePath organization project;
    Ok (r_Id <$> filter (λ o, containsResource (AccessResources o) resource = true) (ls_records s));
  port_ListObjectIDsByResources := None;
  port_ListObjectIDsPageByScope := None;
  port_ListObjectIDsPageByURL := None;
  port_ListObjectIDsByScopeAndResources := None;
  port_ListObjectIDsByChecksumsAndResources := None |}.

Definition replica_store : list_store := mkListStore replicas ∅.
Lemma replica_store_reads ctx : physical_reads ctx replica_store.
Proof.
  intros ids l [= <-]. split.
  - eapply sublist_NoDup; [|apply fmap_sublist, sublist_filter]. by apply (bool_decide_unpack _); vm_compute.
  - intros o [_ Hin]%list_elem_of_filter. simpl in Hin. unfold replicas in Hin.
    apply elem_of_cons in Hin as [->| ->%list_elem_of_singleton]; by vm_compute.
Qed.
#[local] Instance identity_digests : Digests := {| sha256_hex := λ s, s; uuid_NewSHA1 := λ s, s |}.

(** The two replicas become one record and an alias. *)
Lemma CollapseProjectChecksumDuplicates_safe_witness :
  let run := CollapseProjectChecksumDuplicates None "ohsu" "p1" replica_store in
  run.2 = Ok 1 ∧ r_Id <$> ls_records run.1 = ["a"] ∧ ls_aliases run.1 !! "b" = Some "a" ∧
  ∃ (aliases : list (string * string)) (removed : list string), NoDup aliases.*1 ∧ removed ≡ₚ aliases.*1.
Proof.
  cbv zeta. split; [by vm_compute|]. split; [by vm_compute|]. split; [by vm_compute|].
  destruct (CollapseProjectChecksumDuplicates_safe None "ohsu" "p1" replica_store (replica_store_reads None))
    as [(e & He)|[He|(ids & objects & merged & aliases & removed & _ & _ & _ & Hrun & Hnd & Hrem & _)]].
  - exfalso. apply (f_equal snd) in He. vm_compute in He. discriminate He.
  - exfalso. apply (f_equal snd) in He. vm_compute in He. discriminate He.
  - exists aliases, removed. split; [exact Hnd|exact Hrem].
Defined.
