(* ===== verification/Listing.v ===== *)
(** * Listing and paging of the record service: internal/objects/records/listing.go
    The queries read the store and never change it, so a method is a function of the store state.  Lengths
    and offsets are Go ints of 64 bits: sums and products wrap around ([wrap64]), and a slice expression
    with bad bounds or a negative capacity is the run-time error [panic].  The memory an allocation needs is
    not modelled, nor are the log lines. *)
From S2P Require Import Prelude GoStrings GoURL Errors Resources Policy Objects Canonical Records.

(** ** Pages of a sorted list *)
Fixpoint count_while {A} (p : A → bool) (l : list A) : nat :=
  match l with a :: l => if p a then S (count_while p l) else O | [] => O end.
(** [sort.SearchStrings] of an ascending list: the first index whose element is not below [x]. *)
Definition SearchStrings (ids : list string) (x : string) : nat := count_while (λ id, String.ltb id x) ids.
Definition searchAfterID (ids : list string) (startAfter : string) : nat :=
  let idx := SearchStrings ids startAfter in
  idx + count_while (λ id, String.leb id startAfter) (drop idx ids).
(** [if offset >= len(ids) { return empty }; end := min(offset+limit, len(ids)); ids[offset:end]] *)
Definition slice_page {A} (ids : list A) (offset limit : Z) : result error (list A) :=
  let len := Z.of_nat (length ids) in
  if (len <=? offset)%Z then Ok []
  else
    let last := wrap64 (offset + limit) in
    let last := if (len <? last)%Z then len else last in
    if (0 <=? offset)%Z && (offset <=? last)%Z
    then Ok (take (Z.to_nat (last - offset)) (drop (Z.to_nat offset) ids))
    else panic "slice bounds out of range".
Definition page_after (ids : list string) (startAfter : string) (limit offset : Z) : result error (list string) :=
  let ids := sort_Strings ids in
  slice_page ids (if is_empty startAfter then offset else Z.of_nat (searchAfterID ids startAfter)) limit.

(** ** Filters *)
Definition objectHasAccessURL (obj : ObjectRecord) (objectURL : string) : bool :=
  existsb (λ method, match am_AccessUrl method with
                     | Some u => String.eqb (TrimSpace (au_Url u)) objectURL
                     | None => false
                     end) (slice (r_AccessMethods obj)).
Definition objectMatchesScope (obj : ObjectRecord) (organization project : string) : bool :=
  if is_empty (TrimSpace organization) then true
  else match default ∅ (r_Authorizations obj) !! organization with
       | None => false
       | Some projects =>
           is_empty (TrimSpace project) || bool_decide (projects = []) || existsb (String.eqb project) projects
       end.

Section filters.
Context `{MapOrder}.

Definition authorizedResources (ctx : context) (method : string) : list string :=
  let privileges := GetUserPrivileges ctx in
  if decide (privileges = ∅) then NormalizeAccessResources (GetUserAuthz ctx)
  else
    NormalizeAccessResources
      (fst <$> filter (λ e, method_set e.2 method || method_set e.2 "*" = true) (go_range privileges)).
Definition readableResources (ctx : context) : list string := authorizedResources ctx objectMethodRead.
Definition canUseUnrestrictedScopePage (ctx : context) (requiredMethod : string) : bool :=
  let '(resources, includeUnscoped, restrictToResources) := objectMethodResourceFilter ctx requiredMethod in
  negb restrictToResources && bool_decide (resources = []) && includeUnscoped.
Definition canPageScopeRead (ctx : context) (organization project : string) : bool :=
  if negb (IsAuthzEnforced ctx) then true
  else match ResourcePath organization project with
       | Err _ => false
       | Ok resource => HasMethodAccess ctx objectMethodRead [resource]
       end.
(** The resources, whether to include objects without scope, whether to restrict, whether to use the query. *)
Definition readableChecksumFilter (ctx : context) (organization project : string) : list string * bool * bool * bool :=
  if negb (IsAuthzEnforced ctx) then ([], false, false, true)
  else if IsGen3Mode ctx && negb (HasAuthHeader ctx) then ([], false, true, true)
  else if HasMethodAccess ctx objectMethodRead ["/programs"] || HasMethodAccess ctx objectMethodRead ["/data_file"]
  then ([], false, false, true)
  else if negb (is_empty (TrimSpace organization)) && canPageScopeRead ctx organization project
  then ([], false, false, true)
  else (readableResources ctx, true, true, true).
End filters.

Section listing.
Context `{MapOrder} `{Digests} {S : Type} `{!RecordPorts S}.

(** ** By checksum and by id *)
Definition GetObjectsByChecksums (ctx : context) (hashes : list string) (requiredMethod : string) (s : S)
  : result error (gmap string (list ObjectRecord)) :=
  objectsByChecksum ← port_GetObjectsByChecksums ctx hashes s;
  Ok (map_imap (M := gmap string) (λ checksum objects,
        Some (filterObjectsByMethod ctx (canonicalizeContentObjects (objectsWithSHA256 objects checksum)) requiredMethod))
      objectsByChecksum).
(** The record that stands for a stored one: the head of its family. *)
Definition resolve_family (siblingsByChecksum : gmap string (list ObjectRecord)) (obj : ObjectRecord)
  : result error ObjectRecord :=
  match CanonicalSHA256 (slice (r_Checksums obj)) with
  | None => Ok obj
  | Some sha =>
      match canonicalizeContentObjects (objectsWithSHA256 (default [] (siblingsByChecksum !! sha)) sha) with
      | [] => Err (EDef ErrObjectNotFound)
      | record :: _ => Ok record
      end
  end.
Definition GetBulkObjects (ctx : context) (ids : list string) (requiredMethod : string) (s : S)
  : result error (list ObjectRecord) :=
  objects ← port_GetBulkObjects ctx ids s;
  siblingsByChecksum ← port_GetObjectsByChecksums ctx (omap content_key objects) s;
  canonical ← foldlM (λ canonical obj,
      resolved ← resolve_family siblingsByChecksum obj;
      Ok (if decide (r_Id resolved ∈ r_Id <$> canonical) then canonical else canonical ++ [resolved])) [] objects;
  Ok (filterObjectsByMethod ctx canonical requiredMethod).

(** ** By scope *)
Definition expandProjectChecksumSiblingObjects (ctx : context) (objects : list ObjectRecord)
    (organization project : string) (s : S) : result error (list ObjectRecord) :=
  let keyed := filter (λ obj, canonicalProjectChecksumKey "" obj ≠ None) objects in
  let wantedKeys := omap (canonicalProjectChecksumKey "") keyed in
  let checksums := dedup ((λ obj, default "" (content_key obj)) <$> keyed) in
  if bool_decide (wantedKeys = []) || bool_decide (checksums = [])
     || is_empty (TrimSpace organization) || is_empty (TrimSpace project)
  then Ok objects
  else
    idsByChecksum ← port_ListScopedObjectIDsByChecksums ctx organization project checksums s;
    let expanded := dedup_on r_Id objects in
    let missingIDs := dedup (filter (λ id, id ∉ r_Id <$> expanded)
                        (concat ((λ sha, default [] (idsByChecksum !! sha)) <$> checksums))) in
    match missingIDs with
    | [] => Ok expanded
    | _ =>
        siblings ← port_GetBulkObjects ctx missingIDs s;
        let wanted (obj : ObjectRecord) :=
          match canonicalProjectChecksumKey "" obj with Some key => bool_decide (key ∈ wantedKeys) | None => false end in
        Ok (dedup_on r_Id (expanded ++ filter (λ obj, wanted obj = true) siblings))
    end.
Definition PrepareScopedObjects (ctx : context) (objects : list ObjectRecord) (organization project requiredMethod : string)
    (s : S) : result error (list ObjectRecord) :=
  expanded ← expandProjectChecksumSiblingObjects ctx objects organization project s;
  Ok (canonicalizeProjectScopedObjects (filterObjectsByMethod ctx expanded requiredMethod) organization project).
Definition GetPreparedScopedObjects (ctx : context) (ids : list string) (organization project requiredMethod : string)
    (s : S) : result error (list ObjectRecord) :=
  objects ← port_GetBulkObjects ctx ids s;
  PrepareScopedObjects ctx objects organization project requiredMethod s.

(** The answer when the repository can list by resources and enforcement is on. *)
Definition listReadableObjectIDs (ctx : context) (s : S) : result error (option (list string)) :=
  match port_ListObjectIDsByResources with
  | None => Ok None
  | Some lister =>
      if negb (IsAuthzEnforced ctx) then Ok None
      else if IsGen3Mode ctx && negb (HasAuthHeader ctx) then Ok (Some [])
      else ids ← lister ctx (readableResources ctx) true s; Ok (Some ids)
  end.
(** [TrimSpace(organization) == "" && EqualFold(TrimSpace(requiredMethod), "read")], and then the query above. *)
Definition list_readable_everywhere (ctx : context) (organization requiredMethod : string) (s : S)
  : result error (option (list string)) :=
  if is_empty (TrimSpace organization) && EqualFold (TrimSpace requiredMethod) objectMethodRead
  then listReadableObjectIDs ctx s else Ok None.
Definition ListObjectIDsByScope (ctx : context) (organization project requiredMethod : string) (s : S)
  : result error (list string) :=
  readable ← list_readable_everywhere ctx organization requiredMethod s;
  match readable with
  | Some ids => Ok ids
  | None =>
      ids ← port_ListObjectIDsByScope ctx organization project s;
      objects ← port_GetBulkObjects ctx ids s;
      filtered ← PrepareScopedObjects ctx objects organization project requiredMethod s;
      Ok (fmap (M := list) r_Id filtered)
  end.
Definition ListObjectsByScope (ctx : context) (organization project requiredMethod : string) (s : S)
  : result error (list ObjectRecord) :=
  readable ← list_readable_everywhere ctx organization requiredMethod s;
  match readable with
  | Some ids =>
      objects ← port_GetBulkObjects ctx ids s;
      Ok (filterObjectsByMethod ctx objects requiredMethod)
  | None =>
      ids ← port_ListObjectIDsByScope ctx organization project s;
      objects ← port_GetBulkObjects ctx ids s;
      PrepareScopedObjects ctx objects organization project requiredMethod s
  end.
Definition ListPhysicalObjectsByScope (ctx : context) (organization project requiredMethod : string) (s : S)
  : result error (list ObjectRecord) :=
  ids ← port_ListObjectIDsByScope ctx organization project s;
  objects ← port_GetBulkObjects ctx ids s;
  Ok (filterObjectsByMethod ctx objects requiredMethod).
Definition ListMissingScopedSHA256 (ctx : context) (organization project : string) (checksums : list string) (s : S)
  : result error (list string) :=
  let organization := TrimSpace organization in
  let project := TrimSpace project in
  if is_empty organization || is_empty project || bool_decide (checksums = []) then Err (EDef ErrAccessDenied)
  else
    _ ← requireScopeMethod ctx organization project objectMethodRead;
    existingByChecksum ← port_ListScopedObjectIDsByChecksums ctx organization project checksums s;
    Ok (filter (λ checksum, default [] (existingByChecksum !! checksum) = []) checksums).

(** ** Pages *)
Definition ListObjectIDsPageByScope (ctx : context) (organization project requiredMethod startAfter : string)
    (limit offset : Z) (s : S) : result error (list string) :=
  if (limit <=? 0)%Z then Ok []
  else
    let scan :=
      ids ← ListObjectIDsByScope ctx organization project requiredMethod s;
      match ids with [] => Ok [] | _ => page_after ids startAfter limit offset end in
    match port_ListObjectIDsPageByScope with
    | Some pages =>
        if canUseUnrestrictedScopePage ctx requiredMethod
        then pages ctx organization project startAfter limit offset s else scan
    | None => scan
    end.
Definition ListObjectIDsPageByChecksum (ctx : context)
    (checksum checksumType organization project requiredMethod startAfter : string) (limit offset : Z) (s : S)
  : result error (list string) :=
  if (limit <=? 0)%Z then Ok []
  else
    objects ←
      (if negb (is_empty (TrimSpace organization)) || negb (is_empty (TrimSpace project))
       then
         raw ← port_GetObjectsByChecksum ctx checksum s;
         let scoped := filter (λ obj, objectMatchesScope obj organization project = true) raw in
         Ok (canonicalizeProjectScopedObjects (filterObjectsByMethod ctx scoped requiredMethod) organization project)
       else Records.GetObjectsByChecksum ctx checksum requiredMethod s);
    let matching := filter (λ obj,
      (checksumType = "" ∨ RecordHasChecksumTypeAndValue obj checksumType checksum = true)
      ∧ (TrimSpace organization = "" ∨ objectMatchesScope obj organization project = true)) objects in
    page_after (r_Id <$> matching) startAfter limit offset.
Definition ListObjectIDsPageByURL (ctx : context) (objectURL organization project requiredMethod startAfter : string)
    (limit offset : Z) (s : S) : result error (list string) :=
  if (limit <=? 0)%Z then Ok []
  else
    let objectURL := TrimSpace objectURL in
    if is_empty objectURL then Ok []
    else match port_ListObjectIDsPageByURL with
         | Some urlPages =>
             let '(resources, includeUnscoped, restrictToResources) := objectMethodResourceFilter ctx requiredMethod in
             if IsGen3Mode ctx && IsAuthzEnforced ctx && negb (HasAuthHeader ctx) then Ok []
             else urlPages ctx objectURL organization project startAfter limit offset resources includeUnscoped
                    restrictToResources s
         | None =>
             ids ← ListObjectIDsByScope ctx organization project requiredMethod s;
             objects ← port_GetBulkObjects ctx ids s;
             page_after (r_Id <$> filter (λ obj, objectHasAccessURL obj objectURL = true) objects) startAfter limit offset
         end.

(** One batch of prepared objects: those past the cursor, not seen before, up to [target] in all. *)
Definition collect_step (startAfter : string) (target : Z) (collected : list ObjectRecord) (obj : ObjectRecord)
  : list ObjectRecord :=
  if (target <=? Z.of_nat (length collected))%Z then collected
  else if negb (is_empty startAfter) && String.leb (r_Id obj) startAfter then collected
  else if decide (r_Id obj ∈ r_Id <$> collected) then collected
  else collected ++ [obj].
(** The loop over raw pages; [None] when the fuel, one per page, runs out. *)
Fixpoint collect_pages (fuel : nat) (ctx : context) (organization project requiredMethod startAfter rawStart : string)
    (target batchSize : Z) (collected : list ObjectRecord) (s : S) : option (result error (list ObjectRecord)) :=
  if (target <=? Z.of_nat (length collected))%Z then Some (Ok collected)
  else match fuel with
  | O => None
  | Datatypes.S fuel =>
      match ListObjectIDsPageByScope ctx organization project requiredMethod rawStart batchSize 0 s with
      | Err e => Some (Err e)
      | Ok ids =>
          match last ids with
          | None => Some (Ok collected)
          | Some rawStart =>
              match GetPreparedScopedObjects ctx ids organization project requiredMethod s with
              | Err e => Some (Err e)
              | Ok prepared =>
                  let collected := foldl (collect_step startAfter target) collected prepared in
                  if (Z.of_nat (length ids) <? batchSize)%Z then Some (Ok collected)
                  else collect_pages fuel ctx organization project requiredMethod startAfter rawStart target batchSize
                         collected s
              end
          end
      end
  end.
Definition ListPreparedObjectsPageByScope (fuel : nat) (ctx : context)
    (organization project requiredMethod startAfter : string) (limit offset : Z) (s : S)
  : option (result error (list ObjectRecord)) :=
  if (limit <=? 0)%Z then Some (Ok [])
  else
    let offset := if (offset <? 0)%Z then 0%Z else offset in
    let startAfter := TrimSpace startAfter in
    let skip := if is_empty startAfter then offset else 0%Z in
    let target := wrap64 (limit + skip) in
    let batchSize := if (target <? 100)%Z then 100%Z else target in
    if (target <? 0)%Z then Some (panic "makeslice: cap out of range")
    else match collect_pages fuel ctx organization project requiredMethod startAfter startAfter target batchSize [] s with
         | Some (Ok collected) => Some (slice_page collected skip limit)
         | other => other
         end.
End listing.

(** ** The pagination parameters of a request: internal/httpapi/records/lookup.go *)
Definition defaultInternalListLimit : Z := 1000.
Definition maxInternalListLimit : Z := 10000.
(** [get] is the query of the request. *)
Definition parseInternalListPagination (get : string → string) : result error (Z * string * Z) :=
  let rawLimit := TrimSpace (get "limit") in
  limit ← (if is_empty rawLimit then Ok defaultInternalListLimit
           else match Atoi rawLimit with
                | None => Err (EText "limit must be an integer")
                | Some parsed => if (parsed <? 0)%Z then Err (EText "limit must be >= 0") else Ok parsed
                end);
  let limit := if (maxInternalListLimit <? limit)%Z then maxInternalListLimit else limit in
  let start := TrimSpace (get "start") in
  let rawPage := TrimSpace (get "page") in
  offset ← (if negb (is_empty start) || is_empty rawPage then Ok 0%Z
            else match Atoi rawPage with
                 | None => Err (EText "page must be an integer")
                 | Some page => if (page <? 0)%Z then Err (EText "page must be >= 0") else Ok (wrap64 (page * limit))
                 end);
  Ok (limit, start, offset).
