(* ===== verification/ListingProperties.v ===== *)
(** * What the listings guarantee for every repository
    Access to what they hand out, and the bounds of the pagination parameters. *)
From S2P Require Import Prelude GoStrings GoURL Errors Resources Policy Objects Canonical Records Listing.

(** ** Access *)
Section access.
Context `{MapOrder} `{Digests} {S : Type} `{!RecordPorts S}.

Lemma filterObjectsByMethod_has ctx objects method o :
  o ∈ filterObjectsByMethod ctx objects method ↔ o ∈ objects ∧ hasObjectMethod ctx o method = true.
Proof.
  unfold filterObjectsByMethod. destruct (is_empty (TrimSpace method)) eqn:Em.
  - assert (hasObjectMethod ctx o method = true) as -> by (unfold hasObjectMethod; cbv zeta; by rewrite Em). tauto.
  - rewrite list_elem_of_filter. tauto.
Qed.
(** A presented record stands for a group of records. *)
Definition stands_for (group : list ObjectRecord) (r : ObjectRecord) : Prop :=
  group ≠ [] ∧ (group = [r] ∨ r = collapseCanonicalGroup group).
Lemma canonicalizeProjectScopedObjects_groups objects organization project r :
  r ∈ canonicalizeProjectScopedObjects objects organization project → ∃ group, group ⊆ objects ∧ stands_for group r.
Proof.
  assert (r ∈ objects → ∃ group, group ⊆ objects ∧ stands_for group r) as Hself.
  { intros Hr. exists [r]. split; [by intros x ->%list_elem_of_singleton|]. split; [done|by left]. }
  unfold canonicalizeProjectScopedObjects. destruct objects as [|o1 [|o2 os]]; [exact Hself..|].
  set (objects := o1 :: o2 :: os) in *. cbv zeta. rewrite sort_Slice_Permutation.
  intros [(k & -> & Hk)%list_elem_of_fmap|[_ Hr]%list_elem_of_filter]%elem_of_app; [|by apply Hself].
  rewrite elem_of_sort_Strings in Hk. apply list_elem_of_fmap in Hk as ([k' g] & -> & Hg%elem_of_go_range). cbn [fst].
  rewrite Hg. apply group_by_lookup in Hg as [-> Hne]. eexists. split; [|split; [exact Hne|by right]].
  by intros x [_ Hx]%list_elem_of_filter.
Qed.

(** Every listing hands out only what the caller may access: the records of a lookup of many ids or
    checksums, and the physical records of a scope, pass the check themselves; a prepared record stands for
    a group of records of the scope, or of their siblings, each of which passes the check. *)
Theorem listings_authorised ctx method s :
  (∀ ids l, GetBulkObjects ctx ids method s = Ok l → ∀ o, o ∈ l → hasObjectMethod ctx o method = true) ∧
  (∀ hashes m, GetObjectsByChecksums ctx hashes method s = Ok m →
     ∀ sha l o, m !! sha = Some l → o ∈ l → hasObjectMethod ctx o method = true) ∧
  (∀ organization project l, ListPhysicalObjectsByScope ctx organization project method s = Ok l →
     ∀ o, o ∈ l → hasObjectMethod ctx o method = true) ∧
  (∀ objects organization project l, PrepareScopedObjects ctx objects organization project method s = Ok l →
     ∃ expanded, expandProjectChecksumSiblingObjects ctx objects organization project s = Ok expanded ∧
       ∀ r, r ∈ l → ∃ group, stands_for group r ∧
         ∀ o, o ∈ group → o ∈ expanded ∧ hasObjectMethod ctx o method = true).
Proof.
  split_and!.
  - intros ids l. unfold GetBulkObjects. intros (objects & _ & (siblings & _ & (canonical & _ & [= <-])%bind_Ok)%bind_Ok)%bind_Ok.
    intros o Ho. by apply filterObjectsByMethod_has in Ho as [_ ?].
  - intros hashes m. unfold GetObjectsByChecksums. intros (found & _ & [= <-])%bind_Ok sha l o.
    rewrite map_lookup_imap. destruct (found !! sha) as [objects|]; simpl; [|done]. intros [= <-] Ho.
    by apply filterObjectsByMethod_has in Ho as [_ ?].
  - intros organization project l. unfold ListPhysicalObjectsByScope. intros (ids & _ & (objects & _ & [= <-])%bind_Ok)%bind_Ok.
    intros o Ho. by apply filterObjectsByMethod_has in Ho as [_ ?].
  - intros objects organization project l. unfold PrepareScopedObjects. intros (expanded & Hexp & [= <-])%bind_Ok.
    exists expanded. split; [done|]. intros r (group & Hsub & Hst)%canonicalizeProjectScopedObjects_groups.
    exists group. split; [done|]. intros o Ho. by apply filterObjectsByMethod_has, Hsub.
Qed.
End access.

(** ** Bounds *)
(** The pagination parameters of a request: the limit is between 0 and 10000, a cursor excludes an offset, and
    the offset is the page times the limit unless that product leaves 64 bits; only then can it be negative. *)
Theorem pagination_bounds get limit start offset :
  parseInternalListPagination get = Ok (limit, start, offset) →
  (0 <= limit <= 10000)%Z ∧ int64 offset ∧ TrimSpace start = start ∧ (start ≠ "" → offset = 0%Z) ∧
  (offset = 0%Z ∨ ∃ page, Atoi (TrimSpace (get "page")) = Some page ∧ (0 <= page)%Z ∧
     (offset = (page * limit)%Z ∧ (0 <= offset)%Z ∨ (2 ^ 63 <= page * limit)%Z)).
Proof.
  unfold parseInternalListPagination. cbv zeta. intros (l & Hl & (off & Hoff & [= <- <- <-])%bind_Ok)%bind_Ok.
  assert (0 <= l)%Z as Hl0.
  { destruct (is_empty (TrimSpace (get "limit"))); [injection Hl as <-; done|].
    destruct (Atoi (TrimSpace (get "limit"))) as [v|]; [|done]. destruct (Z.ltb_spec v 0); [done|]. by injection Hl as <-. }
  set (limit := if (maxInternalListLimit <? l)%Z then maxInternalListLimit else l) in *.
  assert (0 <= limit <= 10000)%Z as Hlim by (unfold limit, maxInternalListLimit; destruct (Z.ltb_spec 10000 l); lia).
  destruct (negb (is_empty (TrimSpace (get "start"))) || is_empty (TrimSpace (get "page"))) eqn:Ec.
  { injection Hoff as <-. split; [done|]. split; [done|]. split; [apply TrimSpace_idemp|]. split; [done|by left]. }
  apply orb_false_iff in Ec as [Es%negb_false_iff%is_empty_spec _]. rewrite Es.
  destruct (Atoi (TrimSpace (get "page"))) as [page|]; [|done]. destruct (Z.ltb_spec page 0); [done|]. injection Hoff as <-.
  split; [done|]. split; [apply wrap64_int64|]. do 2 (split; [done|]). right. exists page. do 2 (split; [done|]).
  destruct (Z.lt_ge_cases (page * limit) (2 ^ 63)) as [Hlt|Hge]; [left|by right].
  rewrite wrap64_id; [split; [done|nia]|]. split; [|done]. assert (0 <= page * limit)%Z by nia. lia.
Qed.

Definition query (params : list (string * string)) (name : string) : string :=
  default "" ((list_to_map params : gmap string string) !! name).
(** A large page number makes the offset overflow: the product wraps to a negative offset, and the page of ids
    that is cut with it ends in a slice panic. *)
Theorem page_overflow_panics :
  let request := query [("limit", "10000"); ("page", "1000000000000000")] in
  ∃ offset, parseInternalListPagination request = Ok (10000%Z, "", offset) ∧ (offset < 0)%Z ∧
    page_after ["a"] "" 10000 offset = panic "slice bounds out of range".
Proof. eexists. split; [by vm_compute|]. split; [done|by vm_compute]. Qed.

Lemma pagination_bounds_witness :
  let request := query [("limit", "50000"); ("page", " 3 ")] in
  parseInternalListPagination request = Ok (10000%Z, "", 30000%Z) ∧ (0 <= 10000 <= 10000)%Z.
Proof.
  cbv zeta. assert (parseInternalListPagination (query [("limit", "50000"); ("page", " 3 ")]) = Ok (10000%Z, "", 30000%Z)) as Hp
    by by vm_compute.
  split; [exact Hp|]. exact (proj1 (pagination_bounds _ _ _ _ Hp)).
Defined.
