(* ===== verification/ContentReads.v ===== *)
(** * The read side of the content store: object_hydration.go and object_reads.go
    (internal/persistence/sqlite)
    A query is a function of the tables.  Rows come in table order unless the statement sorts them; TEXT
    columns compare bytewise, and LIKE ignores the case of ASCII letters.  The Go maps that collect objects
    by id are [gmap]s, visited in the order [go_range].  The limit of SQLite on bound parameters is left to
    the driver, except where the source splits its parameters itself. *)
From S2P Require Import Prelude GoStrings GoURL Errors Resources Policy Objects ContentStore.

(** ** One object *)
Definition rows_of {A} (table : list (string * A)) (id : string) : list A := (filter (λ row, row.1 = id) table).*2.
Lemma elem_of_rows_of {A} (table : list (string * A)) id a : a ∈ rows_of table id ↔ (id, a) ∈ table.
Proof.
  unfold rows_of. rewrite list_elem_of_fmap. split.
  - by intros ([i b] & -> & [[= ->] Hin]%list_elem_of_filter).
  - intros Hin. exists (id, a). split; [done|]. by apply list_elem_of_filter.
Qed.
Definition uniqueObjectsByID (objs : list ObjectRecord) : list ObjectRecord := dedup_on r_Id objs.
Definition normalizeChecksumLookup (value : string) : string := TrimPrefix (ToLower (TrimSpace value)) "sha256:".
(** A slice that stays nil when nothing is appended. *)
Definition appended {A} (l : list A) : option (list A) := match l with [] => None | _ => Some l end.

Section hydration.
Context `{MapOrder} `{Digests}.

Definition object_access_methods (db : DB) (id : string) : option (list AccessMethod) :=
  appended ((λ m, mkAccessMethod (Some (AccessMethodID m.2 m.1)) (Some (mkAccessURL None m.1)) None None None None m.2)
    <$> dedup_on (λ m, m.2 +:+ "|" +:+ m.1) (rows_of (access_method db) id)).
Definition object_checksums (db : DB) (id : string) : option (list Checksum) :=
  appended ((λ c, mkChecksum c.1 c.2) <$> dedup_on (λ c, c.1 +:+ "|" +:+ c.2) (rows_of (checksum db) id)).
Definition controlledAccessForObject (db : DB) (id : string) : list string :=
  NormalizeAccessResources (sort_Strings (rows_of (controlled_access db) id)).
Definition nameAliasesForObject (db : DB) (id : string) : list string :=
  NormalizeNameAliases "" (sort_Strings (rows_of (name_alias db) id)).
Definition publicReadForObject (db : DB) (id : string) (inferred : bool) : bool * bool :=
  match read_policy db !! id with Some public => (public, true) | None => (inferred, false) end.

(** The record of a row, given its name aliases and what a missing policy row means. *)
Definition hydrate (db : DB) (id : string) (row : object_row) (nameAliases : list string) (inferred : bool) : ObjectRecord :=
  let controlled := controlledAccessForObject db id in
  let '(public, known) := publicReadForObject db id inferred in
  mkRecord id (object_access_methods db id) None
    (match controlled with [] => None | _ => ControlledAccessToAuthzMap controlled end)
    (object_checksums db id) None (appended controlled) (o_created row) (Some (o_description row)) None
    (Some (TrimSpace (o_name row))) nameAliases (Some ∅) "" public known ("drs://" +:+ id) (o_size row)
    (Some (o_updated row)) (Some (o_version row)).

Definition ResolveObjectAlias (db : DB) (aliasID : string) : result error string :=
  let aliasID := TrimSpace aliasID in
  if is_empty aliasID then Err (EDef ErrObjectNotFound)
  else match object_alias db !! aliasID with
       | Some canonicalID => Ok canonicalID
       | None => Err (EDef ErrObjectNotFound)
       end.

(** The first pass looks the requested id up, the second the object its alias names. *)
Definition GetObject (db : DB) (id : string) : result error ObjectRecord :=
  let requestID := TrimSpace id in
  let found (lookupID : string) :=
    (λ row, hydrate db lookupID row (nameAliasesForObject db lookupID)
              (bool_decide (controlledAccessForObject db lookupID = []))) <$> drs_object db !! lookupID in
  match found requestID with
  | Some obj => Ok obj
  | None =>
      match ResolveObjectAlias db requestID with
      | Ok canonicalID =>
          if is_empty (TrimSpace canonicalID) then Err (EDef ErrObjectNotFound)
          else match found (TrimSpace canonicalID) with
               | Some obj => Ok obj
               | None => Err (EDef ErrObjectNotFound)
               end
      | Err e => if errors_Is e ErrNotFound then Err (EDef ErrObjectNotFound) else Err e
      end
  end.

(** ** Many objects *)
(** The name of the record is not repeated among its aliases here, unlike in [GetObject]. *)
Definition attachNameAliases (db : DB) (id : string) (row : object_row) : list string :=
  match rows_of (name_alias db) id with
  | [] => []
  | aliases => NormalizeNameAliases (TrimSpace (o_name row)) (sort_Strings aliases)
  end.
Definition attachPublicRead (db : DB) (id : string) : bool :=
  bool_decide (NormalizeAccessResources (controlledAccessForObject db id) = []).
Definition bulk_record (db : DB) (id : string) (row : object_row) : ObjectRecord :=
  hydrate db id row (attachNameAliases db id row) (attachPublicRead db id).

(** The WHERE clause of the bulk query. *)
Definition selected (db : DB) (ids checksums : list string) (id : string) : bool :=
  let shaQueries := omap NormalizeSHA256Query checksums in
  let genericQueries := TrimSpace <$> filter (λ c, NormalizeSHA256Query c = None) checksums in
  bool_decide (id ∈ ids)
  || bool_decide (id ∈ TrimSpace <$> checksums)
  || existsb (λ row, String.eqb row.1 id && sha_row row && bool_decide (sql_sha row.2.2 ∈ shaQueries)) (checksum db)
  || existsb (λ row, String.eqb row.1 id && bool_decide (row.2.2 ∈ genericQueries)) (checksum db).
Definition fetchObjectsByIDsOrChecksums (db : DB) (ids checksums : list string) : gmap string ObjectRecord :=
  map_imap (λ id row, if selected db ids checksums id then Some (bulk_record db id row) else None) (drs_object db).

(** What one requested id stands for.  Both ways to fail are not-found, which skips the id. *)
Definition bulk_lookup (db : DB) (objectsByID : gmap string ObjectRecord) (id : string) : option ObjectRecord :=
  match objectsByID !! id with
  | Some obj => Some obj
  | None =>
      match ResolveObjectAlias db id with
      | Ok resolved =>
          match objectsByID !! resolved with
          | Some obj => Some obj
          | None => match GetObject db resolved with Ok obj => Some obj | Err _ => None end
          end
      | Err _ => None
      end
  end.
Definition GetBulkObjects (db : DB) (ids : list string) : list ObjectRecord :=
  uniqueObjectsByID (omap (bulk_lookup db (fetchObjectsByIDsOrChecksums db ids [])) ids).

Definition GetObjectsByChecksum (db : DB) (checksum : string) : list ObjectRecord :=
  let checksum := TrimSpace checksum in
  if is_empty checksum then []
  else uniqueObjectsByID (go_range (fetchObjectsByIDsOrChecksums db [] [checksum])).*2.

(** The keys under which [GetObjectsByChecksums] files a record. *)
Definition index_keys (obj : ObjectRecord) : list string :=
  r_Id obj :: concat ((λ c,
    let value := TrimSpace (cs_Checksum c) in
    if is_empty value then []
    else value :: (if String.eqb (NormalizeChecksumType (cs_Type c)) "sha256"
                   then option_list (NormalizeSHA256Query value) else [])) <$> slice (r_Checksums obj)).
Definition add_index (index : gmap string (list ObjectRecord)) (obj : ObjectRecord) : gmap string (list ObjectRecord) :=
  foldl (λ index key, <[key := default [] (index !! key) ++ [obj]]> index) index (index_keys obj).
Definition GetObjectsByChecksums (db : DB) (checksums : list string) : gmap string (list ObjectRecord) :=
  match checksums with
  | [] => ∅
  | _ =>
      let index := foldl add_index ∅ (go_range (fetchObjectsByIDsOrChecksums db [] checksums)).*2 in
      foldl (λ result cs,
        let requested := TrimSpace cs in
        if is_empty requested then result
        else match index !! default requested (NormalizeSHA256Query requested) with
             | Some (_ :: _ as objs) => <[requested := uniqueObjectsByID objs]> result
             | _ => result
             end) ∅ checksums
  end.
End hydration.

(** ** Lists of ids *)
Section queries.
Context `{MapOrder}.

(** [SELECT id FROM drs_object WHERE p ORDER BY id] *)
Definition select_ids (db : DB) (p : string → bool) : list string :=
  sort_Strings (fst <$> filter (λ e, p e.1 = true) (go_range (drs_object db))).
(** [EXISTS (SELECT 1 FROM drs_object_controlled_access WHERE object_id = id AND p resource)] *)
Definition has_grant (db : DB) (p : string → bool) (id : string) : bool := existsb p (rows_of (controlled_access db) id).
Definition unscoped (db : DB) (id : string) : bool := negb (has_grant db (λ _, true) id).
Definition any_of (resources : list string) (resource : string) : bool := bool_decide (resource ∈ resources).

(** The condition on a resource column; the pattern of LIKE is escaped, so it is a prefix test. *)
Definition sqliteScopeResourceCondition (organization project : string) : result error (string → bool) :=
  resource ← ResourcePath organization project;
  Ok (if is_empty (TrimSpace project)
      then λ column, String.eqb column resource || HasPrefix (ToLower column) (ToLower (resource +:+ "/project/"))
      else String.eqb resource).
(** LIMIT and OFFSET, after the clamping of the arguments. *)
Definition page (limit offset : Z) (ids : list string) : list string :=
  take (Z.to_nat limit) (drop (Z.to_nat (Z.max 0 offset)) ids).
Definition after (startAfter id : string) : bool := is_empty startAfter || String.ltb startAfter id.

Definition ListObjectIDsByScope (db : DB) (organization project : string) : result error (list string) :=
  let organization := TrimSpace organization in
  let project := TrimSpace project in
  if is_empty organization then Ok (select_ids db (λ _, true))
  else if is_empty project
  then
    condition ← sqliteScopeResourceCondition organization "";
    Ok (select_ids db (has_grant db condition))
  else
    resource ← ResourcePath organization project;
    Ok (select_ids db (has_grant db (String.eqb resource))).

Definition resource_filter (db : DB) (resources : list string) (includeUnscoped : bool) (id : string) : bool :=
  has_grant db (any_of resources) id || (includeUnscoped && unscoped db id).
Definition ListObjectIDsByResources (db : DB) (resources : list string) (includeUnscoped : bool) : list string :=
  let resources := NormalizeAccessResources resources in
  if bool_decide (resources = []) && negb includeUnscoped then []
  else select_ids db (resource_filter db resources includeUnscoped).

Definition ListObjectIDsPageByScope (db : DB) (organization project startAfter : string) (limit offset : Z)
  : result error (list string) :=
  let organization := TrimSpace organization in
  let project := TrimSpace project in
  let startAfter := TrimSpace startAfter in
  if (limit <=? 0)%Z then Ok []
  else
    inScope ← (if is_empty organization then Ok (λ _, true)
               else condition ← sqliteScopeResourceCondition organization project; Ok (has_grant db condition));
    Ok (page limit offset (select_ids db (λ id, inScope id && after startAfter id))).
Definition ListObjectIDsPageByResources (db : DB) (resources : list string) (includeUnscoped : bool)
    (startAfter : string) (limit offset : Z) : list string :=
  let resources := NormalizeAccessResources resources in
  let startAfter := TrimSpace startAfter in
  if (limit <=? 0)%Z || (bool_decide (resources = []) && negb includeUnscoped) then []
  else page limit offset (select_ids db (λ id, resource_filter db resources includeUnscoped id && after startAfter id)).

Definition ListObjectIDsByScopeAndResources (db : DB) (organization project : string) (resources : list string)
    (restrictToResources : bool) : result error (list string) :=
  let organization := TrimSpace organization in
  let project := TrimSpace project in
  if is_empty organization
  then Ok (if restrictToResources then ListObjectIDsByResources db resources false else select_ids db (λ _, true))
  else
    condition ← sqliteScopeResourceCondition organization project;
    if restrictToResources
    then
      let resources := NormalizeAccessResources resources in
      if bool_decide (resources = []) then Ok []
      else Ok (select_ids db (λ id, has_grant db condition id && has_grant db (any_of resources) id))
    else Ok (select_ids db (has_grant db condition)).

(** Rows (match key, object id), in order; [scanChecksumMatchRows] skips a repeated row. *)
Definition scanChecksumMatchRows (rows : list (string * string)) : gmap string (list string) :=
  foldl (λ out row,
    let ids := default [] (out !! row.1) in
    if bool_decide (last ids = Some row.2) then out else <[row.1 := ids ++ [row.2]]> out) ∅ rows.
Definition ListObjectIDsByChecksumsAndResources (db : DB) (checksums resources : list string)
    (includeUnscoped restrictToResources : bool) : gmap string (list string) :=
  let checksums := filter (.≠ "") (TrimSpace <$> checksums) in
  let resources := NormalizeAccessResources resources in
  if bool_decide (checksums = []) then ∅
  else if restrictToResources && bool_decide (resources = []) && negb includeUnscoped then ∅
  else
    let keys (id : string) := filter (λ key, (key = id ∧ id ∈ checksums) ∨
        existsb (λ row, String.eqb row.2.2 key && bool_decide (sql_sha row.2.2 ∈ checksums))
          (filter (λ row, row.1 = id) (checksum db)) = true)
      (dedup (id :: (rows_of (checksum db) id).*2)) in
    let ids := select_ids db (λ id, negb restrictToResources || resource_filter db resources includeUnscoped id) in
    let matched := concat ((λ id, (λ key, (key, id)) <$> keys id) <$> ids) in
    scanChecksumMatchRows (concat ((λ key, filter (λ row, row.1 = key) matched) <$> sort_Strings (dedup matched.*1))).

Definition ListObjectIDsPageByURL (db : DB) (objectURL organization project startAfter : string) (limit offset : Z)
    (resources : list string) (includeUnscoped restrictToResources : bool) : result error (list string) :=
  let objectURL := TrimSpace objectURL in
  let organization := TrimSpace organization in
  let project := TrimSpace project in
  let startAfter := TrimSpace startAfter in
  if is_empty objectURL || (limit <=? 0)%Z then Ok []
  else
    inScope ← (if is_empty organization then Ok (λ _, true)
               else condition ← sqliteScopeResourceCondition organization project; Ok (has_grant db condition));
    let resources := NormalizeAccessResources resources in
    if restrictToResources && bool_decide (resources = []) && negb includeUnscoped then Ok []
    else Ok (page limit offset (select_ids db (λ id,
      existsb (λ m, String.eqb m.1 objectURL) (rows_of (access_method db) id) && inScope id
      && (negb restrictToResources || resource_filter db resources includeUnscoped id) && after startAfter id))).

(** *** Checksums within a project *)
(** The ids of the project with a SHA-256 row that reads as [value]. *)
Definition scoped_owners (db : DB) (resource value : string) : list string :=
  sort_Strings (dedup (fst <$> filter (λ row,
    sha_row row && String.eqb (sql_sha row.2.2) value && bool_decide ((row.1, resource) ∈ controlled_access db) = true)
    (checksum db))).
(** One row (identifier, object id) of the query. *)
Definition scan_scoped (out : gmap string (list string)) (row : string * string) : gmap string (list string) :=
  let checksum := TrimSpace row.1 in
  let objectID := TrimSpace row.2 in
  let ids := default [] (out !! checksum) in
  if is_empty checksum || is_empty objectID || bool_decide (objectID ∈ ids) then out
  else <[checksum := ids ++ [objectID]]> out.
Definition maxChecksums : nat := sqliteMaxParams - 2.
Fixpoint chunks_of {A} (fuel n : nat) (l : list A) : list (list A) :=
  match fuel, l with
  | S fuel, _ :: _ => take n l :: chunks_of fuel n (drop n l)
  | _, _ => []
  end.
(** One call: [recurse] answers for the chunks of a list that is too long for one statement. *)
Definition scoped_call (recurse : list string → result error (gmap string (list string))) (db : DB)
    (organization project : string) (checksums : list string) : result error (gmap string (list string)) :=
  let organization := TrimSpace organization in
  let project := TrimSpace project in
  if is_empty organization || is_empty project || bool_decide (checksums = []) then Ok ∅
  else
    resource ← ResourcePath organization project;
    let normalized := dedup (filter (.≠ "") (normalizeChecksumLookup <$> checksums)) in
    if bool_decide (normalized = []) then Ok ∅
    else if decide (maxChecksums < length normalized)
    then foldlM (λ out chunk,
           part ← recurse chunk;
           Ok (foldl (λ out e, <[e.1 := default [] (out !! e.1) ++ e.2]> out) out (go_range part)))
           ∅ (chunks_of (length normalized) maxChecksums normalized)
    else
      let rows := concat ((λ value, (λ id, (value, id)) <$> scoped_owners db resource value) <$> sort_Strings normalized) in
      Ok (foldl scan_scoped (list_to_map ((λ value, (value, [])) <$> normalized)) rows).
(** A chunk fits in one statement, so the inner call does not recurse. *)
Definition ListScopedObjectIDsByChecksums (db : DB) (organization project : string) (checksums : list string)
  : result error (gmap string (list string)) :=
  scoped_call (scoped_call (λ _, Ok ∅) db organization project) db organization project checksums.
End queries.
