(* ===== verification/ContentPorts.v ===== *)
(** * The SQLite repository behind the record service
    The reads of ContentReads and the transactions of ContentStore implement the ports of the record service.
    The file then proves what the service may rely on: in a reachable database a read hands out each stored
    object once, under a trimmed id, and the checksums it hands out show the identifier that the identity
    index has for the object. *)
From S2P Require Import Prelude GoStrings GoURL Errors Resources Policy Objects ContentStore ContentInvariant ContentReads Canonical Records RecordMutations RecordProperties RecordCollapse.

Section ports.
Context `{MapOrder} `{Digests} (now : Z).
(** [now] is the time a transaction reads from the clock. *)
#[local] Instance sqlite_ports : RecordPorts DB := {|
  port_GetObject := λ _ id db, ContentReads.GetObject db id;
  port_GetBulkObjects := λ _ ids db, Ok (GetBulkObjects db ids);
  port_DeleteObject := ContentStore.DeleteObject;
  port_CreateObject := λ ctx obj, ContentStore.CreateObject ctx now (Some obj);
  port_BulkDeleteObjects := ContentStore.BulkDeleteObjects;
  port_RegisterObjects := λ ctx, ContentStore.RegisterObjects ctx now;
  port_ReplaceObjects := λ ctx, ContentStore.ReplaceObjects ctx now;
  port_UpdateObjectAccessMethods := ContentStore.UpdateObjectAccessMethods;
  port_BulkUpdateAccessMethods := ContentStore.BulkUpdateAccessMethods;
  port_RemoveObjectControlledAccess := ContentStore.RemoveObjectControlledAccess;
  port_RemoveObjectControlledAccessBulk := ContentStore.RemoveObjectControlledAccessBulk;
  port_DeleteObjectAlias := λ _, ContentStore.DeleteObjectAlias;
  port_CreateObjectAlias := ContentStore.CreateObjectAlias;
  port_ResolveObjectAlias := λ _ id db, ResolveObjectAlias db id;
  port_GetObjectsByChecksum := λ _ sha db, Ok (ContentReads.GetObjectsByChecksum db sha);
  port_GetObjectsByChecksums := λ _ shas db, Ok (GetObjectsByChecksums db shas);
  port_ListScopedObjectIDsByChecksums := λ _ org project shas db, ListScopedObjectIDsByChecksums db org project shas;
  port_ListObjectIDsByScope := λ _ org project db, ListObjectIDsByScope db org project;
  port_ListObjectIDsByResources := Some (λ _ resources unscoped db, Ok (ListObjectIDsByResources db resources unscoped));
  port_ListObjectIDsPageByScope := Some (λ _ org project startAfter limit offset db,
    ListObjectIDsPageByScope db org project startAfter limit offset);
  port_ListObjectIDsPageByURL := Some (λ _ url org project startAfter limit offset resources unscoped restrict db,
    ListObjectIDsPageByURL db url org project startAfter limit offset resources unscoped restrict);
  port_ListObjectIDsByScopeAndResources := Some (λ _ org project resources restrict db,
    ListObjectIDsByScopeAndResources db org project resources restrict);
  port_ListObjectIDsByChecksumsAndResources := Some (λ _ shas resources unscoped restrict db,
    Ok (ListObjectIDsByChecksumsAndResources db shas resources unscoped restrict)) |}.
End ports.

(** ** SHA-256 rows, as Go reads them *)
Definition bar : Ascii.ascii := Ascii.ascii_of_nat 124.
(** A stored SHA-256 row holds an identifier, or a value that neither Go nor the identity index takes for one. *)
Definition honest_row (row : string * (string * string)) : Prop :=
  sql_type row.2.1 = NormalizeChecksumType row.2.1 ∧
  (sql_type row.2.1 = "sha256" →
     valid_oid row.2.2 ∨ (NormalizeOid row.2.2 = "" ∧ NormalizeOid (sql_sha row.2.2) = "")).
Definition honest (db : DB) : Prop := ∀ row, row ∈ checksum db → honest_row row.

Lemma sha_type_bar typ : sql_type typ = "sha256" → bar ∉ chars typ.
Proof.
  intros Ht Hc. assert (bar ∈ chars (sql_type typ)) as Hin; [|rewrite Ht in Hin; vm_compute in Hin; set_solver].
  unfold sql_type. apply ReplaceAll_keeps; [by vm_compute; set_solver|].
  change bar with (lower_char bar). apply ToLower_keeps. unfold sql_trim, Trim. apply trim_keeps; [|done].
  repeat constructor. vm_compute. set_solver.
Qed.
Lemma valid_oid_bar v : valid_oid v → bar ∉ chars v.
Proof.
  intros [_ Hv] Hc. rewrite forallb_forall in Hv. specialize (Hv bar). rewrite <- list_elem_of_In in Hv.
  by specialize (Hv Hc).
Qed.

Lemma raw_checksum_honest c typ value id :
  clean_checksum c → raw_checksum c = Some (typ, value) → honest_row (id, (typ, value)).
Proof.
  intros Hcl Hraw. pose proof (Hcl _ _ Hraw) as Hs. unfold raw_checksum in Hraw. cbv zeta in Hraw.
  destruct (_ || _) eqn:E; [done|]. injection Hraw as <- <-.
  apply orb_false_iff in E as [_ E]. split; simpl in *.
  - rewrite sql_type_TrimSpace. unfold NormalizeChecksumType. by rewrite TrimSpace_idemp.
  - intros Ht. right. split; [|by apply Hs]. rewrite sql_type_TrimSpace in Ht.
    assert (NormalizeChecksumType (TrimSpace (cs_Type c)) = "sha256") as Hn.
    { rewrite <- Ht. unfold NormalizeChecksumType. by rewrite TrimSpace_idemp. }
    rewrite Hn in E. simpl in E. apply negb_false_iff in E. by apply is_empty_spec.
Qed.
Lemma sha_row_honest typ s id : sql_type typ = NormalizeChecksumType typ → valid_oid s → honest_row (id, (typ, s)).
Proof. intros Ht Hs. split; [done|]. by left. Qed.
Lemma raw_rows_honest (l : list Checksum) (c : string) row :
  Forall clean_checksum l → row ∈ (λ r, (c, r)) <$> omap raw_checksum l → honest_row row.
Proof.
  intros Hl ([typ value] & -> & (ck & Hin & Hraw)%list_elem_of_omap)%list_elem_of_fmap.
  rewrite Forall_forall in Hl. eapply raw_checksum_honest; [by apply Hl|done].
Qed.

Lemma elem_of_insert_raw table c l row :
  row ∈ insert_raw_checksums table c l → row ∈ table ∨ row ∈ (λ r, (c, r)) <$> omap raw_checksum l.
Proof.
  unfold insert_raw_checksums. revert table. induction (omap raw_checksum l) as [|r rs IH]; intros table; [by left|].
  csimpl. rewrite elem_of_cons. intros [Hin|?]%IH; [|by right; right]. unfold insert_if_absent in Hin. case_decide; [by left|].
  apply elem_of_app in Hin as [?| ->%list_elem_of_singleton]; [by left|right; by left].
Qed.
Lemma registered_honest table c sha obj :
  (∀ row, row ∈ table → honest_row row) → clean_record obj → (∀ s, sha = Some s → valid_oid s) →
  ∀ row, row ∈ registered_checksums table c sha obj → honest_row row.
Proof.
  intros Ht Hcl Hsha row [Hin|Hin]%elem_of_insert_raw; [|by eapply raw_rows_honest].
  destruct sha as [s|]; [|by apply Ht]. unfold insert_sha in Hin. destruct (existsb _ _); [by apply Ht|].
  apply elem_of_app in Hin as [?| ->%list_elem_of_singleton]; [by apply Ht|].
  apply sha_row_honest; [by vm_compute|by apply Hsha].
Qed.
Lemma replaced_honest table c sha obj :
  (∀ row, row ∈ table → honest_row row) → clean_record obj → (∀ s, sha = Some s → valid_oid s) →
  ∀ row, row ∈ replaced_checksums table c sha obj → honest_row row.
Proof.
  intros Ht Hcl Hsha row. unfold replaced_checksums, clean_record in *. destruct (r_Checksums obj) as [l|]; [|by apply Ht].
  simpl in Hcl. rewrite elem_of_app. intros [[_ Hin]%list_elem_of_filter|Hin]; [|by eapply raw_rows_honest].
  destruct sha as [s|]; [|by apply Ht]. set (updated := _ <$> table) in Hin.
  assert (row ∈ updated → honest_row row) as Hup.
  { intros ([id [typ raw]] & -> & Hr)%list_elem_of_fmap. apply Ht in Hr as Hh. simpl.
    destruct (String.eqb id c && _); [|done]. apply sha_row_honest; [apply Hh|by apply Hsha]. }
  destruct (existsb _ _); [by apply Hup|]. apply elem_of_app in Hin as [?| ->%list_elem_of_singleton]; [by apply Hup|].
  apply sha_row_honest; [by vm_compute|by apply Hsha].
Qed.
Lemma run_op_honest `{MapOrder} op db : honest db → Forall clean_record (incoming op) → honest (run_op op db).1.
Proof.
  intros Hdb Hcl. rewrite Forall_forall in Hcl. apply run_op_rule; auto.
  - intros now db1 ids. unfold honest. by destruct (flush_effect now db1 ids) as (_&->&_).
  - intros ctx obj db1 db2 c Hin H1 (sha & public & Hreg)%registerContentTx_effect.
    unfold honest. rewrite (reg_checksum _ _ _ _ _ _ _ Hreg). apply registered_honest; auto.
    intros s ->. eapply ValidateCanonicalSHA256_valid, (reg_sha _ _ _ _ _ _ _ Hreg).
  - intros ctx obj db1 db2 c Hin H1 (sha & public & Hrep)%replaceObjectTx_effect.
    unfold honest. rewrite (rep_checksum _ _ _ _ _ _ _ Hrep). apply replaced_honest; auto.
    intros s ->. eapply ValidateCanonicalSHA256_valid, (rep_sha _ _ _ _ _ _ _ Hrep).
  - intros ids _ row [_ Hin]%list_elem_of_filter. by apply Hdb.
Qed.
Lemma reachable_honest `{MapOrder} db : reachable db → honest db.
Proof. induction 1 as [|op db _ IH Hcl]; [by intros row Hin%elem_of_nil|by apply run_op_honest]. Qed.

(** ** What a read hands out *)
Section hydration.
Context `{MapOrder} `{Digests}.

Lemma hydrate_Id db id row al inf : r_Id (hydrate db id row al inf) = id.
Proof. unfold hydrate. by destruct (publicReadForObject _ _ _). Qed.
Lemma hydrate_checksums db id row al inf : r_Checksums (hydrate db id row al inf) = object_checksums db id.
Proof. unfold hydrate. by destruct (publicReadForObject _ _ _). Qed.
Lemma slice_appended {A} (l : list A) : slice (appended l) = l.
Proof. by destruct l. Qed.
(** The identifiers of a hydrated record are those the identity index has for its object. *)
Lemma object_checksums_SHA db id v :
  honest db → store_inv db → valid_oid v →
  v ∈ SHA256Values (slice (object_checksums db id)) ↔ claims (checksum db) id v.
Proof.
  intros Hh Hinv Hv. rewrite elem_of_SHA256Values. unfold object_checksums. rewrite slice_appended. split.
  - intros (c & ([typ raw] & -> & Hin)%list_elem_of_fmap & Hc). apply elem_of_dedup_on in Hin. apply (proj1 (elem_of_rows_of _ _ _)) in Hin.
    destruct (Hh _ Hin) as [Ht Hr]. simpl in *. unfold sha256_of in Hc. simpl in Hc. rewrite <- Ht in Hc.
    destruct (String.eqb_spec (sql_type typ) "sha256") as [Et|]; [|done]. cbv zeta in Hc.
    destruct (is_empty (NormalizeOid raw)) eqn:Ee; [done|]. injection Hc as Hc. apply is_empty_false in Ee.
    destruct (Hr Et) as [Hok|[Hno _]]; [|done]. rewrite NormalizeOid_id in Hc by done. subst raw.
    exists typ, v. split_and!; [done..|by apply sql_sha_valid].
  - intros (typ & raw & Hin & Ht & Hsv). destruct (Hh _ Hin) as [Hn Hr]. simpl in *.
    destruct (Hr Ht) as [Hok|[_ Hno]].
    2: { rewrite Hsv, NormalizeOid_id in Hno by done. exfalso. by eapply is_empty_false, Hno; apply valid_oid_not_empty. }
    rewrite sql_sha_valid in Hsv by done. subst raw.
    destruct (dedup_on_complete (λ c : string * string, c.1 +:+ "|" +:+ c.2) (rows_of (checksum db) id) (typ, v))
      as ([typ' raw'] & Hy & Hkey); [by apply elem_of_rows_of|].
    cbn [fst snd] in Hkey. apply (split_once_string _ _ _ _ bar) in Hkey as [E1 E2]; [|by apply sha_type_bar|by apply valid_oid_bar].
    subst typ' raw'.
    exists (mkChecksum typ v). split; [apply list_elem_of_fmap; by exists (typ, v)|].
    unfold sha256_of. simpl. rewrite <- Hn, Ht. simpl. by rewrite NormalizeOid_id, valid_oid_not_empty.
Qed.
Lemma hydrate_content db id row al inf v :
  honest db → store_inv db →
  content_key (hydrate db id row al inf) = Some v ↔ valid_oid v ∧ claims (checksum db) id v.
Proof.
  intros Hh Hinv. unfold content_key. rewrite hydrate_checksums. split.
  - intros Hk. pose proof (CanonicalSHA256_valid _ _ Hk) as Hv. split; [done|].
    apply (object_checksums_SHA db id v Hh Hinv Hv). unfold CanonicalSHA256 in Hk. by apply head_Some_elem_of.
  - intros [Hv Hc]. apply (object_checksums_SHA db id v Hh Hinv Hv) in Hc as Hin. unfold CanonicalSHA256.
    destruct (SHA256Values (slice (object_checksums db id))) as [|w ws] eqn:Ew; [by apply elem_of_nil in Hin|].
    simpl. f_equal. assert (w ∈ SHA256Values (slice (object_checksums db id))) as Hw by (rewrite Ew; by left).
    assert (valid_oid w) as Hvw.
    { apply elem_of_SHA256Values in Hw as (c & _ & Hc'). by eapply sha256_of_valid. }
    apply (object_checksums_SHA db id w Hh Hinv Hvw) in Hw. by eapply (inv_single Hinv).
Qed.

Lemma fetch_lookup db ids checksums id obj :
  fetchObjectsByIDsOrChecksums db ids checksums !! id = Some obj ↔
  ∃ row, drs_object db !! id = Some row ∧ selected db ids checksums id = true ∧ obj = bulk_record db id row.
Proof.
  unfold fetchObjectsByIDsOrChecksums. rewrite map_lookup_imap. destruct (drs_object db !! id) as [row|]; simpl.
  - destruct (selected db ids checksums id); split.
    + intros [= <-]. by exists row.
    + by intros (? & [= <-] & _ & ->).
    + done.
    + by intros (? & _ & ? & _).
  - split; [done|]. by intros (? & ? & _).
Qed.
Lemma GetObject_stored db id obj : ContentReads.GetObject db id = Ok obj → r_Id obj ∈ dom (drs_object db).
Proof.
  unfold ContentReads.GetObject. cbv zeta.
  destruct (drs_object db !! TrimSpace id) as [row|] eqn:E1; simpl.
  { intros [= <-]. rewrite hydrate_Id. by eapply elem_of_dom_2. }
  destruct (ResolveObjectAlias db (TrimSpace id)) as [c|e]; [|by destruct (errors_Is e ErrNotFound)].
  destruct (is_empty _); [done|]. destruct (drs_object db !! TrimSpace c) as [row|] eqn:E2; simpl; [|done].
  intros [= <-]. rewrite hydrate_Id. by eapply elem_of_dom_2.
Qed.
Lemma GetBulkObjects_stored db ids obj : obj ∈ GetBulkObjects db ids → r_Id obj ∈ dom (drs_object db).
Proof.
  unfold GetBulkObjects, uniqueObjectsByID. intros Hin. apply elem_of_dedup_on in Hin.
  apply list_elem_of_omap in Hin as (id & _ & Hl). revert Hl. unfold bulk_lookup.
  assert (∀ i o, fetchObjectsByIDsOrChecksums db ids [] !! i = Some o → r_Id o ∈ dom (drs_object db)) as Hf.
  { intros i o (row & Hrow & _ & ->)%fetch_lookup. unfold bulk_record. rewrite hydrate_Id. by eapply elem_of_dom_2. }
  destruct (_ !! id) as [o|] eqn:E1; [intros [= <-]; by eapply Hf|].
  destruct (ResolveObjectAlias db id) as [c|]; [|done].
  destruct (_ !! c) as [o|] eqn:E2; [intros [= <-]; by eapply Hf|].
  destruct (ContentReads.GetObject db c) as [o|] eqn:E3; [|done]. intros [= <-]. by eapply GetObject_stored.
Qed.
(** The condition the collapse of duplicates asks of its reads. *)
Lemma sqlite_physical_reads now ctx db :
  store_inv db → @physical_reads _ (sqlite_ports now) ctx db.
Proof.
  intros Hinv ids l [= <-]. split; [apply NoDup_dedup_on|].
  intros o Ho%GetBulkObjects_stored. by apply (inv_ids Hinv).
Qed.
End hydration.
