(* ===== verification/ContentQueries.v ===== *)
(** * What the queries of the content store answer
    Keyset paging enumerates a listing without gaps or repetitions, and the splitting of a long list of
    checksums over several statements cannot be observed. *)
From S2P Require Import Prelude GoStrings GoURL Errors Resources Policy Objects ContentStore ContentInvariant ContentProperties ContentReads.

(** ** Listings *)
Section listings.
Context `{MapOrder}.

Lemma NoDup_select_ids db p : NoDup (select_ids db p).
Proof.
  apply NoDup_sort_Strings. eapply sublist_NoDup; [apply (NoDup_fst_go_range (drs_object db))|].
  apply fmap_sublist, sublist_filter.
Qed.
Lemma elem_of_select_ids db p id : id ∈ select_ids db p ↔ id ∈ dom (drs_object db) ∧ p id = true.
Proof.
  unfold select_ids. rewrite elem_of_sort_Strings, list_elem_of_fmap, elem_of_dom. split.
  - intros ([i row] & -> & [Hp Hin%elem_of_go_range]%list_elem_of_filter). split; [by exists row|done].
  - intros [[row Hrow] Hp]. exists (id, row). split; [done|]. apply list_elem_of_filter. split; [done|]. by apply elem_of_go_range.
Qed.
Lemma select_ids_filter db p q : select_ids db (λ id, p id && q id) = filter (λ id, q id = true) (select_ids db p).
Proof.
  apply sort_Strings_unique; [apply sorted_filter, sort_Strings_sorted|].
  apply NoDup_Permutation.
  - apply NoDup_filter, NoDup_select_ids.
  - rewrite <- sort_Strings_Permutation. apply (NoDup_select_ids db (λ id, p id && q id)).
  - intros id. rewrite list_elem_of_filter, elem_of_select_ids.
    rewrite <- (elem_of_sort_Strings (fst <$> _)). rewrite (elem_of_select_ids db (λ id, p id && q id)), andb_true_iff. tauto.
Qed.
Lemma length_select_ids db p : length (select_ids db p) ≤ size (drs_object db).
Proof.
  rewrite <- size_dom, <- (size_list_to_set (C := gset string)) by apply NoDup_select_ids.
  apply subseteq_size. intros id Hid%elem_of_list_to_set. apply elem_of_select_ids in Hid. apply Hid.
Qed.

(** ** Paging
    A client that asks for the first page and then for the page after the last id it has seen. *)
Fixpoint walk (fuel : nat) (read : string → result error (list string)) (startAfter : string) : result error (list string) :=
  match fuel with
  | O => Ok []
  | S fuel =>
      ids ← read startAfter;
      match last ids with
      | None => Ok []
      | Some lastID => rest ← walk fuel read lastID; Ok (ids ++ rest)
      end
  end.

Definition page_of (l : list string) (limit : nat) (startAfter : string) : list string :=
  take limit (filter (λ id, after startAfter id = true) l).
Lemma filter_after_suffix (l : list string) s r1 x r2 :
  StronglySorted String.le l → NoDup l → x ≠ "" → filter (λ id, after s id = true) l = r1 ++ x :: r2 →
  filter (λ id, after x id = true) l = r2.
Proof.
  intros Hs Hnd Hx Hr. rewrite <- (filter_ltb_suffix r1 x r2).
  - rewrite <- Hr, list_filter_filter. apply list_filter_iff. intros id. unfold after. apply is_empty_false in Hx. rewrite Hx.
    simpl. split; [|tauto]. intros Hlt. split; [done|].
    assert (x ∈ filter (λ id, after s id = true) l) as Hin by (rewrite Hr; apply elem_of_app; right; by left).
    apply list_elem_of_filter in Hin as [Hsx _]. unfold after in Hsx. destruct (is_empty s); [done|]. simpl in *. by eapply ltb_trans.
  - rewrite <- Hr. by apply sorted_filter.
  - rewrite <- Hr. by apply NoDup_filter.
Qed.
Lemma walk_from (l : list string) limit read fuel s :
  StronglySorted String.le l → NoDup l → (∀ id, id ∈ l → id ≠ "") → 0 < limit →
  (∀ s, s = "" ∨ s ∈ l → read s = Ok (page_of l limit s)) → s = "" ∨ s ∈ l →
  length (filter (λ id, after s id = true) l) < fuel →
  walk fuel read s = Ok (filter (λ id, after s id = true) l).
Proof.
  intros Hsort Hnd Hne Hlim Hread. revert s. induction fuel as [|fuel IH]; intros s Hs Hlen; [lia|]. cbn [walk].
  rewrite Hread by done. set (r := filter (λ id, after s id = true) l) in *. unfold page_of. fold r.
  change (mbind ?f (Ok ?a)) with (f a). cbv beta. transitivity (Ok (E := error) (take limit r ++ drop limit r)); [|by rewrite take_drop]. destruct (last (take limit r)) as [x|] eqn:Elast.
  - apply last_Some in Elast as [r1 Er1]. assert (r = r1 ++ x :: drop limit r) as Er.
    { rewrite <- (take_drop limit r) at 1. by rewrite Er1, <- (assoc_L (++)). }
    assert (x ∈ l) as Hx.
    { assert (x ∈ r) as Hin by (rewrite Er; apply elem_of_app; right; by left). subst r. apply list_elem_of_filter in Hin. apply Hin. }
    pose proof (filter_after_suffix l s r1 x (drop limit r) Hsort Hnd (Hne x Hx) Er) as Hsuf.
    rewrite (IH x); [|by right|].
    + rewrite Hsuf. done.
    + rewrite Hsuf. rewrite Er, length_app in Hlen. simpl in Hlen. lia.
  - apply last_None in Elast. rewrite Elast. apply take_nil_inv in Elast as [?|Hr]; [lia|]. by rewrite Hr, drop_nil.
Qed.
Lemma page_spec db p limit s :
  page limit 0 (select_ids db (λ id, p id && after s id)) = page_of (select_ids db p) (Z.to_nat limit) s.
Proof. unfold page, page_of. by rewrite select_ids_filter, drop_0. Qed.
Lemma walk_select db p limit read fuel :
  store_inv db → (0 < limit)%Z → size (drs_object db) < fuel →
  (∀ s, TrimSpace s = s → read s = Ok (page limit 0 (select_ids db (λ id, p id && after s id)))) →
  walk fuel read "" = Ok (select_ids db p).
Proof.
  intros Hinv Hlim Hfuel Hread. assert (∀ l : list string, filter (λ id, after "" id = true) l = l) as Hall.
  { induction l as [|x l IH]; [done|]. rewrite filter_cons_True by done. by rewrite IH. }
  rewrite (walk_from (select_ids db p) (Z.to_nat limit)); [by rewrite Hall|apply sort_Strings_sorted|apply NoDup_select_ids| |lia| |by left|].
  - intros id [Hd _]%elem_of_select_ids. by apply (inv_ids Hinv).
  - intros s Hs. rewrite Hread, page_spec; [done|]. destruct Hs as [->|Hs]; [done|]. apply elem_of_select_ids in Hs as [Hd _].
    by apply (inv_ids Hinv).
  - rewrite Hall. pose proof (length_select_ids db p). lia.
Qed.

(** Reading the pages of a scope one after the other, each from the last id of the page before, gives the
    whole listing of the scope, every id once and in order, for every page size, and reports the same error
    when the scope is not valid; as many reads as there are objects, and one more, are enough. *)
Theorem scope_pages_enumerate db organization project limit fuel :
  reachable db → (0 < limit)%Z → size (drs_object db) < fuel →
  walk fuel (λ startAfter, ListObjectIDsPageByScope db organization project startAfter limit 0) ""
  = ListObjectIDsByScope db organization project.
Proof.
  intros Hinv%reachable_store_inv Hlim Hfuel. unfold ListObjectIDsPageByScope, ListObjectIDsByScope. cbv zeta.
  assert ((limit <=? 0)%Z = false) as Hl by (apply Z.leb_gt; lia).
  destruct (is_empty (TrimSpace organization)) eqn:Eo.
  { apply (walk_select db (λ _, true) limit _ _ Hinv Hlim Hfuel). intros s Hs. by rewrite Hl, Hs. }
  assert (∀ p, walk fuel (λ s, if (limit <=? 0)%Z then Ok [] else Ok (page limit 0 (select_ids db (λ id, p id && after (TrimSpace s) id)))) ""
             = Ok (select_ids db p)) as Hwalk.
  { intros p. apply (walk_select db p limit _ _ Hinv Hlim Hfuel). intros s Hs. by rewrite Hl, Hs. }
  unfold sqliteScopeResourceCondition. rewrite !TrimSpace_idemp. destruct (is_empty (TrimSpace project)) eqn:Ep.
  - apply is_empty_spec in Ep. rewrite Ep.
    destruct (ResourcePath (TrimSpace organization) "") as [resource|e]; [exact (Hwalk (has_grant db _))|].
    destruct fuel; [lia|]. simpl. by rewrite Hl.
  - destruct (ResourcePath (TrimSpace organization) (TrimSpace project)) as [resource|e]; [exact (Hwalk (has_grant db _))|].
    destruct fuel; [lia|]. simpl. by rewrite Hl.
Qed.

(** ** Checksums within a project *)
(** The reference answer: each identifier with its owners in the project. *)
Definition scoped_index (db : DB) (resource : string) (values : list string) : gmap string (list string) :=
  list_to_map ((λ value, (value, scoped_owners db resource value)) <$> values).
Lemma scoped_index_lookup db resource values k :
  scoped_index db resource values !! k = if bool_decide (k ∈ values) then Some (scoped_owners db resource k) else None.
Proof.
  unfold scoped_index. induction values as [|v values IH]; [done|]. csimpl. destruct (decide (k = v)) as [->|Hne].
  - rewrite lookup_insert_eq, bool_decide_eq_true_2; [done|by left].
  - rewrite lookup_insert_ne, IH by done. erewrite bool_decide_ext; [done|]. rewrite elem_of_cons. tauto.
Qed.

Lemma scoped_owners_claim db resource value id : id ∈ scoped_owners db resource value → claims (checksum db) id value.
Proof.
  unfold scoped_owners. rewrite elem_of_sort_Strings, elem_of_dedup, list_elem_of_fmap.
  intros ([i [typ raw]] & -> & [Hrow Hin]%list_elem_of_filter). apply andb_true_iff in Hrow as [[Ht Hs]%andb_true_iff _].
  exists typ, raw. unfold sha_row in Ht. simpl in *. apply String.eqb_eq in Ht, Hs. by split_and!.
Qed.
Lemma scoped_owners_clean db resource value :
  store_inv db → valid_oid value →
  NoDup (scoped_owners db resource value) ∧ ∀ id, id ∈ scoped_owners db resource value → TrimSpace id = id ∧ id ≠ "".
Proof.
  intros Hinv Hv. split; [apply NoDup_sort_Strings, NoDup_dedup|]. intros id Hin%scoped_owners_claim.
  by apply (inv_ids Hinv), (claims_id Hinv _ value).
Qed.
(** The rows of one identifier. *)
Lemma scan_block out value acc ids :
  TrimSpace value = value → value ≠ "" → (∀ id, id ∈ ids → TrimSpace id = id ∧ id ≠ "") → NoDup (acc ++ ids) →
  out !! value = Some acc → foldl scan_scoped out ((λ id, (value, id)) <$> ids) = <[value := acc ++ ids]> out.
Proof.
  intros Ht Hne. revert out acc. induction ids as [|id ids IH]; intros out acc Hids Hnd Hout; csimpl.
  { rewrite app_nil_r. symmetry. by apply insert_id. }
  destruct (Hids id) as [Hti Hni]; [by left|]. unfold scan_scoped at 2. cbn [fst snd]. cbv zeta.
  apply is_empty_false in Hne as Hne', Hni. rewrite Ht, Hti, Hne', Hni, Hout. simpl.
  rewrite bool_decide_eq_false_2.
  2: { apply NoDup_app in Hnd as (_ & Hd & _). intros Hin. apply (Hd id Hin). by left. }
  rewrite (IH _ (acc ++ [id])); [|intros; apply Hids; by right|by rewrite <- (assoc_L (++))|by rewrite lookup_insert_eq].
  by rewrite insert_insert_eq, <- (assoc_L (++)).
Qed.
Lemma scan_values db resource values :
  store_inv db → Forall valid_oid values → NoDup values → ∀ out,
  (∀ v, v ∈ values → out !! v = Some []) →
  ∀ k, foldl scan_scoped out (concat ((λ value, (λ id, (value, id)) <$> scoped_owners db resource value) <$> values)) !! k
       = if bool_decide (k ∈ values) then Some (scoped_owners db resource k) else out !! k.
Proof.
  intros Hinv Hv Hnd. induction Hv as [|v values Hv _ IH]; intros out Hout k; [done|]. csimpl. rewrite foldl_app.
  apply NoDup_cons in Hnd as [Hn Hnd]. destruct (scoped_owners_clean db resource v Hinv Hv) as [Hndo Hcl].
  rewrite (scan_block out v []); [|by apply valid_oid_trimmed|by apply is_empty_false, valid_oid_not_empty|done|done|by apply Hout; left].
  rewrite IH; [|done|].
  2: { intros w Hw. rewrite lookup_insert_ne by congruence. apply Hout. by right. }
  destruct (decide (k ∈ values)) as [Hk|Hk].
  - rewrite !bool_decide_eq_true_2; [done|by right|done].
  - rewrite (bool_decide_eq_false_2 (k ∈ values)) by done. destruct (decide (k = v)) as [->|Hne].
    + rewrite lookup_insert_eq, bool_decide_eq_true_2; [done|by left].
    + rewrite lookup_insert_ne, bool_decide_eq_false_2; [done| |done]. rewrite elem_of_cons. tauto.
Qed.

Lemma chunks_of_concat {A} fuel n (l : list A) : 0 < n → length l ≤ fuel → concat (chunks_of fuel n l) = l.
Proof.
  intros Hn. revert l. induction fuel as [|fuel IH]; intros [|x l] Hlen; simpl in *; [done|lia|done|].
  destruct n as [|n]; [lia|]. simpl. rewrite IH; [by rewrite take_drop|]. rewrite length_drop. lia.
Qed.
Lemma elem_of_chunks_of {A} fuel n (l c : list A) : c ∈ chunks_of fuel n l → length c ≤ n ∧ c ⊆ l ∧ (NoDup l → NoDup c).
Proof.
  revert l. induction fuel as [|fuel IH]; intros [|x l]; simpl; try by intros ?%elem_of_nil.
  intros [->|Hc]%elem_of_cons.
  - rewrite length_take. split_and!; [lia|apply subseteq_take|]. intros Hnd. eapply sublist_NoDup; [exact Hnd|apply sublist_take].
  - apply IH in Hc as (Hlen & Hsub & Hnd). split_and!; [done| |].
    + etrans; [exact Hsub|]. apply subseteq_drop.
    + intros Hl. apply Hnd. eapply sublist_NoDup; [exact Hl|apply sublist_drop].
Qed.
(** Merging the answer for one chunk. *)
Lemma merge_part_lookup (part out : gmap string (list string)) k :
  foldl (λ out e, <[e.1 := default [] (out !! e.1) ++ e.2]> out) out (go_range part) !! k
  = match part !! k with Some ids => Some (default [] (out !! k) ++ ids) | None => out !! k end.
Proof.
  pose proof (NoDup_fst_go_range part) as Hnd. pose proof (λ v, elem_of_go_range part k v) as Hin.
  revert Hnd Hin. generalize (part !! k) as o. induction (go_range part) as [|[k' v'] l IH] in out |- *; intros o Hnd Hin.
  { destruct o as [v|]; [|done]. destruct (Hin v) as [_ Hv]. by specialize (Hv eq_refl) as ?%elem_of_nil. }
  csimpl in *. apply NoDup_cons in Hnd as [Hn Hnd]. destruct (decide (k' = k)) as [->|Hne].
  - assert (o = Some v') as -> by (apply Hin; by left).
    rewrite (IH _ None); [by rewrite lookup_insert_eq|done|]. intros v. split; [|done]. intros Hv. exfalso. apply Hn.
    apply list_elem_of_fmap. by exists (k, v).
  - rewrite (IH _ o); [by rewrite lookup_insert_ne|done|]. intros v. rewrite <- Hin, elem_of_cons. naive_solver.
Qed.

Lemma normalizeChecksumLookup_id v : valid_oid v → normalizeChecksumLookup v = v.
Proof.
  intros Hv. unfold normalizeChecksumLookup. rewrite valid_oid_trimmed by done. destruct Hv as [_ Hv].
  rewrite hex_lower by done. by apply hex_no_prefix.
Qed.
Lemma normalized_id values :
  Forall valid_oid values → NoDup values → dedup (filter (.≠ "") (normalizeChecksumLookup <$> values)) = values.
Proof.
  intros Hv Hnd. assert (normalizeChecksumLookup <$> values = values) as ->.
  { rewrite Forall_forall in Hv. rewrite <- (list_fmap_id values) at 2. apply list_fmap_ext.
    intros i v Hi%list_elem_of_lookup_2. by apply normalizeChecksumLookup_id, Hv. }
  assert (filter (.≠ "") values = values) as ->; [|by apply dedup_id].
  clear Hnd. induction Hv as [|v values Hv _ IH]; [done|].
  rewrite filter_cons_True; [by rewrite IH|]. by apply is_empty_false, valid_oid_not_empty.
Qed.
Lemma fst_tagged {B} (f : string → B) values : ((λ v, (v, f v)) <$> values).*1 = values.
Proof. induction values; f_equal/=; auto. Qed.
Lemma scoped_call_single recurse db organization project resource values :
  store_inv db → ResourcePath (TrimSpace organization) (TrimSpace project) = Ok resource →
  is_empty (TrimSpace organization) = false → is_empty (TrimSpace project) = false →
  Forall valid_oid values → NoDup values → length values ≤ maxChecksums →
  scoped_call recurse db organization project values = Ok (scoped_index db resource values).
Proof.
  intros Hinv Hr Ho Hp Hv Hnd Hlen. unfold scoped_call. cbv zeta. rewrite Ho, Hp, Hr. cbn [orb].
  destruct values as [|v values]; [done|]. rewrite bool_decide_eq_false_2 by done.
  change (mbind ?f (Ok ?a)) with (f a). cbv beta. rewrite normalized_id by done.
  rewrite bool_decide_eq_false_2, decide_False by (done || lia). f_equal. set (vs := v :: values) in *.
  apply map_eq. intros k. rewrite scoped_index_lookup, scan_values; [|done|by rewrite sort_Strings_Permutation|by apply NoDup_sort_Strings|].
  - rewrite (bool_decide_ext _ _ (elem_of_sort_Strings vs k)). case_bool_decide as Hk; [done|].
    apply not_elem_of_list_to_map. by rewrite fst_tagged.
  - intros w. rewrite elem_of_sort_Strings. intros Hw. apply elem_of_list_to_map.
    + by rewrite fst_tagged.
    + apply list_elem_of_fmap. exists w. split; [reflexivity|exact Hw].
Qed.

Lemma merge_chunks db organization project resource (chunks done : list (list string)) :
  store_inv db → ResourcePath (TrimSpace organization) (TrimSpace project) = Ok resource →
  is_empty (TrimSpace organization) = false → is_empty (TrimSpace project) = false →
  Forall (λ chunk, Forall valid_oid chunk ∧ NoDup chunk ∧ length chunk ≤ maxChecksums) chunks →
  NoDup (concat (done ++ chunks)) →
  foldlM (λ out chunk,
      part ← scoped_call (λ _, Ok ∅) db organization project chunk;
      Ok (foldl (λ out e, <[e.1 := default [] (out !! e.1) ++ e.2]> out) out (go_range part)))
    (scoped_index db resource (concat done)) chunks
  = Ok (scoped_index db resource (concat (done ++ chunks))).
Proof.
  intros Hinv Hr Ho Hp Hall. revert done. induction Hall as [|chunk chunks (Hv & Hnc & Hlen) _ IH]; intros done Hnd.
  { simpl. by rewrite app_nil_r. }
  cbn [foldlM]. rewrite (scoped_call_single _ db organization project resource) by assumption.
  change (mbind ?f (Ok ?a)) with (f a). cbv beta.
  assert (foldl (λ out e, <[e.1 := default [] (out !! e.1) ++ e.2]> out) (scoped_index db resource (concat done))
            (go_range (scoped_index db resource chunk)) = scoped_index db resource (concat (done ++ [chunk]))) as ->.
  { apply map_eq. intros k. rewrite merge_part_lookup, !scoped_index_lookup, concat_app. cbn [concat]. rewrite app_nil_r.
    rewrite concat_app in Hnd. apply NoDup_app in Hnd as (_ & Hd & _). case_bool_decide as Hc.
    - rewrite (bool_decide_eq_true_2 (k ∈ _ ++ chunk)), bool_decide_eq_false_2; [done| |apply elem_of_app; by right].
      intros Hk. apply (Hd k Hk), elem_of_app. by left.
    - erewrite bool_decide_ext; [done|]. rewrite elem_of_app. tauto. }
  change (mbind ?f (Ok ?a)) with (f a). cbv beta. replace (done ++ chunk :: chunks) with ((done ++ [chunk]) ++ chunks) in * by (by rewrite <- (assoc_L (++))).
  by apply IH.
Qed.

Lemma scoped_lookup_answer db organization project resource checksums :
  store_inv db → ResourcePath (TrimSpace organization) (TrimSpace project) = Ok resource →
  TrimSpace organization ≠ "" → TrimSpace project ≠ "" →
  Forall (λ c, valid_oid (normalizeChecksumLookup c)) checksums →
  ListScopedObjectIDsByChecksums db organization project checksums
  = Ok (scoped_index db resource (dedup (normalizeChecksumLookup <$> checksums))).
Proof.
  intros Hinv Hr Ho%is_empty_false Hp%is_empty_false Hv.
  set (values := dedup (normalizeChecksumLookup <$> checksums)).
  assert (Forall valid_oid values) as Hvs.
  { rewrite Forall_forall in *. intros v. unfold values. rewrite elem_of_dedup. intros (c & -> & Hc)%list_elem_of_fmap. by apply Hv. }
  assert (NoDup values) as Hnd by apply NoDup_dedup.
  assert (dedup (filter (.≠ "") (normalizeChecksumLookup <$> checksums)) = values) as Hfilter.
  { unfold values. f_equal. clear -Hv. induction Hv as [|c checksums Hc _ IH]; [done|]. csimpl.
    rewrite filter_cons_True; [by rewrite IH|]. by apply is_empty_false, valid_oid_not_empty. }
  unfold ListScopedObjectIDsByChecksums, scoped_call at 1. cbv zeta. rewrite Ho, Hp, Hr, Hfilter. cbn [orb].
  change (mbind ?f (Ok ?a)) with (f a). cbv beta. destruct checksums as [|c checksums]; [done|].
  rewrite (bool_decide_eq_false_2 (_ = [])) by done. case_bool_decide as Hnil; [by rewrite Hnil|].
  case_decide as Hlen.
  - rewrite (merge_chunks db organization project resource _ []); try done.
    + cbn [app]. by rewrite chunks_of_concat by (done || by apply Nat.ltb_lt; vm_compute).
    + apply Forall_forall. intros chunk Hc. apply elem_of_chunks_of in Hc as (Hle & Hsub & Hn).
      split_and!; [|by apply Hn|done]. rewrite Forall_forall in Hvs |- *. auto.
    + cbn [app]. by rewrite chunks_of_concat by (done || by apply Nat.ltb_lt; vm_compute).
  - pose proof (scoped_call_single (scoped_call (λ _, Ok ∅) db organization project) db organization project resource values) as Hs.
    unfold scoped_call at 1 in Hs. cbv zeta in Hs. rewrite Ho, Hp, Hr, normalized_id in Hs by done. cbn [orb] in Hs.
    change (mbind ?f (Ok ?a)) with (f a) in Hs. cbv beta in Hs. rewrite !bool_decide_eq_false_2, decide_False in Hs by done.
    apply Hs; auto. lia.
Qed.

(** A project lookup of any number of identifiers answers each with its owners in the project, in order, and
    with nothing else: the splitting of a long list over several statements cannot be observed. *)
Theorem scoped_lookup_chunks db organization project resource checksums :
  reachable db → ResourcePath (TrimSpace organization) (TrimSpace project) = Ok resource →
  TrimSpace organization ≠ "" → TrimSpace project ≠ "" →
  Forall (λ c, valid_oid (normalizeChecksumLookup c)) checksums →
  ListScopedObjectIDsByChecksums db organization project checksums
  = Ok (scoped_index db resource (dedup (normalizeChecksumLookup <$> checksums))).
Proof. intros Hinv%reachable_store_inv. by apply scoped_lookup_answer. Qed.
End listings.

(** ** Concrete runs *)
#[local] Existing Instance canonical_order.
Definition record_c : ObjectRecord := stored "c" [mkChecksum "sha256" oid_b] None.
Definition db_ac : DB := (run_op (OpRegister None 7 [record_a; record_c]) empty_db).1.
Lemma db_ac_reachable : reachable db_ac.
Proof.
  apply reach_step; [apply reach_empty|]. pose proof record_ab_clean as Hcl. rewrite !Forall_cons in Hcl.
  constructor; [apply Hcl|]. constructor; [|done]. constructor; [|done]. apply clean_decide. by vm_compute.
Qed.

Lemma scope_pages_enumerate_witness :
  walk 3 (λ startAfter, ListObjectIDsPageByScope db_ac "ohsu" "" startAfter 1 0) "" = Ok ["a"; "c"].
Proof.
  rewrite (scope_pages_enumerate db_ac "ohsu" "" 1 3 db_ac_reachable).
  - by vm_compute.
  - lia.
  - apply Nat.ltb_lt. by vm_compute.
Defined.
Lemma scoped_lookup_chunks_witness :
  ListScopedObjectIDsByChecksums db_ac "ohsu" "p1" ["SHA256:" +:+ oid_b; oid_a; oid_b]
  = Ok (scoped_index db_ac "/organization/ohsu/project/p1" [oid_b; oid_a]).
Proof.
  rewrite (scoped_lookup_chunks db_ac "ohsu" "p1" "/organization/ohsu/project/p1").
  - assert (dedup (normalizeChecksumLookup <$> ["SHA256:" +:+ oid_b; oid_a; oid_b]) = [oid_b; oid_a]) as ->; [by vm_compute|done].
  - exact db_ac_reachable.
  - by vm_compute.
  - by vm_compute.
  - by vm_compute.
  - repeat constructor; by vm_compute.
Defined.
