(* ===== verification/Catalog.v ===== *)
(** * The record service over the SQLite repository
    End-to-end statements: what a caller of the service sees when the ports are the transactions and reads of
    the content store (the composition of cmd/server, function sqliteServerBackend). *)
From S2P Require Import Prelude GoStrings GoURL Errors Resources Policy Objects ContentStore ContentInvariant ContentProperties ContentReads Canonical Records RecordMutations RecordProperties RecordCollapse ContentPorts.

Section catalog.
Context `{MapOrder} `{Digests} (now : Z).
#[local] Instance ports : RecordPorts DB := sqlite_ports now.

(** ** The only record of a content *)
Lemma NormalizeSHA256Query_id sha : valid_oid sha → NormalizeSHA256Query sha = Some sha.
Proof. intros Hv. unfold NormalizeSHA256Query. cbv zeta. by rewrite NormalizeOid_id, valid_oid_not_empty. Qed.
Lemma fetch_NoDup db ids checksums : NoDup (r_Id <$> (go_range (fetchObjectsByIDsOrChecksums db ids checksums)).*2).
Proof.
  assert (r_Id <$> (go_range (fetchObjectsByIDsOrChecksums db ids checksums)).*2
          = (go_range (fetchObjectsByIDsOrChecksums db ids checksums)).*1) as ->; [|apply NoDup_fst_go_range].
  rewrite <- list_fmap_compose. apply list_fmap_ext. intros i [id obj] Hi%list_elem_of_lookup_2. simpl.
  apply elem_of_go_range, fetch_lookup in Hi as (row & _ & _ & ->). apply hydrate_Id.
Qed.
Lemma owner_selected db c sha : valid_oid sha → claims (checksum db) c sha → selected db [] [sha] c = true.
Proof.
  intros Hv (typ & raw & Hin & Ht & Hs). unfold selected. cbv zeta. csimpl. rewrite NormalizeSHA256Query_id by done.
  apply orb_true_iff. left. apply orb_true_iff. right. apply existsb_exists. exists (c, (typ, raw)).
  rewrite <- list_elem_of_In. split; [done|]. simpl. unfold sha_row. simpl. rewrite Ht, Hs, String.eqb_refl. simpl.
  apply bool_decide_eq_true. by left.
Qed.
Lemma content_records db sha c row :
  honest db → store_inv db → valid_oid sha → claims (checksum db) c sha → drs_object db !! c = Some row →
  objectsWithSHA256 (ContentReads.GetObjectsByChecksum db sha) sha = [bulk_record db c row].
Proof.
  intros Hh Hinv Hv Hown Hrow. unfold ContentReads.GetObjectsByChecksum. cbv zeta.
  rewrite valid_oid_trimmed, valid_oid_not_empty by done. unfold objectsWithSHA256.
  rewrite NormalizeOid_id by done. cbv zeta. rewrite valid_oid_not_empty by done.
  unfold uniqueObjectsByID. rewrite dedup_on_id by apply fetch_NoDup. set (l := (go_range _).*2).
  assert (∀ o, o ∈ filter (λ o, content_key o = Some sha) l ↔ o = bulk_record db c row) as Hl.
  { intros o. rewrite list_elem_of_filter. unfold l. rewrite list_elem_of_fmap. split.
    - intros (Hk & [id o'] & -> & Hin). simpl in *. apply elem_of_go_range, fetch_lookup in Hin as (row' & Hrow' & _ & ->).
      apply (hydrate_content db _ _ _ _ _ Hh Hinv) in Hk as [_ Hcl].
      assert (id = c) as -> by by eapply (inv_unique Hinv). congruence.
    - intros ->. split; [by apply hydrate_content|]. exists (c, bulk_record db c row). split; [done|].
      apply elem_of_go_range, fetch_lookup. exists row. split_and!; [done|by apply owner_selected|done]. }
  destruct (NoDup_all_equal (filter (λ o, content_key o = Some sha) l) (bulk_record db c row)) as [E|E]; [| | |exact E].
  - apply NoDup_filter. apply (NoDup_fmap_1 r_Id). unfold l. apply fetch_NoDup.
  - intros o Ho. by apply Hl.
  - exfalso. assert (bulk_record db c row ∈ filter (λ o, content_key o = Some sha) l) as Hin by by apply Hl.
    rewrite E in Hin. by apply elem_of_nil in Hin.
Qed.

(** The answer to a lookup of content with one record. *)
Definition content_answer (ctx : context) (method sha : string) (record : ObjectRecord) : result error CanonicalContent :=
  if hasObjectMethod ctx record method then Ok (mkCanonicalContent sha record [record]) else Err (EDef ErrAccessDenied).
Lemma lookup_by_sha ctx ident method db sha c row :
  honest db → store_inv db → TrimSpace ident ≠ "" → NormalizeSHA256Query ident = Some sha → claims (checksum db) c sha →
  drs_object db !! c = Some row →
  GetCanonicalContent ctx ident method db = content_answer ctx method sha (bulk_record db c row).
Proof.
  intros Hh Hinv Hne%is_empty_false Hq Hown Hrow. pose proof (NormalizeSHA256Query_valid _ _ Hq) as Hv.
  unfold GetCanonicalContent. rewrite Hne.
  cbv zeta. rewrite Hq. unfold canonicalContentForChecksum, content_answer. cbn [port_GetObjectsByChecksum ports sqlite_ports].
  cbn. rewrite (content_records db sha c row) by done. cbn. unfold requireObjectMethod.
  by destruct (hasObjectMethod ctx (bulk_record db c row) method).
Qed.

(** The object a stored id or alias leads to. *)
Lemma GetObject_resolved db id c row :
  store_inv db → sqliteObjectIDTx db (TrimSpace id) = Some c → TrimSpace id ≠ "" → drs_object db !! c = Some row →
  ContentReads.GetObject db id = Ok (hydrate db c row (nameAliasesForObject db c) (bool_decide (controlledAccessForObject db c = []))).
Proof.
  intros Hinv Hc Hne Hrow. unfold ContentReads.GetObject. cbv zeta.
  destruct (drs_object db !! TrimSpace id) as [row'|] eqn:E.
  - assert (c = TrimSpace id) as -> by (unfold sqliteObjectIDTx in Hc; rewrite E in Hc; congruence).
    rewrite Hrow in E. injection E as <-. done.
  - simpl. unfold sqliteObjectIDTx in Hc. rewrite E in Hc. unfold ResolveObjectAlias. cbv zeta.
    rewrite TrimSpace_idemp. apply is_empty_false in Hne. rewrite Hne, Hc.
    pose proof (inv_alias Hinv _ _ Hc) as Hd. apply (inv_ids Hinv) in Hd as [Ht Hn]. rewrite Ht.
    apply is_empty_false in Hn. by rewrite Hn, Hrow.
Qed.
Lemma lookup_by_id ctx ident method db sha c row :
  honest db → store_inv db → TrimSpace ident ≠ "" → NormalizeSHA256Query ident = None →
  sqliteObjectIDTx db (TrimSpace ident) = Some c → claims (checksum db) c sha → valid_oid sha →
  drs_object db !! c = Some row →
  GetCanonicalContent ctx ident method db = content_answer ctx method sha (bulk_record db c row).
Proof.
  intros Hh Hinv Hne Hq Hid Hown Hv Hrow. unfold GetCanonicalContent. pose proof Hne as Hne'%is_empty_false.
  rewrite Hne'. cbv zeta. rewrite Hq. cbn -[canonicalContentAndCheckAccess lookupObjectByID].
  unfold lookupObjectByID. cbn -[canonicalContentAndCheckAccess].
  rewrite (GetObject_resolved db ident c row) by done. cbn -[canonicalContentAndCheckAccess].
  unfold canonicalContentAndCheckAccess, canonicalContentForObject, content_answer.
  set (o := hydrate db c row _ _). change (CanonicalSHA256 (slice (r_Checksums o))) with (content_key o).
  assert (content_key o = Some sha) as -> by (by apply hydrate_content).
  cbn. rewrite (content_records db sha c row) by done. cbn. unfold requireObjectMethod.
  by destruct (hasObjectMethod ctx (bulk_record db c row) method).
Qed.

(** C4 Read your writes: after the service registers a record with an identifier, every lookup by the identifier
    or by the id of the record, by whatever caller, gives the same answer, one stored record with that
    identifier, presented as the whole content, or a denial exactly when the caller lacks the method on it. *)
Theorem registered_content_is_found ctx obj sha db db' :
  reachable db → clean_record obj →
  ValidateCanonicalSHA256 (slice (r_Checksums obj)) = Ok (Some sha) →
  RecordMutations.RegisterObjects ctx [obj] db = (db', Ok tt) →
  ∃ record, content_key record = Some sha ∧
    sqliteObjectIDTx db' (TrimSpace (r_Id obj)) = Some (r_Id record) ∧
    ∀ ctx' ident method, TrimSpace ident ≠ "" →
      NormalizeSHA256Query ident = Some sha ∨
        (NormalizeSHA256Query ident = None ∧ TrimSpace ident = TrimSpace (r_Id obj)) →
      GetCanonicalContent ctx' ident method db' =
        if hasObjectMethod ctx' record method then Ok (mkCanonicalContent sha record [record])
        else Err (EDef ErrAccessDenied).
Proof.
  intros Hreach Hcl Hsha Hrun. pose proof (ValidateCanonicalSHA256_valid _ _ Hsha) as Hv.
  assert (ContentStore.RegisterObjects ctx now [obj] db = (db', Ok tt)) as Hreg.
  { unfold RecordMutations.RegisterObjects in Hrun. rewrite ask_bind in Hrun.
    destruct (validateExistingContentRead ctx [obj] db); [|done]. rewrite check_bind in Hrun.
    destruct (method_error ctx [obj] objectMethodCreate); [exact Hrun|done]. }
  destruct (registered_owner ctx now obj sha db db' (reachable_store_inv db Hreach) Hcl Hsha Hreg)
    as (Hinv & c & Hown & Hid & _).
  assert (honest db') as Hh.
  { assert (db' = (run_op (OpRegister ctx now [obj]) db).1) as -> by (simpl; by rewrite Hreg).
    apply run_op_honest; [by apply reachable_honest|]. simpl. by repeat constructor. }
  pose proof (claims_id Hinv _ _ Hown) as Hd. apply elem_of_dom in Hd as [row Hrow].
  exists (bulk_record db' c row). split_and!.
  - by apply hydrate_content.
  - unfold bulk_record. by rewrite hydrate_Id.
  - intros ctx' ident method Hne [Hq|[Hq Hi]].
    + by apply (lookup_by_sha ctx' ident method db' sha c row).
    + apply (lookup_by_id ctx' ident method db' sha c row); try done. by rewrite Hi.
Qed.

(** ** Deletion *)
Lemma bulk_delete_stored ctx db acc ids cs :
  (∀ id, id ∈ ids → id ∈ dom (drs_object db) ∧ TrimSpace id = id) → NoDup (acc ++ ids) →
  foldlM (bulk_delete_step ctx db) acc ids = Ok cs → cs = acc ++ ids.
Proof.
  revert acc. induction ids as [|id ids IH]; intros acc Hids Hnd Hf.
  { injection Hf as ->. by rewrite app_nil_r. }
  simpl in Hf. apply bind_Ok in Hf as (acc' & Hstep & Hf). unfold bulk_delete_step in Hstep.
  destruct (Hids id) as [Hd Ht]; [by left|]. rewrite Ht in Hstep. unfold sqliteObjectIDTx in Hstep.
  apply elem_of_dom in Hd as [row Hrow]. rewrite Hrow, String.eqb_refl in Hstep. simpl in Hstep.
  apply bind_Ok in Hstep as (u & _ & Hacc). injection Hacc as <-.
  rewrite decide_False in Hf; rewrite cons_middle, (assoc_L (++)) in Hnd.
  - rewrite cons_middle, (assoc_L (++)).
    apply IH; [|done|exact Hf]. intros x Hx. apply Hids. by right.
  - apply NoDup_app in Hnd as (Hnd & _ & _). apply NoDup_app in Hnd as (_ & Hnd & _). intros Hin.
    apply (Hnd id Hin). by left.
Qed.
Lemma store_bulk_delete ctx db ids db' :
  ids ≠ [] → (∀ id, id ∈ ids → id ∈ dom (drs_object db) ∧ TrimSpace id = id) → NoDup ids →
  ContentStore.BulkDeleteObjects ctx ids db = (db', Ok tt) → db' = delete_objects db ids.
Proof.
  intros Hne Hids Hnd. destruct ids as [|i ids]; [done|]. unfold ContentStore.BulkDeleteObjects.
  destruct (foldlM (bulk_delete_step ctx db) [] (i :: ids)) as [cs|e] eqn:Ef; [|done].
  apply bulk_delete_stored in Ef as ->; [|exact Hids|exact Hnd]. by intros [= <-].
Qed.
Lemma delete_objects_dom db ids id : id ∈ dom (drs_object (delete_objects db ids)) ↔ id ∈ dom (drs_object db) ∧ id ∉ ids.
Proof.
  simpl. rewrite !elem_of_dom. split.
  - intros [row [Hrow Hn]%map_lookup_filter_Some]. by split; [exists row|].
  - intros [[row Hrow] Hn]. exists row. by apply map_lookup_filter_Some.
Qed.
Lemma fetch_by_id db ids id row :
  drs_object db !! id = Some row → id ∈ ids → fetchObjectsByIDsOrChecksums db ids [] !! id = Some (bulk_record db id row).
Proof.
  intros Hrow Hin. apply fetch_lookup. exists row. split_and!; [done| |done]. unfold selected.
  by rewrite bool_decide_eq_true_2.
Qed.
(** An id list in which every id is spelled as stored and none is an alias: a bulk read answers the stored
    records of the ids. *)
Lemma bulk_lookup_plain ctx db ids id obj :
  store_inv db → (∀ id, id ∈ ids → TrimSpace id = id ∧ id ≠ "") →
  ¬ requested_alias ctx (index_by_id (GetBulkObjects db ids)) db ids → id ∈ ids →
  bulk_lookup db (fetchObjectsByIDsOrChecksums db ids []) id = Some obj →
  ∃ row, drs_object db !! id = Some row ∧ obj = bulk_record db id row.
Proof.
  intros Hinv Hids Hal Hin Hl. destruct (drs_object db !! id) as [row|] eqn:Erow.
  { exists row. split; [done|]. revert Hl. unfold bulk_lookup. rewrite (fetch_by_id _ _ _ row) by done. congruence. }
  exfalso. apply Hal. destruct (Hids id Hin) as [Ht Hne].
  assert (fetchObjectsByIDsOrChecksums db ids [] !! id = None) as Hf.
  { destruct (fetchObjectsByIDsOrChecksums db ids [] !! id) eqn:E; [|done]. apply fetch_lookup in E as (? & ? & _). congruence. }
  unfold bulk_lookup in Hl. rewrite Hf in Hl. destruct (ResolveObjectAlias db id) as [c|] eqn:Er; [|done].
  exists id, c. split_and!; [|done| |exact Er|].
  - apply list_elem_of_fmap. by exists id.
  - destruct (index_by_id _ !! id) eqn:E; [|done]. apply index_by_id_Some in E as [Hin' Hid].
    apply GetBulkObjects_stored in Hin'. rewrite Hid in Hin'. apply elem_of_dom in Hin' as [? ?]. congruence.
  - unfold ResolveObjectAlias in Er. cbv zeta in Er. destruct (is_empty _); [done|].
    destruct (object_alias db !! TrimSpace id) as [c'|] eqn:Ea; [|done]. injection Er as <-.
    pose proof (inv_alias Hinv _ _ Ea) as Hd. by apply (inv_ids Hinv) in Hd as [-> ?].
Qed.
Lemma index_by_id_NoDup objects obj :
  NoDup (r_Id <$> objects) → obj ∈ objects → index_by_id objects !! r_Id obj = Some obj.
Proof.
  intros Hnd Hin. unfold index_by_id. generalize (∅ : gmap string ObjectRecord) as m.
  induction objects as [|o os IH]; intros m; [by apply elem_of_nil in Hin|]. csimpl.
  rewrite fmap_cons in Hnd. apply NoDup_cons in Hnd as [Hn Hnd]. apply elem_of_cons in Hin as [->|Hin]; [|by apply IH].
  assert (∀ os (m : gmap string ObjectRecord), r_Id o ∉ r_Id <$> os → foldl (λ byID obj, <[r_Id obj := obj]> byID) m os !! r_Id o = m !! r_Id o) as Hkeep.
  { clear. induction os as [|p os IH]; intros m Hn; [done|]. csimpl in *. rewrite not_elem_of_cons in Hn.
    rewrite IH by apply Hn. rewrite lookup_insert_ne; [done|]. apply not_eq_sym, Hn. }
  rewrite Hkeep by done. apply lookup_insert_eq.
Qed.
Lemma GetBulkObjects_plain ctx db ids id obj :
  store_inv db → (∀ id, id ∈ ids → TrimSpace id = id ∧ id ≠ "") →
  ¬ requested_alias ctx (index_by_id (GetBulkObjects db ids)) db ids →
  index_by_id (GetBulkObjects db ids) !! id = Some obj ↔
    ∃ row, id ∈ ids ∧ drs_object db !! id = Some row ∧ obj = bulk_record db id row.
Proof.
  intros Hinv Hids Hal. pose proof (λ i o, bulk_lookup_plain ctx db ids i o Hinv Hids Hal) as Hplain. split.
  - intros [Hin <-]%index_by_id_Some. unfold GetBulkObjects, uniqueObjectsByID in Hin.
    apply elem_of_dedup_on in Hin. apply list_elem_of_omap in Hin as (i & Hi & Hl).
    destruct (Hplain i obj Hi Hl) as (row & Hrow & ->). exists row. unfold bulk_record. by rewrite !hydrate_Id.
  - intros (row & Hi & Hrow & ->). set (o := bulk_record db id row).
    destruct (dedup_on_complete r_Id (omap (bulk_lookup db (fetchObjectsByIDsOrChecksums db ids [])) ids) o) as (y & Hy & Hk).
    { apply list_elem_of_omap. exists id. split; [done|]. unfold bulk_lookup. by rewrite (fetch_by_id _ _ _ row). }
    assert (y = o) as ->.
    { pose proof Hy as Hy'. apply elem_of_dedup_on in Hy'. apply list_elem_of_omap in Hy' as (i & Hi' & Hl).
      destruct (Hplain i y Hi' Hl) as (row' & Hrow' & ->). subst o. unfold bulk_record in Hk. rewrite !hydrate_Id in Hk.
      subst i. congruence. }
    replace id with (r_Id o) by apply hydrate_Id. apply index_by_id_NoDup; [apply NoDup_dedup_on|exact Hy].
Qed.

(** A bulk deletion that reports success removed exactly the requested objects that the caller may delete: in a
    reachable database, for trimmed ids, an object is gone afterwards if and only if its id was requested and
    its stored record is deletable on every scope; every other object is still there. *)
Theorem bulk_deletion_is_exact ctx ids db db' :
  reachable db → (∀ id, id ∈ ids → TrimSpace id = id ∧ id ≠ "") →
  RecordMutations.BulkDeleteObjects ctx ids db = (db', Ok tt) →
  ∀ id row, drs_object db !! id = Some row →
    id ∉ dom (drs_object db') ↔ id ∈ ids ∧ mayDelete ctx (bulk_record db id row) = true.
Proof.
  intros Hinv%reachable_store_inv Hids Hrun id row Hrow.
  assert (id ∈ dom (drs_object db)) as Hdom by by apply elem_of_dom_2 in Hrow.
  unfold RecordMutations.BulkDeleteObjects, BulkDeleteObjectsWithOptions in Hrun. cbn [DeleteStorageData] in Hrun.
  rewrite ask_bind in Hrun. destruct (deletablePhysicalObjectIDsForBulk ctx ids db) as [chosen|] eqn:Ed; [|done].
  unfold deletablePhysicalObjectIDsForBulk in Ed. apply bind_Ok in Ed as (objects & [= <-] & Hf).
  apply deletable_spec in Hf as (Hal & Hnd & Hchosen).
  assert (TrimSpace <$> ids = ids) as Htrim.
  { rewrite <- (list_fmap_id ids) at 2. apply list_fmap_ext. intros i x Hx%list_elem_of_lookup_2. by apply Hids. }
  assert (∀ i, i ∈ chosen ↔ ∃ row, i ∈ ids ∧ drs_object db !! i = Some row ∧ mayDelete ctx (bulk_record db i row) = true) as Hc.
  { intros i. rewrite Hchosen. unfold chosen_for_deletion. rewrite Htrim. split.
    - intros (_ & _ & obj & Ho & Hm). apply (GetBulkObjects_plain ctx) in Ho as (row' & ? & ? & ->); [|done..].
      exists row'. split_and!; assumption.
    - intros (row' & Hi & Hr & Hm). split_and!; [by apply Hids|done|]. exists (bulk_record db i row'). split; [|done].
      apply (GetBulkObjects_plain ctx); [done..|]. exists row'. split_and!; [assumption..|reflexivity]. }
  assert (id ∉ dom (drs_object db') ↔ id ∈ chosen) as ->.
  { destruct chosen as [|i chosen]; [injection Hrun as <-; split; [done|by intros ?%elem_of_nil]|].
    change (ContentStore.BulkDeleteObjects ctx (i :: chosen) db = (db', Ok tt)) in Hrun.
    apply store_bulk_delete in Hrun as ->; [|done| |exact Hnd].
    - rewrite delete_objects_dom. destruct (decide (id ∈ i :: chosen)); tauto.
    - intros x Hx. apply Hc in Hx as (row' & Hx & Hr & _). split; [by eapply elem_of_dom_2|by apply Hids]. }
  rewrite Hc. split.
  - intros (row' & Hi & Hr & Hm). split; [done|]. congruence.
  - intros [Hi Hm]. exists row. split_and!; assumption.
Qed.

(** ** The collapse of duplicates *)
Lemma register_keeps_objects ctx objs db :
  dom (drs_object db) ⊆ dom (drs_object (ContentStore.RegisterObjects ctx now objs db).1).
Proof.
  unfold ContentStore.RegisterObjects. apply (commit_inv (λ db', dom (drs_object db) ⊆ dom (drs_object db'))); [done|].
  intros db' u. apply (run_batch_inv (λ db', dom (drs_object db) ⊆ dom (drs_object db'))); [| |done].
  - intros now' db1 ids. by destruct (flush_effect now' db1 ids) as (-> & _).
  - intros obj db1 db2 c _ Hsub (sha & public & Hreg)%registerContentTx_effect. rewrite (reg_dom _ _ _ _ _ _ _ Hreg). set_solver.
Qed.
Lemma alias_of_object_refused ctx db id target :
  id ∈ dom (drs_object db) → TrimSpace id = id → id ≠ "" → TrimSpace target = target → id ≠ target →
  ∃ e, ContentStore.CreateObjectAlias ctx id target db = (db, Err e).
Proof.
  intros Hd Ht Hne Htt Hnt. unfold ContentStore.CreateObjectAlias. cbv zeta. rewrite Ht, Htt.
  apply is_empty_false in Hne. rewrite Hne. simpl. destruct (is_empty target); [by eexists|].
  destruct (String.eqb_spec id target); [done|]. unfold commit. destruct (drs_object db !! target); [|by eexists].
  destruct (sqliteEnsureNoLegacyDuplicateTx db target) as [u|e]; [|by eexists]. cbn.
  destruct (sqliteRequireContentMethodTx ctx db target "update") as [u'|e]; [|by eexists]. cbn.
  apply elem_of_dom in Hd as [row ->]. by eexists.
Qed.

(** On the SQLite repository the collapse of duplicates never completes: whenever there is something to
    collapse the run ends in an error, because the alias of a superseded id is created while the object of
    that id is still stored, which the repository refuses. *)
Theorem collapse_never_completes ctx organization project db :
  (∀ id, id ∈ dom (drs_object db) → TrimSpace id = id ∧ id ≠ "") →
  let run := CollapseProjectChecksumDuplicates ctx organization project db in
  run = (db, Ok 0) ∨ ∃ e, run.2 = Err e.
Proof.
  intros Hids. cbv zeta. unfold CollapseProjectChecksumDuplicates. rewrite ask_bind.
  destruct (port_ListObjectIDsByScope ctx organization project db) as [ids|e]; [|right; by eexists].
  rewrite ask_bind. cbn [port_GetBulkObjects ports sqlite_ports]. set (objects := GetBulkObjects db ids).
  rewrite check_bind. destruct (method_error ctx objects objectMethodUpdate) as [u|e]; [|right; by eexists].
  cbv zeta. destruct (duplicate_groups_spec objects) as (keys & Hkeys & -> & Hdup).
  assert (NoDup (r_Id <$> objects)) as Hnd by apply NoDup_dedup_on.
  destruct keys as [|key keys]; [by left|right]. rewrite <- !list_fmap_compose. unfold compose.
  set (aliases := concat _). set (aliasMap := foldl _ _ _).
  assert (∃ id target rest, go_range aliasMap = (id, target) :: rest ∧ id ≠ target ∧
    (∃ o, o ∈ objects ∧ r_Id o = id) ∧ (∃ k, k ∈ objects ∧ r_Id k = target)) as (id & target & rest & Hrange & Hne & (o & Ho & <-) & (k & Hk & <-)).
  { pose proof (insert_all_perm aliases (aliases_NoDup objects Hnd (key :: keys) Hkeys)) as Hperm. fold aliasMap in Hperm.
    assert (aliases ≠ []) as Hal by by apply (superseded_exists objects Hnd (key :: keys) Hdup).
    destruct (go_range aliasMap) as [|[id target] rest] eqn:Eg; [by apply Permutation_nil_l in Hperm|].
    assert ((id, target) ∈ aliases) as Hin by (rewrite <- Hperm; by left).
    apply elem_of_aliases in Hin as (key' & Hkey & -> & Hne & o & [Ho _]%elem_of_group & <-).
    apply Hdup, group_survivor in Hkey as (k & Hk & _ & Hid). rewrite Hid in *.
    exists (r_Id o), (r_Id k), rest. split_and!; [done..|by exists o|by exists k]. }
  rewrite Hrange. rewrite fmap_cons. cbn [service_each].
  unfold mbind at 1, service_bind at 1. set (run := port_RegisterObjects _ _ _).
  assert (dom (drs_object db) ⊆ dom (drs_object run.1)) as Hsub by apply register_keeps_objects.
  destruct run as [db1 [u1|e]]; [|by eexists]. cbn [fst] in Hsub.
  unfold mbind at 1, service_bind at 1. unfold mbind at 1, service_bind at 1.
  destruct (alias_of_object_refused ctx db1 (r_Id o) (r_Id k)) as [e He].
  { apply Hsub. by eapply GetBulkObjects_stored. }
  1,2: by apply Hids, (GetBulkObjects_stored db ids). { apply Hids, (GetBulkObjects_stored db ids), Hk. } { done. }
  cbn [fst snd port_CreateObjectAlias ports sqlite_ports]. rewrite He. by eexists.
Qed.
End catalog.

(** ** Concrete runs *)
#[local] Existing Instance canonical_order.
#[local] Instance catalog_digests : Digests := {| sha256_hex := λ s, s; uuid_NewSHA1 := λ s, s |}.
#[local] Instance catalog_ports : RecordPorts DB := sqlite_ports 7.

(** Nothing is enforced without an authorization context. *)
Lemma update_without_authz obj : hasObjectMethod None obj "update" = true.
Proof. reflexivity. Qed.
(** The second registration of a content is found under the id of the first. *)
Lemma registered_content_is_found_witness :
  let db := (RecordMutations.RegisterObjects None [record_b] db_ab).1 in
  ∃ record, r_Id record = "a" ∧ content_key record = Some oid_a ∧
    GetCanonicalContent None "b" "update" db = Ok (mkCanonicalContent oid_a record [record]).
Proof.
  cbv zeta. set (run := RecordMutations.RegisterObjects None [record_b] db_ab).
  assert (run = (run.1, Ok tt)) as Hrun by by vm_compute.
  pose proof record_ab_clean as Hcl. rewrite !Forall_cons in Hcl.
  destruct (registered_content_is_found 7 None record_b oid_a db_ab run.1) as (record & Hk & Hid & Hfind).
  - exact db_ab_reachable.
  - apply Hcl.
  - by vm_compute.
  - exact Hrun.
  - assert (sqliteObjectIDTx run.1 (TrimSpace (r_Id record_b)) = Some "a") as Ha by by vm_compute.
    rewrite Ha in Hid. injection Hid as Hid. exists record. split_and!; [by symmetry|exact Hk|].
    pose proof (Hfind None "b" "update") as Hf. rewrite update_without_authz in Hf. apply Hf; [by vm_compute|].
    right. by split; vm_compute.
Defined.

Lemma bulk_deletion_is_exact_witness :
  drs_object (RecordMutations.BulkDeleteObjects None ["a"] db_ab).1 !! "a" = None.
Proof.
  set (run := RecordMutations.BulkDeleteObjects None ["a"] db_ab).
  assert (run = (run.1, Ok tt)) as Hrun by by vm_compute.
  assert (∃ row, drs_object db_ab !! "a" = Some row) as [row Hrow] by (eexists; by vm_compute).
  apply not_elem_of_dom.
  apply (bulk_deletion_is_exact 7 None ["a"] db_ab run.1 db_ab_reachable) with (row := row); [|exact Hrun|exact Hrow|].
  - intros id ->%list_elem_of_singleton. by split; vm_compute.
  - split; [by left|]. reflexivity.
Defined.

(** Two objects with one identifier, as a database from before the identity index may hold them. *)
Definition db_duplicates : DB :=
  let db := (run_op (OpRegister None 7 [record_a; stored "b" [mkChecksum "sha256" oid_b] None]) empty_db).1 in
  set_checksum db [("a", ("sha256", oid_a)); ("b", ("sha256", oid_a))].
Lemma collapse_never_completes_witness :
  ∃ e, (CollapseProjectChecksumDuplicates None "ohsu" "p1" db_duplicates).2 = Err e.
Proof.
  destruct (collapse_never_completes 7 None "ohsu" "p1" db_duplicates) as [Hrun|He].
  - assert (set_Forall (λ id, TrimSpace id = id ∧ id ≠ "") (dom (drs_object db_duplicates))) as Hids.
    { by apply (bool_decide_unpack _); vm_compute. }
    exact Hids.
  - exfalso. apply (f_equal snd) in Hrun. vm_compute in Hrun. discriminate Hrun.
  - exact He.
Defined.
