(* ===== verification/CatalogListing.v ===== *)
(** * Listings of the record service over the SQLite repository
    A page of prepared records is collected from raw pages of object ids: a raw page is a window of the
    sorted object table, its objects are loaded, and an object without a SHA-256 is left out.  The file shows
    that the loop ends, that a page holds exactly the next records, and that walking the pages with the
    cursor of the previous one visits every record of the table once. *)
From S2P Require Import Prelude GoStrings GoURL Errors Resources Policy Objects ContentStore ContentInvariant ContentProperties ContentReads ContentQueries Canonical Records RecordMutations RecordProperties RecordCollapse ContentPorts Listing.

(** ** Slices and cursors *)
Lemma slice_page_in_range {A} (ids : list A) offset limit :
  (0 <= offset)%Z → (0 <= limit)%Z → int64 (offset + limit) →
  slice_page ids offset limit = Ok (take (Z.to_nat limit) (drop (Z.to_nat offset) ids)).
Proof.
  intros Ho Hl Hi. unfold slice_page. rewrite wrap64_id by done.
  destruct (Z.leb_spec (Z.of_nat (length ids)) offset).
  { rewrite drop_ge by lia. by rewrite take_nil. }
  destruct (Z.leb_spec 0 offset); [|lia]. simpl.
  destruct (Z.ltb_spec (Z.of_nat (length ids)) (offset + limit)).
  - destruct (Z.leb_spec offset (Z.of_nat (length ids))); [|lia]. f_equal.
    rewrite !take_ge; [done|rewrite length_drop; lia..].
  - destruct (Z.leb_spec offset (offset + limit)); [|lia]. f_equal. f_equal. lia.
Qed.
Lemma sorted_drop n (l : list string) : StronglySorted String.le l → StronglySorted String.le (drop n l).
Proof.
  intros Hs. revert n. induction Hs as [|s l Hs IH Hall]; intros [|n]; try constructor; try done. apply IH.
Qed.
Lemma sorted_take n (l : list string) : StronglySorted String.le l → StronglySorted String.le (take n l).
Proof.
  intros Hs. revert n. induction Hs as [|s l Hs IH Hall]; intros [|n]; try constructor; [done|]. by apply Forall_take.
Qed.
Lemma drop_count_while (p : string → bool) l :
  StronglySorted String.le l → (∀ s t, String.le s t → p t = true → p s = true) →
  drop (count_while p l) l = filter (λ s, p s = false) l.
Proof.
  intros Hs Hp. induction Hs as [|s l Hs IH Hall]; [done|]. simpl. rewrite filter_cons. destruct (p s) eqn:E.
  - rewrite decide_False by congruence. simpl. apply IH.
  - rewrite decide_True by done. simpl. f_equal. symmetry. apply filter_all_True. intros t Ht.
    rewrite Forall_forall in Hall. destruct (p t) eqn:Et; [|done]. rewrite (Hp s t) in E; [done|by apply Hall|done].
Qed.
Lemma count_while_length {A} (p : A → bool) l : count_while p l ≤ length l.
Proof. induction l as [|a l IH]; simpl; [done|]. destruct (p a); lia. Qed.
Lemma searchAfterID_spec l s :
  StronglySorted String.le l →
  drop (searchAfterID l s) l = filter (λ id, String.ltb s id = true) l ∧ searchAfterID l s ≤ length l.
Proof.
  intros Hs. unfold searchAfterID, SearchStrings. set (i := count_while _ l).
  assert (drop i l = filter (λ id, String.ltb id s = false) l) as Hi.
  { apply drop_count_while; [done|]. intros x y Hxy. rewrite !ltb_spec. intros [Hy Hn].
    split; [by etrans|]. intros ->. by apply Hn, (anti_symm String.le). }
  split.
  - rewrite <- drop_drop, Hi. rewrite drop_count_while.
    + rewrite list_filter_filter. apply list_filter_iff. intros id.
      rewrite !ltb_leb, negb_true_iff, negb_false_iff. split; [by intros [? _]|]. intros Hn. split; [done|].
      destruct (String.leb_total s id) as [?|Hs']; [done|congruence].
    + rewrite <- Hi. apply sorted_drop. done.
    + intros x y Hxy. rewrite !leb_le. by etrans.
  - pose proof (count_while_length (λ id, String.leb id s) (drop i l)) as Hj. rewrite length_drop in Hj.
    pose proof (count_while_length (λ id, String.ltb id s) l) as Hi'. fold i in Hi'. lia.
Qed.
(** A cursor page of a list of ids in any order. *)
Lemma page_after_spec ids startAfter limit :
  (0 <= limit)%Z → int64 (Z.of_nat (length ids) + limit) →
  page_after ids startAfter limit 0 = Ok (page_of (sort_Strings ids) (Z.to_nat limit) startAfter).
Proof.
  intros Hl Hi. unfold page_after, page_of. cbv zeta. set (l := sort_Strings ids).
  assert (length l = length ids) as Hlen by apply Permutation_length, sort_Strings_Permutation.
  destruct (is_empty startAfter) eqn:Es.
  - rewrite slice_page_in_range; [|lia|lia|unfold int64 in *; lia]. rewrite drop_0. f_equal. f_equal.
    rewrite filter_all_True; [done|]. intros id _. unfold after. by rewrite Es.
  - destruct (searchAfterID_spec l startAfter (sort_Strings_sorted ids)) as [Hdrop Hle].
    rewrite slice_page_in_range; [|lia|lia|unfold int64 in *; lia]. rewrite Nat2Z.id, Hdrop. unfold after. by rewrite Es.
Qed.

(** ** Canonicalisation without replicas *)
Section singletons.
Context `{MapOrder} `{Digests}.

(** What stands for a record that has no replica. *)
Definition presents (o r : ObjectRecord) : Prop := r = o ∨ r = collapseCanonicalGroup [o].
Lemma presents_Id o r : presents o r → r_Id r = r_Id o.
Proof. intros [->|E]; [done|]. subst r. by destruct (collapse_fields o []) as [-> _]. Qed.

Lemma suffix_inj (s1 s2 t1 t2 : string) : s1 +:+ t1 = s2 +:+ t2 → String.length t1 = String.length t2 → t1 = t2.
Proof.
  intros E Hl. apply (f_equal chars) in E. rewrite !chars_app in E. apply chars_inj.
  apply app_inj_2 in E as [_ E]; [done|]. by rewrite !length_chars.
Qed.
Lemma project_key_content forced o k : canonicalProjectChecksumKey forced o = Some k → ∃ v, content_key o = Some v ∧ ∃ r, k = r +:+ "|" +:+ v.
Proof.
  unfold canonicalProjectChecksumKey, content_key. destruct (CanonicalSHA256 _) as [sha|]; [|done].
  destruct (is_empty (TrimSpace sha)); [done|]. cbv zeta. intros Hk. exists sha. split; [done|].
  destruct (is_empty (TrimSpace forced)); [|injection Hk as <-; by eexists].
  destruct (projectScopeResources o) as [|r [|]]; try done. injection Hk as <-. by eexists.
Qed.

Lemma canonicalize_cases (l : list ObjectRecord) organization project :
  canonicalizeProjectScopedObjects l organization project = l ∨
  ∃ forced, let key := canonicalProjectChecksumKey forced in
    canonicalizeProjectScopedObjects l organization project =
      sort_Slice scoped_less
        (((λ k, collapseCanonicalGroup (default [] (group_by key l !! k))) <$> sort_Strings (go_range (group_by key l)).*1)
         ++ passthrough key l).
Proof. destruct l as [|o1 [|o2 os]]; [by left..|]. right. eexists. cbv zeta. reflexivity. Qed.

Context (objects : list ObjectRecord).
Context (Hunique : ∀ o o' v, o ∈ objects → o' ∈ objects → content_key o = Some v → content_key o' = Some v → o = o').

Lemma key_inj forced o o' k :
  o ∈ objects → o' ∈ objects → canonicalProjectChecksumKey forced o = Some k → canonicalProjectChecksumKey forced o' = Some k → o = o'.
Proof.
  intros Ho Ho' (v & Hv & r & ->)%project_key_content (v' & Hv' & r' & E)%project_key_content.
  pose proof (CanonicalSHA256_valid _ _ Hv) as [Hl _]. pose proof (CanonicalSHA256_valid _ _ Hv') as [Hl' _].
  rewrite !(assoc_L String.append) in E. apply suffix_inj in E; [|congruence]. subst v'. by eapply Hunique.
Qed.
(** The single record of a key. *)
Lemma group_singleton forced k g :
  NoDup (r_Id <$> objects) → group_by (canonicalProjectChecksumKey forced) objects !! k = Some g →
  ∃ o, o ∈ objects ∧ canonicalProjectChecksumKey forced o = Some k ∧ g = [o].
Proof.
  intros Hnd%NoDup_fmap_1 [-> Hne]%group_by_lookup. set (P o := canonicalProjectChecksumKey forced o = Some k).
  assert (∀ o, o ∈ filter P objects → o ∈ objects ∧ P o) as Hin by (intros o [??]%list_elem_of_filter; done).
  destruct (filter P objects) as [|o l] eqn:Ef; [done|]. destruct (Hin o) as [Ho Hk]; [by left|].
  exists o. split_and!; [done|done|].
  assert (NoDup (o :: l)) as Hnf by (rewrite <- Ef; by apply NoDup_filter).
  destruct (NoDup_all_equal (o :: l) o Hnf) as [?|E]; [|done|exact E]. intros o' Ho'. destruct (Hin o' Ho') as [Hi Hk'].
  by eapply key_inj.
Qed.
Lemma scoped_sorted (l : list ObjectRecord) : StronglySorted String.le (r_Id <$> sort_Slice scoped_less l).
Proof.
  apply Sorted_StronglySorted; [by intros x y z; apply (transitivity (R := String.le))|].
  assert (Total (not_after scoped_less)) as Htotal.
  { intros a b. unfold not_after, scoped_less. rewrite (String.eqb_sym (r_Id b)). destruct (String.eqb _ _).
    - destruct (Z.ltb_spec (canonicalObjectSortTime a) (canonicalObjectSortTime b)); [|by left].
      right. apply Z.ltb_ge. lia.
    - rewrite !ltb_leb, !negb_false_iff. destruct (String.leb_total (r_Id a) (r_Id b)); auto. }
  apply Sorted_fmap with (R1 := not_after scoped_less); [|apply Sorted_merge_sort, Htotal].
  intros a b. unfold not_after, scoped_less. destruct (String.eqb_spec (r_Id b) (r_Id a)) as [->|]; [done|].
  rewrite ltb_leb, negb_false_iff, leb_le. done.
Qed.
Lemma canonical_singletons organization project :
  NoDup (r_Id <$> objects) → StronglySorted String.le (r_Id <$> objects) →
  r_Id <$> canonicalizeProjectScopedObjects objects organization project = r_Id <$> objects ∧
  ∀ r, r ∈ canonicalizeProjectScopedObjects objects organization project → ∃ o, o ∈ objects ∧ presents o r.
Proof.
  intros Hnd Hsort. destruct (canonicalize_cases objects organization project) as [->|(forced & ->)].
  { split; [done|]. intros r Hr. exists r. split; [done|by left]. }
  set (key := canonicalProjectChecksumKey forced).
  set (keys := sort_Strings _). set (f k := collapseCanonicalGroup _).
  assert (∀ k o, o ∈ objects → key o = Some k → group_by key objects !! k = Some [o]) as Hlook.
  { intros k o Ho Hk. assert (group_by key objects !! k = Some (filter (λ o, key o = Some k) objects)) as Hg.
    { apply group_by_lookup. split; [done|]. intros Hnil.
      assert (o ∈ filter (λ o, key o = Some k) objects) as Hin by by apply list_elem_of_filter.
      rewrite Hnil in Hin. by apply elem_of_nil in Hin. }
    rewrite Hg. apply group_singleton in Hg as (o' & Ho' & Hk' & ->); [|done]. by rewrite (key_inj forced o o' k). }
  assert (∀ k, k ∈ keys ↔ ∃ o, o ∈ objects ∧ key o = Some k) as Hkeys.
  { intros k. unfold keys. rewrite elem_of_sort_Strings, list_elem_of_fmap. split.
    - intros ([k' g] & -> & Hg%elem_of_go_range). apply group_singleton in Hg as (o & ? & ? & _); [by exists o|done].
    - intros (o & Ho & Hk). exists (k, [o]). split; [done|]. by apply elem_of_go_range, Hlook. }
  assert (∀ k, k ∈ keys → ∃ o, o ∈ objects ∧ key o = Some k ∧ f k = collapseCanonicalGroup [o]) as Hf.
  { intros k (o & Ho & Hk)%Hkeys. exists o. split_and!; [done..|]. unfold f. by rewrite (Hlook k o). }
  assert (∀ r, r ∈ (f <$> keys) ++ passthrough key objects → ∃ o, o ∈ objects ∧ presents o r) as Hpres.
  { intros r [(k & -> & (o & Ho & _ & Hk)%Hf)%list_elem_of_fmap|[_ Hr]%list_elem_of_filter]%elem_of_app.
    - exists o. split; [done|by right].
    - exists r. split; [done|by left]. }
  split; [|intros r Hr; apply Hpres; by rewrite <- sort_Slice_Permutation].
  apply (StronglySorted_unique String.le); [apply scoped_sorted|exact Hsort|]. rewrite sort_Slice_Permutation.
  rewrite fmap_app. apply NoDup_Permutation; [|exact Hnd|].
  - apply NoDup_app. split_and!.
    + rewrite <- list_fmap_compose. apply NoDup_fmap_2_strong; [|apply NoDup_sort_Strings, NoDup_fst_go_range].
      intros k k' (o & Ho & Hk & E)%Hf (o' & Ho' & Hk' & E')%Hf. unfold compose. rewrite E, E', !(presents_Id _ _ (or_intror eq_refl)).
      intros Hid. assert (o = o') as <- by by apply (NoDup_fmap_inj r_Id objects). congruence.
    + intros id (r & -> & (k & -> & (o & Ho & Hk & E)%Hf)%list_elem_of_fmap)%list_elem_of_fmap (o' & Hid & [Hk' Ho']%list_elem_of_filter)%list_elem_of_fmap.
      rewrite E, (presents_Id _ _ (or_intror eq_refl)) in Hid. assert (o = o') as <- by by apply (NoDup_fmap_inj r_Id objects). congruence.
    + eapply sublist_NoDup; [exact Hnd|]. apply fmap_sublist, sublist_filter.
  - intros id. rewrite <- fmap_app, !list_elem_of_fmap. split.
    + intros (r & -> & (o & Ho & Hp)%Hpres). exists o. split; [by apply presents_Id|done].
    + intros (o & -> & Ho). destruct (key o) as [k|] eqn:Ek.
      * exists (collapseCanonicalGroup [o]). rewrite (presents_Id _ _ (or_intror eq_refl)). split; [done|].
        apply elem_of_app. left. apply list_elem_of_fmap. exists k. split; [|apply Hkeys; by exists o]. unfold f. by rewrite (Hlook k o).
      * exists o. split; [done|]. apply elem_of_app. right. by apply list_elem_of_filter.
Qed.
End singletons.

(** ** Reads of stored objects *)
Section catalog.
Context `{MapOrder} `{Digests} (now : Z).
#[local] Instance listing_ports : RecordPorts DB := sqlite_ports now.

Definition records (db : DB) (ids : list string) : list ObjectRecord :=
  omap (λ id, bulk_record db id <$> drs_object db !! id) ids.
Lemma records_Id db ids : (∀ id, id ∈ ids → id ∈ dom (drs_object db)) → r_Id <$> records db ids = ids.
Proof.
  intros Hids. induction ids as [|id ids IH]; [done|]. unfold records. csimpl.
  destruct (drs_object db !! id) as [row|] eqn:Erow.
  - csimpl. unfold bulk_record at 1. rewrite hydrate_Id. f_equal. apply IH. intros x Hx. apply Hids. by right.
  - apply not_elem_of_dom in Erow. exfalso. apply Erow, Hids. by left.
Qed.
Lemma elem_of_records db ids o :
  o ∈ records db ids ↔ ∃ id row, id ∈ ids ∧ drs_object db !! id = Some row ∧ o = bulk_record db id row.
Proof.
  unfold records. rewrite list_elem_of_omap. split.
  - intros (id & Hid & Ho). destruct (drs_object db !! id) as [row|] eqn:E; [|done]. injection Ho as <-. by exists id, row.
  - intros (id & row & Hid & Hrow & ->). exists id. split; [done|]. by rewrite Hrow.
Qed.
Lemma GetBulkObjects_records db ids :
  (∀ id, id ∈ ids → id ∈ dom (drs_object db)) → NoDup ids → ContentReads.GetBulkObjects db ids = records db ids.
Proof.
  intros Hids Hnd. unfold ContentReads.GetBulkObjects, uniqueObjectsByID.
  assert (omap (bulk_lookup db (fetchObjectsByIDsOrChecksums db ids [])) ids = records db ids) as ->.
  { unfold records. assert (∀ id, id ∈ ids → bulk_lookup db (fetchObjectsByIDsOrChecksums db ids []) id = bulk_record db id <$> drs_object db !! id) as Hl.
    { intros id Hid. pose proof (Hids id Hid) as [row Hrow]%elem_of_dom. unfold bulk_lookup.
      assert (fetchObjectsByIDsOrChecksums db ids [] !! id = Some (bulk_record db id row)) as ->; [|by rewrite Hrow].
      apply fetch_lookup. exists row. split_and!; [done| |done]. unfold selected. by rewrite bool_decide_eq_true_2. }
    revert Hl. generalize (bulk_lookup db (fetchObjectsByIDsOrChecksums db ids [])) as f. intros f Hl. clear Hids Hnd.
    induction ids as [|id ids IH]; [done|]. csimpl. rewrite Hl by by left.
    rewrite IH; [done|]. intros x Hx. apply Hl. by right. }
  apply dedup_on_id. by rewrite records_Id.
Qed.
(** An identifier has one record. *)
Lemma records_unique db ids o o' v :
  honest db → store_inv db → o ∈ records db ids → o' ∈ records db ids →
  content_key o = Some v → content_key o' = Some v → o = o'.
Proof.
  intros Hh Hinv (id & row & _ & Hrow & ->)%elem_of_records (id' & row' & _ & Hrow' & ->)%elem_of_records.
  intros [Hv Hc]%(hydrate_content _ _ _ _ _ _ Hh Hinv) [_ Hc']%(hydrate_content _ _ _ _ _ _ Hh Hinv).
  assert (id = id') as <- by by eapply (inv_unique Hinv). congruence.
Qed.
(** The siblings of stored objects are those objects. *)
Lemma expand_records ctx db ids organization project resource :
  honest db → store_inv db → (∀ id, id ∈ ids → id ∈ dom (drs_object db)) → NoDup ids →
  ResourcePath (TrimSpace organization) (TrimSpace project) = Ok resource →
  expandProjectChecksumSiblingObjects ctx (records db ids) organization project db = Ok (records db ids).
Proof.
  intros Hh Hinv Hids Hnd Hr. unfold expandProjectChecksumSiblingObjects. cbv zeta.
  set (keyed := filter _ (records db ids)). set (checksums := dedup _).
  destruct (bool_decide _ || _ || _ || _) eqn:E; [done|].
  apply orb_false_iff in E as [[[_ _]%orb_false_iff Ho]%orb_false_iff Hp].
  assert (∀ o, o ∈ keyed → ∃ v, content_key o = Some v ∧ o ∈ records db ids) as Hkeyed.
  { intros o [Hk Hin]%list_elem_of_filter. destruct (canonicalProjectChecksumKey "" o) as [k|] eqn:Ek; [|done].
    apply project_key_content in Ek as (v & Hv & _). by exists v. }
  assert (∀ v, v ∈ checksums → valid_oid v ∧ ∃ id row, id ∈ ids ∧ drs_object db !! id = Some row ∧ claims (checksum db) id v) as Hsum.
  { intros v. unfold checksums. rewrite elem_of_dedup. intros (o & -> & (w & Hw & Hin)%Hkeyed)%list_elem_of_fmap. rewrite Hw. simpl.
    apply elem_of_records in Hin as (id & row & Hid & Hrow & ->). apply (hydrate_content _ _ _ _ _ _ Hh Hinv) in Hw as [Hw Hc].
    split; [done|]. by exists id, row. }
  assert (normalizeChecksumLookup <$> checksums = checksums) as Hnorm.
  { rewrite <- (list_fmap_id checksums) at 2. apply list_fmap_ext. intros i v Hv%list_elem_of_lookup_2.
    apply normalizeChecksumLookup_id. by apply Hsum. }
  cbn [port_ListScopedObjectIDsByChecksums listing_ports sqlite_ports].
  rewrite (scoped_lookup_answer db organization project resource); [|done|done|by apply is_empty_false..|].
  2: { apply Forall_forall. intros v Hv. rewrite normalizeChecksumLookup_id; by apply Hsum. }
  rewrite Hnorm. change (mbind ?f (Ok ?a)) with (f a). cbv beta.
  rewrite (dedup_on_id r_Id (records db ids)) by by rewrite records_Id.
  assert (filter (λ id, id ∉ r_Id <$> records db ids) (concat ((λ sha, default [] (scoped_index db resource (dedup checksums) !! sha)) <$> checksums)) = []) as ->; [|done].
  apply elem_of_nil_inv. intros id [Hn Hin]%list_elem_of_filter. apply Hn. rewrite records_Id by done.
  apply elem_of_concat_fmap in Hin as (v & Hv & Hin). destruct (Hsum v Hv) as (Hvv & c & row & Hc & Hrow & Hcl).
  rewrite scoped_index_lookup, bool_decide_eq_true_2 in Hin by by apply elem_of_dedup.
  apply scoped_owners_claim in Hin. by rewrite (inv_unique Hinv id c v Hvv Hin Hcl).
Qed.

(** ** Prepared objects *)
(** The caller holds the method on the stored record of an id. *)
Definition visible (ctx : context) (method : string) (db : DB) (id : string) : bool :=
  match drs_object db !! id with Some row => hasObjectMethod ctx (bulk_record db id row) method | None => false end.
Definition shows (db : DB) (r : ObjectRecord) : Prop :=
  ∃ row, drs_object db !! r_Id r = Some row ∧ presents (bulk_record db (r_Id r) row) r.
Lemma filter_records ctx method db ids :
  (∀ id, id ∈ ids → id ∈ dom (drs_object db)) →
  filterObjectsByMethod ctx (records db ids) method = records db (filter (λ id, visible ctx method db id = true) ids).
Proof.
  intros Hids. unfold filterObjectsByMethod. destruct (is_empty (TrimSpace method)) eqn:Em.
  - rewrite (filter_all_True (λ id, visible ctx method db id = true)); [done|]. intros id [row Hrow]%Hids%elem_of_dom.
    unfold visible, hasObjectMethod. cbv zeta. by rewrite Hrow, Em.
  - induction ids as [|id ids IH]; [done|]. assert (id ∈ dom (drs_object db)) as [row Hrow]%elem_of_dom by (apply Hids; by left).
    assert (∀ l, records db (id :: l) = bulk_record db id row :: records db l) as Hcons.
    { intros l. unfold records. csimpl. by rewrite Hrow. }
    assert (visible ctx method db id = hasObjectMethod ctx (bulk_record db id row) method) as Hv by (unfold visible; by rewrite Hrow).
    rewrite Hcons, !filter_cons, Hv. rewrite IH by (intros x Hx; apply Hids; by right). by case_decide.
Qed.
Lemma prepared_records ctx organization project resource method db ids :
  honest db → store_inv db → (∀ id, id ∈ ids → id ∈ dom (drs_object db)) → NoDup ids → StronglySorted String.le ids →
  ResourcePath (TrimSpace organization) (TrimSpace project) = Ok resource →
  ∃ prepared, PrepareScopedObjects ctx (records db ids) organization project method db = Ok prepared ∧
    r_Id <$> prepared = filter (λ id, visible ctx method db id = true) ids ∧ ∀ r, r ∈ prepared → shows db r.
Proof.
  intros Hh Hinv Hids Hnd Hsort Hr. unfold PrepareScopedObjects. rewrite (expand_records ctx db ids organization project resource) by done.
  change (mbind ?f (Ok ?a)) with (f a). cbv beta. rewrite filter_records by done. set (shown := filter _ ids).
  assert (∀ id, id ∈ shown → id ∈ dom (drs_object db)) as Hshown by (intros id [_ Hid]%list_elem_of_filter; by apply Hids).
  destruct (canonical_singletons (records db shown)) with (organization := organization) (project := project) as [HId Hpres].
  - intros o o' v. by apply records_unique.
  - rewrite records_Id by done. by apply NoDup_filter.
  - rewrite records_Id by done. by apply sorted_filter.
  - eexists. split; [reflexivity|]. split; [by rewrite HId, records_Id|]. intros r (o & Ho & Hp)%Hpres.
    apply elem_of_records in Ho as (id & row & _ & Hrow & ->). pose proof (presents_Id _ _ Hp) as Hid.
    unfold bulk_record in Hid. rewrite hydrate_Id in Hid. exists row. by rewrite Hid.
Qed.
Lemma GetPreparedScopedObjects_records ctx organization project resource method db ids :
  honest db → store_inv db → (∀ id, id ∈ ids → id ∈ dom (drs_object db)) → NoDup ids → StronglySorted String.le ids →
  ResourcePath (TrimSpace organization) (TrimSpace project) = Ok resource →
  ∃ prepared, GetPreparedScopedObjects ctx ids organization project method db = Ok prepared ∧
    r_Id <$> prepared = filter (λ id, visible ctx method db id = true) ids ∧ ∀ r, r ∈ prepared → shows db r.
Proof.
  intros Hh Hinv Hids Hnd Hsort Hr. unfold GetPreparedScopedObjects. cbn [port_GetBulkObjects listing_ports sqlite_ports].
  rewrite GetBulkObjects_records by done. by apply (prepared_records ctx organization project resource).
Qed.

(** ** The pages of a scope *)
Lemma scope_pages db organization project :
  TrimSpace organization ≠ "" →
  (∃ e, ContentReads.ListObjectIDsByScope db organization project = Err e) ∨
  ∃ resource p, ResourcePath (TrimSpace organization) (TrimSpace project) = Ok resource ∧
    ContentReads.ListObjectIDsByScope db organization project = Ok (select_ids db p) ∧
    ∀ startAfter limit, (0 < limit)%Z →
      ContentReads.ListObjectIDsPageByScope db organization project startAfter limit 0 =
        Ok (page_of (select_ids db p) (Z.to_nat limit) (TrimSpace startAfter)).
Proof.
  intros Ho%is_empty_false. unfold ContentReads.ListObjectIDsByScope, ContentReads.ListObjectIDsPageByScope, sqliteScopeResourceCondition.
  cbv zeta. rewrite Ho, !TrimSpace_idemp. destruct (is_empty (TrimSpace project)) eqn:Ep.
  - apply is_empty_spec in Ep. rewrite Ep. destruct (ResourcePath _ "") as [resource|e]; [right|left; by eexists].
    eexists resource, _. split; [done|]. split; [reflexivity|]. intros s limit Hl. apply Z.leb_gt in Hl. rewrite Hl.
    rewrite <- page_spec. reflexivity.
  - destruct (ResourcePath _ (TrimSpace project)) as [resource|e]; [right|left; by eexists].
    eexists resource, _. split; [done|]. split; [reflexivity|]. intros s limit Hl. apply Z.leb_gt in Hl. rewrite Hl.
    rewrite <- page_spec. reflexivity.
Qed.

(** ** The loop over raw pages *)
Lemma take_take_app {A} n (a b : list A) : take n (take n a ++ b) = take n (a ++ b).
Proof.
  destruct (decide (length a ≤ n)) as [Hl|Hl]; [by rewrite (take_ge a) by lia|].
  rewrite !take_app_le; [by rewrite take_take, Nat.min_id|lia|rewrite length_take; lia].
Qed.
Lemma collect_fold startAfter target (collected prepared : list ObjectRecord) :
  NoDup ((r_Id <$> collected) ++ (r_Id <$> prepared)) → (Z.of_nat (length collected) <= target)%Z →
  (∀ r, r ∈ prepared → after startAfter (r_Id r) = true) →
  foldl (collect_step startAfter target) collected prepared = take (Z.to_nat target) (collected ++ prepared).
Proof.
  revert collected. induction prepared as [|r prepared IH]; intros collected Hnd Hlen Hafter; cbn [foldl].
  { rewrite app_nil_r, take_ge; [done|lia]. }
  unfold collect_step at 2. destruct (Z.leb_spec target (Z.of_nat (length collected))) as [Hge|Hlt].
  - rewrite IH; [|by eapply sublist_NoDup; [exact Hnd|]; apply sublist_app; [done|]; csimpl; apply sublist_cons|done|].
    2: { intros x Hx. apply Hafter. by right. }
    rewrite !take_app_le by lia. done.
  - assert (after startAfter (r_Id r) = true) as Ha by (apply Hafter; by left).
    assert (negb (is_empty startAfter) && String.leb (r_Id r) startAfter = false) as ->.
    { unfold after in Ha. destruct (is_empty startAfter); [done|]. simpl in *. rewrite ltb_leb in Ha. by apply negb_true_iff. }
    rewrite decide_False.
    2: { apply NoDup_app in Hnd as (_ & Hd & _). intros Hin. apply (Hd _ Hin). csimpl. by left. }
    rewrite IH.
    + by rewrite <- (assoc_L (++)).
    + by rewrite fmap_app, <- (assoc_L (++)).
    + rewrite length_app. simpl. lia.
    + intros x Hx. apply Hafter. by right.
Qed.

Section loop.
Context (ctx : context) (organization project resource method startAfter : string) (db : DB) (B : list string).
Context (target batchSize : Z) (Htarget : (0 < target)%Z) (Hbatch : (0 < batchSize)%Z).
Context (Hh : honest db) (Hinv : store_inv db).
Context (Hresource : ResourcePath (TrimSpace organization) (TrimSpace project) = Ok resource).
Context (HB : ∀ id, id ∈ B → id ∈ dom (drs_object db)) (Hnd : NoDup B) (Hsort : StronglySorted String.le B).
Context (Hread : ∀ s, TrimSpace s = s →
  Listing.ListObjectIDsPageByScope ctx organization project method s batchSize 0 db = Ok (page_of B (Z.to_nat batchSize) s)).
Let tail (rawStart : string) : list string := filter (λ id, after rawStart id = true) B.
Let show (ids : list string) : list string := filter (λ id, visible ctx method db id = true) ids.

Lemma collect_pages_spec fuel rawStart collected :
  TrimSpace rawStart = rawStart → NoDup ((r_Id <$> collected) ++ tail rawStart) →
  (∀ id, id ∈ tail rawStart → after startAfter id = true) → (∀ r, r ∈ collected → shows db r) →
  (Z.of_nat (length collected) <= target)%Z → length (tail rawStart) < fuel →
  ∃ R, collect_pages fuel ctx organization project method startAfter rawStart target batchSize collected db = Some (Ok R) ∧
    r_Id <$> R = take (Z.to_nat target) ((r_Id <$> collected) ++ show (tail rawStart)) ∧ ∀ r, r ∈ R → shows db r.
Proof.
  revert rawStart collected. induction fuel as [|fuel IH]; intros rawStart collected Hraw Hndt Hafter Hshows Hlen Hfuel; [lia|].
  cbn [collect_pages]. destruct (Z.leb_spec target (Z.of_nat (length collected))) as [Hge|Hlt].
  { exists collected. split; [done|]. split; [|done]. rewrite take_app_le by (rewrite length_fmap; lia).
    rewrite take_ge; [done|rewrite length_fmap; lia]. }
  rewrite Hread by done. unfold page_of. fold (tail rawStart). set (ids := take (Z.to_nat batchSize) (tail rawStart)).
  assert (∀ id, id ∈ ids → id ∈ B) as HidsB.
  { intros id Hid%elem_of_take. destruct Hid as (i & Hid & _). apply list_elem_of_lookup_2 in Hid. by apply list_elem_of_filter in Hid as [_ ?]. }
  destruct (last ids) as [x|] eqn:Elast.
  2: { apply last_None in Elast. apply take_nil_inv in Elast as [?|Ht]; [lia|]. exists collected. split; [done|]. split; [|done].
       rewrite Ht. unfold show. simpl. rewrite app_nil_r, take_ge; [done|rewrite length_fmap; lia]. }
  assert (NoDup ids) as Hndi.
  { eapply sublist_NoDup; [exact Hnd|]. etrans; [apply sublist_take|apply sublist_filter]. }
  assert (StronglySorted String.le ids) as Hsorti by (apply sorted_take, sorted_filter; done).
  destruct (GetPreparedScopedObjects_records ctx organization project resource method db ids) as (prepared & -> & Hpid & Hps);
    [done|done|by intros id Hid; apply HB, HidsB|done|done|done|].
  fold (show ids) in Hpid.
  assert (NoDup ((r_Id <$> collected) ++ show ids ++ drop (Z.to_nat batchSize) (tail rawStart))) as Hndc.
  { eapply sublist_NoDup; [exact Hndt|]. apply sublist_app; [done|]. rewrite <- (take_drop (Z.to_nat batchSize) (tail rawStart)) at 2.
    apply sublist_app; [apply sublist_filter|done]. }
  rewrite (collect_fold startAfter target collected prepared).
  2: { rewrite Hpid. rewrite (assoc_L (++)) in Hndc. by apply NoDup_app in Hndc as [? _]. }
  2: lia.
  2: { intros r Hr. apply Hafter. assert (r_Id r ∈ show ids) as Hin by (rewrite <- Hpid; by apply list_elem_of_fmap_2).
       apply list_elem_of_filter in Hin as [_ Hin]. by apply elem_of_take in Hin as (i & Hin & _); apply list_elem_of_lookup_2 in Hin. }
  set (collected' := take _ (collected ++ prepared)).
  assert (r_Id <$> collected' = take (Z.to_nat target) ((r_Id <$> collected) ++ show ids)) as HId'.
  { unfold collected'. by rewrite fmap_take, fmap_app, Hpid. }
  assert (∀ r, r ∈ collected' → shows db r) as Hshows'.
  { intros r Hr%elem_of_take. destruct Hr as (i & Hr & _). apply list_elem_of_lookup_2, elem_of_app in Hr as [?|?]; auto. }
  destruct (Z.ltb_spec (Z.of_nat (length ids)) batchSize) as [Hshort|Hfull].
  { exists collected'. split; [done|]. split; [|done]. rewrite HId'. assert (ids = tail rawStart) as ->; [|done].
    unfold ids in *. rewrite length_take in Hshort. apply take_ge. lia. }
  assert (x ∈ B) as HxB by (apply HidsB; by apply last_Some_elem_of).
  destruct (inv_ids Hinv x) as [Hxt Hxn]; [by apply HB|].
  assert (tail x = drop (Z.to_nat batchSize) (tail rawStart)) as Htail.
  { pose proof Elast as [r1 Er1]%last_Some. apply (filter_after_suffix B rawStart r1 x); [done..|].
    change (tail rawStart = r1 ++ x :: drop (Z.to_nat batchSize) (tail rawStart)).
    rewrite <- (take_drop (Z.to_nat batchSize) (tail rawStart)) at 1. fold ids. by rewrite Er1, <- (assoc_L (++)). }
  destruct (IH x collected') as (R & HR & HRid & HRs).
  - done.
  - rewrite Htail, HId'. eapply sublist_NoDup; [exact Hndc|]. rewrite (assoc_L (++)). apply sublist_app; [apply sublist_take|done].
  - rewrite Htail. intros id Hid. apply Hafter. by eapply subseteq_drop.
  - done.
  - unfold collected'. rewrite length_take. lia.
  - rewrite Htail, length_drop. assert (0 < length ids) as Hpos; [|unfold ids in Hpos; rewrite length_take in Hpos; lia].
    destruct ids; [done|simpl; lia].
  - exists R. split; [done|]. split; [|done]. rewrite HRid, HId', take_take_app, Htail, <- (assoc_L (++)). unfold show.
    rewrite <- filter_app. unfold ids. by rewrite take_drop.
Qed.
End loop.

(** ** A page of prepared objects *)
(** The ids of a scope whose stored record the caller holds the method on. *)
Definition visible_ids (ctx : context) (organization project method : string) (db : DB) : list string :=
  match ContentReads.ListObjectIDsByScope db organization project with
  | Ok ids => filter (λ id, visible ctx method db id = true) ids
  | Err _ => []
  end.
Definition room (db : DB) (limit offset : Z) : Prop :=
  (0 < limit)%Z ∧ (0 <= offset)%Z ∧ int64 (Z.of_nat (size (drs_object db)) + limit + offset + 100).

(** The list the raw pages run over: the scope, or its visible part when the caller is restricted. *)
Lemma raw_pages ctx organization project method db limit :
  honest db → store_inv db → TrimSpace organization ≠ "" → (0 < limit)%Z →
  int64 (Z.of_nat (size (drs_object db)) + limit) → is_ok (ContentReads.ListObjectIDsByScope db organization project) = true →
  ∃ resource B, ResourcePath (TrimSpace organization) (TrimSpace project) = Ok resource ∧
    (∀ id, id ∈ B → id ∈ dom (drs_object db)) ∧ NoDup B ∧ StronglySorted String.le B ∧ length B ≤ size (drs_object db) ∧
    filter (λ id, visible ctx method db id = true) B = visible_ids ctx organization project method db ∧
    ∀ s, TrimSpace s = s →
      Listing.ListObjectIDsPageByScope ctx organization project method s limit 0 db = Ok (page_of B (Z.to_nat limit) s).
Proof.
  intros Hh Hinv Ho Hlim Hroom Hok. destruct (scope_pages db organization project Ho) as [[e He]|(resource & p & Hr & HL & Hpages)].
  { by rewrite He in Hok. }
  unfold visible_ids. rewrite HL. set (L := select_ids db p) in *.
  assert (∀ id, id ∈ L → id ∈ dom (drs_object db)) as HLd by (intros id Hid; by apply elem_of_select_ids in Hid as [? _]).
  assert (NoDup L) as HLn by apply NoDup_select_ids. assert (StronglySorted String.le L) as HLs by apply sort_Strings_sorted.
  assert (length L ≤ size (drs_object db)) as HLl by apply length_select_ids.
  assert ((limit <=? 0)%Z = false) as Hl0 by (apply Z.leb_gt; lia).
  unfold Listing.ListObjectIDsPageByScope. rewrite Hl0. cbn [port_ListObjectIDsPageByScope listing_ports sqlite_ports].
  destruct (canUseUnrestrictedScopePage ctx method).
  { exists resource, L. split_and!; try done. intros s Hs. by rewrite Hpages, Hs. }
  set (V := filter (λ id, visible ctx method db id = true) L). exists resource, V.
  assert (length V ≤ size (drs_object db)) as HVl by (etrans; [apply length_filter|exact HLl]).
  split_and!; [done|by intros id [_ Hid]%list_elem_of_filter; apply HLd|by apply NoDup_filter|by apply sorted_filter|done| |].
  { apply filter_all_True. by intros id [? _]%list_elem_of_filter. }
  intros s Hs. unfold Listing.ListObjectIDsByScope, list_readable_everywhere. apply is_empty_false in Ho. rewrite Ho. cbn [andb].
  change (mbind ?f (Ok ?a)) with (f a). cbv beta. cbn [port_ListObjectIDsByScope port_GetBulkObjects listing_ports sqlite_ports].
  rewrite HL. change (mbind ?f (Ok ?a)) with (f a). cbv beta. rewrite GetBulkObjects_records by done.
  change (mbind ?f (Ok ?a)) with (f a). cbv beta.
  destruct (prepared_records ctx organization project resource method db L) as (prepared & -> & HId & _); [done..|].
  change (mbind ?f (Ok ?a)) with (f a). cbv beta. rewrite HId. fold V.
  change (mbind ?f (Ok ?a)) with (f a). cbv beta.
  assert (page_after V s limit 0 = Ok (page_of V (Z.to_nat limit) s)) as Hpage.
  { rewrite page_after_spec; [|lia|unfold int64 in *; lia]. rewrite (sort_Strings_unique V V); [done| |done]. by apply sorted_filter. }
  rewrite Hpage. destruct V as [|v V']; [|done]. unfold page_of. by destruct (Z.to_nat limit).
Qed.
Lemma prepared_page ctx organization project method startAfter limit offset db fuel :
  honest db → store_inv db → TrimSpace organization ≠ "" → room db limit offset →
  is_ok (ContentReads.ListObjectIDsByScope db organization project) = true → size (drs_object db) < fuel →
  ∃ R, ListPreparedObjectsPageByScope fuel ctx organization project method startAfter limit offset db = Some (Ok R) ∧
    r_Id <$> R = (let V := visible_ids ctx organization project method db in
                  if is_empty (TrimSpace startAfter) then take (Z.to_nat limit) (drop (Z.to_nat offset) V)
                  else page_of V (Z.to_nat limit) (TrimSpace startAfter)) ∧
    ∀ r, r ∈ R → shows db r.
Proof.
  intros Hh Hinv Ho (Hl & Hoff & Hroom) Hok Hfuel. unfold ListPreparedObjectsPageByScope. cbv zeta.
  destruct (Z.leb_spec limit 0); [lia|]. destruct (Z.ltb_spec offset 0); [lia|].
  set (start := TrimSpace startAfter). set (skip := if is_empty start then offset else 0%Z).
  assert (0 <= skip <= offset)%Z as Hskip by (unfold skip; destruct (is_empty start); lia).
  assert (int64 (skip + limit)) as Hi by (unfold int64 in *; lia).
  rewrite wrap64_id by (unfold int64 in *; lia). destruct (Z.ltb_spec (limit + skip) 0); [lia|].
  set (batch := if (limit + skip <? 100)%Z then 100%Z else (limit + skip)%Z).
  assert (0 < batch <= limit + offset + 100)%Z as Hb by (unfold batch; destruct (Z.ltb_spec (limit + skip) 100); lia).
  destruct (raw_pages ctx organization project method db batch) as (resource & B & Hr & HB & Hnd & Hsort & Hlen & HV & Hread);
    [done..|lia|unfold int64 in *; lia|done|].
  destruct (collect_pages_spec ctx organization project resource method start db B (limit + skip) batch) with (fuel := fuel)
    (rawStart := start) (collected := @nil ObjectRecord) as (R & -> & HRid & HRs); try done; try lia.
  - by apply TrimSpace_idemp.
  - simpl. by apply NoDup_filter.
  - by intros id [? _]%list_elem_of_filter.
  - by intros r ?%elem_of_nil.
  - eapply Nat.le_lt_trans; [apply length_filter|lia].
  - rewrite slice_page_in_range by (try done; lia). eexists. split; [reflexivity|]. split.
    2: { intros r (i & Hi' & _)%elem_of_take. apply list_elem_of_lookup_2, subseteq_drop in Hi'. by apply HRs. }
    rewrite fmap_take, fmap_drop, HRid. simpl. rewrite <- HV. set (show := λ id, visible ctx method db id = true).
    assert (filter show (filter (λ id, after start id = true) B) = filter (λ id, after start id = true) (filter show B)) as ->.
    { rewrite !list_filter_filter. apply list_filter_iff. tauto. }
    rewrite (Z.add_comm limit skip), Z2Nat.inj_add, <- take_drop_commute, take_take, Nat.min_id by lia. unfold skip. destruct (is_empty start) eqn:Es.
    + rewrite (filter_all_True (λ id, after start id = true)); [done|]. intros id _. unfold after. by rewrite Es.
    + simpl. by rewrite drop_0.
Qed.

(** C29 A page of prepared objects is computed in finitely many reads, at most one per stored object and one more,
    and is exact: over the SQLite repository it holds the objects of the scope that the caller may see, those
    past the cursor or from the offset on, up to the limit, in the order of their ids; each is presented by
    its stored record. *)
Theorem prepared_page_exact ctx organization project method startAfter limit offset db fuel :
  reachable db → TrimSpace organization ≠ "" → room db limit offset →
  is_ok (ContentReads.ListObjectIDsByScope db organization project) = true → size (drs_object db) < fuel →
  ∃ R, ListPreparedObjectsPageByScope fuel ctx organization project method startAfter limit offset db = Some (Ok R) ∧
    r_Id <$> R = (let V := visible_ids ctx organization project method db in
                  if is_empty (TrimSpace startAfter) then take (Z.to_nat limit) (drop (Z.to_nat offset) V)
                  else page_of V (Z.to_nat limit) (TrimSpace startAfter)) ∧
    ∀ r, r ∈ R → shows db r.
Proof. intros Hreach. apply prepared_page; [by apply reachable_honest|by apply reachable_store_inv]. Qed.

(** The ids a client reads from a page. *)
Definition page_ids (page : option (result error (list ObjectRecord))) : result error (list string) :=
  match page with
  | Some (Ok R) => Ok (r_Id <$> R)
  | Some (Err e) => Err e
  | None => Err (EText "out of fuel")
  end.
(** C37 A client that asks for the prepared objects of a scope page by page, each time from the last id it has
    seen, gets every object of the scope that it may see, once and in the order of the ids, and stops. *)
Theorem prepared_pages_enumerate ctx organization project method limit db fuel :
  reachable db → TrimSpace organization ≠ "" → room db limit 0 →
  is_ok (ContentReads.ListObjectIDsByScope db organization project) = true → size (drs_object db) < fuel →
  walk fuel (λ startAfter, page_ids (ListPreparedObjectsPageByScope fuel ctx organization project method startAfter limit 0 db)) ""
  = Ok (visible_ids ctx organization project method db).
Proof.
  intros Hreach Ho Hroom Hok Hfuel. pose proof (reachable_honest db Hreach) as Hh. pose proof (reachable_store_inv db Hreach) as Hinv.
  set (V := visible_ids ctx organization project method db).
  assert (∀ l : list string, filter (λ id, after "" id = true) l = l) as Hall by (intros l; by apply filter_all_True).
  assert ((∀ id, id ∈ V → id ∈ dom (drs_object db)) ∧ NoDup V ∧ StronglySorted String.le V ∧ length V ≤ size (drs_object db)) as (HVd & HVn & HVs & HVl).
  { destruct Hroom as (Hl & _ & Hi). destruct (raw_pages ctx organization project method db limit) as (resource & B & _ & HB & Hnd & Hsort & Hlen & HV & _);
      [done..|unfold int64 in *; lia|done|]. unfold V. rewrite <- HV. split_and!.
    - intros id [_ Hid]%list_elem_of_filter. by apply HB.
    - by apply NoDup_filter.
    - by apply sorted_filter.
    - etrans; [apply length_filter|exact Hlen]. }
  rewrite <- (Hall V). apply (walk_from V (Z.to_nat limit)); [done|done| |destruct Hroom; lia| |by left|rewrite Hall; lia].
  - intros id Hid. by apply (inv_ids Hinv), HVd.
  - intros s Hs. destruct (prepared_page ctx organization project method s limit 0 db fuel) as (R & -> & HR & _); [done..|].
    simpl. rewrite HR. cbv zeta. fold V. f_equal. destruct Hs as [->|Hs].
    + simpl. unfold page_of. by rewrite drop_0, Hall.
    + destruct (inv_ids Hinv s) as [Ht Hn]; [by apply HVd|]. rewrite Ht. apply is_empty_false in Hn. by rewrite Hn.
Qed.
End catalog.

(** ** Concrete runs *)
#[local] Existing Instance canonical_order.
#[local] Instance listing_digests : Digests := {| sha256_hex := λ s, s; uuid_NewSHA1 := λ s, s |}.
#[local] Instance ac_ports : RecordPorts DB := sqlite_ports 7.
Lemma room_ac offset : (0 <= offset <= 10)%Z → room db_ac 1 offset.
Proof.
  intros Ho. split_and!; [done|lia|]. assert (size (drs_object db_ac) = 2) as -> by by vm_compute. unfold int64. lia.
Qed.
Lemma size_ac : size (drs_object db_ac) < 3.
Proof. apply Nat.ltb_lt. by vm_compute. Qed.
(** The second page of one object. *)
Lemma prepared_page_exact_witness :
  ∃ R, ListPreparedObjectsPageByScope 3 None "ohsu" "p1" "read" "" 1 1 db_ac = Some (Ok R) ∧ r_Id <$> R = ["c"].
Proof.
  destruct (prepared_page_exact 7 None "ohsu" "p1" "read" "" 1 1 db_ac 3) as (R & HR & HId & _).
  - exact db_ac_reachable.
  - done.
  - apply room_ac. lia.
  - by vm_compute.
  - exact size_ac.
  - exists R. split; [exact HR|]. rewrite HId. by vm_compute.
Defined.
Lemma prepared_pages_enumerate_witness :
  walk 3 (λ startAfter, page_ids (ListPreparedObjectsPageByScope 3 None "ohsu" "" "read" startAfter 1 0 db_ac)) ""
  = Ok (visible_ids None "ohsu" "" "read" db_ac) ∧ visible_ids None "ohsu" "" "read" db_ac = ["a"; "c"].
Proof.
  split; [|by vm_compute]. apply (prepared_pages_enumerate 7 None "ohsu" "" "read" 1 db_ac 3).
  - exact db_ac_reachable.
  - done.
  - apply room_ac. lia.
  - by vm_compute.
  - exact size_ac.
Defined.
