(* ===== verification/Transfer.v ===== *)
(** * Client transfers: sizes, parts and retries
    client/common/constants.go, client/transfer/retry.go, client/transfer/engine/chunk.go, and the
    arithmetic of parts in client/transfer/engine/uploader.go and downloader.go.  Lengths and offsets are
    int64 values, wrapped where the code adds or multiplies them; float64 values are [spec_float]s of
    binary64, each operation rounded separately. *)
From Stdlib Require Import SpecFloat.
From S2P Require Import Prelude GoStrings.

(** ** Constants (client/common/constants.go) *)
Definition KB : Z := 1024.
Definition MB : Z := 1024 * KB.
Definition GB : Z := 1024 * MB.
Definition TB : Z := 1024 * GB.
Definition FileSizeLimit : Z := 5 * GB.
Definition MultipartFileSizeLimit : Z := 5 * TB.
Definition MinMultipartChunkSize : Z := 10 * MB.
Definition MaxMultipartParts : Z := 10000.
Definition MaxRetryCount : Z := 5.
Definition MaxWaitTime : Z := 300.
Definition MaxConcurrentUploads : nat := 10.
Definition OnProgressThreshold : Z := 1 * MB.

(** ** Errors of a transfer
    [FText] and [FWrap] are errors of the backend, of the file system and of fmt.Errorf; the two wrappers
    are the marker types of retry.go and progress_reader.go; the last two are transfer.ErrRangeIgnored and
    the error of a cancelled context. *)
Inductive failure : Type :=
  | FText (msg : string)
  | FWrap (msg : string) (cause : failure)
  | nonRetryableError (err : failure)
  | progressCallbackError (err : failure)
  | ErrRangeIgnored
  | ContextDone.

(** errors.As with a nonRetryableError target: the first one of the chain *)
Fixpoint As_nonRetryable (e : failure) : option failure :=
  match e with
  | nonRetryableError err => Some err
  | FWrap _ c | progressCallbackError c => As_nonRetryable c
  | _ => None
  end.
Fixpoint isProgressCallbackError (e : failure) : bool :=
  match e with
  | progressCallbackError _ => true
  | FWrap _ c | nonRetryableError c => isProgressCallbackError c
  | _ => false
  end.
Definition NonRetryable (e : failure) : failure :=
  match As_nonRetryable e with Some _ => e | None => nonRetryableError e end.
Fixpoint IsRangeIgnored (e : failure) : bool :=
  match e with
  | ErrRangeIgnored => true
  | FWrap _ c | nonRetryableError c | progressCallbackError c => IsRangeIgnored c
  | _ => false
  end.

(** ** Waiting between attempts *)
Definition Second : Z := 1000000000.
(** [1 << n] on a 64-bit int *)
Definition shift_one (n : Z) : Z := if (64 <=? n)%Z then 0 else wrap64 (2 ^ n).
Definition WaitTime (MaxWaitSeconds retryCount : Z) : Z :=
  let seconds := shift_one retryCount in
  let seconds := if (MaxWaitSeconds <? seconds)%Z then MaxWaitSeconds else seconds in
  wrap64 (seconds * Second).
Definition DefaultBackoff : Z → Z := WaitTime MaxWaitTime.

(** ** RetryAction
    What one round of the loop makes of the result of the action. *)
Inductive verdict : Type :=
  | Return (e : option failure)
  | Again (lastErr : failure).
Definition retry_verdict (maxRetries i : Z) (r : option failure) : verdict :=
  match r with
  | None => Return None
  | Some lastErr =>
      match As_nonRetryable lastErr with
      | Some err => Return (Some err)
      | None => if (i + 1 <=? maxRetries)%Z then Again lastErr else Return (Some lastErr)
      end
  end.

Section RetryAction.
(** the state of the action, whether the context is done when round [i] waits, and the action *)
Context {S : Type} (strategy : Z → Z) (done : Z → bool) (maxRetries : Z) (action : S → S * option failure).

(** The rounds from [i] on; [waits] are the pauses taken so far. *)
Fixpoint retry_rounds (fuel : nat) (i : Z) (waits : list Z) (s : S) : S * list Z * option failure :=
  match fuel with
  | O => (s, waits, None)
  | Datatypes.S fuel =>
      if ((0 <? i)%Z && done i)%bool then (s, waits ++ [strategy i], Some ContextDone) else
      let waits := if (0 <? i)%Z then waits ++ [strategy i] else waits in
      let '(s, r) := action s in
      match retry_verdict maxRetries i r with
      | Return e => (s, waits, e)
      | Again _ => retry_rounds fuel (i + 1) waits s
      end
  end.
Definition RetryAction (s : S) : S * list Z * option failure :=
  retry_rounds (Z.to_nat (maxRetries + 1)) 0 [] s.
End RetryAction.

(** ** Chunk sizes (client/transfer/engine/chunk.go) *)
Definition float64 (z : Z) : spec_float := binary_normalize 53 1024 z 0 false.
(** Conversion truncates; out of range the result is the one of amd64. *)
Definition int64_of_float64 (f : spec_float) : Z :=
  let out_of_range := (- 2 ^ 63)%Z in
  match f with
  | S754_zero _ => 0
  | S754_finite s m e =>
      let v := if (0 <=? e)%Z then Z.shiftl (Zpos m) e else Z.shiftr (Zpos m) (- e) in
      let v := if s then (- v)%Z else v in
      if ((- 2 ^ 63 <=? v) && (v <? 2 ^ 63))%Z then v else out_of_range
  | _ => out_of_range
  end.
Definition float64_add := SFadd 53 1024.
Definition float64_sub := SFsub 53 1024.
Definition float64_mul := SFmul 53 1024.
Definition float64_div := SFdiv 53 1024.

Definition scaleLinear (size minSize maxSize minChunk maxChunk : Z) : Z :=
  if (size <=? minSize)%Z then minChunk else
  if (maxSize <=? size)%Z then maxChunk else
  let ratio := float64_div (float64 (wrap64 (size - minSize))) (float64 (wrap64 (maxSize - minSize))) in
  let chunkF := float64_add (float64 minChunk) (float64_mul ratio (float64_sub (float64 maxChunk) (float64 minChunk))) in
  let chunk := wrap64 (Z.quot (int64_of_float64 chunkF) MB * MB) in
  if (chunk <? minChunk)%Z then minChunk else
  if (maxChunk <? chunk)%Z then maxChunk else chunk.

Definition OptimalChunkSize (fileSize : Z) : Z :=
  if (fileSize <=? 0)%Z then 1 * MB else
  if (fileSize <=? 100 * MB)%Z then fileSize else
  if (fileSize <=? 1 * GB)%Z then 10 * MB else
  if (fileSize <=? 10 * GB)%Z then scaleLinear fileSize (1 * GB) (10 * GB) (25 * MB) (128 * MB) else
  if (fileSize <=? 100 * GB)%Z then 256 * MB else
  scaleLinear fileSize (100 * GB) (1000 * GB) (512 * MB) (1024 * MB).

(** ** The parts of an upload (uploadMultipart in uploader.go) *)
Definition numChunks (fileSize chunkSize : Z) : Z :=
  Z.quot (wrap64 (wrap64 (fileSize + chunkSize) - 1)) chunkSize.
Definition part_offset (chunkSize partNum : Z) : Z := wrap64 ((partNum - 1) * chunkSize).
Definition part_size (fileSize chunkSize partNum : Z) : Z :=
  let offset := part_offset chunkSize partNum in
  if (fileSize <? wrap64 (offset + chunkSize))%Z then wrap64 (fileSize - offset) else chunkSize.
Definition part_numbers (fileSize chunkSize : Z) : list Z := seqZ 1 (numChunks fileSize chunkSize).

(** io.NewSectionReader: the bytes it reads *)
Definition section_bytes {A} (content : list A) (offset size : Z) : list A :=
  take (Z.to_nat size) (drop (Z.to_nat offset) content).

(** ** The ranges of a parallel download (downloadParallel in downloader.go) *)
Definition range_start (chunkSize i : Z) : Z := wrap64 (i * chunkSize).
Definition range_end (totalSize chunkSize i : Z) : Z :=
  let pe := wrap64 (wrap64 (range_start chunkSize i + chunkSize) - 1) in
  if (totalSize <=? pe)%Z then wrap64 (totalSize - 1) else pe.
Definition range_length (totalSize chunkSize i : Z) : Z :=
  wrap64 (wrap64 (range_end totalSize chunkSize i - range_start chunkSize i) + 1).

(** ** Retries *)
Section RetryAction_spec.
Context {S : Type} (strategy : Z → Z) (done : Z → bool) (maxRetries : Z) (action : S → S * option failure).

(** The results of [k] runs of the action. *)
Fixpoint attempts (k : nat) (s : S) : S * list (option failure) :=
  match k with
  | O => (s, [])
  | Datatypes.S k => let '(s, r) := action s in let '(s, rs) := attempts k s in (s, r :: rs)
  end.
Definition retryable (r : option failure) : Prop := ∃ e, r = Some e ∧ As_nonRetryable e = None.
(** What a caller is told when the last result is [r]. *)
Definition settled (r : option failure) : option failure :=
  match r with Some e => Some (default e (As_nonRetryable e)) | None => None end.

Definition pauses (i n : Z) : list Z := concat (map (λ j, if (0 <? j)%Z then [strategy j] else []) (seqZ i n)).

Lemma pauses_nil i : pauses i 0 = [].
Proof. done. Qed.
Lemma pauses_cons i n : (0 <= n)%Z → pauses i (n + 1) = (if (0 <? i)%Z then [strategy i] else []) ++ pauses (i + 1) n.
Proof. intros Hn. unfold pauses. rewrite (seqZ_cons i) by lia. rewrite Z.add_1_r, Z.add_1_r, Z.pred_succ. done. Qed.
Lemma pauses_later i n (w : list Z) : (0 <= n)%Z →
  (if (0 <? i)%Z then w ++ [strategy i] else w) ++ pauses (i + 1) n = w ++ pauses i (n + 1).
Proof. intros Hn. rewrite pauses_cons by done. destruct (0 <? i)%Z; by rewrite <- ?app_assoc. Qed.

(** From round [i] on, the action runs until a result settles the matter or the context is done. *)
Lemma retry_rounds_spec fuel i waits s :
  (0 <= i)%Z → Z.of_nat (Datatypes.S fuel) = (maxRetries + 1 - i)%Z →
  ∃ (k : nat) s' rs, attempts k s = (s', rs) ∧
    ((∃ rs0 r, rs = rs0 ++ [r] ∧ Forall retryable rs0 ∧ (retryable r → (i + Z.of_nat k = maxRetries + 1)%Z) ∧
        (i + Z.of_nat k <= maxRetries + 1)%Z ∧
        retry_rounds strategy done maxRetries action (Datatypes.S fuel) i waits s
          = (s', waits ++ pauses i (Z.of_nat k), settled r)) ∨
     (Forall retryable rs ∧ (0 < i + Z.of_nat k <= maxRetries)%Z ∧ done (i + Z.of_nat k) = true ∧
        retry_rounds strategy done maxRetries action (Datatypes.S fuel) i waits s
          = (s', waits ++ pauses i (Z.of_nat k + 1), Some ContextDone))).
Proof.
  revert i waits s. induction fuel as [|fuel IH]; intros i waits s Hi Hf.
  all: cbn [retry_rounds].
  all: pose proof (pauses_later i 0 waits ltac:(lia)) as Hp0; rewrite pauses_nil, app_nil_r in Hp0.
  all: destruct (_ && done i)%bool eqn:Hd.
  1, 3: apply andb_true_iff in Hd as [Hi0 Hd]; rewrite Hi0 in Hp0; apply Z.ltb_lt in Hi0;
    exists 0, s, []; split; [done|]; right; replace (i + Z.of_nat 0)%Z with i by lia; change (Z.of_nat 0 + 1)%Z with (0 + 1)%Z; rewrite <- Hp0;
    split_and!; [by apply Forall_nil|lia|lia|done|done].
  all: destruct (action s) as [s1 r] eqn:Ha; destruct (retry_verdict maxRetries i r) as [e|e] eqn:Hv; unfold retry_verdict in Hv.
  1, 3: exists 1, s1, [r]; split; [by simpl; rewrite Ha|]; left; exists [], r; split_and!; [done|constructor| |lia|];
    [intros (e' & -> & Hn); rewrite Hn in Hv; destruct (Z.leb_spec (i + 1) maxRetries); [done|lia]
    |rewrite Hp0; change (Z.of_nat 1) with (0 + 1)%Z; f_equal; destruct r as [r|]; [|by simplify_eq];
     simpl; destruct (As_nonRetryable r); [by simplify_eq|]; destruct (i + 1 <=? maxRetries)%Z; by simplify_eq].
  all: destruct r as [r|]; [|done]; destruct (As_nonRetryable r) eqn:Hn; [done|];
    destruct (Z.leb_spec (i + 1) maxRetries); [|done].
  1: lia.
  destruct (IH (i + 1)%Z (if (0 <? i)%Z then waits ++ [strategy i] else waits) s1) as (k & s' & rs & Hk & Hcases);
    [lia..|].
  exists (Datatypes.S k), s', (Some r :: rs). split; [simpl; by rewrite Ha, Hk|].
  assert (Hr : retryable (Some r)) by by exists r.
  replace (Z.of_nat (Datatypes.S k)) with (Z.of_nat k + 1)%Z by lia.
  rewrite <- (pauses_later i (Z.of_nat k)), <- (pauses_later i (Z.of_nat k + 1)) by lia.
  destruct Hcases as [(rs0 & r' & -> & Hrs & Hlast & Hle & Hrun)|(Hrs & Hle & Hdone & Hrun)]; [left|right].
  - exists (Some r :: rs0), r'. split_and!; [done|by constructor|intros ?%Hlast; lia|lia|done].
  - split_and!; [by constructor|lia|lia|by rewrite <- Hdone; f_equal; lia|done].
Qed.

(** What holds of the state through failed attempts, and what the successful one establishes. *)
Lemma RetryAction_inv (P Q : S → Prop) s s' w e : (0 <= maxRetries)%Z →
  (∀ s s' e, P s → action s = (s', Some e) → P s') → (∀ s s', P s → action s = (s', None) → Q s') →
  P s → RetryAction strategy done maxRetries action s = (s', w, e) →
  match e with None => Q s' | Some _ => P s' end.
Proof.
  intros Hmax HP HQ Hs. unfold RetryAction.
  assert (Hgen : ∀ fuel i waits s, Z.of_nat fuel = (maxRetries + 1 - i)%Z → fuel ≠ 0 → P s →
    retry_rounds strategy done maxRetries action fuel i waits s = (s', w, e) → match e with None => Q s' | Some _ => P s' end).
  { clear s Hs. induction fuel as [|fuel IH]; intros i waits s Hf Hne Hs Hr; [done|]. cbn [retry_rounds] in Hr.
    destruct (_ && done i)%bool; [by simplify_eq|]. destruct (action s) as [s1 [r|]] eqn:Ha; simpl in Hr; [|simplify_eq; by eapply HQ].
    apply HP in Ha; [|done]. destruct (As_nonRetryable r); [by simplify_eq|].
    destruct (Z.leb_spec (i + 1) maxRetries); [|by simplify_eq]. eapply IH; [| |exact Ha|exact Hr]; lia. }
  apply Hgen; [lia|lia|done].
Qed.
End RetryAction_spec.

Lemma pauses_start strategy n : (0 <= n)%Z → pauses strategy 0 (n + 1) = map strategy (seqZ 1 n).
Proof.
  intros Hn. rewrite pauses_cons by done. simpl. unfold pauses.
  assert (Hpos : ∀ j, j ∈ seqZ (0 + 1) n → (0 < j)%Z) by (intros j Hj%elem_of_seqZ; lia).
  change (seqZ 1 n) with (seqZ (0 + 1) n). induction (seqZ (0 + 1) n) as [|j l IH]; [done|]. simpl.
  rewrite (proj2 (Z.ltb_lt 0 j)) by (apply Hpos; by left). simpl. f_equal. apply IH. intros; apply Hpos; by right.
Qed.
Lemma DefaultBackoff_small j : (1 <= j <= MaxRetryCount)%Z → DefaultBackoff j = (2 ^ j * Second)%Z.
Proof. unfold MaxRetryCount. intros Hj. assert (j = 1 ∨ j = 2 ∨ j = 3 ∨ j = 4 ∨ j = 5)%Z by lia. by destruct_or!; subst. Qed.

(** An action under the default strategy runs at most six times.  It is run again only after a failure
    that is not marked as final, the last result is what the caller gets (a final failure without its
    mark), the pauses in between are 2, 4, 8, 16 and 32 seconds, and a context that ends during a pause ends
    the whole with its own error. *)
Theorem retry_default_spec {S : Type} (done : Z → bool) (action : S → S * option failure) (s : S) :
  ∃ (k : nat) s' rs e (n : Z), attempts action k s = (s', rs) ∧ (Z.of_nat k <= MaxRetryCount + 1)%Z ∧
    RetryAction DefaultBackoff done MaxRetryCount action s = (s', map (λ j, 2 ^ j * Second)%Z (seqZ 1 n), e) ∧
    ((∃ rs0 r, rs = rs0 ++ [r] ∧ Forall retryable rs0 ∧ (retryable r → k = 6) ∧ e = settled r ∧ n = (Z.of_nat k - 1)%Z) ∨
     (Forall retryable rs ∧ k ≠ 0 ∧ (n <= MaxRetryCount)%Z ∧ done n = true ∧ e = Some ContextDone ∧ n = Z.of_nat k)).
Proof.
  destruct (retry_rounds_spec DefaultBackoff done MaxRetryCount action 5 0 [] s) as (k & s' & rs & Hk & Hcases); [done..|].
  assert (Hw : ∀ n, (0 <= n <= MaxRetryCount)%Z → pauses DefaultBackoff 0 (n + 1) = map (λ j, 2 ^ j * Second)%Z (seqZ 1 n)).
  { intros n Hn. rewrite pauses_start by lia. apply map_ext_in. intros j Hj%list_elem_of_In%elem_of_seqZ.
    apply DefaultBackoff_small. lia. }
  destruct Hcases as [(rs0 & r & -> & Hrs & Hlast & Hle & Hrun)|(Hrs & Hle & Hdone & Hrun)].
  - assert (k ≠ 0) by (intros ->; injection Hk as _ Hk; by destruct rs0).
    exists k, s', (rs0 ++ [r]), (settled r), (Z.of_nat k - 1)%Z. split_and!; [done|lia| |left; exists rs0, r].
    + unfold RetryAction. change (Z.to_nat (MaxRetryCount + 1)) with 6. rewrite Hrun. simpl.
      by rewrite <- Hw, Z.sub_add by (unfold MaxRetryCount in *; lia).
    + split_and!; [done..| |done|lia]. intros ?%Hlast. unfold MaxRetryCount in *. lia.
  - exists k, s', rs, (Some ContextDone), (Z.of_nat k). split_and!; [done|lia| |right; split_and!; [done|lia|lia|done|done|lia]].
    unfold RetryAction. change (Z.to_nat (MaxRetryCount + 1)) with 6. rewrite Hrun. simpl. by rewrite <- Hw by lia.
Qed.

(** ** Sizes *)
Lemma scaleLinear_bounds size minSize maxSize minChunk maxChunk :
  (minChunk <= maxChunk)%Z → (minChunk <= scaleLinear size minSize maxSize minChunk maxChunk <= maxChunk)%Z.
Proof.
  intros Hc. unfold scaleLinear. destruct (size <=? minSize)%Z; [lia|]. destruct (maxSize <=? size)%Z; [lia|].
  cbv zeta. repeat case_match; lia.
Qed.

Ltac sizes := unfold FileSizeLimit, MultipartFileSizeLimit, MinMultipartChunkSize, TB, GB, MB, KB in *.

Lemma OptimalChunkSize_bounds size : (0 < OptimalChunkSize size <= GB)%Z.
Proof.
  unfold OptimalChunkSize.
  pose proof (scaleLinear_bounds size (1 * GB) (10 * GB) (25 * MB) (128 * MB) ltac:(sizes; lia)).
  pose proof (scaleLinear_bounds size (100 * GB) (1000 * GB) (512 * MB) (1024 * MB) ltac:(sizes; lia)).
  repeat case_match; sizes; lia.
Qed.
Lemma OptimalChunkSize_min size : (100 * MB < size)%Z → (MinMultipartChunkSize <= OptimalChunkSize size)%Z.
Proof.
  unfold OptimalChunkSize. intros Hs.
  pose proof (scaleLinear_bounds size (1 * GB) (10 * GB) (25 * MB) (128 * MB) ltac:(sizes; lia)).
  pose proof (scaleLinear_bounds size (100 * GB) (1000 * GB) (512 * MB) (1024 * MB) ltac:(sizes; lia)).
  repeat case_match; sizes; lia.
Qed.
Lemma OptimalChunkSize_parts size :
  (0 <= size <= MaxMultipartParts * GB)%Z → (size <= MaxMultipartParts * OptimalChunkSize size)%Z.
Proof.
  unfold OptimalChunkSize, MaxMultipartParts. intros Hs.
  pose proof (scaleLinear_bounds size (1 * GB) (10 * GB) (25 * MB) (128 * MB) ltac:(sizes; lia)).
  assert (scaleLinear size (100 * GB) (1000 * GB) (512 * MB) (1024 * MB) = 1024 * MB ∨
    (size < 1000 * GB ∧ 512 * MB <= scaleLinear size (100 * GB) (1000 * GB) (512 * MB) (1024 * MB)))%Z as [Hbig|[??]].
  { destruct (Z.leb_spec (1000 * GB) size).
    - left. unfold scaleLinear. rewrite (proj2 (Z.leb_gt _ _)) by (sizes; lia). by rewrite (proj2 (Z.leb_le _ _)).
    - right. split; [done|]. apply scaleLinear_bounds. sizes; lia. }
  all: repeat case_match; sizes; lia.
Qed.

(** ** Geometry
    What the code relies on: lengths are not negative, and one chunk past the end still fits 64 bits. *)
Definition chunking (size chunk : Z) : Prop := (0 <= size ∧ 0 < chunk ∧ size + chunk < 2 ^ 63)%Z.

Lemma chunking_optimal size : (0 <= size < 2 ^ 62)%Z → chunking size (OptimalChunkSize size).
Proof. intros Hs. pose proof (OptimalChunkSize_bounds size). split_and!; sizes; lia. Qed.

Section geometry.
Context (size chunk : Z) (Hc : chunking size chunk).

Lemma numChunks_ceil : numChunks size chunk = ((size + chunk - 1) / chunk)%Z.
Proof using Hc.
  destruct Hc as (?&?&?). unfold numChunks. rewrite (wrap64_id (_ + _)) by (unfold int64; lia).
  rewrite wrap64_id by (unfold int64; lia). apply Z.quot_div_nonneg; lia.
Qed.
Lemma numChunks_bounds : (0 <= numChunks size chunk)%Z ∧ (size <= numChunks size chunk * chunk < size + chunk)%Z.
Proof using Hc.
  rewrite numChunks_ceil. destruct Hc as (?&?&?).
  pose proof (Z.div_mod (size + chunk - 1) chunk ltac:(lia)). pose proof (Z.mod_pos_bound (size + chunk - 1) chunk ltac:(lia)).
  split; [apply Z.div_pos; lia|lia].
Qed.
(** Every part before the last starts and ends inside the file. *)
Lemma part_before p : (1 <= p <= numChunks size chunk)%Z → (0 <= (p - 1) * chunk < size)%Z.
Proof using Hc.
  intros Hp. pose proof numChunks_bounds as [_ Hn]. destruct Hc as (?&?&?). split; [nia|].
  assert (p * chunk <= numChunks size chunk * chunk)%Z by nia. lia.
Qed.
Lemma part_offset_exact p : (1 <= p <= numChunks size chunk)%Z → part_offset chunk p = ((p - 1) * chunk)%Z.
Proof using Hc. intros Hp. pose proof (part_before p Hp). destruct Hc as (?&?&?). apply wrap64_id. unfold int64. lia. Qed.
Lemma part_size_exact p : (1 <= p <= numChunks size chunk)%Z →
  part_size size chunk p = Z.min chunk (size - (p - 1) * chunk).
Proof using Hc.
  intros Hp. unfold part_size. rewrite part_offset_exact by done. pose proof (part_before p Hp). destruct Hc as (?&?&?).
  rewrite (wrap64_id (_ + _)) by (unfold int64; lia). rewrite wrap64_id by (unfold int64; lia).
  case_match eqn:E; [apply Z.ltb_lt in E|apply Z.ltb_ge in E]; lia.
Qed.
Lemma range_exact i : (0 <= i < numChunks size chunk)%Z →
  range_start chunk i = (i * chunk)%Z ∧ range_length size chunk i = Z.min chunk (size - i * chunk) ∧
  range_end size chunk i = (Z.min ((i + 1) * chunk) size - 1)%Z.
Proof using Hc.
  intros Hi. pose proof (part_before (i + 1) ltac:(lia)) as Hb. rewrite Z.add_simpl_r in Hb. destruct Hc as (?&?&?).
  assert (Hs : range_start chunk i = (i * chunk)%Z) by (apply wrap64_id; unfold int64; lia).
  assert (He : range_end size chunk i = (Z.min ((i + 1) * chunk) size - 1)%Z).
  { unfold range_end. rewrite Hs. rewrite (wrap64_id (i * chunk + chunk)) by (unfold int64; lia).
    rewrite !wrap64_id by (unfold int64; lia). case_match eqn:E; [apply Z.leb_le in E|apply Z.leb_gt in E]; lia. }
  split_and!; [done| |done]. unfold range_length. rewrite Hs, He. rewrite (wrap64_id (_ - i * chunk)) by (unfold int64; lia). rewrite wrap64_id by (unfold int64; lia). lia.
Qed.
End geometry.

(** ** Reassembly *)
Section reassembly.
Context {A : Type}.

Lemma windows_concat (l : list A) (c : Z) (n : nat) : (0 < c)%Z →
  concat (map (λ i, section_bytes l (i * c) c) (seqZ 0 (Z.of_nat n))) = take (Z.to_nat (Z.of_nat n * c)) l.
Proof.
  intros Hc. induction n as [|n IH]; [done|].
  rewrite seqZ_S, map_app, concat_app, IH. simpl. rewrite app_nil_r. unfold section_bytes.
  replace (Z.to_nat (Z.of_nat (S n) * c)) with (Z.to_nat (Z.of_nat n * c) + Z.to_nat c) by lia.
  by rewrite take_take_drop.
Qed.
Lemma section_bytes_clip (l : list A) off c size :
  size = Z.of_nat (length l) → (0 <= off <= size)%Z → (0 <= c)%Z →
  section_bytes l off (Z.min c (size - off)) = section_bytes l off c.
Proof.
  intros -> Ho Hc. unfold section_bytes. destruct (Z.le_gt_cases c (Z.of_nat (length l) - off)).
  - by rewrite Z.min_l.
  - rewrite Z.min_r by lia. rewrite !take_ge; [done|rewrite length_drop; lia..].
Qed.
Lemma section_bytes_length (l : list A) off c :
  (0 <= off)%Z → (0 <= c)%Z → (off + c <= Z.of_nat (length l))%Z → Z.of_nat (length (section_bytes l off c)) = c.
Proof. intros. unfold section_bytes. rewrite length_take, length_drop. lia. Qed.

Lemma ranges_reassemble (l : list A) chunk : chunking (Z.of_nat (length l)) chunk →
  concat (map (λ i, section_bytes l (range_start chunk i) (range_length (Z.of_nat (length l)) chunk i))
    (seqZ 0 (numChunks (Z.of_nat (length l)) chunk))) = l.
Proof.
  intros Hc. pose proof (numChunks_bounds _ _ Hc) as [Hn Hcover]. set (n := numChunks _ _) in *.
  transitivity (concat (map (λ i, section_bytes l (i * chunk) chunk) (seqZ 0 n))).
  - f_equal. apply map_ext_in. intros i Hi%list_elem_of_In%elem_of_seqZ.
    destruct (range_exact _ _ Hc i ltac:(fold n; lia)) as (-> & -> & _).
    pose proof (part_before _ _ Hc (i + 1) ltac:(fold n; lia)). destruct Hc as (?&?&?).
    apply section_bytes_clip; [done|split; lia|lia].
  - destruct Hc as (?&?&?). rewrite <- (Z2Nat.id n) by done. rewrite windows_concat by done. rewrite Z2Nat.id by done.
    apply take_ge. lia.
Qed.
Lemma parts_reassemble (l : list A) chunk : chunking (Z.of_nat (length l)) chunk →
  concat (map (λ p, section_bytes l (part_offset chunk p) (part_size (Z.of_nat (length l)) chunk p))
    (part_numbers (Z.of_nat (length l)) chunk)) = l.
Proof.
  intros Hc. transitivity (concat (map (λ i, section_bytes l (range_start chunk i) (range_length (Z.of_nat (length l)) chunk i))
    (seqZ 0 (numChunks (Z.of_nat (length l)) chunk)))); [|by apply ranges_reassemble].
  f_equal. unfold part_numbers. change 1%Z with (1 + 0)%Z at 1. rewrite <- fmap_add_seqZ.
  change (@fmap list list_fmap) with map. rewrite map_map. apply map_ext_in. intros i Hi%list_elem_of_In%elem_of_seqZ.
  destruct (range_exact _ _ Hc i ltac:(lia)) as (-> & -> & _).
  rewrite (part_offset_exact _ _ Hc), (part_size_exact _ _ Hc) by lia. do 2 f_equal; lia.
Qed.
End reassembly.

(** A file of up to 5 TB is cut into at most 10000 parts.  The parts, one after the other, are the file;
    every part but the last has exactly the chunk size, which is at least 10 MB when there is more than one
    part, and the last one is not empty. *)
Theorem multipart_plan {A} (content : list A) :
  (Z.of_nat (length content) <= MultipartFileSizeLimit)%Z →
  let size := Z.of_nat (length content) in
  let chunk := OptimalChunkSize size in
  let part := λ p, section_bytes content (part_offset chunk p) (part_size size chunk p) in
  concat (map part (part_numbers size chunk)) = content ∧
  (Z.of_nat (length (part_numbers size chunk)) <= MaxMultipartParts)%Z ∧
  (∀ p, p ∈ part_numbers size chunk → part p ≠ []) ∧
  (∀ p, p ∈ part_numbers size chunk → (p < numChunks size chunk)%Z →
    Z.of_nat (length (part p)) = chunk ∧ (MinMultipartChunkSize <= chunk)%Z).
Proof.
  intros Hs size chunk part. assert (Hc : chunking size chunk) by (apply chunking_optimal; unfold size; sizes; lia).
  pose proof (numChunks_bounds _ _ Hc) as [Hn Hcover].
  pose proof (OptimalChunkSize_parts size ltac:(unfold size, MaxMultipartParts; sizes; lia)) as Hmax. fold chunk in Hmax.
  assert (Hlen : ∀ p, p ∈ part_numbers size chunk →
    Z.of_nat (length (part p)) = Z.min chunk (size - (p - 1) * chunk) ∧ (0 < Z.min chunk (size - (p - 1) * chunk))%Z).
  { intros p Hp%elem_of_seqZ. pose proof (part_before _ _ Hc p ltac:(lia)). unfold part.
    rewrite (part_offset_exact _ _ Hc), (part_size_exact _ _ Hc) by lia. destruct Hc as (?&?&?).
    split; [apply section_bytes_length|]; lia. }
  split_and!.
  - by apply parts_reassemble.
  - unfold part_numbers. rewrite length_seqZ. destruct Hc as (?&?&?).
    assert (numChunks size chunk * chunk < (MaxMultipartParts + 1) * chunk)%Z by lia. nia.
  - intros p Hp Hnil. destruct (Hlen p Hp) as [Hl ?]. rewrite Hnil in Hl. simpl in Hl. lia.
  - intros p Hp Hlast. destruct (Hlen p Hp) as [-> _]. apply elem_of_seqZ in Hp.
    assert (p * chunk < size)%Z by (pose proof (part_before _ _ Hc (p + 1) ltac:(lia)); lia). destruct Hc as (?&?&?).
    split; [lia|]. destruct (Z.le_gt_cases size (100 * MB)); [|by apply OptimalChunkSize_min].
    assert (chunk = size) as Hcs.
    { unfold chunk, OptimalChunkSize. rewrite (proj2 (Z.leb_gt _ _)) by nia. by rewrite (proj2 (Z.leb_le _ _)). }
    nia.
Qed.
Lemma multipart_plan_witness : (Z.of_nat (length (replicate 3 true)) <= MultipartFileSizeLimit)%Z ∧
  concat (map (λ p, section_bytes (replicate 3 true) (part_offset 3 p) (part_size 3 3 p)) (part_numbers 3 3)) = replicate 3 true.
Proof. assert (H : (Z.of_nat (length (replicate 3 true)) <= MultipartFileSizeLimit)%Z) by done. split; [done|]. apply (multipart_plan _ H). Defined.
