(* ===== verification/Progress.v ===== *)
(** * Progress reports of a transfer
    client/common/progress.go, the tracker and the part reader of client/transfer/engine/uploader.go,
    progress_reader.go and the download reader of downloader.go.  A callback answers the list of events it
    has been given so far, the current one last; every reader keeps the trace of its calls with the answers.
    The methods of the tracker run under its lock, so that an execution of several workers is a sequence of
    them in some order. *)
From S2P Require Import Prelude Transfer.

Record ProgressEvent := mkProgressEvent {
  Event : string; Oid : string; BytesSoFar : Z; BytesSinceLast : Z }.
Definition ProgressCallback := list ProgressEvent → option failure.
(** The calls made so far, with their answers. *)
Abbreviation calls := (list (ProgressEvent * option failure)).
Definition progress_event (oid : string) (soFar delta : Z) : ProgressEvent := mkProgressEvent "progress" oid soFar delta.
Definition call (progress : ProgressCallback) (cs : calls) (ev : ProgressEvent) : calls * option failure :=
  let answer := progress (cs.*1 ++ [ev]) in (cs ++ [(ev, answer)], answer).

(** ** multipartProgressTracker (uploader.go) *)
Record multipartProgressTracker := mkTracker {
  mt_onProgress : option ProgressCallback; mt_oid : string; mt_total : Z; mt_committed : Z;
  mt_active : gmap Z Z; mt_lastReportedSoFar : Z; mt_calls : calls }.
Definition newMultipartProgressTracker (progress : option ProgressCallback) (oid : string) (total : Z) :=
  mkTracker progress oid total 0 ∅ 0 [].

Definition set_committed (m : multipartProgressTracker) (c : Z) :=
  mkTracker (mt_onProgress m) (mt_oid m) (mt_total m) c (mt_active m) (mt_lastReportedSoFar m) (mt_calls m).
Definition set_active (m : multipartProgressTracker) (a : gmap Z Z) :=
  mkTracker (mt_onProgress m) (mt_oid m) (mt_total m) (mt_committed m) a (mt_lastReportedSoFar m) (mt_calls m).
Definition set_reported (m : multipartProgressTracker) (last : Z) (cs : calls) :=
  mkTracker (mt_onProgress m) (mt_oid m) (mt_total m) (mt_committed m) (mt_active m) last cs.

Definition currentVisibleLocked (m : multipartProgressTracker) (final : bool) : Z :=
  let current := map_fold (λ _ bytes current, wrap64 (current + bytes)) (mt_committed m) (mt_active m) in
  if negb final && (0 <? mt_total m)%Z && (mt_total m <=? current)%Z then wrap64 (mt_total m - 1) else current.

Definition emitLocked (m : multipartProgressTracker) (final : bool) : multipartProgressTracker * option failure :=
  match mt_onProgress m with
  | None => (m, None)
  | Some onProgress =>
      let visible := currentVisibleLocked m final in
      let visible := if (visible <? mt_lastReportedSoFar m)%Z then mt_lastReportedSoFar m else visible in
      let delta := wrap64 (visible - mt_lastReportedSoFar m) in
      if (delta <=? 0)%Z then (m, None) else
      match call onProgress (mt_calls m) (progress_event (mt_oid m) visible delta) with
      | (cs, Some err) => (set_reported m (mt_lastReportedSoFar m) cs, Some (progressCallbackError err))
      | (cs, None) => (set_reported m visible cs, None)
      end
  end.

Definition ResetPart (m : multipartProgressTracker) (partNum : Z) : multipartProgressTracker :=
  set_active m (<[partNum := 0%Z]> (mt_active m)).
Definition AdvancePart (m : multipartProgressTracker) (partNum delta : Z) : multipartProgressTracker * option failure :=
  if (bool_decide (mt_onProgress m = None) || (delta <=? 0)%Z)%bool then (m, None) else
  emitLocked (set_active m (<[partNum := wrap64 (default 0 (mt_active m !! partNum) + delta)%Z]> (mt_active m))) false.
Definition CompletePart (m : multipartProgressTracker) (partNum partSize : Z) : multipartProgressTracker * option failure :=
  emitLocked (set_active (set_committed m (wrap64 (mt_committed m + partSize))) (delete partNum (mt_active m))) false.
Definition CompleteUpload (m : multipartProgressTracker) : multipartProgressTracker * option failure :=
  if bool_decide (mt_onProgress m = None) then (m, None) else emitLocked m true.

(** ** multipartPartProgressReader: the state of one part is its count of unreported bytes *)
Definition part_Read (m : multipartProgressTracker) (partNum bytesSinceReport n : Z)
    : multipartProgressTracker * Z * option failure :=
  if (0 <? n)%Z then
    let bytesSinceReport := wrap64 (bytesSinceReport + n) in
    if (OnProgressThreshold <=? bytesSinceReport)%Z then
      match AdvancePart m partNum bytesSinceReport with
      | (m, Some progressErr) => (m, bytesSinceReport, Some progressErr)
      | (m, None) => (m, 0%Z, None)
      end
    else (m, bytesSinceReport, None)
  else (m, bytesSinceReport, None).
Definition part_FlushPendingProgress (m : multipartProgressTracker) (partNum bytesSinceReport : Z)
    : multipartProgressTracker * Z * option failure :=
  if (bytesSinceReport <=? 0)%Z then (m, bytesSinceReport, None) else
  let '(m, err) := AdvancePart m partNum bytesSinceReport in (m, 0%Z, err).

(** ** progressReader (progress_reader.go), without the shared counter that no caller passes *)
Record progressReader := mkProgressReader {
  pr_onProgress : option ProgressCallback; pr_oid : string; pr_total : Z; pr_localBytes : Z;
  pr_bytesSinceReport : Z; pr_lastReportedSoFar : Z; pr_completed : bool; pr_calls : calls }.
Definition newProgressReader (onProgress : option ProgressCallback) (oid : string) (total : Z) : progressReader :=
  mkProgressReader onProgress oid total 0 0 0 false [].

Definition visibleCurrent (pr : progressReader) (final : bool) : Z :=
  if negb final && (0 <? pr_total pr)%Z && (pr_total pr <=? pr_localBytes pr)%Z
  then wrap64 (pr_total pr - 1) else pr_localBytes pr.
Definition pr_emit (pr : progressReader) (final : bool) : progressReader * option failure :=
  match pr_onProgress pr with
  | None => (pr, None)
  | Some onProgress =>
      let visible := visibleCurrent pr final in
      let visible := if (visible <? pr_lastReportedSoFar pr)%Z then pr_lastReportedSoFar pr else visible in
      let delta := wrap64 (visible - pr_lastReportedSoFar pr) in
      let emitZeroFinal := final && (pr_total pr =? 0)%Z && negb (pr_completed pr) in
      if (delta <=? 0)%Z && negb emitZeroFinal then (pr, None) else
      match call onProgress (pr_calls pr) (progress_event (pr_oid pr) visible delta) with
      | (cs, Some err) =>
          (mkProgressReader (pr_onProgress pr) (pr_oid pr) (pr_total pr) (pr_localBytes pr) (pr_bytesSinceReport pr)
             (pr_lastReportedSoFar pr) (pr_completed pr) cs, Some (progressCallbackError err))
      | (cs, None) =>
          (mkProgressReader (pr_onProgress pr) (pr_oid pr) (pr_total pr) (pr_localBytes pr) 0
             visible (final || pr_completed pr) cs, None)
      end
  end.
(** [n] bytes arrive. *)
Definition pr_Read (pr : progressReader) (n : Z) : progressReader * option failure :=
  if ((0 <? n)%Z && negb (bool_decide (pr_onProgress pr = None)))%bool then
    let pr := mkProgressReader (pr_onProgress pr) (pr_oid pr) (pr_total pr) (wrap64 (pr_localBytes pr + n))
      (wrap64 (pr_bytesSinceReport pr + n)) (pr_lastReportedSoFar pr) (pr_completed pr) (pr_calls pr) in
    if (OnProgressThreshold <=? pr_bytesSinceReport pr)%Z then pr_emit pr false else (pr, None)
  else (pr, None).
Definition pr_FlushPendingProgress (pr : progressReader) := pr_emit pr false.
Definition pr_Complete (pr : progressReader) := pr_emit pr true.
Definition ResetForRetry (pr : progressReader) : progressReader :=
  mkProgressReader (pr_onProgress pr) (pr_oid pr) (pr_total pr) 0 0 (pr_lastReportedSoFar pr) (pr_completed pr) (pr_calls pr).
Definition Finalize (pr : progressReader) : progressReader * option failure :=
  match pr_Complete pr with
  | (pr, Some err) => (pr, Some err)
  | (pr, None) =>
      if ((0 <? pr_total pr) && (pr_localBytes pr <? pr_total pr))%Z
      then (pr, Some (FText "upload incomplete: %d/%d bytes")) else (pr, None)
  end.

(** ** downloadProgressReader (downloader.go)
    [global] is the counter that the readers of a parallel download share; a single download has none. *)
Record downloadProgressReader := mkDownloadReader {
  dr_onProgress : option ProgressCallback; dr_oid : string; dr_bytesSoFar : Z; dr_bytesSinceReport : Z;
  dr_lastReportedSoFar : Z; dr_localBytes : Z; dr_localReported : Z }.
Definition newDownloadProgressReader (onProgress : option ProgressCallback) (oid : string) (initialBytes : Z) :=
  mkDownloadReader onProgress oid initialBytes 0 initialBytes 0 0.

Definition dr_emit (r : downloadProgressReader) (global : option Z) (cs : calls) : downloadProgressReader * calls * option failure :=
  match dr_onProgress r with
  | None => (r, cs, None)
  | Some onProgress =>
      let delta := match global with
        | None => wrap64 (dr_bytesSoFar r - dr_lastReportedSoFar r)
        | Some _ => wrap64 (dr_localBytes r - dr_localReported r) end in
      let displaySoFar := default (dr_bytesSoFar r) global in
      if (delta <=? 0)%Z then (r, cs, None) else
      match call onProgress cs (progress_event (dr_oid r) displaySoFar delta) with
      | (cs, Some err) => (r, cs, Some err)
      | (cs, None) =>
          (mkDownloadReader (dr_onProgress r) (dr_oid r) (dr_bytesSoFar r) 0 (dr_bytesSoFar r) (dr_localBytes r) (dr_localBytes r), cs, None)
      end
  end.
Definition dr_Read (r : downloadProgressReader) (global : option Z) (cs : calls) (n : Z)
    : downloadProgressReader * option Z * calls * option failure :=
  if ((0 <? n)%Z && negb (bool_decide (dr_onProgress r = None)))%bool then
    let global := (λ g, wrap64 (g + n)) <$> global in
    let r := mkDownloadReader (dr_onProgress r) (dr_oid r)
      (match global with Some g => g | None => wrap64 (dr_bytesSoFar r + n) end)
      (wrap64 (dr_bytesSinceReport r + n)) (dr_lastReportedSoFar r) (wrap64 (dr_localBytes r + n)) (dr_localReported r) in
    if (OnProgressThreshold <=? dr_bytesSinceReport r)%Z
    then let '(r, cs, err) := dr_emit r global cs in (r, global, cs, err)
    else (r, global, cs, None)
  else (r, global, cs, None).
Definition dr_FlushPendingProgress := dr_emit.
Definition dr_Complete := dr_emit.

(** ** Reports that a display can trust
    The accepted events, and what it means that each one continues the one before. *)
Definition accepted (cs : calls) : list ProgressEvent := (filter (λ c, c.2 = None) cs).*1.
Fixpoint reports_from (start : Z) (evs : list ProgressEvent) : Prop :=
  match evs with
  | [] => True
  | ev :: evs => (0 < BytesSinceLast ev)%Z ∧ BytesSoFar ev = (start + BytesSinceLast ev)%Z ∧ reports_from (BytesSoFar ev) evs
  end.
Definition reported (start : Z) (evs : list ProgressEvent) : Z := default start (BytesSoFar <$> last evs).

Lemma reports_from_snoc start evs ev :
  reports_from start (evs ++ [ev]) ↔
  reports_from start evs ∧ (0 < BytesSinceLast ev)%Z ∧ BytesSoFar ev = (reported start evs + BytesSinceLast ev)%Z.
Proof.
  revert start. induction evs as [|e evs IH]; intros start; simpl; [unfold reported; simpl; tauto|].
  rewrite IH. unfold reported. destruct evs as [|e' evs]; simpl; [tauto|].
  destruct (last (e' :: evs)) eqn:E; [simpl; tauto|]. by apply last_None in E.
Qed.
Lemma accepted_snoc cs ev r : accepted (cs ++ [(ev, r)]) = accepted cs ++ (match r with Some _ => [] | None => [ev] end).
Proof. unfold accepted. rewrite filter_app, fmap_app. by destruct r. Qed.
Lemma reported_snoc start evs ev : reported start (evs ++ [ev]) = BytesSoFar ev.
Proof. unfold reported. by rewrite last_snoc. Qed.
(** A trusted sequence never announces more than its last report. *)
Lemma reports_from_le start evs : reports_from start evs →
  (start <= reported start evs)%Z ∧ Forall (λ ev, BytesSoFar ev <= reported start evs)%Z evs.
Proof.
  induction evs as [|ev evs IH] using rev_ind; [by unfold reported|].
  rewrite reports_from_snoc, reported_snoc. intros (Hr & Hd & He). destruct (IH Hr) as [Hs Hall]. split; [lia|].
  apply Forall_app. split; [|by repeat constructor]. eapply Forall_impl; [exact Hall|]. simpl. lia.
Qed.
(** The deltas of a trusted sequence add up. *)
Lemma reports_from_sum start evs : reports_from start evs →
  reported start evs = (start + foldr Z.add 0 (BytesSinceLast <$> evs))%Z.
Proof.
  induction evs as [|ev evs IH] using rev_ind; [unfold reported; simpl; lia|].
  rewrite reports_from_snoc. intros (Hr & ? & He). rewrite reported_snoc, fmap_app, foldr_app, He, IH by done. simpl.
  generalize (BytesSinceLast ev). intros d. clear. induction (BytesSinceLast <$> evs) as [|x l IH]; simpl in *; lia.
Qed.

(** ** The tracker under any interleaving of its methods *)
Inductive tracker_op :=
  | OpResetPart (partNum : Z)
  | OpAdvancePart (partNum delta : Z)
  | OpCompletePart (partNum partSize : Z)
  | OpCompleteUpload.
Definition tracker_step (m : multipartProgressTracker) (op : tracker_op) : multipartProgressTracker :=
  match op with
  | OpResetPart p => ResetPart m p
  | OpAdvancePart p d => (AdvancePart m p d).1
  | OpCompletePart p n => (CompletePart m p n).1
  | OpCompleteUpload => (CompleteUpload m).1
  end.

Record tracker_inv (m : multipartProgressTracker) : Prop := {
  ti_committed : int64 (mt_committed m);
  ti_last : (0 <= mt_lastReportedSoFar m)%Z ∧ int64 (mt_lastReportedSoFar m);
  ti_reports : reports_from 0 (accepted (mt_calls m));
  ti_reported : reported 0 (accepted (mt_calls m)) = mt_lastReportedSoFar m }.

Lemma currentVisibleLocked_int64 m final : int64 (mt_committed m) → int64 (currentVisibleLocked m final).
Proof.
  intros Hc. unfold currentVisibleLocked.
  assert (H : int64 (map_fold (λ (_ : Z) bytes current, wrap64 (current + bytes)) (mt_committed m) (mt_active m))).
  { apply (map_fold_weak_ind (λ c _, int64 c)); [done|]. intros. apply wrap64_int64. }
  case_match; [apply wrap64_int64|done].
Qed.

(** A call of the callback, accepted or not, keeps the trace trustworthy. *)
Lemma emitLocked_inv m final m' err : tracker_inv m → emitLocked m final = (m', err) → tracker_inv m'.
Proof.
  intros [Hc [Hl Hl64] Hr Hrep] He. unfold emitLocked in He. destruct (mt_onProgress m) as [cb|]; [|by simplify_eq].
  pose proof (currentVisibleLocked_int64 m final Hc) as Hv. cbv zeta in He.
  set (visible := currentVisibleLocked m final) in *.
  set (v := if (visible <? mt_lastReportedSoFar m)%Z then mt_lastReportedSoFar m else visible) in *.
  assert ((mt_lastReportedSoFar m <= v)%Z ∧ int64 v) as [Hlv Hv64].
  { unfold v. destruct (Z.ltb_spec visible (mt_lastReportedSoFar m)); (split; [lia|done]). }
  rewrite wrap64_id in He by (unfold int64 in *; lia).
  destruct (Z.leb_spec (v - mt_lastReportedSoFar m) 0) as [?|Hd]; [by simplify_eq|].
  unfold call in He. destruct (cb _) as [e|]; simplify_eq; constructor; simpl; try done.
  - by rewrite accepted_snoc, app_nil_r.
  - by rewrite accepted_snoc, app_nil_r.
  - split; [lia|done].
  - rewrite accepted_snoc, reports_from_snoc. split_and!; [done|simpl; lia|]. rewrite Hrep. simpl. lia.
  - by rewrite accepted_snoc, reported_snoc.
Qed.
Lemma tracker_step_inv m op : tracker_inv m → tracker_inv (tracker_step m op).
Proof.
  intros Hm. assert (Hset : ∀ a c, int64 c → tracker_inv (set_active (set_committed m c) a)) by (intros; destruct Hm; by constructor).
  assert (Hact : ∀ a, tracker_inv (set_active m a)) by (intros; destruct Hm; by constructor).
  destruct op as [p|p d|p n|]; simpl.
  - apply Hact.
  - unfold AdvancePart. case_match; [done|]. destruct (emitLocked _ _) as [m' e] eqn:E. eapply emitLocked_inv, E. apply Hact.
  - unfold CompletePart. destruct (emitLocked _ _) as [m' e] eqn:E. eapply emitLocked_inv, E. apply Hset, wrap64_int64.
  - unfold CompleteUpload. case_match; [done|]. destruct (emitLocked _ _) as [m' e] eqn:E. by eapply emitLocked_inv, E.
Qed.

(** Before the upload is complete, the total is never announced. *)
Definition not_announced (m : multipartProgressTracker) : Prop :=
  (mt_lastReportedSoFar m < mt_total m)%Z ∧ Forall (λ c, BytesSoFar c.1 < mt_total m)%Z (mt_calls m).
Lemma currentVisibleLocked_below m : (0 < mt_total m)%Z → int64 (mt_total m) → (currentVisibleLocked m false < mt_total m)%Z.
Proof.
  intros Ht Hi. unfold currentVisibleLocked. simpl. rewrite (proj2 (Z.ltb_lt _ _)) by done. simpl.
  case_match eqn:E; [|by apply Z.leb_gt in E]. rewrite wrap64_id; unfold int64 in *; lia.
Qed.
Lemma emitLocked_not_announced m m' err : (0 < mt_total m)%Z → int64 (mt_total m) →
  not_announced m → emitLocked m false = (m', err) → not_announced m' ∧ mt_total m' = mt_total m.
Proof.
  intros Ht Hi [Hl Hc] He. unfold emitLocked in He. destruct (mt_onProgress m) as [cb|]; [|by simplify_eq].
  pose proof (currentVisibleLocked_below m Ht Hi) as Hv. cbv zeta in He.
  destruct (Z.ltb_spec (currentVisibleLocked m false) (mt_lastReportedSoFar m));
    (case_match; [by simplify_eq|]); unfold call in He; destruct (cb _) as [e|]; simplify_eq;
    (split; [|done]); (split; [done|]); simpl; apply Forall_app; (split; [done|]); by repeat constructor.
Qed.
Lemma tracker_step_not_announced m op : (0 < mt_total m)%Z → int64 (mt_total m) → op ≠ OpCompleteUpload →
  not_announced m → not_announced (tracker_step m op) ∧ mt_total (tracker_step m op) = mt_total m.
Proof.
  intros Ht Hi Hop Hm. destruct op as [p|p d|p n|]; simpl.
  - by destruct Hm.
  - unfold AdvancePart. case_match; [done|]. destruct (emitLocked _ _) as [m' e] eqn:E. by apply emitLocked_not_announced in E.
  - unfold CompletePart. destruct (emitLocked _ _) as [m' e] eqn:E. by apply emitLocked_not_announced in E.
  - done.
Qed.

(** Whatever the order in which the workers of a multipart upload call the tracker, and whatever the
    callback answers: every accepted report adds a positive delta to the one before, so that the deltas add
    up to the last total reported; and as long as the upload is not complete, a file that is not empty is
    never reported as fully transferred. *)
Theorem tracker_reports (progress : option ProgressCallback) (oid : string) (total committed : Z) (ops : list tracker_op) :
  int64 total → int64 committed →
  let m := foldl tracker_step (set_committed (newMultipartProgressTracker progress oid total) committed) ops in
  reports_from 0 (accepted (mt_calls m)) ∧
  foldr Z.add 0%Z (BytesSinceLast <$> accepted (mt_calls m)) = mt_lastReportedSoFar m ∧
  ((0 < total)%Z → OpCompleteUpload ∉ ops → Forall (λ c, BytesSoFar c.1 < total)%Z (mt_calls m)).
Proof.
  intros Ht Hc. cbv zeta. set (m0 := set_committed _ _).
  assert (Hinv : tracker_inv (foldl tracker_step m0 ops)).
  { assert (tracker_inv m0) as H0 by (constructor; simpl; try done; unfold int64; lia).
    clearbody m0. revert m0 H0. induction ops as [|op ops IH]; intros m H0; [done|]. by apply IH, tracker_step_inv. }
  split_and!; [apply Hinv| |].
  - pose proof (reports_from_sum _ _ (ti_reports _ Hinv)) as Hs. rewrite (ti_reported _ Hinv) in Hs. lia.
  - intros Hpos Hops.
    assert (not_announced m0 ∧ mt_total m0 = total) as H0 by (split; [by split; [|constructor]|done]).
    clearbody m0. clear Hinv. revert m0 H0. induction ops as [|op ops IH]; intros m [Hm Hmt]; simpl; [by rewrite <- Hmt; apply Hm|].
    apply not_elem_of_cons in Hops as [Hop Hops]. apply (IH Hops).
    rewrite <- Hmt. apply tracker_step_not_announced; [by rewrite Hmt..|done|done].
Qed.

(** ** A single upload with its retries *)
Inductive reader_op := OpRead (n : Z) | OpFlush | OpComplete | OpResetForRetry.
Definition reader_step (pr : progressReader) (op : reader_op) : progressReader :=
  match op with
  | OpRead n => (pr_Read pr n).1
  | OpFlush => (pr_FlushPendingProgress pr).1
  | OpComplete => (pr_Complete pr).1
  | OpResetForRetry => ResetForRetry pr
  end.
Record reader_inv (pr : progressReader) : Prop := {
  ri_local : int64 (pr_localBytes pr);
  ri_last : (0 <= pr_lastReportedSoFar pr)%Z ∧ int64 (pr_lastReportedSoFar pr);
  ri_total : (0 < pr_total pr)%Z ∧ int64 (pr_total pr);
  ri_reports : reports_from 0 (accepted (pr_calls pr));
  ri_reported : reported 0 (accepted (pr_calls pr)) = pr_lastReportedSoFar pr }.
Definition reader_not_announced (pr : progressReader) : Prop := (pr_lastReportedSoFar pr < pr_total pr)%Z.

Lemma pr_emit_inv pr final pr' err : reader_inv pr → pr_emit pr final = (pr', err) →
  reader_inv pr' ∧ pr_total pr' = pr_total pr ∧
  (final = false → reader_not_announced pr → reader_not_announced pr').
Proof.
  intros Hpr He. pose proof Hpr as [Hloc [Hl Hl64] [Ht Ht64] Hr Hrep].
  unfold pr_emit in He. destruct (pr_onProgress pr) as [cb|]; [|by simplify_eq].
  assert (int64 (visibleCurrent pr final) ∧ (final = false → visibleCurrent pr final < pr_total pr)%Z) as [Hv Hvf].
  { unfold visibleCurrent. rewrite (proj2 (Z.ltb_lt _ _)) by done. destruct final; simpl; [done|].
    rewrite wrap64_id by (unfold int64 in *; lia). destruct (Z.leb_spec (pr_total pr) (pr_localBytes pr));
    unfold int64 in *; split; lia. }
  cbv zeta in He. set (visible := visibleCurrent pr final) in *.
  set (v := if (visible <? pr_lastReportedSoFar pr)%Z then pr_lastReportedSoFar pr else visible) in *.
  assert ((pr_lastReportedSoFar pr <= v)%Z ∧ int64 v ∧ (v = pr_lastReportedSoFar pr ∨ v = visible)) as (Hlv & Hv64 & Hvv).
  { unfold v. destruct (Z.ltb_spec visible (pr_lastReportedSoFar pr)); auto using Z.lt_le_incl with lia. }
  rewrite wrap64_id in He by (unfold int64 in *; lia).
  rewrite (proj2 (Z.eqb_neq (pr_total pr) 0)) in He by lia. rewrite andb_false_r in He. simpl in He. rewrite andb_true_r in He.
  destruct (Z.leb_spec (v - pr_lastReportedSoFar pr) 0) as [?|Hd]; [by simplify_eq|].
  assert (Hbelow : final = false → reader_not_announced pr → (v < pr_total pr)%Z)
    by (unfold reader_not_announced; intros Hf ?; specialize (Hvf Hf); destruct Hvv as [-> | ->]; lia).
  unfold call in He. destruct (cb _) as [e|]; simplify_eq; (split; [|split; [done|]]).
  - constructor; simpl; try done; by rewrite accepted_snoc, app_nil_r.
  - done.
  - constructor; simpl; try done; [by split; [lia|]| |by rewrite accepted_snoc, reported_snoc].
    rewrite accepted_snoc, reports_from_snoc. split_and!; [done|simpl; lia|]. rewrite Hrep. simpl. lia.
  - intros Hf Hn. exact (Hbelow Hf Hn).
Qed.
Lemma reader_step_inv pr op : reader_inv pr →
  reader_inv (reader_step pr op) ∧ pr_total (reader_step pr op) = pr_total pr ∧
  (op ≠ OpComplete → reader_not_announced pr → reader_not_announced (reader_step pr op)).
Proof.
  intros Hpr. assert (Hemit : ∀ pr' f, reader_inv pr' → reader_inv (pr_emit pr' f).1 ∧ pr_total (pr_emit pr' f).1 = pr_total pr' ∧
    (f = false → reader_not_announced pr' → reader_not_announced (pr_emit pr' f).1)).
  { intros pr' f Hpr'. destruct (pr_emit pr' f) as [pr'' e] eqn:E. by eapply pr_emit_inv. }
  destruct op as [n| | |]; simpl.
  - unfold pr_Read. case_match; [|done]. set (pr1 := mkProgressReader _ _ _ _ _ _ _ _).
    assert (reader_inv pr1) as H1 by (destruct Hpr; constructor; try done; apply wrap64_int64).
    case_match; [|done]. destruct (Hemit pr1 false H1) as (?&?&Hn). split_and!; [done..|]. intros _ Ho. by apply Hn.
  - destruct (Hemit pr false Hpr) as (?&?&Hn). split_and!; [done..|]. intros _. by apply Hn.
  - destruct (Hemit pr true Hpr) as (?&?&Hn). split_and!; [done..|]. by intros.
  - split_and!; [destruct Hpr; by constructor|done..].
Qed.
