(* ===== verification/Upload.v ===== *)
(** * The multipart uploader
    client/transfer/engine/uploader.go.  One upload runs up to ten workers over a channel of part numbers;
    each part is sent under the retry policy, recorded in a checkpoint on disk, and a later run resumes from
    the checkpoint.  The program is an event machine: [fire] performs one atomic step of a worker, of the main
    goroutine, of the backend, or of the world around them (a crash, a file that changes between two
    runs, a checkpoint that expires), and an execution is a sequence of events.  The machine follows the uploads
    that share one checkpoint path, one at a time; the file is not written to while an upload reads it, and
    a new version of a file has a new modification time. *)
From Stdlib Require Import Ascii.
From S2P Require Import Prelude GoStrings Transfer Progress.

(** ** Requests and the checkpoint *)
(** The metadata of a request is handed to the backend unread and has no field here. *)
Record TransferRequest := mkTransferRequest {
  SourcePath : string; ObjectKey : string; GUID : string; Bucket : string; ForceMultipart : bool }.
Definition effectiveObjectKey (req : TransferRequest) : string :=
  let key := TrimSpace (ObjectKey req) in
  if bool_decide (key ≠ "") then key else TrimSpace (GUID req).

Record uploaderResumeState := mkState {
  us_SourcePath : string; us_ObjectKey : string; us_GUID : string; us_Bucket : string; us_FileSize : Z;
  us_FileModUnixNano : Z; us_ChunkSize : Z; us_UploadID : string; us_Completed : gmap Z string }.
Definition set_Completed (s : uploaderResumeState) (c : gmap Z string) : uploaderResumeState :=
  mkState (us_SourcePath s) (us_ObjectKey s) (us_GUID s) (us_Bucket s) (us_FileSize s) (us_FileModUnixNano s)
    (us_ChunkSize s) (us_UploadID s) c.

(** What os.File and os.FileInfo say about a source file. *)
Record file_version := mkFile { fv_content : list ascii; fv_ModUnixNano : Z }.
Definition fv_Size (f : file_version) : Z := Z.of_nat (length (fv_content f)).

Definition matches (s : uploaderResumeState) (req : TransferRequest) (info : file_version) (chunkSize : Z) : bool :=
  bool_decide (us_UploadID s ≠ "") && bool_decide (us_Bucket s = Bucket req) &&
  bool_decide (us_FileModUnixNano s = fv_ModUnixNano info) && bool_decide (us_SourcePath s = SourcePath req) &&
  bool_decide (us_GUID s = GUID req) && bool_decide (us_ObjectKey s = effectiveObjectKey req) &&
  bool_decide (us_FileSize s = fv_Size info) && bool_decide (us_ChunkSize s = chunkSize).

(** The size of a part clipped to the file, as completedMultipartBytes computes it. *)
Definition completedMultipartBytes (s : uploaderResumeState) (fileSize chunkSize : Z) : Z :=
  map_fold (λ partNum _ total,
    let partSize := part_size fileSize chunkSize partNum in
    if (0 <? partSize)%Z then wrap64 (total + partSize) else total) 0%Z (us_Completed s).

(** saveState writes the checkpoint; a write that fails may leave the old one, or a file that does not decode. *)
Inductive saved := Saved | SaveKept | SaveLost.
Definition saveState (disk : option uploaderResumeState) (s : uploaderResumeState) (o : saved)
    : option uploaderResumeState * option failure :=
  match o with
  | Saved => (Some s, None)
  | SaveKept => (disk, Some (FText "write upload checkpoint: %w"))
  | SaveLost => (None, Some (FText "write upload checkpoint: %w"))
  end.

(** ** Workers *)
Inductive stage :=
  | Starting                        (* before the next attempt *)
  | Sending (read pending : Z)      (* inside MultipartPart: bytes read, bytes not reported *)
  | Flushing (etag : string) (pending : Z)
  | Recording (etag : string)
  | Reporting.
Inductive worker :=
  | Receiving
  | Working (partNum attempt : Z) (s : stage)
  | Finished
  | Failed (partNum : Z).

Record run := mkRun {
  run_req : TransferRequest; run_file : file_version; run_state : uploaderResumeState; run_queue : list Z;
  run_workers : list worker; run_uploadErr : option failure; run_tracker : multipartProgressTracker }.
Definition set_worker (r : run) (i : nat) (w : worker) : run :=
  mkRun (run_req r) (run_file r) (run_state r) (run_queue r) (<[i := w]> (run_workers r)) (run_uploadErr r) (run_tracker r).
Definition set_tracker (r : run) (t : multipartProgressTracker) : run :=
  mkRun (run_req r) (run_file r) (run_state r) (run_queue r) (run_workers r) (run_uploadErr r) t.
Definition set_state (r : run) (s : uploaderResumeState) : run :=
  mkRun (run_req r) (run_file r) s (run_queue r) (run_workers r) (run_uploadErr r) (run_tracker r).
Definition set_queue (r : run) (q : list Z) : run :=
  mkRun (run_req r) (run_file r) (run_state r) q (run_workers r) (run_uploadErr r) (run_tracker r).
Definition set_uploadErr (r : run) (e : option failure) : run :=
  mkRun (run_req r) (run_file r) (run_state r) (run_queue r) (run_workers r) e (run_tracker r).

Definition run_partSize (r : run) (partNum : Z) : Z := part_size (us_FileSize (run_state r)) (us_ChunkSize (run_state r)) partNum.
Definition run_section (r : run) (partNum : Z) : list ascii :=
  section_bytes (fv_content (run_file r)) (part_offset (us_ChunkSize (run_state r)) partNum) (run_partSize r partNum).

(** The action of attempt [k] on part [p] ends with [e]; RetryAction and the worker loop go on. *)
Definition attempt_ends (r : run) (i : nat) (p k : Z) (e : option failure) : run :=
  match retry_verdict MaxRetryCount k e with
  | Return None => set_worker r i Receiving
  | Return (Some err) => set_worker (set_uploadErr r (Some err)) i (Failed p)
  | Again _ => set_worker r i (Working p (k + 1) Starting)
  end.
(** What the action returns when MultipartPart fails. *)
Definition part_error (e : failure) : failure := if isProgressCallbackError e then NonRetryable e else e.

(** ** The machine *)
Record acknowledged := mkAck { ack_key : string; ack_uploadID : string; ack_part : Z; ack_etag : string; ack_data : list ascii }.
Record MultipartPart := mkPart { PartNumber : Z; ETag : string }.
(** A call of MultipartComplete, with the content of the file it is about. *)
Record completion := mkCompletion { co_key : string; co_uploadID : string; co_parts : list MultipartPart; co_content : list ascii }.
Inductive phase :=
  | Stopped (result : option failure)
  | Uploading (r : run)
  | Completing (r : run)   (* MultipartComplete has been called *)
  | Removing (r : run).    (* the upload is complete, the checkpoint still there *)
Record machine := mkMachine {
  m_files : gmap string file_version;
  m_versions : gmap (string * Z) (list ascii);
  m_disk : option uploaderResumeState;
  m_acks : list acknowledged;
  m_completions : list completion;
  m_phase : phase }.
Definition initial_machine : machine := mkMachine ∅ ∅ None [] [] (Stopped None).
Definition set_phase (m : machine) (ph : phase) : machine :=
  mkMachine (m_files m) (m_versions m) (m_disk m) (m_acks m) (m_completions m) ph.
Definition set_disk (m : machine) (d : option uploaderResumeState) : machine :=
  mkMachine (m_files m) (m_versions m) d (m_acks m) (m_completions m) (m_phase m).

(** *** Starting (uploadMultipart up to the workers) *)
Section fire.
Context (progress : option ProgressCallback) (oid : string).

Definition new_state (req : TransferRequest) (f : file_version) (uploadID : string) : uploaderResumeState :=
  mkState (SourcePath req) (effectiveObjectKey req) (GUID req) (Bucket req) (fv_Size f) (fv_ModUnixNano f)
    (OptimalChunkSize (fv_Size f)) uploadID ∅.
Definition start_run (req : TransferRequest) (f : file_version) (st : uploaderResumeState) : run :=
  let fileSize := fv_Size f in
  let chunkSize := OptimalChunkSize fileSize in
  mkRun req f st
    (filter (λ p, us_Completed st !! p = None) (part_numbers fileSize chunkSize))
    (replicate MaxConcurrentUploads Receiving) None
    (set_committed (newMultipartProgressTracker progress oid fileSize) (completedMultipartBytes st fileSize chunkSize)).
(** [init] is the answer of MultipartInit, [o] what becomes of the first checkpoint. *)
Definition start_upload (m : machine) (req : TransferRequest) (init : string + failure) (o : saved) : machine :=
  match m_files m !! SourcePath req with
  | None => set_phase m (Stopped (Some (FText "open source: %w")))
  | Some f =>
      let resumed := st ← m_disk m; if matches st req f (OptimalChunkSize (fv_Size f)) then Some st else None in
      match resumed with
      | Some st => set_phase m (Uploading (start_run req f st))
      | None =>
          match init with
          | inr e => set_phase m (Stopped (Some e))
          | inl uploadID =>
              let st := new_state req f uploadID in
              match saveState (m_disk m) st o with
              | (d, Some e) => set_phase (set_disk m d) (Stopped (Some (FWrap "persist multipart checkpoint: %w" e)))
              | (d, None) => set_phase (set_disk m d) (Uploading (start_run req f st))
              end
          end
      end
  end.

(** *** The steps of a worker (the goroutine of uploadMultipart) *)
Definition receive (r : run) (i : nat) : option run :=
  match run_workers r !! i with
  | Some Receiving =>
      match run_queue r with
      | p :: q => Some (set_worker (set_queue r q) i (Working p 0 Starting))
      | [] => Some (set_worker r i Finished)
      end
  | _ => None
  end.
Definition begin_attempt (r : run) (i : nat) : option run :=
  match run_workers r !! i with
  | Some (Working p k Starting) => Some (set_worker (set_tracker r (ResetPart (run_tracker r) p)) i (Working p k (Sending 0 0)))
  | _ => None
  end.
(** The context is done while RetryAction waits. *)
Definition cancel_wait (r : run) (i : nat) : option run :=
  match run_workers r !! i with
  | Some (Working p k Starting) =>
      if (0 <? k)%Z then Some (set_worker (set_uploadErr r (Some ContextDone)) i (Failed p)) else None
  | _ => None
  end.
Definition read_part (r : run) (i : nat) (n : Z) : option run :=
  match run_workers r !! i with
  | Some (Working p k (Sending read pending)) =>
      if ((1 <=? n) && (read + n <=? run_partSize r p))%Z then
        let '(t, pending, _) := part_Read (run_tracker r) p pending n in
        Some (set_worker (set_tracker r t) i (Working p k (Sending (read + n) pending)))
      else None
  | _ => None
  end.
Definition part_ok (r : run) (i : nat) (etag : string) : option (run * acknowledged) :=
  match run_workers r !! i with
  | Some (Working p k (Sending read pending)) =>
      Some (set_worker r i (Working p k (Flushing etag pending)),
            mkAck (effectiveObjectKey (run_req r)) (us_UploadID (run_state r)) p etag (run_section r p))
  | _ => None
  end.
Definition part_err (r : run) (i : nat) (e : failure) : option run :=
  match run_workers r !! i with
  | Some (Working p k (Sending read pending)) => Some (attempt_ends r i p k (Some (part_error e)))
  | _ => None
  end.
Definition flush_part (r : run) (i : nat) : option run :=
  match run_workers r !! i with
  | Some (Working p k (Flushing etag pending)) =>
      let '(t, _, flushErr) := part_FlushPendingProgress (run_tracker r) p pending in
      let r := set_tracker r t in
      match flushErr with
      | Some e => Some (attempt_ends r i p k (Some (NonRetryable e)))
      | None => Some (set_worker r i (Working p k (Recording etag)))
      end
  | _ => None
  end.
Definition record_part (r : run) (disk : option uploaderResumeState) (i : nat) (o : saved)
    : option (run * option uploaderResumeState) :=
  match run_workers r !! i with
  | Some (Working p k (Recording etag)) =>
      let st := set_Completed (run_state r) (<[p := etag]> (us_Completed (run_state r))) in
      let r := set_state r st in
      match saveState disk st o with
      | (disk, Some e) => Some (attempt_ends r i p k (Some (FWrap "persist multipart checkpoint: %w" e)), disk)
      | (disk, None) => Some (set_worker r i (Working p k Reporting), disk)
      end
  | _ => None
  end.
Definition report_part (r : run) (i : nat) : option run :=
  match run_workers r !! i with
  | Some (Working p k Reporting) =>
      let '(t, progressErr) := CompletePart (run_tracker r) p (run_partSize r p) in
      let r := set_tracker r t in
      match progressErr with
      | Some e => Some (attempt_ends r i p k (Some (NonRetryable e)))
      | None => Some (attempt_ends r i p k None)
      end
  | _ => None
  end.

(** *** Finishing (uploadMultipart after wg.Wait) *)
Definition worker_done (w : worker) : bool := match w with Finished | Failed _ => true | _ => false end.
Definition wrap32 (z : Z) : Z := ((z + 2 ^ 31) mod 2 ^ 32 - 2 ^ 31)%Z.
Definition part_le (a b : MultipartPart) : Prop := (PartNumber a <= PartNumber b)%Z.
#[export] Instance part_le_dec : RelDecision part_le.
Proof. intros a b. unfold part_le. apply _. Defined.
Definition completed_parts (st : uploaderResumeState) : list MultipartPart :=
  merge_sort part_le (map (λ c, mkPart (wrap32 c.1) c.2) (map_to_list (us_Completed st))).
Definition wait_workers (m : machine) (r : run) : option machine :=
  if forallb worker_done (run_workers r) then
    match run_uploadErr r with
    | Some e => Some (set_phase m (Stopped (Some (FWrap "multipart upload failed: %w" e))))
    | None =>
        Some (mkMachine (m_files m) (m_versions m) (m_disk m) (m_acks m)
          (m_completions m ++ [mkCompletion (effectiveObjectKey (run_req r)) (us_UploadID (run_state r))
             (completed_parts (run_state r)) (fv_content (run_file r))]) (Completing r))
    end
  else None.
(** MultipartComplete returns [err]. *)
Definition completed (m : machine) (r : run) (err : option failure) : machine :=
  match err with
  | Some e => set_phase m (Stopped (Some e))
  | None =>
      match CompleteUpload (run_tracker r) with
      | (_, Some e) => set_phase m (Stopped (Some (NonRetryable e)))
      | (t, None) => set_phase m (Removing (set_tracker r t))
      end
  end.
Definition removed (m : machine) (ok : bool) : machine :=
  if ok then set_phase (set_disk m None) (Stopped None)
  else set_phase m (Stopped (Some (FText "remove multipart checkpoint: %w"))).

(** *** Executions *)
Inductive event :=
  | EvWrite (path : string) (f : file_version)
  | EvExpire
  | EvCrash
  | EvStart (req : TransferRequest) (init : string + failure) (o : saved)
  | EvReceive (i : nat) | EvBegin (i : nat) | EvCancel (i : nat) | EvRead (i : nat) (n : Z)
  | EvPartOk (i : nat) (etag : string) | EvPartErr (i : nat) (e : failure)
  | EvFlush (i : nat) | EvRecord (i : nat) (o : saved) | EvReport (i : nat)
  | EvWait | EvComplete (err : option failure) | EvRemove (ok : bool).

(** A file of this size or more has no place in the 31 bits of a part number. *)
Definition max_file_size : Z := 2 ^ 60.
Definition in_run (m : machine) (f : run → option run) : option machine :=
  match m_phase m with Uploading r => (λ r, set_phase m (Uploading r)) <$> f r | _ => None end.

Definition fire (m : machine) (ev : event) : option machine :=
  match ev, m_phase m with
  | EvWrite path f, Stopped _ =>
      if (bool_decide (m_versions m !! (path, fv_ModUnixNano f) = None) && (fv_Size f <? max_file_size)%Z)%bool
      then Some (mkMachine (<[path := f]> (m_files m)) (<[(path, fv_ModUnixNano f) := fv_content f]> (m_versions m))
             (m_disk m) (m_acks m) (m_completions m) (m_phase m))
      else None
  | EvExpire, _ => Some (set_disk m None)
  | EvCrash, _ => Some (set_phase m (Stopped (Some (FText "crash"))))
  | EvStart req init o, Stopped _ => Some (start_upload m req init o)
  | EvReceive i, Uploading _ => in_run m (λ r, receive r i)
  | EvBegin i, Uploading _ => in_run m (λ r, begin_attempt r i)
  | EvCancel i, Uploading _ => in_run m (λ r, cancel_wait r i)
  | EvRead i n, Uploading _ => in_run m (λ r, read_part r i n)
  | EvPartErr i e, Uploading _ => in_run m (λ r, part_err r i e)
  | EvFlush i, Uploading _ => in_run m (λ r, flush_part r i)
  | EvReport i, Uploading _ => in_run m (λ r, report_part r i)
  | EvPartOk i etag, Uploading r =>
      '(r, a) ← part_ok r i etag;
      Some (mkMachine (m_files m) (m_versions m) (m_disk m) (m_acks m ++ [a]) (m_completions m) (Uploading r))
  | EvRecord i o, Uploading r =>
      '(r, d) ← record_part r (m_disk m) i o; Some (set_phase (set_disk m d) (Uploading r))
  | EvWait, Uploading r => wait_workers m r
  | EvComplete err, Completing r => Some (completed m r err)
  | EvRemove ok, Removing _ => Some (removed m ok)
  | _, _ => None
  end.

Inductive reachable : machine → Prop :=
  | reach_init : reachable initial_machine
  | reach_fire m ev m' : reachable m → fire m ev = Some m' → reachable m'.

(** A whole execution, for computation. *)
Definition execute (m : machine) (evs : list event) : option machine :=
  foldl (λ om ev, m ← om; fire m ev) (Some m) evs.
End fire.
