(* ===== verification/UploadProperties.v ===== *)
(** * What the multipart uploader guarantees
    Invariants of the event machine of Upload.v, by induction on its executions: whatever the interleaving of
    the workers, the failures of the backend and of the checkpoint, the crashes and the resumed runs, an upload
    is only completed with the right parts; and every run ends. *)
From Stdlib Require Import Ascii.
From S2P Require Import Prelude GoStrings Transfer Progress Upload.

(** ** Lists and workers *)
Definition worker_part (w : worker) : option Z :=
  match w with Working p _ _ => Some p | Receiving | Finished | Failed _ => None end.

Lemma omap_insert_split {A B} (f : A → option B) (l : list A) i w : l !! i = Some w →
  ∃ rest, omap f l ≡ₚ option_list (f w) ++ rest ∧ ∀ w', omap f (<[i := w']> l) ≡ₚ option_list (f w') ++ rest.
Proof.
  intros Hi. exists (omap f (take i l) ++ omap f (drop (S i) l)).
  assert (Hgen : ∀ a b x, omap f (a ++ x :: b) ≡ₚ option_list (f x) ++ omap f a ++ omap f b).
  { intros a b x. rewrite omap_app. simpl. destruct (f x); simpl; [by rewrite Permutation_middle|done]. }
  split.
  - rewrite <- (take_drop_middle l i w Hi) at 1. apply Hgen.
  - intros w'. rewrite insert_take_drop by (by eapply lookup_lt_Some). apply Hgen.
Qed.
Lemma omap_insert_same {A B} (f : A → option B) (l : list A) i w w' : l !! i = Some w → f w = f w' →
  omap f (<[i := w']> l) ≡ₚ omap f l.
Proof. intros Hi Hf. destruct (omap_insert_split f l i w Hi) as (rest & -> & ->). by rewrite Hf. Qed.

Definition sumZ (l : list Z) : Z := foldr Z.add 0%Z l.
Lemma sumZ_app l1 l2 : sumZ (l1 ++ l2) = (sumZ l1 + sumZ l2)%Z.
Proof. unfold sumZ. induction l1; simpl; lia. Qed.
#[export] Instance sumZ_perm : Proper ((≡ₚ) ==> (=)) sumZ.
Proof. intros l1 l2 Hl. unfold sumZ. induction Hl; simpl; lia. Qed.
Lemma sumZ_nonneg l : Forall (Z.le 0) l → (0 <= sumZ l)%Z.
Proof. unfold sumZ. induction 1; simpl; lia. Qed.

(** ** Sizes of files that fit *)
Definition file_chunking (size : Z) : Prop := chunking size (OptimalChunkSize size).
Lemma max_file_chunking size : (0 <= size < max_file_size)%Z → file_chunking size.
Proof. unfold max_file_size. intros Hs. apply chunking_optimal. lia. Qed.
Lemma numChunks_int32 size : (0 <= size < max_file_size)%Z → (numChunks size (OptimalChunkSize size) < 2 ^ 31)%Z.
Proof.
  intros Hs. pose proof (max_file_chunking size Hs) as Hc. pose proof (numChunks_bounds _ _ Hc) as [Hn Hcover].
  unfold max_file_size in Hs. destruct (Z.le_gt_cases size (MaxMultipartParts * GB)) as [Hle|Hgt].
  - pose proof (OptimalChunkSize_parts size ltac:(lia)) as Hp. pose proof (OptimalChunkSize_bounds size).
    unfold MaxMultipartParts in *. nia.
  - assert (OptimalChunkSize size = GB) as HGB.
    { unfold OptimalChunkSize, MaxMultipartParts in *. rewrite !(proj2 (Z.leb_gt _ _)) by (sizes; lia).
      unfold scaleLinear. rewrite (proj2 (Z.leb_gt _ _)) by (sizes; lia).
      rewrite (proj2 (Z.leb_le _ _)) by (sizes; lia). by sizes. }
    rewrite HGB in *. unfold max_file_size in *. sizes. lia.
Qed.
Lemma wrap32_id z : (- 2 ^ 31 <= z < 2 ^ 31)%Z → wrap32 z = z.
Proof. intros Hz. unfold wrap32. rewrite Z.mod_small; lia. Qed.

(** The sizes of all parts add up to the file. *)
Definition file_part_size (size p : Z) : Z := part_size size (OptimalChunkSize size) p.
Definition file_parts (size : Z) : list Z := part_numbers size (OptimalChunkSize size).
Lemma file_part_size_pos size p : file_chunking size → p ∈ file_parts size →
  (0 < file_part_size size p <= OptimalChunkSize size)%Z ∧ int64 (file_part_size size p).
Proof.
  intros Hc Hp%elem_of_seqZ. unfold file_part_size. rewrite (part_size_exact _ _ Hc) by lia.
  pose proof (part_before _ _ Hc p ltac:(lia)). destruct Hc as (?&?&?). unfold int64. lia.
Qed.
Lemma part_sizes_sum size : file_chunking size → sumZ (map (file_part_size size) (file_parts size)) = size.
Proof.
  intros Hc. pose proof Hc as (?&?&?).
  set (content := replicate (Z.to_nat size) tt).
  assert (Z.of_nat (length content) = size) as Hlen by (unfold content; rewrite length_replicate; lia).
  pose proof (parts_reassemble content (OptimalChunkSize size)) as Hr. rewrite Hlen in Hr. specialize (Hr Hc).
  rewrite <- Hlen at 3. rewrite <- Hr. rewrite length_concat, map_map.
  assert (Hsum : ∀ ps, (∀ p, p ∈ ps → p ∈ file_parts size) → sumZ (map (file_part_size size) ps) =
    Z.of_nat (list_sum (map (λ p, length (section_bytes content (part_offset (OptimalChunkSize size) p)
      (part_size size (OptimalChunkSize size) p))) ps))).
  { induction ps as [|p ps IH]; intros Hps; [done|]. simpl. unfold sumZ in *. simpl. rewrite IH by (intros; apply Hps; by right).
    rewrite Nat2Z.inj_add. f_equal. assert (p ∈ file_parts size) as Hp by (apply Hps; by left).
    pose proof (file_part_size_pos _ _ Hc Hp) as [? _]. unfold file_part_size in *. apply elem_of_seqZ in Hp.
    pose proof (part_before _ _ Hc p ltac:(lia)). rewrite (part_offset_exact _ _ Hc) by lia.
    rewrite (part_size_exact _ _ Hc) in * by lia. symmetry. apply section_bytes_length; lia. }
  by rewrite Hsum.
Qed.

(** ** The tracker of a run
    [held] are the parts that are neither counted nor given up; [clean] says that no worker has failed. *)
Record tracker_ok (t : multipartProgressTracker) (size : Z) (held : list Z) (clean : Prop) : Prop := {
  tk_inv : tracker_inv t;
  tk_total : mt_total t = size;
  tk_quiet : (0 < size)%Z → not_announced t;
  tk_bound : (mt_committed t + sumZ (map (file_part_size size) held) <= size)%Z;
  tk_committed : clean → (mt_committed t + sumZ (map (file_part_size size) held) = size)%Z;
  tk_active p : clean → is_Some (mt_active t !! p) → p ∈ held }.

Lemma tracker_inv_start progress oid total c : int64 c →
  tracker_inv (set_committed (newMultipartProgressTracker progress oid total) c).
Proof. intros Hc. by constructor. Qed.
Lemma emitLocked_frame m final : let m' := (emitLocked m final).1 in
  mt_total m' = mt_total m ∧ mt_committed m' = mt_committed m ∧ mt_active m' = mt_active m ∧ mt_onProgress m' = mt_onProgress m.
Proof.
  unfold emitLocked. destruct (mt_onProgress m) eqn:E; [|by rewrite ?E]. cbv zeta. case_match; [by rewrite ?E|].
  by destruct (call _ _ _) as [cs [e|]]; simpl; rewrite ?E.
Qed.
Lemma tracker_ok_weaken t size held held' (clean clean' : Prop) : file_chunking size →
  tracker_ok t size held clean → (clean' → clean) → Forall (λ p, p ∈ file_parts size) held →
  (∃ extra, held ≡ₚ extra ++ held') → (clean' → held ≡ₚ held') → tracker_ok t size held' clean'.
Proof.
  intros Hc [] Hcl Hall [extra Hex] Hperm. constructor; try done.
  - rewrite Hex in tk_bound0, Hall. rewrite map_app, sumZ_app in tk_bound0. apply Forall_app in Hall as [Hall _].
    assert (0 <= sumZ (map (file_part_size size) extra))%Z; [|lia].
    apply sumZ_nonneg, Forall_map. eapply Forall_impl; [done|]. intros q Hq. simpl.
    pose proof (file_part_size_pos size q Hc Hq). lia.
  - intros Hcl'. rewrite <- Hperm by done. auto.
  - intros p Hcl' Hp. rewrite <- Hperm by done. auto.
Qed.
Lemma tracker_ok_step t size held clean op p : file_chunking size → p ∈ held →
  (op = OpResetPart p ∨ ∃ d, op = OpAdvancePart p d) →
  tracker_ok t size held clean → tracker_ok (tracker_step t op) size held clean.
Proof.
  intros Hc Hp Hop [Hinv Ht Hq Hb Hcm Ha]. pose proof Hc as (?&?&?). assert (op ≠ OpCompleteUpload) by (by destruct Hop as [-> | [? ->]]).
  assert (mt_total (tracker_step t op) = mt_total t ∧ mt_committed (tracker_step t op) = mt_committed t ∧
    ∀ q, is_Some (mt_active (tracker_step t op) !! q) → q = p ∨ is_Some (mt_active t !! q)) as (Ht' & Hcm' & Ha').
  { destruct Hop as [->|[d ->]]; simpl.
    - split_and!; [done..|]. intros q. destruct (decide (q = p)) as [->|]; [by left|]. rewrite lookup_insert_ne by done. by right.
    - unfold AdvancePart. case_match; [by auto|].
      destruct (emitLocked_frame (set_active t (<[p:=wrap64 (default 0%Z (mt_active t !! p) + d)]> (mt_active t))) false)
        as (-> & -> & -> & _). split_and!; [done..|]. simpl.
      intros q. destruct (decide (q = p)) as [->|]; [by left|]. rewrite lookup_insert_ne by done. by right. }
  constructor.
  - by apply tracker_step_inv.
  - by rewrite Ht'.
  - intros Hs. apply tracker_step_not_announced; [lia|unfold int64; lia|done|by apply Hq].
  - by rewrite Hcm'.
  - by rewrite Hcm'.
  - intros q Hcl [->|?]%Ha'; [done|by apply Ha].
Qed.
Lemma tracker_ok_complete t size held held' clean p : file_chunking size →
  held ≡ₚ p :: held' → NoDup held → Forall (λ q, q ∈ file_parts size) held →
  tracker_ok t size held clean → tracker_ok (CompletePart t p (file_part_size size p)).1 size held' clean.
Proof.
  intros Hc Hh Hnd Hall [Hinv Ht Hq Hb Hcm Ha]. pose proof Hc as (?&?&?). rewrite Hh in Hnd, Hall.
  apply NoDup_cons in Hnd as [Hnew Hnd]. apply Forall_cons in Hall as [Hp Hall].
  pose proof (file_part_size_pos size p Hc Hp) as [Hpos _].
  assert (0 <= sumZ (map (file_part_size size) held'))%Z as Hsum.
  { apply sumZ_nonneg, Forall_map. eapply Forall_impl; [done|]. intros q Hin. simpl.
    pose proof (file_part_size_pos size q Hc Hin). lia. }
  assert (Hsplit : sumZ (map (file_part_size size) held) = (file_part_size size p + sumZ (map (file_part_size size) held'))%Z)
    by (by rewrite Hh).
  rewrite Hsplit in Hb, Hcm.
  assert (tracker_inv (CompletePart t p (file_part_size size p)).1) as Hinv'
    by apply (tracker_step_inv t (OpCompletePart p (file_part_size size p)) Hinv).
  unfold CompletePart in *. set (t1 := set_active _ _) in *.
  destruct (emitLocked_frame t1 false) as (Ht' & Hcm' & Ha' & _). pose proof (ti_committed _ Hinv) as [? ?].
  assert (Hwrap : mt_committed t1 = (mt_committed t + file_part_size size p)%Z)
    by (simpl; apply wrap64_id; unfold int64; lia).
  constructor.
  - done.
  - by rewrite Ht'.
  - intros Hs. destruct (emitLocked t1 false) as [t2 e] eqn:E.
    apply (emitLocked_not_announced t1 t2 e); [simpl; lia|simpl; unfold int64; lia|by apply Hq|done].
  - rewrite Hcm', Hwrap. lia.
  - intros Hcl. rewrite Hcm', Hwrap. specialize (Hcm Hcl). lia.
  - intros q Hcl. rewrite Ha'. simpl. intros Hq'. assert (q ≠ p) by (intros ->; rewrite lookup_delete_eq in Hq'; by destruct Hq').
    rewrite lookup_delete_ne in Hq' by done. apply Ha in Hq'; [|done]. rewrite Hh in Hq'. apply elem_of_cons in Hq'. naive_solver.
Qed.

(** ** Checkpoints: what a resumed run may rely on *)
Record state_ok (versions : gmap (string * Z) (list ascii)) (acks : list acknowledged)
    (s : uploaderResumeState) (content : list ascii) : Prop := {
  so_version : versions !! (us_SourcePath s, us_FileModUnixNano s) = Some content;
  so_small : (us_FileSize s < max_file_size)%Z;
  so_size : us_FileSize s = Z.of_nat (length content);
  so_chunk : us_ChunkSize s = OptimalChunkSize (us_FileSize s);
  so_completed p etag : us_Completed s !! p = Some etag → p ∈ file_parts (us_FileSize s) ∧
    mkAck (us_ObjectKey s) (us_UploadID s) p etag
      (section_bytes content (part_offset (us_ChunkSize s) p) (part_size (us_FileSize s) (us_ChunkSize s) p)) ∈ acks }.

Lemma state_ok_mono versions acks versions' acks' s content :
  (∀ k c, versions !! k = Some c → versions' !! k = Some c) → acks ⊆ acks' →
  state_ok versions acks s content → state_ok versions' acks' s content.
Proof. intros Hv Ha []. constructor; try done; [by apply Hv|]. intros p e Hp. destruct (so_completed0 p e Hp). by auto. Qed.
Lemma state_ok_chunking versions acks s content : state_ok versions acks s content → file_chunking (us_FileSize s).
Proof. intros [_ ? Hs _ _]. apply max_file_chunking. lia. Qed.

(** ** A run: until a worker fails, every part is recorded, in the channel, or in the hands of one worker *)
Definition held (r : run) : list Z := run_queue r ++ omap worker_part (run_workers r).
Definition run_size (r : run) : Z := us_FileSize (run_state r).
Definition stage_ok (s : uploaderResumeState) (acks : list acknowledged) (content : list ascii) (w : worker) : Prop :=
  match w with
  | Working p _ (Recording etag) | Working p _ (Flushing etag _) =>
      mkAck (us_ObjectKey s) (us_UploadID s) p etag
        (section_bytes content (part_offset (us_ChunkSize s) p) (part_size (us_FileSize s) (us_ChunkSize s) p)) ∈ acks
  | Working p _ Reporting => is_Some (us_Completed s !! p)
  | _ => True
  end.
Record run_ok (versions : gmap (string * Z) (list ascii)) (acks : list acknowledged) (r : run) : Prop := {
  ro_state : state_ok versions acks (run_state r) (fv_content (run_file r));
  ro_key : us_ObjectKey (run_state r) = effectiveObjectKey (run_req r);
  ro_nodup : NoDup (held r);
  ro_held : Forall (λ p, p ∈ file_parts (run_size r)) (held r);
  ro_covered p : run_uploadErr r = None → p ∈ file_parts (run_size r) → p ∈ held r ∨ is_Some (us_Completed (run_state r) !! p);
  ro_workers : length (run_workers r) = MaxConcurrentUploads;
  ro_stages : Forall (stage_ok (run_state r) acks (fv_content (run_file r))) (run_workers r);
  ro_failed p : Failed p ∈ run_workers r → run_uploadErr r ≠ None;
  ro_finished : Finished ∈ run_workers r → run_queue r = [];
  ro_tracker : tracker_ok (run_tracker r) (run_size r) (held r) (run_uploadErr r = None) }.

Lemma run_ok_mono versions acks versions' acks' r :
  (∀ k c, versions !! k = Some c → versions' !! k = Some c) → acks ⊆ acks' →
  run_ok versions acks r → run_ok versions' acks' r.
Proof.
  intros Hv Ha []. constructor; try done; [by eapply state_ok_mono|].
  eapply Forall_impl; [done|]. intros [| p k s| |]; simpl; try done. destruct s; simpl; auto.
Qed.

(** The worker [i] makes a move inside its part. *)
Lemma run_ok_stay versions acks r i w p w' s' t' : run_ok versions acks r → run_workers r !! i = Some w →
  worker_part w = Some p → worker_part w' = Some p →
  state_ok versions acks s' (fv_content (run_file r)) →
  us_ObjectKey s' = us_ObjectKey (run_state r) → us_UploadID s' = us_UploadID (run_state r) →
  us_FileSize s' = run_size r → (∀ q, is_Some (us_Completed (run_state r) !! q) → is_Some (us_Completed s' !! q)) →
  tracker_ok t' (run_size r) (held r) (run_uploadErr r = None) → stage_ok s' acks (fv_content (run_file r)) w' →
  run_ok versions acks (mkRun (run_req r) (run_file r) s' (run_queue r) (<[i := w']> (run_workers r)) (run_uploadErr r) t').
Proof.
  intros [Hs Hk Hnd Hh Hcov Hlen Hst Hfail Hfin Htk] Hi Hw Hw' Hs' Hk' Hu' Hsize Hc' Ht' Hst'.
  set (r' := mkRun _ _ _ _ _ _ _).
  assert (Hheld : held r' ≡ₚ held r) by (unfold held; simpl; by rewrite (omap_insert_same _ _ i w) by congruence).
  assert (Hrs : run_size r' = run_size r) by done.
  assert (Hchunk : us_ChunkSize s' = us_ChunkSize (run_state r)).
  { rewrite (so_chunk _ _ _ _ Hs'), (so_chunk _ _ _ _ Hs). by rewrite Hsize. }
  constructor; rewrite ?Hheld, ?Hrs; simpl; try done.
  - by rewrite Hk'.
  - intros q He [?|?]%(Hcov q He); [left; by rewrite Hheld|right; auto].
  - by rewrite length_insert.
  - apply Forall_insert; [|done]. eapply Forall_impl; [exact Hst|]. intros w0. unfold stage_ok.
    rewrite Hk', Hu', Hchunk, Hsize. destruct w0 as [|? ? s0| |]; try done. destruct s0; auto.
  - intros q [j [Hj|Hj]%list_lookup_insert_Some]%list_elem_of_lookup; [naive_solver|].
    apply (Hfail q). eapply list_elem_of_lookup_2. naive_solver.
  - intros [j [Hj|Hj]%list_lookup_insert_Some]%list_elem_of_lookup; [naive_solver|].
    apply Hfin. eapply list_elem_of_lookup_2. naive_solver.
  - eapply tracker_ok_weaken; [by eapply state_ok_chunking|exact Ht'|done|done|exists []; by rewrite Hheld|by rewrite Hheld].
Qed.

(** A worker gives its part up: the run has failed. *)
Lemma run_ok_fail versions acks r i p k s e t' : run_ok versions acks r → run_workers r !! i = Some (Working p k s) →
  (∃ held', tracker_ok t' (run_size r) held' False ∧ (held' = held r ∨ held r ≡ₚ p :: held')) →
  run_ok versions acks (mkRun (run_req r) (run_file r) (run_state r) (run_queue r) (<[i := Failed p]> (run_workers r)) (Some e) t').
Proof.
  intros [Hs Hk Hnd Hh Hcov Hlen Hst Hfail Hfin Htk] Hi (held' & Ht' & Hheld').
  set (r' := mkRun _ _ _ _ _ _ _).
  assert (Hheld : held r ≡ₚ p :: held r').
  { unfold held, r'. simpl. destruct (omap_insert_split worker_part _ i _ Hi) as (rest & -> & ->). simpl. by rewrite Permutation_middle. }
  pose proof Hnd as Hnd'. pose proof Hh as Hh'. rewrite Hheld in Hnd', Hh'.
  apply NoDup_cons in Hnd' as [_ Hnd']. apply Forall_cons in Hh' as [_ Hh'].
  constructor; simpl; try done.
  - by rewrite length_insert.
  - by apply Forall_insert.
  - intros [j [Hj|Hj]%list_lookup_insert_Some]%list_elem_of_lookup; [naive_solver|].
    apply Hfin. eapply list_elem_of_lookup_2. naive_solver.
  - destruct Hheld' as [->|Hheld'].
    + eapply tracker_ok_weaken; [by eapply state_ok_chunking|exact Ht'|done|done|by exists [p]|done].
    + rewrite Hheld in Hheld'. apply (inj (cons p)) in Hheld'.
      eapply tracker_ok_weaken; [by eapply state_ok_chunking|exact Ht'|done|by rewrite <- Hheld'|by exists []; rewrite Hheld'|done].
Qed.

(** ** Every step of a worker preserves the invariant of the run *)
Lemma As_nonRetryable_NonRetryable e : is_Some (As_nonRetryable (NonRetryable e)).
Proof. unfold NonRetryable. destruct (As_nonRetryable e) eqn:E; [by rewrite E|by eexists]. Qed.
Lemma attempt_ends_final r i p k e : ∃ err,
  attempt_ends r i p k (Some (NonRetryable e)) = set_worker (set_uploadErr r (Some err)) i (Failed p).
Proof. unfold attempt_ends, retry_verdict. destruct (As_nonRetryable_NonRetryable e) as [err ->]. by exists err. Qed.

Section run_steps.
Context (versions : gmap (string * Z) (list ascii)) (acks : list acknowledged).
Implicit Types (r : run) (i : nat) (p k : Z).

Lemma run_chunking r : run_ok versions acks r → file_chunking (run_size r).
Proof. intros []. by eapply state_ok_chunking. Qed.
Lemma run_partSize_eq r p : run_ok versions acks r → run_partSize r p = file_part_size (run_size r) p.
Proof. intros []. unfold run_partSize. by rewrite (so_chunk _ _ _ _ ro_state0). Qed.
Lemma held_working r i p k s : run_workers r !! i = Some (Working p k s) → p ∈ held r.
Proof.
  intros Hi. unfold held. rewrite elem_of_app. right. apply list_elem_of_omap. exists (Working p k s).
  split; [by eapply list_elem_of_lookup_2|done].
Qed.

Lemma run_ok_stage r i p k s k' s' t' : run_ok versions acks r → run_workers r !! i = Some (Working p k s) →
  tracker_ok t' (run_size r) (held r) (run_uploadErr r = None) →
  stage_ok (run_state r) acks (fv_content (run_file r)) (Working p k' s') →
  run_ok versions acks (set_worker (set_tracker r t') i (Working p k' s')).
Proof.
  intros Hr Hi Ht Hs.
  apply (run_ok_stay versions acks r i (Working p k s) p (Working p k' s') (run_state r) t'); try done; by destruct Hr.
Qed.
Lemma run_ok_attempt_fails r i p k s e : run_ok versions acks r → run_workers r !! i = Some (Working p k s) →
  run_ok versions acks (attempt_ends r i p k (Some e)).
Proof.
  intros Hr Hi. unfold attempt_ends, retry_verdict.
  assert (∀ err, run_ok versions acks (set_worker (set_uploadErr r (Some err)) i (Failed p))) as Hfail.
  { intros err. apply (run_ok_fail versions acks r i p k s err (run_tracker r)); [done..|]. exists (held r). split; [|by left].
    eapply tracker_ok_weaken; [by apply run_chunking|apply Hr|done|apply Hr|by exists []|done]. }
  destruct (As_nonRetryable e); [apply Hfail|]. destruct (k + 1 <=? MaxRetryCount)%Z; [|apply Hfail].
  destruct r as [req f st q ws ue t]. apply (run_ok_stage (mkRun req f st q ws ue t) i p k s (k + 1) Starting t); [done|done|apply Hr|done].
Qed.

Lemma receive_ok r i r' : run_ok versions acks r → receive r i = Some r' → run_ok versions acks r'.
Proof.
  intros Hr Hf. unfold receive in Hf. destruct (run_workers r !! i) as [[]|] eqn:Hi; try done.
  pose proof (run_chunking r Hr) as Hc. destruct Hr as [Hs Hk Hnd Hh Hcov Hlen Hst Hfail Hfin Htk].
  destruct (run_queue r) as [|p q] eqn:Hq; simplify_eq.
  - assert (Hheld : held (set_worker r i Finished) ≡ₚ held r)
      by (unfold held; simpl; by rewrite (omap_insert_same _ _ i Receiving)).
    constructor; rewrite ?Hheld; simpl; try done.
    + intros p. rewrite Hheld. apply Hcov.
    + by rewrite length_insert.
    + by apply Forall_insert.
    + intros p [j [Hj|Hj]%list_lookup_insert_Some]%list_elem_of_lookup; [naive_solver|].
      apply (Hfail p). eapply list_elem_of_lookup_2. naive_solver.
    + eapply tracker_ok_weaken; [exact Hc|exact Htk|done|done|exists []; by rewrite Hheld|by rewrite Hheld].
  - set (r' := set_worker _ _ _).
    assert (Hheld : held r' ≡ₚ held r).
    { unfold held, r'. simpl. rewrite Hq. destruct (omap_insert_split worker_part _ i _ Hi) as (rest & -> & Hins).
      rewrite Hins. simpl. by rewrite Permutation_middle. }
    constructor; rewrite ?Hheld; simpl; try done.
    + intros p'. rewrite Hheld. apply Hcov.
    + by rewrite length_insert.
    + by apply Forall_insert.
    + intros p' [j [Hj|Hj]%list_lookup_insert_Some]%list_elem_of_lookup; [naive_solver|].
      apply (Hfail p'). eapply list_elem_of_lookup_2. naive_solver.
    + intros [j [Hj|Hj]%list_lookup_insert_Some]%list_elem_of_lookup; [naive_solver|].
      assert (p :: q = []) as [=]. apply Hfin. eapply list_elem_of_lookup_2. naive_solver.
    + eapply tracker_ok_weaken; [exact Hc|exact Htk|done|done|exists []; by rewrite Hheld|by rewrite Hheld].
Qed.

Lemma begin_ok r i r' : run_ok versions acks r → begin_attempt r i = Some r' → run_ok versions acks r'.
Proof.
  intros Hr Hf. unfold begin_attempt in Hf. destruct (run_workers r !! i) as [[|p k []| |]|] eqn:Hi; simplify_eq.
  eapply (run_ok_stage r); [done..| |done].
  apply (tracker_ok_step _ _ _ _ (OpResetPart p) p); [by apply run_chunking|by eapply held_working|by left|apply Hr].
Qed.
Lemma cancel_ok r i r' : run_ok versions acks r → cancel_wait r i = Some r' → run_ok versions acks r'.
Proof.
  intros Hr Hf. unfold cancel_wait in Hf. destruct (run_workers r !! i) as [[|p k []| |]|] eqn:Hi; try done.
  case_match; simplify_eq. apply (run_ok_fail versions acks r i p k Starting ContextDone (run_tracker r)); [done..|]. exists (held r). split; [|by left].
  eapply tracker_ok_weaken; [by apply run_chunking|apply Hr|done|apply Hr|by exists []|done].
Qed.
(** AdvancePart, on behalf of a worker that holds the part. *)
Lemma advance_ok r i p k s d : run_ok versions acks r → run_workers r !! i = Some (Working p k s) →
  tracker_ok (AdvancePart (run_tracker r) p d).1 (run_size r) (held r) (run_uploadErr r = None).
Proof.
  intros Hr Hi. apply (tracker_ok_step _ _ _ _ (OpAdvancePart p d) p);
    [by apply run_chunking|by eapply held_working|right; by exists d|apply Hr].
Qed.
Lemma read_ok r i n r' : run_ok versions acks r → read_part r i n = Some r' → run_ok versions acks r'.
Proof.
  intros Hr Hf. unfold read_part in Hf. destruct (run_workers r !! i) as [[|p k [| read pending | | |]| |]|] eqn:Hi; try done.
  case_match; [|done]. unfold part_Read in Hf. repeat case_match; simplify_eq.
  all: (eapply (run_ok_stage r); [exact Hr|exact Hi| |done]).
  all: try apply Hr.
  all: match goal with H : AdvancePart _ _ ?d = _ |- _ => pose proof (advance_ok r i p k _ d Hr Hi) as Ht; by rewrite H in Ht end.
Qed.
Lemma part_err_ok r i e r' : run_ok versions acks r → part_err r i e = Some r' → run_ok versions acks r'.
Proof.
  intros Hr Hf. unfold part_err in Hf. destruct (run_workers r !! i) as [[|p k []| |]|] eqn:Hi; simplify_eq.
  by eapply run_ok_attempt_fails.
Qed.
(** Only the tracker moves. *)
Lemma run_ok_tracker r i p k s t' : run_ok versions acks r → run_workers r !! i = Some (Working p k s) →
  tracker_ok t' (run_size r) (held r) (run_uploadErr r = None) → run_ok versions acks (set_tracker r t').
Proof.
  intros Hr Hi Ht. assert (Hst : stage_ok (run_state r) acks (fv_content (run_file r)) (Working p k s)).
  { pose proof (ro_stages _ _ _ Hr) as Hs. rewrite Forall_forall in Hs. apply Hs. by eapply list_elem_of_lookup_2. }
  pose proof (run_ok_stage r i p k s k s t' Hr Hi Ht Hst) as H. unfold set_worker in H. simpl in H.
  by rewrite list_insert_id in H.
Qed.
Lemma flush_ok r i r' : run_ok versions acks r → flush_part r i = Some r' → run_ok versions acks r'.
Proof.
  intros Hr Hf. unfold flush_part in Hf. destruct (run_workers r !! i) as [[|p k [| |etag pending| |]| |]|] eqn:Hi; try done.
  assert (Hst : stage_ok (run_state r) acks (fv_content (run_file r)) (Working p k (Flushing etag pending))).
  { pose proof (ro_stages _ _ _ Hr) as Hs. rewrite Forall_forall in Hs. apply Hs. by eapply list_elem_of_lookup_2. }
  assert (Ht : ∀ t n e, part_FlushPendingProgress (run_tracker r) p pending = (t, n, e) →
    tracker_ok t (run_size r) (held r) (run_uploadErr r = None)).
  { intros t n e Hfl. unfold part_FlushPendingProgress in Hfl. case_match; [simplify_eq; apply Hr|].
    pose proof (advance_ok r i p k _ pending Hr Hi) as H'. destruct (AdvancePart _ _ _). by simplify_eq. }
  destruct (part_FlushPendingProgress _ _ _) as [[t n] [e|]] eqn:Hfl; simplify_eq; specialize (Ht _ _ _ eq_refl).
  - eapply run_ok_attempt_fails; [by eapply run_ok_tracker|done].
  - by eapply (run_ok_stage r).
Qed.
Lemma record_ok r disk i o r' disk' : run_ok versions acks r → record_part r disk i o = Some (r', disk') →
  run_ok versions acks r' ∧ (disk' = disk ∨ disk' = None ∨ disk' = Some (run_state r')).
Proof.
  intros Hr Hf. unfold record_part in Hf. destruct (run_workers r !! i) as [[|p k [| | |etag|]| |]|] eqn:Hi; try done.
  assert (Hst : stage_ok (run_state r) acks (fv_content (run_file r)) (Working p k (Recording etag))).
  { pose proof (ro_stages _ _ _ Hr) as Hs. rewrite Forall_forall in Hs. apply Hs. by eapply list_elem_of_lookup_2. }
  set (st := set_Completed _ _) in Hf.
  assert (Hso : state_ok versions acks st (fv_content (run_file r))).
  { pose proof (ro_held _ _ _ Hr) as Hh. rewrite Forall_forall in Hh. specialize (Hh p (held_working r i p k _ Hi)).
    destruct (ro_state _ _ _ Hr). constructor; try done.
    intros q e. simpl. rewrite lookup_insert_Some. intros [[-> ->]|[_ Hq]]; [done|by apply so_completed0]. }
  assert (Hmono : ∀ q, is_Some (us_Completed (run_state r) !! q) → is_Some (us_Completed st !! q)).
  { intros q Hq. simpl. destruct (decide (p = q)) as [->|]; [by rewrite lookup_insert_eq|by rewrite lookup_insert_ne]. }
  assert (Hstay : ∀ s, stage_ok st acks (fv_content (run_file r)) (Working p k s) →
    run_ok versions acks (set_worker (set_state r st) i (Working p k s))).
  { intros s Hs. apply (run_ok_stay versions acks r i (Working p k (Recording etag)) p (Working p k s) st (run_tracker r)); try done. apply Hr. }
  assert (Hrec : run_ok versions acks (set_state r st)).
  { specialize (Hstay (Recording etag) Hst). unfold set_worker in Hstay. simpl in Hstay. by rewrite list_insert_id in Hstay. }
  destruct o; simpl in Hf; simplify_eq.
  - split; [|by right; right]. apply Hstay. simpl. by rewrite lookup_insert_eq.
  - split; [by eapply run_ok_attempt_fails|by left].
  - split; [by eapply run_ok_attempt_fails|by right; left].
Qed.
Lemma report_ok r i r' : run_ok versions acks r → report_part r i = Some r' → run_ok versions acks r'.
Proof.
  intros Hr Hf. unfold report_part in Hf. destruct (run_workers r !! i) as [[|p k []| |]|] eqn:Hi; try done.
  pose proof (run_chunking r Hr) as Hc. rewrite (run_partSize_eq r p Hr) in Hf.
  assert (Hst : is_Some (us_Completed (run_state r) !! p)).
  { pose proof (ro_stages _ _ _ Hr) as Hs. rewrite Forall_forall in Hs. apply (Hs (Working p k Reporting)). by eapply list_elem_of_lookup_2. }
  destruct (omap_insert_split worker_part _ i _ Hi) as (rest & Hbefore & Hafter). simpl in Hbefore.
  assert (Hheld : held r ≡ₚ p :: (run_queue r ++ rest)) by (unfold held; by rewrite Hbefore, Permutation_middle).
  pose proof (tracker_ok_complete (run_tracker r) _ _ _ _ p Hc Hheld (ro_nodup _ _ _ Hr) (ro_held _ _ _ Hr) (ro_tracker _ _ _ Hr)) as Ht.
  destruct (CompletePart _ _ _) as [t [e|]]; simpl in Ht.
  - destruct (attempt_ends_final (set_tracker r t) i p k e) as [err Herr]. rewrite Herr in Hf. simplify_eq.
    apply (run_ok_fail versions acks r i p k Reporting err t); [done..|]. exists (run_queue r ++ rest). split; [|by right].
    pose proof (ro_held _ _ _ Hr) as Hh. rewrite Hheld in Hh. apply Forall_cons in Hh as [_ Hh].
    eapply tracker_ok_weaken; [exact Hc|exact Ht|done|done|by exists []|done].
  - unfold attempt_ends in Hf. simpl in Hf. simplify_eq. set (r' := set_worker _ _ _).
    assert (Hheld' : held r' ≡ₚ run_queue r ++ rest) by (unfold held, r'; simpl; by rewrite Hafter).
    destruct Hr as [Hs Hk Hnd Hh Hcov Hlen Hsts Hfail Hfin Htk].
    rewrite Hheld in Hnd, Hh. apply NoDup_cons in Hnd as [_ Hnd]. apply Forall_cons in Hh as [_ Hh].
    constructor; rewrite ?Hheld'; simpl; try done.
    + intros q He Hq. rewrite Hheld'. destruct (Hcov q He Hq) as [Hin|?]; [|by right].
      rewrite Hheld in Hin. apply elem_of_cons in Hin as [->|?]; [by right|by left].
    + by rewrite length_insert.
    + by apply Forall_insert.
    + intros q [j [Hj|Hj]%list_lookup_insert_Some]%list_elem_of_lookup; [naive_solver|].
      apply (Hfail q). eapply list_elem_of_lookup_2. naive_solver.
    + intros [j [Hj|Hj]%list_lookup_insert_Some]%list_elem_of_lookup; [naive_solver|].
      apply Hfin. eapply list_elem_of_lookup_2. naive_solver.
    + eapply tracker_ok_weaken; [exact Hc|exact Ht|done|done|by exists []; rewrite Hheld'|by rewrite Hheld'].
Qed.
End run_steps.

Lemma part_ok_ok versions acks r i etag r' a : run_ok versions acks r → part_ok r i etag = Some (r', a) →
  run_ok versions (acks ++ [a]) r'.
Proof.
  intros Hr Hf. apply (run_ok_mono _ _ versions (acks ++ [a])) in Hr; [|done|set_solver].
  unfold part_ok in Hf. destruct (run_workers r !! i) as [[|p k [| read pending | | |]| |]|] eqn:Hi; simplify_eq.
  eapply (run_ok_stage _ _ r i p k _ k (Flushing etag pending) (run_tracker r)); [done..|apply Hr|].
  simpl. rewrite (ro_key _ _ _ Hr). set_solver.
Qed.

(** ** Completion *)
Record completion_ok (acks : list acknowledged) (c : completion) : Prop := {
  cm_numbers : map PartNumber (co_parts c) = seqZ 1 (Z.of_nat (length (co_parts c)));
  cm_data : ∃ datas, concat datas = co_content c ∧
    Forall2 (λ part data, mkAck (co_key c) (co_uploadID c) (PartNumber part) (ETag part) data ∈ acks) (co_parts c) datas }.

Lemma done_held versions acks r : run_ok versions acks r → forallb worker_done (run_workers r) = true →
  run_uploadErr r = None → held r = [].
Proof.
  intros Hr Hdone He. rewrite forallb_forall in Hdone.
  assert (Hfin : ∀ w, w ∈ run_workers r → w = Finished).
  { intros w Hw. pose proof (Hdone w (proj1 (list_elem_of_In _ _) Hw)). destruct w as [|? ? []| |p]; try done. by destruct (ro_failed _ _ _ Hr p Hw). }
  unfold held. rewrite (ro_finished _ _ _ Hr).
  - simpl. clear -Hfin. induction (run_workers r) as [|w ws IH]; [done|]. simpl. rewrite (Hfin w) by by left.
    apply IH. intros w' Hw'. apply Hfin. by right.
  - pose proof (ro_workers _ _ _ Hr) as Hlen. destruct (run_workers r) as [|w ws]; [done|]. rewrite <- (Hfin w); by left.
Qed.

Lemma sorted_numbers_unique (l1 l2 : list Z) : Sorted Z.le l1 → Sorted Z.le l2 → l1 ≡ₚ l2 → l1 = l2.
Proof. intros. by apply (Sorted_unique Z.le). Qed.
Lemma seqZ_sorted m n : Sorted Z.le (seqZ m n).
Proof.
  destruct (Z.le_gt_cases 0 n) as [Hn|]; [|by rewrite seqZ_nil by lia; constructor].
  rewrite <- (Z2Nat.id n) by done. clear Hn. generalize (Z.to_nat n) as k. intros k. revert m.
  induction k as [|k IH]; intros m; [constructor|]. rewrite seqZ_cons by lia. rewrite Nat2Z.inj_succ, Z.pred_succ.
  constructor; [apply IH|]. destruct k; [constructor|]. rewrite seqZ_cons by lia. constructor. lia.
Qed.
Lemma completed_parts_spec versions acks r : run_ok versions acks r → run_uploadErr r = None → held r = [] →
  map PartNumber (completed_parts (run_state r)) = file_parts (run_size r) ∧
  ∀ part, part ∈ completed_parts (run_state r) → us_Completed (run_state r) !! PartNumber part = Some (ETag part).
Proof.
  intros Hr He Hheld. pose proof (ro_state _ _ _ Hr) as Hs. set (c := us_Completed (run_state r)).
  assert (Hkeys : ∀ p, is_Some (c !! p) ↔ p ∈ file_parts (run_size r)).
  { intros p. split; [by intros [e Hp]; destruct (so_completed _ _ _ _ Hs p e Hp)|].
    intros Hp. destruct (ro_covered _ _ _ Hr p He Hp) as [Hin|?]; [by rewrite Hheld in Hin; apply elem_of_nil in Hin|done]. }
  assert (Hwrap : ∀ p, p ∈ file_parts (run_size r) → wrap32 p = p).
  { intros p Hp%elem_of_seqZ. apply wrap32_id. pose proof (numChunks_int32 (run_size r)) as Hn.
    assert (0 <= run_size r < max_file_size)%Z as Hsz by (unfold run_size; destruct Hs; lia). specialize (Hn Hsz). lia. }
  assert (Hmap : map (λ c, mkPart (wrap32 c.1) c.2) (map_to_list c) = map (λ c, mkPart c.1 c.2) (map_to_list c)).
  { apply map_ext_in. intros [p e] Hp%list_elem_of_In%elem_of_map_to_list. simpl. f_equal. apply Hwrap, Hkeys. by exists e. }
  unfold completed_parts. fold c. rewrite Hmap.
  pose proof (merge_sort_Permutation part_le (map (λ c, mkPart c.1 c.2) (map_to_list c))) as Hperm. split.
  - apply sorted_numbers_unique; [|apply seqZ_sorted|].
    + assert (Hsort : Sorted part_le (merge_sort part_le (map (λ c, mkPart c.1 c.2) (map_to_list c)))).
      { apply Sorted_merge_sort. intros a b. unfold part_le. lia. }
      clear Hperm. induction Hsort as [|a l Hl IH Hhd]; simpl; [constructor|]. constructor; [done|].
      inversion Hhd; simpl; by constructor.
    + rewrite Hperm, map_map. simpl. apply NoDup_Permutation.
      * apply (NoDup_fst_map_to_list c).
      * apply NoDup_seqZ.
      * intros p. rewrite <- Hkeys. change (map (λ x : Z * string, x.1)) with (fmap (M:=list) (λ x : Z * string, x.1)).
        rewrite list_elem_of_fmap. split.
        -- intros ([q e] & -> & Hq%elem_of_map_to_list). by exists e.
        -- intros [e Hp]. exists (p, e). by rewrite elem_of_map_to_list.
  - intros part Hin. rewrite Hperm in Hin. change (map (λ c : Z * string, mkPart c.1 c.2)) with (fmap (M:=list) (λ c : Z * string, mkPart c.1 c.2)) in Hin.
    apply list_elem_of_fmap in Hin as ([p e] & -> & Hp%elem_of_map_to_list). done.
Qed.
Lemma completion_ok_run versions acks r : run_ok versions acks r → run_uploadErr r = None → held r = [] →
  completion_ok acks (mkCompletion (effectiveObjectKey (run_req r)) (us_UploadID (run_state r))
    (completed_parts (run_state r)) (fv_content (run_file r))).
Proof.
  intros Hr He Hheld. destruct (completed_parts_spec _ _ _ Hr He Hheld) as [Hnum Hparts].
  pose proof (ro_state _ _ _ Hr) as Hs. pose proof (numChunks_bounds _ _ (run_chunking _ _ r Hr)) as [Hn _].
  constructor; simpl.
  - rewrite Hnum. unfold file_parts, part_numbers. f_equal.
    apply (f_equal length) in Hnum. rewrite length_map in Hnum. unfold file_parts, part_numbers in Hnum.
    rewrite length_seqZ in Hnum. lia.
  - exists (map (λ p, run_section r p) (map PartNumber (completed_parts (run_state r)))). split.
    + rewrite Hnum. unfold run_section, run_partSize, file_parts, run_size. rewrite (so_chunk _ _ _ _ Hs), (so_size _ _ _ _ Hs).
      apply parts_reassemble. rewrite <- (so_size _ _ _ _ Hs). by eapply run_chunking.
    + rewrite map_map. apply Forall2_fmap_r. apply Forall_Forall2_diag, Forall_forall. intros part Hpart.
      destruct (so_completed _ _ _ _ Hs _ _ (Hparts part Hpart)) as [_ Hack]. by rewrite <- (ro_key _ _ _ Hr).
Qed.
Lemma completion_ok_mono acks acks' c : acks ⊆ acks' → completion_ok acks c → completion_ok acks' c.
Proof.
  intros Ha [Hn (datas & Hd & Hf)]. constructor; [done|]. exists datas. split; [done|].
  eapply Forall2_impl; [exact Hf|]. simpl. auto.
Qed.

(** ** The machine *)
Definition phase_ok (versions : gmap (string * Z) (list ascii)) (acks : list acknowledged) (ph : phase) : Prop :=
  match ph with
  | Stopped _ => True
  | Uploading r => run_ok versions acks r
  | Completing r => run_ok versions acks r ∧ run_uploadErr r = None ∧ held r = []
  | Removing r => (0 < run_size r)%Z → mt_onProgress (run_tracker r) ≠ None →
      tracker_inv (run_tracker r) ∧ mt_lastReportedSoFar (run_tracker r) = run_size r
  end.
Record machine_ok (m : machine) : Prop := {
  mi_files path f : m_files m !! path = Some f →
    m_versions m !! (path, fv_ModUnixNano f) = Some (fv_content f) ∧ (fv_Size f < max_file_size)%Z;
  mi_disk s : m_disk m = Some s → ∃ content, state_ok (m_versions m) (m_acks m) s content;
  mi_completions : Forall (completion_ok (m_acks m)) (m_completions m);
  mi_phase : phase_ok (m_versions m) (m_acks m) (m_phase m) }.

Lemma machine_ok_phase m ph : machine_ok m → phase_ok (m_versions m) (m_acks m) ph → machine_ok (set_phase m ph).
Proof. by intros [] ?. Qed.
Lemma machine_ok_disk m d : machine_ok m →
  (∀ s, d = Some s → ∃ content, state_ok (m_versions m) (m_acks m) s content) → machine_ok (set_disk m d).
Proof. by intros [] ?. Qed.

(** The bytes of recorded parts, counted without overflow. *)
Lemma sum_parts_bound size l : file_chunking size → NoDup l → (∀ p, p ∈ l → p ∈ file_parts size) →
  (0 <= sumZ (map (file_part_size size) l) <= size)%Z.
Proof.
  intros Hc Hnd Hl.
  assert (Hpos : ∀ l', (∀ p, p ∈ l' → p ∈ file_parts size) → (0 <= sumZ (map (file_part_size size) l'))%Z).
  { intros l' Hl'. apply sumZ_nonneg, Forall_map, Forall_forall. intros q Hq. simpl.
    pose proof (file_part_size_pos size q Hc (Hl' q Hq)). lia. }
  split; [by apply Hpos|]. destruct (submseteq_Permutation l (file_parts size)) as [rest Hrest]; [by apply NoDup_submseteq|].
  pose proof (part_sizes_sum size Hc) as Hsum. rewrite Hrest, map_app, sumZ_app in Hsum.
  assert (0 <= sumZ (map (file_part_size size) rest))%Z; [|lia]. apply Hpos. intros p Hp. rewrite Hrest. set_solver.
Qed.
Lemma completedMultipartBytes_sum s size : file_chunking size →
  (∀ p, is_Some (us_Completed s !! p) → p ∈ file_parts size) →
  completedMultipartBytes s size (OptimalChunkSize size) = sumZ (map (file_part_size size) (map_to_list (us_Completed s)).*1).
Proof.
  intros Hc. unfold completedMultipartBytes. cbv zeta.
  apply (map_fold_weak_ind (λ total (c : gmap Z string), (∀ p, is_Some (c !! p) → p ∈ file_parts size) →
    total = sumZ (map (file_part_size size) (map_to_list c).*1))).
  - intros _. by rewrite map_to_list_empty.
  - intros p e c total Hp IH Hall.
    assert (Hall' : ∀ q, is_Some (c !! q) → q ∈ file_parts size).
    { intros q Hq. apply Hall. rewrite lookup_insert_ne; [done|]. intros ->. rewrite Hp in Hq. by destruct Hq. }
    specialize (IH Hall'). assert (Hpp : p ∈ file_parts size) by (apply Hall; by rewrite lookup_insert_eq).
    assert (Hperm : (map_to_list (<[p:=e]> c)).*1 ≡ₚ p :: (map_to_list c).*1) by (by rewrite map_to_list_insert).
    pose proof (sum_parts_bound size (map_to_list (<[p:=e]> c)).*1 Hc (NoDup_fst_map_to_list _)) as Hb.
    assert (0 <= sumZ (map (file_part_size size) (map_to_list (<[p:=e]> c)).*1) <= size)%Z as Hb'.
    { apply Hb. intros q Hq. rewrite Hperm in Hq. apply elem_of_cons in Hq as [->|Hq]; [done|]. apply Hall'.
      apply list_elem_of_fmap in Hq as ([q' e'] & -> & Hq%elem_of_map_to_list). by exists e'. }
    rewrite Hperm in Hb' |- *. pose proof (file_part_size_pos size p Hc Hpp) as [? _]. unfold file_part_size in *.
    rewrite (proj2 (Z.ltb_lt _ _)) by lia. rewrite IH.
    assert (sumZ (map (file_part_size size) (p :: (map_to_list c).*1)) =
      file_part_size size p + sumZ (map (file_part_size size) (map_to_list c).*1))%Z as Hcons by done.
    unfold file_part_size in *. rewrite Hcons in *. destruct Hc as (?&?&?). rewrite wrap64_id by (unfold int64; lia). lia.
Qed.

(** A checkpoint that matches the request speaks about the file as it is. *)
Lemma start_run_ok progress oid versions acks req f st : state_ok versions acks st (fv_content f) →
  us_ObjectKey st = effectiveObjectKey req → us_FileSize st = fv_Size f →
  run_ok versions acks (start_run progress oid req f st).
Proof.
  intros Hst Hkey Hsize. pose proof (state_ok_chunking _ _ _ _ Hst) as Hc.
  set (r := start_run _ _ _ _ _). set (parts := file_parts (us_FileSize st)).
  assert (Hdom : ∀ p, is_Some (us_Completed st !! p) → p ∈ parts) by (intros p [e He]; by destruct (so_completed _ _ _ _ Hst p e He)).
  assert (Hheld : held r = filter (λ p, us_Completed st !! p = None) parts).
  { unfold held, r. simpl. rewrite app_nil_r. unfold parts. by rewrite Hsize. }
  assert (Hperm : parts ≡ₚ (map_to_list (us_Completed st)).*1 ++ held r).
  { apply NoDup_Permutation; [apply NoDup_seqZ| |].
    - apply NoDup_app. split_and!; [apply NoDup_fst_map_to_list| |rewrite Hheld; apply NoDup_filter, NoDup_seqZ].
      intros p ([q e] & -> & Hq%elem_of_map_to_list)%list_elem_of_fmap. rewrite Hheld, list_elem_of_filter. simpl. rewrite Hq. by intros [].
    - intros p. rewrite elem_of_app, Hheld, list_elem_of_filter, list_elem_of_fmap. destruct (us_Completed st !! p) as [e|] eqn:E.
      + split; [|intros _; apply Hdom; by exists e]. intros _. left. exists (p, e). by rewrite elem_of_map_to_list.
      + split; [by right|]. intros [([q e] & -> & Hq%elem_of_map_to_list)|[]]; [simpl in *; congruence|done]. }
  pose proof (part_sizes_sum _ Hc) as Hsum. fold parts in Hsum. rewrite Hperm, map_app, sumZ_app in Hsum.
  assert (Hin : Forall (λ p, p ∈ parts) (held r)) by (apply Forall_forall; intros p; rewrite Hheld, list_elem_of_filter; tauto).
  constructor; try done.
  - rewrite Hheld. apply NoDup_filter, NoDup_seqZ.
  - intros p _ Hp. unfold run_size in Hp. simpl in Hp. fold parts in Hp. rewrite Hperm in Hp.
    apply elem_of_app in Hp as [([q e] & -> & Hq%elem_of_map_to_list)%list_elem_of_fmap|?]; [right; by exists e|by left].
  - by repeat constructor.
  - by intros p [? _]%elem_of_replicate.
  - by intros [? _]%elem_of_replicate.
  - pose proof (completedMultipartBytes_sum st _ Hc Hdom) as Hcm.
    assert (Hnn : (0 <= sumZ (map (file_part_size (us_FileSize st)) (held r)))%Z).
    { apply (sum_parts_bound _ _ Hc); [rewrite Hheld; apply NoDup_filter, NoDup_seqZ|]. by apply Forall_forall. }
    assert (Hnn' : (0 <= completedMultipartBytes st (us_FileSize st) (OptimalChunkSize (us_FileSize st)))%Z).
    { rewrite Hcm. apply (sum_parts_bound _ _ Hc); [apply NoDup_fst_map_to_list|].
      intros p ([q e] & -> & Hq%elem_of_map_to_list)%list_elem_of_fmap. apply Hdom. by exists e. }
    pose proof Hc as (?&?&?). change (run_tracker r) with (set_committed (newMultipartProgressTracker progress oid (fv_Size f))
      (completedMultipartBytes st (fv_Size f) (OptimalChunkSize (fv_Size f)))).
    change (run_size r) with (us_FileSize st). clearbody r. rewrite <- Hsize.
    set (c0 := completedMultipartBytes _ _ _) in *.
    constructor; cbn [mt_total mt_committed mt_active set_committed newMultipartProgressTracker].
    + apply tracker_inv_start. unfold int64. lia.
    + reflexivity.
    + intros ?. split; [done|constructor].
    + lia.
    + intros _. lia.
    + intros p _ [x Hx]. by rewrite lookup_empty in Hx.
Qed.

Lemma start_upload_ok progress oid m req init o : machine_ok m → machine_ok (start_upload progress oid m req init o).
Proof.
  intros Hm. unfold start_upload. destruct (m_files m !! SourcePath req) as [f|] eqn:Hf; [|by apply machine_ok_phase].
  destruct (mi_files _ Hm _ _ Hf) as [Hver Hsmall].
  assert (Hnew : ∀ uploadID, state_ok (m_versions m) (m_acks m) (new_state req f uploadID) (fv_content f)).
  { intros uploadID. constructor; simpl; try done. }
  cbv zeta. destruct (st ← m_disk m; _) as [st|] eqn:Hres.
  - apply bind_Some in Hres as (st0 & Hdisk & Hmatch). destruct (matches _ _ _ _) eqn:Hma; simplify_eq.
    unfold matches in Hma. rewrite !andb_true_iff, !bool_decide_eq_true in Hma.
    destruct Hma as [[[[[[[_ _] Hmod] Hpath] _] Hkey] Hsize] _].
    destruct (mi_disk _ Hm _ Hdisk) as [content Hst]. pose proof (so_version _ _ _ _ Hst) as Hv.
    rewrite Hpath, Hmod, Hver in Hv. simplify_eq. apply machine_ok_phase; [done|]. simpl. by apply start_run_ok.
  - destruct init as [uploadID|e]; [|by apply machine_ok_phase].
    destruct o; simpl; (apply machine_ok_phase; [apply machine_ok_disk; [done|]|]); try done.
    + intros s [= <-]. exists (fv_content f). apply Hnew.
    + simpl. apply start_run_ok; [apply Hnew|done|done].
    + intros s Hs. by apply (mi_disk _ Hm).
Qed.
(** The final report, when the callback accepts it. *)
Lemma CompleteUpload_reports t size t' : (0 < size)%Z → int64 size → tracker_ok t size [] True → mt_onProgress t ≠ None →
  CompleteUpload t = (t', None) → tracker_inv t' ∧ mt_lastReportedSoFar t' = size.
Proof.
  intros Hs Hi [Hinv Ht Hq _ Hcm Ha] Hcb He. destruct (Hq Hs) as [Hlast _]. specialize (Hcm I). simpl in Hcm. unfold sumZ in Hcm. simpl in Hcm.
  assert (Hact : mt_active t = ∅).
  { apply map_empty. intros p. destruct (mt_active t !! p) as [b|] eqn:E; [|done]. assert (Hp : p ∈ []) by (apply Ha; [done|by exists b]). by apply elem_of_nil in Hp. }
  unfold CompleteUpload in He. destruct (bool_decide _) eqn:Eb; [by apply bool_decide_eq_true in Eb|].
  split; [by eapply emitLocked_inv|]. unfold emitLocked, currentVisibleLocked in He.
  destruct (mt_onProgress t) as [cb|]; [|done]. rewrite Hact, map_fold_empty in He. simpl in He.
  pose proof (ti_last _ Hinv) as [? ?].
  rewrite (proj2 (Z.ltb_ge _ _)) in He by lia. rewrite wrap64_id in He by (unfold int64 in *; lia).
  rewrite (proj2 (Z.leb_gt _ _)) in He by lia. unfold call in He. destruct (cb _); simplify_eq. simpl. lia.
Qed.
Lemma fire_ok progress oid m ev m' : machine_ok m → fire progress oid m ev = Some m' → machine_ok m'.
Proof.
  intros Hm Hf. pose proof (mi_phase _ Hm) as Hph.
  assert (Hin : ∀ (f : run → option run), (∀ r r', run_ok (m_versions m) (m_acks m) r → f r = Some r' → run_ok (m_versions m) (m_acks m) r') →
    in_run m f = Some m' → machine_ok m').
  { intros f Hstep Hr. unfold in_run in Hr. destruct (m_phase m) as [|r| |]; try done.
    destruct (f r) as [r'|] eqn:E; simplify_eq/=. apply machine_ok_phase; [done|]. by apply (Hstep r). }
  destruct ev as [path f| | |req init o|i|i|i|i n|i etag|i e|i|i o|i| |err|ok]; simpl in Hf.
  - destruct (m_phase m) eqn:Hphase; try done. case_match eqn:E; simplify_eq.
    apply andb_true_iff in E as [E%bool_decide_eq_true Hsmall%Z.ltb_lt].
    assert (Hmono : ∀ k c, m_versions m !! k = Some c → <[(path, fv_ModUnixNano f):=fv_content f]> (m_versions m) !! k = Some c).
    { intros k c Hk. rewrite lookup_insert_ne; [done|]. intros <-. by rewrite E in Hk. }
    destruct Hm. constructor; simpl; try done.
    + intros path' f' [[<- <-]|[Hne Hp]]%lookup_insert_Some; [by rewrite lookup_insert_eq|].
      destruct (mi_files0 _ _ Hp) as [Hv ?]. split; [by apply Hmono|done].
    + intros s Hs. destruct (mi_disk0 s Hs) as [c Hc]. exists c. by eapply state_ok_mono.
  - simplify_eq. by apply machine_ok_disk.
  - simplify_eq. by apply machine_ok_phase.
  - destruct (m_phase m) eqn:Hphase; try done. simplify_eq. by apply start_upload_ok.
  - destruct (m_phase m); try done. eapply Hin; [|exact Hf]. intros r1 r2. apply receive_ok.
  - destruct (m_phase m); try done. eapply Hin; [|exact Hf]. intros r1 r2. apply begin_ok.
  - destruct (m_phase m); try done. eapply Hin; [|exact Hf]. intros r1 r2. apply cancel_ok.
  - destruct (m_phase m); try done. eapply Hin; [|exact Hf]. intros r1 r2. apply read_ok.
  - destruct (m_phase m) as [|r| |]; try done. apply bind_Some in Hf as ([r' a] & Hp & [= <-]).
    pose proof (part_ok_ok _ _ _ _ _ _ _ Hph Hp) as Hr. destruct Hm. constructor; simpl; try done.
    + intros s Hs. destruct (mi_disk0 s Hs) as [c Hc]. exists c. eapply state_ok_mono; [..|done]; [done|set_solver].
    + eapply Forall_impl; [done|]. intros c. apply completion_ok_mono. set_solver.
  - destruct (m_phase m); try done. eapply Hin; [|exact Hf]. intros r1 r2. apply part_err_ok.
  - destruct (m_phase m); try done. eapply Hin; [|exact Hf]. intros r1 r2. apply flush_ok.
  - destruct (m_phase m) as [|r| |]; try done. apply bind_Some in Hf as ([r' d] & Hp & [= <-]).
    destruct (record_ok _ _ _ _ _ _ _ _ Hph Hp) as [Hr Hd]. apply machine_ok_phase; [|done].
    apply machine_ok_disk; [done|]. intros s Hs. destruct Hd as [->|[->| ->]]; [by apply (mi_disk _ Hm)|done|].
    simplify_eq. eexists. apply Hr.
  - destruct (m_phase m); try done. eapply Hin; [|exact Hf]. intros r1 r2. apply report_ok.
  - destruct (m_phase m) as [|r| |]; try done. unfold wait_workers in Hf. destruct (forallb _ _) eqn:Hdone; [|done].
    destruct (run_uploadErr r) eqn:He; simplify_eq; [by apply machine_ok_phase|].
    pose proof (done_held _ _ _ Hph Hdone He) as Hheld. destruct Hm. constructor; simpl; try done.
    apply Forall_app. split; [done|]. apply Forall_singleton. by eapply completion_ok_run.
  - destruct (m_phase m) as [| |r|]; try done. simplify_eq. unfold completed. destruct err; [by apply machine_ok_phase|].
    destruct (CompleteUpload _) as [t [e|]] eqn:Hcu; (apply machine_ok_phase; [done|]); [done|].
    destruct Hph as (Hr & He & Hheld). simpl. intros Hpos Hcb. pose proof (run_chunking _ _ r Hr) as Hc.
    eapply CompleteUpload_reports; [exact Hpos| | | |exact Hcu].
    + destruct Hc as (?&?&?). unfold int64. unfold run_size in *. simpl in *. lia.
    + eapply tracker_ok_weaken; [exact Hc|apply Hr|done|apply Hr|exists []; by rewrite Hheld|by rewrite Hheld].
    + intros Hnone. apply Hcb. unfold CompleteUpload in Hcu. rewrite bool_decide_eq_true_2 in Hcu by done. by simplify_eq.
  - destruct (m_phase m) as [| | |r]; try done. simplify_eq. unfold removed. destruct ok; apply machine_ok_phase; try done. by apply machine_ok_disk.
Qed.
Lemma reachable_ok progress oid m : reachable progress oid m → machine_ok m.
Proof.
  induction 1; [|by eapply fire_ok]. constructor; simpl; try done; intros; by rewrite ?lookup_empty in *.
Qed.

(** ** Every run ends
    A bound on the steps that are left: each part has six attempts, each attempt reads the part at most once. *)
Section work.
Context (progress : option ProgressCallback) (oid : string).
Implicit Types r : run.

Definition attempt_cost r p : nat := Z.to_nat (run_partSize r p) + 5.
Definition stage_cost r p (s : stage) : nat :=
  match s with
  | Starting => attempt_cost r p
  | Sending read _ => Z.to_nat (run_partSize r p - read) + 4
  | Flushing _ _ => 3 | Recording _ => 2 | Reporting => 1
  end.
Definition worker_cost r (w : worker) : nat :=
  match w with
  | Receiving => 1
  | Working p k s => 1 + Z.to_nat (MaxRetryCount - k) * attempt_cost r p + stage_cost r p s
  | Finished | Failed _ => 0
  end.
Definition queue_cost r p : nat := 1 + 6 * attempt_cost r p.
Definition run_cost r : nat := list_sum (map (queue_cost r) (run_queue r)) + list_sum (map (worker_cost r) (run_workers r)).
Definition work (m : machine) : nat :=
  match m_phase m with Stopped _ => 0 | Removing _ => 1 | Completing _ => 2 | Uploading r => 3 + run_cost r end.
(** Events of a run: steps of the workers, of the backend and of the main goroutine. *)
Definition run_event (ev : event) : bool :=
  match ev with EvWrite _ _ | EvExpire | EvCrash | EvStart _ _ _ => false | _ => true end.

Lemma list_sum_insert {A} (f : A → nat) l i x y : l !! i = Some x →
  list_sum (map f (<[i:=y]> l)) + f x = list_sum (map f l) + f y.
Proof.
  revert i. induction l as [|z l IH]; intros [|i] Hi; simplify_eq/=; [lia|]. specialize (IH i Hi). lia.
Qed.
(** A move of one worker that leaves the sizes and the channel alone. *)
Lemma run_cost_move r r' i w w' : run_workers r !! i = Some w → run_workers r' = <[i := w']> (run_workers r) →
  run_queue r' = run_queue r → (∀ p, run_partSize r' p = run_partSize r p) →
  worker_cost r w' < worker_cost r w → run_cost r' < run_cost r.
Proof.
  intros Hi Hw Hq Hs Hlt. unfold run_cost. rewrite Hw, Hq.
  assert (Hc : ∀ x, worker_cost r' x = worker_cost r x).
  { intros [|p k s| |]; try done. simpl. unfold attempt_cost. rewrite Hs. destruct s; simpl; unfold attempt_cost; by rewrite ?Hs. }
  assert (Hqc : ∀ p, queue_cost r' p = queue_cost r p) by (intros p; unfold queue_cost, attempt_cost; by rewrite Hs).
  rewrite (map_ext _ _ Hc), (map_ext _ _ Hqc). pose proof (list_sum_insert (worker_cost r) _ i w w' Hi). lia.
Qed.
Lemma attempt_ends_cost r r0 i p k s e : run_workers r0 !! i = Some (Working p k s) → run_workers r = run_workers r0 →
  run_queue r = run_queue r0 → (∀ q, run_partSize r q = run_partSize r0 q) →
  run_cost (attempt_ends r i p k e) < run_cost r0.
Proof.
  intros Hi Hw Hq Hs. unfold attempt_ends, retry_verdict.
  assert (Hpos : 1 <= stage_cost r0 p s) by (destruct s; simpl; unfold attempt_cost; lia).
  assert (Hgo : ∀ r1 w', run_workers r1 = run_workers r0 → run_queue r1 = run_queue r0 → (∀ q, run_partSize r1 q = run_partSize r0 q) →
    worker_cost r0 w' < worker_cost r0 (Working p k s) → run_cost (set_worker r1 i w') < run_cost r0).
  { intros r1 w' Hw1 Hq1 Hs1 Hlt. eapply run_cost_move; [exact Hi| | | |exact Hlt]; [simpl; by rewrite Hw1|done..]. }
  destruct e as [e|]; [destruct (As_nonRetryable e); [|destruct (Z.leb_spec (k + 1) MaxRetryCount)]|];
    apply Hgo; try done; simpl.
  1, 3, 4: generalize (Z.to_nat (MaxRetryCount - k) * attempt_cost r0 p) as c; intros c; lia.
  replace (Z.to_nat (MaxRetryCount - k)) with (S (Z.to_nat (MaxRetryCount - (k + 1)))) by lia. simpl.
  generalize (Z.to_nat (MaxRetryCount - (k + 1)) * attempt_cost r0 p) as c. intros c. lia.
Qed.
Lemma in_run_work (f : run → option run) m m' : (∀ r r', f r = Some r' → run_cost r' < run_cost r) →
  in_run m f = Some m' → work m' < work m.
Proof.
  intros Hf Hin. unfold in_run, work in *. destruct (m_phase m) as [|r| |]; try done.
  destruct (f r) as [r'|] eqn:E; simplify_eq/=. apply Hf in E. lia.
Qed.
Ltac move_worker Hi :=
  eapply run_cost_move; [exact Hi|done..|simpl; unfold attempt_cost; rewrite ?Z.sub_0_r;
    repeat match goal with |- context [?a * ?b] => generalize (a * b); intros ? end; lia].
Ltac one_worker Hf :=
  match type of Hf with context [run_workers ?r !! ?i] => destruct (run_workers r !! i) as [[|p k []| |]|] eqn:Hi; try done end.
Lemma fire_work m ev m' : run_event ev = true → fire progress oid m ev = Some m' → work m' < work m.
Proof.
  intros Hev Hf. destruct ev as [| | | |i|i|i|i n|i etag|i e|i|i o|i| |err|ok]; try done; simpl in Hf.
  all: destruct (m_phase m) as [|r|r|r] eqn:Hph; try done.
  all: try (eapply in_run_work; [|exact Hf]; clear Hf; intros r1 r2 Hf).
  - unfold receive in Hf. one_worker Hf. destruct (run_queue r1) as [|p q] eqn:Hq; simplify_eq.
    + move_worker Hi.
    + set (w := Working p 0 Starting). set (r2 := set_worker _ _ _).
      assert (Hw : worker_cost r1 w = queue_cost r1 p) by (unfold w, queue_cost; simpl; lia).
      pose proof (list_sum_insert (worker_cost r1) _ i Receiving w Hi) as Hsum. simpl in Hsum.
      unfold run_cost. change (run_workers r2) with (<[i:=w]> (run_workers r1)). change (run_queue r2) with q.
      change (worker_cost r2) with (worker_cost r1). change (queue_cost r2) with (queue_cost r1). rewrite Hq. simpl. lia.
  - unfold begin_attempt in Hf. one_worker Hf. simplify_eq. move_worker Hi.
  - unfold cancel_wait in Hf. one_worker Hf. case_match; simplify_eq. move_worker Hi.
  - unfold read_part in Hf. one_worker Hf. case_match eqn:E; [|done]. apply andb_true_iff in E as [?%Z.leb_le ?%Z.leb_le].
    destruct (part_Read _ _ _ _) as [[t pd] e]. simplify_eq. move_worker Hi.
  - apply bind_Some in Hf as ([r' a] & Hf & [= <-]). unfold part_ok in Hf. one_worker Hf. simplify_eq.
    unfold work. rewrite Hph. simpl. apply -> Nat.succ_lt_mono. apply -> Nat.succ_lt_mono. apply -> Nat.succ_lt_mono.
    move_worker Hi.
  - unfold part_err in Hf. one_worker Hf. simplify_eq. by eapply attempt_ends_cost.
  - unfold flush_part in Hf. one_worker Hf. destruct (part_FlushPendingProgress _ _ _) as [[t pd] [e|]]; simplify_eq.
    + by eapply attempt_ends_cost.
    + move_worker Hi.
  - apply bind_Some in Hf as ([r' d] & Hf & [= <-]). unfold record_part in Hf. one_worker Hf.
    unfold work. rewrite Hph. simpl. apply -> Nat.succ_lt_mono. apply -> Nat.succ_lt_mono. apply -> Nat.succ_lt_mono.
    destruct o; simpl in Hf; injection Hf as <- <-; [move_worker Hi| |]; by apply (attempt_ends_cost _ r i p k (Recording etag)).
  - unfold report_part in Hf. one_worker Hf. destruct (CompletePart _ _ _) as [t [e|]]; simplify_eq; by eapply attempt_ends_cost.
  - unfold wait_workers in Hf. repeat case_match; simplify_eq; unfold work; rewrite Hph; simpl; lia.
  - simplify_eq. unfold work, completed. rewrite Hph. repeat case_match; simplify_eq/=; lia.
  - simplify_eq. unfold work, removed. rewrite Hph. repeat case_match; simplify_eq/=; lia.
Qed.
(** A run that has not stopped can go on. *)
Lemma fire_enabled m : (∀ res, m_phase m ≠ Stopped res) → ∃ ev, run_event ev = true ∧ is_Some (fire progress oid m ev).
Proof.
  intros Hrun. destruct (m_phase m) as [res|r|r|r] eqn:Hph; [by destruct (Hrun res)| | |].
  - destruct (forallb worker_done (run_workers r)) eqn:Hdone.
    + exists EvWait. split; [done|]. simpl. rewrite Hph. unfold wait_workers. rewrite Hdone. by destruct (run_uploadErr r).
    + assert (∃ i w, run_workers r !! i = Some w ∧ worker_done w = false) as (i & w & Hi & Hw).
      { clear -Hdone. induction (run_workers r) as [|w ws IH]; [done|]. simpl in Hdone. destruct (worker_done w) eqn:E.
        - destruct (IH Hdone) as (i & w' & ? & ?). by exists (S i), w'.
        - by exists 0, w. }
      destruct w as [|p k []| |]; try done.
      * exists (EvReceive i). split; [done|]. simpl. rewrite Hph. unfold in_run, receive. rewrite Hph, Hi. by destruct (run_queue r).
      * exists (EvBegin i). split; [done|]. simpl. rewrite Hph. unfold in_run, begin_attempt. by rewrite Hph, Hi.
      * exists (EvPartErr i (FText "")). split; [done|]. simpl. rewrite Hph. unfold in_run, part_err. by rewrite Hph, Hi.
      * exists (EvFlush i). split; [done|]. simpl. rewrite Hph. unfold in_run, flush_part. rewrite Hph, Hi.
        destruct (part_FlushPendingProgress _ _ _) as [[? ?] []]; by eexists.
      * exists (EvRecord i Saved). split; [done|]. simpl. rewrite Hph. unfold record_part. by rewrite Hi.
      * exists (EvReport i). split; [done|]. simpl. rewrite Hph. unfold in_run, report_part. rewrite Hph, Hi.
        destruct (CompletePart _ _ _) as [? []]; by eexists.
  - exists (EvComplete None). split; [done|]. simpl. by rewrite Hph.
  - exists (EvRemove true). split; [done|]. simpl. by rewrite Hph.
Qed.
Lemma execute_cons m ev evs : execute progress oid m (ev :: evs) = m1 ← fire progress oid m ev; execute progress oid m1 evs.
Proof. unfold execute. simpl. destruct (fire progress oid m ev); [done|]. simpl. induction evs; [done|]. by simpl. Qed.
Lemma execute_reachable evs : reachable progress oid (default initial_machine (execute progress oid initial_machine evs)).
Proof.
  assert (H : ∀ m, reachable progress oid m → ∀ m', execute progress oid m evs = Some m' → reachable progress oid m').
  { induction evs as [|ev evs IH]; intros m Hm m' He; [by injection He as <-|]. rewrite execute_cons in He.
    apply bind_Some in He as (m1 & Hf & He). eapply IH; [|exact He]. by eapply reach_fire. }
  destruct (execute _ _ _ evs) as [m'|] eqn:E; simpl; [eapply H; [constructor|done]|constructor].
Qed.
End work.

(** ** Claims *)

(** C3 In every execution (any interleaving of the workers, any failures of the backend, of the checkpoint and of
    the callback, any crashes, resumed runs and changes of the files in between), whenever MultipartComplete
    is called its parts are numbered 1 to n in order, each one was acknowledged by the backend under the same
    key and upload id with that ETag, and the bytes sent in them, one after the other, are the content of the file
    of this run. *)
Theorem completions_reassemble progress oid m c : reachable progress oid m → c ∈ m_completions m →
  map PartNumber (co_parts c) = seqZ 1 (Z.of_nat (length (co_parts c))) ∧
  ∃ datas, concat datas = co_content c ∧
    Forall2 (λ part data, mkAck (co_key c) (co_uploadID c) (PartNumber part) (ETag part) data ∈ m_acks m) (co_parts c) datas.
Proof.
  intros Hm Hc. pose proof (mi_completions _ (reachable_ok _ _ _ Hm)) as Hall. rewrite Forall_forall in Hall.
  by destruct (Hall c Hc).
Qed.

(** One worker sends the part of a small file with one failed attempt, the program crashes after the
    checkpoint, and a second run completes the upload. *)
Definition sample_file : file_version := mkFile (String.list_ascii_of_string "hello") 7.
Definition sample_request : TransferRequest := mkTransferRequest "/data/f" " " "guid" "bucket" true.
Definition sample_progress : option ProgressCallback := Some (λ _, None).
Definition sample_events : list event :=
  [EvWrite "/data/f" sample_file; EvStart sample_request (inl "u1") Saved;
   EvReceive 0; EvBegin 0; EvRead 0 3; EvPartErr 0 (FText "timeout"); EvBegin 0; EvRead 0 5; EvPartOk 0 "etag"; EvFlush 0;
   EvRecord 0 Saved; EvCrash; EvStart sample_request (inr (FText "unused")) Saved] ++
  map EvReceive (seq 0 10) ++ [EvWait; EvComplete None].
Definition sample_machine : machine := default initial_machine (execute sample_progress "oid" initial_machine sample_events).
Lemma completions_reassemble_witness :
  m_completions sample_machine = [mkCompletion "guid" "u1" [mkPart 1 "etag"] (String.list_ascii_of_string "hello")] ∧
  ∃ datas, concat datas = String.list_ascii_of_string "hello" ∧
    Forall2 (λ part data, mkAck "guid" "u1" (PartNumber part) (ETag part) data ∈ m_acks sample_machine) [mkPart 1 "etag"] datas.
Proof.
  assert (H : m_completions sample_machine = [mkCompletion "guid" "u1" [mkPart 1 "etag"] (String.list_ascii_of_string "hello")])
    by (vm_compute; reflexivity).
  split; [exact H|].
  apply (completions_reassemble sample_progress "oid" sample_machine (mkCompletion "guid" "u1" [mkPart 1 "etag"] (String.list_ascii_of_string "hello")));
    [apply execute_reachable|rewrite H; by left].
Defined.

(** When an upload of a file that is not empty has completed, the accepted progress reports form one
    increasing sequence from 0 whose last one announces the whole file, and its deltas add up to that size. *)
Theorem finished_upload_reported progress oid m r : reachable progress oid m → m_phase m = Removing r →
  (0 < run_size r)%Z → mt_onProgress (run_tracker r) ≠ None →
  let events := accepted (mt_calls (run_tracker r)) in
  reports_from 0 events ∧ reported 0 events = run_size r ∧ foldr Z.add 0%Z (BytesSinceLast <$> events) = run_size r.
Proof.
  intros Hm Hph Hs Hcb. pose proof (mi_phase _ (reachable_ok _ _ _ Hm)) as Hp. rewrite Hph in Hp. simpl in Hp.
  destruct (Hp Hs Hcb) as [Hinv Hlast]. pose proof (ti_reports _ Hinv) as Hr.
  assert (Hrep : reported 0 (accepted (mt_calls (run_tracker r))) = run_size r) by (rewrite <- Hlast; apply Hinv).
  split_and!; [done..|]. pose proof (reports_from_sum _ _ Hr) as Hsum. lia.
Qed.
Definition sample_run : run := match m_phase sample_machine with Removing r => r | _ => start_run None "" sample_request sample_file (new_state sample_request sample_file "") end.
Lemma finished_upload_reported_witness : run_size sample_run = 5%Z ∧
  foldr Z.add 0%Z (BytesSinceLast <$> accepted (mt_calls (run_tracker sample_run))) = run_size sample_run.
Proof.
  assert (Hph : m_phase sample_machine = Removing sample_run) by (unfold sample_run; vm_compute; reflexivity).
  split; [vm_compute; reflexivity|].
  apply (finished_upload_reported sample_progress "oid" sample_machine sample_run); [apply execute_reachable|exact Hph|by vm_compute|].
  intros H. apply (f_equal (λ o, match o with Some _ => true | None => false end)) in H. vm_compute in H. discriminate.
Defined.

(** Every run of the uploader ends.  Its steps (of the workers, of the backend and of the main goroutine) are
    bounded by a number fixed when it starts, and as long as it has not stopped some step is possible: the workers do not
    wait for each other. *)
Theorem upload_run_ends progress oid m evs m' : Forall (λ ev, run_event ev = true) evs →
  execute progress oid m evs = Some m' →
  length evs <= work m ∧
  ((∃ result, m_phase m' = Stopped result) ∨ ∃ ev, run_event ev = true ∧ is_Some (fire progress oid m' ev)).
Proof.
  intros Hevs He. split.
  - assert (length evs + work m' <= work m); [|lia]. revert m He. induction Hevs as [|ev evs Hev Hevs IH]; intros m He.
    + by injection He as ->.
    + rewrite execute_cons in He. apply bind_Some in He as (m1 & Hf & He). apply IH in He. apply fire_work in Hf; [|done]. simpl. lia.
  - destruct (m_phase m') as [res|r|r|r] eqn:Hph; [left; by exists res|right..]; apply fire_enabled; by rewrite Hph.
Qed.
Lemma upload_run_ends_witness :
  length (map EvReceive (seq 0 10)) <= work (default initial_machine (execute sample_progress "oid" initial_machine
    [EvWrite "/data/f" sample_file; EvStart sample_request (inl "u1") Saved])).
Proof.
  set (m := default _ _).
  assert (H : is_Some (execute sample_progress "oid" m (map EvReceive (seq 0 10)))) by (vm_compute; by eexists).
  destruct H as [m' H]. apply (upload_run_ends sample_progress "oid" m _ m'); [by repeat constructor|exact H].
Defined.
