(* ===== verification/SingleUpload.v ===== *)
(** * The single-stream upload
    Upload and uploadSingle of client/transfer/engine/uploader.go: the choice between one stream and parts, and the
    upload of a small file under the retry policy with its progress reports. *)
From S2P Require Import Prelude Transfer Progress Upload.

(** Upload: which way a file goes. *)
Definition Upload_multipart (req : TransferRequest) (size : Z) : bool :=
  ForceMultipart req || (FileSizeLimit <=? size)%Z.

(** What one attempt meets: the result of Seek, the reads of the body by the backend, and its result. *)
Record single_attempt := mkAttempt { sa_seek : option failure; sa_reads : list Z; sa_result : option failure }.
Definition single_action (script : nat → single_attempt) (s : nat * progressReader) : (nat * progressReader) * option failure :=
  let '(k, pr) := s in
  let a := script k in
  match sa_seek a with
  | Some e => ((S k, pr), Some e)
  | None =>
      let pr := foldl (λ pr n, (pr_Read pr n).1) (ResetForRetry pr) (sa_reads a) in
      match sa_result a with
      | Some err => ((S k, pr), Some (if isProgressCallbackError err then NonRetryable err else err))
      | None =>
          match pr_Complete pr with
          | (pr, Some finalizeErr) => ((S k, pr), Some (NonRetryable finalizeErr))
          | (pr, None) => ((S k, pr), None)
          end
      end
  end.
(** [resolve] is the error of ResolveUploadURL, when the backend resolves URLs.  Without a callback the reader
    of the code is the file itself; the reader of the model then reports nothing. *)
Definition uploadSingle (progress : option ProgressCallback) (oid : string) (size : Z) (resolve : option failure)
    (done : Z → bool) (script : nat → single_attempt) : calls * option failure :=
  match resolve with
  | Some e => ([], Some e)
  | None =>
      let '((_, pr), _, err) := RetryAction DefaultBackoff done MaxRetryCount (single_action script) (0, newProgressReader progress oid size) in
      (pr_calls pr, err)
  end.


(** ** Reports of a single upload *)
Lemma pr_emit_frame pr final : pr_onProgress (pr_emit pr final).1 = pr_onProgress pr ∧ pr_localBytes (pr_emit pr final).1 = pr_localBytes pr.
Proof.
  unfold pr_emit. destruct (pr_onProgress pr) as [cb|] eqn:E; [|by rewrite ?E]. cbv zeta. case_match; [by rewrite ?E|].
  destruct (call _ _ _) as [cs [e|]]; simpl; by rewrite ?E.
Qed.
Lemma pr_emit_rejected pr final pr' e : pr_emit pr final = (pr', Some e) → pr_lastReportedSoFar pr' = pr_lastReportedSoFar pr.
Proof.
  unfold pr_emit. destruct (pr_onProgress pr); [|done]. cbv zeta. case_match; [done|].
  destruct (call _ _ _) as [cs [e'|]]; intros; by simplify_eq/=.
Qed.

Section single.
Context (progress : option ProgressCallback) (total : Z) (script : nat → single_attempt).
Context (Hpos : (0 < total)%Z) (Hi : int64 total).

Definition reading (pr : progressReader) : Prop :=
  reader_inv pr ∧ pr_total pr = total ∧ reader_not_announced pr ∧ pr_onProgress pr = progress.
Lemma reading_reset pr : reading pr → reading (ResetForRetry pr).
Proof.
  intros (Hinv & Ht & Hn & Hp). destruct (reader_step_inv pr OpResetForRetry Hinv) as (? & ? & Hn').
  split_and!; [done|by simpl|by apply Hn'|done].
Qed.
Lemma reading_read pr n : reading pr → reading (pr_Read pr n).1.
Proof.
  intros (Hinv & Ht & Hn & Hp). destruct (reader_step_inv pr (OpRead n) Hinv) as (Hinv' & Ht' & Hn').
  split_and!; [done|by rewrite <- Ht|by apply Hn'|]. unfold pr_Read. case_match; [|done]. case_match; [|done].
  by rewrite (proj1 (pr_emit_frame _ _)).
Qed.
Lemma pr_Read_local pr n : (0 < n)%Z → pr_onProgress pr ≠ None → pr_localBytes (pr_Read pr n).1 = wrap64 (pr_localBytes pr + n).
Proof.
  intros Hn Hp. unfold pr_Read. rewrite (proj2 (Z.ltb_lt 0 n)) by done. rewrite bool_decide_eq_false_2 by done. simpl.
  case_match; [|done]. by rewrite (proj2 (pr_emit_frame _ _)).
Qed.
(** The reads of one attempt. *)
Lemma reading_reads reads pr : reading pr →
  let pr' := foldl (λ pr n, (pr_Read pr n).1) pr reads in
  reading pr' ∧ (progress ≠ None → Forall (Z.lt 0) reads → (0 <= pr_localBytes pr)%Z →
    (pr_localBytes pr + foldr Z.add 0 reads < 2 ^ 63)%Z → pr_localBytes pr' = (pr_localBytes pr + foldr Z.add 0 reads)%Z).
Proof.
  revert pr. induction reads as [|n reads IH]; intros pr Hr; simpl; [split; [done|lia]|].
  destruct (IH _ (reading_read pr n Hr)) as [Hr' Hloc]. split; [done|]. intros Hp [Hn Hreads]%Forall_cons Hl Hmax.
  assert (Hsum : (0 <= foldr Z.add 0 reads)%Z) by (clear -Hreads; induction Hreads; simpl; lia).
  rewrite pr_Read_local in Hloc by (done || by destruct Hr as (_ & _ & _ & ->)).
  rewrite wrap64_id in Hloc by (unfold int64; lia). rewrite Hloc by (done || lia). lia.
Qed.
(** What the attempt that succeeds leaves. *)
Definition finished (s : nat * progressReader) : Prop :=
  reader_inv s.2 ∧ ∃ k, s.1 = S k ∧ sa_seek (script k) = None ∧ sa_result (script k) = None ∧
    (Forall (Z.lt 0) (sa_reads (script k)) → foldr Z.add 0%Z (sa_reads (script k)) = total →
     progress ≠ None → pr_lastReportedSoFar s.2 = total).
Lemma single_action_fails s s' e : reading s.2 → single_action script s = (s', Some e) → reading s'.2.
Proof.
  destruct s as [k pr]. simpl. intros Hr Ha. unfold single_action in Ha. destruct (sa_seek (script k)); [by simplify_eq|].
  destruct (reading_reads (sa_reads (script k)) _ (reading_reset pr Hr)) as [Hr' _]. set (pr1 := foldl _ _ _) in *.
  destruct (sa_result (script k)); [by simplify_eq|]. unfold pr_Complete in Ha. destruct (pr_emit pr1 true) as [pr2 [fe|]] eqn:E; simplify_eq.
  simpl. destruct Hr' as (Hinv & Ht & Hn & Hp). pose proof (pr_emit_rejected _ _ _ _ E) as Hl.
  destruct (pr_emit_inv _ _ _ _ Hinv E) as (Hinv' & Ht' & _). split_and!; [done|by rewrite Ht'| |].
  - unfold reader_not_announced in *. by rewrite Hl, Ht'.
  - rewrite <- Hp, <- (proj1 (pr_emit_frame pr1 true)), E. done.
Qed.
Lemma single_action_succeeds s s' : reading s.2 → single_action script s = (s', None) → finished s'.
Proof using Hpos Hi.
  destruct s as [k pr]. simpl. intros Hr Ha. unfold single_action in Ha. destruct (sa_seek (script k)) eqn:Hseek; [done|].
  destruct (reading_reads (sa_reads (script k)) _ (reading_reset pr Hr)) as [Hr' Hloc]. set (pr1 := foldl _ _ _) in *.
  destruct (sa_result (script k)) eqn:Hres; [done|]. unfold pr_Complete in Ha. destruct (pr_emit pr1 true) as [pr2 [fe|]] eqn:E; simplify_eq.
  destruct Hr' as (Hinv & Ht & Hn & Hp). destruct (pr_emit_inv _ _ _ _ Hinv E) as (Hinv' & _ & _).
  split; [done|]. exists k. split_and!; [done..|]. simpl. intros Hreads Hsum Hcb. simpl in Hloc.
  rewrite Hsum in Hloc. specialize (Hloc Hcb Hreads ltac:(lia) ltac:(unfold int64 in Hi; lia)).
  unfold reader_not_announced in Hn. pose proof (ri_last _ Hinv) as [? ?].
  unfold pr_emit, visibleCurrent in E. rewrite Hp in E. destruct progress as [cb|]; [|done]. simpl in E. rewrite Hloc in E.
  rewrite (proj2 (Z.ltb_ge _ _)) in E by lia. rewrite wrap64_id in E by (unfold int64 in *; lia).
  rewrite (proj2 (Z.leb_gt _ _)) in E by lia. simpl in E. unfold call in E; destruct (cb _); simplify_eq. simpl. lia.
Qed.
End single.

(** The reports of a single-stream upload of a file that is not empty, over all its attempts, whatever the backend
    reads and answers: the accepted reports never go back although each attempt reads the file from its start; an upload
    that fails has not announced the whole file; and one that succeeds after the backend has read the whole body ends
    with the announcement of the whole file. *)
Theorem single_upload_reports progress oid total resolve done script cs err : (0 < total)%Z → int64 total →
  uploadSingle progress oid total resolve done script = (cs, err) →
  reports_from 0 (accepted cs) ∧
  (err ≠ None → Forall (λ ev, BytesSoFar ev < total)%Z (accepted cs)) ∧
  (err = None → ∃ k, sa_result (script k) = None ∧
    (Forall (Z.lt 0) (sa_reads (script k)) → foldr Z.add 0%Z (sa_reads (script k)) = total → progress ≠ None →
     reported 0 (accepted cs) = total)).
Proof.
  intros Hpos Hi Hu. unfold uploadSingle in Hu. destruct resolve as [e|]; [simplify_eq; by split_and!|].
  destruct (RetryAction _ _ _ _ _) as [[[k pr] w] e] eqn:Hrun. simplify_eq.
  assert (H0 : reading progress total (newProgressReader progress oid total)).
  { split_and!; [constructor; simpl; try done; unfold int64; lia|done|by unfold reader_not_announced|done]. }
  apply (RetryAction_inv _ _ _ _ (λ s, reading progress total s.2) (finished progress total script)) in Hrun;
    [|done|by intros; eapply single_action_fails|by intros; eapply single_action_succeeds|done].
  destruct err as [e|].
  - destruct Hrun as (Hinv & Ht & Hn & _). simpl in *. split_and!; [apply Hinv| |done]. intros _.
    destruct (reports_from_le _ _ (ri_reports _ Hinv)) as [_ Hall]. rewrite (ri_reported _ Hinv) in Hall.
    eapply Forall_impl; [exact Hall|]. unfold reader_not_announced in Hn. simpl. lia.
  - destruct Hrun as (Hinv & k' & _ & _ & Hres & Hlast). simpl in *. split_and!; [apply Hinv|done|]. intros _. exists k'.
    split; [done|]. intros ???. rewrite (ri_reported _ Hinv). by apply Hlast.
Qed.
Definition sample_script (k : nat) : single_attempt :=
  match k with 0 => mkAttempt None [2; 1]%Z (Some (FText "timeout")) | _ => mkAttempt None [2; 3]%Z None end.
Lemma single_upload_reports_witness :
  reports_from 0 (accepted (uploadSingle (Some (λ _, None)) "oid" 5 None (λ _, false) sample_script).1) ∧
  reported 0 (accepted (uploadSingle (Some (λ _, None)) "oid" 5 None (λ _, false) sample_script).1) = 5%Z.
Proof.
  split; [|vm_compute; reflexivity].
  assert (E : uploadSingle (Some (λ _, None)) "oid" 5 None (λ _, false) sample_script =
    ((uploadSingle (Some (λ _, None)) "oid" 5 None (λ _, false) sample_script).1, None)) by (vm_compute; reflexivity).
  assert (H5 : int64 5) by (unfold int64; lia).
  exact (proj1 (single_upload_reports (Some (λ _, None)) "oid" 5 None (λ _, false) sample_script _ None eq_refl H5 E)).
Defined.
