(* ===== verification/Download.v ===== *)
(** * The downloader
    client/transfer/engine/downloader.go.  A download is a single stream that appends to what is already on
    disk, or a set of ranges fetched by concurrent tasks into one preallocated file.  The source of the bytes is
    not part of the engine: an answer of GetReader or GetRangeReader is a list of pieces that ends well
    or in an error, and the theorems say which answers they rely on.  The local file system is assumed to
    accept writes; creating directories and opening the file may fail. *)
From Stdlib Require Import Ascii.
From S2P Require Import Prelude GoStrings Transfer Progress.

(** ** Answers of the source *)
Record body := mkBody { b_pieces : list (list ascii); b_err : option failure }.
Definition answer := (body + failure)%type.
Record ObjectMetadata := mkObjectMetadata { om_Size : Z; om_AcceptRanges : bool }.

(** io.Copy: the bytes written, the reader afterwards, the error.  A piece is written before an error that comes with it. *)
Fixpoint copy (r : downloadProgressReader) (cs : calls) (pieces : list (list ascii)) (err : option failure)
    : list ascii * downloadProgressReader * calls * option failure :=
  match pieces with
  | [] => ([], r, cs, err)
  | piece :: pieces =>
      match dr_Read r None cs (Z.of_nat (length piece)) with
      | (r, _, cs, Some progressErr) => (piece, r, cs, Some progressErr)
      | (r, _, cs, None) =>
          let '(written, r, cs, e) := copy r cs pieces err in (piece ++ written, r, cs, e)
      end
  end.

(** ** One stream (downloadSingle) *)
Section single.
Context (progress : option ProgressCallback) (oid : string).
Context (GetReader : answer) (GetRangeReader : Z → Z → answer).

Definition resume_offset (dst : option (list ascii)) (expectedSize : Z) : Z :=
  match dst with
  | Some old => let size := Z.of_nat (length old) in if ((0 <? size) && (size <? expectedSize))%Z then size else 0
  | None => 0
  end.
Definition already_complete (dst : option (list ascii)) (expectedSize : Z) : bool :=
  match dst with
  | Some old => (0 <? expectedSize)%Z && (Z.of_nat (length old) =? expectedSize)%Z
  | None => false
  end.
(** The body to read and the offset it starts at, after a range request that may have been ignored. *)
Definition request_body (startOffset expectedSize : Z) : Z * answer :=
  if (0 <? startOffset)%Z then
    match GetRangeReader startOffset (expectedSize - startOffset) with
    | inr e => if IsRangeIgnored e then (0%Z, GetReader) else (startOffset, inr e)
    | inl b => (startOffset, inl b)
    end
  else (startOffset, GetReader).
(** [open_err] is an error of MkdirAll or OpenFile; the results are the file afterwards and the error. *)
Definition downloadSingle (open_err : option failure) (dst : option (list ascii)) (expectedSize : Z)
    : option (list ascii) * calls * option failure :=
  if already_complete dst expectedSize then (dst, [], None) else
  match request_body (resume_offset dst expectedSize) expectedSize with
  | (_, inr e) => (dst, [], Some e)
  | (startOffset, inl b) =>
      match open_err with
      | Some e => (dst, [], Some e)
      | None =>
          let old := if (0 <? startOffset)%Z then default [] dst else [] in
          let '(written, r, cs, err) := copy (newDownloadProgressReader progress oid startOffset) [] (b_pieces b) (b_err b) in
          let file := Some (old ++ written) in
          match err with
          | Some e => let '(_, cs, _) := dr_FlushPendingProgress r None cs in (file, cs, Some e)
          | None =>
              match dr_Complete r None cs with
              | (_, cs, Some e) => (file, cs, Some e)
              | (_, cs, None) =>
                  if ((0 <? expectedSize) && (startOffset + Z.of_nat (length written) <? expectedSize))%Z
                  then (file, cs, Some (FText "short download: got %d, expected %d")) else (file, cs, None)
              end
          end
      end
  end.
End single.

(** ** Which way (Download) *)
Inductive route := SingleStream | ParallelRanges.
Definition Download_route (meta : ObjectMetadata) (multipartThreshold : Z) : route :=
  let totalSize := om_Size meta in
  if (totalSize <=? 0)%Z then SingleStream else
  if ((0 <? multipartThreshold) && (totalSize <? multipartThreshold))%Z then SingleStream else
  if ((totalSize <? MB)%Z || negb (om_AcceptRanges meta)) then SingleStream else ParallelRanges.

(** ** Ranges (downloadParallel)
    A task is the function given to the error group for one range. *)
Inductive task :=
  | Waiting
  | Attempt (k : Z)
  | Copying (k written : Z) (r : downloadProgressReader)
  | Done
  | Gone.                           (* the task has returned an error *)
Record parallel := mkParallel {
  p_totalSize : Z; p_chunkSize : Z; p_concurrency : Z; p_file : list ascii; p_tasks : list task;
  p_soFar : Z; p_calls : calls; p_err : option failure }.

Section fire.
Context (progress : option ProgressCallback) (oid : string).

Definition zeros (n : nat) : list ascii := replicate n zero.
(** file.Truncate *)
Definition truncate (old : list ascii) (size : nat) : list ascii := take size old ++ zeros (size - length old).
(** OffsetWriter.Write at an offset inside the file or past its end *)
Definition write_at (file : list ascii) (off : nat) (data : list ascii) : list ascii :=
  take off file ++ zeros (off - length file) ++ data ++ drop (off + length data) file.

Definition start_parallel (old : list ascii) (totalSize concurrency chunkSize : Z) : parallel :=
  let chunkSize := if (chunkSize <=? 0)%Z then (64 * MB)%Z else chunkSize in
  let concurrency := if (concurrency <=? 0)%Z then 8%Z else concurrency in
  mkParallel totalSize chunkSize concurrency (truncate old (Z.to_nat totalSize))
    (replicate (Z.to_nat (numChunks totalSize chunkSize)) Waiting) 0 [] None.

Definition set_task (d : parallel) (i : nat) (t : task) : parallel :=
  mkParallel (p_totalSize d) (p_chunkSize d) (p_concurrency d) (p_file d) (<[i := t]> (p_tasks d)) (p_soFar d) (p_calls d) (p_err d).
Definition set_file (d : parallel) (f : list ascii) : parallel :=
  mkParallel (p_totalSize d) (p_chunkSize d) (p_concurrency d) f (p_tasks d) (p_soFar d) (p_calls d) (p_err d).
Definition set_progress (d : parallel) (soFar : Z) (cs : calls) : parallel :=
  mkParallel (p_totalSize d) (p_chunkSize d) (p_concurrency d) (p_file d) (p_tasks d) soFar cs (p_err d).
(** The group keeps the first error. *)
Definition set_err (d : parallel) (e : failure) : parallel :=
  mkParallel (p_totalSize d) (p_chunkSize d) (p_concurrency d) (p_file d) (p_tasks d) (p_soFar d) (p_calls d)
    (match p_err d with Some e0 => Some e0 | None => Some e end).
Definition task_start (d : parallel) (i : nat) : Z := range_start (p_chunkSize d) (Z.of_nat i).
Definition task_length (d : parallel) (i : nat) : Z := range_length (p_totalSize d) (p_chunkSize d) (Z.of_nat i).
Definition running (t : task) : bool := match t with Attempt _ | Copying _ _ _ => true | _ => false end.

Definition task_ends (d : parallel) (i : nat) (k : Z) (e : option failure) : parallel :=
  match retry_verdict MaxRetryCount k e with
  | Return None => set_task d i Done
  | Return (Some err) => set_task (set_err d err) i Gone
  | Again _ => set_task d i (Attempt (k + 1))
  end.

Inductive event :=
  | EvGo (i : nat)                           (* the group starts the task *)
  | EvCancel (i : nat)                       (* the context ends during a pause *)
  | EvRange (i : nat) (err : option failure) (* GetRangeReader returns *)
  | EvPiece (i : nat) (data : list ascii)    (* a read of the body returns data *)
  | EvEnd (i : nat) (err : option failure).  (* a read returns io.EOF or an error *)

Definition fire (d : parallel) (ev : event) : option parallel :=
  match ev with
  | EvGo i =>
      match p_tasks d !! i with
      | Some Waiting => if (Z.of_nat (length (filter (λ t, running t = true) (p_tasks d))) <? p_concurrency d)%Z
                        then Some (set_task d i (Attempt 0)) else None
      | _ => None
      end
  | EvCancel i =>
      match p_tasks d !! i with
      | Some (Attempt k) => if (0 <? k)%Z then Some (set_task (set_err d ContextDone) i Gone) else None
      | _ => None
      end
  | EvRange i err =>
      match p_tasks d !! i with
      | Some (Attempt k) =>
          match err with
          | Some e => Some (task_ends d i k (Some (FWrap "range download [%d,%d]: %w" e)))
          | None => Some (set_task d i (Copying k 0 (newDownloadProgressReader progress oid (p_soFar d))))
          end
      | _ => None
      end
  | EvPiece i data =>
      match p_tasks d !! i with
      | Some (Copying k written r) =>
          let d := set_file d (write_at (p_file d) (Z.to_nat (task_start d i + written)) data) in
          match dr_Read r (Some (p_soFar d)) (p_calls d) (Z.of_nat (length data)) with
          | (r, global, cs, Some progressErr) =>
              let d := set_progress d (default 0 global)%Z cs in
              let '(_, cs, _) := dr_FlushPendingProgress r (Some (p_soFar d)) cs in
              Some (task_ends (set_progress d (p_soFar d) cs) i k (Some progressErr))
          | (r, global, cs, None) =>
              Some (set_task (set_progress d (default 0 global)%Z cs) i (Copying k (written + Z.of_nat (length data)) r))
          end
      | _ => None
      end
  | EvEnd i err =>
      match p_tasks d !! i with
      | Some (Copying k written r) =>
          match err with
          | Some e =>
              let '(_, cs, _) := dr_FlushPendingProgress r (Some (p_soFar d)) (p_calls d) in
              Some (task_ends (set_progress d (p_soFar d) cs) i k (Some e))
          | None =>
              match dr_Complete r (Some (p_soFar d)) (p_calls d) with
              | (_, cs, Some e) => Some (task_ends (set_progress d (p_soFar d) cs) i k (Some e))
              | (_, cs, None) =>
                  let d := set_progress d (p_soFar d) cs in
                  if bool_decide (written = task_length d i) then Some (task_ends d i k None)
                  else Some (task_ends d i k (Some (FText "short write: got %d, expected %d")))
              end
          end
      | _ => None
      end
  end.
Definition task_over (t : task) : bool := match t with Done | Gone => true | _ => false end.
(** g.Wait and what follows: the file on disk and the error. *)
Definition finish_parallel (d : parallel) : option (option (list ascii) * option failure) :=
  if forallb task_over (p_tasks d) then
    match p_err d with
    | Some e => Some (None, Some e)
    | None => Some (Some (p_file d), None)
    end
  else None.
End fire.
