(* ===== verification/DownloadProperties.v ===== *)
(** * What the downloader guarantees
    A single stream resumes only what it can complete; the tasks of a parallel download, in any interleaving and with any
    retries, leave the object on disk or nothing. *)
From Stdlib Require Import Ascii.
From S2P Require Import Prelude GoStrings Transfer Progress Download.

(** ** One stream *)
Lemma copy_written r cs pieces err written r' cs' e : copy r cs pieces err = (written, r', cs', e) →
  written `prefix_of` concat pieces ∧ (e = None → written = concat pieces ∧ err = None).
Proof.
  revert r cs written r' cs' e. induction pieces as [|piece pieces IH]; intros r cs written r' cs' e Hc; simpl in Hc.
  { simplify_eq. done. }
  destruct (dr_Read r None cs _) as [[[r1 g] cs1] [pe|]].
  - simplify_eq. simpl. split; [by apply prefix_app_r|done].
  - destruct (copy r1 cs1 pieces err) as [[[w r2] cs2] e2] eqn:E. simplify_eq. apply IH in E as [Hp He]. simpl.
    split; [by apply prefix_app|]. intros Hn. by destruct (He Hn) as [-> ->].
Qed.
Lemma section_bytes_tail {A} (content : list A) off size : (off + size = length content)%nat →
  section_bytes content (Z.of_nat off) (Z.of_nat size) = drop off content.
Proof. intros Hs. unfold section_bytes. rewrite !Nat2Z.id. apply take_ge. rewrite length_drop. lia. Qed.

(** What the source is relied on for: a body never holds a byte that was not asked for. *)
Definition honest_source (content : list ascii) (GetReader : answer) (GetRangeReader : Z → Z → answer) : Prop :=
  (∀ b, GetReader = inl b → concat (b_pieces b) `prefix_of` content) ∧
  (∀ off size b, (0 < off)%Z → GetRangeReader off size = inl b → concat (b_pieces b) `prefix_of` section_bytes content off size).

(** Downloading with one stream over a destination that is missing or holds the beginning of the object: success means
    that the file is the object; whatever happens the file still holds a beginning of the object (or is as
    missing as before), so that the next attempt can resume from it; and nothing is fetched when the object
    is already there. *)
Theorem single_download_resumes progress oid GetReader GetRangeReader open_err dst content file cs err :
  honest_source content GetReader GetRangeReader → content ≠ [] →
  (∀ old, dst = Some old → old `prefix_of` content) →
  downloadSingle progress oid GetReader GetRangeReader open_err dst (Z.of_nat (length content)) = (file, cs, err) →
  (err = None → file = Some content) ∧ (∀ new, file = Some new → new `prefix_of` content) ∧
  (dst = Some content → cs = [] ∧ err = None).
Proof.
  intros [Hfull Hrange] Hne Hdst Hd. set (size := Z.of_nat (length content)) in *.
  assert (Hsize : (0 < size)%Z) by (unfold size; destruct content; [done|simpl; lia]).
  unfold downloadSingle in Hd. destruct (already_complete dst size) eqn:Hac.
  { simplify_eq. unfold already_complete in Hac. destruct file as [old|]; [|done].
    apply andb_true_iff in Hac as [_ Hl%Z.eqb_eq].
    assert (Some old = Some content) as Heq by (f_equal; apply prefix_length_eq; [by apply Hdst|unfold size in Hl; lia]).
    rewrite Heq. split_and!; [done| |done]. intros new [= <-]. done. }
  assert (Hnot : dst ≠ Some content).
  { intros ->. unfold already_complete in Hac. rewrite (proj2 (Z.ltb_lt _ _)) in Hac by done. simpl in Hac. by rewrite Z.eqb_refl in Hac. }
  enough ((err = None → file = Some content) ∧ (∀ new, file = Some new → new `prefix_of` content)) by naive_solver.
  set (off := resume_offset dst size) in *.
  assert (Hoff : (0 <= off < size)%Z ∧ ∀ old, (0 < off)%Z → dst = Some old → off = Z.of_nat (length old)).
  { unfold off, resume_offset. destruct dst as [old|]; [|split; [lia|done]].
    destruct (Z.ltb_spec 0 (Z.of_nat (length old))), (Z.ltb_spec (Z.of_nat (length old)) size); simpl; split; try lia; naive_solver. }
  assert (Hoff' : (0 < off)%Z → ∃ old, dst = Some old) by (unfold off, resume_offset; destruct dst; [eauto|lia]).
  destruct Hoff as [Hoff Hold]. clearbody off.
  (* a body that starts at [start], after the bytes that are kept *)
  assert (Hbody : ∀ start b, request_body GetReader GetRangeReader off size = (start, inl b) → (start = 0 ∨ (start = off ∧ 0 < off))%Z ∧
    (if (0 <? start)%Z then default [] dst else []) ++ concat (b_pieces b) `prefix_of` content ∧
    Z.of_nat (length (if (0 <? start)%Z then default [] dst else [])) = start).
  { intros start b Hb. unfold request_body in Hb. destruct (Z.ltb_spec 0 off) as [Hpos|].
    - destruct (GetRangeReader off (size - off)%Z) as [b'|e] eqn:Er.
      + simplify_eq. destruct (Hoff' Hpos) as [old Hdo]. specialize (Hold old Hpos Hdo). rewrite (proj2 (Z.ltb_lt _ _)) by done.
        rewrite Hdo. simpl. split_and!; [by right| |done]. apply Hrange in Er; [|done].
        rewrite Hold in Er. destruct (Hdst old Hdo) as [rest Hrest].
        replace (size - Z.of_nat (length old))%Z with (Z.of_nat (length rest)) in Er
          by (unfold size; rewrite Hrest, length_app; lia).
        rewrite section_bytes_tail in Er by (by rewrite Hrest, length_app). rewrite Hrest, drop_app_length in Er.
        rewrite Hrest. by apply prefix_app.
      + destruct (IsRangeIgnored e); simplify_eq. split_and!; [by left|by apply Hfull|done].
    - simplify_eq. assert (start = 0)%Z as -> by lia. split_and!; [by left|by apply Hfull|done]. }
  destruct (request_body _ _ off size) as [start [b|e]] eqn:Hreq; [|simplify_eq; split; [done|exact Hdst]].
  destruct (Hbody start b eq_refl) as (Hstart & Hpre & Hlen). set (kept := if (0 <? start)%Z then default [] dst else []) in *.
  destruct open_err as [oe|]; [simplify_eq; split; [done|exact Hdst]|].
  destruct (copy _ _ _ _) as [[[written r] cs1] e] eqn:Hcopy. apply copy_written in Hcopy as [Hw He].
  assert (Hfile : kept ++ written `prefix_of` content) by (etrans; [by apply prefix_app|done]).
  destruct e as [e|].
  { destruct (dr_FlushPendingProgress r None cs1) as [[? ?] ?]. simplify_eq. split; [done|]. by intros new [= <-]. }
  destruct (dr_Complete r None cs1) as [[? ?] [e|]]; [simplify_eq; split; [done|by intros new [= <-]]|].
  rewrite (proj2 (Z.ltb_lt 0 size)) in Hd by done. simpl in Hd.
  destruct (Z.ltb_spec (start + Z.of_nat (length written)) size) as [?|Hfit]; simplify_eq; (split; [|by intros new [= <-]]); [done|].
  intros _. f_equal. apply prefix_length_eq; [done|]. rewrite length_app. unfold size in Hfit. lia.
Qed.
Definition sample_content : list ascii := String.list_ascii_of_string "hello world".
Lemma single_download_resumes_witness :
  (downloadSingle None "" (inl (mkBody [sample_content] None)) (λ off size, inl (mkBody [section_bytes sample_content off size] None))
    None (Some (take 5 sample_content)) 11).1.1 = Some sample_content.
Proof.
  apply (single_download_resumes None "" (inl (mkBody [sample_content] None)) (λ off size, inl (mkBody [section_bytes sample_content off size] None))
    None (Some (take 5 sample_content)) sample_content _ [] None); [|done| |vm_compute; reflexivity|reflexivity].
  - split; [intros b [= <-]; done|]. intros off size b _ [= <-]. simpl. by rewrite app_nil_r.
  - intros old [= <-]. by exists (drop 5 sample_content).
Defined.

(** ** Ranges *)
(** Two files hold the same bytes from [a] to [b]. *)
Definition agree (f g : list ascii) (a b : nat) : Prop := ∀ j, a <= j < b → f !! j = g !! j.

Lemma write_at_lookup file off data j : off + length data <= length file →
  write_at file off data !! j = if decide (off <= j < off + length data) then data !! (j - off) else file !! j.
Proof.
  intros Hfit. unfold write_at, zeros. replace (off - length file) with 0 by lia. simpl.
  destruct (decide (off <= j < off + length data)).
  - rewrite lookup_app_r by (rewrite length_take; lia). rewrite length_take, Nat.min_l by lia.
    rewrite lookup_app_l by lia. done.
  - destruct (decide (j < off)).
    + rewrite lookup_app_l by (rewrite length_take; lia). apply lookup_take_lt. lia.
    + rewrite lookup_app_r by (rewrite length_take; lia). rewrite length_take, Nat.min_l by lia.
      rewrite lookup_app_r by lia. rewrite lookup_drop. f_equal. lia.
Qed.
Lemma write_at_length file off data : off + length data <= length file → length (write_at file off data) = length file.
Proof. intros. unfold write_at, zeros. rewrite !length_app, length_take, length_replicate, length_drop. lia. Qed.

Section parallel.
Context (progress : option ProgressCallback) (oid : string) (content : list ascii).
Local Abbreviation size := (Z.of_nat (length content)).

(** What the source is relied on for: the bytes that arrive are those of the range, from its start. *)
Definition honest (d : parallel) (ev : event) : Prop :=
  match ev with
  | EvPiece i data => ∀ k written r, p_tasks d !! i = Some (Copying k written r) →
      (written + Z.of_nat (length data) <= task_length d i)%Z ∧
      data = section_bytes content (task_start d i + written) (Z.of_nat (length data))
  | _ => True
  end.
Inductive downloads (d0 : parallel) : parallel → Prop :=
  | downloads_start : downloads d0 d0
  | downloads_fire d ev d' : downloads d0 d → honest d ev → fire progress oid d ev = Some d' → downloads d0 d'.

Definition task_ok (d : parallel) (i : nat) (t : task) : Prop :=
  let start := Z.to_nat (task_start d i) in
  match t with
  | Done => agree (p_file d) content start (start + Z.to_nat (task_length d i))
  | Copying _ written _ => (0 <= written <= task_length d i)%Z ∧ agree (p_file d) content start (start + Z.to_nat written)
  | Gone => p_err d ≠ None
  | _ => True
  end.
Record parallel_ok (d : parallel) : Prop := {
  pk_total : p_totalSize d = size;
  pk_chunk : chunking size (p_chunkSize d);
  pk_count : length (p_tasks d) = Z.to_nat (numChunks size (p_chunkSize d));
  pk_file : length (p_file d) = length content;
  pk_tasks i t : p_tasks d !! i = Some t → task_ok d i t }.

(** The range of a task, in terms of the chunk size. *)
Lemma task_range d i t : parallel_ok d → p_tasks d !! i = Some t →
  task_start d i = (Z.of_nat i * p_chunkSize d)%Z ∧
  task_length d i = Z.min (p_chunkSize d) (size - Z.of_nat i * p_chunkSize d) ∧
  (0 <= Z.of_nat i * p_chunkSize d < size)%Z ∧ (0 < p_chunkSize d)%Z.
Proof.
  intros Hd Hi%lookup_lt_Some. rewrite (pk_count _ Hd) in Hi. pose proof (pk_chunk _ Hd) as Hc.
  destruct (range_exact _ _ Hc (Z.of_nat i)) as (Hs & Hl & _); [lia|]. pose proof (part_before _ _ Hc (Z.of_nat i + 1) ltac:(lia)) as Hb.
  unfold task_start, task_length. rewrite (pk_total _ Hd), Hs, Hl. rewrite Z.add_simpl_r in Hb. destruct Hc as (?&?&?). auto.
Qed.

(** A task changes its own state and nothing else. *)
Lemma parallel_ok_task d i t t' cs g e : parallel_ok d → p_tasks d !! i = Some t →
  (p_err d ≠ None → e ≠ None) →
  let d' := mkParallel (p_totalSize d) (p_chunkSize d) (p_concurrency d) (p_file d) (<[i := t']> (p_tasks d)) g cs e in
  task_ok d' i t' → parallel_ok d'.
Proof.
  intros Hd Hi He d' Ht'. constructor; simpl; try apply Hd; [by rewrite length_insert; apply Hd|].
  intros j u [[<- [<- _]]|[Hne Hj]]%list_lookup_insert_Some; [done|].
  pose proof (pk_tasks _ Hd j u Hj) as Hu. unfold task_ok in *. by destruct u; auto.
Qed.
Lemma task_ends_ok d0 d i t k e : parallel_ok d0 → p_tasks d0 !! i = Some t →
  p_totalSize d = p_totalSize d0 → p_chunkSize d = p_chunkSize d0 → p_concurrency d = p_concurrency d0 → p_file d = p_file d0 →
  p_tasks d = p_tasks d0 → p_err d = p_err d0 → (e = None → task_ok d0 i Done) → parallel_ok (task_ends d i k e).
Proof.
  intros Hd Hi Ht Hc Hcc Hf Hts He Hdone. unfold task_ends, retry_verdict, set_task, set_err.
  destruct e as [e|]; [destruct (As_nonRetryable e); [|destruct (k + 1 <=? MaxRetryCount)%Z]|];
    simpl; rewrite Ht, Hc, Hcc, Hf, Hts, ?He; (eapply parallel_ok_task; [exact Hd|exact Hi| |]); simpl; try done.
  all: try (by destruct (p_err d0)).
  by apply Hdone.
Qed.
Lemma parallel_ok_write d i k written r data : parallel_ok d → p_tasks d !! i = Some (Copying k written r) →
  honest d (EvPiece i data) →
  let d' := set_file d (write_at (p_file d) (Z.to_nat (task_start d i + written)) data) in
  parallel_ok d' ∧ (0 <= written + Z.of_nat (length data) <= task_length d i)%Z ∧
  agree (p_file d') content (Z.to_nat (task_start d i)) (Z.to_nat (task_start d i) + Z.to_nat (written + Z.of_nat (length data))).
Proof.
  intros Hd Hi Hh d'. destruct (Hh k written r Hi) as [Hfit Hdata].
  destruct (task_range _ _ _ Hd Hi) as (Hs & Hl & Hb & Hc). pose proof (pk_tasks _ Hd _ _ Hi) as [Hw Hag].
  rewrite Hl in Hfit, Hw. pose proof (pk_file _ Hd) as Hlen.
  assert (Hin : Z.to_nat (task_start d i + written) + length data <= length (p_file d)) by (rewrite Hs, Hlen; lia).
  assert (Hlook : ∀ j, p_file d' !! j = if decide (Z.to_nat (task_start d i + written) <= j < Z.to_nat (task_start d i + written) + length data)
    then content !! j else p_file d !! j).
  { intros j. unfold d'. simpl. rewrite write_at_lookup by done. case_decide as Hj; [|done].
    rewrite Hdata. unfold section_bytes. rewrite lookup_take_lt by lia. rewrite lookup_drop. f_equal. lia. }
  assert (Hmine : agree (p_file d') content (Z.to_nat (task_start d i)) (Z.to_nat (task_start d i) + Z.to_nat (written + Z.of_nat (length data)))).
  { intros j Hj. rewrite Hlook. case_decide as Hn; [done|]. apply Hag. rewrite Hs in *. lia. }
  split_and!; [|lia|lia|done]. constructor; simpl; try apply Hd; [by rewrite write_at_length|].
  intros j u Hj. pose proof (pk_tasks _ Hd j u Hj) as Hu. destruct (task_range _ _ _ Hd Hj) as (Hsj & Hlj & Hbj & _).
  (* what was right in the range of task [j] still is *)
  assert (Hkeep : ∀ n, (0 <= n <= task_length d j)%Z → agree (p_file d) content (Z.to_nat (task_start d j)) (Z.to_nat (task_start d j) + Z.to_nat n) →
    agree (p_file d') content (Z.to_nat (task_start d j)) (Z.to_nat (task_start d j) + Z.to_nat n)).
  { intros n Hn Ha x Hx. rewrite Hlook. case_decide; [done|]. by apply Ha. }
  unfold task_ok in *. destruct u; try done.
  - destruct Hu as [Hwj Ha]. split; [done|]. by apply Hkeep.
  - apply Hkeep; [|done]. change (task_length d' j) with (task_length d j). rewrite Hlj. lia.
Qed.
Lemma fire_parallel_ok d ev d' : parallel_ok d → honest d ev → fire progress oid d ev = Some d' → parallel_ok d'.
Proof.
  intros Hd Hh Hf. destruct ev as [i|i|i err|i data|i err]; simpl in Hf;
    destruct (p_tasks d !! i) as [[|k|k written r| |]|] eqn:Hi; try done.
  - case_match; simplify_eq. eapply parallel_ok_task; [done..|]. done.
  - case_match; simplify_eq. apply (parallel_ok_task d i (Attempt k) Gone (p_calls d) (p_soFar d) _ Hd Hi); simpl; [by destruct (p_err d)|by destruct (p_err d)].
  - destruct err as [e|]; simplify_eq.
    + eapply task_ends_ok; done.
    + eapply parallel_ok_task; [done..|]. simpl. destruct (task_range _ _ _ Hd Hi) as (Hs & Hl & Hb & Hc).
      assert (0 <= task_length d i)%Z as H0 by (rewrite Hl; lia).
      split; [split; [done|exact H0]|intros j; lia].
  - destruct (parallel_ok_write _ _ _ _ _ _ Hd Hi Hh) as (Hd' & Hw & Ha). set (d1 := set_file _ _) in *.
    destruct (dr_Read r _ _ _) as [[[r' g] cs] [pe|]].
    + destruct (dr_FlushPendingProgress _ _ _) as [[? cs'] ?]. simplify_eq.
      apply (task_ends_ok d1 _ i (Copying k written r)); done.
    + simplify_eq. by apply (parallel_ok_task d1 i (Copying k written r)).
  - pose proof (pk_tasks _ Hd _ _ Hi) as [Hw Ha]. destruct err as [e|].
    + destruct (dr_FlushPendingProgress _ _ _) as [[? cs'] ?]. simplify_eq. apply (task_ends_ok d _ i (Copying k written r)); done.
    + destruct (dr_Complete _ _ _) as [[? cs'] [e|]]; simplify_eq; [apply (task_ends_ok d _ i (Copying k written r)); done|].
      case_bool_decide as Hall; injection Hf as <-; apply (task_ends_ok d _ i (Copying k written r)); try done.
      intros _. change (written = task_length d i) in Hall. simpl. by rewrite <- Hall.
Qed.
End parallel.

Lemma start_parallel_ok content old concurrency chunk :
  chunking (Z.of_nat (length content)) (if (chunk <=? 0)%Z then 64 * MB else chunk)%Z →
  parallel_ok content (start_parallel old (Z.of_nat (length content)) concurrency chunk).
Proof.
  intros Hc. constructor; simpl; try done.
  - by rewrite length_replicate.
  - unfold truncate, zeros. rewrite length_app, length_take, length_replicate. lia.
  - intros i t [-> _]%lookup_replicate. done.
Qed.
Lemma downloads_ok progress oid content d0 d : parallel_ok content d0 → downloads progress oid content d0 d → parallel_ok content d.
Proof. induction 2; [done|]. eapply fire_parallel_ok; [by apply IHdownloads|done|done]. Qed.

(** C30 A parallel download of an object into a file that may already hold anything: whatever the order in which the
    tasks of the ranges run, the pieces in which the bytes arrive and the attempts that fail, when all tasks
    are over and none has failed the file is the object; when one has failed there is no file left. *)
Theorem parallel_download_exact progress oid content old concurrency chunk d file err :
  chunking (Z.of_nat (length content)) (if (chunk <=? 0)%Z then 64 * MB else chunk)%Z →
  downloads progress oid content (start_parallel old (Z.of_nat (length content)) concurrency chunk) d →
  finish_parallel d = Some (file, err) →
  (err = None → file = Some content) ∧ (err ≠ None → file = None).
Proof.
  intros Hc Hd Hf. apply downloads_ok in Hd; [|by apply start_parallel_ok].
  unfold finish_parallel in Hf. destruct (forallb _ _) eqn:Hover; [|done].
  destruct (p_err d) as [e|] eqn:He; simplify_eq; [done|]. split; [|done]. intros _. f_equal.
  rewrite forallb_forall in Hover. pose proof (pk_chunk _ _ Hd) as Hch. pose proof (pk_count _ _ Hd) as Hcount.
  pose proof (numChunks_bounds _ _ Hch) as [Hn Hcover]. pose proof Hch as (? & Hpos & ?).
  apply list_eq. intros j. destruct (decide (j < length content)) as [Hj|Hj].
  - set (c := p_chunkSize d) in *. set (i := Z.to_nat (Z.of_nat j / c)).
    assert (Hi : (Z.of_nat i * c <= Z.of_nat j < Z.of_nat i * c + c)%Z).
    { unfold i. rewrite Z2Nat.id by (apply Z.div_pos; lia). pose proof (Z.div_mod (Z.of_nat j) c ltac:(lia)).
      pose proof (Z.mod_pos_bound (Z.of_nat j) c ltac:(lia)). lia. }
    assert (Hlt : i < length (p_tasks d)) by (rewrite Hcount; nia).
    apply lookup_lt_is_Some in Hlt as [t Ht]. pose proof (pk_tasks _ _ Hd _ _ Ht) as Hok.
    destruct (task_range _ _ _ _ Hd Ht) as (Hs & Hl & Hb & _). fold c in Hs, Hl, Hb.
    specialize (Hover t (proj1 (list_elem_of_In _ _) (list_elem_of_lookup_2 _ _ _ Ht))).
    destruct t; try done. apply Hok. rewrite Hs, Hl. lia.
  - rewrite !lookup_ge_None_2; [done|lia|]. rewrite (pk_file _ _ Hd). lia.
Qed.

(** ** Running the tasks on concrete events *)
Section run.
Context (progress : option ProgressCallback) (oid : string) (content : list ascii).
Definition honest_b (d : parallel) (ev : event) : bool :=
  match ev with
  | EvPiece i data =>
      match p_tasks d !! i with
      | Some (Copying _ written _) =>
          (written + Z.of_nat (length data) <=? task_length d i)%Z &&
          bool_decide (data = section_bytes content (task_start d i + written) (Z.of_nat (length data)))
      | _ => true
      end
  | _ => true
  end.
Lemma honest_b_spec d ev : honest_b d ev = true → honest content d ev.
Proof.
  destruct ev as [| | |i data|]; try done. simpl. intros Hh k written r Hi. rewrite Hi in Hh.
  apply andb_true_iff in Hh as [?%Z.leb_le ?%bool_decide_eq_true]. done.
Qed.
Fixpoint run_events (d : parallel) (evs : list event) : option parallel :=
  match evs with
  | [] => Some d
  | ev :: evs => if honest_b d ev then d ← fire progress oid d ev; run_events d evs else None
  end.
Lemma run_events_downloads d0 d evs d' : downloads progress oid content d0 d → run_events d evs = Some d' → downloads progress oid content d0 d'.
Proof.
  revert d. induction evs as [|ev evs IH]; intros d Hd Hr; simpl in Hr; [by simplify_eq|].
  destruct (honest_b d ev) eqn:Hh; [|done]. apply bind_Some in Hr as (d1 & Hf & Hr).
  eapply IH; [|exact Hr]. eapply downloads_fire; [exact Hd|by apply honest_b_spec|exact Hf].
Qed.
End run.

(** Two ranges over an old file; the first task fails once in the middle of its range. *)
Definition sample_downloads : list event :=
  [EvGo 0; EvRange 0 None; EvGo 1; EvPiece 0 (take 3 sample_content); EvEnd 0 (Some (FText "reset"));
   EvRange 1 None; EvPiece 1 (drop 6 sample_content); EvRange 0 None; EvPiece 0 (take 6 sample_content);
   EvEnd 1 None; EvEnd 0 None].
Definition sample_old : list ascii := String.list_ascii_of_string "an older and longer file".
Lemma parallel_download_exact_witness : ∃ d,
  downloads None "" sample_content (start_parallel sample_old 11 2 6) d ∧ finish_parallel d = Some (Some sample_content, None).
Proof.
  destruct (run_events None "" sample_content (start_parallel sample_old 11 2 6) sample_downloads) as [d|] eqn:E;
    [|vm_compute in E; discriminate].
  exists d. assert (Hd : downloads None "" sample_content (start_parallel sample_old 11 2 6) d)
    by (eapply run_events_downloads; [apply downloads_start|exact E]).
  split; [exact Hd|].
  assert (Hf : ∃ file, finish_parallel d = Some (file, None)) by (vm_compute in E; injection E as <-; by eexists).
  destruct Hf as [file Hf]. rewrite Hf.
  assert (Hc : chunking (Z.of_nat (length sample_content)) (if (6 <=? 0)%Z then 64 * MB else 6)%Z) by (split_and!; vm_compute; congruence).
  destruct (parallel_download_exact None "" sample_content sample_old 2 6 d file None Hc Hd Hf) as [Hok _].
  by rewrite (Hok eq_refl).
Defined.

(** A reader that has just been made, after one piece and the report that follows. *)
Lemma fresh_reader_reports oid g cs m : (0 <= g)%Z → (0 < m)%Z → (g + m < 2 ^ 63)%Z →
  ∃ r1 cs1 r2, dr_Read (newDownloadProgressReader (Some (λ _, None)) oid g) (Some g) cs m = (r1, Some (g + m)%Z, cs1, None) ∧
    dr_emit r1 (Some (g + m)%Z) cs1 = (r2, cs ++ [(progress_event oid (g + m) m, None)], None).
Proof.
  intros Hg Hm Hmax. unfold dr_Read. rewrite (proj2 (Z.ltb_lt 0 m)) by done. simpl.
  rewrite ?Z.add_0_l. rewrite (wrap64_id (g + m)) by (unfold int64; lia). rewrite (wrap64_id m) by (unfold int64; lia).
  destruct (OnProgressThreshold <=? m)%Z eqn:Ht; unfold dr_emit, call; simpl.
  - rewrite Z.sub_0_r, (wrap64_id m) by (unfold int64; lia). rewrite (proj2 (Z.leb_gt _ _)) by done. simpl.
    eexists _, _, _. split; [reflexivity|]. unfold dr_emit, call. simpl. rewrite Z.sub_diag. reflexivity.
  - eexists _, _, _. split; [reflexivity|]. unfold dr_emit, call. simpl.
    rewrite Z.sub_0_r, (wrap64_id m) by (unfold int64; lia). rewrite (proj2 (Z.leb_gt _ _)) by done. reflexivity.
Qed.

(** The steps of a download with one range. *)
Section one_range.
Context (progress : option ProgressCallback) (oid : string) (size chunk : Z).
Definition one (f : list ascii) (t : task) (g : Z) (cs : calls) : parallel := mkParallel size chunk 8 f [t] g cs None.
Lemma one_go f g cs : fire progress oid (one f Waiting g cs) (EvGo 0) = Some (one f (Attempt 0) g cs).
Proof. done. Qed.
Lemma one_range f g cs k : fire progress oid (one f (Attempt k) g cs) (EvRange 0 None) =
  Some (one f (Copying k 0 (newDownloadProgressReader progress oid g)) g cs).
Proof. done. Qed.
Lemma one_piece f g cs k w r data r1 g1 cs1 : dr_Read r (Some g) cs (Z.of_nat (length data)) = (r1, Some g1, cs1, None) →
  ∃ f1, fire progress oid (one f (Copying k w r) g cs) (EvPiece 0 data) = Some (one f1 (Copying k (w + Z.of_nat (length data)) r1) g1 cs1).
Proof. intros Hr. simpl. rewrite Hr. by eexists. Qed.
Lemma one_failure f g cs w r r1 cs1 e : dr_emit r (Some g) cs = (r1, cs1, None) → As_nonRetryable e = None →
  fire progress oid (one f (Copying 0 w r) g cs) (EvEnd 0 (Some e)) = Some (one f (Attempt 1) g cs1).
Proof. intros Hr He. simpl. unfold dr_FlushPendingProgress. rewrite Hr. unfold task_ends, retry_verdict. by rewrite He. Qed.
Lemma one_end f g cs k w r r1 cs1 : dr_emit r (Some g) cs = (r1, cs1, None) → w = range_length size chunk (Z.of_nat 0) →
  fire progress oid (one f (Copying k w r) g cs) (EvEnd 0 None) = Some (one f Done g cs1).
Proof.
  intros Hr Hw. simpl. unfold dr_Complete. rewrite Hr. rewrite bool_decide_eq_true_2 by (rewrite Hw; reflexivity). done.
Qed.
Lemma one_honest content f g cs k r data : range_start chunk (Z.of_nat 0) = 0%Z →
  range_length size chunk (Z.of_nat 0) = Z.of_nat (length content) → data `prefix_of` content →
  honest content (one f (Copying k 0 r) g cs) (EvPiece 0 data).
Proof.
  intros Hs Hl Hp k' w r' [= <- <- <-]. unfold task_start, task_length. simpl. rewrite Hs, Hl. pose proof (prefix_length _ _ Hp).
  split; [lia|]. destruct Hp as [rest ->]. unfold section_bytes. simpl. by rewrite drop_0, Nat2Z.id, take_app_length.
Qed.
End one_range.

(** The progress of a parallel download counts the bytes of failed attempts: when a range is fetched again
    after [n] of its bytes had arrived, the last report of a successful download exceeds the size of the object by [n]. *)
Theorem retried_range_overcounts oid content n :
  (MB <= Z.of_nat (length content) <= 64 * MB)%Z → 0 < n < length content →
  ∃ d, downloads (Some (λ _, None)) oid content (start_parallel [] (Z.of_nat (length content)) 0 0) d ∧
    finish_parallel d = Some (Some (p_file d), None) ∧
    reported 0 (accepted (p_calls d)) = (Z.of_nat (length content) + Z.of_nat n)%Z.
Proof.
  intros Hs Hn. set (size := Z.of_nat (length content)) in *. set (cb := Some (λ _ : list ProgressEvent, None) : option ProgressCallback).
  assert (Hc : chunking size (64 * MB)) by (unfold chunking; sizes; lia).
  assert (Hd0 : start_parallel [] size 0 0 = one size (64 * MB) (truncate [] (Z.to_nat size)) Waiting 0 []).
  { unfold start_parallel, one. simpl. pose proof (numChunks_bounds _ _ Hc).
    replace (numChunks size (64 * MB)) with 1%Z by (sizes; lia). done. }
  assert (Hrange : range_start (64 * MB) (Z.of_nat 0) = 0%Z ∧ range_length size (64 * MB) (Z.of_nat 0) = size).
  { pose proof (numChunks_bounds _ _ Hc). destruct (range_exact _ _ Hc (Z.of_nat 0)) as (? & Hl & _); [sizes; lia|]. split; [done|]. rewrite Hl. lia. }
  destruct Hrange as [Hstart Hlen]. assert (Htake : Z.of_nat (length (take n content)) = Z.of_nat n) by (rewrite length_take; lia).
  destruct (fresh_reader_reports oid 0 [] (Z.of_nat n)) as (r1 & cs1 & r2 & Hread1 & Hemit1); [lia..|sizes; lia|].
  destruct (fresh_reader_reports oid (0 + Z.of_nat n) [(progress_event oid (0 + Z.of_nat n) (Z.of_nat n), None)] size)
    as (r3 & cs3 & r4 & Hread2 & Hemit2); [lia|sizes; lia|sizes; lia|].
  rewrite Hd0. generalize (64 * MB)%Z as chunk, Hstart, Hlen. clear Hc Hd0 Hstart Hlen. intros chunk Hstart Hlen.
  rewrite <- Htake in Hread1 at 1. destruct (one_piece cb oid size chunk (truncate [] (Z.to_nat size)) 0 [] 0 0 _ (take n content) _ _ _ Hread1) as [f1 Hp1].
  destruct (one_piece cb oid size chunk f1 _ _ 1 0 _ content _ _ _ Hread2) as [f2 Hp2]. fold size in Hp2.
  assert (Hdone : downloads cb oid content (one size chunk (truncate [] (Z.to_nat size)) Waiting 0 [])
    (one size chunk f2 Done (0 + Z.of_nat n + size) ([(progress_event oid (0 + Z.of_nat n) (Z.of_nat n), None)] ++ [(progress_event oid (0 + Z.of_nat n + size) size, None)]))).
  { eapply (downloads_fire _ _ _ _ _ (EvEnd 0 None)); [|exact I|eapply one_end; [exact Hemit2|rewrite Hlen; exact (Z.add_0_l size)]].
    eapply (downloads_fire _ _ _ _ _ (EvPiece 0 content)); [| |exact Hp2]; [|by apply one_honest].
    eapply (downloads_fire _ _ _ _ _ (EvRange 0 None)); [|exact I|apply one_range].
    eapply (downloads_fire _ _ _ _ _ (EvEnd 0 (Some (FText "reset")))); [|exact I|eapply (one_failure _ _ _ _ _ _ _ _ _ _ _ (FText "reset")); [exact Hemit1|done]].
    eapply (downloads_fire _ _ _ _ _ (EvPiece 0 (take n content))); [| |exact Hp1]; [|apply one_honest; [done..|]; eexists; symmetry; apply take_drop].
    eapply (downloads_fire _ _ _ _ _ (EvRange 0 None)); [|exact I|apply one_range].
    eapply (downloads_fire _ _ _ _ _ (EvGo 0)); [apply downloads_start|exact I|apply one_go]. }
  eexists. split; [exact Hdone|]. split; [done|]. unfold accepted, reported. simpl. lia.
Qed.
Lemma retried_range_overcounts_witness : ∃ d,
  downloads (Some (λ _, None)) "oid" (replicate (Z.to_nat MB) zero) (start_parallel [] (Z.of_nat (length (replicate (Z.to_nat MB) zero))) 0 0) d ∧
  reported 0 (accepted (p_calls d)) = (MB + 1)%Z.
Proof.
  assert (Hl : Z.of_nat (length (replicate (Z.to_nat MB) zero)) = MB) by (rewrite length_replicate; sizes; lia).
  destruct (retried_range_overcounts "oid" (replicate (Z.to_nat MB) zero) 1) as (d & Hd & _ & Hr).
  - rewrite Hl. sizes. lia.
  - rewrite length_replicate. sizes. lia.
  - exists d. split; [exact Hd|]. rewrite Hl in Hr. exact Hr.
Defined.
