(* ===== verification/Address.v ===== *)
(** * Storage addresses: internal/storage/address
    Names of providers and their URL schemes, the bucket names a provider accepts, and the s3:// form of a
    location.  Go strings are byte strings.  The regular expressions only speak about ASCII characters, so a
    match is a statement about bytes. *)
From S2P Require Import Prelude GoStrings GoURL Errors.

(** ** provider.go: names and schemes *)
Definition S3Provider := "s3".
Definition GCSProvider := "gcs".
Definition AzureProvider := "azure".
Definition FileProvider := "file".

(** The switch of [NormalizeProvider]; [None] is its default case. *)
Definition provider_alias (p : string) : option string :=
  let p := ToLower (TrimSpace p) in
  if existsb (String.eqb p) [S3Provider; GCSProvider; AzureProvider; FileProvider] then Some p
  else if String.eqb p "gs" then Some GCSProvider
  else if String.eqb p "azblob" then Some AzureProvider
  else None.
(** The recursive call has an empty fallback and ends there. *)
Definition NormalizeProvider (p fallback : string) : string :=
  match provider_alias p with
  | Some q => q
  | None => if is_empty fallback then S3Provider else default S3Provider (provider_alias fallback)
  end.
Definition ProviderFromScheme (scheme : string) : string :=
  let s := ToLower (TrimSuffix (TrimSpace scheme) "://") in
  if String.eqb s "s3" then S3Provider
  else if String.eqb s "gs" || String.eqb s "gcs" then GCSProvider
  else if String.eqb s "az" || String.eqb s "azblob" then AzureProvider
  else if String.eqb s "file" then FileProvider
  else "".
Definition ProviderToScheme (p : string) : string :=
  let p := NormalizeProvider p "" in
  if String.eqb p S3Provider then "s3"
  else if String.eqb p GCSProvider then "gs"
  else if String.eqb p AzureProvider then "azblob"
  else if String.eqb p FileProvider then "file"
  else "s3".
Definition ParseBucketProvider (raw : string) : result error string :=
  let s := ToLower (TrimSpace raw) in
  if is_empty s || String.eqb s S3Provider then Ok S3Provider
  else if String.eqb s GCSProvider || String.eqb s "gs" then Ok GCSProvider
  else if String.eqb s AzureProvider || String.eqb s "azblob" then Ok AzureProvider
  else if String.eqb s FileProvider then Ok FileProvider
  else Err (EText "unsupported provider %q").

(** ** provider.go: bucket names *)
(** A regular expression of the form ^[edge][mid]{lo,hi}[edge]$. *)
Definition name_match (edge mid : Ascii.ascii → bool) (lo hi : nat) (s : string) : bool :=
  match chars s with
  | [] => false
  | a :: l =>
      match reverse l with
      | [] => false
      | z :: m => edge a && edge z && forallb mid m && (lo <=? length m)%nat && (length m <=? hi)%nat
      end
  end.
Definition lower_or_digit (a : Ascii.ascii) : bool := is_lower a || is_digit a.
Definition s3BucketNameRE := name_match lower_or_digit (λ a, lower_or_digit a || one_of "-" a) 1 61.
Definition s3CompatibleBucketNameRE := name_match is_alnum (λ a, is_alnum a || one_of "._-" a) 0 253.
Definition azureBucketNameRE := name_match lower_or_digit (λ a, lower_or_digit a || one_of "-" a) 1 61.
Definition gcsBucketNameRE := name_match lower_or_digit (λ a, lower_or_digit a || one_of "._-" a) 1 220.

Definition refuse {A} (reason : string) : result error A := Err (EText ("bucket name %q " +:+ reason)).
Definition pattern_text (characters : string) : string :=
  "is invalid (" +:+ characters +:+ " only; must start and end with letter or number)".
Definition ContainsAny (s set : string) : bool := existsb (one_of set) (chars s).
Definition blanks : string := bytes [32; 9; 10; 13].

Definition validateS3CompatibleBucketName (bucketName : string) : result error unit :=
  let n := String.length bucketName in
  if (n <? 1)%nat || (255 <? n)%nat then refuse "must be 1-255 characters"
  else if ContainsAny bucketName (blanks +:+ "/\") then refuse "is invalid (spaces and path separators are not allowed)"
  else if s3CompatibleBucketNameRE bucketName then Ok tt else refuse (pattern_text "letters, numbers, hyphens, underscores, and dots").
Definition validateS3BucketName (bucketName : string) : result error unit :=
  let n := String.length bucketName in
  if (n <? 3)%nat || (63 <? n)%nat then refuse "must be 3-63 characters"
  else if s3BucketNameRE bucketName then Ok tt else refuse (pattern_text "lowercase letters, numbers, hyphens").
Definition validateAzureBucketName (bucketName : string) : result error unit :=
  let n := String.length bucketName in
  if (n <? 3)%nat || (63 <? n)%nat then refuse "must be 3-63 characters"
  else if Contains bucketName "--" then refuse "is invalid (consecutive hyphens are not allowed)"
  else if azureBucketNameRE bucketName then Ok tt else refuse (pattern_text "lowercase letters, numbers, hyphens").

(** net.ParseIP on a name without colon: four decimal fields of at most 255 without leading zero. *)
Definition ip_field (s : string) : bool :=
  match chars s with
  | [] => false
  | a :: l => forallb is_digit (a :: l) && ((length l =? 0)%nat || negb (Ascii.eqb a (Ascii.ascii_of_nat 48)))
              && (length l <? 3)%nat && match decimal 0 s with Some v => (v <=? 255)%Z | None => false end
  end.
Definition dot : Ascii.ascii := Ascii.ascii_of_nat 46.
Definition is_IPv4 (s : string) : bool :=
  let fields := Split dot s in (length fields =? 4)%nat && forallb ip_field fields.

Definition validateGCSBucketName (bucketName : string) : result error unit :=
  let n := String.length bucketName in
  if (n <? 3)%nat then refuse "must be at least 3 characters"
  else if ContainsAny bucketName blanks then refuse "is invalid (spaces are not allowed)"
  else if negb (gcsBucketNameRE bucketName) then refuse (pattern_text "lowercase letters, numbers, hyphens, underscores, and dots")
  else if HasPrefix bucketName "goog" then refuse "is invalid (cannot begin with goog)"
  else if is_IPv4 bucketName then refuse "is invalid (cannot be an IP address)"
  else if Contains bucketName "." then
    if (222 <? n)%nat then refuse "must be 222 characters or fewer when dots are present"
    else if existsb (λ seg, is_empty seg || (63 <? String.length seg)%nat) (Split dot bucketName)
    then refuse "is invalid (each dot-separated component must be 1-63 characters)"
    else Ok tt
  else if (63 <? n)%nat then refuse "must be 3-63 characters" else Ok tt.

Definition ValidateBucketNameWithEndpoint (providerName bucketName endpoint : string) : result error unit :=
  let bucketName := TrimSpace bucketName in
  if is_empty bucketName then Err (EText "bucket name is required")
  else
    let p := NormalizeProvider providerName "" in
    if String.eqb p S3Provider then
      if negb (is_empty (TrimSpace endpoint)) then validateS3CompatibleBucketName bucketName
      else validateS3BucketName bucketName
    else if String.eqb p GCSProvider then validateGCSBucketName bucketName
    else if String.eqb p AzureProvider then validateAzureBucketName bucketName
    else if String.eqb p FileProvider then Ok tt
    else Err (EText "unsupported provider %q").

(** ** path.go *)
Definition NormalizeStoragePath (rawPath bucket : string) : result error string :=
  let p := TrimSpace rawPath in
  if is_empty p then Ok ""
  else
    match url_Parse p with
    | None => Err (EText "invalid storage path: %w")
    | Some u =>
        let targetBucket := TrimSpace bucket in
        if negb (is_empty targetBucket) && negb (EqualFold (TrimSpace (url_Host u)) targetBucket)
        then Err (EText "path bucket %q does not match expected bucket %q")
        else if is_empty (ProviderFromScheme (url_Scheme u)) then Err (EText "unsupported storage scheme: %s")
        else Ok (Trim (TrimSpace (url_Path u)) "/")
    end.
Definition SchemeFromURL (raw : string) : string :=
  match Cut raw "://" with Some (scheme, _) => ToLower scheme | None => "" end.
Definition BucketToURL (bucket key : string) : string :=
  "s3://" +:+ TrimPrefix bucket "s3://" +:+ "/" +:+ TrimPrefix key "/".
(** [None] is [ok = false]. *)
Definition ParseS3URL (raw : string) : option (string * string) :=
  u ← url_Parse (TrimSpace raw);
  if negb (EqualFold (url_Scheme u) "s3") then None
  else
    let bucket := TrimSpace (url_Host u) in
    let key := TrimSpace (TrimPrefix (url_Path u) "/") in
    if is_empty bucket || is_empty key then None else Some (bucket, key).

(** ** Examples from the tests of the package *)
Example ParseS3URL_ex1 : ParseS3URL "s3://bucket/path/to/object" = Some ("bucket", "path/to/object").
Proof. vm_compute. reflexivity. Qed.
Example ParseS3URL_ex2 : ParseS3URL "s3://bucket/" = None.
Proof. vm_compute. reflexivity. Qed.
Example BucketToURL_ex : BucketToURL "s3://my-bucket" "/my-key" = "s3://my-bucket/my-key".
Proof. vm_compute. reflexivity. Qed.
Example Validate_ex :
  (is_ok ∘ λ c : string * string * string, ValidateBucketNameWithEndpoint c.1.1 c.1.2 c.2) <$>
    [("s3", "my-bucket", ""); ("s3", "my.bucket", ""); ("s3", "EllrottLab", "https://rgw.example");
     ("s3", "bad/name", "https://rgw.example"); ("gcs", "my.bucket.example", ""); ("gcs", "my_bucket", "");
     ("gcs", "goog-bucket", ""); ("gcs", "192.168.1.1", ""); ("azure", "my-azure-bucket", "");
     ("azure", "my.azure.bucket", ""); ("file", "/tmp/storage-root", "")]
  = [true; false; true; false; true; true; false; false; true; false; true].
Proof. vm_compute. reflexivity. Qed.
(** The message allows 1 to 255 characters, the expression wants two. *)
Example one_character_refused : is_ok (ValidateBucketNameWithEndpoint "s3" "a" "https://rgw.example") = false.
Proof. vm_compute. reflexivity. Qed.

(** ** Providers *)
Definition providers : list string := [S3Provider; GCSProvider; AzureProvider; FileProvider].
Lemma provider_alias_providers p q : provider_alias p = Some q → q ∈ providers.
Proof.
  unfold provider_alias. cbv zeta. destruct (existsb _ _) eqn:E.
  { intros [= <-]. apply existsb_exists in E as (x & Hx & ->%String.eqb_eq). by apply list_elem_of_In. }
  repeat case_match; intros [= <-]; unfold providers; set_solver.
Qed.
Lemma provider_alias_id q : q ∈ providers → provider_alias q = Some q.
Proof. unfold providers. rewrite !elem_of_cons, elem_of_nil. intros [->|[->|[->|[->|[]]]]]; vm_compute; reflexivity. Qed.
Lemma NormalizeProvider_providers p f : NormalizeProvider p f ∈ providers.
Proof.
  unfold NormalizeProvider. destruct (provider_alias p) as [q|] eqn:E; [by eapply provider_alias_providers|].
  assert (S3Provider ∈ providers) by (unfold providers; set_solver).
  destruct (is_empty f); [done|]. destruct (provider_alias f) eqn:F; [by eapply provider_alias_providers|done].
Qed.
Lemma NormalizeProvider_id q f : q ∈ providers → NormalizeProvider q f = q.
Proof. intros H. unfold NormalizeProvider. by rewrite provider_alias_id. Qed.
Lemma ProviderFromScheme_ToScheme p : ProviderFromScheme (ProviderToScheme p) = NormalizeProvider p "".
Proof.
  pose proof (NormalizeProvider_providers p "") as H. unfold ProviderToScheme. cbv zeta.
  unfold providers in H. rewrite !elem_of_cons, elem_of_nil in H.
  destruct H as [->|[->|[->|[->|[]]]]]; vm_compute; reflexivity.
Qed.

(** ** Characters of an accepted name *)
Definition name_char (a : Ascii.ascii) : bool := is_alnum a || one_of "._-" a.
Definition name (s : string) : Prop := s ≠ "" ∧ str_forall name_char s = true.

Lemma name_match_name edge mid lo hi s :
  (∀ a, edge a = true → name_char a = true) → (∀ a, mid a = true → name_char a = true) →
  name_match edge mid lo hi s = true → name s.
Proof.
  intros He Hm. unfold name_match, name, str_forall. destruct (chars s) as [|a l] eqn:E; [done|].
  destruct (reverse l) as [|z m] eqn:R; [done|]. rewrite !andb_true_iff. intros ((((Ha & Hz) & Hmid) & _) & _).
  split; [by intros ->|]. cbn [forallb]. rewrite (He _ Ha). cbn [andb]. rewrite forallb_forall in Hmid |- *.
  intros x Hx%list_elem_of_In. apply elem_of_reverse in Hx. rewrite R in Hx.
  apply elem_of_cons in Hx as [->|Hx]; [by apply He|]. by apply Hm, Hmid, list_elem_of_In.
Qed.
Lemma one_of_subset set1 set2 a : chars set1 ⊆ chars set2 → one_of set1 a = true → one_of set2 a = true.
Proof.
  unfold one_of. rewrite !existsb_exists. intros Hs (x & Hx & Heq). exists x. split; [|done].
  by apply list_elem_of_In, Hs, list_elem_of_In.
Qed.
Lemma lower_or_digit_name a : lower_or_digit a = true → name_char a = true.
Proof. unfold lower_or_digit, name_char, is_alnum. destruct (is_lower a), (is_digit a), (is_upper a); done. Qed.
Lemma alnum_name a : is_alnum a = true → name_char a = true.
Proof. unfold name_char. by intros ->. Qed.
Lemma set_name (f : Ascii.ascii → bool) set a :
  (∀ a, f a = true → name_char a = true) → chars set ⊆ chars "._-" → f a || one_of set a = true → name_char a = true.
Proof.
  intros Hf Hs [H|H]%orb_true_iff; [by apply Hf|]. unfold name_char.
  by rewrite (one_of_subset set "._-" a), orb_true_r.
Qed.

(** Closes [name s] from a match on [s], where [edge] shows that the end characters are name characters. *)
Local Ltac match_name edge :=
  match goal with
  | E : _ = true |- name _ =>
      refine (name_match_name _ _ _ _ _ _ _ E); [apply edge|intros a; apply set_name; [apply edge|done]]
  end.

(** Names of buckets that are not directories are made of letters, digits, dots, hyphens and underscores. *)
Lemma Validate_name p b endpoint :
  NormalizeProvider p "" ≠ FileProvider → ValidateBucketNameWithEndpoint p b endpoint = Ok tt → name (TrimSpace b).
Proof.
  intros Hp. unfold ValidateBucketNameWithEndpoint. cbv zeta. destruct (is_empty _); [done|].
  assert (String.eqb (NormalizeProvider p "") FileProvider = false) as -> by by apply String.eqb_neq.
  assert (chars "-" ⊆ chars "._-") by (vm_compute; set_solver).
  assert (chars "._-" ⊆ chars "._-") by done.
  destruct (String.eqb _ S3Provider).
  { destruct (negb _).
    - unfold validateS3CompatibleBucketName. cbv zeta. repeat case_match; try done. intros _.
      by match_name alnum_name.
    - unfold validateS3BucketName. cbv zeta. repeat case_match; try done. intros _.
      by match_name lower_or_digit_name. }
  destruct (String.eqb _ GCSProvider).
  { unfold validateGCSBucketName. cbv zeta. destruct (_ <? _)%nat; [done|]. destruct (ContainsAny _ _); [done|].
    destruct (gcsBucketNameRE _) eqn:E; [|done]. intros _.
    by match_name lower_or_digit_name. }
  destruct (String.eqb _ AzureProvider); [|done].
  unfold validateAzureBucketName. cbv zeta. repeat case_match; try done. intros _.
  by match_name lower_or_digit_name.
Qed.

Lemma name_char_cases a : name_char a = true →
  plain_char a = true ∧ host_char a = true ∧ a ≠ slash ∧ a ≠ colon ∧ a ≠ Ascii.ascii_of_nat 64 ∧ a ≠ Ascii.ascii_of_nat 91.
Proof. destruct a as [[] [] [] [] [] [] [] []]; vm_compute; intros H; try discriminate H; repeat split; discriminate. Qed.
Lemma name_avoid s c : str_forall name_char s = true → name_char c = false → c ∉ chars s.
Proof. unfold str_forall. rewrite forallb_forall. intros H Hc Hin%list_elem_of_In%H. congruence. Qed.
Lemma name_plain s : str_forall name_char s = true → plain s = true.
Proof.
  unfold plain, str_forall. rewrite !forallb_forall. intros H a Hin%H. by apply name_char_cases.
Qed.
Lemma unescape_name s : str_forall name_char s = true → unescape encodeHost s = Some s.
Proof.
  induction s as [|a s IH]; [done|]. change (name_char a && str_forall name_char s = true → unescape encodeHost (String a s) = Some (String a s)).
  rewrite andb_true_iff. intros [Ha Hs]. destruct (name_char_cases a Ha) as (Hp & Hh & _). simpl.
  unfold plain_char in Hp. destruct (Ascii.eqb a percent); [by rewrite andb_false_r in Hp|]. by rewrite Hh, IH.
Qed.
Lemma parseAuthority_name s : str_forall name_char s = true → parseAuthority s = Some s.
Proof.
  intros Hs. unfold parseAuthority, LastCut.
  assert (∀ c, name_char c = false → c ∉ chars s) as Hav by (intros; by apply name_avoid).
  assert (Cut (rev s) (rev "@") = None) as ->.
  { apply Cut_avoid. rewrite chars_rev, elem_of_reverse. by apply Hav. }
  unfold parseHost, Contains. change "[" with (String (Ascii.ascii_of_nat 91) ""). change ":" with (String colon "").
  rewrite !Cut_avoid by by apply Hav. by apply unescape_name.
Qed.

(** ** Locations parse to their parts *)
Definition schemes : list string := ["s3"; "gs"; "azblob"; "file"].
Lemma ProviderToScheme_schemes p : ProviderToScheme p ∈ schemes.
Proof. unfold ProviderToScheme, schemes. cbv zeta. repeat case_match; set_solver. Qed.

Lemma getScheme_schemes scheme s : scheme ∈ schemes → getScheme (scheme +:+ "://" +:+ s) = SchemeOk scheme ("//" +:+ s).
Proof. unfold schemes. rewrite !elem_of_cons, elem_of_nil. by intros [->|[->|[->|[->|[]]]]]. Qed.
Lemma schemes_plain scheme : scheme ∈ schemes → plain scheme = true ∧ ToLower scheme = scheme ∧ scheme ≠ "".
Proof. unfold schemes. rewrite !elem_of_cons, elem_of_nil. by intros [->|[->|[->|[->|[]]]]]. Qed.

(** [path] is empty or begins with a slash. *)
Lemma url_Parse_location scheme b path :
  scheme ∈ schemes → name b → plain path = true → (path = "" ∨ HasPrefix path "/" = true) →
  url_Parse (scheme +:+ "://" +:+ b +:+ path) = Some (mkURL scheme b path).
Proof.
  intros Hs [Hb Hn] Hp Hpath. destruct (schemes_plain _ Hs) as (Hsp & Hlow & Hne).
  assert (plain (scheme +:+ "://" +:+ b +:+ path) = true) as Hall.
  { by rewrite !plain_app, Hsp, (name_plain b), Hp. }
  assert (∀ c, plain_char c = false → c ∉ chars (scheme +:+ "://" +:+ b +:+ path)) as Hav
    by (intros; by apply plain_avoid).
  unfold url_Parse. rewrite Cut_avoid by by apply Hav. cbn [mbind option_bind].
  unfold url_parse. rewrite plain_no_ctl by done.
  assert (String.eqb (scheme +:+ "://" +:+ b +:+ path) "*" = false) as ->.
  { apply String.eqb_neq. intros E. apply (f_equal String.length) in E. rewrite !string_length_app in E. simpl in E. lia. }
  rewrite getScheme_schemes by done. cbv beta iota zeta. rewrite Hlow.
  assert (∀ c, plain_char c = false → c ∉ chars ("//" +:+ b +:+ path)) as Hav'.
  { intros c Hc Hin. apply (Hav c Hc). rewrite chars_app. apply elem_of_app. right.
    change (c ∈ chars (":" +:+ "//" +:+ b +:+ path)). rewrite chars_app. set_solver. }
  rewrite HasSuffix_avoid, Cut_avoid by by apply Hav'. cbn [andb].
  unfold parse_hier. rewrite (HasPrefix_app "/" ("/" +:+ b +:+ path) : HasPrefix ("//" +:+ b +:+ path) "/" = true).
  rewrite (HasPrefix_app "//" (b +:+ path)), (TrimPrefix_app "//" (b +:+ path)).
  assert (is_empty scheme = false) as -> by by apply is_empty_false. cbn [negb andb orb].
  assert (slash ∉ chars b) as Hsl by by apply name_avoid.
  destruct Hpath as [->|[r ->]%HasPrefix_true].
  - rewrite string_app_nil_r. change "/" with (String slash ""). rewrite Cut_avoid by done.
    rewrite parseAuthority_name by done. done.
  - change ("/" +:+ r) with (String slash "" +:+ r). change "/" with (String slash "").
    rewrite (Cut_app b slash "" r) by done. rewrite parseAuthority_name by done. cbn [mbind option_bind].
    by rewrite unescape_plain.
Qed.

Lemma spaces_no_name : Forall (λ w, w ≠ "" ∧ ∀ c, c ∈ chars w → name_char c = false ∧ c ≠ colon ∧ c ≠ slash) unicode_spaces.
Proof.
  assert (forallb (λ w, negb (is_empty w) &&
    forallb (λ c, negb (name_char c || Ascii.eqb c colon || Ascii.eqb c slash)) (chars w)) unicode_spaces = true) as H
    by (vm_compute; reflexivity).
  rewrite forallb_forall in H. apply Forall_forall. intros w Hw%list_elem_of_In%H.
  apply andb_true_iff in Hw as [Hne Hc]. split; [by apply is_empty_false, negb_true_iff|].
  intros c Hin%list_elem_of_In. rewrite forallb_forall in Hc. specialize (Hc _ Hin).
  apply negb_true_iff in Hc. rewrite !orb_false_iff in Hc. destruct Hc as ((? & ?%Ascii.eqb_neq) & ?%Ascii.eqb_neq). done.
Qed.
Lemma TrimSpace_name_chars s :
  (∀ c, c ∈ chars s → name_char c = true ∨ c = colon ∨ c = slash) → TrimSpace s = s.
Proof.
  intros Hs. apply trim_avoid_chars. eapply Forall_impl; [exact spaces_no_name|]. intros w [Hne Hw].
  split; [done|]. intros c Hc Hin. destruct (Hw c Hc) as (Hn & ? & ?). destruct (Hs c Hin) as [|[]]; congruence.
Qed.
Lemma name_elem s c : str_forall name_char s = true → c ∈ chars s → name_char c = true.
Proof. unfold str_forall. rewrite forallb_forall. intros H Hin%list_elem_of_In. by apply H. Qed.
Lemma TrimSpace_name s : name s → TrimSpace s = s.
Proof. intros [_ Hs]. apply TrimSpace_name_chars. intros c Hc. left. by eapply name_elem. Qed.
Lemma schemes_name scheme : scheme ∈ schemes → str_forall name_char scheme = true.
Proof. unfold schemes. rewrite !elem_of_cons, elem_of_nil. by intros [->|[->|[->|[->|[]]]]]. Qed.

(** What may follow the bucket in a location: nothing, or a slash and a key. *)
Definition location_path (path : string) : Prop := path = "" ∨ HasPrefix path "/" = true.
(** A location is trimmed when its path is. *)
Lemma TrimSpace_location scheme b path :
  scheme ∈ schemes → name b → TrimSpace path = path → location_path path →
  TrimSpace (scheme +:+ "://" +:+ b +:+ path) = scheme +:+ "://" +:+ b +:+ path.
Proof.
  intros Hs [_ Hb] Hk Hpath. pose proof (schemes_name _ Hs) as Hn.
  assert (∀ c, c ∈ chars (scheme +:+ "://" +:+ b +:+ "/") → name_char c = true ∨ c = colon ∨ c = slash) as Hall.
  { intros c. rewrite !chars_app, !elem_of_app. change (chars "://") with [colon; slash; slash]. change (chars "/") with [slash].
    rewrite !elem_of_cons, !elem_of_nil. intros [H|[H|[H|H]]]; [left; by eapply name_elem|naive_solver|left; by eapply (name_elem b)|naive_solver]. }
  destruct Hpath as [->|[k ->]%HasPrefix_true].
  { rewrite string_app_nil_r. apply TrimSpace_name_chars. intros c Hc. apply Hall.
    rewrite !chars_app, !elem_of_app in *. tauto. }
  destruct (decide (k = "")) as [->|Hne].
  { rewrite !string_app_nil_r in *. by apply TrimSpace_name_chars. }
  apply TrimSpace_trimmed in Hk as [_ Hk]. rewrite rev_app in Hk. apply first_strip_None_app in Hk.
  rewrite (assoc_L String.append "://" b), (assoc_L String.append scheme).
  apply trim_id. split.
  - destruct scheme as [|a scheme]; [by apply schemes_plain in Hs|].
    rewrite !string_app_cons. apply first_strip_avoid_left; [apply unicode_spaces_ok|].
    eapply Forall_impl; [exact spaces_no_name|]. intros w [_ Hw] Hin. apply Hw in Hin as [Hin _].
    by rewrite (name_elem _ a Hn) in Hin by set_solver.
  - apply (first_strip_avoid_right unicode_spaces slash (scheme +:+ "://" +:+ b)); [apply spaces_avoid_slash|done|done].
Qed.

(** A key that a URL can carry as it is. *)
Definition plain_key (k : string) : Prop := TrimSpace k = k ∧ k ≠ "" ∧ plain k = true ∧ HasPrefix k "/" = false.
#[export] Instance plain_key_dec k : Decision (plain_key k).
Proof. unfold plain_key. apply _. Defined.

Lemma TrimPrefix_none s p : HasPrefix s p = false → TrimPrefix s p = s.
Proof.
  unfold HasPrefix, TrimPrefix. rewrite bool_decide_eq_false, <- eq_None_not_Some. by intros ->.
Qed.
Lemma BucketToURL_name b k : name b → plain_key k → BucketToURL b k = "s3" +:+ "://" +:+ b +:+ "/" +:+ k.
Proof.
  intros [_ Hb] (_ & _ & _ & Hk). unfold BucketToURL. rewrite (TrimPrefix_none k) by done.
  rewrite (TrimPrefix_none b); [done|]. apply not_true_is_false. rewrite HasPrefix_true. intros [r ->].
  assert (name_char colon = true); [|done]. eapply name_elem; [exact Hb|].
  rewrite chars_app. apply elem_of_app. left. vm_compute. set_solver.
Qed.
Lemma ParseS3URL_BucketToURL b k : name b → plain_key k → ParseS3URL (BucketToURL b k) = Some (b, k).
Proof.
  intros Hb Hk. pose proof Hk as (Ht & Hne & Hp & Hs). rewrite BucketToURL_name by done. unfold ParseS3URL.
  rewrite TrimSpace_location; [|unfold schemes; set_solver|done|by apply (TrimSpace_slash k)|right; apply HasPrefix_app].
  rewrite url_Parse_location; [|unfold schemes; set_solver|done|by rewrite plain_app, Hp|right; apply HasPrefix_app].
  cbn [mbind option_bind url_Scheme url_Host url_Path]. rewrite TrimPrefix_app, Ht, TrimSpace_name by done.
  rewrite (proj2 (is_empty_false k)) by done. by rewrite (proj2 (is_empty_false b)) by apply Hb.
Qed.

(** The path that the scope listing shows for a scope (ListBucketScopes of internal/httpapi/buckets/handlers.go). *)
Definition scope_path (provider bucket prefix : string) : string :=
  let path := ProviderToScheme provider +:+ "://" +:+ bucket in
  if is_empty (TrimSpace prefix) then path else path +:+ "/" +:+ Trim (TrimSpace prefix) "/".
(** A prefix as the scope tables hold it. *)
Definition stored_prefix (prefix : string) : Prop :=
  TrimSpace prefix = prefix ∧ Trim prefix "/" = prefix ∧ plain prefix = true.
#[export] Instance stored_prefix_dec prefix : Decision (stored_prefix prefix).
Proof. unfold stored_prefix. apply _. Defined.

Lemma NormalizeStoragePath_location scheme b path bucket :
  scheme ∈ schemes → ProviderFromScheme scheme ≠ "" → name b → TrimSpace bucket = b → plain path = true →
  TrimSpace path = path → location_path path →
  NormalizeStoragePath (scheme +:+ "://" +:+ b +:+ path) bucket = Ok (Trim path "/").
Proof.
  intros Hs Hp Hb Hbu Hpl Ht Hpath. unfold NormalizeStoragePath. cbv zeta.
  rewrite TrimSpace_location, url_Parse_location by done. cbn [url_Host url_Scheme url_Path].
  rewrite Hbu, (TrimSpace_name b), Ht by done.
  assert (EqualFold b b = true) as -> by by apply EqualFold_spec.
  rewrite (proj2 (is_empty_false (ProviderFromScheme scheme))) by done. rewrite andb_false_r.
  rewrite (proj2 (is_empty_false _)); [done|]. intros E%string_app_eq_nil. apply schemes_plain in Hs. naive_solver.
Qed.

(** What the server accepts as a bucket name survives the trip through a URL: the location of a key in the
    bucket parses back to the bucket and the key, and the path shown for a scope of the bucket, whatever its
    provider, is read back as the prefix of the scope. *)
Theorem validated_bucket_roundtrip provider endpoint b k prefix :
  NormalizeProvider provider "" ≠ FileProvider →
  ValidateBucketNameWithEndpoint provider b endpoint = Ok tt →
  plain_key k → stored_prefix prefix →
  ParseS3URL (BucketToURL (TrimSpace b) k) = Some (TrimSpace b, k) ∧
  NormalizeStoragePath (scope_path provider (TrimSpace b) prefix) b = Ok prefix.
Proof.
  intros Hp Hv Hk (Ht & Htrim & Hpl). pose proof (Validate_name _ _ _ Hp Hv) as Hb.
  split; [by apply ParseS3URL_BucketToURL|]. unfold scope_path. cbv zeta. rewrite Ht, Htrim.
  assert (ProviderFromScheme (ProviderToScheme provider) ≠ "") as Hne.
  { rewrite ProviderFromScheme_ToScheme. pose proof (NormalizeProvider_providers provider "") as H.
    intros E. rewrite E in H. unfold providers in H. vm_compute in H. set_solver. }
  pose proof (ProviderToScheme_schemes provider) as Hs. destruct (is_empty prefix) eqn:Ee.
  - apply is_empty_spec in Ee as ->. rewrite <- (string_app_nil_r (TrimSpace b)) at 1.
    apply NormalizeStoragePath_location; (done || by left).
  - rewrite <- !(assoc_L String.append). rewrite NormalizeStoragePath_location; [f_equal; by apply (Trim_slash prefix)|done..| |].
    + by apply (TrimSpace_slash prefix).
    + right. apply HasPrefix_app.
Qed.
Lemma validated_bucket_roundtrip_witness :
  ParseS3URL (BucketToURL "my-bucket" "a/b c.txt") = Some ("my-bucket", "a/b c.txt") ∧
  NormalizeStoragePath (scope_path "gs" "my-bucket" "program/one") "my-bucket" = Ok "program/one".
Proof.
  refine (validated_bucket_roundtrip "gs" "" "my-bucket" "a/b c.txt" "program/one" _ _ _ _);
    [vm_compute; discriminate|vm_compute; reflexivity|by apply (bool_decide_unpack _); vm_compute..].
Defined.
(** A key with URL syntax does not survive: [BucketToURL] does not escape it. *)
Example escaped_key_lost :
  ParseS3URL (BucketToURL "bucket" "a#b") = Some ("bucket", "a") ∧
  ParseS3URL (BucketToURL "bucket" "a%41") = Some ("bucket", "aA") ∧
  ParseS3URL (BucketToURL "bucket" "100%") = None.
Proof. vm_compute. done. Qed.
