(* ===== verification/Cipher.v ===== *)
(** * Credentials at rest: internal/persistence/credentialcipher
    A secret field of a credential is sealed under a fresh data key, and the data key under a key manager: the
    local one, which holds a master key, or AWS KMS.  AES-GCM, base64 and the JSON encoding of the envelope are
    libraries and enter as the class [CryptoLib] with their round-trip laws; KMS is a service and enters as the
    class [KMS].  Random bytes are arguments. *)
From S2P Require Import Prelude GoStrings Errors.
From Stdlib Require Import Ascii.

(** ** The envelope *)
Record credentialEnvelopeV2 := mkEnvelope {
  env_Manager : string; env_KeyID : string; env_WrappedDEK : string; env_Nonce : string; env_Ciphertext : string }.
Record WrappedDataKey := mkWrapped { wk_Manager : string; wk_KeyID : string; wk_Ciphertext : string }.

(** Strings that JSON carries unchanged: json.Marshal replaces bytes that are not UTF-8. *)
Definition ascii_text (s : string) : Prop := forallb (λ a, nat_of_ascii a <? 128)%nat (chars s) = true.
#[export] Instance ascii_text_dec s : Decision (ascii_text s).
Proof. unfold ascii_text. apply _. Defined.
Definition ascii_envelope (e : credentialEnvelopeV2) : Prop :=
  ascii_text (env_Manager e) ∧ ascii_text (env_KeyID e) ∧ ascii_text (env_WrappedDEK e) ∧
  ascii_text (env_Nonce e) ∧ ascii_text (env_Ciphertext e).

Definition nonceSize : nat := 12.
Class CryptoLib := {
  (** gcm.Seal and gcm.Open under a key of AES-256. *)
  gcm_Seal : string → string → string → string;
  gcm_Open : string → string → string → option string;
  gcm_Open_Seal key nonce plaintext : gcm_Open key nonce (gcm_Seal key nonce plaintext) = Some plaintext;
  (** base64.RawStdEncoding *)
  b64_Encode : string → string;
  b64_Decode : string → option string;
  b64_Decode_Encode s : b64_Decode (b64_Encode s) = Some s;
  b64_ascii s : ascii_text (b64_Encode s);
  (** json.Marshal and json.Unmarshal of the envelope *)
  json_Marshal : credentialEnvelopeV2 → string;
  json_Unmarshal : string → option credentialEnvelopeV2;
  json_Unmarshal_Marshal e : ascii_envelope e → json_Unmarshal (json_Marshal e) = Some e;
  (** the hexadecimal form of the first 16 bytes of the SHA-256 of a key *)
  fingerprint : string → string;
  fingerprint_ascii key : ascii_text (fingerprint key) }.

(** Encrypt and Decrypt of AWS KMS: the key id and the blob, or the plaintext. *)
Class KMS := {
  kms_Encrypt : string → string → result error (string * string);
  kms_Decrypt : string → result error string }.

(** ** config.go: the settings and the master key in effect *)
Record settings := mkSettings {
  KeyManagerEnv : string;                   (** DRS_CREDENTIAL_KEY_MANAGER *)
  KMSKeyIDEnv : string;                     (** DRS_CREDENTIAL_KMS_KEY_ID *)
  credentialMasterKey : result error string (** from the environment or the key file: 32 bytes *) }.
(** The random bytes of one encryption: the data key and the nonces of its two seals. *)
Record randomness := mkRandomness { rnd_dek : string; rnd_nonce : string; rnd_wrap_nonce : string }.

Definition credentialCipherPrefixV1 := "enc:v1:".
Definition credentialCipherPrefixV2 := "enc:v2:".
Definition defaultCredentialKeyManager := "local".
Definition awsKMSKeyManagerName := "aws-kms".

Definition configuredCredentialKeyManagerName (st : settings) : string :=
  let name := ToLower (TrimSpace (KeyManagerEnv st)) in
  if negb (is_empty name) then name
  else if negb (is_empty (TrimSpace (KMSKeyIDEnv st))) then awsKMSKeyManagerName
  else defaultCredentialKeyManager.

(** ** key_manager.go: the registry *)
Inductive manager := LocalManager | KMSManager.
Definition resolveCredentialKeyManager (name : string) : result error manager :=
  let name := ToLower (TrimSpace name) in
  let name := if is_empty name then defaultCredentialKeyManager else name in
  if String.eqb name defaultCredentialKeyManager then Ok LocalManager
  else if String.eqb name awsKMSKeyManagerName then Ok KMSManager
  else Err (EText "credential key manager %q is not registered").

(** [required msg o]: the value, or the error [msg]. *)
Definition required {A} (msg : string) (o : option A) : result error A :=
  match o with Some a => Ok a | None => Err (EText msg) end.

Section cipher.
Context `{CryptoLib} `{KMS} (st : settings).

(** ** envelope.go: AES-GCM.  aes.NewCipher takes keys of 16, 24 and 32 bytes; Open panics on a nonce of another size. *)
Definition newCipher (key : string) : result error unit :=
  if existsb (Nat.eqb (String.length key)) [16; 24; 32] then Ok tt else Err (EText "cipher init failed: %w").
Definition encryptAESGCM (key nonce plaintext : string) : result error string :=
  _ ← newCipher key; Ok (gcm_Seal key nonce plaintext).
Definition decryptAESGCM (key nonce ciphertext : string) : result error string :=
  _ ← newCipher key;
  if (String.length nonce =? nonceSize)%nat then required "decrypt failed: %w" (gcm_Open key nonce ciphertext)
  else panic "crypto/cipher: incorrect nonce length given to GCM".
Definition decryptPackedAESGCM (key payload : string) : result error string :=
  _ ← newCipher key;
  if (String.length payload <? nonceSize)%nat then Err (EText "ciphertext payload too short")
  else required "decrypt failed: %w"
         (gcm_Open key (String.substring 0 nonceSize payload)
            (String.substring nonceSize (String.length payload - nonceSize) payload)).

(** ** local_key_manager.go and kms_key_manager.go *)
Definition WrapDataKey (m : manager) (rnd : randomness) : result error WrappedDataKey :=
  match m with
  | LocalManager =>
      kek ← credentialMasterKey st;
      if is_empty kek then Err (EText "%s is required to store non-empty credentials securely")
      else
        ciphertext ← encryptAESGCM kek (rnd_wrap_nonce rnd) (rnd_dek rnd);
        Ok (mkWrapped defaultCredentialKeyManager ("local:" +:+ fingerprint kek)
              (b64_Encode (rnd_wrap_nonce rnd +:+ ciphertext)))
  | KMSManager =>
      let keyID := TrimSpace (KMSKeyIDEnv st) in
      if is_empty keyID then Err (EText "%s is required for %s")
      else
        '(id, blob) ← kms_Encrypt keyID (rnd_dek rnd);
        Ok (mkWrapped awsKMSKeyManagerName id (b64_Encode blob))
  end.
Definition UnwrapDataKey (m : manager) (wrapped : WrappedDataKey) : result error string :=
  match m with
  | LocalManager =>
      kek ← credentialMasterKey st;
      if is_empty kek then Err (EText "encrypted credential found but master key is not configured")
      else match b64_Decode (wk_Ciphertext wrapped) with
           | None => Err (EText "decode wrapped data key: %w")
           | Some payload => decryptPackedAESGCM kek payload
           end
  | KMSManager =>
      match b64_Decode (wk_Ciphertext wrapped) with
      | None => Err (EText "decode wrapped data key: %w")
      | Some blob => kms_Decrypt blob
      end
  end.

(** ** envelope.go *)
Definition is_envelope (s : string) : bool :=
  HasPrefix s credentialCipherPrefixV1 || HasPrefix s credentialCipherPrefixV2.
Definition EncryptCredentialField (rnd : randomness) (plaintext : string) : result error string :=
  if is_empty plaintext then Ok ""
  else if is_envelope plaintext then Ok plaintext
  else
    m ← resolveCredentialKeyManager (configuredCredentialKeyManagerName st);
    ciphertext ← encryptAESGCM (rnd_dek rnd) (rnd_nonce rnd) plaintext;
    wrapped ← WrapDataKey m rnd;
    Ok (credentialCipherPrefixV2 +:+ b64_Encode (json_Marshal (mkEnvelope (wk_Manager wrapped) (wk_KeyID wrapped)
          (wk_Ciphertext wrapped) (b64_Encode (rnd_nonce rnd)) (b64_Encode ciphertext)))).

Definition decryptCredentialFieldV2 (value : string) : result error string :=
  payload ← required "envelope decode failed: %w" (b64_Decode (TrimPrefix value credentialCipherPrefixV2));
  envelope ← required "envelope parse failed: %w" (json_Unmarshal payload);
  if is_empty (TrimSpace (env_Manager envelope)) then Err (EText "envelope manager is required")
  else
    m ← resolveCredentialKeyManager (env_Manager envelope);
    dek ← UnwrapDataKey m (mkWrapped (env_Manager envelope) (env_KeyID envelope) (env_WrappedDEK envelope));
    nonce ← required "nonce decode failed: %w" (b64_Decode (env_Nonce envelope));
    ciphertext ← required "ciphertext decode failed: %w" (b64_Decode (env_Ciphertext envelope));
    decryptAESGCM dek nonce ciphertext.
Definition decryptCredentialFieldV1 (value : string) : result error string :=
  key ← credentialMasterKey st;
  if is_empty key then Err (EText "encrypted credential found but master key is not configured")
  else
    payload ← required "ciphertext decode failed: %w" (b64_Decode (TrimPrefix value credentialCipherPrefixV1));
    decryptPackedAESGCM key payload.
Definition DecryptCredentialField (value : string) : result error string :=
  if is_empty value then Ok ""
  else if negb (is_envelope value) then Ok value
  else if HasPrefix value credentialCipherPrefixV2 then decryptCredentialFieldV2 value
  else decryptCredentialFieldV1 value.
End cipher.

(** ** Round trip *)
Section roundtrip.
Context `{CryptoLib} `{KMS}.

(** What the runtime provides: random bytes of the sizes asked for, and a KMS that gives back the data keys it
    has encrypted and names its keys in ASCII. *)
Definition fresh (rnd : randomness) : Prop :=
  String.length (rnd_dek rnd) = 32 ∧ String.length (rnd_nonce rnd) = nonceSize ∧
  String.length (rnd_wrap_nonce rnd) = nonceSize.
Definition kms_honest : Prop := ∀ keyID dek id blob,
  kms_Encrypt keyID dek = Ok (id, blob) → kms_Decrypt blob = Ok dek ∧ ascii_text id.

Lemma substring_app_l s t : String.substring 0 (String.length s) (s +:+ t) = s.
Proof. induction s as [|a s IH]; [by destruct t|]. rewrite string_app_cons. simpl. by rewrite IH. Qed.
Lemma substring_app_r s t : String.substring (String.length s) (String.length t) (s +:+ t) = t.
Proof.
  induction s as [|a s IH]; [|by rewrite string_app_cons]. rewrite string_app_nil_l. cbn [String.length]. rewrite <- (string_app_nil_r t) at 2. apply substring_app_l.
Qed.
Lemma newCipher_length key : String.length key = 32 → newCipher key = Ok tt.
Proof. unfold newCipher. by intros ->. Qed.

Lemma ascii_text_app s t : ascii_text s → ascii_text t → ascii_text (s +:+ t).
Proof. unfold ascii_text. rewrite chars_app, forallb_app. by intros -> ->. Qed.

Lemma encryptAESGCM_Ok key nonce p ct :
  encryptAESGCM key nonce p = Ok ct → newCipher key = Ok tt ∧ ct = gcm_Seal key nonce p.
Proof. unfold encryptAESGCM. rewrite bind_Ok. by intros ([] & ? & [= <-]). Qed.
(** A wrapped data key is unwrapped by the manager that the envelope names. *)
Lemma Wrap_Unwrap st m rnd wrapped :
  kms_honest → fresh rnd → WrapDataKey st m rnd = Ok wrapped →
  resolveCredentialKeyManager (wk_Manager wrapped) = Ok m ∧ is_empty (TrimSpace (wk_Manager wrapped)) = false ∧
  UnwrapDataKey st m wrapped = Ok (rnd_dek rnd) ∧
  ascii_text (wk_Manager wrapped) ∧ ascii_text (wk_KeyID wrapped) ∧ ascii_text (wk_Ciphertext wrapped).
Proof.
  intros Hk (Hd & Hn & Hw) Hr. destruct m; simpl in Hr.
  - apply bind_Ok in Hr as (kek & Hkek & Hr). simpl. rewrite Hkek. simpl. destruct (is_empty kek); [done|].
    apply bind_Ok in Hr as (ct & [Hc ->]%encryptAESGCM_Ok & [= <-]).
    split_and!; [done|done| |done|apply ascii_text_app; [done|apply fingerprint_ascii]|apply b64_ascii].
    cbn [wk_Ciphertext]. rewrite b64_Decode_Encode. unfold decryptPackedAESGCM.  rewrite Hc.
    cbn [mbind result_bind].
    rewrite string_length_app, Hw. rewrite (proj2 (Nat.ltb_ge _ _)) by lia.
    replace (nonceSize + _ - nonceSize) with (String.length (gcm_Seal kek (rnd_wrap_nonce rnd) (rnd_dek rnd))) by lia.
    rewrite <- Hw, substring_app_l, substring_app_r, gcm_Open_Seal. done.
  - destruct (is_empty _); [done|]. apply bind_Ok in Hr as ([id blob] & He & [= <-]).
    destruct (Hk _ _ _ _ He) as [Hdec Hid]. simpl. rewrite b64_Decode_Encode.
    split_and!; (done || apply b64_ascii).
Qed.

Lemma encrypted_prefix c : is_empty (credentialCipherPrefixV2 +:+ c) = false ∧ is_envelope (credentialCipherPrefixV2 +:+ c) = true.
Proof. split; [done|]. unfold is_envelope. by rewrite HasPrefix_app, orb_true_r. Qed.

Lemma Encrypt_Decrypt st st' rnd plaintext stored :
  kms_honest → fresh rnd → credentialMasterKey st' = credentialMasterKey st →
  is_envelope plaintext = false →
  EncryptCredentialField st rnd plaintext = Ok stored →
  DecryptCredentialField st' stored = Ok plaintext ∧
  (plaintext = "" ∨ HasPrefix stored credentialCipherPrefixV2 = true) ∧
  ∀ rnd', EncryptCredentialField st' rnd' stored = Ok stored.
Proof.
  intros Hk Hf Hkey Hp. pose proof Hf as (Hd & Hn & _). unfold EncryptCredentialField. rewrite Hp.
  destruct (is_empty plaintext) eqn:Ee.
  { apply is_empty_spec in Ee as ->. intros [= <-]. split_and!; [done|by left|done]. }
  rewrite bind_Ok. intros (m & Hm & Hr). apply bind_Ok in Hr as (ct & [_ ->]%encryptAESGCM_Ok & Hr).
  apply bind_Ok in Hr as (wrapped & Hw & [= <-]).
  pose proof (Wrap_Unwrap _ _ _ _ Hk Hf Hw) as (Hres & Hne & Hun & Ha1 & Ha2 & Ha3).
  match goal with |- context [credentialCipherPrefixV2 +:+ ?c] => destruct (encrypted_prefix c) as [He Hi] end.
  split_and!; [|right; apply HasPrefix_app|intros rnd'; by rewrite He, Hi].
  unfold DecryptCredentialField. rewrite He, Hi, HasPrefix_app. cbn [negb].
  unfold decryptCredentialFieldV2. rewrite TrimPrefix_app, b64_Decode_Encode. cbn [required mbind result_bind].
  rewrite json_Unmarshal_Marshal by (split_and!; (done || apply b64_ascii)).
  cbn [required mbind result_bind env_Manager env_KeyID env_WrappedDEK env_Nonce env_Ciphertext].
  rewrite Hne, Hres. cbn [mbind result_bind].
  assert (UnwrapDataKey st' m wrapped = Ok (rnd_dek rnd)) as Hun'.
  { rewrite <- Hun. destruct m; simpl; by rewrite ?Hkey. }
  destruct wrapped as [wm wi wc]. cbn [wk_Manager wk_KeyID wk_Ciphertext] in *. rewrite Hun'.
  rewrite !b64_Decode_Encode. cbn [required mbind result_bind].
  unfold decryptAESGCM. rewrite newCipher_length, Hn by done. cbn [mbind result_bind].
  change (nonceSize =? nonceSize)%nat with true. cbv iota. by rewrite gcm_Open_Seal.
Qed.
End roundtrip.

(** ** A library to run the definitions on: two letters per byte, a transparent seal *)
Module Sample.
Definition nibble (n : nat) : ascii := ascii_of_nat (97 + n).
Fixpoint encode (s : string) : string :=
  match s with
  | "" => ""
  | String a s => String (nibble (nat_of_ascii a / 16)) (String (nibble (nat_of_ascii a mod 16)) (encode s))
  end.
Fixpoint decode (s : string) : option string :=
  match s with
  | "" => Some ""
  | String h (String l s) => String (ascii_of_nat (16 * (nat_of_ascii h - 97) + (nat_of_ascii l - 97))) <$> decode s
  | _ => None
  end.
Lemma nibble_byte a :
  ascii_of_nat (16 * (nat_of_ascii (nibble (nat_of_ascii a / 16)) - 97) +
                (nat_of_ascii (nibble (nat_of_ascii a mod 16)) - 97)) = a ∧
  (nat_of_ascii (nibble (nat_of_ascii a / 16)) <? 128)%nat = true ∧
  (nat_of_ascii (nibble (nat_of_ascii a mod 16)) <? 128)%nat = true.
Proof. destruct a as [[] [] [] [] [] [] [] []]; vm_compute; done. Qed.
Lemma decode_encode s : decode (encode s) = Some s.
Proof.
  induction s as [|a s IH]; [done|]. cbn [encode decode]. rewrite IH. unfold fmap, option_fmap, option_map.
  by rewrite (proj1 (nibble_byte a)).
Qed.
Lemma encode_ascii s : ascii_text (encode s).
Proof.
  unfold ascii_text. induction s as [|a s IH]; [done|]. cbn [encode].
  destruct (nibble_byte a) as (_ & H1 & H2).
  change ((nat_of_ascii (nibble (nat_of_ascii a / 16)) <? 128)%nat && ((nat_of_ascii (nibble (nat_of_ascii a mod 16)) <? 128)%nat
    && forallb (λ a, nat_of_ascii a <? 128)%nat (chars (encode s))) = true). by rewrite H1, H2, IH.
Qed.
Definition sep : ascii := ascii_of_nat 255.
Definition marshal (e : credentialEnvelopeV2) : string :=
  Join [env_Manager e; env_KeyID e; env_WrappedDEK e; env_Nonce e; env_Ciphertext e] (String sep "").
Definition unmarshal (s : string) : option credentialEnvelopeV2 :=
  match Split sep s with [m; k; w; n; c] => Some (mkEnvelope m k w n c) | _ => None end.
Lemma ascii_no_sep s : ascii_text s → sep ∉ chars s.
Proof. unfold ascii_text. rewrite forallb_forall. intros H Hin%list_elem_of_In%H. done. Qed.
Lemma unmarshal_marshal e : ascii_envelope e → unmarshal (marshal e) = Some e.
Proof.
  intros (?&?&?&?&?). unfold unmarshal, marshal. rewrite Split_Join; [by destruct e|done|].
  repeat constructor; by apply ascii_no_sep.
Qed.
#[export] Instance library : CryptoLib := {|
  gcm_Seal := λ _ _ p, p; gcm_Open := λ _ _ c, Some c; gcm_Open_Seal _ _ _ := eq_refl;
  b64_Encode := encode; b64_Decode := decode; b64_Decode_Encode := decode_encode; b64_ascii := encode_ascii;
  json_Marshal := marshal; json_Unmarshal := unmarshal; json_Unmarshal_Marshal := unmarshal_marshal;
  fingerprint := λ _, ""; fingerprint_ascii _ := eq_refl |}.
(** A KMS that encrypts by reversing. *)
#[export] Instance kms : KMS := {|
  kms_Encrypt := λ id dek, Ok ("key", rev dek); kms_Decrypt := λ blob, Ok (rev blob) |}.
Lemma honest : kms_honest.
Proof. intros id dek i b [= <- <-]. simpl. by rewrite rev_involutive. Qed.
Definition key32 : string := "0123456789abcdef0123456789abcdef".
Definition bytes12 : string := "0123456789ab".
Definition local_settings : settings := mkSettings "" "" (Ok key32).
Definition kms_settings : settings := mkSettings " AWS-KMS" "alias/k" (Ok key32).
Definition random : randomness := mkRandomness key32 bytes12 bytes12.
End Sample.
#[local] Existing Instances Sample.library Sample.kms.

(** A secret that looks like an envelope is stored as it is, and cannot be read. *)
Example envelope_lookalike_unreadable :
  EncryptCredentialField Sample.local_settings Sample.random "enc:v1:mykey" = Ok "enc:v1:mykey" ∧
  is_ok (DecryptCredentialField Sample.local_settings "enc:v1:mykey") = false.
Proof. vm_compute. done. Qed.
