(* ===== verification/Buckets.v ===== *)
(** * Bucket scopes and credentials: internal/buckets
    The service resolves an organization and a project to a bucket, a path prefix and a credential, keeps the
    answers of lookups in a cache with a lifetime, and removes a credential with its last scope.  The
    repositories of ports.go are the class [BucketPorts]; the clock is read where the code calls it, so the
    instants are arguments.  Log lines are not modelled. *)
From S2P Require Import Prelude GoStrings GoURL Errors Resources Policy Objects Address.

(** ** values.go *)
Record Credential := mkCredential {
  c_CredentialID : string; c_Bucket : string; c_Provider : string; c_Region : string;
  c_AccessKey : string; c_SecretKey : string; c_Endpoint : string }.
Record Scope := mkScope {
  s_Organization : string; s_ProjectID : string; s_CredentialID : string; s_Bucket : string; s_PathPrefix : string }.
Record VisibilityRow := mkRow { v_AccessURL : string; v_AccessType : string; v_Resource : string }.
Record VisibleBucket := mkVisible { vb_Credential : Credential; vb_Programs : list string }.
#[export] Instance Credential_eq_dec : EqDecision Credential.
Proof. solve_decision. Defined.
#[export] Instance Scope_eq_dec : EqDecision Scope.
Proof. solve_decision. Defined.

(** ** identity.go: the identifier of a credential *)
(** The width of the UTF-8 sequence at the head of a string; an invalid byte counts as one rune. *)
Definition cont (lo hi : nat) (a : Ascii.ascii) : bool := between lo hi a.
Definition rune_width (s : string) : nat :=
  match chars s with
  | [] => 0
  | a :: l =>
      let n := Ascii.nat_of_ascii a in
      let ok2 lo hi := match l with b :: _ => cont lo hi b | _ => false end in
      let ok3 lo hi := match l with b :: c :: _ => cont lo hi b && cont 128 191 c | _ => false end in
      let ok4 lo hi := match l with b :: c :: d :: _ => cont lo hi b && cont 128 191 c && cont 128 191 d | _ => false end in
      if (194 <=? n)%nat && (n <=? 223)%nat then if ok2 128 191 then 2 else 1
      else if (n =? 224)%nat then if ok3 160 191 then 3 else 1
      else if (n =? 237)%nat then if ok3 128 159 then 3 else 1
      else if (225 <=? n)%nat && (n <=? 239)%nat then if ok3 128 191 then 3 else 1
      else if (n =? 240)%nat then if ok4 144 191 then 4 else 1
      else if (241 <=? n)%nat && (n <=? 243)%nat then if ok4 128 191 then 4 else 1
      else if (n =? 244)%nat then if ok4 128 143 then 4 else 1
      else 1
  end.
(** The loop of [credentialIDPrefix], with the length of what is left to read as fuel and the builder [b]. *)
Fixpoint prefix_go (fuel : nat) (b s : string) : string :=
  match fuel, s with
  | S fuel, String a rest =>
      let width := rune_width s in
      let rest := String.substring (width - 1) (String.length rest) rest in
      let b := if is_lower a || is_digit a then b +:+ String a ""
               else if (0 <? String.length b)%nat then b +:+ "_" else b in
      if (32 <=? String.length b)%nat then b else prefix_go fuel b rest
  | _, _ => b
  end.
Definition credentialIDPrefix (bucket : string) : string :=
  let s := ToLower (TrimSpace bucket) in
  let prefix := Trim (prefix_go (String.length s) "" s) "_" in
  if is_empty prefix then "credential" else prefix.
Definition credentialIDHashLength : nat := 12.
Definition nul : string := bytes [0].
Definition DeriveCredentialID `{Digests} (bucket provider region endpoint accessKey : string) : string :=
  let material := Join [NormalizeProvider provider S3Provider; TrimRight (ToLower (TrimSpace endpoint)) "/";
                        TrimSpace bucket; ToLower (TrimSpace region); TrimSpace accessKey] nul in
  credentialIDPrefix (TrimSpace bucket) +:+ "_" +:+ String.substring 0 credentialIDHashLength (sha256_hex material).

(** ** credentials.go, scopes.go: who a credential and a scope are *)
Definition credentialIDForCredential (cred : Credential) : string :=
  if negb (is_empty (TrimSpace (c_CredentialID cred))) then TrimSpace (c_CredentialID cred) else TrimSpace (c_Bucket cred).
Definition credentialIDForScope (scope : Scope) : string :=
  if negb (is_empty (TrimSpace (s_CredentialID scope))) then TrimSpace (s_CredentialID scope) else TrimSpace (s_Bucket scope).
Definition names_credential (candidate : string) (cred : Credential) : bool :=
  EqualFold candidate (credentialIDForCredential cred) || EqualFold candidate (TrimSpace (c_Bucket cred))
  || EqualFold candidate (TrimSpace (c_CredentialID cred)).
Definition scopeCredentialIDForCredentials (scope : Scope) (creds : list Credential) : string :=
  let candidate := credentialIDForScope scope in
  match list_find (λ cred, names_credential candidate cred = true) creds with
  | Some (_, cred) => credentialIDForCredential cred
  | None => candidate
  end.
Definition scopeBelongsTo (scope : Scope) (credentialID bucket : string) : bool :=
  existsb (λ candidate, EqualFold (TrimSpace candidate) (TrimSpace credentialID)
                        || (negb (is_empty bucket) && EqualFold (TrimSpace candidate) bucket))
    [s_CredentialID scope; s_Bucket scope].

(** ** ports.go *)
Class BucketPorts (S : Type) := {
  port_GetS3Credential : string → S → result error (option Credential);
  port_ListS3Credentials : S → result error (list Credential);
  (** The second component is the credential of the caller, which the repository may complete. *)
  port_SaveS3Credential : option Credential → S → S * option Credential * result error unit;
  port_DeleteS3Credential : string → service S unit;
  port_CreateBucketScope : option Scope → service S unit;
  port_DeleteBucketScope : string → string → string → string → service S unit;
  port_GetBucketScope : string → string → S → result error (option Scope);
  port_ListBucketScopes : S → result error (list Scope);
  port_ListBucketVisibilityRows : option (list string → bool → bool → S → result error (list VisibilityRow));
  port_VisibilityFallback : option (context → S → result error (list VisibilityRow)) }.

(** ** scope_cache.go *)
Record cachedScope := mkCached { cached_scope : Scope; cached_found : bool; cached_expires : Z }.
Abbreviation scopeCache := (gmap string cachedScope).
Definition scopeCacheKey (organization project : string) : string :=
  TrimSpace organization +:+ nul +:+ TrimSpace project.
Definition normalizeScope (scope : Scope) : Scope :=
  mkScope (TrimSpace (s_Organization scope)) (TrimSpace (s_ProjectID scope)) (TrimSpace (s_CredentialID scope))
    (TrimSpace (s_Bucket scope)) (Trim (TrimSpace (s_PathPrefix scope)) "/").
Definition noScope : Scope := mkScope "" "" "" "" "".
(** [None] is a miss. *)
Definition cache_get (now : Z) (organization project : string) (c : scopeCache) : option (Scope * bool) :=
  match c !! scopeCacheKey organization project with
  | Some entry => if (cached_expires entry <? now)%Z then None else Some (cached_scope entry, cached_found entry)
  | None => None
  end.
Definition cache_set (ttl now : Z) (scope : Scope) (found : bool) (c : scopeCache) : scopeCache :=
  let scope := normalizeScope scope in
  <[scopeCacheKey (s_Organization scope) (s_ProjectID scope) := mkCached scope found (now + ttl)%Z]> c.
(** defaultScopeCacheTTL, in nanoseconds *)
Definition defaultScopeCacheTTL : Z := 30 * 10 ^ 9.

(** ** service.go *)
Record ServiceState (S : Type) := mkService {
  sv_store : S;
  sv_cache : scopeCache;
  sv_invalidated : list string  (** the calls of [InvalidateBucket], in order *) }.
Arguments mkService {S} _ _ _.
Arguments sv_store {S} _.
Arguments sv_cache {S} _.
Arguments sv_invalidated {S} _.

Section service.
Context {S : Type} `{!BucketPorts S} (ttl : Z) (signerCacheInvalidator : bool).
Local Abbreviation M A := (service (ServiceState S) A).

Definition set_store (store : S) (s : ServiceState S) : ServiceState S := mkService store (sv_cache s) (sv_invalidated s).
Definition set_cache (c : scopeCache) (s : ServiceState S) : ServiceState S := mkService (sv_store s) c (sv_invalidated s).
(** A repository call made by the service. *)
Definition on_store {A} (m : service S A) : M A := λ s, let '(store, r) := m (sv_store s) in (set_store store s, r).
Definition ask_store {A} (f : S → result error A) : M A := ask (f ∘ sv_store).
Definition on_cache (f : scopeCache → scopeCache) : M unit := λ s, (set_cache (f (sv_cache s)) s, Ok tt).
Definition cache_clear : M unit := on_cache (λ _, ∅).

Definition isCredentialNotFoundError (e : error) : bool := errors_Is e ErrStorageCredentialMissing.
Definition ListS3Credentials (s : S) : result error (list Credential) := port_ListS3Credentials s.
Definition GetS3Credential (bucket : string) (s : S) : result error (option Credential) :=
  let fallback exact :=
    credentials ← port_ListS3Credentials s;
    let requested := TrimSpace bucket in
    match list_find (λ c, EqualFold (TrimSpace (c_Bucket c)) requested
                          || EqualFold (TrimSpace (c_CredentialID c)) requested = true) credentials with
    | Some (_, c) => Ok (Some c)
    | None => exact
    end in
  match port_GetS3Credential bucket s with
  | Ok (Some c) => Ok (Some c)
  | Ok None => fallback (Ok None)
  | Err e => if isCredentialNotFoundError e then fallback (Err e) else Err e
  end.

(** ** credentials.go *)
Definition invalidateAliases (aliases : list string) : M unit := λ s,
  if signerCacheInvalidator then
    (mkService (sv_store s) (sv_cache s)
       (sv_invalidated s ++ dedup_on id (filter (.≠ "") (TrimSpace <$> aliases))), Ok tt)
  else (s, Ok tt).
Definition aliases_of (cred : option Credential) : list string :=
  match cred with Some c => [credentialIDForCredential c; TrimSpace (c_Bucket c)] | None => [""; ""] end.
(** Returns the credential of the caller as the repository has completed it. *)
Definition SaveS3Credential (cred : option Credential) : M (option Credential) := λ s,
  let requested := aliases_of cred in
  let '(store, cred, r) := port_SaveS3Credential cred (sv_store s) in
  let s := set_store store s in
  match r with
  | Err e => (s, Err e)
  | Ok _ =>
      (_ ← invalidateAliases (requested ++
         match cred with
         | Some c => [credentialIDForCredential c; c_CredentialID c; c_Bucket c]
         | None => [] end);
       mret cred) s
  end.
Definition DeleteS3Credential (bucket : string) : M unit := λ s,
  let resolved := match port_GetS3Credential bucket (sv_store s) with Ok c => c | Err _ => None end in
  (_ ← on_store (port_DeleteS3Credential bucket);
   _ ← cache_clear;
   invalidateAliases (TrimSpace bucket ::
     match resolved with Some c => [c_CredentialID c; c_Bucket c] | None => [] end)) s.
Definition ResolveBucket (bucketName : string) (s : S) : result error string :=
  creds ← ListS3Credentials s;
  match creds with
  | [] => Err (EText "no buckets configured")
  | c :: _ =>
      if is_empty bucketName then Ok (c_Bucket c)
      else match list_find (λ c, c_Bucket c = bucketName) creds with
           | Some (_, c) => Ok (c_Bucket c)
           | None => Err (EText "bucket %q not configured")
           end
  end.

(** ** scopes.go *)
Definition ListBucketScopes (s : S) : result error (list Scope) := port_ListBucketScopes s.
(** [now] is read when the cache is filled. *)
Definition CreateBucketScope (now : Z) (scope : option Scope) : M unit :=
  _ ← on_store (port_CreateBucketScope scope);
  on_cache (cache_set ttl now (from_option normalizeScope noScope scope) true).
(** The part of [DeleteBucketScope] after the deletion: a credential without scopes is removed, and an error of
    this clean-up is dropped. *)
Definition cleanup_credential (credentialID : string) : M unit := λ s,
  let '(resolvedID, resolvedBucket) :=
    match GetS3Credential credentialID (sv_store s) with
    | Ok (Some cred) => (credentialIDForCredential cred, TrimSpace (c_Bucket cred))
    | _ => (TrimSpace credentialID, "")
    end in
  match ListBucketScopes (sv_store s) with
  | Err _ => (s, Ok tt)
  | Ok scopes =>
      if existsb (λ scope, scopeBelongsTo scope resolvedID resolvedBucket) scopes then (s, Ok tt)
      else ((DeleteS3Credential resolvedID s).1, Ok tt)
  end.
Definition DeleteBucketScope (organization projectID credentialID pathPrefix : string) : M unit :=
  _ ← on_store (port_DeleteBucketScope organization projectID credentialID pathPrefix);
  _ ← cache_clear;
  cleanup_credential credentialID.
(** [now] is read by the look at the cache, [now'] when the cache is filled. *)
Definition LookupBucketScope (now now' : Z) (organization project : string) : M (Scope * bool) := λ s,
  match cache_get now organization project (sv_cache s) with
  | Some answer => (s, Ok answer)
  | None =>
      let missing := set_cache (cache_set ttl now' (mkScope organization project "" "" "") false (sv_cache s)) s in
      match port_GetBucketScope organization project (sv_store s) with
      | Err e => if IsNotFoundError e then (missing, Ok (noScope, false)) else (s, Err e)
      | Ok None => (missing, Ok (noScope, false))
      | Ok (Some scope) =>
          let normalized := normalizeScope scope in
          (set_cache (cache_set ttl now' normalized true (sv_cache s)) s, Ok (normalized, true))
      end
  end.
End service.

(** ** policy.go *)
Section policy.
Context `{MapOrder}.

Definition ScopeAllowed (ctx : context) (scope : Scope) (methods : list string) : bool :=
  match ResourcePath (s_Organization scope) (s_ProjectID scope) with
  | Ok resource => if is_empty resource then false else HasAnyMethodAccess ctx [resource] methods
  | Err _ => false
  end.
Definition BucketsAllowedByNames (ctx : context) (scopes : list Scope) (bucket : string) (methods : list string) : bool :=
  existsb (λ scope, String.eqb (s_Bucket scope) bucket && ScopeAllowed ctx scope methods) scopes.
Definition AuthorizeScopeWrite (ctx : context) (organization project : string) (methods : list string) : result error unit :=
  if is_empty (TrimSpace organization) then
    if negb (IsAuthzEnforced ctx) then Ok tt else Err (EDef ErrAccessDenied)
  else
    res ← ResourcePath organization project;
    if negb (is_empty res) && HasAnyMethodAccess ctx [res] methods then Ok tt
    else
      orgResource ← ResourcePath organization "";
      if negb (is_empty orgResource) &&
         HasAnyServiceMethodAccess ctx [orgResource] "arborist" ["create-descendant"; "manage-owners"]
      then Ok tt else Err (EDef ErrAccessDenied).
End policy.
