(* ===== verification/CredentialStore.v ===== *)
(** * Credentials and bucket scopes in SQLite: internal/persistence/sqlite/credentials.go, bucket_visibility.go
    The tables s3_credential and bucket_scope as lists of rows in the order of their row ids, which is the order
    of a table scan: an insertion appends, an update keeps the place.  The secrets of a stored credential are
    sealed by the cipher.  A statement is atomic; [DeleteS3Credential] runs two without a transaction. *)
From S2P Require Import Prelude GoStrings GoURL Errors Resources Policy Objects ContentStore ContentReads Address Cipher Buckets.

Record CredentialDB := mkCredentialDB {
  content : DB;
  s3_credential : list Credential;   (* primary key credential_id *)
  bucket_scope : list Scope          (* primary key (organization, project_id); a null path_prefix reads as "" *) }.
Definition set_s3_credential v db := mkCredentialDB (content db) v (bucket_scope db).
Definition set_bucket_scope v db := mkCredentialDB (content db) (s3_credential db) v.
Definition empty_credential_db : CredentialDB := mkCredentialDB empty_db [] [].

Definition set_secrets (c : Credential) (access secret : string) : Credential :=
  mkCredential (c_CredentialID c) (c_Bucket c) (c_Provider c) (c_Region c) access secret (c_Endpoint c).
Definition set_CredentialID (id : string) (c : Credential) : Credential :=
  mkCredential id (c_Bucket c) (c_Provider c) (c_Region c) (c_AccessKey c) (c_SecretKey c) (c_Endpoint c).
Definition set_Provider (p : string) (c : Credential) : Credential :=
  mkCredential (c_CredentialID c) (c_Bucket c) p (c_Region c) (c_AccessKey c) (c_SecretKey c) (c_Endpoint c).

(** common.go *)
Definition defaultProvider (provider : string) : string := if is_empty (TrimSpace provider) then "s3" else provider.

(** An error [e] wrapped by fmt.Errorf. *)
Definition wrap_error {A} (msg : string) (r : result error A) : result error A :=
  match r with Ok a => Ok a | Err e => Err (EWrap msg e) end.
Fixpoint mapM_result {A B} (f : A → result error B) (l : list A) : result error (list B) :=
  match l with [] => Ok [] | a :: l => b ← f a; bs ← mapM_result f l; Ok (b :: bs) end.

Section store.
Context `{CryptoLib} `{KMS} `{Digests} (st : settings).

(** ** credentialcipher/fields.go *)
Definition PrepareS3CredentialForStorage (rnd rnd' : randomness) (cred : option Credential) : result error Credential :=
  match cred with
  | None => Err (EText "credential is required")
  | Some c =>
      access ← EncryptCredentialField st rnd (c_AccessKey c);
      secret ← EncryptCredentialField st rnd' (c_SecretKey c);
      Ok (set_secrets c access secret)
  end.
Definition ParseS3CredentialFromStorage (c : Credential) : result error Credential :=
  access ← DecryptCredentialField st (c_AccessKey c);
  secret ← DecryptCredentialField st (c_SecretKey c);
  Ok (set_secrets c access secret).

(** ** credentials.go: credentials *)
Definition has_id (id : string) (c : Credential) : bool := String.eqb (c_CredentialID c) id.
Definition row_by_id (id : string) (rows : list Credential) : option Credential :=
  snd <$> list_find (λ c, has_id id c = true) rows.

Definition getS3CredentialByPhysicalBucket (bucket : string) (db : CredentialDB) : result error Credential :=
  match filter (λ c, c_Bucket c = bucket) (s3_credential db) with
  | [] => Err (EDef ErrStorageCredentialMissing)
  | [c] => wrap_error "failed to decrypt credential: %w" (ParseS3CredentialFromStorage c)
  | _ => Err (EText "multiple credentials use physical bucket %q; define the scope inline with the intended bucket credential")
  end.
Definition GetS3Credential (credentialID : string) (db : CredentialDB) : result error Credential :=
  match row_by_id credentialID (s3_credential db) with
  | None => getS3CredentialByPhysicalBucket credentialID db
  | Some c => wrap_error "failed to decrypt credential: %w" (ParseS3CredentialFromStorage c)
  end.
Definition ListS3Credentials (db : CredentialDB) : result error (list Credential) :=
  mapM_result (λ c, wrap_error "failed to decrypt credential for bucket %s: %w" (ParseS3CredentialFromStorage c))
    (s3_credential db).

(** A row of another credential has the bucket. *)
Definition bucket_taken (id bucket : string) (rows : list Credential) : bool :=
  existsb (λ c, String.eqb (c_Bucket c) bucket && negb (has_id id c)) rows.
Definition ensureUniquePhysicalBucket (credentialID bucket : string) (db : CredentialDB) : result error unit :=
  let credentialID := TrimSpace credentialID in
  let bucket := TrimSpace bucket in
  if is_empty bucket then Ok tt
  else if bucket_taken credentialID bucket (s3_credential db)
  then Err (EText "physical bucket %q is already configured under credential %q; reuse that credential and add a bucket scope instead")
  else Ok tt.
(** INSERT ... ON CONFLICT (credential_id) DO UPDATE, under the triggers of schema.go, whose condition is the
    same before an insertion and before an update. *)
Definition upsert_credential (row : Credential) (rows : list Credential) : list Credential :=
  if existsb (has_id (c_CredentialID row)) rows
  then (λ c, if has_id (c_CredentialID row) c then row else c) <$> rows
  else rows ++ [row].
Definition insert_credential (row : Credential) (db : CredentialDB) : result error CredentialDB :=
  if bucket_taken (c_CredentialID row) (c_Bucket row) (s3_credential db)
  then Err (EWrap "failed to save credential: %w" (EText "physical bucket is already configured under another credential"))
  else Ok (set_s3_credential (upsert_credential row (s3_credential db)) db).
(** The second component is the credential of the caller, whose identifier is filled in. *)
Definition SaveS3Credential (rnd rnd' : randomness) (cred : option Credential) (db : CredentialDB)
  : CredentialDB * option Credential * result error unit :=
  let cred := (λ c, if is_empty (TrimSpace (c_CredentialID c))
                    then set_CredentialID (DeriveCredentialID (c_Bucket c) (c_Provider c) (c_Region c) (c_Endpoint c)
                           (c_AccessKey c)) c
                    else c) <$> cred in
  let saved :=
    stored ← wrap_error "failed to prepare credential for storage: %w" (PrepareS3CredentialForStorage rnd rnd' cred);
    _ ← ensureUniquePhysicalBucket (c_CredentialID stored) (c_Bucket stored) db;
    insert_credential (set_Provider (ToLower (TrimSpace (defaultProvider (c_Provider stored)))) stored) db in
  match saved with
  | Ok db' => (db', cred, Ok tt)
  | Err e => (db, cred, Err e)
  end.

Definition resolveCredentialID (raw : string) (db : CredentialDB) : result error string :=
  let raw := TrimSpace raw in
  if is_empty raw then Err (EDef ErrStorageCredentialMissing)
  else match row_by_id raw (s3_credential db) with
       | Some c => Ok (c_CredentialID c)
       | None => cred ← getS3CredentialByPhysicalBucket raw db; Ok (c_CredentialID cred)
       end.
Definition DeleteS3Credential (credentialID : string) : service CredentialDB unit := λ db,
  match resolveCredentialID credentialID db with
  | Err e => (db, Err e)
  | Ok resolvedID =>
      let db := set_bucket_scope (filter (λ s, s_CredentialID s ≠ resolvedID) (bucket_scope db)) db in
      let db' := set_s3_credential (filter (λ c, has_id resolvedID c = false) (s3_credential db)) db in
      if existsb (has_id resolvedID) (s3_credential db) then (db', Ok tt)
      else (db', Err (EDef ErrStorageCredentialMissing))
  end.

(** ** credentials.go: scopes *)
Definition scope_at (org project : string) (s : Scope) : bool :=
  String.eqb (s_Organization s) org && String.eqb (s_ProjectID s) project.
Definition GetBucketScope (organization projectID : string) (db : CredentialDB) : result error Scope :=
  match list_find (λ s, scope_at (TrimSpace organization) (TrimSpace projectID) s = true) (bucket_scope db) with
  | Some (_, s) => Ok s
  | None => Err (EDef ErrBucketScopeNotFound)
  end.
Definition CreateBucketScope (scope : option Scope) : service CredentialDB unit := λ db,
  match scope with
  | None => (db, Err (EText "scope is required"))
  | Some scope =>
      let org := TrimSpace (s_Organization scope) in
      let project := TrimSpace (s_ProjectID scope) in
      let bucket := TrimSpace (s_Bucket scope) in
      let prefix := Trim (TrimSpace (s_PathPrefix scope)) "/" in
      let credentialID := TrimSpace (s_CredentialID scope) in
      let credentialID := if is_empty credentialID then bucket else credentialID in
      let row := mkScope org project credentialID bucket prefix in
      if is_empty org || is_empty bucket then (db, Err (EText "organization and bucket are required"))
      else
        match GetBucketScope org project db with
        | Ok existing =>
            if EqualFold (TrimSpace (s_CredentialID existing)) credentialID
               && EqualFold (TrimSpace (s_Bucket existing)) bucket
               && String.eqb (Trim (TrimSpace (s_PathPrefix existing)) "/") prefix
            then (db, Ok tt)
            else (set_bucket_scope ((λ s, if scope_at org project s then row else s) <$> bucket_scope db) db, Ok tt)
        | Err e =>
            if negb (errors_Is e ErrNotFound) then (db, Err e)
            else if existsb (scope_at org project) (bucket_scope db)
            then (db, Err (EText "failed to create bucket scope: %w"))
            else (set_bucket_scope (bucket_scope db ++ [row]) db, Ok tt)
        end
  end.
(** The condition of the DELETE statement. *)
Definition scope_matches (org project credentialID pathPrefix : string) (s : Scope) : bool :=
  scope_at org project s && (String.eqb (s_CredentialID s) credentialID || String.eqb (s_Bucket s) credentialID)
  && String.eqb (s_PathPrefix s) pathPrefix.
Definition DeleteBucketScope (organization projectID credentialID pathPrefix : string) : service CredentialDB unit := λ db,
  let org := TrimSpace organization in
  let project := TrimSpace projectID in
  let credentialID := TrimSpace credentialID in
  let pathPrefix := Trim (TrimSpace pathPrefix) "/" in
  if is_empty org || is_empty credentialID then (db, Err (EText "organization and credential_id are required"))
  else
    let matches := scope_matches org project credentialID pathPrefix in
    if existsb matches (bucket_scope db)
    then (set_bucket_scope (filter (λ s, matches s = false) (bucket_scope db)) db, Ok tt)
    else (db, Err (EDef ErrBucketScopeNotFound)).
Definition ListBucketScopes (db : CredentialDB) : result error (list Scope) := Ok (bucket_scope db).
End store.

(** ** bucket_visibility.go *)
Section visibility.
Context `{MapOrder}.

Definition visible_object (resources : list string) (includeUnscoped : bool) (db : DB) (id : string) : bool :=
  existsb (λ r, bool_decide (r ∈ resources)) (rows_of (controlled_access db) id)
  || (includeUnscoped && bool_decide (rows_of (controlled_access db) id = [])).
(** The rows of the join for one object: an access method with each resource, or with the empty one. *)
Definition visibility_rows_of (db : DB) (id : string) : list VisibilityRow :=
  let resources := match rows_of (controlled_access db) id with [] => [""] | rs => rs end in
  m ← rows_of (access_method db) id; (λ r, mkRow m.1 m.2 r) <$> resources.
#[export] Instance VisibilityRow_eq_dec : EqDecision VisibilityRow.
Proof. solve_decision. Defined.
Definition ListBucketVisibilityRows (resources : list string) (includeUnscoped restrictToResources : bool)
    (db : CredentialDB) : result error (list VisibilityRow) :=
  let db := content db in
  let ids := (go_range (drs_object db)).*1 in
  if restrictToResources then
    let resources := NormalizeAccessResources resources in
    if bool_decide (resources = []) && negb includeUnscoped then Ok []
    else Ok (remove_dups (filter (λ id, visible_object resources includeUnscoped db id = true) ids ≫= visibility_rows_of db))
  else Ok (remove_dups (ids ≫= visibility_rows_of db)).
End visibility.

(** ** The repository behind the bucket service (function sqliteServerBackend of cmd/server/server.go) *)
Section ports.
Context `{MapOrder} `{CryptoLib} `{KMS} `{Digests} (st : settings)
  (rnd rnd' : option Credential → CredentialDB → randomness).
(** The random bytes of a save are an arbitrary function of its argument and of the state it meets. *)
#[local] Instance sqlite_bucket_ports : BucketPorts CredentialDB := {|
  port_GetS3Credential := λ id db, Some <$> GetS3Credential st id db;
  port_ListS3Credentials := ListS3Credentials st;
  port_SaveS3Credential := λ c db, SaveS3Credential st (rnd c db) (rnd' c db) c db;
  port_DeleteS3Credential := DeleteS3Credential st;
  port_CreateBucketScope := CreateBucketScope;
  port_DeleteBucketScope := DeleteBucketScope;
  port_GetBucketScope := λ org project db, Some <$> GetBucketScope org project db;
  port_ListBucketScopes := ListBucketScopes;
  port_ListBucketVisibilityRows := Some ListBucketVisibilityRows;
  port_VisibilityFallback := None |}.
End ports.
