(* ===== verification/BucketProperties.v ===== *)
(** * The scope cache agrees with the store
    [BucketLaws] is what the service relies on in a repository of scopes.  From these laws alone, the answers of
    [LookupBucketScope] are those of the store, whatever operations ran before, as long as they ran one after the
    other.  Answers are compared up to the case of names and the default of the credential, which the
    repositories ignore as well. *)
From S2P Require Import Prelude GoStrings GoURL Errors Resources Policy Objects Address Buckets.

(** ** Scopes up to what the repositories ignore *)
Definition scope_equiv (a b : Scope) : Prop :=
  s_Organization a = s_Organization b ∧ s_ProjectID a = s_ProjectID b ∧
  EqualFold (credentialIDForScope a) (credentialIDForScope b) = true ∧
  EqualFold (s_Bucket a) (s_Bucket b) = true ∧ s_PathPrefix a = s_PathPrefix b.
#[export] Instance scope_equiv_equivalence : Equivalence scope_equiv.
Proof.
  split; unfold scope_equiv.
  - intros a. split_and!; (done || by apply EqualFold_spec).
  - intros a b. rewrite !EqualFold_spec. intuition congruence.
  - intros a b c. rewrite !EqualFold_spec. intuition congruence.
Qed.
(** An answer of a lookup: the scope matters when it was found. *)
Inductive answer_equiv : result error (Scope * bool) → result error (Scope * bool) → Prop :=
  | found_equiv a b : scope_equiv a b → answer_equiv (Ok (a, true)) (Ok (b, true))
  | missing_equiv a b : answer_equiv (Ok (a, false)) (Ok (b, false))
  | error_equiv e : answer_equiv (Err e) (Err e).
#[export] Instance answer_equiv_equivalence : Equivalence answer_equiv.
Proof.
  split.
  - intros [[a []]|e]; constructor. reflexivity.
  - intros x y []; constructor. by symmetry.
  - intros x y z [a b Hab|a b|e] Hyz; inversion Hyz; subst; constructor. by etransitivity.
Qed.
(** The credential that is found for a scope does not depend on the representative. *)
#[export] Instance scopeCredentialIDForCredentials_proper :
  Proper (scope_equiv ==> eq ==> λ i j, EqualFold i j = true) scopeCredentialIDForCredentials.
Proof.
  intros a b (_ & _ & Hid & _ & _) creds ? <-. unfold scopeCredentialIDForCredentials. cbv zeta.
  assert (∀ cred, names_credential (credentialIDForScope a) cred = names_credential (credentialIDForScope b) cred) as Hn.
  { intros cred. apply EqualFold_spec in Hid. unfold names_credential, EqualFold. by rewrite Hid. }
  assert (∀ creds, list_find (λ cred, names_credential (credentialIDForScope a) cred = true) creds =
                   list_find (λ cred, names_credential (credentialIDForScope b) cred = true) creds) as ->.
  { intros l. induction l as [|c l IH]; [done|]. simpl. rewrite IH, Hn. done. }
  destruct (list_find _ _) as [[? c]|]; [by apply EqualFold_spec|done].
Qed.

(** ** Prefixes that a second normalization leaves alone *)
(** [normalizeScope] runs once more when its result is put into the cache; "/ a" is a prefix it changes again. *)
Definition clean_prefix (prefix : string) : Prop :=
  Trim (TrimSpace (Trim (TrimSpace prefix) "/")) "/" = Trim (TrimSpace prefix) "/".
#[export] Instance clean_prefix_dec prefix : Decision (clean_prefix prefix).
Proof. unfold clean_prefix. apply _. Defined.
Lemma normalizeScope_idemp scope : clean_prefix (s_PathPrefix scope) → normalizeScope (normalizeScope scope) = normalizeScope scope.
Proof. intros Hc. unfold normalizeScope. simpl. by rewrite !TrimSpace_idemp, Hc. Qed.
Lemma clean_prefix_equiv a b :
  scope_equiv (normalizeScope a) (normalizeScope b) → clean_prefix (s_PathPrefix a) → clean_prefix (s_PathPrefix b).
Proof. intros (_ & _ & _ & _ & E). simpl in E. unfold clean_prefix. by rewrite E. Qed.

(** ** What the service relies on *)
Section answer.
Context {S : Type} `{!BucketPorts S}.
(** A lookup without cache. *)
Definition store_answer (organization project : string) (s : S) : result error (Scope * bool) :=
  match port_GetBucketScope organization project s with
  | Ok (Some scope) => Ok (normalizeScope scope, true)
  | Ok None => Ok (noScope, false)
  | Err e => if IsNotFoundError e then Ok (noScope, false) else Err e
  end.
Definition listed (scope : Scope) (s : S) : Prop := ∃ scopes, port_ListBucketScopes s = Ok scopes ∧ scope ∈ scopes.
(** The store answers every lookup and lists the scopes as before. *)
Definition same_scopes (s s' : S) : Prop :=
  (∀ o p, port_GetBucketScope o p s' = port_GetBucketScope o p s) ∧ port_ListBucketScopes s' = port_ListBucketScopes s.
End answer.

Class BucketLaws (S : Type) `{!BucketPorts S} : Prop := {
  law_get_trim o p o' p' s : TrimSpace o = TrimSpace o' → TrimSpace p = TrimSpace p' →
    port_GetBucketScope o p s = port_GetBucketScope o' p' s;
  law_get_named o p s scope : port_GetBucketScope o p s = Ok (Some scope) →
    TrimSpace (s_Organization scope) = TrimSpace o ∧ TrimSpace (s_ProjectID scope) = TrimSpace p;
  law_get_listed o p s scope : port_GetBucketScope o p s = Ok (Some scope) → listed scope s;
  law_create_scope scope s s' : clean_prefix (s_PathPrefix scope) → port_CreateBucketScope (Some scope) s = (s', Ok tt) →
    answer_equiv (Ok (normalizeScope scope, true)) (store_answer (s_Organization scope) (s_ProjectID scope) s') ∧
    ∀ o p, (TrimSpace o, TrimSpace p) ≠ (TrimSpace (s_Organization scope), TrimSpace (s_ProjectID scope)) →
      port_GetBucketScope o p s' = port_GetBucketScope o p s;
  law_create_listed scope s s' row : clean_prefix (s_PathPrefix scope) → port_CreateBucketScope (Some scope) s = (s', Ok tt) → listed row s' →
    listed row s ∨ scope_equiv (normalizeScope scope) (normalizeScope row);
  law_create_nil s s' : port_CreateBucketScope None s ≠ (s', Ok tt);
  law_create_error scope s s' e : port_CreateBucketScope scope s = (s', Err e) → same_scopes s s';
  law_delete_error o p c pre s s' e : port_DeleteBucketScope o p c pre s = (s', Err e) → same_scopes s s';
  law_delete_scope o p c pre s s' row : port_DeleteBucketScope o p c pre s = (s', Ok tt) → listed row s' → listed row s;
  law_delete_credential c s s' row : port_DeleteS3Credential c s = (s', Ok tt) → listed row s' → listed row s;
  law_delete_credential_error c s s' e : port_DeleteS3Credential c s = (s', Err e) → same_scopes s s';
  law_save c s s' c' r : port_SaveS3Credential c s = (s', c', r) → same_scopes s s' }.

(** ** Keys of the cache *)
Definition nul_char : Ascii.ascii := Ascii.ascii_of_nat 0.
(** The separator of the key does not occur in the organization. *)
Definition no_nul (s : string) : Prop := nul_char ∉ chars s.
#[export] Instance no_nul_dec s : Decision (no_nul s).
Proof. unfold no_nul. apply _. Defined.
Lemma scopeCacheKey_inj o p o' p' :
  no_nul o → no_nul o' → scopeCacheKey o p = scopeCacheKey o' p' → TrimSpace o = TrimSpace o' ∧ TrimSpace p = TrimSpace p'.
Proof.
  intros Ho%TrimSpace_avoid Ho'%TrimSpace_avoid E.
  pose proof (Cut_app _ _ "" (TrimSpace p) Ho) as H. pose proof (Cut_app _ _ "" (TrimSpace p') Ho') as H'.
  change (String nul_char "") with nul in H, H'. unfold scopeCacheKey in E. rewrite E, H' in H. by injection H as -> ->.
Qed.
Lemma scopeCacheKey_trim o p o' p' :
  TrimSpace o = TrimSpace o' → TrimSpace p = TrimSpace p' → scopeCacheKey o p = scopeCacheKey o' p'.
Proof. unfold scopeCacheKey. by intros -> ->. Qed.

(** ** Sequential executions *)
(** The operations of the service that touch the scopes, with the instants they read. *)
Inductive bucket_op :=
  | OpLookup (now now' : Z) (organization project : string)
  | OpCreate (now : Z) (scope : option Scope)
  | OpDelete (organization projectID credentialID pathPrefix : string)
  | OpSave (cred : option Credential)
  | OpDeleteCredential (bucket : string).
(** The names that reach the key of the cache hold no NUL, and the prefixes are clean. *)
Definition op_ok (op : bucket_op) : Prop :=
  match op with
  | OpLookup _ _ organization _ => no_nul organization
  | OpCreate _ (Some scope) => no_nul (s_Organization scope) ∧ clean_prefix (s_PathPrefix scope)
  | _ => True
  end.

#[export] Instance op_ok_dec op : Decision (op_ok op).
Proof. destruct op as [| ? []| | |]; unfold op_ok; apply _. Defined.

Section sequential.
Context {S : Type} `{!BucketPorts S, !BucketLaws S} (ttl : Z) (signers : bool).

Definition run_op (op : bucket_op) (s : ServiceState S) : ServiceState S :=
  match op with
  | OpLookup now now' o p => (LookupBucketScope ttl now now' o p s).1
  | OpCreate now scope => (CreateBucketScope ttl now scope s).1
  | OpDelete o p c pre => (DeleteBucketScope signers o p c pre s).1
  | OpSave cred => (SaveS3Credential signers cred s).1
  | OpDeleteCredential bucket => (DeleteS3Credential signers bucket s).1
  end.
Definition run_ops (ops : list bucket_op) (s : ServiceState S) : ServiceState S := foldl (λ s op, run_op op s) s ops.
Definition start (store : S) : ServiceState S := mkService store ∅ [].

(** Every entry of the cache that a lookup can hit holds the answer of the store. *)
Definition coherent (s : ServiceState S) : Prop := ∀ o p entry,
  no_nul o → sv_cache s !! scopeCacheKey o p = Some entry →
  answer_equiv (Ok (cached_scope entry, cached_found entry)) (store_answer o p (sv_store s)).

Lemma store_answer_trim o p o' p' s :
  TrimSpace o = TrimSpace o' → TrimSpace p = TrimSpace p' → store_answer o p s = store_answer o' p' s.
Proof. intros Ho Hp. unfold store_answer. by rewrite (law_get_trim o p o' p') by done. Qed.
Lemma store_answer_same o p s s' : same_scopes s s' → store_answer o p s' = store_answer o p s.
Proof. unfold store_answer. by intros [-> _]. Qed.

Lemma coherent_start store : coherent (start store).
Proof. intros o p entry _. simpl. by rewrite lookup_empty. Qed.
Lemma coherent_empty s : sv_cache s = ∅ → coherent s.
Proof. intros Hs o p entry _. by rewrite Hs, lookup_empty. Qed.
(** Only the scopes of the store and the cache matter. *)
Lemma coherent_same s s' :
  same_scopes (sv_store s) (sv_store s') → sv_cache s' = sv_cache s → coherent s → coherent s'.
Proof.
  intros Hs Hc H o p entry Ho. rewrite Hc, (store_answer_same _ _ _ _ Hs). by apply H.
Qed.
(** Filling the cache with an answer of the store, or after a change of that scope. *)
Lemma coherent_set s s' now scope found :
  coherent s → no_nul (s_Organization scope) →
  sv_cache s' = cache_set ttl now scope found (sv_cache s) →
  answer_equiv (Ok (normalizeScope scope, found)) (store_answer (s_Organization scope) (s_ProjectID scope) (sv_store s')) →
  (∀ o p, (TrimSpace o, TrimSpace p) ≠ (TrimSpace (s_Organization scope), TrimSpace (s_ProjectID scope)) →
     port_GetBucketScope o p (sv_store s') = port_GetBucketScope o p (sv_store s)) →
  coherent s'.
Proof.
  intros H Hn Hc Ha Hother o p entry Ho. rewrite Hc. unfold cache_set. cbv zeta.
  assert (scopeCacheKey (s_Organization (normalizeScope scope)) (s_ProjectID (normalizeScope scope)) =
          scopeCacheKey (s_Organization scope) (s_ProjectID scope)) as ->
    by (apply scopeCacheKey_trim; simpl; apply TrimSpace_idemp).
  destruct (decide ((TrimSpace o, TrimSpace p) = (TrimSpace (s_Organization scope), TrimSpace (s_ProjectID scope)))) as [E|E].
  - injection E as Eo Ep. rewrite (scopeCacheKey_trim o p (s_Organization scope) (s_ProjectID scope)) by done.
    rewrite lookup_insert_eq. intros [= <-]. cbn [cached_scope cached_found].
    by rewrite (store_answer_trim o p (s_Organization scope) (s_ProjectID scope)).
  - rewrite lookup_insert_ne. 2:{ intros [Eo Ep]%scopeCacheKey_inj; [|done..]. by rewrite Eo, Ep in E. }
    intros He. unfold store_answer. rewrite Hother by done. by apply H.
Qed.

Definition clean (store : S) : Prop := ∀ scope, listed scope store → clean_prefix (s_PathPrefix scope).
Definition good (s : ServiceState S) : Prop := coherent s ∧ clean (sv_store s).

Lemma clean_same s s' : same_scopes s s' → clean s → clean s'.
Proof. intros [_ Hs] Hc scope. unfold listed. rewrite Hs. apply Hc. Qed.

Lemma good_lookup now now' o p s : no_nul o → good s → good (LookupBucketScope ttl now now' o p s).1.
Proof.
  intros Ho [Hc Hcl]. unfold LookupBucketScope. destruct (cache_get _ _ _ _); [done|]. cbv zeta.
  assert (store_answer o p (sv_store s) = Ok (noScope, false) →
          good (set_cache (cache_set ttl now' (mkScope o p "" "" "") false (sv_cache s)) s)) as Hmiss.
  { intros Ha. split; [|done]. eapply (coherent_set s _ now' (mkScope o p "" "" "") false); [done|done|done| |done].
    simpl. rewrite Ha. constructor. }
  unfold store_answer in Hmiss. destruct (port_GetBucketScope o p (sv_store s)) as [[scope|]|e] eqn:E.
  - destruct (law_get_named o p _ _ E) as [Hno Hnp]. split; [|done].
    pose proof (Hcl _ (law_get_listed _ _ _ _ E)) as Hpre.
    eapply (coherent_set s _ now' (normalizeScope scope) true); [done| |done| |done]; simpl.
    + rewrite Hno. by apply TrimSpace_avoid.
    + rewrite (store_answer_trim _ _ o p) by (by rewrite TrimSpace_idemp).
      unfold store_answer. rewrite E, normalizeScope_idemp by done. reflexivity.
  - by apply Hmiss.
  - destruct (IsNotFoundError e); [by apply Hmiss|done].
Qed.
Lemma good_create now scope s : op_ok (OpCreate now scope) → good s → good (CreateBucketScope ttl now scope s).1.
Proof.
  intros Hok [Hc Hcl]. unfold CreateBucketScope, mbind, service_bind, on_store.
  destruct (port_CreateBucketScope scope (sv_store s)) as [s1 [[]|e]] eqn:E.
  - destruct scope as [scope|]; [|by apply law_create_nil in E]. destruct Hok as [Hn Hp].
    destruct (law_create_scope _ _ _ Hp E) as [Ha Hother]. simpl. split.
    + eapply (coherent_set s _ now (normalizeScope scope) true); [done| |done| |]; simpl.
      * by apply TrimSpace_avoid.
      * rewrite (store_answer_trim _ _ (s_Organization scope) (s_ProjectID scope)) by apply TrimSpace_idemp.
        by rewrite normalizeScope_idemp.
      * intros o p. rewrite !TrimSpace_idemp. apply Hother.
    + intros row Hrow. destruct (law_create_listed _ _ _ _ Hp E Hrow) as [Hold|Heq]; [by apply Hcl|by eapply clean_prefix_equiv].
  - apply law_create_error in E. simpl. split; [by eapply coherent_same|by eapply clean_same].
Qed.
(** What a deletion of a credential leaves, after the repository has answered. *)
Lemma service_delete_Ok bucket s store :
  port_DeleteS3Credential bucket (sv_store s) = (store, Ok tt) →
  sv_store (DeleteS3Credential signers bucket s).1 = store ∧ sv_cache (DeleteS3Credential signers bucket s).1 = ∅.
Proof.
  intros E. unfold DeleteS3Credential. cbv zeta. unfold mbind, service_bind, on_store, cache_clear, on_cache. rewrite E.
  unfold invalidateAliases. by destruct signers.
Qed.
Lemma service_delete_Err bucket s store e :
  port_DeleteS3Credential bucket (sv_store s) = (store, Err e) → (DeleteS3Credential signers bucket s).1 = set_store store s.
Proof.
  intros E. unfold DeleteS3Credential. cbv zeta. unfold mbind, service_bind, on_store. by rewrite E.
Qed.
Lemma good_delete_credential bucket s : good s → good (DeleteS3Credential signers bucket s).1.
Proof.
  intros [Hc Hcl]. destruct (port_DeleteS3Credential bucket (sv_store s)) as [s1 [[]|e]] eqn:E.
  - destruct (service_delete_Ok _ _ _ E) as [Es Ec]. split; [by apply coherent_empty|]. rewrite Es.
    intros row Hrow. by eapply Hcl, law_delete_credential.
  - rewrite (service_delete_Err _ _ _ _ E). apply law_delete_credential_error in E.
    split; [by eapply coherent_same|by eapply clean_same].
Qed.
Lemma good_delete o p c pre s : good s → good (DeleteBucketScope signers o p c pre s).1.
Proof.
  intros [Hc Hcl]. unfold DeleteBucketScope. unfold mbind at 1, service_bind at 1, on_store.
  destruct (port_DeleteBucketScope o p c pre (sv_store s)) as [s1 [[]|e]] eqn:E.
  - assert (clean s1) as Hcl1 by (intros row Hs; eapply Hcl, law_delete_scope; done).
    unfold mbind, service_bind, cache_clear, on_cache. simpl.
    assert (good (set_cache ∅ (set_store s1 s))) as Hg by (split; [by apply coherent_empty|done]).
    unfold cleanup_credential. destruct (match GetS3Credential _ _ with Ok (Some _) => _ | _ => _ end) as [id b].
    destruct (ListBucketScopes _) as [scopes|]; [|done]. destruct (existsb _ _); [done|].
    by apply good_delete_credential.
  - apply law_delete_error in E. simpl. split; [by eapply coherent_same|by eapply clean_same].
Qed.
Lemma good_save cred s : good s → good (SaveS3Credential signers cred s).1.
Proof.
  intros [Hc Hcl]. unfold SaveS3Credential. cbv zeta.
  destruct (port_SaveS3Credential cred (sv_store s)) as [[s1 c1] r] eqn:E. apply law_save in E.
  assert (good (set_store s1 s)) as Hg by (split; [by eapply coherent_same|by eapply clean_same]).
  destruct r; [|done]. unfold mbind, service_bind, invalidateAliases. by destruct signers.
Qed.
Lemma good_run ops s : Forall op_ok ops → good s → good (run_ops ops s).
Proof.
  unfold run_ops. intros Hops. revert s. induction Hops as [|op ops Hop _ IH]; intros s Hg; [done|]. simpl. apply IH.
  destruct op; simpl in *; eauto using good_lookup, good_create, good_delete, good_save, good_delete_credential.
Qed.

(** A lookup in a good state answers what the store says, whether it hits the cache or not. *)
Lemma good_answer now now' o p s :
  no_nul o → good s → answer_equiv (LookupBucketScope ttl now now' o p s).2 (store_answer o p (sv_store s)).
Proof.
  intros Ho [Hc _]. unfold LookupBucketScope, cache_get. cbv zeta.
  destruct (sv_cache s !! scopeCacheKey o p) as [entry|] eqn:E; [destruct (_ <? _)%Z; [|by apply (Hc o p)]|];
    unfold store_answer; destruct (port_GetBucketScope o p (sv_store s)) as [[scope|]|e];
    repeat case_match; simpl; reflexivity.
Qed.
End sequential.
