(* ===== verification/CredentialProperties.v ===== *)
(** * What the credential store and the bucket service guarantee together
    The SQLite repository keeps the laws that the service relies on, so cached lookups agree with the tables; a
    physical bucket has one credential; what was saved is read back; and the removal of a scope removes a
    credential with its last scope only. *)
From S2P Require Import Prelude GoStrings GoURL Errors Resources Policy Objects ContentStore ContentReads Address Cipher Buckets CredentialStore BucketProperties.

(** ** Scopes in the tables *)
Lemma scope_at_spec org project s : scope_at org project s = true ↔ s_Organization s = org ∧ s_ProjectID s = project.
Proof. unfold scope_at. rewrite andb_true_iff, !String.eqb_eq. done. Qed.
(** The first scope of an organization and a project. *)
Definition first_scope (o p : string) (rows : list Scope) : option Scope :=
  snd <$> list_find (λ s, scope_at (TrimSpace o) (TrimSpace p) s = true) rows.
Lemma GetBucketScope_first o p db :
  GetBucketScope o p db = match first_scope o p (bucket_scope db) with
                          | Some s => Ok s | None => Err (EDef ErrBucketScopeNotFound) end.
Proof. unfold GetBucketScope, first_scope. by destruct (list_find _ _) as [[]|]. Qed.
Lemma first_scope_Some o p rows s :
  first_scope o p rows = Some s → s ∈ rows ∧ s_Organization s = TrimSpace o ∧ s_ProjectID s = TrimSpace p.
Proof.
  unfold first_scope. destruct (list_find _ rows) as [[i x]|] eqn:E; [|done]. intros [= ->].
  apply list_find_Some in E as (Hl & Hs%scope_at_spec & _). split; [by eapply list_elem_of_lookup_2|done].
Qed.
Lemma first_scope_None o p rows :
  first_scope o p rows = None ↔ existsb (scope_at (TrimSpace o) (TrimSpace p)) rows = false.
Proof.
  unfold first_scope. rewrite fmap_None, list_find_None, Forall_forall.
  rewrite <- not_true_iff_false, existsb_exists. split.
  - intros H (x & Hx%list_elem_of_In & Ht). by apply (H x).
  - intros H x Hx Ht. apply H. exists x. split; [by apply list_elem_of_In|done].
Qed.
Lemma first_scope_trim o p o' p' rows :
  TrimSpace o = TrimSpace o' → TrimSpace p = TrimSpace p' → first_scope o p rows = first_scope o' p' rows.
Proof. unfold first_scope. by intros -> ->. Qed.

(** The rows after a scope was written. *)
Definition put_scope (row : Scope) (rows : list Scope) : list Scope :=
  let at_row := scope_at (s_Organization row) (s_ProjectID row) in
  if existsb at_row rows then (λ s, if at_row s then row else s) <$> rows else rows ++ [row].
(** The row that [CreateBucketScope] writes. *)
Definition scope_row (scope : Scope) : Scope :=
  let bucket := TrimSpace (s_Bucket scope) in
  let id := TrimSpace (s_CredentialID scope) in
  mkScope (TrimSpace (s_Organization scope)) (TrimSpace (s_ProjectID scope)) (if is_empty id then bucket else id)
    bucket (Trim (TrimSpace (s_PathPrefix scope)) "/").

Lemma first_scope_cons o p s rows :
  first_scope o p (s :: rows) =
  if scope_at (TrimSpace o) (TrimSpace p) s then Some s else first_scope o p rows.
Proof.
  unfold first_scope. simpl. destruct (scope_at _ _ s) eqn:E.
  - by rewrite decide_True.
  - rewrite decide_False by done. by destruct (list_find _ rows) as [[]|].
Qed.
Lemma first_scope_put row o p rows :
  TrimSpace (s_Organization row) = s_Organization row → TrimSpace (s_ProjectID row) = s_ProjectID row →
  first_scope o p (put_scope row rows) =
  if scope_at (TrimSpace o) (TrimSpace p) row then Some row else first_scope o p rows.
Proof.
  intros Ho Hp. unfold put_scope. cbv zeta. set (at_row := scope_at (s_Organization row) (s_ProjectID row)).
  assert (∀ s, at_row s = true → scope_at (TrimSpace o) (TrimSpace p) s = scope_at (TrimSpace o) (TrimSpace p) row) as Heq.
  { intros s [H1 H2]%scope_at_spec. unfold scope_at. by rewrite H1, H2. }
  destruct (existsb at_row rows) eqn:Ex.
  - induction rows as [|s rows IH]; [done|]. rewrite fmap_cons, !first_scope_cons. simpl in Ex.
    destruct (at_row s) eqn:Es.
    + destruct (scope_at _ _ row) eqn:Er; [done|]. rewrite (Heq s) by done.
      clear IH Ex. induction rows as [|t rows IH]; [done|]. rewrite fmap_cons, !first_scope_cons, IH.
      destruct (at_row t) eqn:Et; [by rewrite Er, (Heq t)|done].
    + simpl in Ex. rewrite IH by done. destruct (scope_at _ _ s) eqn:Es'; [|done].
      destruct (scope_at (TrimSpace o) (TrimSpace p) row) eqn:Er; [|done]. exfalso.
      apply scope_at_spec in Er as [E1 E2]. apply scope_at_spec in Es' as [E3 E4].
      assert (at_row s = true); [|congruence]. apply scope_at_spec. by rewrite E1, E2, E3, E4.
  - clear Heq. induction rows as [|s rows IH]; simpl in *.
    + by rewrite first_scope_cons.
    + apply orb_false_iff in Ex as [Es Ex]. rewrite !first_scope_cons, IH by done.
      destruct (scope_at _ _ s) eqn:Es'; [|done]. destruct (scope_at (TrimSpace o) (TrimSpace p) row) eqn:Er; [|done].
      exfalso. apply scope_at_spec in Er as [E1 E2]. apply scope_at_spec in Es' as [E3 E4].
      assert (at_row s = true); [|congruence]. apply scope_at_spec. by rewrite E1, E2, E3, E4.
Qed.

(** A successful [CreateBucketScope] leaves the tables alone, when the scope is already there up to case, or
    writes the row. *)
Lemma CreateBucketScope_cases scope db db' r :
  CreateBucketScope (Some scope) db = (db', r) →
  (r ≠ Ok tt ∧ db' = db) ∨
  (r = Ok tt ∧ TrimSpace (s_Bucket scope) ≠ "" ∧
    (db' = set_bucket_scope (put_scope (scope_row scope) (bucket_scope db)) db ∨
     db' = db ∧ ∃ row, first_scope (s_Organization scope) (s_ProjectID scope) (bucket_scope db) = Some row ∧
       EqualFold (TrimSpace (s_CredentialID row)) (s_CredentialID (scope_row scope)) = true ∧
       EqualFold (TrimSpace (s_Bucket row)) (s_Bucket (scope_row scope)) = true ∧
       Trim (TrimSpace (s_PathPrefix row)) "/" = s_PathPrefix (scope_row scope))).
Proof.
  unfold CreateBucketScope. cbv zeta. destruct (is_empty (TrimSpace (s_Organization scope)) || is_empty (TrimSpace (s_Bucket scope))) eqn:Ee.
  { intros [= <- <-]. by left. }
  apply orb_false_iff in Ee as [_ Eb%is_empty_false]. rewrite GetBucketScope_first.
  rewrite (first_scope_trim _ _ (s_Organization scope) (s_ProjectID scope)) by apply TrimSpace_idemp.
  assert (∀ rows, first_scope (s_Organization scope) (s_ProjectID scope) rows = None ↔
    existsb (scope_at (TrimSpace (s_Organization scope)) (TrimSpace (s_ProjectID scope))) rows = false) as Hn
    by (intros; apply first_scope_None).
  destruct (first_scope _ _ (bucket_scope db)) as [row|] eqn:Ef.
  - destruct (_ && _ && _) eqn:Esame.
    + intros [= <- <-]. apply andb_true_iff in Esame as [[E1 E2]%andb_true_iff E3%String.eqb_eq].
      right. split_and!; [done|done|]. right. split; [done|]. by exists row.
    + intros [= <- <-]. right. split_and!; [done|done|]. left. f_equal. unfold put_scope, scope_row. simpl.
      destruct (existsb _ (bucket_scope db)) eqn:Ex; [done|]. apply Hn in Ex. congruence.
  - assert (errors_Is (EDef ErrBucketScopeNotFound) ErrNotFound = true) as -> by (vm_compute; reflexivity). simpl.
    rewrite (proj1 (Hn _) Ef). intros [= <- <-]. right. split_and!; [done|done|]. left. f_equal.
    unfold put_scope, scope_row. simpl. by rewrite (proj1 (Hn _) Ef).
Qed.

(** ** The repository keeps the laws of the service *)
Section laws.
Context `{MapOrder} `{CryptoLib} `{KMS} `{Digests} (st : settings)
  (rnd rnd' : option Credential → CredentialDB → randomness).
#[local] Instance ports : BucketPorts CredentialDB := sqlite_bucket_ports st rnd rnd'.

Lemma port_GetBucketScope_first o p db :
  port_GetBucketScope o p db =
  match first_scope o p (bucket_scope db) with Some s => Ok (Some s) | None => Err (EDef ErrBucketScopeNotFound) end.
Proof. cbn [port_GetBucketScope ports sqlite_bucket_ports]. rewrite GetBucketScope_first. by destruct (first_scope _ _ _). Qed.
Lemma store_answer_first o p db :
  store_answer o p db = match first_scope o p (bucket_scope db) with
                        | Some s => Ok (normalizeScope s, true) | None => Ok (noScope, false) end.
Proof. unfold store_answer. rewrite port_GetBucketScope_first. by destruct (first_scope _ _ _). Qed.

Lemma same_scopes_tables db db' : bucket_scope db' = bucket_scope db → same_scopes db db'.
Proof.
  intros E. split; [intros o p; by rewrite !port_GetBucketScope_first, E|].
  cbn [port_ListBucketScopes ports sqlite_bucket_ports]. unfold ListBucketScopes. by rewrite E.
Qed.
Lemma listed_tables scope db : listed scope db ↔ scope ∈ bucket_scope db.
Proof.
  unfold listed. cbn [port_ListBucketScopes ports sqlite_bucket_ports]. unfold ListBucketScopes.
  split; [by intros (l & [= <-] & Hin)|by exists (bucket_scope db)].
Qed.

Local Ltac scope_simpl := cbn [s_Organization s_ProjectID s_CredentialID s_Bucket s_PathPrefix].
Lemma normalize_id scope : credentialIDForScope (normalizeScope scope) = credentialIDForScope scope.
Proof. unfold credentialIDForScope, normalizeScope. scope_simpl. by rewrite !TrimSpace_idemp. Qed.
Lemma scope_row_id scope :
  TrimSpace (s_Bucket scope) ≠ "" →
  credentialIDForScope (scope_row scope) = s_CredentialID (scope_row scope) ∧
  credentialIDForScope scope = s_CredentialID (scope_row scope) ∧ s_CredentialID (scope_row scope) ≠ "".
Proof.
  intros Hb. unfold credentialIDForScope, scope_row. scope_simpl.
  destruct (is_empty (TrimSpace (s_CredentialID scope))) eqn:E; rewrite ?TrimSpace_idemp.
  - rewrite (proj2 (is_empty_false _) Hb). done.
  - rewrite E. split_and!; [done|done|by apply is_empty_false].
Qed.
Lemma scope_row_normal scope :
  TrimSpace (s_Bucket scope) ≠ "" → clean_prefix (s_PathPrefix scope) →
  scope_equiv (normalizeScope scope) (normalizeScope (scope_row scope)).
Proof.
  intros Hb Hc. destruct (scope_row_id scope Hb) as (E1 & E2 & _). unfold scope_equiv. rewrite !normalize_id, E1, E2.
  unfold normalizeScope, scope_row. scope_simpl. rewrite !TrimSpace_idemp, Hc. split_and!; (done || by apply EqualFold_spec).
Qed.
(** An existing row that makes the creation a no-op is equivalent to the row it would write. *)
Lemma scope_row_existing scope row :
  TrimSpace (s_Bucket scope) ≠ "" → clean_prefix (s_PathPrefix scope) →
  s_Organization row = TrimSpace (s_Organization scope) → s_ProjectID row = TrimSpace (s_ProjectID scope) →
  EqualFold (TrimSpace (s_CredentialID row)) (s_CredentialID (scope_row scope)) = true →
  EqualFold (TrimSpace (s_Bucket row)) (s_Bucket (scope_row scope)) = true →
  Trim (TrimSpace (s_PathPrefix row)) "/" = s_PathPrefix (scope_row scope) →
  scope_equiv (normalizeScope scope) (normalizeScope row).
Proof.
  intros Hb Hc Ho Hp Hid%EqualFold_spec Hbu%EqualFold_spec Hpre. rewrite (scope_row_normal scope) by done.
  destruct (scope_row_id scope Hb) as (E1 & _ & Hne). unfold scope_equiv. rewrite !normalize_id, E1.
  assert (credentialIDForScope row = TrimSpace (s_CredentialID row)) as ->.
  { unfold credentialIDForScope. rewrite (proj2 (is_empty_false _)); [done|]. intros E. rewrite E in Hid.
    by destruct (s_CredentialID (scope_row scope)). }
  rewrite !EqualFold_spec. unfold normalizeScope. scope_simpl.
  rewrite Ho, Hp, Hid, Hbu, Hpre. unfold scope_row. scope_simpl.
  rewrite !TrimSpace_idemp, Hc. done.
Qed.

Lemma DeleteS3Credential_error c db db' e : DeleteS3Credential st c db = (db', Err e) → db' = db.
Proof.
  unfold DeleteS3Credential. destruct (resolveCredentialID st c db) as [id|e'] eqn:Er; [|by intros [= -> _]].
  simpl. assert (existsb (has_id id) (s3_credential db) = true) as ->; [|done].
  assert (∃ row, row ∈ s3_credential db ∧ c_CredentialID row = id) as (row & Hin & Hid).
  { unfold resolveCredentialID in Er. cbv zeta in Er. destruct (is_empty _); [done|].
    unfold row_by_id in Er. destruct (list_find _ _) as [[i row]|] eqn:El; simpl in Er.
    - apply list_find_Some in El as (Hl & _). exists row. split; [by eapply list_elem_of_lookup_2|congruence].
    - apply bind_Ok in Er as (cred & Hc & [= <-]). unfold getS3CredentialByPhysicalBucket in Hc.
      destruct (filter _ _) as [|row [|]] eqn:Ef; [done| |done].
      assert (row ∈ s3_credential db) by (eapply list_elem_of_filter; rewrite Ef; apply list_elem_of_here).
      exists row. split; [done|]. unfold wrap_error, ParseS3CredentialFromStorage in Hc.
      destruct (_ ≫= _) as [c'|] eqn:Ep; [|done]. injection Hc as <-. inv_ok. done. }
  apply existsb_exists. exists row. split; [by apply list_elem_of_In|]. by apply String.eqb_eq.
Qed.

#[export] Instance sqlite_bucket_laws : BucketLaws CredentialDB.
Proof.
  split.
  - intros o p o' p' db Ho Hp. rewrite !port_GetBucketScope_first. by rewrite (first_scope_trim o p o' p').
  - intros o p db scope. rewrite port_GetBucketScope_first. destruct (first_scope _ _ _) eqn:E; [|done].
    intros [= ->]. apply first_scope_Some in E as (_ & -> & ->). by rewrite !TrimSpace_idemp.
  - intros o p db scope. rewrite port_GetBucketScope_first. destruct (first_scope _ _ _) eqn:E; [|done].
    intros [= ->]. apply listed_tables. by apply first_scope_Some in E as (? & _).
  - intros scope db db' Hc Hcr. apply CreateBucketScope_cases in Hcr as [[Hne _]|(_ & Hb & Hcases)]; [done|].
    assert (∀ o p, first_scope o p (put_scope (scope_row scope) (bucket_scope db)) =
      if scope_at (TrimSpace o) (TrimSpace p) (scope_row scope) then Some (scope_row scope) else first_scope o p (bucket_scope db)) as Hput
      by (intros o p; apply first_scope_put; apply TrimSpace_idemp).
    destruct Hcases as [->|(-> & row & Hrow & Hid & Hbu & Hpre)].
    + split.
      * rewrite store_answer_first. simpl. rewrite Hput.
        assert (scope_at (TrimSpace (s_Organization scope)) (TrimSpace (s_ProjectID scope)) (scope_row scope) = true) as ->
          by by apply scope_at_spec.
        constructor. by apply scope_row_normal.
      * intros o p Hne. rewrite !port_GetBucketScope_first. simpl. rewrite Hput.
        destruct (scope_at _ _ _) eqn:E; [|done]. apply scope_at_spec in E as [E1 E2]. simpl in E1, E2. congruence.
    + split; [|done]. rewrite store_answer_first, Hrow. constructor.
      apply first_scope_Some in Hrow as (_ & Ho & Hp). by apply scope_row_existing.
  - intros scope db db' row Hc Hcr. rewrite !listed_tables.
    apply CreateBucketScope_cases in Hcr as [[Hne _]|(_ & Hb & [->|(-> & _)])]; [done| |by left].
    simpl. unfold put_scope. cbv zeta. destruct (existsb _ _).
    + intros (s & -> & Hs)%list_elem_of_fmap. destruct (scope_at _ _ s); [|by left]. right. by apply scope_row_normal.
    + intros [Hs|Hs]%elem_of_app; [by left|]. apply list_elem_of_singleton in Hs as ->. right. by apply scope_row_normal.
  - intros db db' [= _ E].
  - intros [scope|] db db' e E; [|by injection E as <- _].
    apply CreateBucketScope_cases in E as [[_ ->]|([=] & _)]. by apply same_scopes_tables.
  - intros o p c pre db db' e. cbn [port_DeleteBucketScope ports sqlite_bucket_ports]. unfold DeleteBucketScope. cbv zeta.
    destruct (_ || _); [intros [= <- _]; by apply same_scopes_tables|]. destruct (existsb _ _); [done|]. intros [= <- _]. by apply same_scopes_tables.
  - intros o p c pre db db' row E. rewrite !listed_tables. revert E.
    cbn [port_DeleteBucketScope ports sqlite_bucket_ports]. unfold DeleteBucketScope. cbv zeta.
    destruct (_ || _); [done|]. destruct (existsb _ _); [|done]. intros [= <-]. simpl.
    by intros [_ ?]%list_elem_of_filter.
  - intros c db db' row E. rewrite !listed_tables. revert E.
    cbn [port_DeleteS3Credential ports sqlite_bucket_ports]. unfold DeleteS3Credential.
    destruct (resolveCredentialID _ _ _); [|done]. cbv zeta. destruct (existsb _ _); [|done]. intros [= <-]. simpl.
    by intros [_ ?]%list_elem_of_filter.
  - intros c db db' e E. apply DeleteS3Credential_error in E as ->. by apply same_scopes_tables.
  - intros c db db' c' r. cbn [port_SaveS3Credential ports sqlite_bucket_ports]. unfold SaveS3Credential. cbv zeta.
    destruct (wrap_error _ _ ≫= _) as [db1|] eqn:E; [|by intros [= <- _ _]]. intros [= <- _ _]. apply same_scopes_tables.
    apply bind_Ok in E as (stored & _ & E). apply bind_Ok in E as (u & _ & E). unfold insert_credential in E. by inv_ok.
Qed.
End laws.

(** ** One credential per identifier and per bucket *)
Record unique_credentials (db : CredentialDB) : Prop := {
  unique_ids : NoDup (c_CredentialID <$> s3_credential db);
  unique_buckets : NoDup (c_Bucket <$> s3_credential db) }.

Lemma has_id_spec id c : has_id id c = true ↔ c_CredentialID c = id.
Proof. apply String.eqb_eq. Qed.
Lemma NoDup_fmap_sub {A} (f : A → string) (l k : list A) : l `sublist_of` k → NoDup (f <$> k) → NoDup (f <$> l).
Proof. intros Hs Hk. eapply sublist_NoDup; [exact Hk|]. by apply fmap_sublist. Qed.
Lemma NoDup_fmap_elem {A} (f : A → string) (l : list A) a b : NoDup (f <$> l) → a ∈ l → b ∈ l → f a = f b → a = b.
Proof.
  induction l as [|c l IH]; rewrite ?fmap_cons; [set_solver|]. intros [Hc Hl]%NoDup_cons Ha Hb E.
  apply elem_of_cons in Ha as [->|Ha], Hb as [->|Hb]; [done| | |by apply IH].
  - exfalso. apply Hc. rewrite E. by apply list_elem_of_fmap_2.
  - exfalso. apply Hc. rewrite <- E. by apply list_elem_of_fmap_2.
Qed.
Lemma bucket_taken_false id bucket rows :
  bucket_taken id bucket rows = false ↔ ∀ c, c ∈ rows → c_Bucket c = bucket → c_CredentialID c = id.
Proof.
  unfold bucket_taken. rewrite <- not_true_iff_false, existsb_exists. split.
  - intros Hn c Hc Hb. destruct (has_id id c) eqn:E; [by apply has_id_spec|]. exfalso. apply Hn. exists c.
    split; [by apply list_elem_of_In|]. by rewrite Hb, String.eqb_refl, E.
  - intros Hall (c & Hc%list_elem_of_In & [Hb%String.eqb_eq Hid]%andb_true_iff).
    apply Hall in Hb; [|done]. apply has_id_spec in Hb. by rewrite Hb in Hid.
Qed.
Lemma existsb_has_id id rows : existsb (has_id id) rows = true ↔ id ∈ c_CredentialID <$> rows.
Proof.
  rewrite existsb_exists, list_elem_of_fmap. split.
  - intros (c & Hc%list_elem_of_In & <-%has_id_spec). by exists c.
  - intros (c & -> & Hc). exists c. split; [by apply list_elem_of_In|by apply has_id_spec].
Qed.
(** The rows of an upsert: the new row, and the old rows with another identifier. *)
Lemma elem_of_upsert row rows c :
  c ∈ upsert_credential row rows ↔ c = row ∨ (c ∈ rows ∧ c_CredentialID c ≠ c_CredentialID row).
Proof.
  unfold upsert_credential. destruct (existsb _ _) eqn:E.
  - apply existsb_exists in E as (old & Hold%list_elem_of_In & Hid). rewrite list_elem_of_fmap. split.
    + intros (x & -> & Hx). destruct (has_id _ x) eqn:Ex; [by left|]. right. split; [done|].
      intros Hx'%has_id_spec. congruence.
    + intros [->|[Hc Hne]]; [exists old; by rewrite Hid|]. exists c. split; [|done].
      destruct (has_id _ c) eqn:Ec; [|done]. by apply has_id_spec in Ec.
  - rewrite elem_of_app, list_elem_of_singleton. split; [|naive_solver]. intros [Hc| ->]; [|by left].
    right. split; [done|]. intros Hid. apply not_true_iff_false in E. apply E, existsb_has_id.
    rewrite <- Hid. by apply list_elem_of_fmap_2.
Qed.
Lemma unique_upsert row db db' :
  unique_credentials db → insert_credential row db = Ok db' → unique_credentials db'.
Proof.
  intros [Hi Hb]. unfold insert_credential. destruct (bucket_taken _ _ _) eqn:Et; [done|]. intros [= <-].
  rewrite bucket_taken_false in Et. split; simpl; unfold upsert_credential; destruct (existsb _ _) eqn:E.
  - assert (c_CredentialID <$> ((λ c, if has_id (c_CredentialID row) c then row else c) <$> s3_credential db) =
            c_CredentialID <$> s3_credential db) as ->; [|done].
    rewrite <- list_fmap_compose. apply list_fmap_ext. intros _ c _. simpl.
    destruct (has_id _ c) eqn:Ec; [|done]. by apply has_id_spec in Ec.
  - rewrite fmap_app, NoDup_app. split_and!; [done| |apply NoDup_singleton]. intros id Hid Hin.
    apply list_elem_of_singleton in Hin as ->. apply existsb_has_id in Hid. congruence.
  - clear E. induction (s3_credential db) as [|c l IH]; [done|]. simpl in *.
    apply NoDup_cons in Hi as [Hci Hi], Hb as [Hcb Hb].
    assert (∀ x, x ∈ l → c_Bucket x = c_Bucket row → c_CredentialID x = c_CredentialID row) as Et' by set_solver.
    apply NoDup_cons. split; [|by apply IH]. rewrite list_elem_of_fmap. intros (y & Ey & Hy).
    apply list_elem_of_fmap in Hy as (x & -> & Hx).
    assert (c_CredentialID x ≠ c_CredentialID c) as Hne by (intros E; apply Hci; rewrite <- E; by apply list_elem_of_fmap_2).
    assert (c_Bucket x ≠ c_Bucket c) as Hneb by (intros E; apply Hcb; rewrite <- E; by apply list_elem_of_fmap_2).
    destruct (has_id _ c) eqn:Ec, (has_id _ x) eqn:Ex; rewrite ?has_id_spec in *; simpl in Ey; try congruence.
    + apply Hne. rewrite Ec. apply Et'; [done|]. by symmetry.
    + assert (c_CredentialID c = c_CredentialID row) as Ec'; [|by apply has_id_spec in Ec'; rewrite Ec' in Ec].
      apply Et; [apply list_elem_of_here|done].
  - rewrite fmap_app, NoDup_app. split_and!; [done| |apply NoDup_singleton]. intros b Hbin Hin.
    apply list_elem_of_singleton in Hin as ->. apply list_elem_of_fmap in Hbin as (c & Hcb & Hc).
    symmetry in Hcb. apply Et in Hcb; [|done]. apply not_true_iff_false in E. apply E, existsb_has_id.
    rewrite <- Hcb. by apply list_elem_of_fmap_2.
Qed.

Lemma unique_filter (q : Credential → bool) db db' :
  s3_credential db' = filter (λ c, q c = false) (s3_credential db) → unique_credentials db → unique_credentials db'.
Proof. intros E [Hi Hb]. split; rewrite E; (eapply NoDup_fmap_sub; [apply sublist_filter|done]). Qed.
Lemma unique_same db db' : s3_credential db' = s3_credential db → unique_credentials db → unique_credentials db'.
Proof. intros E [Hi Hb]. split; by rewrite E. Qed.

Section unique.
Context `{MapOrder} `{CryptoLib} `{KMS} `{Digests} (st : settings)
  (rnd rnd' : option Credential → CredentialDB → randomness) (ttl : Z) (signers : bool).
#[local] Instance the_ports : BucketPorts CredentialDB := sqlite_bucket_ports st rnd rnd'.

Lemma unique_save r r' cred db : unique_credentials db → unique_credentials (SaveS3Credential st r r' cred db).1.1.
Proof.
  intros Hu. unfold SaveS3Credential. cbv zeta. destruct (wrap_error _ _ ≫= _) as [db'|] eqn:E; [|done]. simpl.
  apply bind_Ok in E as (stored & _ & E). apply bind_Ok in E as (u & _ & E). by eapply unique_upsert.
Qed.
Lemma unique_delete c db : unique_credentials db → unique_credentials (DeleteS3Credential st c db).1.
Proof.
  intros Hu. unfold DeleteS3Credential. destruct (resolveCredentialID _ _ _) as [id|]; [|done]. cbv zeta.
  destruct (existsb _ _); by apply (unique_filter (has_id id) db).
Qed.
Lemma credentials_create scope db : s3_credential (CreateBucketScope scope db).1 = s3_credential db.
Proof. unfold CreateBucketScope. repeat case_match; done. Qed.
Lemma credentials_delete_scope o p c pre db : s3_credential (DeleteBucketScope o p c pre db).1 = s3_credential db.
Proof. unfold DeleteBucketScope. repeat case_match; done. Qed.

Lemma unique_service_delete bucket s :
  unique_credentials (sv_store s) → unique_credentials (sv_store (Buckets.DeleteS3Credential signers bucket s).1).
Proof.
  intros Hu. pose proof (unique_delete bucket (sv_store s) Hu) as Hun.
  destruct (DeleteS3Credential st bucket (sv_store s)) as [db' [[]|e]] eqn:E.
  - by destruct (service_delete_Ok signers bucket s db') as [-> _].
  - by rewrite (service_delete_Err signers bucket s db' e).
Qed.
Lemma unique_op op s : unique_credentials (sv_store s) → unique_credentials (sv_store (run_op ttl signers op s)).
Proof.
  intros Hu. destruct op as [now now' o p|now scope|o p c pre|cred|bucket]; simpl.
  - unfold LookupBucketScope. cbv zeta. repeat case_match; done.
  - unfold Buckets.CreateBucketScope, mbind, service_bind, on_store.
    change (port_CreateBucketScope scope (sv_store s)) with (CreateBucketScope scope (sv_store s)).
    pose proof (credentials_create scope (sv_store s)) as E. destruct (CreateBucketScope scope (sv_store s)) as [db' [u|e]]; simpl in *;
      by eapply unique_same.
  - unfold Buckets.DeleteBucketScope. unfold mbind at 1, service_bind at 1, on_store.
    change (port_DeleteBucketScope o p c pre (sv_store s)) with (DeleteBucketScope o p c pre (sv_store s)).
    pose proof (credentials_delete_scope o p c pre (sv_store s)) as E.
    destruct (DeleteBucketScope o p c pre (sv_store s)) as [db' [u|e]]; simpl in *; [|by eapply unique_same].
    unfold mbind, service_bind, cache_clear, on_cache. simpl. unfold cleanup_credential.
    assert (unique_credentials db') by by eapply unique_same.
    destruct (match Buckets.GetS3Credential _ _ with Ok (Some _) => _ | _ => _ end) as [id b]. simpl.
    destruct (existsb _ _); [done|]. simpl. by apply unique_service_delete.
  - unfold Buckets.SaveS3Credential. cbv zeta.
    change (port_SaveS3Credential cred (sv_store s)) with
      (SaveS3Credential st (rnd cred (sv_store s)) (rnd' cred (sv_store s)) cred (sv_store s)).
    pose proof (unique_save (rnd cred (sv_store s)) (rnd' cred (sv_store s)) cred _ Hu) as Hun.
    destruct (SaveS3Credential _ _ _ _ _) as [[db' c'] [u|e]]; simpl in *; [|done].
    unfold mbind, service_bind, invalidateAliases. by destruct signers.
  - by apply unique_service_delete.
Qed.

(** Whatever the service did before, no two credentials have the same identifier, and no two have the same
    physical bucket. *)
Theorem one_credential_per_bucket ops c1 c2 :
  let rows := s3_credential (sv_store (run_ops ttl signers ops (start empty_credential_db))) in
  c1 ∈ rows → c2 ∈ rows → c_Bucket c1 = c_Bucket c2 ∨ c_CredentialID c1 = c_CredentialID c2 → c1 = c2.
Proof.
  intros rows. assert (unique_credentials (sv_store (run_ops ttl signers ops (start empty_credential_db)))) as [Hi Hb].
  { unfold run_ops. assert (unique_credentials (sv_store (start empty_credential_db))) as Hu by by repeat constructor.
    revert Hu. generalize (start empty_credential_db). induction ops as [|op ops IH]; intros s Hu; [done|].
    apply IH. by apply unique_op. }
  intros Hc1 Hc2 [E|E]; [by apply (NoDup_fmap_elem c_Bucket rows)|by apply (NoDup_fmap_elem c_CredentialID rows)].
Qed.

(** Lookups through the cache answer what the tables say, whatever operations of the service ran before, one after
    the other, and at whatever times: a scope is found exactly when the organization and the project have a row,
    with the bucket, the credential and the prefix of the row up to what the tables ignore (the case of bucket and
    credential, the credential that defaults to the bucket).  Names may not hold NUL, the separator of the keys of
    the cache, and prefixes may not need a second normalization. *)
Theorem cached_lookups_agree store ops now now' o p :
  Forall (λ scope, clean_prefix (s_PathPrefix scope)) (bucket_scope store) → Forall op_ok ops → no_nul o →
  let s := run_ops ttl signers ops (start store) in
  answer_equiv (LookupBucketScope ttl now now' o p s).2
    (match first_scope o p (bucket_scope (sv_store s)) with
     | Some row => Ok (normalizeScope row, true)
     | None => Ok (noScope, false)
     end).
Proof.
  intros Hclean Hops Ho s. rewrite <- (store_answer_first st rnd rnd').
  apply good_answer; [done|]. apply good_run; [done|]. split; [apply coherent_start|].
  intros scope Hs. apply (listed_tables st rnd rnd') in Hs. rewrite Forall_forall in Hclean. by apply Hclean.
Qed.
End unique.

(** ** An execution *)
Section sample.
#[local] Existing Instance canonical_order.
#[local] Instance sample_digests : Digests := {| sha256_hex := λ s, s; uuid_NewSHA1 := λ s, s |}.
#[local] Existing Instances Sample.library Sample.kms.
#[local] Instance sample_ports : BucketPorts CredentialDB :=
  sqlite_bucket_ports Sample.local_settings (λ _ _, Sample.random) (λ _ _, Sample.random).
Definition sample_credential : Credential := mkCredential "cred" "data" "S3 " "us" "AK" "SK" "".
Definition sample_ops : list bucket_op :=
  [ OpSave (Some sample_credential);
    OpLookup 0 1 "org" "p";                                      (* a miss is cached *)
    OpCreate 2 (Some (mkScope " org" "p" "" "data" "/x/"));      (* the default credential is the bucket *)
    OpCreate 3 (Some (mkScope "org" "p" "DATA" "Data" "x"));     (* the same scope up to case: no change *)
    OpCreate 4 (Some (mkScope "org" "q" "cred" "data" "y"));
    OpLookup 5 6 "org" "q";
    OpDelete "org" "q" "cred" "y" ].
Lemma one_credential_per_bucket_witness :
  let rows := s3_credential (sv_store (run_ops 30 true sample_ops (start empty_credential_db))) in
  ∃ c, c ∈ rows ∧ c_Bucket c = "data" ∧ c_Provider c = "s3" ∧ ∀ c2, c2 ∈ rows → c_Bucket c2 = "data" → c = c2.
Proof.
  intros rows. assert (∃ c, head rows = Some c ∧ c_Bucket c = "data" ∧ c_Provider c = "s3") as (c & Hc & Hb & Hp)
    by (vm_compute; eexists; split; [reflexivity|split; reflexivity]).
  exists c. assert (c ∈ rows) as Hin by by apply head_Some_elem_of. split_and!; [exact Hin|exact Hb|exact Hp|].
  intros c2 Hin2 E2.
  apply (one_credential_per_bucket Sample.local_settings (λ _ _, Sample.random) (λ _ _, Sample.random) 30 true sample_ops);
    [exact Hin|exact Hin2|left; by rewrite Hb, E2].
Defined.
Lemma cached_lookups_agree_witness :
  answer_equiv (LookupBucketScope 30 7 8 "org" "p" (run_ops 30 true sample_ops (start empty_credential_db))).2
    (Ok (mkScope "org" "p" "data" "data" "x", true)).
Proof.
  exact (cached_lookups_agree Sample.local_settings (λ _ _, Sample.random) (λ _ _, Sample.random) 30 true
    empty_credential_db sample_ops 7 8 "org" "p" (Forall_nil_2 _) ltac:(by apply (bool_decide_unpack _); vm_compute)
    ltac:(by apply (bool_decide_unpack _); vm_compute)).
Defined.
End sample.
