(* ===== verification/BucketLifecycle.v ===== *)
(** * The life of a credential
    What [SaveS3Credential] stores is what [GetS3Credential] reads back, by identifier and by bucket; and
    [DeleteBucketScope] removes a credential exactly with the last scope that uses it. *)
From S2P Require Import Prelude GoStrings GoURL Errors Resources Policy Objects ContentStore ContentReads Address Cipher Buckets CredentialStore BucketProperties CredentialProperties.

(** ** Rows that the service can use: trimmed names, secrets that decrypt, unique keys *)
Definition named_row (c : Credential) : Prop :=
  TrimSpace (c_CredentialID c) = c_CredentialID c ∧ c_CredentialID c ≠ "" ∧
  TrimSpace (c_Bucket c) = c_Bucket c ∧ c_Bucket c ≠ "".
#[export] Instance named_row_dec c : Decision (named_row c).
Proof. unfold named_row. apply _. Defined.

Lemma named_row_id c : named_row c → credentialIDForCredential c = c_CredentialID c.
Proof. intros (Ht & Hne & _). unfold credentialIDForCredential. by rewrite Ht, (proj2 (is_empty_false _)). Qed.

Lemma row_by_id_Some id rows c : row_by_id id rows = Some c → c ∈ rows ∧ c_CredentialID c = id.
Proof.
  unfold row_by_id. destruct (list_find _ _) as [[i x]|] eqn:E; [|done]. intros [= ->].
  apply list_find_Some in E as (Hl & Hid%has_id_spec & _). split; [by eapply list_elem_of_lookup_2|done].
Qed.
Lemma row_by_id_None id rows : row_by_id id rows = None ↔ ∀ c, c ∈ rows → c_CredentialID c ≠ id.
Proof.
  unfold row_by_id. rewrite fmap_None, list_find_None, Forall_forall. split; intros Hn c Hc.
  - intros Hid. apply (Hn c Hc). by apply has_id_spec.
  - intros Hid%has_id_spec. by apply (Hn c Hc).
Qed.
Lemma row_by_id_unique id rows c :
  NoDup (c_CredentialID <$> rows) → c ∈ rows → c_CredentialID c = id → row_by_id id rows = Some c.
Proof.
  intros Hu Hc Hid. destruct (row_by_id id rows) as [c'|] eqn:E.
  - apply row_by_id_Some in E as [Hc' Hid']. f_equal. eapply (NoDup_fmap_elem c_CredentialID rows); congruence.
  - exfalso. by eapply row_by_id_None.
Qed.
Lemma filter_bucket_unique b rows c :
  NoDup (c_Bucket <$> rows) → c ∈ rows → c_Bucket c = b → filter (λ c, c_Bucket c = b) rows = [c].
Proof.
  intros Hu Hc Hb. induction rows as [|x rows IH]; [set_solver|]. rewrite fmap_cons in Hu.
  apply NoDup_cons in Hu as [Hx Hu]. rewrite filter_cons. apply elem_of_cons in Hc as [->|Hc].
  - rewrite decide_True by done. f_equal. apply elem_of_nil_inv. intros y [Hy Hin]%list_elem_of_filter.
    apply Hx. rewrite Hb, <- Hy. by apply list_elem_of_fmap_2.
  - rewrite decide_False; [by apply IH|]. intros E. apply Hx. rewrite E, <- Hb. by apply list_elem_of_fmap_2.
Qed.

Section lifecycle.
Context `{MapOrder} `{CryptoLib} `{KMS} `{Digests} (st : settings)
  (rnd rnd' : option Credential → CredentialDB → randomness) (signers : bool).
#[local] Instance life_ports : BucketPorts CredentialDB := sqlite_bucket_ports st rnd rnd'.

Record sound (db : CredentialDB) : Prop := {
  sound_unique : unique_credentials db;
  sound_names : Forall named_row (s3_credential db);
  sound_secrets : Forall (λ c, is_ok (ParseS3CredentialFromStorage st c) = true) (s3_credential db) }.

Lemma Parse_names c c' : ParseS3CredentialFromStorage st c = Ok c' →
  c_CredentialID c' = c_CredentialID c ∧ c_Bucket c' = c_Bucket c ∧ credentialIDForCredential c' = credentialIDForCredential c.
Proof. unfold ParseS3CredentialFromStorage. intros E. inv_ok. done. Qed.

(** The row that [GetS3Credential] of the service finds: by identifier, by bucket, or by either up to case. *)
Definition resolved_row (name : string) (rows : list Credential) : option Credential :=
  match row_by_id name rows with
  | Some c => Some c
  | None =>
      match filter (λ c, c_Bucket c = name) rows with
      | c :: _ => Some c
      | [] => snd <$> list_find (λ c, EqualFold (TrimSpace (c_Bucket c)) (TrimSpace name)
                                      || EqualFold (TrimSpace (c_CredentialID c)) (TrimSpace name) = true) rows
      end
  end.
Lemma resolved_row_elem name rows c : resolved_row name rows = Some c → c ∈ rows.
Proof.
  unfold resolved_row. destruct (row_by_id name rows) as [x|] eqn:E.
  { intros [= <-]. apply row_by_id_Some in E as [? _]. done. }
  destruct (filter _ rows) as [|x l] eqn:Ef.
  - destruct (list_find _ rows) as [[i x]|] eqn:El; [|done]. intros [= <-].
    apply list_find_Some in El as [Hl _]. by eapply list_elem_of_lookup_2.
  - intros [= <-]. assert (x ∈ filter (λ c, c_Bucket c = name) rows) as [_ ?]%list_elem_of_filter
      by (rewrite Ef; apply list_elem_of_here). done.
Qed.

(** Searching the decrypted list is searching the rows. *)
Lemma list_find_parsed (q : string → string → bool) rows :
  Forall (λ c, is_ok (ParseS3CredentialFromStorage st c) = true) rows →
  ∃ creds, mapM_result (λ c, wrap_error "failed to decrypt credential for bucket %s: %w" (ParseS3CredentialFromStorage st c)) rows = Ok creds ∧
    match list_find (λ c, q (c_Bucket c) (c_CredentialID c) = true) creds, list_find (λ c, q (c_Bucket c) (c_CredentialID c) = true) rows with
    | Some (i, c), Some (j, row) => ParseS3CredentialFromStorage st row = Ok c
    | None, None => True
    | _, _ => False
    end.
Proof.
  induction 1 as [|c rows Hc _ (creds & E & IH)]; [by exists []|].
  destruct (ParseS3CredentialFromStorage st c) as [c'|] eqn:Ec; [|done].
  exists (c' :: creds). simpl. rewrite Ec. cbn [wrap_error mbind result_bind]. rewrite E. split; [done|].
  destruct (Parse_names _ _ Ec) as (-> & -> & _). case_decide; [done|].
  destruct (list_find _ creds) as [[]|], (list_find _ rows) as [[]|]; done.
Qed.

Lemma GetS3Credential_resolved name db :
  sound db →
  match resolved_row name (s3_credential db) with
  | Some row => ∃ c, ParseS3CredentialFromStorage st row = Ok c ∧ Buckets.GetS3Credential name db = Ok (Some c)
  | None => Buckets.GetS3Credential name db = Err (EDef ErrStorageCredentialMissing)
  end.
Proof.
  intros [[Hi Hb] _ Hs]. unfold resolved_row, Buckets.GetS3Credential.
  change (port_GetS3Credential name db) with (Some <$> GetS3Credential st name db).
  change (port_ListS3Credentials db) with (ListS3Credentials st db). unfold GetS3Credential.
  assert (∀ row, row ∈ s3_credential db → ∃ c, ParseS3CredentialFromStorage st row = Ok c) as Hparse.
  { intros row Hin. rewrite Forall_forall in Hs. specialize (Hs row Hin).
    destruct (ParseS3CredentialFromStorage st row) as [c|]; [by exists c|done]. }
  destruct (row_by_id name (s3_credential db)) as [row|] eqn:E.
  { apply row_by_id_Some in E as [Hin _]. destruct (Hparse row Hin) as [c Hc]. exists c. by rewrite Hc. }
  unfold getS3CredentialByPhysicalBucket. destruct (filter _ (s3_credential db)) as [|row l] eqn:Ef.
  - assert (errors_Is (EDef ErrStorageCredentialMissing) ErrStorageCredentialMissing = true) as Hmiss by (vm_compute; reflexivity).
    unfold isCredentialNotFoundError. cbn [fmap result_fmap]. rewrite Hmiss.
    destruct (list_find_parsed (λ b id, EqualFold (TrimSpace b) (TrimSpace name) || EqualFold (TrimSpace id) (TrimSpace name))
      _ Hs) as (creds & Hl & Hf). unfold ListS3Credentials. rewrite Hl. cbn [mbind result_bind].
    destruct (list_find _ creds) as [[i c]|], (list_find _ (s3_credential db)) as [[j row]|]; try done.
    simpl. by exists c.
  - assert (row ∈ s3_credential db ∧ c_Bucket row = name) as [Hin Hn].
    { assert (row ∈ filter (λ c, c_Bucket c = name) (s3_credential db)) as [? ?]%list_elem_of_filter
        by (rewrite Ef; apply list_elem_of_here). done. }
    rewrite (filter_bucket_unique name _ row) in Ef by done. injection Ef as <-.
    destruct (Hparse row Hin) as [c Hc]. exists c. by rewrite Hc.
Qed.

Lemma belongs_own scope id bucket : s_CredentialID scope = id → scopeBelongsTo scope id bucket = true.
Proof.
  intros <-. unfold scopeBelongsTo. simpl. assert (∀ x, EqualFold x x = true) as -> by (intros; by apply EqualFold_spec). done.
Qed.
(** Deleting a credential that no scope belongs to. *)
Lemma service_delete_unused row s :
  sound (sv_store s) → row ∈ s3_credential (sv_store s) →
  Forall (λ scope, scopeBelongsTo scope (c_CredentialID row) (c_Bucket row) = false) (bucket_scope (sv_store s)) →
  let s' := (Buckets.DeleteS3Credential signers (c_CredentialID row) s).1 in
  sv_store s' = set_s3_credential (filter (λ c, has_id (c_CredentialID row) c = false) (s3_credential (sv_store s))) (sv_store s) ∧
  sv_cache s' = ∅.
Proof.
  intros [[Hi Hb] Hn Hs] Hin Hscopes. rewrite Forall_forall in Hn. destruct (Hn _ Hin) as (Ht & Hne & _).
  assert (DeleteS3Credential st (c_CredentialID row) (sv_store s) =
    (set_s3_credential (filter (λ c, has_id (c_CredentialID row) c = false) (s3_credential (sv_store s))) (sv_store s), Ok tt)) as Hd; [|by apply service_delete_Ok].
  unfold DeleteS3Credential, resolveCredentialID. cbv zeta. rewrite Ht, (proj2 (is_empty_false _) Hne).
  rewrite (row_by_id_unique _ _ row) by done. cbn [s3_credential set_bucket_scope set_s3_credential].
  assert (existsb (has_id (c_CredentialID row)) (s3_credential (sv_store s)) = true) as ->
      by (apply existsb_has_id; by apply list_elem_of_fmap_2).
    assert (filter (λ sc, s_CredentialID sc ≠ c_CredentialID row) (bucket_scope (sv_store s)) = bucket_scope (sv_store s)) as ->.
    { apply filter_all_True. intros sc Hsc E. rewrite Forall_forall in Hscopes. specialize (Hscopes _ Hsc).
      by rewrite belongs_own in Hscopes. }
  by destruct (sv_store s).
Qed.
(** No row has the name, so there is nothing to delete. *)
Lemma service_delete_missing name s :
  sound (sv_store s) → resolved_row name (s3_credential (sv_store s)) = None →
  (Buckets.DeleteS3Credential signers (TrimSpace name) s).1 = s.
Proof.
  intros Hs Hr.
  assert (∃ e, DeleteS3Credential st (TrimSpace name) (sv_store s) = (sv_store s, Err e)) as [e He];
    [|rewrite (service_delete_Err signers _ s (sv_store s) e) by exact He; by destruct s].
  assert (∀ c, c ∈ s3_credential (sv_store s) → c_CredentialID c ≠ TrimSpace name ∧ c_Bucket c ≠ TrimSpace name) as Hno.
  { intros c Hc. unfold resolved_row in Hr. destruct (row_by_id name _); [done|]. destruct (filter _ _); [|done].
    apply fmap_None, list_find_None in Hr. rewrite Forall_forall in Hr. specialize (Hr c Hc). simpl in Hr.
    apply not_true_iff_false, orb_false_iff in Hr as [Hr1 Hr2]. destruct Hs as [_ Hn _]. rewrite Forall_forall in Hn.
    destruct (Hn c Hc) as (Ht & _ & Htb & _). rewrite Ht in Hr2. rewrite Htb in Hr1.
    split; intros E; [rewrite E in Hr2|rewrite E in Hr1]; by rewrite (proj2 (EqualFold_spec _ _)) in * by done. }
  unfold DeleteS3Credential, resolveCredentialID. cbv zeta. rewrite TrimSpace_idemp.
  destruct (is_empty _); [by eexists|].
  rewrite (proj2 (row_by_id_None _ _)) by (intros c Hc; by apply Hno).
  unfold getS3CredentialByPhysicalBucket. assert (filter (λ c, c_Bucket c = TrimSpace name) (s3_credential (sv_store s)) = []) as ->.
  { apply filter_all_False. intros c Hc. by apply Hno. }
  by eexists.
Qed.

(** What the clean-up leaves of the credentials. *)
Definition kept_credentials (name : string) (scopes : list Scope) (rows : list Credential) : list Credential :=
  match resolved_row name rows with
  | Some row =>
      if existsb (λ scope, scopeBelongsTo scope (c_CredentialID row) (c_Bucket row)) scopes then rows
      else filter (λ c, has_id (c_CredentialID row) c = false) rows
  | None => rows
  end.
Lemma cleanup_spec name s :
  sound (sv_store s) → sv_cache s = ∅ →
  let s' := (cleanup_credential signers name s).1 in
  sv_store s' = set_s3_credential (kept_credentials name (bucket_scope (sv_store s)) (s3_credential (sv_store s))) (sv_store s) ∧
  sv_cache s' = ∅ ∧ (cleanup_credential signers name s).2 = Ok tt.
Proof.
  intros Hs Hc. assert (set_s3_credential (s3_credential (sv_store s)) (sv_store s) = sv_store s) as Hid by by destruct (sv_store s).
  unfold cleanup_credential, kept_credentials. pose proof (GetS3Credential_resolved name (sv_store s) Hs) as Hg.
  change (Buckets.ListBucketScopes (sv_store s)) with (Ok (E := error) (bucket_scope (sv_store s))).
  destruct (resolved_row name (s3_credential (sv_store s))) as [row|] eqn:Er.
  - destruct Hg as (c & Hp & ->). apply resolved_row_elem in Er.
    pose proof Hs as [_ Hn _]. rewrite Forall_forall in Hn. pose proof (Hn _ Er) as Hrow.
    destruct (Parse_names _ _ Hp) as (_ & -> & ->). rewrite named_row_id by done.
    destruct Hrow as (_ & _ & -> & _). destruct (existsb _ _) eqn:Ex; [by rewrite Hid|].
    destruct (service_delete_unused row s) as [E1 E2]; [done|done| |].
    { apply Forall_forall. intros sc Hsc. apply not_true_iff_false. intros Hb. apply not_true_iff_false in Ex. apply Ex.
      apply existsb_exists. exists sc. split; [by apply list_elem_of_In|done]. }
    simpl. by rewrite E1, E2.
  - rewrite Hg. destruct (existsb _ _); [by rewrite Hid|]. simpl. rewrite service_delete_missing by done. by rewrite Hid.
Qed.

(** Removing a scope removes exactly the rows of that organization, project, credential and prefix.  The credential
    it names is removed along if and only if no remaining scope belongs to it, and no other credential is ever
    removed; cached answers are dropped. *)
Theorem DeleteBucketScope_cleanup o p name pre s s' :
  sound (sv_store s) → Buckets.DeleteBucketScope signers o p name pre s = (s', Ok tt) →
  let matches := scope_matches (TrimSpace o) (TrimSpace p) (TrimSpace name) (Trim (TrimSpace pre) "/") in
  let rows := s3_credential (sv_store s) in
  let rest := bucket_scope (sv_store s') in
  rest = filter (λ scope, matches scope = false) (bucket_scope (sv_store s)) ∧
  (∃ scope, scope ∈ bucket_scope (sv_store s) ∧ matches scope = true) ∧
  (∀ row, row ∈ s3_credential (sv_store s') ↔
     row ∈ rows ∧ ¬ (resolved_row name rows = Some row ∧
                     ∀ scope, scope ∈ rest → scopeBelongsTo scope (c_CredentialID row) (c_Bucket row) = false)) ∧
  sv_cache s' = ∅.
Proof.
  intros Hs Hrun. unfold Buckets.DeleteBucketScope in Hrun. unfold mbind at 1, service_bind at 1, on_store in Hrun.
  change (port_DeleteBucketScope o p name pre (sv_store s)) with (DeleteBucketScope o p name pre (sv_store s)) in Hrun.
  intros matches rows rest. unfold DeleteBucketScope in Hrun. cbv zeta in Hrun. fold matches in Hrun.
  destruct (_ || _) in Hrun; [done|]. destruct (existsb matches _) eqn:Ex; [|done].
  apply existsb_exists in Ex as (hit & Hhit%list_elem_of_In & Hm).
  unfold mbind, service_bind, cache_clear, on_cache in Hrun.
  set (left := filter (λ scope, matches scope = false) (bucket_scope (sv_store s))) in *.
  set (s1 := set_cache ∅ (set_store (set_bucket_scope left (sv_store s)) s)) in Hrun.
  assert (sound (sv_store s1)) as Hs1 by (destruct Hs as [[Hi Hb] Hn Hp]; by repeat split).
  destruct (cleanup_spec name s1 Hs1 eq_refl) as (E1 & E2 & _). rewrite Hrun in E1, E2. simpl in E1, E2.
  assert (rest = left) as -> by (unfold rest; by rewrite E1).
  split_and!; [done|by exists hit| |done]. intros row. rewrite E1. simpl. change (s3_credential (sv_store s)) with rows.
  unfold kept_credentials. destruct (resolved_row name rows) as [r|] eqn:Er; [|naive_solver].
  pose proof (resolved_row_elem _ _ _ Er) as Hr. destruct (existsb _ left) eqn:Eb.
  - apply existsb_exists in Eb as (sc & Hsc%list_elem_of_In & Hb). split; [|by intros [? _]].
    intros Hrow. split; [done|]. intros [[= ->] Hno]. by rewrite Hno in Hb.
  - rewrite list_elem_of_filter. destruct Hs as [[Hi _] _ _]. split.
    + intros [Hid Hrow]. split; [done|]. intros [[= ->] _].
      by rewrite (proj2 (has_id_spec _ _)) in Hid.
    + intros [Hrow Hno]. split; [|done]. apply not_true_iff_false. intros Hid%has_id_spec. apply Hno.
      assert (r = row) as -> by (symmetry; by apply (NoDup_fmap_elem c_CredentialID rows)). split; [done|].
      intros sc Hsc. apply not_true_iff_false. intros Hb. apply not_true_iff_false in Eb. apply Eb.
      apply existsb_exists. exists sc. split; [by apply list_elem_of_In|done].
Qed.
End lifecycle.

(** ** Saved credentials *)
Section saved.
Context `{CryptoLib} `{KMS} `{Digests}.

(** The credential a reader gets: the provider is normalized, the rest is as saved. *)
Definition as_read (c : Credential) : Credential := set_Provider (ToLower (TrimSpace (defaultProvider (c_Provider c)))) c.

Lemma Prepare_Parse st st' rnd rnd' c stored :
  kms_honest → fresh rnd → fresh rnd' → credentialMasterKey st' = credentialMasterKey st →
  is_envelope (c_AccessKey c) = false → is_envelope (c_SecretKey c) = false →
  PrepareS3CredentialForStorage st rnd rnd' (Some c) = Ok stored →
  ParseS3CredentialFromStorage st' (as_read stored) = Ok (as_read c) ∧
  c_CredentialID stored = c_CredentialID c ∧ c_Bucket stored = c_Bucket c ∧
  (c_SecretKey c = "" ∨ HasPrefix (c_SecretKey stored) credentialCipherPrefixV2 = true).
Proof.
  intros Hk Hf Hf' Hst Ha Hsec E. simpl in E. apply bind_Ok in E as (access & E1 & E).
  apply bind_Ok in E as (secret & E2 & [= <-]).
  destruct (Encrypt_Decrypt _ _ _ _ _ Hk Hf Hst Ha E1) as (D1 & _). destruct (Encrypt_Decrypt _ _ _ _ _ Hk Hf' Hst Hsec E2) as (D2 & Hp & _).
  split_and!; [|done|done|done]. unfold ParseS3CredentialFromStorage, as_read, set_Provider, set_secrets. cbn [c_AccessKey c_SecretKey].
  rewrite D1. cbn [mbind result_bind]. by rewrite D2.
Qed.
Lemma row_by_id_upsert row rows id :
  row_by_id id (upsert_credential row rows) = if String.eqb (c_CredentialID row) id then Some row else row_by_id id rows.
Proof.
  assert (∀ c l, row_by_id id (c :: l) = if has_id id c then Some c else row_by_id id l) as Hcons.
  { intros c l. unfold row_by_id. simpl. destruct (has_id id c) eqn:E; [by rewrite decide_True|].
    rewrite decide_False by done. by destruct (list_find _ l) as [[]|]. }
  unfold upsert_credential. destruct (existsb _ _) eqn:Ex.
  - induction rows as [|c rows IH]; [done|]. rewrite fmap_cons, !Hcons. simpl in Ex.
    destruct (has_id (c_CredentialID row) c) eqn:Ec.
    + apply has_id_spec in Ec. unfold has_id at 1 3. rewrite Ec. destruct (String.eqb (c_CredentialID row) id) eqn:Eid; [done|].
      clear IH Ex. induction rows as [|x rows IH]; [done|]. rewrite fmap_cons, !Hcons, IH.
      destruct (has_id (c_CredentialID row) x) eqn:Ec'; [|done]. apply has_id_spec in Ec'. unfold has_id. by rewrite Ec', Eid.
    + simpl in Ex. rewrite IH by done. destruct (has_id id c) eqn:Eid; [|done]. apply has_id_spec in Eid.
      unfold has_id in Ec. rewrite Eid in Ec. rewrite String.eqb_sym in Ec. by rewrite Ec.
  - induction rows as [|c rows IH]; [by rewrite app_nil_l, Hcons|]. simpl in Ex. apply orb_false_iff in Ex as [Ec Ex].
    rewrite <- app_comm_cons, !Hcons, IH by done. destruct (has_id id c) eqn:Eid; [|done]. apply has_id_spec in Eid.
    unfold has_id in Ec. rewrite Eid in Ec. rewrite String.eqb_sym in Ec. by rewrite Ec.
Qed.

(** What was saved is read back, under its identifier and under its bucket, by every server with the same master
    key; the secret is not in the table in the clear; every other credential is as before. *)
Theorem saved_credential_is_read st st' rnd rnd' c db db' c' :
  kms_honest → fresh rnd → fresh rnd' → credentialMasterKey st' = credentialMasterKey st →
  unique_credentials db → named_row c → is_envelope (c_AccessKey c) = false → is_envelope (c_SecretKey c) = false →
  SaveS3Credential st rnd rnd' (Some c) db = (db', c', Ok tt) →
  GetS3Credential st' (c_CredentialID c) db' = Ok (as_read c) ∧
  (row_by_id (c_Bucket c) (s3_credential db') = None → GetS3Credential st' (c_Bucket c) db' = Ok (as_read c)) ∧
  (∃ row, row_by_id (c_CredentialID c) (s3_credential db') = Some row ∧
     (c_SecretKey c = "" ∨ HasPrefix (c_SecretKey row) credentialCipherPrefixV2 = true)) ∧
  ∀ id, id ≠ c_CredentialID c → row_by_id id (s3_credential db') = row_by_id id (s3_credential db).
Proof.
  intros Hk Hf Hf' Hst Hu Hn Ha Hsec. unfold SaveS3Credential. cbv zeta. destruct Hn as (Ht & Hne & _).
  cbn [fmap option_fmap option_map]. rewrite Ht, (proj2 (is_empty_false _) Hne).
  destruct (wrap_error _ _ ≫= _) as [db1|] eqn:E; [|done]. intros [= <- _].
  apply bind_Ok in E as (stored & Hp & E). apply bind_Ok in E as (u & _ & E).
  destruct (PrepareS3CredentialForStorage st rnd rnd' (Some c)) as [stored'|] eqn:Ep; [|done]. injection Hp as ->.
  destruct (Prepare_Parse st st' rnd rnd' c stored) as (Hparse & Hid & Hb & Hsecret); [done..|].
  change (set_Provider (ToLower (TrimSpace (defaultProvider (c_Provider stored)))) stored) with (as_read stored) in E.
  pose proof (unique_upsert _ _ _ Hu E) as [_ Hbu]. unfold insert_credential in E. destruct (bucket_taken _ _ _); [done|].
  injection E as <-. cbn [s3_credential set_s3_credential] in *.
  assert (c_CredentialID (as_read stored) = c_CredentialID c ∧ c_Bucket (as_read stored) = c_Bucket c) as [Eid Eb] by done.
  assert (∀ id, row_by_id id (upsert_credential (as_read stored) (s3_credential db)) =
    if String.eqb (c_CredentialID c) id then Some (as_read stored) else row_by_id id (s3_credential db)) as Hrow
    by (intros id; by rewrite row_by_id_upsert, Eid).
  split_and!.
  - unfold GetS3Credential. cbn [s3_credential set_s3_credential]. by rewrite Hrow, String.eqb_refl, Hparse.
  - intros Hnone. unfold GetS3Credential. cbn [s3_credential set_s3_credential]. rewrite Hnone.
    unfold getS3CredentialByPhysicalBucket. cbn [s3_credential set_s3_credential].
    rewrite (filter_bucket_unique _ _ (as_read stored)); [by rewrite Hparse|done| |done].
    apply elem_of_upsert. by left.
  - exists (as_read stored). by rewrite Hrow, String.eqb_refl.
  - intros id Hne'. rewrite Hrow. by rewrite (proj2 (String.eqb_neq _ _)).
Qed.
End saved.

(** ** An execution: the state that [sample_ops] reaches *)
Section sample.
#[local] Existing Instance canonical_order.
#[local] Existing Instances Sample.library Sample.kms sample_digests.
#[local] Instance life_sample_ports : BucketPorts CredentialDB :=
  sqlite_bucket_ports Sample.local_settings (λ _ _, Sample.random) (λ _ _, Sample.random).
Definition sample_state : ServiceState CredentialDB := run_ops 30 true sample_ops (start empty_credential_db).
Lemma sample_sound : sound Sample.local_settings (sv_store sample_state).
Proof. split; [split| |]; by apply (bool_decide_unpack _); vm_compute. Qed.

(** The last scope goes, and the credential with it. *)
Lemma DeleteBucketScope_cleanup_witness :
  ∃ s', Buckets.DeleteBucketScope true "org" "p" "data" "x" sample_state = (s', Ok tt) ∧
    bucket_scope (sv_store s') = [] ∧ s3_credential (sv_store s') = [] ∧
    ∀ row, row ∈ s3_credential (sv_store sample_state) → row ∉ s3_credential (sv_store s').
Proof.
  destruct (Buckets.DeleteBucketScope true "org" "p" "data" "x" sample_state) as [s' r] eqn:E.
  assert (r = Ok tt ∧ bucket_scope (sv_store s') = [] ∧ s3_credential (sv_store s') = []) as (-> & Es & Ec)
    by (vm_compute in E; injection E as <- <-; done).
  exists s'. split_and!; [reflexivity|exact Es|exact Ec|]. intros row Hrow.
  destruct (DeleteBucketScope_cleanup Sample.local_settings (λ _ _, Sample.random) (λ _ _, Sample.random) true
    "org" "p" "data" "x" sample_state s' sample_sound E) as (_ & _ & Hkept & _).
  rewrite Hkept. intros [_ Hno]. apply Hno. split; [|rewrite Es; intros ? []%elem_of_nil].
  assert (s3_credential (sv_store sample_state) = [default row (head (s3_credential (sv_store sample_state)))]) as Hone
    by (vm_compute; reflexivity).
  rewrite Hone in Hrow. apply list_elem_of_singleton in Hrow as ->. vm_compute. reflexivity.
Defined.
Lemma saved_credential_is_read_witness :
  ∃ db', SaveS3Credential Sample.kms_settings Sample.random Sample.random
           (Some (mkCredential "id2" "other" "GS" "" "AK" "SK" "")) (sv_store sample_state) =
         (db', Some (mkCredential "id2" "other" "GS" "" "AK" "SK" ""), Ok tt) ∧
    GetS3Credential Sample.local_settings "id2" db' = Ok (mkCredential "id2" "other" "gs" "" "AK" "SK" "").
Proof.
  destruct (SaveS3Credential Sample.kms_settings Sample.random Sample.random
    (Some (mkCredential "id2" "other" "GS" "" "AK" "SK" "")) (sv_store sample_state)) as [[db' c'] r] eqn:E.
  assert (r = Ok tt ∧ c' = Some (mkCredential "id2" "other" "GS" "" "AK" "SK" "")) as [-> ->]
    by (vm_compute in E; injection E as <- <- <-; done).
  exists db'. split; [reflexivity|].
  assert (fresh Sample.random) as Hf by (split_and!; reflexivity).
  assert (named_row (mkCredential "id2" "other" "GS" "" "AK" "SK" "")) as Hn by by apply (bool_decide_unpack _); vm_compute.
  assert (as_read (mkCredential "id2" "other" "GS" "" "AK" "SK" "") = mkCredential "id2" "other" "gs" "" "AK" "SK" "")
    as <- by (vm_compute; reflexivity).
  exact (proj1 (saved_credential_is_read Sample.kms_settings Sample.local_settings Sample.random Sample.random
    (mkCredential "id2" "other" "GS" "" "AK" "SK" "") (sv_store sample_state) db' _ Sample.honest Hf Hf eq_refl
    (sound_unique _ _ sample_sound) Hn eq_refl eq_refl E)).
Defined.
(** A scope that names its bucket only is stored under the bucket as credential; deleting the credential removes the
    scopes under its identifier and leaves this one. *)
Example orphan_scope :
  let s := run_ops 30 true [OpSave (Some sample_credential); OpCreate 0 (Some (mkScope "org" "p" "" "data" "x"));
                            OpDeleteCredential "cred"] (start empty_credential_db) in
  s3_credential (sv_store s) = [] ∧ bucket_scope (sv_store s) = [mkScope "org" "p" "data" "data" "x"].
Proof. vm_compute. done. Qed.
End sample.
