(* ===== verification/BucketCache.v ===== *)
(** * The scope cache under concurrency
    Requests run in parallel, and other servers change the same tables.  A lookup that misses reads the store and
    fills the cache later; a creation changes the store and seeds the cache later.  Between the two steps anything
    may happen.  The state keeps, as a ghost, every state that the store had with the time it had it, so that "how
    old is an answer" can be said. *)
From S2P Require Import Prelude GoStrings GoURL Errors Resources Policy Objects ContentStore Address Cipher Buckets CredentialStore BucketProperties CredentialProperties.

(** A call of [scopeCache.set] that is still to come, and when the store was read or written for it. *)
Record pending := mkPending { pd_scope : Scope; pd_found : bool; pd_start : Z }.
Record world (S : Type) := mkWorld {
  w_store : S; w_cache : scopeCache; w_now : Z; w_pending : list pending; w_past : list (Z * S) }.
Arguments mkWorld {S} _ _ _ _ _.
Arguments w_store {S} _.
Arguments w_cache {S} _.
Arguments w_now {S} _.
Arguments w_pending {S} _.
Arguments w_past {S} _.

Inductive cache_event (S : Type) :=
  | ETick (d : Z)                               (** time passes *)
  | EStore (store : S)                          (** another operation, here or elsewhere, changes the store *)
  | ERead (organization project : string)       (** a lookup that missed reads the store *)
  | ECreate (scope : Scope)                     (** the repository creates a scope *)
  | EFill (i : nat)                             (** a pending call of set runs *)
  | EClear                                      (** a deletion clears the cache *).
Arguments ETick {S} d.
Arguments EStore {S} store.
Arguments ERead {S} organization project.
Arguments ECreate {S} scope.
Arguments EFill {S} i.
Arguments EClear {S}.

Section machine.
Context {S : Type} `{!BucketPorts S} (ttl : Z).
(** [D]: the longest time between the two steps of an operation. *)
Context (D : Z).

Definition visit (store : S) (cache : scopeCache) (now : Z) (ps : list pending) (w : world S) : world S :=
  mkWorld store cache now ps ((now, store) :: w_past w).
Definition fire (ev : cache_event S) (w : world S) : option (world S) :=
  let '(mkWorld store cache now ps _) := w in
  match ev with
  | ETick d =>
      if (0 <=? d)%Z && forallb (λ p, (now + d <=? pd_start p + D)%Z) ps then Some (visit store cache (now + d)%Z ps w)
      else None
  | EStore store' => Some (visit store' cache now ps w)
  | ERead o p =>
      match port_GetBucketScope o p store with
      | Ok (Some scope) => Some (visit store cache now (ps ++ [mkPending (normalizeScope scope) true now]) w)
      | Ok None => Some (visit store cache now (ps ++ [mkPending (mkScope o p "" "" "") false now]) w)
      | Err e =>
          if IsNotFoundError e then Some (visit store cache now (ps ++ [mkPending (mkScope o p "" "" "") false now]) w)
          else Some (visit store cache now ps w)
      end
  | ECreate scope =>
      match port_CreateBucketScope (Some scope) store with
      | (store', Ok _) => Some (visit store' cache now (ps ++ [mkPending (normalizeScope scope) true now]) w)
      | (store', Err _) => Some (visit store' cache now ps w)
      end
  | EFill i =>
      match ps !! i with
      | Some p => Some (visit store (cache_set ttl now (pd_scope p) (pd_found p) cache) now (delete i ps) w)
      | None => None
      end
  | EClear => Some (visit store ∅ now ps w)
  end.
Definition world0 (store : S) (now : Z) : world S := mkWorld store ∅ now [] [(now, store)].
(** The requests are within the names that the cache can tell apart, and the store holds clean prefixes. *)
Definition event_ok (ev : cache_event S) : Prop :=
  match ev with
  | EStore store => clean store
  | ERead o _ => no_nul o
  | ECreate scope => no_nul (s_Organization scope) ∧ clean_prefix (s_PathPrefix scope)
  | _ => True
  end.
Inductive runs (w : world S) : list (cache_event S) → world S → Prop :=
  | runs_nil : runs w [] w
  | runs_snoc evs ev w1 w2 : runs w evs w1 → event_ok ev → fire ev w1 = Some w2 → runs w (evs ++ [ev]) w2.

(** The events, run. *)
Definition run_events (evs : list (cache_event S)) (w : world S) : option (world S) :=
  foldl (λ o ev, w ← o; fire ev w) (Some w) evs.
Lemma runs_run_events evs w w' : Forall event_ok evs → run_events evs w = Some w' → runs w evs w'.
Proof.
  revert w'. induction evs as [|ev evs IH] using rev_ind; intros w' Hok; [intros [= <-]; constructor|].
  apply Forall_app in Hok as [Hok [Hev _]%Forall_cons]. unfold run_events. rewrite foldl_app. simpl.
  fold (run_events evs w). destruct (run_events evs w) as [w1|] eqn:E; [|done]. intros Hf. econstructor; [by apply IH|done|done].
Qed.

Context `{!BucketLaws S}.

(** What an answer is worth: the store gave it at the time [r]. *)
Definition was_answer (w : world S) (r : Z) (o p : string) (scope : Scope) (found : bool) : Prop :=
  ∃ store, (r, store) ∈ w_past w ∧ answer_equiv (Ok (scope, found)) (store_answer o p store).
Record fresh_world (w : world S) : Prop := {
  fresh_now : (w_now w, w_store w) ∈ w_past w;
  fresh_clean : clean (w_store w);
  fresh_past : ∀ r store, (r, store) ∈ w_past w → (r <= w_now w)%Z;
  fresh_pending : ∀ pd, pd ∈ w_pending w →
    no_nul (s_Organization (pd_scope pd)) ∧ (w_now w <= pd_start pd + D)%Z ∧
    was_answer w (pd_start pd) (s_Organization (pd_scope pd)) (s_ProjectID (pd_scope pd))
      (normalizeScope (pd_scope pd)) (pd_found pd);
  fresh_cache : ∀ o p entry, no_nul o → w_cache w !! scopeCacheKey o p = Some entry →
    ∃ r, (cached_expires entry <= r + D + ttl)%Z ∧ was_answer w r o p (cached_scope entry) (cached_found entry) }.

Lemma was_answer_mono w w' r o p scope found :
  w_past w ⊆ w_past w' → was_answer w r o p scope found → was_answer w' r o p scope found.
Proof. intros Hs (store & Hin & Ha). exists store. split; [by apply Hs|done]. Qed.
(** The shape of every step: the new state of the store is recorded, the rest is shown anew. *)
Lemma fresh_visit w store cache now ps :
  fresh_world w → clean store → (w_now w <= now)%Z →
  (∀ pd, pd ∈ ps → (now <= pd_start pd + D)%Z ∧ (pd ∈ w_pending w ∨
     no_nul (s_Organization (pd_scope pd)) ∧
     was_answer (visit store cache now ps w) (pd_start pd) (s_Organization (pd_scope pd)) (s_ProjectID (pd_scope pd))
       (normalizeScope (pd_scope pd)) (pd_found pd))) →
  (∀ o p entry, no_nul o → cache !! scopeCacheKey o p = Some entry →
     w_cache w !! scopeCacheKey o p = Some entry ∨
     ∃ r, (cached_expires entry <= r + D + ttl)%Z ∧ was_answer w r o p (cached_scope entry) (cached_found entry)) →
  fresh_world (visit store cache now ps w).
Proof.
  intros [_ _ Hp Hpd Hc] Hcl Hnow Hps Hcache.
  assert (w_past w ⊆ w_past (visit store cache now ps w)) as Hsub by (simpl; set_solver).
  split; simpl.
  - apply list_elem_of_here.
  - done.
  - intros r s' [[= -> ->]|Hin]%elem_of_cons; [lia|]. specialize (Hp _ _ Hin). lia.
  - intros pd Hin. destruct (Hps pd Hin) as [Hd [Hold|[Hn Ha]]]; [|done].
    destruct (Hpd pd Hold) as (Hn & _ & Ha). split_and!; [done|done|]. by eapply was_answer_mono.
  - intros o p entry Ho He. destruct (Hcache o p entry Ho He) as [Hold|(r & Hr & Ha)].
    + destruct (Hc o p entry Ho Hold) as (r & Hr & Ha). exists r. split; [done|]. by eapply was_answer_mono.
    + exists r. split; [done|]. by eapply was_answer_mono.
Qed.

(** A step that records the store and leaves cache, time and pending calls alone. *)
Lemma fresh_store store w : fresh_world w → clean store → fresh_world (visit store (w_cache w) (w_now w) (w_pending w) w).
Proof.
  intros Hf Hcl. apply fresh_visit; [done|done|lia| |by left]. intros pd Hin.
  destruct (fresh_pending _ Hf pd Hin) as (_ & ? & _). split; [done|by left].
Qed.
(** A step that also leaves a call of set to come, for the answer of the new store. *)
Lemma fresh_add store w scope found :
  fresh_world w → clean store → (0 <= D)%Z → no_nul (s_Organization scope) →
  answer_equiv (Ok (normalizeScope scope, found)) (store_answer (s_Organization scope) (s_ProjectID scope) store) →
  fresh_world (visit store (w_cache w) (w_now w) (w_pending w ++ [mkPending scope found (w_now w)]) w).
Proof.
  intros Hf Hcl HD Hn Ha. apply fresh_visit; [done|done|lia| |by left]. intros pd [Hin|Hin]%elem_of_app.
  - destruct (fresh_pending _ Hf pd Hin) as (_ & ? & _). split; [done|by left].
  - apply list_elem_of_singleton in Hin as ->. split; [simpl; lia|]. right. split; [done|]. exists store.
    split; [apply list_elem_of_here|done].
Qed.
Lemma fresh_read o p w :
  fresh_world w → (0 <= D)%Z → no_nul o → ∀ w', fire (ERead o p) w = Some w' → fresh_world w'.
Proof.
  intros Hf HD Ho w'. destruct w as [store cache now ps past]. simpl. pose proof (fresh_clean _ Hf) as Hcl. simpl in Hcl.
  assert (store_answer o p store = Ok (noScope, false) → fresh_world (visit store cache now
    (ps ++ [mkPending (mkScope o p "" "" "") false now]) (mkWorld store cache now ps past))) as Hmiss.
  { intros Ha. apply (fresh_add store (mkWorld store cache now ps past)); [done|done|done|done|]. simpl. rewrite Ha. constructor. }
  unfold store_answer in Hmiss. destruct (port_GetBucketScope o p store) as [[scope|]|e] eqn:E.
  - intros [= <-]. destruct (law_get_named o p _ _ E) as [Hno Hnp].
    pose proof (Hcl _ (law_get_listed _ _ _ _ E)) as Hpre.
    apply (fresh_add store (mkWorld store cache now ps past)); [done|done|done| |]; simpl.
    + rewrite Hno. by apply TrimSpace_avoid.
    + rewrite (store_answer_trim _ _ o p) by (by rewrite TrimSpace_idemp).
      unfold store_answer. rewrite E, normalizeScope_idemp by done. reflexivity.
  - intros [= <-]. by apply Hmiss.
  - destruct (IsNotFoundError e); intros [= <-]; [by apply Hmiss|].
    by apply (fresh_store store (mkWorld store cache now ps past)).
Qed.
Lemma clean_create scope store store' :
  clean store → clean_prefix (s_PathPrefix scope) → port_CreateBucketScope (Some scope) store = (store', Ok tt) → clean store'.
Proof.
  intros Hcl Hp E row Hrow. destruct (law_create_listed _ _ _ _ Hp E Hrow) as [Hold|Heq]; [by apply Hcl|by eapply clean_prefix_equiv].
Qed.
Lemma fresh_create scope w :
  fresh_world w → (0 <= D)%Z → event_ok (ECreate scope) → ∀ w', fire (ECreate scope) w = Some w' → fresh_world w'.
Proof.
  intros Hf HD [Hn Hp] w'. destruct w as [store cache now ps past]. simpl. pose proof (fresh_clean _ Hf) as Hcl. simpl in Hcl.
  destruct (port_CreateBucketScope (Some scope) store) as [store' [[]|e]] eqn:E; intros [= <-].
  - destruct (law_create_scope _ _ _ Hp E) as [Ha _].
    apply (fresh_add store' (mkWorld store cache now ps past)); [done|by eapply clean_create|done| |]; simpl.
    + by apply TrimSpace_avoid.
    + rewrite (store_answer_trim _ _ (s_Organization scope) (s_ProjectID scope)) by apply TrimSpace_idemp.
      by rewrite normalizeScope_idemp.
  - apply law_create_error in E. apply (fresh_store store' (mkWorld store cache now ps past)); [done|by eapply clean_same].
Qed.
Lemma fresh_fill i w : fresh_world w → ∀ w', fire (EFill i) w = Some w' → fresh_world w'.
Proof.
  intros Hf w'. destruct w as [store cache now ps past]. simpl. destruct (ps !! i) as [pd|] eqn:E; [|done]. intros [= <-].
  apply (fresh_visit (mkWorld store cache now ps past)); [done|by apply Hf|simpl; lia| |].
  - intros q Hq. assert (q ∈ ps) as Hin.
    { apply list_elem_of_lookup in Hq as [j Hj]. rewrite list_lookup_delete in Hj. case_decide; by eapply list_elem_of_lookup_2. }
    destruct (fresh_pending _ Hf q Hin) as (_ & ? & _). split; [done|by left].
  - intros o p entry Ho. unfold cache_set. cbv zeta.
    assert (pd ∈ ps) as Hin by (by eapply list_elem_of_lookup_2).
    destruct (fresh_pending _ Hf pd Hin) as (Hn & Hd & Ha). simpl in Hd.
    assert (scopeCacheKey (s_Organization (normalizeScope (pd_scope pd))) (s_ProjectID (normalizeScope (pd_scope pd))) =
      scopeCacheKey (s_Organization (pd_scope pd)) (s_ProjectID (pd_scope pd))) as -> by (apply scopeCacheKey_trim; simpl; apply TrimSpace_idemp).
    destruct (decide (scopeCacheKey o p = scopeCacheKey (s_Organization (pd_scope pd)) (s_ProjectID (pd_scope pd)))) as [Ek|Ek].
    + rewrite Ek, lookup_insert_eq. intros [= <-]. right. exists (pd_start pd). split; [simpl; lia|].
      apply scopeCacheKey_inj in Ek as [Eo Ep]; [|done..]. destruct Ha as (s' & Hs' & Ha). exists s'. split; [done|].
      simpl. by rewrite (store_answer_trim _ _ _ _ _ Eo Ep).
    + rewrite lookup_insert_ne by done. by left.
Qed.
Lemma fresh_fire ev w w' :
  (0 <= D)%Z → fresh_world w → event_ok ev → fire ev w = Some w' → fresh_world w'.
Proof.
  intros HD Hf Hok E. destruct ev as [d|store|o p|scope|i|].
  - destruct w as [store cache now ps past]. simpl in E. destruct (_ && _) eqn:Eg; [|done]. injection E as <-.
    apply andb_true_iff in Eg as [Hd%Z.leb_le Hall]. rewrite forallb_forall in Hall.
    apply (fresh_visit (mkWorld store cache now ps past)); [done|by apply Hf|simpl; lia| |by left].
    intros pd Hin. split; [|by left]. apply Z.leb_le, Hall. by apply list_elem_of_In.
  - destruct w as [old cache now ps past]. injection E as <-. by apply (fresh_store store (mkWorld old cache now ps past)).
  - by eapply fresh_read.
  - by eapply fresh_create.
  - by eapply fresh_fill.
  - destruct w as [store cache now ps past]. injection E as <-.
    apply (fresh_visit (mkWorld store cache now ps past)); [done|by apply Hf|simpl; lia| |].
    + intros pd Hin. destruct (fresh_pending _ Hf pd Hin) as (_ & ? & _). split; [done|by left].
    + intros o p entry _. by rewrite lookup_empty.
Qed.
Lemma fresh_runs store now evs w :
  (0 <= D)%Z → clean store → runs (world0 store now) evs w → fresh_world w.
Proof.
  intros HD Hcl. remember (world0 store now) as w0 eqn:E0. induction 1 as [|evs ev w1 w2 _ IH Hok Hfire].
  - subst. split; simpl.
    + apply list_elem_of_here.
    + done.
    + intros r s' [= -> _]%list_elem_of_singleton. lia.
    + intros pd Hin. by apply elem_of_nil in Hin.
    + intros o p entry _. by rewrite lookup_empty.
  - apply (fresh_fire ev w1); [done|by apply IH|done|done].
Qed.

(** However requests of this and of other servers interleave, an answer of the cache is never older than the
    lifetime of an entry plus the time an operation takes: the store gave that answer at some moment within. *)
Theorem cached_answer_age store now evs w o p scope found :
  (0 <= D)%Z → clean store → runs (world0 store now) evs w → no_nul o →
  cache_get (w_now w) o p (w_cache w) = Some (scope, found) →
  ∃ r store', (r, store') ∈ w_past w ∧ (w_now w - (ttl + D) <= r <= w_now w)%Z ∧
    answer_equiv (Ok (scope, found)) (store_answer o p store').
Proof.
  intros HD Hcl Hr%fresh_runs Ho; [|done..]. unfold cache_get.
  destruct (w_cache w !! scopeCacheKey o p) as [entry|] eqn:E; [|done].
  destruct (cached_expires entry <? w_now w)%Z eqn:Ex; [done|]. apply Z.ltb_ge in Ex. intros [= <- <-].
  destruct (fresh_cache _ Hr o p entry Ho E) as (r & Hexp & store' & Hin & Ha). exists r, store'.
  split_and!; [done|lia|by eapply fresh_past|done].
Qed.
End machine.

(** ** A creation that goes unseen *)
Section sample.
#[local] Existing Instance canonical_order.
#[local] Existing Instances Sample.library Sample.kms sample_digests.
#[local] Instance cache_sample_ports : BucketPorts CredentialDB :=
  sqlite_bucket_ports Sample.local_settings (λ _ _, Sample.random) (λ _ _, Sample.random).
#[local] Instance cache_sample_laws : BucketLaws CredentialDB :=
  sqlite_bucket_laws Sample.local_settings (λ _ _, Sample.random) (λ _ _, Sample.random).
(** A lookup reads the store before a scope is created and fills the cache after the creation has seeded it. *)
Definition race : list (cache_event CredentialDB) :=
  [ERead "org" "p"; ECreate (mkScope "org" "p" "cred" "data" "x"); ETick 2; EFill 1; EFill 0; ETick 29].
Definition race_end : world CredentialDB :=
  default (world0 empty_credential_db 0) (run_events 30 5 race (world0 empty_credential_db 0)).
Lemma race_runs : runs 30 5 (world0 empty_credential_db 0) race race_end.
Proof.
  apply runs_run_events; [|vm_compute; reflexivity]. unfold race. repeat constructor; apply (bool_decide_unpack _); by vm_compute.
Qed.
(** The creation is done since 29 time units, and the cache still says that the scope does not exist. *)
Lemma cached_answer_age_witness :
  cache_get (w_now race_end) "org" "p" (w_cache race_end) = Some (mkScope "org" "p" "" "" "", false) ∧
  GetBucketScope "org" "p" (w_store race_end) = Ok (mkScope "org" "p" "cred" "data" "x") ∧
  ∃ r store', (r, store') ∈ w_past race_end ∧ (-4 <= r <= 31)%Z ∧
    answer_equiv (Ok (mkScope "org" "p" "" "" "", false)) (store_answer "org" "p" store').
Proof.
  assert (cache_get (w_now race_end) "org" "p" (w_cache race_end) = Some (mkScope "org" "p" "" "" "", false)) as Hget
    by (vm_compute; reflexivity).
  split; [exact Hget|]. split; [vm_compute; reflexivity|].
  assert (clean empty_credential_db) as Hcl.
  { intros scope (l & El & Hin). vm_compute in El. injection El as <-. destruct (not_elem_of_nil _ Hin). }
  exact (cached_answer_age 30 5 empty_credential_db 0 race race_end "org" "p" _ false ltac:(lia) Hcl race_runs
    ltac:(by apply (bool_decide_unpack _); vm_compute) Hget).
Defined.
End sample.
