(* ===== verification/BucketVisibility.v ===== *)
(** * Which buckets a caller sees: internal/buckets/visibility.go
    The credentials are merged with the explicit scopes and with the rows that the objects of the catalog give:
    a bucket is shown with the resources ("programs") that reach it. *)
From S2P Require Import Prelude GoStrings GoURL Errors Resources Policy Objects ContentStore ContentReads Address Cipher Buckets CredentialStore BucketProperties CredentialProperties.

Definition readMethod := "read".

(** ** The bucket of a row *)
Definition bucketForVisibilityRow (row : VisibilityRow) (creds : list Credential) : option string :=
  let raw := TrimSpace (v_AccessURL row) in
  if is_empty raw then None
  else
    match ParseS3URL raw with
    | Some (bucket, _) => Some bucket
    | None =>
        let provider := ProviderFromScheme (SchemeFromURL raw) in
        let host :=
          if String.eqb provider GCSProvider || String.eqb provider AzureProvider then
            match url_Parse raw with
            | Some u => if is_empty (TrimSpace (url_Host u)) then None else Some (TrimSpace (url_Host u))
            | None => None
            end
          else None in
        match host with
        | Some h => Some h
        | None =>
            let cleanRaw := path_Clean raw in
            let under cred :=
              let root := let e := TrimSpace (c_Endpoint cred) in if is_empty e then TrimSpace (c_Bucket cred) else e in
              String.eqb (NormalizeProvider (c_Provider cred) S3Provider) FileProvider && negb (is_empty root) &&
              (String.eqb cleanRaw (path_Clean root) || HasPrefix cleanRaw (path_Clean root +:+ "/")) in
            (c_Bucket ∘ snd) <$> list_find (λ cred, under cred = true) creds
        end
    end.
Definition credentialIDForVisibilityRow (row : VisibilityRow) (creds : list Credential) : option string :=
  bucket ← bucketForVisibilityRow row creds;
  match list_find (λ cred, TrimSpace (c_Bucket cred) = bucket) creds with
  | Some (_, cred) => Some (credentialIDForCredential cred)
  | None => Some bucket
  end.

(** ** Merging *)
(** The maps of [mergeVisibleRows]. *)
Record merging := mkMerging {
  byCredential : gmap string VisibleBucket;
  programsSeen : gmap string (gset string);
  explicitScopeOwners : gmap string string }.
Definition merge_start (creds : list Credential) : merging :=
  foldl (λ m cred, let key := credentialIDForCredential cred in
           mkMerging (<[key := mkVisible cred []]> (byCredential m)) (<[key := ∅]> (programsSeen m)) (explicitScopeOwners m))
    (mkMerging ∅ ∅ ∅) creds.
(** Appends a resource that the credential has not shown yet. *)
Definition add_program (credentialID resource : string) (entry : VisibleBucket) (m : merging) : merging :=
  let seen := default ∅ (programsSeen m !! credentialID) in
  mkMerging (<[credentialID := mkVisible (vb_Credential entry) (vb_Programs entry ++ [resource])]> (byCredential m))
    (<[credentialID := {[resource]} ∪ seen]> (programsSeen m)) (explicitScopeOwners m).
Definition program_seen (credentialID resource : string) (m : merging) : bool :=
  bool_decide (resource ∈ default ∅ (programsSeen m !! credentialID)).

Section merge.
Context `{MapOrder}.

Definition merge_scope (ctx : context) (creds : list Credential) (filterExplicitScopes : bool) (m : merging) (scope : Scope)
  : merging :=
  let credentialID := scopeCredentialIDForCredentials scope creds in
  match byCredential m !! credentialID with
  | None => m
  | Some entry =>
      match ResourcePath (s_Organization scope) (s_ProjectID scope) with
      | Err _ => m
      | Ok resource =>
          if is_empty (TrimSpace resource) then m
          else if filterExplicitScopes && negb (HasMethodAccess ctx readMethod [resource]) then m
          else if program_seen credentialID resource m then m
          else add_program credentialID resource entry
                 (mkMerging (byCredential m) (programsSeen m) (<[resource := credentialID]> (explicitScopeOwners m)))
      end
  end.
Definition merge_row (creds : list Credential) (m : merging) (row : VisibilityRow) : merging :=
  match credentialIDForVisibilityRow row creds with
  | None => m
  | Some credentialID =>
      match byCredential m !! credentialID with
      | None => m
      | Some entry =>
          let resource := TrimSpace (v_Resource row) in
          if is_empty resource then m
          else if match explicitScopeOwners m !! resource with Some owner => negb (String.eqb owner credentialID) | None => false end
          then m
          else if program_seen credentialID resource m then m
          else add_program credentialID resource entry m
      end
  end.
Definition mergeVisibleRows (ctx : context) (creds : list Credential) (scopes : list Scope) (rows : list VisibilityRow)
    (filterExplicitScopes : bool) : gmap string VisibleBucket :=
  let m := foldl (merge_scope ctx creds filterExplicitScopes) (merge_start creds) scopes in
  let m := foldl (merge_row creds) m rows in
  (λ entry, mkVisible (vb_Credential entry) (sort_Strings (vb_Programs entry))) <$> byCredential m.

Context {S : Type} `{!BucketPorts S}.
(** Whether the query is restricted to the resources the caller may read. *)
Definition restrict_rows (ctx : context) : bool :=
  IsAuthzEnforced ctx && negb (HasMethodAccess ctx readMethod ["/programs"]) && negb (HasMethodAccess ctx readMethod ["/data_file"]).
Definition ListVisibleBuckets (ctx : context) (s : S) : result error (gmap string VisibleBucket) :=
  creds ← port_ListS3Credentials s;
  match creds with
  | [] => Ok ∅
  | _ =>
      let '(filterExplicitScopes, rows) :=
        match port_ListBucketVisibilityRows with
        | Some query => (restrict_rows ctx, query (AuthorizedResources ctx readMethod) true (restrict_rows ctx) s)
        | None => (IsAuthzEnforced ctx,
            match port_VisibilityFallback with
            | Some fallback => fallback ctx s
            | None => Err (EText "bucket service requires a visibility query or fallback")
            end)
        end in
      rows ← rows;
      scopes ← port_ListBucketScopes s;
      Ok (mergeVisibleRows ctx creds scopes rows filterExplicitScopes)
  end.
End merge.
Definition VisibleToCaller (visible : gmap string VisibleBucket) (bucket credentialID : string) : bool :=
  existsb (λ e : string * VisibleBucket,
      EqualFold (TrimSpace (c_Bucket (vb_Credential e.2))) bucket || EqualFold (TrimSpace e.1) credentialID
      || EqualFold (TrimSpace (c_CredentialID (vb_Credential e.2))) credentialID) (map_to_list visible).

(** ** What is shown is justified *)
Section justified.
Context `{MapOrder} (ctx : context) (creds : list Credential).

(** [P]: the programs that may be shown. *)
Definition shows_only (P : string → Prop) (m : merging) : Prop :=
  ∀ key entry r, byCredential m !! key = Some entry → r ∈ vb_Programs entry → P r.

Lemma shows_start P : shows_only P (merge_start creds).
Proof.
  unfold merge_start. assert (shows_only P (mkMerging ∅ ∅ ∅)) as Hs by (intros key entry r; simpl; by rewrite lookup_empty).
  revert Hs. generalize (mkMerging ∅ ∅ ∅). induction creds as [|c l IH]; intros m Hs; [done|]. simpl. apply IH.
  intros key entry r. simpl. destruct (decide (key = credentialIDForCredential c)) as [->|Hne].
  - rewrite lookup_insert_eq. intros [= <-]. simpl. by intros ?%elem_of_nil.
  - rewrite lookup_insert_ne by done. apply Hs.
Qed.
Lemma shows_add P key resource entry m :
  shows_only P m → byCredential m !! key = Some entry → P resource → shows_only P (add_program key resource entry m).
Proof.
  intros Hs He Hp k e r. simpl. destruct (decide (k = key)) as [->|Hne].
  - rewrite lookup_insert_eq. intros [= <-]. simpl. rewrite elem_of_app, list_elem_of_singleton.
    intros [Hr| ->]; [by eapply Hs|done].
  - rewrite lookup_insert_ne by done. apply Hs.
Qed.
(** The programs that scopes and rows can contribute. *)
Definition scope_program (filterExplicitScopes : bool) (scopes : list Scope) (r : string) : Prop :=
  ∃ scope, scope ∈ scopes ∧ ResourcePath (s_Organization scope) (s_ProjectID scope) = Ok r ∧
    (filterExplicitScopes = true → HasMethodAccess ctx readMethod [r] = true).
Definition row_program (rows : list VisibilityRow) (r : string) : Prop :=
  ∃ row, row ∈ rows ∧ r = TrimSpace (v_Resource row) ∧ r ≠ "".

Lemma shows_scopes P f scopes m :
  shows_only P m → (∀ r, scope_program f scopes r → P r) → shows_only P (foldl (merge_scope ctx creds f) m scopes).
Proof.
  revert m. induction scopes as [|scope scopes IH]; intros m Hs Hp; [done|]. simpl. apply IH.
  2:{ intros r (sc & Hsc & Hr). apply Hp. exists sc. split; [by right|done]. }
  unfold merge_scope. cbv zeta. destruct (byCredential m !! _) as [entry|] eqn:Ee; [|done].
  destruct (ResourcePath _ _) as [resource|] eqn:Er; [|done]. destruct (is_empty _); [done|].
  destruct (f && _) eqn:Ef; [done|]. destruct (program_seen _ _ _); [done|].
  apply shows_add; [exact Hs|done|]. apply Hp. exists scope. split_and!; [by left|done|]. intros ->.
  by destruct (HasMethodAccess ctx readMethod [resource]).
Qed.
Lemma shows_rows P rows m :
  shows_only P m → (∀ r, row_program rows r → P r) → shows_only P (foldl (merge_row creds) m rows).
Proof.
  revert m. induction rows as [|row rows IH]; intros m Hs Hp; [done|]. simpl. apply IH.
  2:{ intros r (rw & Hrw & Hr). apply Hp. exists rw. split; [by right|done]. }
  unfold merge_row. cbv zeta. destruct (credentialIDForVisibilityRow row creds) as [id|]; [|done].
  destruct (byCredential m !! id) as [entry|] eqn:Ee; [|done]. destruct (is_empty _) eqn:Er; [done|].
  destruct (match explicitScopeOwners m !! _ with Some _ => _ | None => _ end); [done|]. destruct (program_seen _ _ _); [done|].
  apply shows_add; [done|done|]. apply Hp. exists row. split_and!; [by left|done|by apply is_empty_false].
Qed.
Lemma merge_shows scopes rows f key entry r :
  mergeVisibleRows ctx creds scopes rows f !! key = Some entry → r ∈ vb_Programs entry →
  scope_program f scopes r ∨ row_program rows r.
Proof.
  unfold mergeVisibleRows. cbv zeta. rewrite lookup_fmap_Some. intros (e & <- & He). simpl.
  rewrite elem_of_sort_Strings. revert key e r He.
  apply shows_rows; [|by right]. apply shows_scopes; [apply shows_start|by left].
Qed.
End justified.

(** ** Over the SQLite repository *)
Section sqlite.
Context `{MapOrder} `{CryptoLib} `{KMS} `{Digests} (st : settings)
  (rnd rnd' : option Credential → CredentialDB → randomness).
#[local] Instance visibility_ports : BucketPorts CredentialDB := sqlite_bucket_ports st rnd rnd'.

(** A row of the join names an access method and a grant of one object. *)
Lemma elem_of_visibility_rows db id row :
  row ∈ visibility_rows_of db id →
  (id, (v_AccessURL row, v_AccessType row)) ∈ access_method db ∧
  (v_Resource row = "" ∨ (id, v_Resource row) ∈ controlled_access db).
Proof.
  unfold visibility_rows_of. rewrite list_elem_of_bind. intros ([url typ] & Hr & Hm).
  apply list_elem_of_fmap in Hr as (r & -> & Hr). split; [by apply elem_of_rows_of|]. cbn [v_Resource].
  destruct (rows_of (controlled_access db) id) as [|g l] eqn:E.
  - left. by apply list_elem_of_singleton in Hr.
  - right. apply elem_of_rows_of. by rewrite E.
Qed.

(** A restricted caller sees a resource in a bucket only if it may read the resource itself, or the resource is a
    grant of an object with an access method that the caller may read under another of its grants. *)
Theorem visible_programs_justified ctx db visible key entry r :
  ListVisibleBuckets ctx db = Ok visible → visible !! key = Some entry → r ∈ vb_Programs entry →
  restrict_rows ctx = true →
  HasMethodAccess ctx readMethod [r] = true ∨
  ∃ id method grant readable,
    (id, method) ∈ access_method (content db) ∧ (id, grant) ∈ controlled_access (content db) ∧ r = TrimSpace grant ∧
    (id, readable) ∈ controlled_access (content db) ∧
    readable ∈ NormalizeAccessResources (AuthorizedResources ctx readMethod).
Proof.
  intros Hl Hk Hr Hrestrict. unfold ListVisibleBuckets in Hl. apply bind_Ok in Hl as (creds & _ & Hl).
  destruct creds as [|c creds]; [injection Hl as <-; by rewrite lookup_empty in Hk|].
  cbn [port_ListBucketVisibilityRows visibility_ports sqlite_bucket_ports] in Hl. rewrite Hrestrict in Hl.
  apply bind_Ok in Hl as (rows & Hrows & Hl). apply bind_Ok in Hl as (scopes & _ & [= <-]).
  destruct (merge_shows _ _ _ _ _ _ _ _ Hk Hr) as [(scope & _ & _ & Ha)|(row & Hrow & -> & Hne)]; [left; by apply Ha|].
  right. unfold ListBucketVisibilityRows in Hrows. cbv zeta in Hrows.
  set (allowed := NormalizeAccessResources (AuthorizedResources ctx readMethod)) in *.
  assert (∃ id, visible_object allowed true (content db) id = true ∧ row ∈ visibility_rows_of (content db) id) as (id & Hvis & Hin).
  { destruct (_ && _); injection Hrows as <-; [by apply elem_of_nil in Hrow|].
    rewrite elem_of_remove_dups, list_elem_of_bind in Hrow. destruct Hrow as (id & Hin & [Hv _]%list_elem_of_filter). by exists id. }
  apply elem_of_visibility_rows in Hin as [Hm [Hnil|Hg]]; [by rewrite Hnil in Hne|].
  unfold visible_object in Hvis. apply orb_true_iff in Hvis as [Hex|Hun].
  - apply existsb_exists in Hex as (g & Hgin%list_elem_of_In & Hga%bool_decide_eq_true).
    exists id, (v_AccessURL row, v_AccessType row), (v_Resource row), g. apply elem_of_rows_of in Hgin. done.
  - apply bool_decide_eq_true in Hun. apply elem_of_rows_of in Hg. rewrite Hun in Hg. by apply elem_of_nil in Hg.
Qed.
End sqlite.

(** ** An execution: a caller of one organization reads an object that another one shares *)
Section sample.
#[local] Existing Instance canonical_order.
#[local] Existing Instances Sample.library Sample.kms sample_digests.
#[local] Instance visibility_sample_ports : BucketPorts CredentialDB :=
  sqlite_bucket_ports Sample.local_settings (λ _ _, Sample.random) (λ _ _, Sample.random).
Definition visibility_context : context :=
  Some (mkSession "local" "" "u" ["/organization/a"] {[ "/organization/a" := {[ "read" := true ]} ]} true true).
Definition visibility_db : CredentialDB :=
  set_bucket_scope [mkScope "a" "" "cred" "data" ""; mkScope "c" "" "cred" "data" ""]
    (sv_store (run_ops 30 true [OpSave (Some sample_credential)]
       (start (mkCredentialDB
          (mkDB {[ "o1" := mkObjectRow 1 0 0 "" "" "" ]} [("o1", ("s3://data/k", "s3"))]
             [("o1", "/organization/b"); ("o1", "/organization/a")] [] ∅ ∅ [] ∅ []) [] [])))).

(** The scope of [c] is not shown; the resource [b] is, since it is a grant of an object that the caller reads. *)
Lemma visible_programs_justified_witness :
  ∃ entry, ListVisibleBuckets visibility_context visibility_db = Ok {[ "cred" := entry ]} ∧
    vb_Programs entry = ["/organization/a"; "/organization/b"] ∧
    (HasMethodAccess visibility_context readMethod ["/organization/b"] = true ∨
     ∃ id method grant readable,
      (id, method) ∈ access_method (content visibility_db) ∧ (id, grant) ∈ controlled_access (content visibility_db) ∧
      "/organization/b" = TrimSpace grant ∧ (id, readable) ∈ controlled_access (content visibility_db) ∧
      readable ∈ NormalizeAccessResources (AuthorizedResources visibility_context readMethod)).
Proof.
  assert (∃ entry, ListVisibleBuckets visibility_context visibility_db = Ok {[ "cred" := entry ]} ∧
    vb_Programs entry = ["/organization/a"; "/organization/b"]) as (entry & Hl & Hp)
    by (vm_compute; eexists; split; reflexivity).
  exists entry. split_and!; [exact Hl|exact Hp|].
  apply (visible_programs_justified Sample.local_settings (λ _ _, Sample.random) (λ _ _, Sample.random)
    visibility_context visibility_db {[ "cred" := entry ]} "cred" entry); [exact Hl|apply lookup_singleton_eq| |vm_compute; reflexivity].
  rewrite Hp. right. left.
Defined.
End sample.
