(* ===== verification/Paths.v ===== *)
(** * Slash-separated paths
    Lemmas on the segments of a path, on path.Join and path.Clean, and on trimming; for the keys and prefixes of
    storage locations. *)
From S2P Require Import Prelude GoStrings GoURL.

(** ** Substrings *)
Definition infix (t s : string) : Prop := ∃ x y, s = x +:+ t +:+ y.
#[export] Instance infix_preorder : PreOrder infix.
Proof.
  split.
  - intros s. exists "", "". by rewrite string_app_nil_l, string_app_nil_r.
  - intros a b c (x & y & ->) (u & v & ->). exists (u +:+ x), (y +:+ v). by rewrite !(assoc_L String.append).
Qed.
Lemma infix_trim cs s : infix (trim cs s) s.
Proof. destruct (trim_infix cs s) as (x & y & E). by exists x, y. Qed.
Lemma infix_TrimPrefix s p : infix (TrimPrefix s p) s.
Proof.
  unfold TrimPrefix. destruct (strip_prefix p s) as [r|] eqn:E; [|reflexivity].
  apply strip_prefix_Some in E as ->. exists p, "". by rewrite string_app_nil_r.
Qed.
Lemma infix_Contains s t sub : infix t s → Contains s sub = false → Contains t sub = false.
Proof.
  intros (x & y & ->) Hc. unfold Contains in *. rewrite bool_decide_eq_false in *. intros [[u v] E%Cut_Some].
  apply Hc. destruct (Cut _ sub) eqn:E'; [by eexists|]. rewrite Cut_None in E'. exfalso. apply (E' (x +:+ u) (v +:+ y)).
  by rewrite E, !(assoc_L String.append).
Qed.

(** ** Segments *)
Abbreviation segments := (Split slash).
Lemma segments_app s t : segments (s +:+ "/" +:+ t) = segments s ++ segments t.
Proof.
  induction s as [|a s IH]; [done|]. change (String a s +:+ "/" +:+ t) with (String a (s +:+ "/" +:+ t)).
  cbn [Split]. rewrite IH. destruct (Ascii.eqb a slash); [done|]. destruct (segments s) eqn:E; [by apply Split_nonempty in E|done].
Qed.
Lemma Join_segments s : Join (segments s) "/" = s.
Proof. apply (Join_Split slash). Qed.
Lemma segments_Join l : l ≠ [] → Forall (λ p, slash ∉ chars p) l → segments (Join l "/") = l.
Proof. apply (Split_Join slash). Qed.
Lemma Join_app l k : l ≠ [] → k ≠ [] → Join (l ++ k) "/" = Join l "/" +:+ "/" +:+ Join k "/".
Proof.
  intros Hl Hk. induction l as [|s l IH]; [done|]. destruct (decide (l = [])) as [->|Hne]; [by apply Join_cons|].
  rewrite <- app_comm_cons, !Join_cons, IH, !(assoc_L String.append) by (done || by destruct l). done.
Qed.
Lemma segments_inj s t : segments s = segments t → s = t.
Proof. intros E. by rewrite <- (Join_segments s), E, Join_segments. Qed.
Lemma segment_infix seg s : seg ∈ segments s → infix seg s.
Proof.
  intros Hin. rewrite <- (Join_segments s). induction (segments s) as [|h l IH]; [by apply elem_of_nil in Hin|].
  destruct (decide (l = [])) as [->|Hne]; [apply list_elem_of_singleton in Hin as ->; reflexivity|].
  rewrite Join_cons by done. apply elem_of_cons in Hin as [->|Hin].
  - exists "", ("/" +:+ Join l "/"). done.
  - destruct (IH Hin) as (x & y & ->). exists (h +:+ "/" +:+ x), y. by rewrite !(assoc_L String.append).
Qed.

(** ** Clean paths *)
Definition seg_ok (s : string) : Prop := s ≠ "" ∧ s ≠ "." ∧ s ≠ ".." ∧ TrimSpace s = s.
#[export] Instance seg_ok_dec s : Decision (seg_ok s).
Proof. unfold seg_ok. apply _. Defined.
Definition path_ok (p : string) : Prop := Forall seg_ok (segments p).
#[export] Instance path_ok_dec p : Decision (path_ok p).
Proof. unfold path_ok. apply _. Defined.

Lemma path_ok_app s t : path_ok (s +:+ "/" +:+ t) ↔ path_ok s ∧ path_ok t.
Proof. unfold path_ok. by rewrite segments_app, Forall_app. Qed.
Lemma path_ok_Join l : l ≠ [] → path_ok (Join l "/") ↔ Forall path_ok l.
Proof.
  intros Hne. induction l as [|s l IH]; [done|]. destruct (decide (l = [])) as [->|Hl].
  - by rewrite Forall_singleton.
  - rewrite Join_cons, path_ok_app, Forall_cons, IH by done. done.
Qed.
Lemma path_ok_nonempty p : path_ok p → p ≠ "".
Proof. intros Hp ->. unfold path_ok in Hp. simpl in Hp. by apply Forall_singleton in Hp as [? _]. Qed.

(** ** Trimming *)
Section trimming.
Context (cs : list string) (Hcs : Forall (.≠ "") cs).

Lemma first_strip_before c s t : seqs_avoid c cs → first_strip cs s = None → s ≠ "" → first_strip cs (s +:+ String c t) = None.
Proof.
  intros Hc Hs Hne. apply first_strip_None. intros w Hw. rewrite first_strip_None in Hs.
  destruct (strip_prefix w _) as [r|] eqn:E; [|done]. unfold seqs_avoid in Hc. rewrite Forall_forall in Hc.
  apply strip_prefix_avoid in E as [r' E]; [|by apply Hc]. by rewrite Hs in E.
Qed.
Lemma first_strip_app c s t r :
  seqs_avoid c cs → first_strip cs s = Some r → first_strip cs (s +:+ String c t) = Some (r +:+ String c t).
Proof using.
  clear Hcs. unfold seqs_avoid. induction cs as [|w l IH]; intros Hc E; [done|]. simpl in *.
  inversion Hc as [|? ? Hw Hl]; subst. destruct (strip_prefix w s) as [r'|] eqn:Es.
  - injection E as ->. apply strip_prefix_Some in Es as ->. by rewrite <- (assoc_L String.append), strip_prefix_app.
  - destruct (strip_prefix w (s +:+ _)) eqn:Ea; [|by apply IH]. apply strip_prefix_avoid in Ea as [? Ea]; [|done]. by rewrite Es in Ea.
Qed.
(** What comes after a character that is not trimmed stays, and what comes before it. *)
Lemma trim_left_before c s t : seqs_avoid c cs → trim_left cs (s +:+ String c t) = trim_left cs s +:+ String c t.
Proof using Hcs.
  intros Hc. remember (String.length s) as n eqn:En. revert s En. induction (lt_wf n) as [n _ IH]. intros s ->.
  destruct (first_strip cs s) as [r|] eqn:E.
  - rewrite (trim_left_step cs s r) by done. rewrite (trim_left_step cs _ (r +:+ String c t)) by (done || by apply first_strip_app).
    apply (IH (String.length r)); [|done]. pose proof (first_strip_Some _ _ _ E) as (w & Hw & ->).
    rewrite Forall_forall in Hcs. specialize (Hcs w Hw). rewrite string_length_app. destruct w; [done|simpl; lia].
  - rewrite (trim_left_id cs s) by done. apply trim_left_id. destruct (decide (s = "")) as [->|Hne].
    + rewrite string_app_nil_l. by apply first_strip_avoid_left.
    + by apply first_strip_before.
Qed.
End trimming.
Lemma trim_right_after cs c s t :
  seqs_avoid c (rev <$> cs) → Forall (.≠ "") (rev <$> cs) → trim_right cs (s +:+ String c t) = s +:+ String c (trim_right cs t).
Proof.
  intros Hc Hne. unfold trim_right. rewrite rev_app, rev_cons, <- (assoc_L String.append), string_app_cons, string_app_nil_l.
  rewrite trim_left_before by done. by rewrite rev_app, rev_cons, rev_involutive, <- (assoc_L String.append).
Qed.

Lemma TrimSpace_sep s t : trimmed unicode_spaces s → s ≠ "" → ∃ t', TrimSpace (s +:+ "/" +:+ t) = s +:+ "/" +:+ t'.
Proof.
  intros [Hs _] Hne. unfold TrimSpace, trim. rewrite (trim_left_id _ (s +:+ _)).
  - exists (trim_right unicode_spaces t). apply trim_right_after; [apply seqs_avoid_rev, spaces_avoid_slash|].
    apply rev_seqs_ok, unicode_spaces_ok.
  - by apply first_strip_before; [apply spaces_avoid_slash|..].
Qed.
Lemma HasPrefix_slash a s : HasPrefix (String a s) "/" = Ascii.eqb slash a.
Proof. unfold HasPrefix. cbn [strip_prefix]. destruct (Ascii.eqb slash a); [by apply bool_decide_eq_true|by apply bool_decide_eq_false; intros []]. Qed.
Lemma first_strip_slash s : HasPrefix s "/" = false → first_strip ["/"] s = None.
Proof. destruct s as [|a s]; [done|]. rewrite HasPrefix_slash. cbn [first_strip strip_prefix]. by intros ->. Qed.
Lemma HasSuffix_rev s : HasSuffix s "/" = HasPrefix (rev s) "/".
Proof. unfold HasSuffix, HasPrefix, strip_suffix. apply bool_decide_ext. by rewrite fmap_is_Some. Qed.
Lemma HasPrefix_slash_app s t : s ≠ "" → HasPrefix (s +:+ t) "/" = HasPrefix s "/".
Proof. intros Hne. destruct s as [|a s]; [done|]. by rewrite string_app_cons, !HasPrefix_slash. Qed.
Lemma rev_not_empty s : s ≠ "" → rev s ≠ "".
Proof. by rewrite rev_nil_inv. Qed.
Lemma Trim_sep s t : s ≠ "" → HasPrefix s "/" = false → HasSuffix s "/" = false →
  Trim (s +:+ "/" +:+ t) "/" = s ∨ ∃ t', Trim (s +:+ "/" +:+ t) "/" = s +:+ "/" +:+ t'.
Proof.
  intros Hne Hp Hs. unfold Trim, trim.
  assert (∀ u v, v ≠ "" → HasPrefix v "/" = false →
    trim_left ["/"] (u +:+ "/" +:+ v) = v ∨ ∃ u', trim_left ["/"] (u +:+ "/" +:+ v) = u' +:+ "/" +:+ v) as Hl.
  { intros u v Hv Hvp. induction u as [|a u IH].
    - left. rewrite string_app_nil_l. rewrite (trim_left_step ["/"] ("/" +:+ v) v); [|exact (cutset_ok "/")|reflexivity].
      by apply trim_left_id, first_strip_slash.
    - destruct (Ascii.eqb_spec slash a) as [<-|Hna].
      + rewrite string_app_cons, (trim_left_step ["/"] _ (u +:+ "/" +:+ v)); [exact IH|exact (cutset_ok "/")|reflexivity].
      + right. exists (String a u). apply trim_left_id, first_strip_slash. rewrite string_app_cons, HasPrefix_slash.
        by apply Ascii.eqb_neq. }
  change (cutset "/") with ["/"]. rewrite (trim_left_id ["/"] (s +:+ _)) by by rewrite first_strip_slash; [|rewrite HasPrefix_slash_app].
  unfold trim_right. change (rev <$> ["/"]) with ["/"]. rewrite !rev_app, <- (assoc_L String.append). change (rev "/") with "/".
  rewrite HasSuffix_rev in Hs. destruct (Hl (rev t) (rev s) (rev_not_empty _ Hne) Hs) as [->|[u' ->]].
  - left. apply rev_involutive.
  - right. exists (rev u'). by rewrite !rev_app, rev_involutive, <- (assoc_L String.append).
Qed.

(** ** Clean paths are left alone *)
Lemma path_ok_ends p : path_ok p → trimmed unicode_spaces p ∧ HasPrefix p "/" = false ∧ HasSuffix p "/" = false.
Proof.
  assert (∀ seg, seg_ok seg → slash ∉ chars seg → trimmed unicode_spaces seg ∧ HasPrefix seg "/" = false ∧ HasSuffix seg "/" = false) as Hseg.
  { intros seg (Hne & _ & _ & Ht) Hs. split_and!; [by apply TrimSpace_trimmed| |].
    - unfold HasPrefix. apply bool_decide_eq_false. intros [r E%strip_prefix_Some]. subst. apply Hs. rewrite chars_app. set_solver.
    - by apply HasSuffix_avoid. }
  unfold path_ok. pose proof (Split_avoid slash p) as Hav. intros Hok. rewrite <- (Join_segments p). pose proof (Split_nonempty slash p) as Hne.
  induction (segments p) as [|s l IH]; [done|]. inversion Hok as [|? ? Hs Hl]; inversion Hav as [|? ? Hsa Hla]; subst.
  destruct (Hseg s Hs Hsa) as ((Ht1 & Ht2) & Hp & Hsuf). destruct (decide (l = [])) as [->|Hnl]; [by split_and!|].
  destruct (IH Hla Hl Hnl) as ((Hj1 & Hj2) & _ & Hjs). rewrite Join_cons by done.
  assert (Join l "/" ≠ "") as Hjne.
  { intros E. apply (path_ok_nonempty (Join l "/")); [|done]. unfold path_ok. by rewrite segments_Join. }
  destruct Hs as (Hsne & _). split_and!; [split|..].
  - by apply first_strip_before; [apply spaces_avoid_slash|..].
  - by apply first_strip_avoid_right; [apply spaces_avoid_slash|..].
  - by rewrite HasPrefix_slash_app.
  - rewrite HasSuffix_rev in Hjs |- *. rewrite !rev_app, <- (assoc_L String.append), HasPrefix_slash_app by by apply rev_not_empty. done.
Qed.
Lemma path_ok_trim p : path_ok p → Trim (TrimSpace p) "/" = p.
Proof.
  intros (Ht & Hp & Hs)%path_ok_ends. rewrite HasSuffix_rev in Hs. unfold TrimSpace. rewrite trim_id by done.
  apply trim_id. split; by apply first_strip_slash.
Qed.

(** ** path.Clean and path.Join *)
Definition plain_seg (s : string) : Prop := s ≠ "" ∧ s ≠ ".".
Lemma clean_go_plain stack parts :
  ".." ∉ parts → clean_go false stack parts = reverse stack ++ filter plain_seg parts.
Proof.
  revert stack. induction parts as [|p parts IH]; intros stack Hd; [by rewrite app_nil_r|].
  apply not_elem_of_cons in Hd as [Hp Hd]. cbn [clean_go]. rewrite filter_cons.
  destruct (decide (plain_seg p)) as [[H1 H2]|Hno].
  - rewrite (proj2 (String.eqb_neq _ _) H1), (proj2 (String.eqb_neq _ _) H2), (proj2 (String.eqb_neq p "..")) by (intros ->; done).
    simpl. by rewrite IH, reverse_cons, <- (assoc_L (++)).
  - assert (String.eqb p "" || String.eqb p "." = true) as ->.
    { apply orb_true_iff. rewrite !String.eqb_eq. destruct (decide (p = "")); [by left|right].
      destruct (decide (p = ".")); [done|]. exfalso. by apply Hno. }
    by apply IH.
Qed.
Lemma path_ok_segments p : path_ok p → (".." ∉ segments p) ∧ filter plain_seg (segments p) = segments p.
Proof.
  unfold path_ok. rewrite Forall_forall. intros Hp. split; [by intros (_ & _ & ? & _)%Hp|].
  apply filter_all_True. intros s (H1 & H2 & _)%Hp. done.
Qed.
(** Joining a path without [..] to a clean one stays below the clean one. *)
Lemma path_Join_under p r :
  path_ok p → r ≠ "" → ".." ∉ segments r →
  path_Join [p; r] = Join (segments p ++ filter plain_seg (segments r)) "/".
Proof.
  intros Hp Hr Hd. pose proof (path_ok_nonempty _ Hp) as Hne. pose proof (path_ok_segments _ Hp) as [Hpd Hpf].
  unfold path_Join. rewrite !filter_cons_True, filter_nil by done. unfold path_Clean.
  change (Join [p; r] "/") with (p +:+ "/" +:+ r).
  rewrite (proj2 (is_empty_false _)) by (intros [? _]%string_app_eq_nil; done).
  rewrite HasPrefix_slash_app by done. destruct (path_ok_ends _ Hp) as (_ & -> & _). cbv zeta iota.
  rewrite segments_app, clean_go_plain by (rewrite elem_of_app; tauto). rewrite filter_app, Hpf. cbn [reverse app].
  change (reverse [] ++ segments p ++ filter plain_seg (segments r)) with (segments p ++ filter plain_seg (segments r)).
  rewrite (proj2 (is_empty_false _)); [done|]. intros E.
  destruct (segments p) as [|h l] eqn:Es; [by apply Split_nonempty in Es|].
  unfold path_ok in Hp. rewrite Es in Hp. inversion Hp as [|? ? (Hh & _) _]; subst.
  rewrite <- app_comm_cons in E. destruct (decide (l ++ filter plain_seg (segments r) = [])) as [E'|E']; [by rewrite E' in E|].
  rewrite Join_cons in E by done. apply string_app_eq_nil in E as [? _]. done.
Qed.
Lemma path_Join_cases p r :
  path_ok p → r ≠ "" → ".." ∉ segments r →
  path_Join [p; r] = p ∨ ∃ t, path_Join [p; r] = p +:+ "/" +:+ t.
Proof.
  intros Hp Hr Hd. rewrite path_Join_under by done. destruct (decide (filter plain_seg (segments r) = [])) as [->|Hne].
  - left. by rewrite app_nil_r, Join_segments.
  - right. rewrite Join_app, Join_segments by (done || apply Split_nonempty). by eexists.
Qed.
Lemma path_Join_ok p r : path_ok p → path_ok r → path_Join [p; r] = p +:+ "/" +:+ r.
Proof.
  intros Hp Hr. destruct (path_ok_segments _ Hr) as [Hd Hf].
  rewrite path_Join_under, Hf, Join_app, !Join_segments by (done || apply Split_nonempty || by apply path_ok_nonempty). done.
Qed.
