(* ===== verification/Targets.v ===== *)
(** * Where the bytes of an object are: internal/transfers (target.go, legacy_url.go, signing.go)
    A transfer is signed for a bucket and a key.  They are resolved from the scopes of the object or of the
    request, with the prefixes of the scopes composed; a download URL may be repaired first.  The repositories and
    the storage providers are the ports of the transfer service (class [TransferPorts]); a port that is nil is
    [None]. *)
From S2P Require Import Prelude GoStrings GoURL Errors Resources Policy Objects Address Buckets.

(** ** internal/storage: the requests to a provider *)
Record AccessTarget := mkAccessTarget { at_AccessID : string; at_Location : string }.
Record ByteRange := mkByteRange { br_Start : Z; br_End : Z }.
Record AccessOptions := mkAccessOptions { ao_ExpiresIn : Z; ao_Method : string; ao_DownloadFilename : string }.
Record StorageAccessRequest := mkStorageAccessRequest {
  sar_Target : AccessTarget; sar_Options : AccessOptions; sar_Range : option ByteRange }.
Record ObjectTarget := mkObjectTarget { ot_Bucket : string; ot_Key : string }.
Record CompletedPart := mkCompletedPart { cp_PartNumber : Z; cp_ETag : string }.
Record MultipartPartRequest := mkMultipartPartRequest {
  mpr_Target : ObjectTarget; mpr_UploadID : string; mpr_PartNumber : Z }.
Record CompleteMultipartRequest := mkCompleteMultipartRequest {
  cmr_Target : ObjectTarget; cmr_UploadID : string; cmr_Parts : list CompletedPart }.

Definition DownloadFilename (name : string) : string :=
  let clean := TrimSpace name in
  if is_empty clean then ""
  else
    let base := filepath_Base (ReplaceAll clean "\" "/") in
    if bool_decide (TrimSpace base ∈ [""; "."; "/"]) then "" else base.

(** ** ports.go *)
Class TransferPorts (S Event : Type) := {
  port_Access : option (StorageAccessRequest → service S string);   (* the location of the access *)
  port_BeginMultipart : option (ObjectTarget → service S string);
  port_AccessMultipartPart : MultipartPartRequest → service S string;
  port_CompleteMultipart : CompleteMultipartRequest → service S unit;
  port_LookupBucketScope : option (string → string → service S (Scope * bool));
  port_CredentialReader : option (service S (list Credential));
  port_RecordEvents : option (list Event → service S unit) }.

(** ** target.go *)
Record CanonicalStorageTargetRequest := mkTargetRequest {
  tr_Object : option ObjectRecord; tr_AccessURL : string; tr_Bucket : string; tr_Key : string; tr_PreferChecksum : bool }.
Record CanonicalStorageTarget := mkTarget { t_Bucket : string; t_Key : string; t_URL : string }.
Definition newCanonicalStorageTarget (bucket key : string) : CanonicalStorageTarget :=
  let bucket := TrimSpace bucket in
  let key := Trim (TrimSpace key) "/" in
  mkTarget bucket key (BucketToURL bucket key).

Definition firstSupportedAccessURL (obj : ObjectRecord) : string :=
  let supported m :=
    match am_AccessUrl m with
    | Some u =>
        let scheme := SchemeFromURL (au_Url u) in
        if is_empty (TrimSpace (au_Url u)) then None
        else if negb (is_empty scheme) && is_empty (ProviderFromScheme scheme) then None
        else Some (au_Url u)
    | None => None
    end in
  default "" (head (omap supported (default [] (r_AccessMethods obj)))).
Definition parseS3Location (accessURL : string) : option (string * string) :=
  match ParseS3URL accessURL with
  | Some found => Some found
  | None =>
      match url_Parse (TrimSpace accessURL) with
      | Some parsed =>
          if EqualFold (TrimSpace (url_Scheme parsed)) "s3"
          then Some (TrimSpace (url_Host parsed), Trim (TrimSpace (url_Path parsed)) "/") else None
      | None => None
      end
  end.
Definition trimLeadingStoragePrefix (key prefix : string) : string :=
  let key := Trim (TrimSpace key) "/" in
  let prefix := Trim (TrimSpace prefix) "/" in
  if is_empty key || is_empty prefix then key
  else if String.eqb key prefix then ""
  else TrimPrefix key (prefix +:+ "/").
Definition push_prefix (prefixes : list string) (scope : Scope) : list string :=
  let prefix := Trim (TrimSpace (s_PathPrefix scope)) "/" in
  if is_empty prefix then prefixes
  else
    match last prefixes with
    | None => [prefix]
    | Some last =>
        if String.eqb prefix last then prefixes
        else if HasPrefix prefix (last +:+ "/") then take (length prefixes - 1) prefixes ++ [prefix]
        else if HasPrefix last (prefix +:+ "/") then prefixes
        else prefixes ++ [prefix]
    end.
Definition normalizedScopePrefixes (scopes : list Scope) : list string := foldl push_prefix [] scopes.
Definition normalizeScopedStorageKey (key : string) (scopes : list Scope) : string :=
  let key := Trim (TrimSpace key) "/" in
  let prefixes := normalizedScopePrefixes scopes in
  let remainder := foldl trimLeadingStoragePrefix key prefixes in
  let composedPrefix := Join prefixes "/" in
  if is_empty composedPrefix then remainder
  else if is_empty remainder then composedPrefix
  else path_Join [composedPrefix; remainder].
Definition parseResourceScope (resource : string) : option (string * string) :=
  let resource := TrimSpace resource in
  let resource := match url_Parse resource with
                  | Some parsed => if is_empty (url_Path parsed) then resource else url_Path parsed
                  | None => resource
                  end in
  match Split slash (Trim resource "/") with
  | first :: second :: rest =>
      if bool_decide (first ∈ ["organization"; "organizations"; "program"; "programs"]) then
        let organization := TrimSpace second in
        if is_empty organization then None
        else
          let project := match rest with
                         | kind :: name :: _ => if String.eqb kind "project" || String.eqb kind "projects" then TrimSpace name else ""
                         | _ => ""
                         end in
          Some (organization, project)
      else None
  | _ => None
  end.
(** The bucket of the last scope that has one. *)
Definition scopes_bucket (scopes : list Scope) : string :=
  foldl (λ bucket scope, if is_empty (TrimSpace (s_Bucket scope)) then bucket else TrimSpace (s_Bucket scope)) "" scopes.

Section operations.
Context {S Event : Type} `{!TransferPorts S Event} `{MapOrder} `{Digests}.
Abbreviation M := (service S).

(** The scope of an organization and a project, when there is one. *)
Definition lookup_scope (lookup : string → string → M (Scope * bool)) (organization project : string) : M (list Scope) :=
  '(scope, found) ← lookup organization project;
  mret (if found : bool then [scope] else []).
Definition bucketScopesForObject (obj : ObjectRecord) : M (list Scope) :=
  match port_LookupBucketScope with
  | None => mret []
  | Some lookup =>
      let orgProjects := omap parseResourceScope (AccessResources obj) in
      scopes ← mapM (λ organization,
          own ← lookup_scope lookup organization "";
          projects ← mapM (lookup_scope lookup organization)
            (filter (.≠ "") (sort_Strings (snd <$> filter (λ p, p.1 = organization) orgProjects)));
          mret (own ++ concat projects))
        (sort_Strings (dedup orgProjects.*1));
      mret (concat scopes)
  end.
Definition canonicalObjectKey (obj : ObjectRecord) (explicitKey existingKey : string) (preferChecksum : bool) : string :=
  let explicitKey := Trim (TrimSpace explicitKey) "/" in
  let checksum := match CanonicalSHA256 (slice (r_Checksums obj)) with Some sha => Trim (TrimSpace sha) "/" | None => "" end in
  let existingKey := Trim (TrimSpace existingKey) "/" in
  let candidates := if preferChecksum then [explicitKey; checksum; existingKey] else [explicitKey; existingKey; checksum] in
  default (Trim (TrimSpace (r_Id obj)) "/") (head (filter (.≠ "") candidates)).
Definition ResolveCanonicalStorageTarget (req : CanonicalStorageTargetRequest) : M CanonicalStorageTarget :=
  match tr_Object req with
  | None => fail (EText "object is required")
  | Some obj =>
      scopes ← bucketScopesForObject obj;
      let existingURL := TrimSpace (tr_AccessURL req) in
      let existingURL := if is_empty existingURL then firstSupportedAccessURL obj else existingURL in
      let existing := parseS3Location existingURL in
      let '(existingBucket, existingKey) := default ("", "") existing in
      if negb (bool_decide (scopes = [])) then
        let targetBucket := scopes_bucket scopes in
        if is_empty targetBucket then fail (EText "unable to resolve scoped storage bucket for object %s")
        else
          let targetKey :=
            if bool_decide (is_Some existing) && EqualFold (TrimSpace existingBucket) targetBucket
               && bool_decide (normalizedScopePrefixes scopes = []) && negb (is_empty (TrimSpace existingKey))
            then existingKey else canonicalObjectKey obj (tr_Key req) existingKey (tr_PreferChecksum req) in
          let targetKey := normalizeScopedStorageKey targetKey scopes in
          if is_empty (TrimSpace targetKey) then fail (EText "unable to resolve scoped storage key for object %s")
          else mret (newCanonicalStorageTarget targetBucket targetKey)
      else if is_empty (TrimSpace existingURL) then fail (EWrap "%w: object storage location is unavailable" (EDef ErrInvalidInput))
      else
        match existing with
        | Some (bucket, key) =>
            if is_empty (TrimSpace bucket) || is_empty (TrimSpace key)
            then fail (EWrap "%w: object storage location is invalid" (EDef ErrInvalidInput))
            else mret (newCanonicalStorageTarget bucket key)
        | None => mret (mkTarget "" "" existingURL)
        end
  end.
Definition ResolveScopedUploadTarget (organization project key : string) : M CanonicalStorageTarget :=
  let organization := TrimSpace organization in
  let project := TrimSpace project in
  let key := Trim (TrimSpace key) "/" in
  if is_empty organization then fail (EWrap "%w: organization is required" (EDef ErrInvalidInput))
  else
    scopes ← match port_LookupBucketScope with
             | None => mret []
             | Some lookup =>
                 own ← lookup_scope lookup organization "";
                 named ← if is_empty project then mret [] else lookup_scope lookup organization project;
                 mret (own ++ named)
             end;
    if bool_decide (scopes = []) then
      fail (EWrap (if is_empty project then "%w: no bucket scope configured for organization %q"
                   else "%w: no bucket scope configured for organization %q project %q") (EDef ErrInvalidInput))
    else
      let bucket := scopes_bucket scopes in
      if is_empty bucket
      then fail (EWrap "%w: unable to resolve scoped storage bucket for organization %q project %q" (EDef ErrInvalidInput))
      else
        let key := normalizeScopedStorageKey key scopes in
        if is_empty key
        then fail (EWrap "%w: unable to resolve scoped storage key for organization %q project %q" (EDef ErrInvalidInput))
        else mret (newCanonicalStorageTarget bucket key).

(** ** legacy_url.go *)
Definition isUnscopedCanonicalSHA256 (obj : ObjectRecord) (accessURL : string) : bool :=
  match parseS3Location accessURL with
  | None => false
  | Some (_, key) =>
      if Contains (Trim key "/") "/" then false
      else match CanonicalSHA256 (slice (r_Checksums obj)) with
           | Some sha => EqualFold (Trim key "/") (TrimSpace sha)
           | None => false
           end
  end.
(** The locations to which the scopes map a URL whose bucket is their prefix; neighbours that agree count once. *)
Definition map_legacy (bucket key : string) (mappedURLs : list string) (scope : Scope) : list string :=
  let prefix := Trim (TrimSpace (s_PathPrefix scope)) "/" in
  if is_empty prefix || negb (String.eqb bucket prefix) then mappedURLs
  else
    let targetBucket := TrimSpace (s_Bucket scope) in
    if is_empty targetBucket then mappedURLs
    else
      let candidate := BucketToURL targetBucket (prefix +:+ "/" +:+ TrimLeft key "/") in
      if bool_decide (last mappedURLs = Some candidate) then mappedURLs else mappedURLs ++ [candidate].
Definition resolveLegacyS3DownloadURL (obj : ObjectRecord) (accessURL : string) : M string :=
  let accessURL := TrimSpace accessURL in
  match parseS3Location accessURL with
  | None => mret accessURL
  | Some (bucket, key) =>
      if is_empty (TrimSpace bucket) || is_empty (TrimSpace key) then mret accessURL
      else
        scopes ← bucketScopesForObject obj;
        match foldl (map_legacy bucket key) [] scopes with
        | [] => mret accessURL
        | mapped :: others =>
            known ← match port_CredentialReader with
                    | None => mret false
                    | Some list =>
                        credentials ← list;
                        mret (existsb (λ c, String.eqb (TrimSpace (c_Bucket c)) bucket) credentials)
                    end;
            if known : bool then mret accessURL
            else if negb (bool_decide (others = [])) then
              fail (EWrap "%w: legacy S3 URL %q maps to conflicting physical locations %q and %q" (EDef ErrConflict))
            else mret mapped
        end
  end.
Definition resolveObjectDownloadURL (obj : ObjectRecord) (accessURL : string) : M string :=
  let accessURL := TrimSpace accessURL in
  legacyURL ← resolveLegacyS3DownloadURL obj accessURL;
  if negb (String.eqb legacyURL accessURL) || negb (isUnscopedCanonicalSHA256 obj accessURL) then mret legacyURL
  else
    target ← ResolveCanonicalStorageTarget (mkTargetRequest (Some obj) accessURL "" "" false);
    mret (t_URL target).

(** ** signing.go *)
Definition resolveSigningBucket (accessURL : string) : string := default "" (fst <$> ParseS3URL accessURL).
Definition with_access (request : StorageAccessRequest) : M string :=
  match port_Access with
  | None => fail (EText "storage access is not configured")
  | Some access => access request
  end.
Definition SignURL (accessURL : string) (options : AccessOptions) : M string :=
  with_access (mkStorageAccessRequest (mkAccessTarget (resolveSigningBucket accessURL) accessURL) options None).
Definition SignObjectURL (obj : ObjectRecord) (accessURL : string) (options : AccessOptions) : M string :=
  let targetURL := TrimSpace accessURL in
  targetURL ← if EqualFold (TrimSpace (ao_Method options)) "PUT"
              then target ← ResolveCanonicalStorageTarget (mkTargetRequest (Some obj) targetURL "" "" false);
                   mret (t_URL target)
              else resolveObjectDownloadURL obj targetURL;
  SignURL targetURL options.
Definition SignDownloadPart (bucket accessURL : string) (start end_ : Z) (options : AccessOptions) : M string :=
  with_access (mkStorageAccessRequest (mkAccessTarget bucket accessURL) options (Some (mkByteRange start end_))).
Definition SignObjectDownloadPart (obj : ObjectRecord) (bucket accessURL : string) (start end_ : Z) (options : AccessOptions)
  : M string :=
  resolved ← resolveObjectDownloadURL obj accessURL;
  let bucket := default bucket (fst <$> ParseS3URL resolved) in
  SignDownloadPart bucket resolved start end_ options.
End operations.
