(* ===== verification/TargetProperties.v ===== *)
(** * Resolved storage locations
    A location stays below the prefixes of its scopes as long as the key has no two dots in a row, and a location
    that has been resolved is resolved to itself.  A key with [..] leaves the prefix. *)
From S2P Require Import Prelude GoStrings GoURL Errors Resources Policy Objects Address Buckets Paths Targets.

(** ** Prefixes *)
Definition scope_prefix (scope : Scope) : string := Trim (TrimSpace (s_PathPrefix scope)) "/".
(** The prefix of a scope is absent or a clean path. *)
Definition scope_ok (scope : Scope) : Prop := scope_prefix scope = "" ∨ path_ok (scope_prefix scope).
#[export] Instance scope_ok_dec scope : Decision (scope_ok scope).
Proof. unfold scope_ok. apply _. Defined.
(** The prefix below which the scopes put their objects. *)
Definition composed_prefix (scopes : list Scope) : string := Join (normalizedScopePrefixes scopes) "/".
(** [key] is the directory [prefix] or below it; everything is below the empty prefix. *)
Definition below (prefix key : string) : Prop := prefix = "" ∨ key = prefix ∨ ∃ rest, key = prefix +:+ "/" +:+ rest.

Lemma push_prefix_ok prefixes scope : scope_ok scope → Forall path_ok prefixes → Forall path_ok (push_prefix prefixes scope).
Proof.
  intros Hs Hp. unfold push_prefix. fold (scope_prefix scope). cbv zeta.
  destruct (is_empty (scope_prefix scope)) eqn:E; [done|].
  destruct Hs as [Hs|Hs]; [by rewrite Hs in E|]. destruct (last prefixes); [|by repeat constructor].
  repeat case_match; try done; apply Forall_app; split; try (by repeat constructor); try done. by apply Forall_take.
Qed.
Lemma prefixes_ok scopes : Forall scope_ok scopes → Forall path_ok (normalizedScopePrefixes scopes).
Proof.
  intros Hs. unfold normalizedScopePrefixes. assert (Forall path_ok []) as Hnil by constructor.
  revert Hnil. generalize (@nil string). induction Hs as [|scope scopes Hsc _ IH]; intros l Hl; [done|].
  apply IH. by apply push_prefix_ok.
Qed.
Lemma composed_ok scopes : Forall scope_ok scopes → composed_prefix scopes = "" ∨ path_ok (composed_prefix scopes).
Proof.
  intros Hs. pose proof (prefixes_ok _ Hs) as Hp. unfold composed_prefix.
  destruct (decide (normalizedScopePrefixes scopes = [])) as [->|Hne]; [by left|]. right. by apply path_ok_Join.
Qed.

(** ** Containment *)
Lemma infix_trimmed_prefix key prefix : infix (trimLeadingStoragePrefix key prefix) key.
Proof.
  unfold trimLeadingStoragePrefix. cbv zeta.
  assert (infix (Trim (TrimSpace key) "/") key) as Hi by (etrans; apply infix_trim).
  destruct (_ || _); [done|]. destruct (String.eqb _ _).
  - by exists "", key.
  - etrans; [apply infix_TrimPrefix|done].
Qed.
Lemma infix_remainder prefixes key : infix (foldl trimLeadingStoragePrefix key prefixes) key.
Proof.
  revert key. induction prefixes as [|p l IH]; intros key; simpl; [reflexivity|].
  etrans; [apply IH|apply infix_trimmed_prefix].
Qed.
Lemma no_dots key : Contains key ".." = false → ".." ∉ segments key.
Proof.
  intros Hc Hin%segment_infix. pose proof (infix_Contains _ _ ".." Hin Hc) as Hx. vm_compute in Hx. discriminate.
Qed.
Lemma below_trim prefix key : path_ok prefix → below prefix key → below prefix (Trim (TrimSpace key) "/").
Proof.
  intros Hp [->|[->|[rest ->]]]; [by left|right; left; by apply path_ok_trim|right].
  destruct (path_ok_ends _ Hp) as (Ht & Hpre & Hsuf). pose proof (path_ok_nonempty _ Hp) as Hne.
  destruct (TrimSpace_sep _ rest Ht Hne) as [t ->]. by apply Trim_sep.
Qed.
Lemma normalized_below key scopes :
  Forall scope_ok scopes → Contains key ".." = false → below (composed_prefix scopes) (normalizeScopedStorageKey key scopes).
Proof.
  intros Hs Hc. unfold normalizeScopedStorageKey. cbv zeta. fold (composed_prefix scopes).
  destruct (composed_ok _ Hs) as [E|Hok]; [by left|].
  pose proof (path_ok_nonempty _ Hok) as Hne. rewrite (proj2 (is_empty_false _) Hne).
  set (remainder := foldl _ _ _). assert (Contains remainder ".." = false) as Hr.
  { eapply infix_Contains; [|exact Hc]. unfold remainder. etrans; [apply infix_remainder|]. etrans; apply infix_trim. }
  destruct (is_empty remainder) eqn:E; [right; by left|]. apply is_empty_false in E.
  right. by apply path_Join_cases, no_dots.
Qed.

(** ** Locations that are resolved already *)
Lemma trim_prefix_path key prefix rest :
  path_ok prefix → Trim (TrimSpace key) "/" = key → key = prefix +:+ "/" +:+ rest → trimLeadingStoragePrefix key prefix = rest.
Proof.
  intros Hp Ht E. unfold trimLeadingStoragePrefix. rewrite Ht, path_ok_trim by done. cbv zeta.
  pose proof (path_ok_nonempty _ Hp) as Hne.
  assert (key ≠ "" ∧ key ≠ prefix) as [Hk Hkp].
  { subst. split; [by intros [? _]%string_app_eq_nil|]. intros E%(f_equal String.length). rewrite !string_length_app in E. simpl in E. lia. }
  rewrite (proj2 (is_empty_false _) Hk), (proj2 (is_empty_false _) Hne), (proj2 (String.eqb_neq _ _) Hkp). simpl orb. cbv iota.
  by rewrite E, (assoc_L String.append), TrimPrefix_app.
Qed.
Lemma trim_prefix_self prefix : path_ok prefix → trimLeadingStoragePrefix prefix prefix = "".
Proof.
  intros Hp. unfold trimLeadingStoragePrefix. rewrite path_ok_trim by done. cbv zeta.
  rewrite (proj2 (is_empty_false _) (path_ok_nonempty _ Hp)), String.eqb_refl. done.
Qed.
Lemma trim_prefixes_path prefixes rest :
  prefixes ≠ [] → Forall path_ok prefixes → path_ok rest →
  foldl trimLeadingStoragePrefix (Join prefixes "/" +:+ "/" +:+ rest) prefixes = rest.
Proof.
  intros Hne Hp Hr. induction Hp as [|p l Hp Hl IH]; [done|]. cbn [foldl].
  destruct (decide (l = [])) as [->|Hnl].
  - change (Join [p] "/") with p. apply trim_prefix_path; [done| |done]. by apply path_ok_trim, path_ok_app.
  - rewrite Join_cons by done. rewrite (trim_prefix_path _ p (Join l "/" +:+ "/" +:+ rest)); [by apply IH|done| |by rewrite <- !(assoc_L String.append)].
    apply path_ok_trim. rewrite !path_ok_app, path_ok_Join by done. done.
Qed.
Lemma trim_prefixes_self prefixes :
  prefixes ≠ [] → Forall path_ok prefixes → foldl trimLeadingStoragePrefix (Join prefixes "/") prefixes = "".
Proof.
  intros Hne Hp. induction Hp as [|p l Hp Hl IH]; [done|]. cbn [foldl].
  destruct (decide (l = [])) as [->|Hnl]; [by apply trim_prefix_self|].
  rewrite Join_cons by done. rewrite (trim_prefix_path _ p (Join l "/")); [by apply IH|done| |done].
  apply path_ok_trim. rewrite path_ok_app, path_ok_Join by done. done.
Qed.
Lemma composed_empty scopes : Forall scope_ok scopes → composed_prefix scopes = "" → normalizedScopePrefixes scopes = [].
Proof.
  intros Hs E. destruct (decide (normalizedScopePrefixes scopes = [])) as [|Hne]; [done|]. exfalso.
  apply (path_ok_nonempty (composed_prefix scopes)); [|done]. by apply path_ok_Join, prefixes_ok.
Qed.
Lemma normalized_fixed key scopes :
  Forall scope_ok scopes → path_ok key → below (composed_prefix scopes) key → normalizeScopedStorageKey key scopes = key.
Proof.
  intros Hs Hk Hb. unfold normalizeScopedStorageKey. rewrite path_ok_trim by done. cbv zeta. fold (composed_prefix scopes).
  destruct (decide (composed_prefix scopes = "")) as [E|Hne].
  { rewrite E. by rewrite (composed_empty _ Hs E). }
  pose proof (prefixes_ok _ Hs) as Hp. assert (normalizedScopePrefixes scopes ≠ []) as Hn.
  { intros E. apply Hne. unfold composed_prefix. by rewrite E. }
  rewrite (proj2 (is_empty_false _) Hne). destruct Hb as [?|[->|[rest ->]]]; [done|..].
  - pose proof (trim_prefixes_self _ Hn Hp) as E. fold (composed_prefix scopes) in E. by rewrite E.
  - pose proof Hk as [Hc Hr]%path_ok_app. pose proof (trim_prefixes_path _ rest Hn Hp Hr) as E. fold (composed_prefix scopes) in E.
    rewrite E.
    rewrite (proj2 (is_empty_false _) (path_ok_nonempty _ Hr)). by apply path_Join_ok.
Qed.

(** ** Leaving the prefix *)
Lemma dots_segments n : n ≠ 0 → segments (Join (replicate n "..") "/") = replicate n "..".
Proof.
  intros Hn. apply segments_Join; [by destruct n|]. apply Forall_replicate. by apply (bool_decide_unpack _); vm_compute.
Qed.
Lemma Clean_dots p k : path_ok p → path_ok k →
  clean_go false [] (segments p ++ replicate (length (segments p)) ".." ++ segments k) = segments k.
Proof.
  intros Hp Hk. assert (∀ l stack rest, Forall seg_ok l →
    clean_go false stack (l ++ rest) = clean_go false (reverse l ++ stack) rest) as Hpush.
  { intros l. induction l as [|s l IH]; intros stack rest Hl; [done|]. inversion Hl as [|? ? (H1 & H2 & H3 & _) Hl']; subst.
    rewrite <- app_comm_cons. cbn [clean_go]. rewrite (proj2 (String.eqb_neq _ _) H1), (proj2 (String.eqb_neq _ _) H2),
      (proj2 (String.eqb_neq _ _) H3). simpl orb. cbv iota. by rewrite IH, reverse_cons, <- (assoc_L (++)). }
  assert (∀ stack rest, Forall seg_ok stack → clean_go false stack (replicate (length stack) ".." ++ rest) = clean_go false [] rest) as Hpop.
  { intros stack. induction stack as [|s l IH]; intros rest Hl; [done|]. inversion Hl as [|? ? (_ & _ & H3 & _) Hl']; subst.
    cbn [length replicate]. rewrite <- app_comm_cons. cbn [clean_go String.eqb]. 
    change (String.eqb ".." "" || String.eqb ".." ".") with false. change (String.eqb ".." "..") with true. cbv iota.
    rewrite (proj2 (String.eqb_neq _ _) H3). by apply IH. }
  rewrite Hpush, app_nil_r by done. rewrite <- (length_reverse (segments p)), Hpop by by apply Forall_reverse.
  destruct (path_ok_segments _ Hk) as [Hd Hf]. rewrite clean_go_plain by done. by rewrite Hf.
Qed.
(** [n] directories up, and then to [k]. *)
Definition upwards (n : nat) (k : string) : string := Join (replicate n "..") "/" +:+ "/" +:+ k.
Abbreviation dot := (Ascii.Ascii false true true true false true false false).
Lemma upwards_dot n k : ∃ t, upwards (S n) k = String dot t.
Proof. unfold upwards. destruct n as [|n]; [by eexists|]. cbn [replicate]. rewrite Join_cons by done. by eexists. Qed.
Lemma Trim_upwards n k : path_ok k → Trim (TrimSpace (upwards (S n) k)) "/" = upwards (S n) k.
Proof.
  intros Hk. destruct (path_ok_ends _ Hk) as ([_ Ht] & _ & Hs). pose proof (path_ok_nonempty _ Hk) as Hne.
  destruct (upwards_dot n k) as [t E]. unfold TrimSpace. rewrite trim_id.
  - apply trim_id. split; apply first_strip_slash; [by rewrite E|]. unfold upwards. rewrite HasSuffix_rev in Hs.
    rewrite !rev_app, <- (assoc_L String.append), HasPrefix_slash_app by by apply rev_not_empty. done.
  - split.
    + rewrite E. apply first_strip_avoid_left; [apply unicode_spaces_ok|]. by apply (bool_decide_unpack _); vm_compute.
    + unfold upwards. by apply first_strip_avoid_right; [apply spaces_avoid_slash|..].
Qed.
Lemma segments_upwards n k : segments (upwards (S n) k) = replicate (S n) ".." ++ segments k.
Proof. unfold upwards. by rewrite segments_app, dots_segments. Qed.
Lemma trim_prefix_upwards n k prefix : path_ok k → path_ok prefix → trimLeadingStoragePrefix (upwards (S n) k) prefix = upwards (S n) k.
Proof.
  intros Hk Hp. unfold trimLeadingStoragePrefix. rewrite Trim_upwards, path_ok_trim by done. cbv zeta.
  destruct (path_ok_segments _ Hp) as [Hd _]. destruct (_ || _); [done|].
  assert (∀ rest, segments (upwards (S n) k) ≠ segments prefix ++ rest) as Hno.
  { intros rest E. rewrite segments_upwards in E. pose proof (Split_nonempty slash prefix) as Hne.
    destruct (segments prefix) as [|h l]; [done|]. injection E as <- _. apply Hd. left. }
  destruct (String.eqb_spec (upwards (S n) k) prefix) as [E|_].
  { destruct (Hno []). by rewrite E, app_nil_r. }
  unfold TrimPrefix. destruct (strip_prefix _ _) as [r|] eqn:E; [|done]. apply strip_prefix_Some in E.
  destruct (Hno (segments r)). by rewrite E, <- (assoc_L String.append), segments_app.
Qed.
Lemma normalized_upwards scopes k :
  Forall scope_ok scopes → composed_prefix scopes ≠ "" → path_ok k →
  normalizeScopedStorageKey (upwards (length (segments (composed_prefix scopes))) k) scopes = k.
Proof.
  intros Hs Hne Hk. pose proof (prefixes_ok _ Hs) as Hp.
  destruct (composed_ok _ Hs) as [?|Hok]; [done|]. pose proof (Clean_dots _ _ Hok Hk) as Hclean.
  destruct (segments (composed_prefix scopes)) as [|h l] eqn:Es; [by apply Split_nonempty in Es|].
  unfold normalizeScopedStorageKey. cbn [length]. rewrite Trim_upwards by done. cbv zeta. fold (composed_prefix scopes).
  rewrite (proj2 (is_empty_false _) Hne).
  assert (foldl trimLeadingStoragePrefix (upwards (S (length l)) k) (normalizedScopePrefixes scopes) = upwards (S (length l)) k) as ->.
  { clear -Hp Hk. induction Hp as [|p ps Hp Hps IH]; [done|]. cbn [foldl]. by rewrite trim_prefix_upwards. }
  destruct (upwards_dot (length l) k) as [t Et]. rewrite (proj2 (is_empty_false (upwards _ _))) by by rewrite Et.
  unfold path_Join. rewrite !filter_cons_True, filter_nil by (done || by rewrite Et). unfold path_Clean.
  change (Join [composed_prefix scopes; upwards (S (length l)) k] "/") with (composed_prefix scopes +:+ "/" +:+ upwards (S (length l)) k).
  rewrite (proj2 (is_empty_false _)) by (intros [? _]%string_app_eq_nil; done).
  rewrite HasPrefix_slash_app by done. destruct (path_ok_ends _ Hok) as (_ & -> & _). cbv zeta iota.
  rewrite segments_app, Es, segments_upwards. cbn [length] in Hclean. rewrite Hclean, Join_segments.
  by rewrite (proj2 (is_empty_false _) (path_ok_nonempty _ Hk)).
Qed.

(** ** The resolution of an upload *)
Section resolution.
Context {S Event : Type} `{!TransferPorts S Event} `{MapOrder} `{Digests}.

Lemma scopes_bucket_app l scope :
  scopes_bucket (l ++ [scope]) = if is_empty (TrimSpace (s_Bucket scope)) then scopes_bucket l else TrimSpace (s_Bucket scope).
Proof. unfold scopes_bucket. by rewrite foldl_app. Qed.
Lemma scopes_bucket_elem scopes :
  scopes_bucket scopes ≠ "" → ∃ scope, scope ∈ scopes ∧ scopes_bucket scopes = TrimSpace (s_Bucket scope).
Proof.
  induction scopes as [|scope l IH] using rev_ind; [done|]. rewrite scopes_bucket_app.
  destruct (is_empty _).
  - intros (sc & Hin & E)%IH. exists sc. split; [|done]. apply elem_of_app. by left.
  - intros _. exists scope. split; [|done]. apply elem_of_app. right. by left.
Qed.
Lemma target_below scopes key :
  Forall scope_ok scopes → Contains key ".." = false →
  below (composed_prefix scopes) (Trim (TrimSpace (normalizeScopedStorageKey key scopes)) "/").
Proof.
  intros Hs Hc. destruct (composed_ok _ Hs) as [E|Hok]; [by left|]. by apply below_trim, normalized_below.
Qed.
(** A scope that some lookup of the organization found. *)
Definition looked_up (lookup : string → string → service S (Scope * bool)) (organization project : string) (scope : Scope) : Prop :=
  ∃ s1 s2, lookup organization project s1 = (s2, Ok (scope, true)).
Lemma lookup_scope_Ok lookup organization project s s' scopes :
  lookup_scope lookup organization project s = (s', Ok scopes) → ∀ scope, scope ∈ scopes → looked_up lookup organization project scope.
Proof.
  unfold lookup_scope, mbind, service_bind. destruct (lookup organization project s) as [s1 [[sc found]|e]] eqn:E; [|done].
  intros [= <- <-] scope Hin. destruct found; [|by apply elem_of_nil in Hin]. apply list_elem_of_singleton in Hin as ->. by exists s, s1.
Qed.
Lemma bind_service_Ok {A B} (m : service S A) (f : A → service S B) s s' b :
  (m ≫= f) s = (s', Ok b) → ∃ s1 a, m s = (s1, Ok a) ∧ f a s1 = (s', Ok b).
Proof. unfold mbind, service_bind. destruct (m s) as [s1 [a|e]]; [|done]. intros E. by exists s1, a. Qed.


(** ** From an upload to the downloads of the object *)
(** A name of an organization or a project that paths and URLs carry as it is. *)
Definition scope_name (s : string) : Prop := plain_name s ∧ seg_ok s.
#[export] Instance scope_name_dec s : Decision (scope_name s).
Proof. unfold scope_name. apply _. Defined.
Lemma scope_name_path s : scope_name s → path_ok s ∧ segments s = [s].
Proof.
  intros [(_ & _ & _ & Hs) Hok]. assert (segments s = [s]) as E by by apply Split_single.
  split; [|done]. unfold path_ok. rewrite E. by constructor.
Qed.
(** The segments that [parseResourceScope] reads in an absolute path. *)
Lemma parse_absolute path :
  path_ok path → plain path = true →
  let r := "/" +:+ path in
  TrimSpace r = r ∧ url_Parse r = Some (mkURL "" "" r) ∧ Trim r "/" = path.
Proof.
  intros Hp Hpl r. pose proof (path_ok_nonempty _ Hp) as Hne. destruct (path_ok_ends _ Hp) as (Ht & Hh & _).
  assert (TrimSpace path = path) as Hts by by apply trim_id. split_and!.
  - by apply (TrimSpace_slash path).
  - destruct path as [|a path]; [done|]. apply url_Parse_plain_path; [done|]. intros ->. by rewrite HasPrefix_slash in Hh.
  - apply (Trim_slash path). pose proof (path_ok_trim _ Hp) as E. by rewrite Hts in E.
Qed.
Lemma parse_resource o p r :
  scope_name o → p = "" ∨ scope_name p → ResourcePath o p = Ok r → parseResourceScope r = Some (o, p).
Proof.
  intros Ho Hp Hr. pose proof (scope_name_path _ Ho) as [Hop Hos].
  destruct Ho as [(Hot & Hone & Hopl & _) _]. pose proof (proj2 (is_empty_false _) Hone) as Eo.
  unfold ResourcePath in Hr. cbv zeta in Hr. rewrite Hot, Eo in Hr. simpl andb in Hr. cbv iota in Hr.
  assert (path_ok "organization" ∧ path_ok "project") as [Horg Hproj] by (split; by apply (bool_decide_unpack _); vm_compute).
  destruct Hp as [->|Hp].
  - injection Hr as <-. destruct (parse_absolute ("organization" +:+ "/" +:+ o)) as (E1 & E2 & E3).
    + by apply path_ok_app.
    + by rewrite !plain_app.
    + unfold parseResourceScope. change ("/organization/" +:+ o) with ("/" +:+ "organization" +:+ "/" +:+ o).
      rewrite E1, E2. cbn [url_Path]. change (is_empty ("/" +:+ "organization" +:+ "/" +:+ o)) with false. cbv iota zeta.
      rewrite E3, segments_app, Hos. change (segments "organization") with ["organization"]. cbn [app].
      change (bool_decide _) with true. cbv iota. by rewrite Hot, Eo.
  - pose proof (scope_name_path _ Hp) as [Hpp Hps]. destruct Hp as [(Hpt & Hpne & Hppl & _) _].
    rewrite Hpt, (proj2 (is_empty_false _) Hpne) in Hr. injection Hr as <-.
    destruct (parse_absolute ("organization" +:+ "/" +:+ o +:+ "/" +:+ "project" +:+ "/" +:+ p)) as (E1 & E2 & E3).
    + by rewrite !path_ok_app.
    + by rewrite !plain_app, Hopl, Hppl.
    + unfold parseResourceScope.
      change ("/organization/" +:+ o +:+ "/project/" +:+ p) with ("/" +:+ "organization" +:+ "/" +:+ o +:+ "/" +:+ "project" +:+ "/" +:+ p).
      rewrite E1, E2. cbn [url_Path].
      change (is_empty ("/" +:+ "organization" +:+ "/" +:+ o +:+ "/" +:+ "project" +:+ "/" +:+ p)) with false. cbv iota zeta.
      rewrite E3, !segments_app, Hos, Hps. change (segments "organization") with ["organization"]. change (segments "project") with ["project"].
      cbn [app]. change (bool_decide _) with true. cbv iota. by rewrite Hot, Eo, Hpt.
Qed.

(** Lookups that answer [L] in every state; the state may change, as that of a cache does. *)
Context (lookup : string → string → service S (Scope * bool)) (L : string → string → Scope * bool).
Context (Hport : port_LookupBucketScope = Some lookup) (Hstable : ∀ o p s, ∃ s', lookup o p s = (s', Ok (L o p))).
Definition found (answer : Scope * bool) : list Scope := if answer.2 then [answer.1] else [].
(** The scopes of a project: that of its organization and its own. *)
Definition scopes_of (o p : string) : list Scope := found (L o "") ++ (if is_empty p then [] else found (L o p)).

Lemma lookup_scope_stable o p s : ∃ s', lookup_scope lookup o p s = (s', Ok (found (L o p))).
Proof using Hstable.
  unfold lookup_scope, mbind, service_bind. destruct (Hstable o p s) as [s' ->]. exists s'. unfold found. by destruct (L o p).
Qed.
Lemma bucketScopes_single obj r o p s :
  scope_name o → p = "" ∨ scope_name p → ResourcePath o p = Ok r → AccessResources obj = [r] →
  ∃ s', bucketScopesForObject obj s = (s', Ok (scopes_of o p)).
Proof using Hport Hstable.
  intros Ho Hp Hr Hobj. unfold bucketScopesForObject. rewrite Hport, Hobj. cbv zeta. cbn [omap list_omap].
  rewrite (parse_resource o p r) by done. cbn [omap list_omap fmap list_fmap fst dedup dedup_on].
  change (sort_Strings (dedup [o])) with [o]. cbn [mapM mbind]. unfold mbind, service_bind.
  destruct (lookup_scope_stable o "" s) as [s1 ->].
  assert ((filter (λ q : string * string, q.1 = o) [(o, p)]).*2 = [p]) as ->.
  { rewrite filter_all_True; [done|]. intros q Hq. by apply list_elem_of_singleton in Hq as ->. }
  change (sort_Strings [p]) with [p]. unfold scopes_of.
  destruct Hp as [->|Hp].
  - rewrite filter_cons_False, filter_nil by (intros Hn; by apply Hn). cbn [mapM]. exists s1. cbn. by rewrite !app_nil_r.
  - assert (p ≠ "") as Hne by by destruct Hp as [(_ & ? & _) _]. rewrite filter_cons_True, filter_nil by done. cbn [mapM].
    unfold mbind, service_bind. destruct (lookup_scope_stable o p s1) as [s2 ->].
    exists s2. cbn. by rewrite (proj2 (is_empty_false _) Hne), !app_nil_r.
Qed.
(** What an upload resolves to under stable lookups. *)
Lemma upload_resolved o p key s s' t :
  scope_name o → p = "" ∨ scope_name p → ResolveScopedUploadTarget o p key s = (s', Ok t) →
  scopes_of o p ≠ [] ∧ scopes_bucket (scopes_of o p) ≠ "" ∧
  t = newCanonicalStorageTarget (scopes_bucket (scopes_of o p)) (normalizeScopedStorageKey (Trim (TrimSpace key) "/") (scopes_of o p)).
Proof using Hport Hstable.
  intros Ho Hp. unfold ResolveScopedUploadTarget. cbv zeta. destruct Ho as [(Hot & Hone & _) _].
  assert (TrimSpace p = p) as Hpt by by destruct Hp as [->|[(? & _) _]].
  rewrite Hot, Hpt, (proj2 (is_empty_false _) Hone), Hport. intros (s1 & scopes & Hlook & Hrest)%bind_service_Ok.
  assert (scopes = scopes_of o p) as ->.
  { unfold mbind, service_bind in Hlook. destruct (lookup_scope_stable o "" s) as [s2 E2]. rewrite E2 in Hlook. unfold scopes_of.
    destruct (is_empty p); [by injection Hlook as <- <-|]. destruct (lookup_scope_stable o p s2) as [s3 E3]. rewrite E3 in Hlook.
    by injection Hlook as <- <-. }
  destruct (bool_decide (scopes_of o p = [])) eqn:Ene; [done|]. apply bool_decide_eq_false in Ene.
  destruct (is_empty (scopes_bucket _)) eqn:Eb; [done|]. apply is_empty_false in Eb.
  destruct (is_empty (normalizeScopedStorageKey _ _)); [done|]. by injection Hrest as <- <-.
Qed.
Lemma map_legacy_none bucket key scopes mapped :
  (∀ scope, scope ∈ scopes → scope_prefix scope ≠ bucket) → foldl (map_legacy bucket key) mapped scopes = mapped.
Proof.
  intros Hno. induction scopes as [|scope l IH]; [done|]. cbn [foldl]. unfold map_legacy at 2. fold (scope_prefix scope). cbv zeta.
  assert (String.eqb bucket (scope_prefix scope) = false) as ->.
  { apply String.eqb_neq. intros E. by apply (Hno scope); [left|]. }
  rewrite orb_true_r. apply IH. intros sc Hsc. apply Hno. by right.
Qed.
(** A location in the bucket of the scopes and below their prefixes is resolved to itself. *)
Lemma resolve_location obj r o p b k s :
  scope_name o → p = "" ∨ scope_name p → ResourcePath o p = Ok r → AccessResources obj = [r] →
  scopes_of o p ≠ [] → Forall scope_ok (scopes_of o p) → scopes_bucket (scopes_of o p) = b → name b →
  path_ok k → plain_key k → below (composed_prefix (scopes_of o p)) k →
  ∃ s', ResolveCanonicalStorageTarget (mkTargetRequest (Some obj) (BucketToURL b k) "" "" false) s =
    (s', Ok (mkTarget b k (BucketToURL b k))).
Proof using Hport Hstable.
  intros Ho Hp Hr Hobj Hne Hs Hb Hname Hk Hpk Hbelow. unfold ResolveCanonicalStorageTarget. cbn [tr_Object tr_AccessURL tr_Key tr_PreferChecksum].
  destruct (bucketScopes_single obj r o p s Ho Hp Hr Hobj) as [s1 E]. unfold mbind, service_bind. rewrite E.
  assert (TrimSpace (BucketToURL b k) = BucketToURL b k ∧ TrimSpace b = b) as [-> Htb].
  { split; [|by apply TrimSpace_name]. rewrite BucketToURL_name by done. destruct Hpk as (Htk & _).
    apply TrimSpace_location; [unfold schemes; set_solver|done|by apply TrimSpace_slash|right; apply HasPrefix_app]. }
  cbv zeta. rewrite (proj2 (is_empty_false (BucketToURL b k))) by by rewrite BucketToURL_name.
  unfold parseS3Location. rewrite ParseS3URL_BucketToURL by done. change (default ("", "") (Some (b, k))) with (b, k). cbv beta iota.
  rewrite (bool_decide_eq_false_2 _ Hne). cbn [negb]. rewrite Hb, (proj2 (is_empty_false b)) by apply Hname.
  assert (canonicalObjectKey obj "" k false = k) as ->.
  { unfold canonicalObjectKey. cbv zeta. rewrite (path_ok_trim k) by done. change (Trim (TrimSpace "") "/") with "".
    rewrite filter_cons_False by (intros Hn; by apply Hn). rewrite filter_cons_True by (by apply path_ok_nonempty). done. }
  assert ((if bool_decide (is_Some (Some (b, k))) && EqualFold (TrimSpace b) b &&
              bool_decide (normalizedScopePrefixes (scopes_of o p) = []) && negb (is_empty (TrimSpace k)) then k else k) = k) as -> by by case_match.
  rewrite normalized_fixed by done. destruct Hpk as (Htk & Hkne & _). rewrite Htk, (proj2 (is_empty_false k) Hkne).
  exists s1. unfold newCanonicalStorageTarget. cbv zeta. by rewrite path_ok_trim, Htb by done.
Qed.


(** Every key of the bucket can be reached by an upload to a scope: going up as often as the prefix has segments
    leaves it. *)
Theorem dotted_key_leaves_prefix o p k s :
  scope_name o → p = "" ∨ scope_name p → Forall scope_ok (scopes_of o p) →
  composed_prefix (scopes_of o p) ≠ "" → scopes_bucket (scopes_of o p) ≠ "" → path_ok k →
  ∃ s', ResolveScopedUploadTarget o p (upwards (length (segments (composed_prefix (scopes_of o p)))) k) s =
    (s', Ok (newCanonicalStorageTarget (scopes_bucket (scopes_of o p)) k)).
Proof using Hport Hstable.
  intros Ho Hp Hs Hc Hb Hk. unfold ResolveScopedUploadTarget. cbv zeta. destruct Ho as [(Hot & Hone & _) _].
  assert (TrimSpace p = p) as Hpt by by destruct Hp as [->|[(? & _) _]].
  rewrite Hot, Hpt, (proj2 (is_empty_false _) Hone), Hport.
  assert (Trim (TrimSpace (upwards (length (segments (composed_prefix (scopes_of o p)))) k)) "/" =
    upwards (length (segments (composed_prefix (scopes_of o p)))) k) as ->.
  { destruct (segments (composed_prefix _)) eqn:E; [by apply Split_nonempty in E|]. by apply Trim_upwards. }
  assert (scopes_of o p ≠ []) as Hne by by intros E; rewrite E in Hb.
  unfold mbind, service_bind. destruct (lookup_scope_stable o "" s) as [s1 ->].
  assert (∃ s2, (if is_empty p then mret [] else lookup_scope lookup o p) s1 =
    (s2, Ok (if is_empty p then [] else found (L o p)))) as [s2 E2]
    by (destruct (is_empty p); [by exists s1|apply lookup_scope_stable]).
  rewrite E2. cbn [mret service_ret]. unfold mret, service_ret. fold (scopes_of o p).
  rewrite (bool_decide_eq_false_2 _ Hne), (proj2 (is_empty_false _) Hb), normalized_upwards by done.
  rewrite (proj2 (is_empty_false _) (path_ok_nonempty _ Hk)). by exists s2.
Qed.
End resolution.

(** ** An execution: a scope of an organization and one of its projects *)
Section sample.
#[local] Existing Instance canonical_order.
#[local] Instance target_sample_digests : Digests := {| sha256_hex := λ s, s; uuid_NewSHA1 := λ s, s |}.
Definition sample_lookup (o p : string) : Scope * bool :=
  if String.eqb o "org" then
    if String.eqb p "" then (mkScope "org" "" "cred" "data" "lab", true)
    else if String.eqb p "p" then (mkScope "org" "p" "cred" "data" "lab/p", true) else (noScope, false)
  else (noScope, false).
Definition sample_lookups (o p : string) : service (list StorageAccessRequest) (Scope * bool) := λ log, (log, Ok (sample_lookup o p)).
(** A provider that records what it is asked to sign. *)
#[local] Instance sample_transfer_ports : TransferPorts (list StorageAccessRequest) unit := {
  port_Access := Some (λ request log, (log ++ [request], Ok (at_Location (sar_Target request) +:+ "?signed")));
  port_BeginMultipart := None;
  port_AccessMultipartPart _ := fail (EText "");
  port_CompleteMultipart _ := fail (EText "");
  port_LookupBucketScope := Some sample_lookups;
  port_CredentialReader := None;
  port_RecordEvents := None }.
Lemma sample_stable o p (s : list StorageAccessRequest) : ∃ s', sample_lookups o p s = (s', Ok (sample_lookup o p)).
Proof. by exists s. Qed.
Definition sample_object : ObjectRecord := set_ControlledAccess (set_Id zero_record "o1") (Some ["/organization/org/project/p"]).
Definition sample_target : CanonicalStorageTarget := mkTarget "data" "lab/p/run 1/x.bam" "s3://data/lab/p/run 1/x.bam".
Lemma sample_upload : ResolveScopedUploadTarget "org" " p" "/run 1/x.bam" [] = ([], Ok sample_target).
Proof. vm_compute. reflexivity. Qed.

Lemma dotted_key_leaves_prefix_witness :
  ∃ log, ResolveScopedUploadTarget "org" "p" "../../other/secret" [] = (log, Ok (mkTarget "data" "other/secret" "s3://data/other/secret")).
Proof.
  exact (@dotted_key_leaves_prefix _ _ sample_transfer_ports sample_lookups sample_lookup eq_refl sample_stable "org" "p" "other/secret" []
    ltac:(by apply (bool_decide_unpack _); vm_compute) ltac:(right; by apply (bool_decide_unpack _); vm_compute)
    ltac:(by apply (bool_decide_unpack _); vm_compute) ltac:(by vm_compute) ltac:(by vm_compute)
    ltac:(by apply (bool_decide_unpack _); vm_compute)).
Defined.

(** The names of a normalized resource are read as a URL path once more. *)
Example escaped_organization :
  NormalizeAccessResource "/organization/a%2562" = "/organization/a%62" ∧ parseResourceScope "/organization/a%62" = Some ("ab", "").
Proof. vm_compute. done. Qed.
(** A prefix that path.Join would clean is not recognised in a key that has it: it is put in front twice. *)
Example unclean_prefix_repeats :
  let scopes := [mkScope "org" "" "cred" "data" "a//b"] in
  normalizeScopedStorageKey "k" scopes = "a/b/k" ∧ normalizeScopedStorageKey "a/b/k" scopes = "a/b/a/b/k".
Proof. vm_compute. done. Qed.
End sample.
