(* ===== verification/Multipart.v ===== *)
(** * Multipart uploads on the server: internal/transfers (multipart.go, multipart_workflow.go)
    A multipart upload belongs to a provider; the server keeps the bucket and the key of each upload id in a
    session, signs its parts, and completes it at most once.  Requests run at the same time: the sessions are a
    machine whose events are the steps of requests, in any order, with any answers of the provider. *)
From S2P Require Import Prelude GoStrings Errors Objects Buckets Targets.

(** ** multipart.go: the calls to the provider *)
Section calls.
Context {S Event : Type} `{!TransferPorts S Event}.
Definition multipart_not_configured : error := EText "storage multipart is not configured".
(** The multipart port is there when its first operation is. *)
Definition with_multipart {A} (m : service S A) : service S A :=
  match port_BeginMultipart with None => fail multipart_not_configured | Some _ => m end.
Definition InitMultipartUpload (bucket key : string) : service S string :=
  match port_BeginMultipart with
  | None => fail multipart_not_configured
  | Some begin => begin (mkObjectTarget bucket key)
  end.
Definition SignMultipartPart (bucket key uploadID : string) (partNumber : Z) : service S string :=
  with_multipart (port_AccessMultipartPart (mkMultipartPartRequest (mkObjectTarget bucket key) uploadID partNumber)).
Definition CompleteMultipartUpload (bucket key uploadID : string) (parts : list CompletedPart) : service S unit :=
  with_multipart (port_CompleteMultipart (mkCompleteMultipartRequest (mkObjectTarget bucket key) uploadID parts)).
End calls.

(** ** multipart_workflow.go: the sessions *)
(** [ms_free]: the token is in the channel [complete]. *)
Record multipartSession := mkSession_ { ms_target : ObjectTarget; ms_free : bool; ms_completed : bool }.
Definition newMultipartSession (bucket key : string) : multipartSession := mkSession_ (mkObjectTarget bucket key) true false.
(** The map of the lifecycle holds pointers into a table of sessions. *)
Record MultipartLifecycle := mkLifecycle { lc_sessions : gmap string nat; lc_table : list multipartSession }.
Definition NewMultipartLifecycle : MultipartLifecycle := mkLifecycle ∅ [].
Definition upload_not_found : error := EWrap "%w: %s" (EDef ErrMultipartUploadNotFound).
Definition session (l : MultipartLifecycle) (uploadID : string) : result error (nat * multipartSession) :=
  match lc_sessions l !! uploadID with
  | Some i => match lc_table l !! i with Some s => Ok (i, s) | None => panic "session" end
  | None => Err upload_not_found
  end.
Definition session_target (l : MultipartLifecycle) (uploadID : string) : result error ObjectTarget :=
  '(_, s) ← session l uploadID; Ok (ms_target s).
Definition set_session (i : nat) (s : multipartSession) (l : MultipartLifecycle) : MultipartLifecycle :=
  mkLifecycle (lc_sessions l) (<[i := s]> (lc_table l)).
Definition hold (s : multipartSession) : multipartSession := mkSession_ (ms_target s) false (ms_completed s).
Definition release (s : multipartSession) : multipartSession := mkSession_ (ms_target s) true (ms_completed s).
Definition mark_completed (s : multipartSession) : multipartSession := mkSession_ (ms_target s) (ms_free s) true.
(** [sessions.Store] of a new session. *)
Definition store_session (uploadID bucket key : string) (l : MultipartLifecycle) : MultipartLifecycle :=
  mkLifecycle (<[uploadID := length (lc_table l)]> (lc_sessions l)) (lc_table l ++ [newMultipartSession bucket key]).
(** [sessions.CompareAndDelete]. *)
Definition compare_and_delete (uploadID : string) (i : nat) (l : MultipartLifecycle) : MultipartLifecycle :=
  if bool_decide (lc_sessions l !! uploadID = Some i) then mkLifecycle (delete uploadID (lc_sessions l)) (lc_table l) else l.

(** ** Requests *)
(** Where a call of [Complete] is: in [acquire], or in the call of the provider with the token in its hands. *)
Inductive completion_stage := Waiting | Calling.
#[export] Instance stage_eq_dec : EqDecision completion_stage.
Proof. solve_decision. Defined.
Record completing := mkCompleting { cg_upload : string; cg_session : nat; cg_parts : list CompletedPart; cg_stage : completion_stage }.
(** The state, the calls of [Complete] under way by number, and what the provider and the callers have seen: uploads
    begun, parts signed, completions with their outcome, answers. *)
Record multipart_world := mkWorld {
  w_lifecycle : MultipartLifecycle; w_pending : gmap nat completing;
  w_begun : list (string * ObjectTarget); w_signed : list MultipartPartRequest;
  w_calls : list (nat * CompleteMultipartRequest * bool); w_answers : list (nat * result error unit) }.
Definition new_world : multipart_world := mkWorld NewMultipartLifecycle ∅ [] [] [] [].

Inductive session_event :=
  | EvBegin (bucket key : string) (answer : result error string)     (* the upload id of the provider *)
  | EvSign (uploadID : string) (partNumber : Z)
  | EvComplete (n : nat) (uploadID : string) (parts : list CompletedPart)
  | EvAcquire (n : nat)
  | EvCancel (n : nat) (e : error)                                   (* the context of the request ends *)
  | EvAnswer (n : nat) (answer : result error unit).                 (* of the provider *)

Definition answer (n : nat) (r : result error unit) (w : multipart_world) : multipart_world :=
  mkWorld (w_lifecycle w) (delete n (w_pending w)) (w_begun w) (w_signed w) (w_calls w) (w_answers w ++ [(n, r)]).
Definition set_lifecycle (l : MultipartLifecycle) (w : multipart_world) : multipart_world :=
  mkWorld l (w_pending w) (w_begun w) (w_signed w) (w_calls w) (w_answers w).
Definition set_pending (n : nat) (c : completing) (w : multipart_world) : multipart_world :=
  mkWorld (w_lifecycle w) (<[n := c]> (w_pending w)) (w_begun w) (w_signed w) (w_calls w) (w_answers w).
Definition log_call (n : nat) (r : CompleteMultipartRequest) (ok : bool) (w : multipart_world) : multipart_world :=
  mkWorld (w_lifecycle w) (w_pending w) (w_begun w) (w_signed w) (w_calls w ++ [(n, r, ok)]) (w_answers w).

(** A step; [None] when the event is not possible.  The steps after an answer of the provider (mark the session,
    delete it from the map, release the token) are one: another request sees the session before or after them. *)
Definition session_step (ev : session_event) (w : multipart_world) : option multipart_world :=
  let l := w_lifecycle w in
  match ev with
  | EvBegin _ _ (Err _) => Some w
  | EvBegin bucket key (Ok uploadID) =>
      Some (mkWorld (store_session uploadID bucket key l) (w_pending w) (w_begun w ++ [(uploadID, mkObjectTarget bucket key)])
              (w_signed w) (w_calls w) (w_answers w))
  | EvSign uploadID partNumber =>
      match session_target l uploadID with
      | Ok t => Some (mkWorld l (w_pending w) (w_begun w) (w_signed w ++ [mkMultipartPartRequest t uploadID partNumber])
                        (w_calls w) (w_answers w))
      | Err _ => Some w
      end
  | EvComplete n uploadID parts =>
      if bool_decide (w_pending w !! n = None ∧ n ∉ (w_answers w).*1) then
        match session l uploadID with
        | Ok (i, _) => Some (set_pending n (mkCompleting uploadID i parts Waiting) w)
        | Err e => Some (answer n (Err e) w)
        end
      else None
  | EvAcquire n =>
      c ← w_pending w !! n;
      s ← lc_table l !! cg_session c;
      if bool_decide (cg_stage c = Waiting) && ms_free s then
        if ms_completed s then Some (answer n (Err upload_not_found) w)
        else Some (set_lifecycle (set_session (cg_session c) (hold s) l)
                     (set_pending n (mkCompleting (cg_upload c) (cg_session c) (cg_parts c) Calling) w))
      else None
  | EvCancel n e =>
      c ← w_pending w !! n;
      if bool_decide (cg_stage c = Waiting) then Some (answer n (Err e) w) else None
  | EvAnswer n r =>
      c ← w_pending w !! n;
      s ← lc_table l !! cg_session c;
      if bool_decide (cg_stage c = Calling) then
        let request := mkCompleteMultipartRequest (ms_target s) (cg_upload c) (cg_parts c) in
        let l := match r with
                 | Ok _ => compare_and_delete (cg_upload c) (cg_session c) (set_session (cg_session c) (release (mark_completed s)) l)
                 | Err _ => set_session (cg_session c) (release s) l
                 end in
        Some (answer n r (log_call n request (is_ok r) (set_lifecycle l w)))
      else None
  end.
Inductive sessions_reachable : multipart_world → Prop :=
  | reach_new : sessions_reachable new_world
  | reach_step w ev w' : sessions_reachable w → session_step ev w = Some w' → sessions_reachable w'.

(** ** The invariant *)
Section invariant.
Definition begun (w : multipart_world) (i : nat) (uploadID : string) (t : ObjectTarget) : Prop := w_begun w !! i = Some (uploadID, t).
Record sessions_ok (w : multipart_world) : Prop := {
  ok_length : length (lc_table (w_lifecycle w)) = length (w_begun w);
  ok_target i s : lc_table (w_lifecycle w) !! i = Some s → ∃ id, begun w i id (ms_target s);
  ok_map id i : lc_sessions (w_lifecycle w) !! id = Some i → ∃ t, begun w i id t;
  ok_pending n c : w_pending w !! n = Some c → ∃ t, begun w (cg_session c) (cg_upload c) t;
  ok_calling n c : w_pending w !! n = Some c → cg_stage c = Calling →
    ∃ s, lc_table (w_lifecycle w) !! cg_session c = Some s ∧ ms_free s = false ∧ ms_completed s = false;
  ok_unique n1 n2 c1 c2 : w_pending w !! n1 = Some c1 → w_pending w !! n2 = Some c2 →
    cg_stage c1 = Calling → cg_stage c2 = Calling → cg_session c1 = cg_session c2 → n1 = n2;
  ok_held i s : lc_table (w_lifecycle w) !! i = Some s → ms_free s = false →
    ∃ n c, w_pending w !! n = Some c ∧ cg_session c = i ∧ cg_stage c = Calling;
  ok_calls n r ok : (n, r, ok) ∈ w_calls w → ∃ i, begun w i (cmr_UploadID r) (cmr_Target r) ∧
    (ok = true → ∃ s, lc_table (w_lifecycle w) !! i = Some s ∧ ms_completed s = true);
  ok_signed r : r ∈ w_signed w → ∃ i, begun w i (mpr_UploadID r) (mpr_Target r);
  ok_once l1 n r l2 : w_calls w = l1 ++ (n, r, true) :: l2 → NoDup (w_begun w).*1 →
    ∀ n' r' ok', (n', r', ok') ∈ l2 → cmr_UploadID r' ≠ cmr_UploadID r;
  ok_answers n : (n, Ok tt) ∈ w_answers w → ∃ r, (n, r, true) ∈ w_calls w;
  ok_fresh n : n ∈ (w_answers w).*1 → w_pending w !! n = None }.

Lemma begun_app w i id t x : begun w i id t → (w_begun w ++ [x]) !! i = Some (id, t).
Proof. intros Hb. apply lookup_app_l_Some, Hb. Qed.
Lemma begun_unique w i j id t t' : NoDup (w_begun w).*1 → begun w i id t → begun w j id t' → i = j.
Proof.
  unfold begun. intros Hnd Hi Hj. eapply NoDup_lookup; [exact Hnd|by rewrite list_lookup_fmap, Hi|by rewrite list_lookup_fmap, Hj].
Qed.
Lemma sessions_ok_new : sessions_ok new_world.
Proof.
  split; simpl; try done; intros *; rewrite ?lookup_empty, ?elem_of_nil; try done.
  by destruct l1.
Qed.
(** Steps that leave the sessions and the calls of the provider alone. *)
Lemma sessions_ok_answer n e w :
  sessions_ok w → (∀ c, w_pending w !! n = Some c → cg_stage c = Waiting) → sessions_ok (answer n (Err e) w).
Proof.
  intros [] Hn. split; simpl; try done; unfold begun in *; simpl.
  - intros m c [_ Hc]%lookup_delete_Some. eauto.
  - intros m c [_ Hc]%lookup_delete_Some. eauto.
  - intros n1 n2 c1 c2 [_ H1]%lookup_delete_Some [_ H2]%lookup_delete_Some. eauto.
  - intros i s Hs Hf. destruct (ok_held0 i s Hs Hf) as (m & c & Hm & Hc & Hst). exists m, c. split_and!; [|done..].
    apply lookup_delete_Some. split; [|done]. intros ->. by rewrite (Hn c Hm) in Hst.
  - intros m. rewrite elem_of_app. intros [Hm|Hm%list_elem_of_singleton]; [by apply ok_answers0|done].
  - intros m. rewrite fmap_app, elem_of_app. intros [Hm|Hm%list_elem_of_singleton].
    + rewrite lookup_delete_None. right. by apply ok_fresh0.
    + rewrite Hm. simpl. apply lookup_delete_eq.
Qed.
Lemma sessions_ok_start n id i parts w t :
  sessions_ok w → w_pending w !! n = None → n ∉ (w_answers w).*1 → begun w i id t →
  sessions_ok (set_pending n (mkCompleting id i parts Waiting) w).
Proof.
  intros [] Hn Hna Hb. split; simpl; try done; unfold begun in *; simpl.
  - intros m c [[<- <-]|[_ Hc]]%lookup_insert_Some; [by exists t|eauto].
  - intros m c [[<- <-]|[_ Hc]]%lookup_insert_Some; [done|eauto].
  - intros n1 n2 c1 c2 [[<- <-]|[_ H1]]%lookup_insert_Some [[<- <-]|[_ H2]]%lookup_insert_Some; try done. eauto.
  - intros j s Hs Hf. destruct (ok_held0 j s Hs Hf) as (m & c & Hm & Hc & Hst). exists m, c. split_and!; [|done..].
    apply lookup_insert_Some. right. split; [|done]. intros ->. by rewrite Hn in Hm.
  - intros m Hm. rewrite lookup_insert_None. split; [by apply ok_fresh0|]. intros ->. done.
Qed.
Lemma sessions_ok_begin id bucket key w :
  sessions_ok w →
  sessions_ok (mkWorld (store_session id bucket key (w_lifecycle w)) (w_pending w) (w_begun w ++ [(id, mkObjectTarget bucket key)])
    (w_signed w) (w_calls w) (w_answers w)).
Proof.
  intros []. assert (∀ i id' t, begun w i id' t → (w_begun w ++ [(id, mkObjectTarget bucket key)]) !! i = Some (id', t)) as Hup
    by (intros; by apply lookup_app_l_Some).
  assert (∀ i s, lc_table (w_lifecycle w) !! i = Some s → (lc_table (w_lifecycle w) ++ [newMultipartSession bucket key]) !! i = Some s) as Ht
    by (intros; by apply lookup_app_l_Some).
  split; simpl; unfold begun in *; simpl.
  - by rewrite !length_app, ok_length0.
  - intros i s [Hs|[Hle Hs]]%lookup_app_Some; [destruct (ok_target0 i s Hs) as [id' ?]; eauto|].
    apply list_lookup_singleton_Some in Hs as [Hi <-]. exists id. cbn [ms_target newMultipartSession].
    rewrite lookup_app_r by lia. by replace (i - length (w_begun w)) with 0 by lia.
  - intros id' i [[<- <-]|[_ Hi]]%lookup_insert_Some; [|destruct (ok_map0 id' i Hi); eauto].
    rewrite ok_length0, lookup_app_r, Nat.sub_diag by lia. by eexists.
  - intros n c Hc. destruct (ok_pending0 n c Hc). eauto.
  - intros n c Hc Hst. destruct (ok_calling0 n c Hc Hst) as (s & ? & ? & ?). eauto.
  - done.
  - intros i s [Hs|[_ Hs]]%lookup_app_Some Hf; [eauto|]. by apply list_lookup_singleton_Some in Hs as [_ <-].
  - intros n r ok Hin. destruct (ok_calls0 n r ok Hin) as (i & Hi & Hok). exists i. split; [by apply Hup|].
    intros E. destruct (Hok E) as (s & Hs & ?). eauto.
  - intros r Hr. destruct (ok_signed0 r Hr). eauto.
  - intros l1 n r l2 E Hnd. eapply ok_once0; [done|]. rewrite fmap_app in Hnd. by apply NoDup_app in Hnd as [? _].
  - done.
  - done.
Qed.
Lemma sessions_ok_sign id t part w :
  sessions_ok w → session_target (w_lifecycle w) id = Ok t →
  sessions_ok (mkWorld (w_lifecycle w) (w_pending w) (w_begun w) (w_signed w ++ [mkMultipartPartRequest t id part]) (w_calls w) (w_answers w)).
Proof.
  intros [] Ht. split; simpl; try done. intros r [Hr|Hr%list_elem_of_singleton]%elem_of_app; [by apply ok_signed0|].
  subst r. simpl. unfold session_target, session in Ht.
  destruct (lc_sessions (w_lifecycle w) !! id) as [i|] eqn:Ei; [|done].
  destruct (lc_table (w_lifecycle w) !! i) as [s|] eqn:Es; [|done]. injection Ht as <-.
  destruct (ok_map0 id i Ei) as [t' Hb]. destruct (ok_target0 i s Es) as [id' Hb']. exists i.
  unfold begun in *. simpl in *. congruence.
Qed.
(** Steps that change one session and its call. *)
Lemma sessions_ok_acquire n c s w :
  sessions_ok w → w_pending w !! n = Some c → cg_stage c = Waiting → lc_table (w_lifecycle w) !! cg_session c = Some s →
  ms_free s = true → ms_completed s = false →
  sessions_ok (set_lifecycle (set_session (cg_session c) (hold s) (w_lifecycle w))
    (set_pending n (mkCompleting (cg_upload c) (cg_session c) (cg_parts c) Calling) w)).
Proof.
  intros [] Hn Hst Hs Hfree Hcomp.
  assert (∀ n' c', w_pending w !! n' = Some c' → cg_stage c' = Calling → cg_session c' ≠ cg_session c) as Hother.
  { intros n' c' Hc' Hst' E. destruct (ok_calling0 n' c' Hc' Hst') as (s' & Hs' & Hf' & _). rewrite E, Hs in Hs'.
    injection Hs' as ->. by rewrite Hfree in Hf'. }
  split; simpl; unfold begun in *; simpl; try done.
  - by rewrite length_insert.
  - intros i s' [(<- & <- & _)|[_ Hs']]%list_lookup_insert_Some; [exact (ok_target0 _ _ Hs)|eauto].
  - intros m c' [[<- <-]|[_ Hc']]%lookup_insert_Some; [exact (ok_pending0 _ _ Hn)|eauto].
  - intros m c' [[<- <-]|[_ Hc']]%lookup_insert_Some Hst'.
    + exists (hold s). split_and!; [|done..]. apply list_lookup_insert_eq. by apply lookup_lt_Some in Hs.
    + rewrite list_lookup_insert_ne by (intros E; by apply (Hother m c')). eauto.
  - intros n1 n2 c1 c2 [[<- <-]|[_ H1]]%lookup_insert_Some [[<- <-]|[_ H2]]%lookup_insert_Some; simpl; try done; intros S1 S2 E.
    + by destruct (Hother n2 c2).
    + by destruct (Hother n1 c1).
    + eauto.
  - intros i s' [(<- & <- & _)|[Hne Hs']]%list_lookup_insert_Some Hf.
    + exists n. eexists. rewrite lookup_insert_eq. split_and!; [done..|]. done.
    + destruct (ok_held0 i s' Hs' Hf) as (m & c' & Hm & Hc' & Hst'). exists m, c'. split_and!; [|done..].
      rewrite lookup_insert_ne; [done|]. intros ->. rewrite Hn in Hm. injection Hm as ->. by rewrite Hst in Hst'.
  - intros m r ok Hin. destruct (ok_calls0 m r ok Hin) as (i & Hi & Hok). exists i. split; [done|]. intros E.
    destruct (Hok E) as (s' & Hs' & Hc'). destruct (decide (i = cg_session c)) as [->|Hne].
    + rewrite Hs in Hs'. injection Hs' as ->. by rewrite Hcomp in Hc'.
    + exists s'. by rewrite list_lookup_insert_ne.
  - intros m Hm. rewrite lookup_insert_None. split; [by apply ok_fresh0|]. intros ->. by rewrite (ok_fresh0 _ Hm) in Hn.
Qed.
Lemma sessions_ok_answered n c s r w :
  sessions_ok w → w_pending w !! n = Some c → cg_stage c = Calling → lc_table (w_lifecycle w) !! cg_session c = Some s →
  let request := mkCompleteMultipartRequest (ms_target s) (cg_upload c) (cg_parts c) in
  ∀ l s', s' = release (if is_ok r then mark_completed s else s) → lc_table l = <[cg_session c := s']> (lc_table (w_lifecycle w)) →
  lc_sessions l ⊆ lc_sessions (w_lifecycle w) →
  sessions_ok (answer n r (log_call n request (is_ok r) (set_lifecycle l w))).
Proof.
  intros [] Hn Hst Hs request l s' Es Et Hsub.
  destruct (ok_calling0 n c Hn Hst) as (s0 & Hs0 & Hfree & Hcomp). rewrite Hs in Hs0. injection Hs0 as <-.
  destruct (ok_pending0 n c Hn) as [t Hb]. destruct (ok_target0 _ _ Hs) as [id Hb'].
  assert (t = ms_target s) as -> by (unfold begun in *; congruence).
  assert (ms_target s' = ms_target s ∧ ms_free s' = true ∧ (is_ok r = true → ms_completed s' = true)) as (Et' & Ef' & Ec')
    by (subst s'; destruct (is_ok r); simpl; split_and!; done).
  assert (∀ i v, lc_table l !! i = Some v → i = cg_session c ∧ v = s' ∨ i ≠ cg_session c ∧ lc_table (w_lifecycle w) !! i = Some v) as Hl.
  { intros i v. rewrite Et. intros [(<- & <- & _)|[Hne Hv]]%list_lookup_insert_Some; [by left|by right]. }
  assert (lc_table l !! cg_session c = Some s') as Hself by (rewrite Et; apply list_lookup_insert_eq; by apply lookup_lt_Some in Hs).
  assert (∀ i v, i ≠ cg_session c → lc_table (w_lifecycle w) !! i = Some v → lc_table l !! i = Some v) as Hkeep
    by (intros i v Hi Hv; rewrite Et, list_lookup_insert_ne by done; done).
  split; simpl; unfold begun in *; simpl.
  - by rewrite Et, length_insert.
  - intros i v [[-> ->]|[_ Hv]]%Hl; [rewrite Et'; by exists (cg_upload c)|eauto].
  - intros id' i Hi. eapply lookup_weaken in Hi; [|exact Hsub]. eauto.
  - intros m c' [_ Hc']%lookup_delete_Some. eauto.
  - intros m c' [Hne Hc']%lookup_delete_Some Hst'. destruct (ok_calling0 m c' Hc' Hst') as (v & Hv & ? & ?). exists v.
    split; [|done]. apply Hkeep; [|done]. intros E. apply Hne. by eapply ok_unique0.
  - intros n1 n2 c1 c2 [_ H1]%lookup_delete_Some [_ H2]%lookup_delete_Some. eauto.
  - intros i v [[-> ->]|[Hne Hv]]%Hl Hf; [by rewrite Ef' in Hf|].
    destruct (ok_held0 i v Hv Hf) as (m & c' & Hm & Hc' & Hst'). exists m, c'. split_and!; [|done..].
    apply lookup_delete_Some. split; [|done]. intros ->. rewrite Hn in Hm. by injection Hm as ->.
  - intros m q ok [Hin|[= -> -> ->]%list_elem_of_singleton]%elem_of_app.
    + destruct (ok_calls0 m q ok Hin) as (i & Hi & Hok). exists i. split; [done|]. intros E. destruct (Hok E) as (v & Hv & Hvc).
      destruct (decide (i = cg_session c)) as [->|Hne]; [|exists v; by split; [apply Hkeep|]].
      rewrite Hs in Hv. injection Hv as ->. by rewrite Hcomp in Hvc.
    + exists (cg_session c). split; [done|]. intros E. exists s'. by split; [|apply Ec'].
  - done.
  - intros l1 m q l2 E Hnd m' q' ok' Hin. destruct (decide (l2 = [])) as [->|Hne]; [by apply elem_of_nil in Hin|].
    destruct (exists_last Hne) as (l3 & x & ->). rewrite app_comm_cons, app_assoc in E. apply app_inj_tail in E as [E <-].
    apply elem_of_app in Hin as [Hin|[= -> -> ->]%list_elem_of_singleton]; [by eapply ok_once0|].
    destruct (ok_calls0 m q true) as (i & Hi & Hok); [rewrite E; apply elem_of_app; right; left|].
    destruct (Hok eq_refl) as (v & Hv & Hvc). simpl. intros Eid. rewrite Eid in Hb.
    assert (cg_session c = i) as <- by exact (begun_unique w _ _ _ _ _ Hnd Hb Hi).
    rewrite Hs in Hv. injection Hv as ->. by rewrite Hcomp in Hvc.
  - intros m. rewrite elem_of_app. intros [(q & Hq)%ok_answers0|[= -> E]%list_elem_of_singleton].
    + exists q. apply elem_of_app. by left.
    + exists request. apply elem_of_app. right. rewrite <- E. left.
  - intros m. rewrite fmap_app, elem_of_app. intros [Hm|Hm%list_elem_of_singleton].
    + rewrite lookup_delete_None. right. by apply ok_fresh0.
    + rewrite Hm. simpl. apply lookup_delete_eq.
Qed.
Lemma session_step_ok ev w w' : session_step ev w = Some w' → sessions_ok w → sessions_ok w'.
Proof.
  intros Hstep Hok. destruct ev as [bucket key [id|e]|id part|n id parts|n|n e|n r]; simpl in Hstep.
  - injection Hstep as <-. by apply sessions_ok_begin.
  - by injection Hstep as <-.
  - destruct (session_target _ _) eqn:E; injection Hstep as <-; [by apply sessions_ok_sign|done].
  - case_bool_decide as Hn; [|done]. destruct Hn as [Hn Hna]. unfold session in Hstep.
    destruct (lc_sessions (w_lifecycle w) !! id) as [i|] eqn:Ei.
    + destruct (ok_map _ Hok id i Ei) as [t Ht]. destruct (lc_table _ !! i); injection Hstep as <-.
      * by eapply sessions_ok_start.
      * apply sessions_ok_answer; [done|]. intros c. by rewrite Hn.
    + injection Hstep as <-. apply sessions_ok_answer; [done|]. intros c. by rewrite Hn.
  - destruct (w_pending w !! n) as [c|] eqn:En; [|done]. simpl in Hstep.
    destruct (lc_table _ !! _) as [s|] eqn:Es; [|done]. simpl in Hstep. case_bool_decide as Hst; [|done]. simpl in Hstep.
    destruct (ms_free s) eqn:Ef; [|done]. destruct (ms_completed s) eqn:Ec; injection Hstep as <-.
    + apply sessions_ok_answer; [done|]. intros c'. rewrite En. by intros [= <-].
    + by apply sessions_ok_acquire with (c := c).
  - destruct (w_pending w !! n) as [c|] eqn:En; [|done]. simpl in Hstep. case_bool_decide as Hst; [|done]. injection Hstep as <-.
    apply sessions_ok_answer; [done|]. intros c'. rewrite En. by intros [= <-].
  - destruct (w_pending w !! n) as [c|] eqn:En; [|done]. simpl in Hstep.
    destruct (lc_table _ !! _) as [s|] eqn:Es; [|done]. simpl in Hstep. case_bool_decide as Hst; [|done]. injection Hstep as <-.
    eapply sessions_ok_answered; [done..| | |]; [reflexivity|destruct r; simpl|destruct r; simpl].
    + unfold compare_and_delete. by case_bool_decide.
    + done.
    + unfold compare_and_delete. case_bool_decide; [apply delete_subseteq|done].
    + done.
Qed.
Lemma reachable_sessions_ok w : sessions_reachable w → sessions_ok w.
Proof. induction 1; [apply sessions_ok_new|by eapply session_step_ok]. Qed.
End invariant.

(** C6 When the provider hands out an upload id once, it is asked to complete the upload successfully at most once and
    never again afterwards, one call at a time, always for the bucket and the key with which the upload was begun;
    parts are signed for them too; and a caller is told of success only when its own call succeeded. *)
Theorem multipart_completed_once w :
  sessions_reachable w → NoDup (w_begun w).*1 →
  (∀ l1 n r l2, w_calls w = l1 ++ (n, r, true) :: l2 →
     (∀ n' r' ok', (n', r', ok') ∈ l2 → cmr_UploadID r' ≠ cmr_UploadID r) ∧
     (∀ n' c, w_pending w !! n' = Some c → cg_stage c = Calling → cg_upload c ≠ cmr_UploadID r)) ∧
  (∀ n1 n2 c1 c2, w_pending w !! n1 = Some c1 → w_pending w !! n2 = Some c2 → cg_stage c1 = Calling → cg_stage c2 = Calling →
     cg_upload c1 = cg_upload c2 → n1 = n2) ∧
  (∀ n r ok, (n, r, ok) ∈ w_calls w → (cmr_UploadID r, cmr_Target r) ∈ w_begun w) ∧
  (∀ r, r ∈ w_signed w → (mpr_UploadID r, mpr_Target r) ∈ w_begun w) ∧
  (∀ n, (n, Ok tt) ∈ w_answers w → ∃ r, (n, r, true) ∈ w_calls w).
Proof.
  intros Hok%reachable_sessions_ok Hnd. split_and!.
  - intros l1 n r l2 E. split; [by eapply ok_once|]. intros n' c Hc Hst Eid.
    destruct (ok_calls _ Hok n r true) as (i & Hi & Hcomp); [rewrite E; apply elem_of_app; right; left|].
    destruct (Hcomp eq_refl) as (s & Hs & Hsc). destruct (ok_pending _ Hok n' c Hc) as [t Ht].
    destruct (ok_calling _ Hok n' c Hc Hst) as (s' & Hs' & _ & Hsn). rewrite Eid in Ht.
    assert (cg_session c = i) as <- by exact (begun_unique w _ _ _ _ _ Hnd Ht Hi). congruence.
  - intros n1 n2 c1 c2 H1 H2 S1 S2 E. destruct (ok_pending _ Hok n1 c1 H1) as [t1 B1], (ok_pending _ Hok n2 c2 H2) as [t2 B2].
    rewrite E in B1. apply (ok_unique _ Hok n1 n2 c1 c2); try done. exact (begun_unique w _ _ _ _ _ Hnd B1 B2).
  - intros n r ok Hin. destruct (ok_calls _ Hok n r ok Hin) as (i & Hi & _). by eapply list_elem_of_lookup_2.
  - intros r Hin. destruct (ok_signed _ Hok r Hin) as (i & Hi). by eapply list_elem_of_lookup_2.
  - apply (ok_answers _ Hok).
Qed.

(** C32 No completion waits for ever: the session that it waits for is free, or in the hands of a call whose answer, any
    answer, frees it. *)
Theorem waiting_completion_proceeds w n c :
  sessions_reachable w → w_pending w !! n = Some c → cg_stage c = Waiting →
  is_Some (session_step (EvAcquire n) w) ∨
  ∃ m c', m ≠ n ∧ w_pending w !! m = Some c' ∧ cg_stage c' = Calling ∧
    ∀ r, ∃ w', session_step (EvAnswer m r) w = Some w' ∧ is_Some (session_step (EvAcquire n) w').
Proof.
  intros Hok%reachable_sessions_ok Hn Hst. destruct (ok_pending _ Hok n c Hn) as [t Hb].
  assert (is_Some (lc_table (w_lifecycle w) !! cg_session c)) as [s Hs].
  { apply lookup_lt_is_Some. rewrite (ok_length _ Hok). by apply lookup_lt_Some in Hb. }
  destruct (ms_free s) eqn:Ef.
  - left. cbn [session_step]. rewrite Hn. cbn [mbind option_bind]. rewrite Hs. cbn [mbind option_bind].
    rewrite (bool_decide_eq_true_2 _ Hst), Ef. simpl. by case_match.
  - right. destruct (ok_held _ Hok _ _ Hs Ef) as (m & c' & Hm & Ec & Hst'). assert (m ≠ n) as Hne.
    { intros ->. rewrite Hn in Hm. injection Hm as ->. by rewrite Hst in Hst'. }
    exists m, c'. split_and!; [done..|]. intros r. eexists. cbn [session_step]. rewrite Hm. cbn [mbind option_bind].
    rewrite Ec, Hs. cbn [mbind option_bind]. rewrite (bool_decide_eq_true_2 _ Hst'). split; [reflexivity|].
    cbn [w_pending answer log_call set_lifecycle w_lifecycle]. rewrite lookup_delete_ne by done. rewrite Hn. cbn [mbind option_bind].
    assert (∃ s', lc_table (match r with
       | Ok _ => compare_and_delete (cg_upload c') (cg_session c) (set_session (cg_session c) (release (mark_completed s)) (w_lifecycle w))
       | Err _ => set_session (cg_session c) (release s) (w_lifecycle w) end) !! cg_session c = Some s' ∧ ms_free s' = true) as (s' & Hs' & Hf').
    { destruct r; [unfold compare_and_delete; case_bool_decide|]; simpl; eexists; (split; [apply list_lookup_insert_eq; by apply lookup_lt_Some in Hs|done]). }
    rewrite Hs'. cbn [mbind option_bind]. rewrite (bool_decide_eq_true_2 _ Hst), Hf'. cbn [andb]. destruct (ms_completed s'); by eexists.
Qed.

(** ** An execution: two callers complete an upload at the same time *)
Fixpoint run_session (evs : list session_event) (w : multipart_world) : option multipart_world :=
  match evs with [] => Some w | ev :: evs => w ← session_step ev w; run_session evs w end.
Lemma run_sessions_reachable evs w w' : sessions_reachable w → run_session evs w = Some w' → sessions_reachable w'.
Proof.
  revert w. induction evs as [|ev evs IH]; intros w Hw; simpl; [by intros [= <-]|].
  destruct (session_step ev w) as [w1|] eqn:E; [|done]. simpl. apply IH. by eapply reach_step.
Qed.
Definition sample_parts : list CompletedPart := [mkCompletedPart 1 "etag"].
Definition sample_session_events : list session_event :=
  [ EvBegin "data" "k" (Ok "up-1"); EvBegin "data" "k2" (Ok "up-2"); EvSign "up-1" 1; EvComplete 1 "up-1" sample_parts; EvComplete 2 "up-1" sample_parts;
    EvAcquire 2; EvAnswer 2 (Err (EText "timeout")); EvAcquire 1; EvComplete 3 "up-1" sample_parts ].
Definition sample_world : multipart_world := default new_world (run_session sample_session_events new_world).
Lemma sample_world_reachable : sessions_reachable sample_world.
Proof.
  apply (run_sessions_reachable sample_session_events new_world); [apply reach_new|].
  unfold sample_world. destruct (run_session _ _) eqn:E; [done|]. vm_compute in E. discriminate.
Qed.
Lemma multipart_completed_once_witness :
  ∃ w, run_session [EvAnswer 1 (Ok tt); EvAcquire 3] sample_world = Some w ∧
    w_answers w = [(2, Err (EText "timeout")); (1, Ok tt); (3, Err upload_not_found)] ∧
    ∀ r, r ∈ w_signed w → (mpr_UploadID r, mpr_Target r) ∈ w_begun w.
Proof.
  destruct (run_session [EvAnswer 1 (Ok tt); EvAcquire 3] sample_world) as [w|] eqn:E; [|vm_compute in E; discriminate].
  exists w. split; [reflexivity|]. split; [vm_compute in E; injection E as <-; reflexivity|].
  destruct (multipart_completed_once w) as (_ & _ & _ & Hs & _); [|vm_compute in E; injection E as <-; by apply (bool_decide_unpack _); vm_compute|exact Hs].
  eapply run_sessions_reachable; [exact sample_world_reachable|exact E].
Defined.
Lemma waiting_completion_proceeds_witness :
  is_Some (session_step (EvAcquire 3) sample_world) ∨
  ∃ m c', m ≠ 3 ∧ w_pending sample_world !! m = Some c' ∧ cg_stage c' = Calling ∧
    ∀ r, ∃ w', session_step (EvAnswer m r) sample_world = Some w' ∧ is_Some (session_step (EvAcquire 3) w').
Proof.
  exact (waiting_completion_proceeds sample_world 3 (mkCompleting "up-1" 0 sample_parts Waiting) sample_world_reachable
    ltac:(vm_compute; reflexivity) eq_refl).
Defined.
