(* ===== verification/Attribution.v ===== *)
(** * Attribution of transfers: internal/usage (events.go, identity.go) and the SQLite tables behind it
    (internal/persistence/sqlite/transfer_events.go)
    Every access that the server issues is an event; events with the same object, scope and location make up a
    grant.  What the storage provider reports afterwards is matched with the grants.  Instants are nanoseconds
    since Go's zero time; the database compares them as it stores them, in order. *)
From S2P Require Import Prelude GoStrings GoURL Errors Objects Buckets.

(** ** identity.go *)
Definition TransferEventAccessIssued := "access_issued".
Definition ProviderTransferDirectionDownload := "download".
Definition ProviderTransferDirectionUpload := "upload".
Definition ProviderTransferMatched := "matched".
Definition ProviderTransferAmbiguous := "ambiguous".
Definition ProviderTransferUnmatched := "unmatched".

Record Event := mkEvent {
  ev_EventID : string; ev_AccessGrantID : string; ev_EventType : string; ev_Direction : string; ev_EventTime : Z;
  ev_RequestID : string; ev_ObjectID : string; ev_SHA256 : string; ev_ObjectSize : Z; ev_Organization : string;
  ev_Project : string; ev_AccessID : string; ev_Provider : string; ev_Bucket : string; ev_StorageURL : string;
  ev_RangeStart : option Z; ev_RangeEnd : option Z; ev_BytesRequested : Z; ev_BytesCompleted : Z;
  ev_ActorEmail : string; ev_ActorSubject : string; ev_AuthMode : string; ev_ClientName : string;
  ev_ClientVersion : string; ev_TransferSessionID : string }.
Record Grant := mkGrant {
  g_AccessGrantID : string; g_FirstIssuedAt : Z; g_LastIssuedAt : Z; g_IssueCount : Z; g_ObjectID : string;
  g_SHA256 : string; g_ObjectSize : Z; g_Organization : string; g_Project : string; g_AccessID : string;
  g_Provider : string; g_Bucket : string; g_StorageURL : string; g_ActorEmail : string; g_ActorSubject : string;
  g_AuthMode : string }.
Record ProviderEvent := mkProviderEvent {
  pe_ProviderEventID : string; pe_AccessGrantID : string; pe_Direction : string; pe_EventTime : Z; pe_RequestID : string;
  pe_ProviderRequestID : string; pe_ObjectID : string; pe_SHA256 : string; pe_ObjectSize : Z; pe_Organization : string;
  pe_Project : string; pe_AccessID : string; pe_Provider : string; pe_Bucket : string; pe_ObjectKey : string;
  pe_StorageURL : string; pe_RangeStart : option Z; pe_RangeEnd : option Z; pe_BytesTransferred : Z;
  pe_HTTPMethod : string; pe_HTTPStatus : Z; pe_RequesterPrincipal : string; pe_SourceIP : string; pe_UserAgent : string;
  pe_RawEventRef : string; pe_ActorEmail : string; pe_ActorSubject : string; pe_AuthMode : string;
  pe_ReconciliationStatus : string }.
#[export] Instance Event_eq_dec : EqDecision Event.
Proof. solve_decision. Defined.
#[export] Instance Grant_eq_dec : EqDecision Grant.
Proof. solve_decision. Defined.

(** The layout time.RFC3339Nano of an instant in UTC. *)
Definition pad (n : nat) (z : Z) : string :=
  let s := pretty z in Join (replicate (n - String.length s) "0") "" +:+ s.
Definition civil (days : Z) : Z * Z * Z :=   (* days since 0001-01-01 *)
  (let z := days + 306 in
   let era := z / 146097 in
   let doe := z - era * 146097 in
   let yoe := (doe - doe / 1460 + doe / 36524 - doe / 146096) / 365 in
   let doy := doe - (365 * yoe + yoe / 4 - yoe / 100) in
   let mp := (5 * doy + 2) / 153 in
   let d := doy - (153 * mp + 2) / 5 + 1 in
   let m := if mp <? 10 then mp + 3 else mp - 9 in
   (yoe + era * 400 + (if m <=? 2 then 1 else 0), m, d))%Z.
Definition RFC3339Nano (t : Z) : string :=
  let secs := (t / 10 ^ 9)%Z in
  let nanos := (t mod 10 ^ 9)%Z in
  let day := (secs mod 86400)%Z in
  let '(y, m, d) := civil (secs / 86400) in
  let fraction := if (nanos =? 0)%Z then "" else "." +:+ TrimRight (pad 9 nanos) "0" in
  pad 4 y +:+ "-" +:+ pad 2 m +:+ "-" +:+ pad 2 d +:+ "T" +:+ pad 2 (day / 3600) +:+ ":" +:+ pad 2 (day / 60 mod 60)
  +:+ ":" +:+ pad 2 (day mod 60) +:+ fraction +:+ "Z".
Example RFC3339Nano_ex : RFC3339Nano (63_844_761_600 * 10 ^ 9 + 120_000_000) = "2024-02-29T00:00:00.12Z".
Proof. vm_compute. reflexivity. Qed.

Section identity.
Context `{Digests}.
Definition rangeValue (value : option Z) : Z := default (-1)%Z value.
(** The fields that make up a grant. *)
Definition grant_parts (ev : Event) : list string :=
  [ev_ObjectID ev; ev_SHA256 ev; ev_Organization ev; ev_Project ev; ev_AccessID ev; ev_Provider ev; ev_Bucket ev; ev_StorageURL ev].
Definition GrantID (ev : Event) : string := sha256_hex (Join (grant_parts ev) nul).
Definition event_parts (ev : Event) : list string :=
  [ev_EventType ev; ev_Direction ev; ev_RequestID ev; ev_ObjectID ev; ev_SHA256 ev; ev_Organization ev; ev_Project ev;
   ev_AccessID ev; ev_Provider ev; ev_Bucket ev; ev_StorageURL ev; pretty (rangeValue (ev_RangeStart ev));
   pretty (rangeValue (ev_RangeEnd ev)); pretty (ev_BytesRequested ev); pretty (ev_BytesCompleted ev);
   ev_ActorEmail ev; ev_ActorSubject ev; ev_TransferSessionID ev]
  ++ (if is_empty (ev_RequestID ev) && is_empty (ev_TransferSessionID ev) then [RFC3339Nano (ev_EventTime ev)] else []).
Definition EventID (ev : Event) : string :=
  if is_empty (TrimSpace (ev_EventID ev)) then sha256_hex (Join (event_parts ev) nul) else ev_EventID ev.

(** ** The tables *)
Record AttributionDB := mkAttribution {
  transfer_attribution_event : list Event;          (* primary key event_id *)
  access_grant : gmap string Grant;                 (* primary key access_grant_id *)
  provider_transfer_event : list ProviderEvent }.   (* primary key provider_event_id *)
Definition empty_attribution : AttributionDB := mkAttribution [] ∅ [].

Definition normalizeTransferDirection (direction : string) : string :=
  if String.eqb (ToLower (TrimSpace direction)) ProviderTransferDirectionUpload
  then ProviderTransferDirectionUpload else ProviderTransferDirectionDownload.
(** COALESCE(NULLIF(old, ''), new) *)
Definition coalesce (old new : string) : string := if is_empty old then new else old.
(** The row a grant starts with. *)
Definition first_grant (ev : Event) : Grant :=
  mkGrant (ev_AccessGrantID ev) (ev_EventTime ev) (ev_EventTime ev) 1 (ev_ObjectID ev) (ev_SHA256 ev) (ev_ObjectSize ev)
    (ev_Organization ev) (ev_Project ev) (ev_AccessID ev) (ev_Provider ev) (ev_Bucket ev) (ev_StorageURL ev)
    (ev_ActorEmail ev) (ev_ActorSubject ev) (ev_AuthMode ev).
Definition update_grant (g : Grant) (ev : Event) : Grant :=
  mkGrant (g_AccessGrantID g)
    (if (ev_EventTime ev <? g_FirstIssuedAt g)%Z then ev_EventTime ev else g_FirstIssuedAt g)
    (if (g_LastIssuedAt g <? ev_EventTime ev)%Z then ev_EventTime ev else g_LastIssuedAt g)
    (g_IssueCount g + 1)
    (coalesce (g_ObjectID g) (ev_ObjectID ev)) (coalesce (g_SHA256 g) (ev_SHA256 ev))
    (if (g_ObjectSize g =? 0)%Z then ev_ObjectSize ev else g_ObjectSize g)
    (coalesce (g_Organization g) (ev_Organization ev)) (coalesce (g_Project g) (ev_Project ev))
    (coalesce (g_AccessID g) (ev_AccessID ev)) (coalesce (g_Provider g) (ev_Provider ev))
    (coalesce (g_Bucket g) (ev_Bucket ev)) (coalesce (g_StorageURL g) (ev_StorageURL ev))
    (coalesce (g_ActorEmail g) (ev_ActorEmail ev)) (coalesce (g_ActorSubject g) (ev_ActorSubject ev))
    (coalesce (g_AuthMode g) (ev_AuthMode ev)).
Definition sqliteUpsertAccessGrant (ev : Event) (grants : gmap string Grant) : gmap string Grant :=
  if is_empty (ev_AccessGrantID ev) then grants
  else <[ev_AccessGrantID ev := match grants !! ev_AccessGrantID ev with
                                | Some g => update_grant g ev
                                | None => first_grant ev
                                end]> grants.
(** The row of an event; [now] is read when the event has no time. *)
Definition event_row (now : Z) (ev : Event) : Event :=
  mkEvent (ev_EventID ev) (GrantID ev) (ev_EventType ev) (normalizeTransferDirection (ev_Direction ev))
    (if (ev_EventTime ev =? 0)%Z then now else ev_EventTime ev) (ev_RequestID ev) (ev_ObjectID ev) (ev_SHA256 ev)
    (ev_ObjectSize ev) (ev_Organization ev) (ev_Project ev) (ev_AccessID ev) (ev_Provider ev) (ev_Bucket ev)
    (ev_StorageURL ev) (ev_RangeStart ev) (ev_RangeEnd ev) (ev_BytesRequested ev) (ev_BytesCompleted ev)
    (ev_ActorEmail ev) (ev_ActorSubject ev) (ev_AuthMode ev) (ev_ClientName ev) (ev_ClientVersion ev)
    (ev_TransferSessionID ev).
Definition recordable (ev : Event) : bool :=
  negb (is_empty (ev_EventID ev)) && String.eqb (ev_EventType ev) TransferEventAccessIssued.
Definition record_event (db : AttributionDB) (now_ev : Z * Event) : AttributionDB :=
  let '(now, ev) := now_ev in
  if negb (recordable ev) || existsb (λ row, String.eqb (ev_EventID row) (ev_EventID ev)) (transfer_attribution_event db) then db
  else
    let row := event_row now ev in
    mkAttribution (transfer_attribution_event db ++ [row]) (sqliteUpsertAccessGrant row (access_grant db))
      (provider_transfer_event db).
(** Events with the instant at which each would be stamped. *)
Definition RecordTransferAttributionEvents (events : list (Z * Event)) (db : AttributionDB) : AttributionDB :=
  foldl record_event db events.

(** backfillAccessGrants, which runs at every start. *)
Definition backfill_grant (grants : gmap string Grant) (ev : Event) : gmap string Grant :=
  let grant := match grants !! ev_AccessGrantID ev with
               | Some g => if is_empty (g_AccessGrantID g) then mkGrant (ev_AccessGrantID ev) (ev_EventTime ev) (ev_EventTime ev)
                             (g_IssueCount g) (ev_ObjectID ev) (ev_SHA256 ev) (ev_ObjectSize ev) (ev_Organization ev) (ev_Project ev)
                             (ev_AccessID ev) (ev_Provider ev) (ev_Bucket ev) (ev_StorageURL ev) (ev_ActorEmail ev)
                             (ev_ActorSubject ev) (ev_AuthMode ev) else g
               | None => mkGrant (ev_AccessGrantID ev) (ev_EventTime ev) (ev_EventTime ev) 0 (ev_ObjectID ev) (ev_SHA256 ev)
                           (ev_ObjectSize ev) (ev_Organization ev) (ev_Project ev) (ev_AccessID ev) (ev_Provider ev)
                           (ev_Bucket ev) (ev_StorageURL ev) (ev_ActorEmail ev) (ev_ActorSubject ev) (ev_AuthMode ev)
               end in
  <[ev_AccessGrantID ev := mkGrant (g_AccessGrantID grant)
      (if (ev_EventTime ev <? g_FirstIssuedAt grant)%Z then ev_EventTime ev else g_FirstIssuedAt grant)
      (if (g_LastIssuedAt grant <? ev_EventTime ev)%Z then ev_EventTime ev else g_LastIssuedAt grant)
      (g_IssueCount grant + 1) (g_ObjectID grant) (g_SHA256 grant) (g_ObjectSize grant) (g_Organization grant)
      (g_Project grant) (g_AccessID grant) (g_Provider grant) (g_Bucket grant) (g_StorageURL grant)
      (coalesce (g_ActorEmail grant) (ev_ActorEmail ev)) (coalesce (g_ActorSubject grant) (ev_ActorSubject ev))
      (coalesce (g_AuthMode grant) (ev_AuthMode ev))]> grants.
Definition set_grant_id (ev : Event) : Event :=
  mkEvent (ev_EventID ev) (GrantID ev) (ev_EventType ev) (ev_Direction ev) (ev_EventTime ev) (ev_RequestID ev)
    (ev_ObjectID ev) (ev_SHA256 ev) (ev_ObjectSize ev) (ev_Organization ev) (ev_Project ev) (ev_AccessID ev)
    (ev_Provider ev) (ev_Bucket ev) (ev_StorageURL ev) (ev_RangeStart ev) (ev_RangeEnd ev) (ev_BytesRequested ev)
    (ev_BytesCompleted ev) (ev_ActorEmail ev) (ev_ActorSubject ev) (ev_AuthMode ev) (ev_ClientName ev)
    (ev_ClientVersion ev) (ev_TransferSessionID ev).
(** Every row is an access_issued event (a CHECK of the table); INSERT OR IGNORE keeps the grants that are there. *)
Definition backfillAccessGrants (db : AttributionDB) : AttributionDB :=
  let rows := set_grant_id <$> transfer_attribution_event db in
  mkAttribution rows (access_grant db ∪ foldl backfill_grant ∅ rows) (provider_transfer_event db).

(** ** Events of the provider *)
Definition upper_char (a : Ascii.ascii) : Ascii.ascii :=
  if is_lower a then Ascii.ascii_of_nat (Ascii.nat_of_ascii a - 32) else a.
Definition ToUpper (s : string) : string := String.string_of_list_ascii (upper_char <$> chars s).
Definition normalizeProviderDirection (direction method : string) : string :=
  let d := ToLower (TrimSpace direction) in
  if bool_decide (d ∈ [ProviderTransferDirectionDownload; "get"; "read"]) then ProviderTransferDirectionDownload
  else if bool_decide (d ∈ [ProviderTransferDirectionUpload; "put"; "write"]) then ProviderTransferDirectionUpload
  else
    let m := ToUpper (TrimSpace method) in
    if String.eqb m "GET" then ProviderTransferDirectionDownload
    else if String.eqb m "PUT" || String.eqb m "POST" then ProviderTransferDirectionUpload else d.
Definition providerStorageURL (provider bucket key : string) : string :=
  let p := ToLower (TrimSpace provider) in
  let scheme := if String.eqb p "gcs" || String.eqb p "gs" then "gs" else if String.eqb p "azure" || String.eqb p "az" then "az" else "s3" in
  scheme +:+ "://" +:+ bucket +:+ "/" +:+ TrimLeft key "/".
(** The operator LIKE of SQLite: [%] for any string, [_] for any character, ASCII letters without case. *)
Definition underscore : Ascii.ascii := Ascii.ascii_of_nat 95.
Fixpoint like (pattern : list Ascii.ascii) (s : string) : bool :=
  match pattern with
  | [] => is_empty s
  | p :: pattern =>
      if Ascii.eqb p percent then
        (fix any s := like pattern s || match s with "" => false | String _ rest => any rest end) s
      else
        match s with
        | "" => false
        | String a rest =>
            if Ascii.eqb p underscore then like pattern (String.substring (rune_width s) (String.length s) s)
            else Ascii.eqb (lower_char p) (lower_char a) && like pattern rest
        end
  end.
Definition minutes (n : Z) : Z := (n * 60 * 10 ^ 9)%Z.
(** The condition of the query for grants that may explain an event. *)
Definition candidate_grant (ev : ProviderEvent) (g : Grant) : bool :=
  String.eqb (g_Provider g) (pe_Provider ev) && String.eqb (g_Bucket g) (pe_Bucket ev)
  && (g_LastIssuedAt g <=? pe_EventTime ev + minutes 15)%Z && (pe_EventTime ev - minutes (24 * 60) <=? g_LastIssuedAt g)%Z
  && (if negb (is_empty (pe_StorageURL ev)) then String.eqb (g_StorageURL g) (pe_StorageURL ev)
      else if negb (is_empty (pe_ObjectKey ev)) then
        String.eqb (g_StorageURL g) (providerStorageURL (pe_Provider ev) (pe_Bucket ev) (pe_ObjectKey ev))
        || like (chars ("%/" +:+ pe_ObjectKey ev)) (g_StorageURL g)
      else true)
  && (if String.eqb (pe_Direction ev) ProviderTransferDirectionDownload then (0 <=? g_ObjectSize g)%Z else true).
Definition issued_later (a b : Grant) : Prop := (g_LastIssuedAt b <= g_LastIssuedAt a)%Z.
#[export] Instance issued_later_dec a b : Decision (issued_later a b).
Proof. unfold issued_later. apply _. Defined.
(** ORDER BY last_issued_at DESC LIMIT 2; grants issued last at the same instant come in any order. *)
Definition sqliteAccessGrantCandidates (grants : gmap string Grant) (ev : ProviderEvent) : list Grant :=
  take 2 (merge_sort issued_later
    (filter (λ g, candidate_grant ev g = true) (map_to_list grants).*2)).
Definition mergeAccessGrantIntoProviderEvent (ev : ProviderEvent) (grant : Grant) : ProviderEvent :=
  let hasActor := negb (is_empty (pe_ActorEmail ev)) || negb (is_empty (pe_ActorSubject ev)) in
  mkProviderEvent (pe_ProviderEventID ev) (coalesce (pe_AccessGrantID ev) (g_AccessGrantID grant)) (pe_Direction ev)
    (pe_EventTime ev) (pe_RequestID ev) (pe_ProviderRequestID ev) (coalesce (pe_ObjectID ev) (g_ObjectID grant))
    (coalesce (pe_SHA256 ev) (g_SHA256 grant)) (if (pe_ObjectSize ev =? 0)%Z then g_ObjectSize grant else pe_ObjectSize ev)
    (coalesce (pe_Organization ev) (g_Organization grant)) (coalesce (pe_Project ev) (g_Project grant))
    (coalesce (pe_AccessID ev) (g_AccessID grant)) (pe_Provider ev) (pe_Bucket ev) (pe_ObjectKey ev)
    (coalesce (pe_StorageURL ev) (g_StorageURL grant)) (pe_RangeStart ev) (pe_RangeEnd ev) (pe_BytesTransferred ev)
    (pe_HTTPMethod ev) (pe_HTTPStatus ev) (pe_RequesterPrincipal ev) (pe_SourceIP ev) (pe_UserAgent ev) (pe_RawEventRef ev)
    (if hasActor then pe_ActorEmail ev else g_ActorEmail grant) (if hasActor then pe_ActorSubject ev else g_ActorSubject grant)
    (coalesce (pe_AuthMode ev) (g_AuthMode grant)) (pe_ReconciliationStatus ev).
Definition set_status (status : string) (ev : ProviderEvent) : ProviderEvent :=
  mkProviderEvent (pe_ProviderEventID ev) (pe_AccessGrantID ev) (pe_Direction ev) (pe_EventTime ev) (pe_RequestID ev)
    (pe_ProviderRequestID ev) (pe_ObjectID ev) (pe_SHA256 ev) (pe_ObjectSize ev) (pe_Organization ev) (pe_Project ev)
    (pe_AccessID ev) (pe_Provider ev) (pe_Bucket ev) (pe_ObjectKey ev) (pe_StorageURL ev) (pe_RangeStart ev) (pe_RangeEnd ev)
    (pe_BytesTransferred ev) (pe_HTTPMethod ev) (pe_HTTPStatus ev) (pe_RequesterPrincipal ev) (pe_SourceIP ev) (pe_UserAgent ev)
    (pe_RawEventRef ev) (pe_ActorEmail ev) (pe_ActorSubject ev) (pe_AuthMode ev) status.
(** The event as it is before it is matched. *)
Definition normalize_provider_event (ev : ProviderEvent) : ProviderEvent :=
  mkProviderEvent (pe_ProviderEventID ev) (pe_AccessGrantID ev) (normalizeProviderDirection (pe_Direction ev) (pe_HTTPMethod ev))
    (pe_EventTime ev) (pe_RequestID ev) (pe_ProviderRequestID ev) (pe_ObjectID ev) (pe_SHA256 ev) (pe_ObjectSize ev)
    (pe_Organization ev) (pe_Project ev) (pe_AccessID ev) (TrimSpace (pe_Provider ev)) (TrimSpace (pe_Bucket ev))
    (TrimLeft (TrimSpace (pe_ObjectKey ev)) "/") (TrimSpace (pe_StorageURL ev)) (pe_RangeStart ev) (pe_RangeEnd ev)
    (pe_BytesTransferred ev) (pe_HTTPMethod ev) (pe_HTTPStatus ev) (pe_RequesterPrincipal ev) (pe_SourceIP ev)
    (pe_UserAgent ev) (pe_RawEventRef ev) (pe_ActorEmail ev) (pe_ActorSubject ev) (pe_AuthMode ev) ProviderTransferUnmatched.
Definition reconcileProviderTransferEvent (grants : gmap string Grant) (ev : ProviderEvent) : ProviderEvent :=
  let ev := normalize_provider_event ev in
  match (if is_empty (pe_AccessGrantID ev) then None else grants !! pe_AccessGrantID ev) with
  | Some g => set_status ProviderTransferMatched (mergeAccessGrantIntoProviderEvent ev g)
  | None =>
      match sqliteAccessGrantCandidates grants ev with
      | [] => ev
      | [g] => set_status ProviderTransferMatched (mergeAccessGrantIntoProviderEvent ev g)
      | _ => set_status ProviderTransferAmbiguous ev
      end
  end.
(** The row of a reconciled event. *)
Definition provider_row (now : Z) (ev : ProviderEvent) : ProviderEvent :=
  mkProviderEvent (pe_ProviderEventID ev) (pe_AccessGrantID ev) (pe_Direction ev)
    (if (pe_EventTime ev =? 0)%Z then now else pe_EventTime ev) (pe_RequestID ev)
    (pe_ProviderRequestID ev) (pe_ObjectID ev) (pe_SHA256 ev) (pe_ObjectSize ev) (pe_Organization ev) (pe_Project ev)
    (pe_AccessID ev) (pe_Provider ev) (pe_Bucket ev) (pe_ObjectKey ev) (pe_StorageURL ev) (pe_RangeStart ev) (pe_RangeEnd ev)
    (pe_BytesTransferred ev) (pe_HTTPMethod ev) (pe_HTTPStatus ev) (pe_RequesterPrincipal ev) (pe_SourceIP ev) (pe_UserAgent ev)
    (pe_RawEventRef ev) (pe_ActorEmail ev) (pe_ActorSubject ev) (pe_AuthMode ev) (pe_ReconciliationStatus ev).
(** INSERT OR IGNORE also skips rows that break the CHECK on the direction. *)
Definition record_provider_event (db : AttributionDB) (now_ev : Z * ProviderEvent) : AttributionDB :=
  let '(now, ev) := now_ev in
  let normalized := reconcileProviderTransferEvent (access_grant db) ev in
  if is_empty (pe_ProviderEventID normalized) || is_empty (pe_Direction normalized) || is_empty (pe_Provider normalized)
     || existsb (λ row, String.eqb (pe_ProviderEventID row) (pe_ProviderEventID normalized)) (provider_transfer_event db)
     || negb (bool_decide (pe_Direction normalized ∈ [ProviderTransferDirectionDownload; ProviderTransferDirectionUpload]))
  then db
  else mkAttribution (transfer_attribution_event db) (access_grant db)
         (provider_transfer_event db ++ [provider_row now normalized]).
(** The second component is the slice of the caller, whose elements are replaced. *)
Definition RecordProviderTransferEvents (events : list (Z * ProviderEvent)) (db : AttributionDB)
  : AttributionDB * list ProviderEvent :=
  (foldl record_provider_event db events, reconcileProviderTransferEvent (access_grant db) <$> events.*2).
End identity.
