(* ===== verification/AttributionProperties.v ===== *)
(** * What the attribution tables promise *)
From S2P Require Import Prelude GoStrings GoURL Errors Objects Buckets Attribution.

Section properties.
Context `{Digests}.

(** Operations on the tables: the server starts, records events, records what providers report. *)
Inductive attribution_op :=
  | OpStart
  | OpRecord (events : list (Z * Event))
  | OpProvider (events : list (Z * ProviderEvent)).
Definition run_attribution (op : attribution_op) (db : AttributionDB) : AttributionDB :=
  match op with
  | OpStart => backfillAccessGrants db
  | OpRecord events => RecordTransferAttributionEvents events db
  | OpProvider events => (RecordProviderTransferEvents events db).1
  end.
Definition run_attributions (ops : list attribution_op) (db : AttributionDB) : AttributionDB := foldl (flip run_attribution) db ops.

(** ** Grants as folds over their events *)
Definition of_grant (id : string) (rows : list Event) : list Event := filter (λ row, ev_AccessGrantID row = id) rows.
Definition grant_of (rows : list Event) : option Grant :=
  match rows with [] => None | ev :: rows => Some (foldl update_grant (first_grant ev) rows) end.
Lemma grant_of_snoc rows ev :
  grant_of (rows ++ [ev]) = Some (match grant_of rows with Some g => update_grant g ev | None => first_grant ev end).
Proof. destruct rows as [|ev0 rows]; [done|]. simpl. by rewrite foldl_app. Qed.

(** SHA-256 is never empty. *)
Context (sha_nonempty : ∀ s, sha256_hex s ≠ "").
Record attribution_ok (db : AttributionDB) : Prop := {
  ok_ids : NoDup (ev_EventID <$> transfer_attribution_event db);
  ok_rows row : row ∈ transfer_attribution_event db → recordable row = true ∧ ev_AccessGrantID row = GrantID row;
  ok_grants id : access_grant db !! id = grant_of (of_grant id (transfer_attribution_event db)) }.

Lemma existsb_event_id id rows : existsb (λ row, String.eqb (ev_EventID row) id) rows = true ↔ id ∈ ev_EventID <$> rows.
Proof.
  rewrite existsb_exists, list_elem_of_fmap. split.
  - intros (row & Hin%list_elem_of_In & E%String.eqb_eq). by exists row.
  - intros (row & -> & Hin). exists row. split; [by apply list_elem_of_In|apply String.eqb_refl].
Qed.
Lemma event_row_facts now ev : recordable ev = true → recordable (event_row now ev) = true ∧ ev_AccessGrantID (event_row now ev) = GrantID (event_row now ev).
Proof. done. Qed.
Lemma record_event_ok db now_ev : attribution_ok db → attribution_ok (record_event db now_ev).
Proof using sha_nonempty.
  destruct now_ev as [now ev]. intros [Hids Hrows Hg]. unfold record_event.
  destruct (negb (recordable ev) || _) eqn:E; [done|]. apply orb_false_iff in E as [Hr%negb_false_iff Hnew].
  split; simpl.
  - rewrite fmap_app. apply NoDup_app. split_and!; [done| |apply NoDup_singleton].
    intros id Hin ->%list_elem_of_singleton. apply existsb_event_id in Hin. simpl in Hin. congruence.
  - intros row [?|Hrow%list_elem_of_singleton]%elem_of_app; [by apply Hrows|]. subst row. by apply event_row_facts.
  - intros id. unfold sqliteUpsertAccessGrant. unfold of_grant. rewrite filter_app.
    assert (ev_AccessGrantID (event_row now ev) = GrantID ev) as Eid by done. rewrite Eid.
    rewrite (proj2 (is_empty_false (GrantID ev))) by apply sha_nonempty. rewrite filter_cons, filter_nil, Eid.
    destruct (decide (GrantID ev = id)) as [<-|Hne].
    + rewrite lookup_insert_eq, grant_of_snoc. by rewrite Hg.
    + by rewrite lookup_insert_ne, app_nil_r.
Qed.
Lemma set_grant_id_same (rows : list Event) : (∀ row, row ∈ rows → ev_AccessGrantID row = GrantID row) → set_grant_id <$> rows = rows.
Proof.
  intros Hr. induction rows as [|row rows IH]; [done|]. cbn. f_equal; [|apply IH; intros; apply Hr; by right].
  unfold set_grant_id. rewrite <- (Hr row) by left. by destruct row.
Qed.
Lemma backfill_grant_ids (rows : list Event) : ∀ m id, is_Some (foldl backfill_grant m rows !! id) → is_Some (m !! id) ∨ of_grant id rows ≠ [].
Proof.
  induction rows as [|row rows IH]; intros m id Hs; [by left|]. apply IH in Hs as [Hs|Hs].
  - unfold backfill_grant in Hs. unfold of_grant. rewrite filter_cons. destruct (decide (ev_AccessGrantID row = id)) as [<-|Hne]; [by right|].
    rewrite lookup_insert_ne in Hs by done. by left.
  - right. unfold of_grant in *. rewrite filter_cons. by case_decide.
Qed.
(** Starting the server changes nothing. *)
Lemma backfill_same db : attribution_ok db → backfillAccessGrants db = db.
Proof.
  intros [_ Hrows Hg]. unfold backfillAccessGrants. cbv zeta. rewrite set_grant_id_same by (intros row Hr; by apply Hrows).
  destruct db as [rows grants provider]. simpl in *. f_equal. apply map_eq. intros id. rewrite lookup_union.
  destruct (grants !! id) as [g|] eqn:E; [by destruct (foldl _ _ _ !! id)|].
  destruct (foldl backfill_grant ∅ rows !! id) as [g|] eqn:Eb; [|done]. exfalso.
  destruct (backfill_grant_ids rows ∅ id) as [Hs|Hs]; [by eexists|by apply is_Some_None in Hs|].
  rewrite Hg in E. by destruct (of_grant id rows).
Qed.
Lemma record_provider_same events db :
  transfer_attribution_event (foldl record_provider_event db events) = transfer_attribution_event db ∧
  access_grant (foldl record_provider_event db events) = access_grant db.
Proof.
  revert db. induction events as [|[now ev] events IH]; intros db; [done|]. cbn [foldl]. destruct (IH (record_provider_event db (now, ev))) as [-> ->].
  unfold record_provider_event. by case_match.
Qed.
Lemma run_attributions_ok ops : attribution_ok (run_attributions ops empty_attribution).
Proof using sha_nonempty.
  unfold run_attributions. assert (attribution_ok empty_attribution) as Hok.
  { split; simpl; [constructor|by intros ? ?%elem_of_nil|done]. }
  revert Hok. generalize empty_attribution. induction ops as [|op ops IH]; intros db Hok; [done|]. apply IH. unfold flip.
  destruct op as [|events|events]; simpl.
  - by rewrite backfill_same.
  - unfold RecordTransferAttributionEvents. revert db Hok. induction events as [|ev events IHe]; intros db Hok; [done|].
    apply IHe. by apply record_event_ok.
  - destruct (record_provider_same events db) as [Er Eg]. destruct Hok as [Hi Hr Hg]. split; by rewrite ?Er, ?Eg.
Qed.

(** ** What a grant says *)
Lemma grant_of_spec rows g :
  grant_of rows = Some g →
  g_IssueCount g = Z.of_nat (length rows) ∧
  (∀ row, row ∈ rows → (g_FirstIssuedAt g <= ev_EventTime row <= g_LastIssuedAt g)%Z) ∧
  (∃ row, row ∈ rows ∧ ev_EventTime row = g_FirstIssuedAt g) ∧ (∃ row, row ∈ rows ∧ ev_EventTime row = g_LastIssuedAt g).
Proof using.
  revert g. induction rows as [|ev rows IH] using rev_ind; [done|]. intros g. rewrite grant_of_snoc, length_app. intros [= <-].
  destruct (grant_of rows) as [g0|] eqn:E.
  - destruct (IH g0 eq_refl) as (Hn & Hb & (r1 & H1 & E1) & (r2 & H2 & E2)). unfold update_grant. simpl. split_and!.
    + lia.
    + intros row [Hin| ->%list_elem_of_singleton]%elem_of_app; [pose proof (Hb _ Hin)|pose proof (Hb _ H1); pose proof (Hb _ H2)];
        repeat case_match; lia.
    + destruct (ev_EventTime ev <? g_FirstIssuedAt g0)%Z; [exists ev|exists r1]; (split; [rewrite elem_of_app|done]); [right; left|by left].
    + destruct (g_LastIssuedAt g0 <? ev_EventTime ev)%Z; [exists ev|exists r2]; (split; [rewrite elem_of_app|done]); [right; left|by left].
  - destruct rows; [|done]. simpl. split_and!; [done| | |]; try (exists ev; split; [left|done]).
    intros row ->%list_elem_of_singleton. lia.
Qed.

(** ** Recording again *)
Lemma record_events_recorded events db id :
  id ∈ ev_EventID <$> transfer_attribution_event (foldl record_event db events) ↔
  id ∈ ev_EventID <$> transfer_attribution_event db ∨ ∃ ev, ev ∈ events.*2 ∧ recordable ev = true ∧ ev_EventID ev = id.
Proof using.
  revert db. induction events as [|[now ev] events IH]; intros db.
  - simpl. split; [by left|]. intros [?|(ev & Hin & _)]; [done|by apply elem_of_nil in Hin].
  - cbn [foldl fmap list_fmap snd]. rewrite IH. unfold record_event at 1.
    destruct (recordable ev) eqn:Hr; cbn [negb orb].
    + destruct (existsb _ _) eqn:Ex; cbn [transfer_attribution_event].
      * apply existsb_event_id in Ex. split; [intros [?|(e & ? & ?)]; [by left|right; exists e; split; [by right|done]]|].
        intros [?|(e & [->|?]%elem_of_cons & ? & <-)]; [by left|by left|right; by exists e].
      * rewrite fmap_app, elem_of_app. change (ev_EventID <$> [event_row now ev]) with [ev_EventID ev]. rewrite list_elem_of_singleton. split.
        -- intros [[?|Hid]|(e & ? & ?)]; [by left|right; exists ev; split; [by left|done]|right; exists e; split; [by right|done]].
        -- intros [?|(e & [->|?]%elem_of_cons & ? & <-)]; [by left; left|by left; right|right; by exists e].
    + split; [intros [?|(e & ? & ?)]; [by left|right; exists e; split; [by right|done]]|].
      intros [?|(e & [->|?]%elem_of_cons & ? & <-)]; [by left|congruence|right; by exists e].
Qed.
(** Recording events that are there already, at whatever time, changes nothing: a client may repeat a request. *)
Theorem recording_is_idempotent events again db :
  again.*2 = events.*2 →
  RecordTransferAttributionEvents again (RecordTransferAttributionEvents events db) = RecordTransferAttributionEvents events db.
Proof using.
  intros E. unfold RecordTransferAttributionEvents. set (db' := foldl record_event db events).
  assert (∀ ev, ev ∈ again.*2 → recordable ev = true → ev_EventID ev ∈ ev_EventID <$> transfer_attribution_event db') as Hall.
  { intros ev Hin Hr. apply record_events_recorded. right. exists ev. by rewrite <- E. }
  clearbody db'. clear E. induction again as [|[now ev] again IH]; [done|]. cbn [foldl].
  assert (record_event db' (now, ev) = db') as ->.
  { unfold record_event. destruct (recordable ev) eqn:Hr; [|done]. simpl.
    rewrite (proj2 (existsb_event_id _ _)); [done|]. apply Hall; [left|done]. }
  apply IH. intros e Hin. apply Hall. by right.
Qed.

(** ** The start of the server *)
Definition backfilled (o : option Grant) (ev : Event) : option Grant :=
  backfill_grant (match o with Some g => {[ev_AccessGrantID ev := g]} | None => ∅ end) ev !! ev_AccessGrantID ev.
Lemma backfill_lookup m (rows : list Event) id :
  foldl backfill_grant m rows !! id = foldl backfilled (m !! id) (of_grant id rows).
Proof using.
  revert m. induction rows as [|row rows IH]; intros m; [done|]. cbn [foldl]. rewrite IH. unfold of_grant. rewrite filter_cons.
  destruct (decide (ev_AccessGrantID row = id)) as [<-|Hne]; cbn [foldl].
  - f_equal. unfold backfilled, backfill_grant. rewrite !lookup_insert_eq.
    destruct (m !! ev_AccessGrantID row) as [g|]; [by rewrite lookup_singleton_eq|by rewrite lookup_empty].
  - f_equal. unfold backfill_grant. by rewrite lookup_insert_ne.
Qed.
(** The events of a grant agree on what makes up the grant, and on the size of the object. *)
Definition agree (r1 r2 : Event) : Prop :=
  ev_AccessGrantID r1 = ev_AccessGrantID r2 → grant_parts r1 = grant_parts r2 ∧ ev_ObjectSize r1 = ev_ObjectSize r2.
Definition consistent (rows : list Event) : Prop := ∀ r1 r2, r1 ∈ rows → r2 ∈ rows → agree r1 r2.
Definition described (g : Grant) (ev : Event) : Prop :=
  [g_ObjectID g; g_SHA256 g; g_Organization g; g_Project g; g_AccessID g; g_Provider g; g_Bucket g; g_StorageURL g] = grant_parts ev ∧
  g_ObjectSize g = ev_ObjectSize ev ∧ g_AccessGrantID g = ev_AccessGrantID ev.
Lemma coalesce_same s : coalesce s s = s.
Proof using. unfold coalesce. by destruct (is_empty s). Qed.
Lemma described_update g ev : described g ev → ev_AccessGrantID ev ≠ "" →
  described (update_grant g ev) ev ∧ backfilled (Some g) ev = Some (update_grant g ev).
Proof using.
  intros (Hp & Hs & Hid) Hne. unfold grant_parts in Hp. injection Hp as E1 E2 E3 E4 E5 E6 E7 E8. split.
  - unfold described, update_grant, grant_parts. simpl. rewrite E1, E2, E3, E4, E5, E6, E7, E8, !coalesce_same, Hs, Hid.
    by destruct (ev_ObjectSize ev =? 0)%Z.
  - unfold backfilled, backfill_grant. rewrite lookup_insert_eq, lookup_singleton_eq. cbv zeta.
    rewrite Hid, (proj2 (is_empty_false _) Hne). f_equal. unfold update_grant.
    rewrite E1, E2, E3, E4, E5, E6, E7, E8, !coalesce_same, Hs. by destruct (ev_ObjectSize ev =? 0)%Z.
Qed.
Lemma backfill_grant_of rows id :
  id ≠ "" → consistent rows → (∀ row, row ∈ rows → ev_AccessGrantID row = id) → foldl backfilled None rows = grant_of rows ∧
  ∀ g ev, grant_of rows = Some g → ev ∈ rows → described g ev.
Proof using.
  intros Hne. induction rows as [|ev rows IH] using rev_ind; [done|]. intros Hc Hid.
  destruct IH as [IH Hd].
  { intros r1 r2 H1 H2. apply Hc; apply elem_of_app; by left. }
  { intros row Hr. apply Hid, elem_of_app. by left. }
  assert (ev_AccessGrantID ev = id) as Hev by (apply Hid, elem_of_app; right; left).
  rewrite foldl_app, IH, grant_of_snoc. cbn [foldl]. destruct (grant_of rows) as [g|] eqn:E.
  - destruct rows as [|r0 rows]; [done|]. assert (described g ev) as Hgd.
    { destruct (Hd g r0 eq_refl) as (Hp & Hs & Hi); [left|]. destruct (Hc r0 ev) as [Ep Es]; [left|apply elem_of_app; right; left|by rewrite Hev, (Hid r0) by left|].
      split_and!; [by rewrite Hp, Ep|by rewrite Hs|by rewrite Hi, Hev, (Hid r0) by left]. }
    destruct (described_update g ev Hgd) as [Hu Hb]; [by rewrite Hev|]. split; [done|].
    intros g' ev' [= <-] Hin. destruct Hu as (Hp & Hs & Hi).
    destruct (Hc ev ev') as [Ep Es]; [apply elem_of_app; right; left|done|by rewrite Hev, (Hid ev')|].
    split_and!; [by rewrite Hp, Ep|by rewrite Hs|by rewrite Hi, Hev, (Hid ev')].
  - destruct rows; [|done]. split.
    + unfold backfilled, backfill_grant, first_grant. rewrite lookup_insert_eq, lookup_empty. cbv zeta.
      cbn [g_AccessGrantID g_FirstIssuedAt g_LastIssuedAt g_IssueCount g_ObjectID g_SHA256 g_ObjectSize g_Organization g_Project
           g_AccessID g_Provider g_Bucket g_StorageURL g_ActorEmail g_ActorSubject g_AuthMode]. by rewrite Z.ltb_irrefl, !coalesce_same.
    + intros g' ev' [= <-] ->%list_elem_of_singleton. done.
Qed.
(** Starting the server changes nothing; and if the grants were lost, it would rebuild them from the events, as long as
    the events of a grant agree on the object. *)
Theorem startup_keeps_grants ops :
  let db := run_attributions ops empty_attribution in
  backfillAccessGrants db = db ∧
  (consistent (transfer_attribution_event db) →
   access_grant (backfillAccessGrants (mkAttribution (transfer_attribution_event db) ∅ (provider_transfer_event db))) = access_grant db).
Proof using sha_nonempty.
  intros db. pose proof (run_attributions_ok ops) as Hok. fold db in Hok. split; [by apply backfill_same|].
  destruct Hok as [_ Hrows Hg]. intros Hc. unfold backfillAccessGrants. cbn [access_grant transfer_attribution_event].
  rewrite set_grant_id_same, (left_id_L ∅ (∪)) by (intros row Hr; by apply Hrows).
  apply map_eq. intros id. rewrite backfill_lookup, lookup_empty, Hg.
  destruct (decide (of_grant id (transfer_attribution_event db) = [])) as [->|Hne]; [done|].
  assert (∀ row, row ∈ of_grant id (transfer_attribution_event db) →
    row ∈ transfer_attribution_event db ∧ ev_AccessGrantID row = id) as Hin by by intros row [? ?]%list_elem_of_filter.
  destruct (of_grant id _) as [|row0 rest] eqn:E; [done|]. rewrite <- E in *. apply (backfill_grant_of _ id).
  - destruct (Hin row0) as [Hr0 <-]; [rewrite E; left|]. destruct (Hrows _ Hr0) as [_ ->]. apply sha_nonempty.
  - intros r1 r2 [? _]%Hin [? _]%Hin. by apply Hc.
  - by intros row [_ ?]%Hin.
Qed.

(** ** Matching what the provider reports *)
(** The grants that may explain an event, with their ids. *)
Definition explains (grants : gmap string Grant) (ev : ProviderEvent) (id : string) (g : Grant) : Prop :=
  grants !! id = Some g ∧ candidate_grant ev g = true.
Lemma filter_fmap_snd {A B} (P : B → Prop) `{!∀ x, Decision (P x)} (l : list (A * B)) :
  filter P l.*2 = (filter (λ e, P e.2) l).*2.
Proof using. induction l as [|[a b] l IH]; [done|]. rewrite fmap_cons, !filter_cons. simpl. case_decide; by rewrite IH. Qed.
Lemma candidates_cases (grants : gmap string Grant) ev :
  match sqliteAccessGrantCandidates grants ev with
  | [] => ∀ id g, ¬ explains grants ev id g
  | [g] => ∃ id, explains grants ev id g ∧ ∀ id' g', explains grants ev id' g' → id' = id
  | _ => ∃ id1 g1 id2 g2, id1 ≠ id2 ∧ explains grants ev id1 g1 ∧ explains grants ev id2 g2
  end.
Proof using.
  unfold sqliteAccessGrantCandidates. rewrite filter_fmap_snd.
  set (cs := filter _ (map_to_list grants)).
  assert (∀ id g, (id, g) ∈ cs ↔ explains grants ev id g) as Hcs.
  { intros id g. unfold cs. rewrite list_elem_of_filter, elem_of_map_to_list. unfold explains. simpl. tauto. }
  assert (NoDup cs) as Hnd by apply NoDup_filter, NoDup_map_to_list.
  assert (NoDup cs.*1) as Hnd1.
  { apply NoDup_fmap_fst; [|done]. intros id g1 g2 [H1 _]%Hcs [H2 _]%Hcs. congruence. }
  pose proof (merge_sort_Permutation issued_later cs.*2) as Hp. clearbody cs.
  destruct (merge_sort issued_later cs.*2) as [|g [|g2 rest]] eqn:E; cbn [take].
  - apply Permutation_nil_l in Hp. destruct cs; [|done]. intros id g Hx. by apply Hcs, elem_of_nil in Hx.
  - apply Permutation_singleton_l in Hp. destruct cs as [|[id g0] [|]]; [done| |done]. injection Hp as ->.
    exists id. split; [apply Hcs; left|]. intros id' g' Hx%Hcs. apply list_elem_of_singleton in Hx. congruence.
  - apply Permutation_length in Hp. rewrite length_fmap in Hp. destruct cs as [|[id1 g1] [|[id2 g3] cs]]; [done|done|].
    exists id1, g1, id2, g3. split_and!; [|apply Hcs; left|apply Hcs; right; left].
    intros ->. apply NoDup_cons in Hnd1 as [Hn _]. apply Hn. left.
Qed.
(** What an event keeps whatever grant it is matched with: everything but the fields it left empty. *)
Definition keeps (old new : string) : Prop := old ≠ "" → new = old.
Record refines_event (ev r : ProviderEvent) : Prop := {
  rf_fixed : [pe_ProviderEventID r; pe_Direction r; pe_RequestID r; pe_ProviderRequestID r; pe_Provider r; pe_Bucket r; pe_ObjectKey r]
             = [pe_ProviderEventID ev; pe_Direction ev; pe_RequestID ev; pe_ProviderRequestID ev; pe_Provider ev; pe_Bucket ev; pe_ObjectKey ev];
  rf_time : pe_EventTime r = pe_EventTime ev ∧ pe_BytesTransferred r = pe_BytesTransferred ev;
  rf_scope : keeps (pe_Organization ev) (pe_Organization r) ∧ keeps (pe_Project ev) (pe_Project r);
  rf_object : keeps (pe_ObjectID ev) (pe_ObjectID r) ∧ keeps (pe_SHA256 ev) (pe_SHA256 r) ∧ keeps (pe_StorageURL ev) (pe_StorageURL r);
  rf_grant : keeps (pe_AccessGrantID ev) (pe_AccessGrantID r) ∧ keeps (pe_AccessID ev) (pe_AccessID r);
  rf_size : pe_ObjectSize ev ≠ 0%Z → pe_ObjectSize r = pe_ObjectSize ev;
  rf_actor : (pe_ActorEmail ev ≠ "" ∨ pe_ActorSubject ev ≠ "") → pe_ActorEmail r = pe_ActorEmail ev ∧ pe_ActorSubject r = pe_ActorSubject ev }.
Lemma keeps_coalesce old new : keeps old (coalesce old new).
Proof using. unfold keeps, coalesce. intros Hne. by rewrite (proj2 (is_empty_false old) Hne). Qed.
Lemma refines_self status ev : refines_event ev (set_status status ev).
Proof using. by split. Qed.
Lemma refines_merge status ev g : refines_event ev (set_status status (mergeAccessGrantIntoProviderEvent ev g)).
Proof using.
  split; simpl; try done; rewrite ?and_assoc; repeat split; try apply keeps_coalesce.
  - intros Hne. by rewrite (proj2 (Z.eqb_neq _ _) Hne).
  - by destruct H0 as [->%is_empty_false| ->%is_empty_false]; rewrite ?orb_true_r.
  - by destruct H0 as [->%is_empty_false| ->%is_empty_false]; rewrite ?orb_true_r.
Qed.
(** An event of the provider is matched with the grant it names, else with a grant that explains it when there is only
    one; with two it is ambiguous, with none unmatched.  Nothing the provider reported is overwritten. *)
Theorem provider_reconciliation grants ev :
  let seen := normalize_provider_event ev in
  let r := reconcileProviderTransferEvent grants ev in
  let named g := pe_AccessGrantID ev ≠ "" ∧ grants !! pe_AccessGrantID ev = Some g in
  refines_event seen r ∧
  ((∃ g, named g ∧ r = set_status ProviderTransferMatched (mergeAccessGrantIntoProviderEvent seen g))
   ∨ (∀ g, ¬ named g) ∧
     ((pe_ReconciliationStatus r = ProviderTransferMatched ∧
       ∃ id g, explains grants seen id g ∧ (∀ id' g', explains grants seen id' g' → id' = id) ∧
         r = set_status ProviderTransferMatched (mergeAccessGrantIntoProviderEvent seen g))
      ∨ (pe_ReconciliationStatus r = ProviderTransferAmbiguous ∧ r = set_status ProviderTransferAmbiguous seen ∧
         ∃ id1 g1 id2 g2, id1 ≠ id2 ∧ explains grants seen id1 g1 ∧ explains grants seen id2 g2)
      ∨ (pe_ReconciliationStatus r = ProviderTransferUnmatched ∧ r = seen ∧ ∀ id g, ¬ explains grants seen id g))).
Proof using.
  intros seen r named. unfold r, reconcileProviderTransferEvent. cbv zeta. fold seen.
  change (pe_AccessGrantID seen) with (pe_AccessGrantID ev).
  destruct (if is_empty (pe_AccessGrantID ev) then None else grants !! pe_AccessGrantID ev) as [g|] eqn:E.
  - split; [apply refines_merge|]. left. exists g. split; [|done].
    destruct (is_empty _) eqn:Ee in E; [done|]. split; [by apply is_empty_false|done].
  - assert (∀ g, ¬ named g) as Hn.
    { intros g [Hne Hg]. rewrite (proj2 (is_empty_false _) Hne) in E. congruence. }
    pose proof (candidates_cases grants seen) as Hc.
    destruct (sqliteAccessGrantCandidates grants seen) as [|g [|g2 rest]].
    + split; [apply (refines_self ProviderTransferUnmatched)|]. right. split; [done|]. right. right. done.
    + split; [apply refines_merge|]. right. split; [done|]. left. split; [done|]. destruct Hc as (id & Hx & Hu). by exists id, g.
    + split; [apply refines_self|]. right. split; [done|]. right. left. split; [done|]. done.
Qed.
End properties.

(** ** Witnesses *)
Section samples.
#[local] Instance attribution_digests : Digests := {| sha256_hex := λ s, "#" +:+ s; uuid_NewSHA1 := λ s, s |}.
Definition sample_issue (id project url : string) (time : Z) : Event :=
  mkEvent id "" "access_issued" "" time "r1" "o1" "abc" 10 "org" project "s3" "s3" "b" url None None 10 0 "ada@x" "ada" "local" "" "" "".
Definition sample_ops : list attribution_op :=
  [OpStart; OpRecord [(0%Z, sample_issue "e1" "p" "s3://b/x/abc" 100); (0%Z, sample_issue "e2" "p" "s3://b/x/abc" 90);
                      (0%Z, sample_issue "e1" "p" "s3://b/x/abc" 95); (0%Z, sample_issue "e3" "q" "s3://b/y/abc" 70)]; OpStart].
Definition sample_attribution : AttributionDB := run_attributions sample_ops empty_attribution.
Definition sample_grant_id : string := GrantID (sample_issue "e1" "p" "s3://b/x/abc" 100).

Lemma sample_nonempty (s : string) : sha256_hex s ≠ "".
Proof. done. Qed.
Lemma recording_is_idempotent_witness :
  RecordTransferAttributionEvents [(5%Z, sample_issue "e9" "p" "u" 0)]
    (RecordTransferAttributionEvents [(3%Z, sample_issue "e9" "p" "u" 0)] sample_attribution)
  = RecordTransferAttributionEvents [(3%Z, sample_issue "e9" "p" "u" 0)] sample_attribution.
Proof. apply recording_is_idempotent. reflexivity. Defined.
Lemma startup_keeps_grants_witness : backfillAccessGrants sample_attribution = sample_attribution.
Proof. apply (startup_keeps_grants sample_nonempty sample_ops). Defined.

(** A key with the wildcard [_] is matched with another object, and one that ends a longer key with that object. *)
Definition sample_report (key : string) : ProviderEvent :=
  mkProviderEvent "pe1" "" "get" 100 "" "" "" "" 0 "" "" "" "s3" "b" key "" None None 10 "GET" 200 "" "" "" "" "" "" "" "".
Definition one_grant : gmap string Grant := access_grant
  (RecordTransferAttributionEvents [(0%Z, sample_issue "e1" "p" "s3://b/x/abc" 100)] empty_attribution).
Example wildcard_matches :
  pe_ReconciliationStatus (reconcileProviderTransferEvent one_grant (sample_report "x/a_c")) = ProviderTransferMatched ∧
  pe_Project (reconcileProviderTransferEvent one_grant (sample_report "x/a_c")) = "p" ∧
  pe_ReconciliationStatus (reconcileProviderTransferEvent one_grant (sample_report "abc")) = ProviderTransferMatched ∧
  pe_ReconciliationStatus (reconcileProviderTransferEvent one_grant (sample_report "x/abd")) = ProviderTransferUnmatched.
Proof. vm_compute. done. Qed.
(** An event reported before its grant is recorded stays unmatched: reporting it again does not replace the row. *)
Example early_event_stays_unmatched :
  let early := (RecordProviderTransferEvents [(0%Z, sample_report "x/abc")] empty_attribution).1 in
  let later := RecordTransferAttributionEvents [(0%Z, sample_issue "e1" "p" "s3://b/x/abc" 100)] early in
  let again := (RecordProviderTransferEvents [(0%Z, sample_report "x/abc")] later) in
  pe_ReconciliationStatus <$> provider_transfer_event again.1 = [ProviderTransferUnmatched] ∧
  pe_ReconciliationStatus <$> again.2 = [ProviderTransferMatched].
Proof. vm_compute. done. Qed.
End samples.
