(* ===== verification/Reports.v ===== *)
(** * Transfer reports: internal/persistence/sqlite/transfer_reports.go (and the resource clause of
    internal/persistence/postgres/transfer_reports.go)
    A query is its condition and the list of its arguments, which SQLite binds to the question marks in order of their
    appearance.  A condition is a conjunction of disjunctions; the rows are those of the attribution table. *)
From S2P Require Import Prelude GoStrings GoURL Errors Resources Objects Buckets Attribution.
(** ** internal/usage/metrics.go *)
Record Filter := mkFilter {
  f_Organization : string; f_Project : string; f_EventType : string; f_Direction : string; f_From : option Z;
  f_To : option Z; f_Provider : string; f_Bucket : string; f_SHA256 : string; f_User : string;
  f_ReconciliationStatus : string }.
Record Freshness := mkFreshness {
  fr_IsStale : bool; fr_MissingBuckets : list string; fr_LatestCompletedSync : option Z; fr_RequiredFrom : option Z;
  fr_RequiredTo : option Z }.
Record Summary := mkSummary {
  sm_EventCount : Z; sm_AccessIssuedCount : Z; sm_DownloadEventCount : Z; sm_UploadEventCount : Z;
  sm_BytesRequested : Z; sm_BytesDownloaded : Z; sm_BytesUploaded : Z; sm_Freshness : option Freshness }.
Definition empty_summary : Summary := mkSummary 0 0 0 0 0 0 0 None.
Record Breakdown := mkBreakdown {
  bd_Key : string; bd_Organization : string; bd_Project : string; bd_Provider : string; bd_Bucket : string;
  bd_SHA256 : string; bd_ActorEmail : string; bd_ActorSubject : string; bd_EventCount : Z; bd_BytesRequested : Z;
  bd_BytesDownloaded : Z; bd_BytesUploaded : Z; bd_LastTransferTime : option Z }.

(** ** Conditions *)
Inductive column := Organization | Project | EventType | Direction | Provider | Bucket | Sha256.
Definition column_of (c : column) (row : Event) : string :=
  match c with
  | Organization => ev_Organization row | Project => ev_Project row | EventType => ev_EventType row
  | Direction => ev_Direction row | Provider => ev_Provider row | Bucket => ev_Bucket row | Sha256 => ev_SHA256 row
  end.
Inductive sql_arg := TextArg (s : string) | TimeArg (t : Z).
Inductive condition :=
  | ColumnIs (c : column)      (* c = ? *)
  | TimeFrom                   (* event_time >= ? *)
  | TimeTo                     (* event_time <= ? *)
  | ActorIs                    (* (actor_email = ? OR actor_subject = ?) *)
  | ScopeIs                    (* (organization = ? AND project = ?) *)
  | OrganizationIn (n : nat).  (* organization IN (?,...,?) *)
Definition placeholders (c : condition) : nat :=
  match c with ActorIs | ScopeIs => 2 | OrganizationIn n => n | _ => 1 end.
Definition text_is (s : string) (a : sql_arg) : bool := match a with TextArg t => String.eqb s t | TimeArg _ => false end.
Definition condition_holds (c : condition) (args : list sql_arg) (row : Event) : bool :=
  match c, args with
  | ColumnIs c, [a] => text_is (column_of c row) a
  | TimeFrom, [TimeArg t] => (t <=? ev_EventTime row)%Z
  | TimeTo, [TimeArg t] => (ev_EventTime row <=? t)%Z
  | ActorIs, [a; b] => text_is (ev_ActorEmail row) a || text_is (ev_ActorSubject row) b
  | ScopeIs, [a; b] => text_is (ev_Organization row) a && text_is (ev_Project row) b
  | OrganizationIn _, args => existsb (text_is (ev_Organization row)) args
  | _, _ => false
  end.
Fixpoint any_holds (cs : list condition) (args : list sql_arg) (row : Event) : bool :=
  match cs with
  | [] => false
  | c :: cs => condition_holds c (take (placeholders c) args) row || any_holds cs (drop (placeholders c) args) row
  end.
Fixpoint all_hold (css : list (list condition)) (args : list sql_arg) (row : Event) : bool :=
  match css with
  | [] => true
  | cs :: css => let n := sum_list_with placeholders cs in
                 any_holds cs (take n args) row && all_hold css (drop n args) row
  end.
Abbreviation query := (list (list condition) * list sql_arg)%type.
Definition selected (q : query) (rows : list Event) : list Event := filter (λ row, all_hold q.1 q.2 row = true) rows.

(** ** transferAttributionWhere *)
Definition add_text (c : column) (value : string) : list (condition * list sql_arg) :=
  if is_empty (TrimSpace value) then [] else [(ColumnIs c, [TextArg (TrimSpace value)])].
Definition filter_direction (filter : Filter) : string :=
  let direction := TrimSpace (f_Direction filter) in
  if is_empty direction then
    let e := TrimSpace (f_EventType filter) in
    if String.eqb e ProviderTransferDirectionDownload || String.eqb e ProviderTransferDirectionUpload then e else ""
  else direction.
Definition where_parts (filter : Filter) : list (condition * list sql_arg) :=
  add_text Organization (f_Organization filter) ++ add_text Project (f_Project filter)
  ++ (if String.eqb (TrimSpace (f_EventType filter)) "all" then [] else add_text EventType (f_EventType filter))
  ++ (let direction := filter_direction filter in
      if is_empty direction || String.eqb direction "all" then [] else [(ColumnIs Direction, [TextArg direction])])
  ++ (match f_From filter with Some t => [(TimeFrom, [TimeArg t])] | None => [] end)
  ++ (match f_To filter with Some t => [(TimeTo, [TimeArg t])] | None => [] end)
  ++ add_text Provider (f_Provider filter) ++ add_text Bucket (f_Bucket filter) ++ add_text Sha256 (f_SHA256 filter)
  ++ (let user := TrimSpace (f_User filter) in
      if is_empty user then [] else [(ActorIs, [TextArg user; TextArg user])]).
Definition transferAttributionWhere (filter : Filter) : query :=
  let parts := where_parts filter in ((λ p, [p.1]) <$> parts, concat parts.*2).

(** ** The clause for a list of resources *)
(** Organizations without project (each once) and projects, in the order of the resources. *)
Definition resource_scopes (resources : list string) : list (string * string) :=
  omap ResourceScope (NormalizeAccessResources resources).
Definition org_only (scopes : list (string * string)) : list string :=
  dedup (filter (λ s, s.2 = "") scopes).*1.
Definition with_project (scopes : list (string * string)) : list (string * string) := filter (λ s, s.2 ≠ "") scopes.
Definition sqliteTransferResourceClause (resources : list string) : list condition * list sql_arg :=
  let scopes := resource_scopes resources in
  let orgOnly := org_only scopes in
  let projects := with_project scopes in
  let args := (λ s, [TextArg s.1; TextArg s.2]) <$> projects in
  ((if decide (orgOnly = []) then [] else [OrganizationIn (length orgOnly)]) ++ replicate (length projects) ScopeIs,
   concat args ++ (TextArg <$> orgOnly)).
(** An empty clause stands for [1 = 0], the empty disjunction. *)
Definition transferAttributionWhereByResources (filter : Filter) (resources : list string) : query :=
  let '(where_, args) := transferAttributionWhere filter in
  let '(clause, clauseArgs) := sqliteTransferResourceClause resources in
  (where_ ++ [clause], args ++ clauseArgs).

(** PostgreSQL numbers its parameters, and takes the organizations as one array. *)
Inductive pg_arg := PgText (s : string) | PgArray (l : list string).
Inductive pg_condition := PgScopeIs (i j : nat) | PgOrganizationAny (i : nat).
Definition pg_scopes (startIndex : nat) (projects : list (string * string)) : list pg_condition :=
  imap (λ n _, PgScopeIs (startIndex + 2 * n) (startIndex + 2 * n + 1)) projects.
Definition postgresTransferResourceClause (resources : list string) (startIndex : nat) : list pg_condition * list pg_arg :=
  let scopes := resource_scopes resources in
  let orgOnly := org_only scopes in
  let projects := with_project scopes in
  let args := concat ((λ s, [PgText s.1; PgText s.2]) <$> projects) in
  if decide (orgOnly = []) then (pg_scopes startIndex projects, args)
  else (PgOrganizationAny (startIndex + length args) :: pg_scopes startIndex projects, args ++ [PgArray orgOnly]).
(** [$i] is the argument number [i], from 1. *)
Definition pg_is (s : string) (a : option pg_arg) : bool := match a with Some (PgText t) => String.eqb s t | _ => false end.
Definition pg_holds (args : list pg_arg) (row : Event) (c : pg_condition) : bool :=
  match c with
  | PgScopeIs i j => pg_is (ev_Organization row) (args !! (i - 1)) && pg_is (ev_Project row) (args !! (j - 1))
  | PgOrganizationAny i => match args !! (i - 1) with Some (PgArray l) => bool_decide (ev_Organization row ∈ l) | _ => false end
  end.

(** ** Summaries *)
(** SUM of integers fails when it leaves 64 bits; an empty SUM is NULL, which becomes 0. *)
Definition sql_add (acc : result error Z) (z : Z) : result error Z :=
  a ← acc; if bool_decide (int64 (a + z)) then Ok (a + z)%Z else Err (EText "integer overflow").
Definition sql_sum (l : list Z) : result error Z := foldl sql_add (Ok 0%Z) l.
Definition has_direction (direction : string) (row : Event) : bool := String.eqb (ev_Direction row) direction.
Definition count (p : Event → bool) (rows : list Event) : Z := Z.of_nat (length (List.filter p rows)).
Definition bytes_if (p : Event → bool) (rows : list Event) : list Z :=
  (λ row, if p row then ev_BytesRequested row else 0%Z) <$> rows.
Definition summary_of (rows : list Event) : result error Summary :=
  requested ← sql_sum (ev_BytesRequested <$> rows);
  downloaded ← sql_sum (bytes_if (has_direction ProviderTransferDirectionDownload) rows);
  uploaded ← sql_sum (bytes_if (has_direction ProviderTransferDirectionUpload) rows);
  Ok (mkSummary (Z.of_nat (length rows)) (count (λ row, String.eqb (ev_EventType row) TransferEventAccessIssued) rows)
        (count (has_direction ProviderTransferDirectionDownload) rows)
        (count (has_direction ProviderTransferDirectionUpload) rows) requested downloaded uploaded None).
Definition GetTransferAttributionSummary (db : AttributionDB) (filter : Filter) : result error Summary :=
  summary_of (selected (transferAttributionWhere filter) (transfer_attribution_event db)).
Definition GetTransferAttributionSummaryByResources (db : AttributionDB) (filter : Filter) (resources : list string)
  : result error Summary :=
  summary_of (selected (transferAttributionWhereByResources filter resources) (transfer_attribution_event db)).

(** ** Breakdowns *)
(** The columns that name a group: key, organization, project, provider, bucket, sha256, actor_email, actor_subject. *)
Record group := mkGroup { gr_by : list string; gr_key : string; gr_columns : list string }.
#[export] Instance group_eq_dec : EqDecision group.
Proof. solve_decision. Defined.
Definition transferAttributionGroupExpr (groupBy : string) (row : Event) : group :=
  let g := ToLower (TrimSpace groupBy) in
  let actor := coalesce (ev_ActorEmail row) (ev_ActorSubject row) in
  if String.eqb g "user" then
    mkGroup [actor; ev_ActorEmail row; ev_ActorSubject row] actor ["";"";"";"";""; ev_ActorEmail row; ev_ActorSubject row]
  else if String.eqb g "provider" then
    mkGroup [ev_Provider row; ev_Bucket row] (ev_Provider row +:+ ":" +:+ ev_Bucket row)
      ["";""; ev_Provider row; ev_Bucket row; "";"";""]
  else if String.eqb g "object" then mkGroup [ev_SHA256 row] (ev_SHA256 row) ["";"";"";""; ev_SHA256 row; "";""]
  else
    mkGroup [ev_Organization row; ev_Project row] (ev_Organization row +:+ "/" +:+ ev_Project row)
      [ev_Organization row; ev_Project row; "";"";"";"";""].
Fixpoint distinct {A} `{EqDecision A} (l : list A) : list A :=
  match l with [] => [] | x :: l => x :: filter (.≠ x) (distinct l) end.
Definition latest (times : list Z) : Z := foldr Z.max (default 0%Z (head times)) times.
Definition breakdown_of (g : group) (rows : list Event) : result error Breakdown :=
  requested ← sql_sum (ev_BytesRequested <$> rows);
  downloaded ← sql_sum (bytes_if (has_direction ProviderTransferDirectionDownload) rows);
  uploaded ← sql_sum (bytes_if (has_direction ProviderTransferDirectionUpload) rows);
  let last := latest (ev_EventTime <$> rows) in
  let col i := default "" (gr_columns g !! i) in
  Ok (mkBreakdown (gr_key g) (col 0) (col 1) (col 2) (col 3) (col 4) (col 5) (col 6)
        (Z.of_nat (length rows)) requested downloaded uploaded (if (last =? 0)%Z then None else Some last)).
Definition group_rows (groupBy : string) (rows : list Event) (g : group) : list Event :=
  filter (λ row, transferAttributionGroupExpr groupBy row = g) rows.
(** ORDER BY MAX(event_time) DESC, key ASC LIMIT 1000 *)
Definition reported_before (a b : Z * Breakdown) : bool :=
  if (a.1 =? b.1)%Z then String.ltb (bd_Key a.2) (bd_Key b.2) else (b.1 <? a.1)%Z.
Definition breakdown_rows (groupBy : string) (rows : list Event) : result error (list Breakdown) :=
  items ← mapM (λ g, let group := group_rows groupBy rows g in
                     item ← breakdown_of g group; Ok (latest (ev_EventTime <$> group), item))
            (distinct (transferAttributionGroupExpr groupBy <$> rows));
  Ok (take 1000 (sort_Slice reported_before items)).*2.
Definition GetTransferAttributionBreakdown (db : AttributionDB) (filter : Filter) (groupBy : string)
  : result error (list Breakdown) :=
  breakdown_rows groupBy (selected (transferAttributionWhere filter) (transfer_attribution_event db)).
Definition GetTransferAttributionBreakdownByResources (db : AttributionDB) (filter : Filter) (groupBy : string)
    (resources : list string) : result error (list Breakdown) :=
  breakdown_rows groupBy (selected (transferAttributionWhereByResources filter resources) (transfer_attribution_event db)).

(** * What the transfer reports count *)
(** ** The filter *)
Definition text_matches (value col : string) : Prop := TrimSpace value = "" ∨ col = TrimSpace value.
Definition direction_matches (filter : Filter) (row : Event) : Prop :=
  filter_direction filter = "" ∨ filter_direction filter = "all" ∨ ev_Direction row = filter_direction filter.
Record matches (filter : Filter) (row : Event) : Prop := {
  mt_scope : text_matches (f_Organization filter) (ev_Organization row) ∧ text_matches (f_Project filter) (ev_Project row);
  mt_type : TrimSpace (f_EventType filter) = "all" ∨ text_matches (f_EventType filter) (ev_EventType row);
  mt_direction : direction_matches filter row;
  mt_time : (∀ t, f_From filter = Some t → t <= ev_EventTime row)%Z ∧ (∀ t, f_To filter = Some t → ev_EventTime row <= t)%Z;
  mt_location : text_matches (f_Provider filter) (ev_Provider row) ∧ text_matches (f_Bucket filter) (ev_Bucket row);
  mt_object : text_matches (f_SHA256 filter) (ev_SHA256 row);
  mt_user : TrimSpace (f_User filter) = "" ∨ ev_ActorEmail row = TrimSpace (f_User filter) ∨ ev_ActorSubject row = TrimSpace (f_User filter) }.

(** Parts that carry as many arguments as they have question marks are bound to their own arguments. *)
Definition well_bound (p : condition * list sql_arg) : Prop := length p.2 = placeholders p.1.
Lemma all_hold_parts (parts : list (condition * list sql_arg)) rest args row :
  Forall well_bound parts →
  all_hold (((λ p, [p.1]) <$> parts) ++ rest) (concat parts.*2 ++ args) row
  = forallb (λ p, condition_holds p.1 p.2 row) parts && all_hold rest args row.
Proof.
  induction 1 as [|[c xs] parts Hw _ IH]; [done|]. unfold well_bound in Hw. simpl in Hw.
  cbn [fmap list_fmap app all_hold concat sum_list_with fst snd forallb]. rewrite Nat.add_0_r, <- Hw, <- (assoc_L (++)).
  rewrite take_app_length, drop_app_length. cbn [any_holds]. rewrite <- Hw, firstn_all, IH, orb_false_r. by rewrite andb_assoc.
Qed.
Lemma add_text_bound c value : Forall well_bound (add_text c value).
Proof. unfold add_text. case_match; by repeat constructor. Qed.
Lemma where_parts_bound filter : Forall well_bound (where_parts filter).
Proof.
  unfold where_parts. cbv zeta. rewrite !Forall_app. repeat split; try apply add_text_bound; repeat case_match; repeat constructor; apply add_text_bound.
Qed.
Definition part_holds (row : Event) (p : condition * list sql_arg) : bool := condition_holds p.1 p.2 row.
Lemma add_text_holds c value row :
  forallb (part_holds row) (add_text c value) = true ↔ text_matches value (column_of c row).
Proof.
  unfold add_text, text_matches. destruct (is_empty (TrimSpace value)) eqn:E.
  - apply is_empty_spec in E. simpl. split; [by left|done].
  - apply is_empty_false in E. unfold part_holds. simpl. rewrite andb_true_r, String.eqb_eq. split; [by right|by intros [?|?]].
Qed.
Lemma where_parts_holds filter row : forallb (part_holds row) (where_parts filter) = true ↔ matches filter row.
Proof.
  unfold where_parts. cbv zeta. rewrite !forallb_app, !andb_true_iff, !add_text_holds.
  assert (forallb (part_holds row) (if String.eqb (TrimSpace (f_EventType filter)) "all" then [] else add_text EventType (f_EventType filter)) = true
    ↔ TrimSpace (f_EventType filter) = "all" ∨ text_matches (f_EventType filter) (ev_EventType row)) as ->.
  { destruct (String.eqb_spec (TrimSpace (f_EventType filter)) "all") as [E|E]; [simpl; tauto|]. rewrite add_text_holds. simpl. tauto. }
  assert (forallb (part_holds row) (if is_empty (filter_direction filter) || String.eqb (filter_direction filter) "all" then []
      else [(ColumnIs Direction, [TextArg (filter_direction filter)])]) = true ↔ direction_matches filter row) as ->.
  { unfold direction_matches. destruct (is_empty _) eqn:E; [apply is_empty_spec in E; simpl; tauto|]. apply is_empty_false in E.
    destruct (String.eqb_spec (filter_direction filter) "all") as [Ea|Ea]; [simpl; tauto|].
    unfold part_holds. simpl. rewrite andb_true_r, String.eqb_eq. tauto. }
  assert (forallb (part_holds row) (match f_From filter with Some t => [(TimeFrom, [TimeArg t])] | None => [] end) = true
    ↔ ∀ t, f_From filter = Some t → (t <= ev_EventTime row)%Z) as ->.
  { destruct (f_From filter) as [t|]; unfold part_holds; simpl; [|naive_solver]. rewrite andb_true_r, Z.leb_le. naive_solver. }
  assert (forallb (part_holds row) (match f_To filter with Some t => [(TimeTo, [TimeArg t])] | None => [] end) = true
    ↔ ∀ t, f_To filter = Some t → (ev_EventTime row <= t)%Z) as ->.
  { destruct (f_To filter) as [t|]; unfold part_holds; simpl; [|naive_solver]. rewrite andb_true_r, Z.leb_le. naive_solver. }
  assert (forallb (part_holds row) (if is_empty (TrimSpace (f_User filter)) then []
      else [(ActorIs, [TextArg (TrimSpace (f_User filter)); TextArg (TrimSpace (f_User filter))])]) = true
    ↔ (TrimSpace (f_User filter) = "" ∨ ev_ActorEmail row = TrimSpace (f_User filter) ∨ ev_ActorSubject row = TrimSpace (f_User filter))) as ->.
  { destruct (is_empty _) eqn:E; [apply is_empty_spec in E; simpl; tauto|]. apply is_empty_false in E.
    unfold part_holds. simpl. rewrite andb_true_r, orb_true_iff, !String.eqb_eq. tauto. }
  split; [intros ?; destruct_and!; by split|intros []; destruct_and!; by split_and!].
Qed.
Lemma selected_where filter rest args rows row :
  row ∈ selected ((transferAttributionWhere filter).1 ++ rest, (transferAttributionWhere filter).2 ++ args) rows ↔
  row ∈ rows ∧ matches filter row ∧ all_hold rest args row = true.
Proof.
  unfold selected, transferAttributionWhere. cbn [fst snd]. rewrite list_elem_of_filter.
  rewrite all_hold_parts, andb_true_iff by apply where_parts_bound. pose proof (where_parts_holds filter row) as Hw.
  unfold part_holds in Hw. rewrite Hw. tauto.
Qed.

(** ** The clause of the resources *)
(** What the caller asked for: the rows of the organizations and projects of the list. *)
Definition covered (scopes : list (string * string)) (row : Event) : Prop :=
  ∃ s, s ∈ scopes ∧ s.1 = ev_Organization row ∧ (s.2 = "" ∨ s.2 = ev_Project row).
Lemma any_scopes (projects : list (string * string)) tail row :
  any_holds (replicate (length projects) ScopeIs) (concat ((λ s, [TextArg s.1; TextArg s.2]) <$> projects) ++ tail) row = true
  ↔ ∃ s, s ∈ projects ∧ s.1 = ev_Organization row ∧ s.2 = ev_Project row.
Proof.
  induction projects as [|[o p] projects IH]; [split; [done|by intros (s & ?%elem_of_nil & _)]|].
  cbn [length replicate fmap list_fmap concat app any_holds placeholders take drop fst snd condition_holds text_is].
  rewrite take_0, drop_0, orb_true_iff, IH, andb_true_iff, !String.eqb_eq. split.
  - intros [[-> ->]|(s & Hin & ? & ?)]; [by eexists; split; [left|]|exists s; split; [by right|done]].
  - intros (s & [->|Hin]%elem_of_cons & ? & ?); [by left|right; by exists s].
Qed.
Lemma existsb_text (l : list string) s : existsb (text_is s) (TextArg <$> l) = true ↔ s ∈ l.
Proof.
  induction l as [|x l IH]; [split; [done|by intros ?%elem_of_nil]|]. cbn [fmap list_fmap existsb text_is].
  rewrite orb_true_iff, IH, String.eqb_eq, elem_of_cons. tauto.
Qed.
Lemma elem_of_org_only scopes o : o ∈ org_only scopes ↔ (o, "") ∈ scopes.
Proof.
  unfold org_only. rewrite elem_of_dedup, list_elem_of_fmap. split.
  - by intros ([o' p] & -> & [Hp Hin]%list_elem_of_filter); simpl in *; subst.
  - intros Hin. exists (o, ""). split; [done|]. by apply list_elem_of_filter.
Qed.
Lemma covered_split scopes row :
  covered scopes row ↔ ev_Organization row ∈ org_only scopes ∨
    ∃ s, s ∈ with_project scopes ∧ s.1 = ev_Organization row ∧ s.2 = ev_Project row.
Proof.
  rewrite elem_of_org_only. unfold covered, with_project. split.
  - intros ([o p] & Hin & <- & Hp). simpl in *. destruct (decide (p = "")) as [->|Hne]; [by left|]. right. exists (o, p).
    rewrite list_elem_of_filter. naive_solver.
  - intros [Hin|(s & [Hne Hin]%list_elem_of_filter & <- & <-)]; [by eexists (_, ""); split; [done|]; split; [|left]|].
    exists s. split; [done|]. split; [done|by right].
Qed.
(** Only organizations, or only projects: then the arguments stand where the question marks are. *)
Definition of_one_kind (scopes : list (string * string)) : Prop := org_only scopes = [] ∨ with_project scopes = [].
Lemma clause_of_one_kind resources row :
  of_one_kind (resource_scopes resources) →
  any_holds (sqliteTransferResourceClause resources).1 (sqliteTransferResourceClause resources).2 row = true
  ↔ covered (resource_scopes resources) row.
Proof.
  intros Hk. rewrite covered_split. unfold sqliteTransferResourceClause. cbn [fst snd].
  set (scopes := resource_scopes resources) in *. clearbody scopes. destruct Hk as [E|E]; rewrite E.
  - rewrite decide_True by done. rewrite app_nil_l, any_scopes, elem_of_nil. tauto.
  - cbn [length replicate fmap list_fmap concat app]. rewrite app_nil_r. case_decide as Eo.
    + rewrite Eo. cbn. rewrite elem_of_nil. split; [done|]. by intros [?|(s & ?%elem_of_nil & _)].
    + cbn [any_holds placeholders condition_holds]. rewrite orb_false_r, firstn_all2 by by rewrite length_fmap.
      rewrite existsb_text. split; [by left|]. by intros [?|(s & ?%elem_of_nil & _)].
Qed.
Lemma select_by_resources filter resources rows row :
  row ∈ selected (transferAttributionWhereByResources filter resources) rows ↔
  row ∈ rows ∧ matches filter row ∧
  any_holds (sqliteTransferResourceClause resources).1
    (take (sum_list_with placeholders (sqliteTransferResourceClause resources).1) (sqliteTransferResourceClause resources).2) row = true.
Proof.
  unfold transferAttributionWhereByResources. destruct (sqliteTransferResourceClause resources) as [clause args] eqn:Ec.
  rewrite (surjective_pairing (transferAttributionWhere filter)). rewrite selected_where. cbn [all_hold fst snd]. by rewrite andb_true_r.
Qed.
Lemma sum_placeholders_scopes n : sum_list_with placeholders (replicate n ScopeIs) = 2 * n.
Proof. induction n as [|n IH]; [done|]. cbn [replicate sum_list_with placeholders]. lia. Qed.
Lemma length_concat_pairs {A B} (f g : A → B) (l : list A) : length (concat ((λ s, [f s; g s]) <$> l)) = 2 * length l.
Proof. induction l as [|x l IH]; [done|]. cbn [fmap list_fmap concat length app]. lia. Qed.
Lemma clause_bound resources :
  sum_list_with placeholders (sqliteTransferResourceClause resources).1 = length (sqliteTransferResourceClause resources).2.
Proof.
  unfold sqliteTransferResourceClause. cbn [fst snd]. rewrite sum_list_with_app, sum_placeholders_scopes, length_app, length_fmap.
  rewrite length_concat_pairs. case_decide as E; [rewrite E|]; cbn [sum_list_with placeholders length]; lia.
Qed.
Lemma select_by_resources' filter resources rows row :
  row ∈ selected (transferAttributionWhereByResources filter resources) rows ↔
  row ∈ rows ∧ matches filter row ∧
  any_holds (sqliteTransferResourceClause resources).1 (sqliteTransferResourceClause resources).2 row = true.
Proof. by rewrite select_by_resources, clause_bound, firstn_all. Qed.

(** PostgreSQL finds every argument under its number. *)
Lemma pg_scopes_hold (args : list pg_arg) prefix (projects : list (string * string)) tail row :
  args = prefix ++ concat ((λ s, [PgText s.1; PgText s.2]) <$> projects) ++ tail →
  existsb (pg_holds args row) (pg_scopes (S (length prefix)) projects) = true
  ↔ ∃ s, s ∈ projects ∧ s.1 = ev_Organization row ∧ s.2 = ev_Project row.
Proof.
  unfold pg_scopes. revert prefix. induction projects as [|[o p] projects IH]; intros prefix E.
  - split; [done|by intros (s & ?%elem_of_nil & _)].
  - cbn [imap existsb]. rewrite orb_true_iff.
    replace (imap _ projects) with (imap (λ n (_ : string * string), PgScopeIs (S (length (prefix ++ [PgText o; PgText p])) + 2 * n)
        (S (length (prefix ++ [PgText o; PgText p])) + 2 * n + 1)) projects).
    2: { apply imap_ext. intros n s _. unfold compose. rewrite !length_app. cbn [length]. f_equal; lia. }
    rewrite IH by (rewrite E; cbn [fmap list_fmap concat fst snd]; by rewrite <- !(assoc_L (++))).
    cbn [pg_holds]. rewrite E. cbn [fmap list_fmap concat fst snd app].
    assert (S (length prefix) + 2 * 0 - 1 = length prefix) as -> by lia.
    assert (S (length prefix) + 2 * 0 + 1 - 1 = S (length prefix)) as -> by lia.
    rewrite list_lookup_middle by done. rewrite lookup_app_r, Nat.sub_succ_l, Nat.sub_diag by lia. cbn [lookup list_lookup pg_is].
    rewrite andb_true_iff, !String.eqb_eq. split.
    + intros [[-> ->]|(s & Hin & ? & ?)]; [by eexists; split; [left|]|exists s; split; [by right|done]].
    + intros (s & [->|Hin]%elem_of_cons & ? & ?); [by left|right; by exists s].
Qed.
Lemma postgres_clause resources prefix row :
  let '(clause, args) := postgresTransferResourceClause resources (S (length prefix)) in
  existsb (pg_holds (prefix ++ args) row) clause = true ↔ covered (resource_scopes resources) row.
Proof.
  unfold postgresTransferResourceClause. set (scopes := resource_scopes resources).
  set (args := concat _). case_decide as E; cbv beta iota; rewrite covered_split.
  - rewrite E, elem_of_nil, (pg_scopes_hold _ prefix (with_project scopes) []) by (unfold args; by rewrite app_nil_r). tauto.
  - cbn [existsb]. rewrite orb_true_iff, (pg_scopes_hold _ prefix (with_project scopes) [PgArray (org_only scopes)]) by done.
    apply or_iff_compat_r. cbn [pg_holds]. rewrite (assoc_L (++)). rewrite lookup_app_r by (rewrite length_app; lia).
    replace (_ - _) with 0 by (rewrite length_app; lia). cbn [lookup list_lookup]. by rewrite bool_decide_eq_true.
Qed.
(** The rows that a query for resources reads are those of the resources that also match the filter: with PostgreSQL
    always, with SQLite as long as the resources are all organizations or all projects. *)
Theorem resource_query_exact filter resources rows prefix :
  (of_one_kind (resource_scopes resources) → ∀ row,
    row ∈ selected (transferAttributionWhereByResources filter resources) rows ↔
    row ∈ rows ∧ matches filter row ∧ covered (resource_scopes resources) row) ∧
  (∀ row, let '(clause, args) := postgresTransferResourceClause resources (S (length prefix)) in
    existsb (pg_holds (prefix ++ args) row) clause = true ↔ covered (resource_scopes resources) row).
Proof.
  split; [|intros row; apply postgres_clause].
  intros Hk row. rewrite select_by_resources', clause_of_one_kind by done. tauto.
Qed.

(** ** An organization together with a project *)
Lemma scopes_of_mixed a b p :
  plain_name a → plain_name b → plain_name p → resource_scopes [canon_org a; canon_project b p] = [(a, ""); (b, p)].
Proof.
  intros Ha Hb Hp. unfold resource_scopes. rewrite NormalizeAccessResources_id.
  - cbn [omap list_omap]. rewrite (ResourceScope_org _ a (Normalize_canon_org a Ha)) by by apply plain_name_path_name.
    by rewrite (ResourceScope_project _ b p (Normalize_canon_project b p Hb Hp)) by by apply plain_name_path_name.
  - apply NoDup_cons. split; [|apply NoDup_singleton]. intros E%list_elem_of_singleton. by apply canon_org_project_ne in E.
  - repeat constructor; [by apply Normalize_canon_org|done|by apply Normalize_canon_project|done].
Qed.
(** SQLite binds the arguments of the projects first, but the condition on the organizations stands first: a caller who
    may read organization [a] and project [p] of [b] reads all of organization [b], and project [a] of organization [p]. *)
Theorem mixed_resources_misbind filter a b p rows row :
  plain_name a → plain_name b → plain_name p →
  row ∈ selected (transferAttributionWhereByResources filter [canon_org a; canon_project b p]) rows ↔
  row ∈ rows ∧ matches filter row ∧ (ev_Organization row = b ∨ (ev_Organization row = p ∧ ev_Project row = a)).
Proof.
  intros Ha Hb Hp. rewrite select_by_resources'. unfold sqliteTransferResourceClause. rewrite scopes_of_mixed by done.
  assert (p ≠ "") as Hne by apply Hp. assert (org_only [(a, ""); (b, p)] = [a]) as ->.
  { unfold org_only. rewrite filter_cons_True, filter_cons_False by done. reflexivity. }
  assert (with_project [(a, ""); (b, p)] = [(b, p)]) as ->.
  { unfold with_project. rewrite filter_cons_False, filter_cons_True by (simpl; tauto). reflexivity. }
  rewrite decide_False by done. cbn. rewrite !orb_false_r, orb_true_iff, andb_true_iff, !String.eqb_eq. tauto.
Qed.

(** ** Witnesses *)
Definition sample_row (id org project : string) (bytes : Z) : Event :=
  mkEvent id "g" "access_issued" "download" 5 "r1" "o1" "abc" 10 org project "s3" "s3" "b" "s3://b/k" None None bytes 0
    "ada@x" "ada" "local" "" "" "".
Definition any_filter : Filter := mkFilter "" "" "" "" None None "" "" "" "" "".
Lemma any_filter_matches row : matches any_filter row.
Proof. split; simpl; unfold text_matches, direction_matches; simpl; auto; by split. Qed.
Lemma resource_query_exact_witness :
  sample_row "e1" "a" "q" 1 ∈ selected (transferAttributionWhereByResources any_filter ["/organization/a"; "/organization/b"])
    [sample_row "e1" "a" "q" 1; sample_row "e2" "c" "" 2].
Proof.
  destruct (resource_query_exact any_filter ["/organization/a"; "/organization/b"]
    [sample_row "e1" "a" "q" 1; sample_row "e2" "c" "" 2] []) as [Hs _]. apply (proj2 (Hs ltac:(right; by vm_compute) _)).
  - split; [left|]. split; [apply any_filter_matches|]. exists ("a", ""). split_and!; [by apply (bool_decide_unpack _); vm_compute|done|by left].
Defined.
Lemma mixed_resources_misbind_witness :
  sample_row "e1" "b" "secret" 1 ∈ selected (transferAttributionWhereByResources any_filter [canon_org "a"; canon_project "b" "p"])
    [sample_row "e1" "b" "secret" 1] ∧
  sample_row "e2" "a" "" 1 ∉ selected (transferAttributionWhereByResources any_filter [canon_org "a"; canon_project "b" "p"])
    [sample_row "e2" "a" "" 1].
Proof.
  assert (plain_name "a" ∧ plain_name "b" ∧ plain_name "p") as (Ha & Hb & Hp) by (split_and!; by apply (bool_decide_unpack _); vm_compute).
  pose proof (λ rows row, mixed_resources_misbind any_filter "a" "b" "p" rows row Ha Hb Hp) as Hm. split.
  - apply (proj2 (Hm _ _)). split; [left|]. split; [apply any_filter_matches|]. by left.
  - intros Hin. apply (proj1 (Hm _ _)) in Hin. destruct Hin as (_ & _ & [E|[E _]]); vm_compute in E; discriminate E.
Defined.
