(* ===== verification/FileUsage.v ===== *)
(** * File usage reports of the SQLite store: internal/persistence/sqlite/usage_accounting.go
    A report first adds the pending events to the counters, in a transaction of its own at the instant [now], and then
    reads; so it returns the new database too.  Instants are nanoseconds since Go's zero time. *)
From S2P Require Import Prelude GoStrings GoURL Errors Resources Policy Objects ContentStore ContentReads Buckets Attribution Reports.
Record FileUsage := mkFileUsage {
  fu_ObjectID : string; fu_Name : string; fu_Size : Z; fu_UploadCount : Z; fu_DownloadCount : Z;
  fu_LastUploadTime : option Z; fu_LastDownloadTime : option Z; fu_LastAccessTime : option Z }.
Record FileUsageSummary := mkFileUsageSummary {
  fs_TotalFiles : Z; fs_TotalUploads : Z; fs_TotalDownloads : Z; fs_InactiveFileCount : Z; fs_RecordCount : Z;
  fs_RecordLatestUpdatedTime : option Z }.
Definition empty_usage_summary : FileUsageSummary := mkFileUsageSummary 0 0 0 0 0 None.
#[export] Instance FileUsage_eq_dec : EqDecision FileUsage.
Proof. solve_decision. Defined.

Definition latestTime (ts : list (option Z)) : option Z :=
  foldl (λ latest t, match t, latest with
                     | None, _ => latest
                     | Some t, None => Some t
                     | Some t, Some l => if (l <? t)%Z then Some t else latest
                     end) None ts.

Section usage.
Context `{MapOrder}.

(** The ids with pending events come in table order, each once. *)
Definition flushObjectUsageEvents (now : Z) (db : DB) : DB :=
  flushObjectUsageEventsForIDsTx now db
    (dedup (filter (λ id, is_Some (drs_object db !! id)) (usage_event db).*1)).
Definition record_usage_event (t : usage_event_type) (now : Z) (objectID : string) (db : DB) : DB :=
  set_usage db (object_usage db) (usage_event db ++ [(objectID, (t, now))]).
Definition RecordFileUpload (now : Z) (objectID : string) (db : DB) : DB := record_usage_event UploadEvent now objectID db.
Definition RecordFileDownload (now : Z) (objectID : string) (db : DB) : DB := record_usage_event DownloadEvent now objectID db.

(** One row of drs_object o LEFT JOIN object_usage u. *)
Definition usage_of (db : DB) (id : string) (o : object_row) : FileUsage :=
  match object_usage db !! id with
  | Some u => mkFileUsage id (o_name o) (o_size o) (u_upload_count u) (u_download_count u) (u_last_upload u) (u_last_download u)
                (latestTime [u_last_upload u; u_last_download u])
  | None => mkFileUsage id (o_name o) (o_size o) 0 0 None None None
  end.
Definition usage_rows (db : DB) (p : string → bool) : list FileUsage :=
  omap (λ id, usage_of db id <$> drs_object db !! id) (select_ids db p).

Definition GetFileUsage (now : Z) (objectID : string) (db : DB) : DB * result error FileUsage :=
  let db := flushObjectUsageEvents now db in
  (db, match drs_object db !! objectID with
       | Some o => Ok (usage_of db objectID o)
       | None => Err (EDef ErrFileUsageNotFound)
       end).
Definition ListFileUsageByObjectIDs (now : Z) (ids : list string) (db : DB) : DB * list FileUsage :=
  match ids with
  | [] => (db, [])
  | _ => let db := flushObjectUsageEvents now db in
         (db, concat ((λ chunk, usage_rows db (λ id, bool_decide (id ∈ chunk))) <$> chunks_of (length ids) sqliteMaxParams ids))
  end.

(** Not downloaded since the instant that is bound to the question mark. *)
Definition year1970 : Z := (62135596800 * 10 ^ 9)%Z.
Definition older_than (cutoff : Z) (u : FileUsage) : bool :=
  match fu_LastDownloadTime u with None => true | Some t => (t <? cutoff)%Z end.
(** ORDER BY COALESCE(u.last_download_time, '1970-01-01T00:00:00Z') ASC, o.id ASC *)
Definition used_before (a b : FileUsage) : bool :=
  let ta := default year1970 (fu_LastDownloadTime a) in
  let tb := default year1970 (fu_LastDownloadTime b) in
  if (ta =? tb)%Z then String.ltb (fu_ObjectID a) (fu_ObjectID b) else (ta <? tb)%Z.
Definition usage_page (limit offset : Z) (rows : list FileUsage) : list FileUsage :=
  take (Z.to_nat limit) (drop (Z.to_nat offset) (sort_Slice used_before rows)).
Definition ListFileUsage (now limit offset : Z) (inactiveSince : option Z) (db : DB) : DB * list FileUsage :=
  let db := flushObjectUsageEvents now db in
  let limit := if (limit <=? 0)%Z then 200%Z else limit in
  let limit := if (1000 <? limit)%Z then 1000%Z else limit in
  let offset := if (offset <? 0)%Z then 0%Z else offset in
  (db, usage_page limit offset
         (filter (λ u, match inactiveSince with Some t => older_than t u | None => true end = true) (usage_rows db (λ _, true)))).

(** ** Queries for resources *)
(** How the driver writes an instant into the database, and how a column of text compares with an argument. *)
Definition sqlite_time (t : Z) : string :=
  let secs := (t / 10 ^ 9)%Z in
  let nanos := (t mod 10 ^ 9)%Z in
  let day := (secs mod 86400)%Z in
  let '(y, m, d) := civil (secs / 86400) in
  let fraction := if (nanos =? 0)%Z then "" else "." +:+ TrimRight (pad 9 nanos) "0" in
  pad 4 y +:+ "-" +:+ pad 2 m +:+ "-" +:+ pad 2 d +:+ " " +:+ pad 2 (day / 3600) +:+ ":" +:+ pad 2 (day / 60 mod 60)
  +:+ ":" +:+ pad 2 (day mod 60) +:+ fraction +:+ "+00:00".
Definition bound_text (a : sql_arg) : string := match a with TextArg s => s | TimeArg t => sqlite_time t end.
Definition time_before (t : Z) (a : sql_arg) : bool :=
  match a with TimeArg t' => (t <? t')%Z | TextArg s => String.ltb (sqlite_time t) s end.
Definition inactive_row (a : sql_arg) (u : FileUsage) : bool :=
  match fu_LastDownloadTime u with None => true | Some t => time_before t a end.

(** The question marks of the query text in order: the cutoff of the SELECT clause (summaries), one for each resource,
    the cutoff of the WHERE clause (pages).  The arguments are bound to them in order. *)
Record usage_query := mkUsageQuery {
  uq_select_cutoff : bool; uq_resources : nat; uq_unscoped : bool; uq_where_cutoff : bool; uq_args : list sql_arg }.
Definition sqliteScopedFileUsageQuery (resources : list string) (includeUnscoped : bool) (inactiveSince : option Z)
    (summary : bool) : usage_query :=
  let cutoff := match inactiveSince with Some t => [TimeArg t] | None => [] end in
  mkUsageQuery (summary && bool_decide (is_Some inactiveSince)) (length resources) includeUnscoped
    (negb summary && bool_decide (is_Some inactiveSince)) ((TextArg <$> resources) ++ cutoff).
Definition uq_select_args (q : usage_query) : list sql_arg := take (if uq_select_cutoff q then 1 else 0) (uq_args q).
Definition uq_resource_args (q : usage_query) : list sql_arg :=
  take (uq_resources q) (drop (if uq_select_cutoff q then 1 else 0) (uq_args q)).
Definition uq_where_args (q : usage_query) : list sql_arg :=
  if uq_where_cutoff q then drop (uq_resources q + if uq_select_cutoff q then 1 else 0) (uq_args q) else [].
Definition uq_object (db : DB) (q : usage_query) (id : string) : bool :=
  has_grant db (λ resource, existsb (λ a, String.eqb resource (bound_text a)) (uq_resource_args q)) id
  || (uq_unscoped q && unscoped db id).
(** FROM drs_object o LEFT JOIN object_usage u ... WHERE ... *)
Definition uq_rows (db : DB) (q : usage_query) : list FileUsage :=
  filter (λ u, match uq_where_args q with a :: _ => inactive_row a u | [] => true end = true) (usage_rows db (uq_object db q)).

Definition listScopedFileUsagePage (now : Z) (resources : list string) (includeUnscoped : bool) (limit offset : Z)
    (inactiveSince : option Z) (db : DB) : DB * list FileUsage :=
  let db := flushObjectUsageEvents now db in
  let offset := if (offset <? 0)%Z then 0%Z else offset in
  let resources := NormalizeAccessResources resources in
  if (limit <=? 0)%Z || (bool_decide (resources = []) && negb includeUnscoped) then (db, [])
  else (db, usage_page limit offset (uq_rows db (sqliteScopedFileUsageQuery resources includeUnscoped inactiveSince false))).
Definition summarize (inactive : FileUsage → bool) (rows : list FileUsage) : result error FileUsageSummary :=
  uploads ← sql_sum (fu_UploadCount <$> rows);
  downloads ← sql_sum (fu_DownloadCount <$> rows);
  Ok (mkFileUsageSummary (Z.of_nat (length rows)) uploads downloads (Z.of_nat (length (List.filter inactive rows))) 0 None).
Definition getScopedFileUsageSummary (now : Z) (resources : list string) (includeUnscoped : bool) (inactiveSince : option Z)
    (db : DB) : DB * result error FileUsageSummary :=
  let db := flushObjectUsageEvents now db in
  let resources := NormalizeAccessResources resources in
  if bool_decide (resources = []) && negb includeUnscoped then (db, Ok empty_usage_summary)
  else
    let q := sqliteScopedFileUsageQuery resources includeUnscoped inactiveSince true in
    (db, summarize (λ u, match uq_select_args q with a :: _ => inactive_row a u | [] => false end) (uq_rows db q)).
Definition GetFileUsageSummary (now : Z) (inactiveSince : option Z) (db : DB) : DB * result error FileUsageSummary :=
  let db := flushObjectUsageEvents now db in
  let cutoff := default (now - 730 * 86400 * 10 ^ 9)%Z inactiveSince in
  (db, summarize (older_than cutoff) (usage_rows db (λ _, true))).

(** The scope is refused before anything is read. *)
Definition at_scope {A} (organization project : string) (f : string → DB → DB * result error A) (db : DB) : DB * result error A :=
  match ResourcePath (TrimSpace organization) (TrimSpace project) with
  | Err e => (db, Err e)
  | Ok resource => f resource db
  end.
Definition ListFileUsagePageByScope (now : Z) (organization project : string) (limit offset : Z) (inactiveSince : option Z) (db : DB)
  : DB * result error (list FileUsage) :=
  at_scope organization project (λ resource db,
    let '(db, rows) := listScopedFileUsagePage now [resource] false limit offset inactiveSince db in (db, Ok rows)) db.
Definition ListFileUsagePageByResources (now : Z) (resources : list string) (includeUnscoped : bool) (limit offset : Z)
    (inactiveSince : option Z) (db : DB) : DB * list FileUsage :=
  listScopedFileUsagePage now resources includeUnscoped limit offset inactiveSince db.
Definition GetFileUsageSummaryByScope (now : Z) (organization project : string) (inactiveSince : option Z) (db : DB)
  : DB * result error FileUsageSummary :=
  at_scope organization project (λ resource db, getScopedFileUsageSummary now [resource] false inactiveSince db) db.
Definition GetFileUsageSummaryByResources (now : Z) (resources : list string) (includeUnscoped : bool) (inactiveSince : option Z)
    (db : DB) : DB * result error FileUsageSummary :=
  getScopedFileUsageSummary now resources includeUnscoped inactiveSince db.
Definition GetProjectRecordSummaryByScope (organization project : string) (db : DB) : DB * result error FileUsageSummary :=
  at_scope organization project (λ resource db,
    let updated := omap (λ id, o_updated <$> drs_object db !! id) (select_ids db (has_grant db (String.eqb resource))) in
    let last := latest updated in
    (db, Ok (mkFileUsageSummary 0 0 0 0 (Z.of_nat (length updated)) (if bool_decide (updated = []) || (last =? 0)%Z then None else Some last)))) db.
End usage.

(** * What the file usage reports count *)
From S2P Require Import ContentInvariant ContentProperties.
(** ** Pending events *)
Lemma flush_events now db ids :
  usage_event (flushObjectUsageEventsForIDsTx now db ids) = filter (λ e : string * (usage_event_type * Z), e.1 ∉ ids) (usage_event db).
Proof.
  unfold flushObjectUsageEventsForIDsTx. generalize (le_n (length ids)). generalize (length ids) at 2 3 as n. intros n.
  revert db ids. induction n as [|n IH]; intros db ids Hn.
  - destruct ids; [|simpl in Hn; lia]. symmetry. apply filter_all_True. intros e _. apply not_elem_of_nil.
  - destruct ids as [|i ids]; [symmetry; apply filter_all_True; intros e _; apply not_elem_of_nil|].
    cbn -[flushObjectUsageEventsForIDChunkTx sqliteMaxParams take drop].
    rewrite IH by (rewrite length_drop; assert (0 < sqliteMaxParams - 1) by (apply Nat.ltb_lt; by vm_compute); simpl in Hn |- *; lia).
    unfold flushObjectUsageEventsForIDChunkTx. cbn [usage_event set_usage]. rewrite list_filter_filter. apply list_filter_iff.
    intros e. rewrite <- (take_drop (sqliteMaxParams - 1) (i :: ids)) at 3. rewrite not_elem_of_app. tauto.
Qed.
Lemma flush_all_objects now db : drs_object (flushObjectUsageEvents now db) = drs_object db.
Proof. unfold flushObjectUsageEvents. apply (flush_effect now db). Qed.
Lemma flush_all_grants now db : controlled_access (flushObjectUsageEvents now db) = controlled_access db.
Proof. unfold flushObjectUsageEvents. apply (flush_effect now db). Qed.
Lemma flush_all_pending now db id :
  is_Some (drs_object db !! id) → id ∉ (usage_event (flushObjectUsageEvents now db)).*1.
Proof.
  intros Hid ([i e] & -> & Hin)%list_elem_of_fmap. unfold flushObjectUsageEvents in Hin. rewrite flush_events in Hin.
  apply list_elem_of_filter in Hin as [Hn Hin]. simpl in *. apply Hn. apply elem_of_dedup, list_elem_of_filter. split; [done|].
  apply list_elem_of_fmap. by exists (i, e).
Qed.
(** What a flush leaves pending belongs to no object, so that a second flush does nothing. *)
Lemma flush_all_idemp now now' db : flushObjectUsageEvents now' (flushObjectUsageEvents now db) = flushObjectUsageEvents now db.
Proof.
  unfold flushObjectUsageEvents at 1. rewrite filter_all_False; [done|].
  intros id Hin Hs. rewrite flush_all_objects in Hs. by apply (flush_all_pending now db id).
Qed.

Section usage.
Context `{MapOrder}.
Lemma usage_of_counts db id o :
  id ∉ (usage_event db).*1 →
  fu_UploadCount (usage_of db id o) = total_usage UploadEvent db id ∧
  fu_DownloadCount (usage_of db id o) = total_usage DownloadEvent db id.
Proof.
  intros Hn. unfold usage_of, total_usage. rewrite !count_events_none by done.
  destruct (object_usage db !! id); simpl; lia.
Qed.
Lemma total_usage_record t t' now id db :
  total_usage t (record_usage_event t' now id db) id = (total_usage t db id + if decide (t' = t) then 1 else 0)%Z.
Proof.
  unfold total_usage, record_usage_event. cbn [object_usage set_usage usage_event]. unfold count_events. rewrite filter_app, length_app.
  rewrite filter_cons, filter_nil. destruct (decide (t' = t)) as [->|Hne]; [rewrite decide_True by done|rewrite decide_False by by intros [_ ?]];
    cbn [length]; lia.
Qed.
Lemma GetFileUsage_counts now id db db' fu :
  GetFileUsage now id db = (db', Ok fu) →
  db' = flushObjectUsageEvents now db ∧ (∃ o, drs_object db !! id = Some o ∧ fu = usage_of db' id o) ∧
  fu_UploadCount fu = total_usage UploadEvent db id ∧ fu_DownloadCount fu = total_usage DownloadEvent db id.
Proof.
  unfold GetFileUsage. cbv zeta. intros [= <- E]. rewrite flush_all_objects in E. destruct (drs_object db !! id) as [o|] eqn:Eo; [|done].
  injection E as <-. split; [done|]. split; [by exists o|].
  destruct (usage_of_counts (flushObjectUsageEvents now db) id o) as [-> ->]; [apply flush_all_pending; by eexists|].
  unfold flushObjectUsageEvents. rewrite !flush_conserves_usage by (by apply elem_of_dom; eexists). done.
Qed.
(** A report counts every recorded upload and download of the object, whether flushed before or not; asking again gives
    the same answer, and one more download makes it one more. *)
Theorem file_usage_counts now id db db' fu :
  GetFileUsage now id db = (db', Ok fu) →
  fu_UploadCount fu = total_usage UploadEvent db id ∧ fu_DownloadCount fu = total_usage DownloadEvent db id ∧
  (∀ now', GetFileUsage now' id db' = (db', Ok fu)) ∧
  ∀ t now', ∃ db2 fu2, GetFileUsage now' id (RecordFileDownload t id db') = (db2, Ok fu2) ∧
    fu_DownloadCount fu2 = (fu_DownloadCount fu + 1)%Z ∧ fu_UploadCount fu2 = fu_UploadCount fu.
Proof.
  intros E. pose proof (GetFileUsage_counts _ _ _ _ _ E) as (-> & (o & Ho & ->) & Hu & Hd). split_and!; [done|done| |].
  - intros now'. unfold GetFileUsage. cbv zeta. by rewrite flush_all_idemp, flush_all_objects, Ho.
  - intros t now'. set (db1 := RecordFileDownload t id (flushObjectUsageEvents now db)).
    assert (drs_object db1 !! id = Some o) as Ho1 by (unfold db1; cbn; by rewrite flush_all_objects).
    eexists _, (usage_of (flushObjectUsageEvents now' db1) id o).
    assert (GetFileUsage now' id db1 = (flushObjectUsageEvents now' db1, Ok (usage_of (flushObjectUsageEvents now' db1) id o))) as E1.
    { unfold GetFileUsage. cbv zeta. by rewrite flush_all_objects, Ho1. }
    split; [exact E1|]. apply GetFileUsage_counts in E1 as (_ & _ & -> & ->). unfold db1, RecordFileDownload.
    rewrite !total_usage_record, Hu, Hd, decide_True, decide_False by done.
    unfold flushObjectUsageEvents. rewrite !flush_conserves_usage by (by apply elem_of_dom; eexists). lia.
Qed.

(** ** Reports for resources *)
Definition in_resources (db : DB) (resources : list string) (includeUnscoped : bool) (id : string) : Prop :=
  (∃ r, r ∈ NormalizeAccessResources resources ∧ (id, r) ∈ controlled_access db) ∨
  (includeUnscoped = true ∧ id ∉ (controlled_access db).*1).
Definition inactive_at (inactiveSince : option Z) (u : FileUsage) : Prop :=
  ∀ t, inactiveSince = Some t → older_than t u = true.
Lemma has_grant_true db p id : has_grant db p id = true ↔ ∃ r, p r = true ∧ (id, r) ∈ controlled_access db.
Proof.
  unfold has_grant. rewrite existsb_exists. split.
  - intros (r & Hin%list_elem_of_In%elem_of_rows_of & Hp). by exists r.
  - intros (r & Hp & Hin). exists r. by rewrite <- list_elem_of_In, elem_of_rows_of.
Qed.
Lemma unscoped_true db id : unscoped db id = true ↔ id ∉ (controlled_access db).*1.
Proof.
  unfold unscoped. rewrite negb_true_iff, <- not_true_iff_false, has_grant_true, list_elem_of_fmap. split.
  - intros Hn ([i r] & -> & Hin). apply Hn. by exists r.
  - intros Hn (r & _ & Hin). apply Hn. by exists (id, r).
Qed.
Lemma elem_of_usage_rows db p fu :
  fu ∈ usage_rows db p ↔ ∃ id o, drs_object db !! id = Some o ∧ p id = true ∧ fu = usage_of db id o.
Proof.
  unfold usage_rows, select_ids. rewrite list_elem_of_omap. split.
  - intros (id & Hin & E). apply fmap_Some in E as (o & Ho & ->). rewrite elem_of_sort_Strings, list_elem_of_fmap in Hin.
    destruct Hin as ([i o'] & -> & [Hp _]%list_elem_of_filter). by exists i, o.
  - intros (id & o & Ho & Hp & ->). exists id. rewrite Ho. split; [|done]. rewrite elem_of_sort_Strings, list_elem_of_fmap.
    exists (id, o). split; [done|]. rewrite list_elem_of_filter, elem_of_go_range. done.
Qed.
Lemma fu_ObjectID_usage_of db id o : fu_ObjectID (usage_of db id o) = id.
Proof. unfold usage_of. by destruct (object_usage db !! id). Qed.
Lemma NoDup_usage_rows db p : NoDup (fu_ObjectID <$> usage_rows db p).
Proof.
  assert (NoDup (select_ids db p)) as Hnd.
  { unfold select_ids. apply NoDup_sort_Strings. eapply sublist_NoDup; [apply (NoDup_fst_go_range (drs_object db))|].
    apply fmap_sublist, sublist_filter. }
  unfold usage_rows. induction Hnd as [|id l Hn _ IH]; [constructor|]. cbn [omap list_omap].
  destruct (drs_object db !! id) as [o|] eqn:Eo; [|done]. cbn [fmap option_fmap option_map]. rewrite fmap_cons. constructor; [|done].
  rewrite fu_ObjectID_usage_of. intros (fu & Ei & (i & Hi & E)%list_elem_of_omap)%list_elem_of_fmap.
  destruct (drs_object db !! i); [|done]. injection E as <-. rewrite fu_ObjectID_usage_of in Ei. by subst.
Qed.
Lemma text_args_match (resources : list string) r :
  existsb (λ a, String.eqb r (bound_text a)) (TextArg <$> resources) = true ↔ r ∈ resources.
Proof.
  induction resources as [|x l IH]; [split; [done|by intros ?%elem_of_nil]|]. cbn [fmap list_fmap existsb bound_text].
  rewrite orb_true_iff, IH, String.eqb_eq, elem_of_cons. tauto.
Qed.
(** Whose arguments stand where the question marks are: pages, and summaries without a cutoff. *)
Lemma uq_rows_exact db resources includeUnscoped inactiveSince summary fu :
  (summary = true → inactiveSince = None) →
  let q := sqliteScopedFileUsageQuery (NormalizeAccessResources resources) includeUnscoped inactiveSince summary in
  fu ∈ uq_rows db q ↔
  ∃ id o, drs_object db !! id = Some o ∧ in_resources db resources includeUnscoped id ∧ fu = usage_of db id o ∧ inactive_at inactiveSince fu.
Proof.
  intros Hs q. assert (uq_select_cutoff q = false) as Esel.
  { unfold q. cbn. destruct summary; [by rewrite Hs|done]. }
  assert (∀ id, uq_object db q id = true ↔ in_resources db resources includeUnscoped id) as Hobj.
  { intros id. unfold uq_object. rewrite orb_true_iff, andb_true_iff, has_grant_true, unscoped_true. unfold in_resources.
    assert (uq_resource_args q = TextArg <$> NormalizeAccessResources resources) as ->.
    { unfold uq_resource_args. rewrite Esel. unfold q. cbn [uq_args uq_resources sqliteScopedFileUsageQuery]. rewrite drop_0.
      rewrite <- (length_fmap TextArg (NormalizeAccessResources resources)). apply take_app_length. }
    setoid_rewrite text_args_match. done. }
  unfold uq_rows. rewrite list_elem_of_filter, elem_of_usage_rows. setoid_rewrite Hobj.
  assert ((match uq_where_args q with a :: _ => inactive_row a fu | [] => true end = true) ↔ inactive_at inactiveSince fu) as ->.
  { unfold uq_where_args. rewrite Esel. unfold q. cbn [uq_args uq_resources uq_where_cutoff sqliteScopedFileUsageQuery].
    rewrite Nat.add_0_r, <- (length_fmap TextArg (NormalizeAccessResources resources)), drop_app_length. unfold inactive_at.
    destruct inactiveSince as [t|]; [|destruct summary; simpl; naive_solver]. destruct summary; [by specialize (Hs eq_refl)|]. simpl.
    split; [by intros ? ? [= <-]|]. intros Ht. by apply Ht. }
  naive_solver.
Qed.
Lemma NoDup_uq_rows db q : NoDup (fu_ObjectID <$> uq_rows db q).
Proof. eapply sublist_NoDup; [apply (NoDup_usage_rows db (uq_object db q))|]. apply fmap_sublist, sublist_filter. Qed.

Lemma sql_add_err (e : error) l : foldl sql_add (Err e) l = Err e.
Proof using. by induction l. Qed.
Lemma sql_sum_Ok l z : sql_sum l = Ok z → z = foldr Z.add 0%Z l.
Proof using.
  unfold sql_sum. assert (∀ a z, foldl sql_add (Ok a) l = Ok z → z = (a + foldr Z.add 0 l)%Z) as Hgen.
  { induction l as [|x l IH]; intros a z'; [by intros [= <-]; simpl; lia|]. cbn [foldl]. unfold sql_add at 2. cbn [mbind result_bind].
    case_bool_decide; [|by rewrite sql_add_err]. intros ->%IH. cbn [foldr]. lia. }
  intros ->%Hgen. lia.
Qed.
Lemma total_perm {A} (f : A → Z) l l' : l ≡ₚ l' → foldr Z.add 0%Z (f <$> l') = foldr Z.add 0%Z (f <$> l).
Proof using. induction 1; csimpl; lia. Qed.
(** The pages of a report for resources cut one list in pieces: each object that carries one of the resources (or carries
    none, if these are wanted too) and has been inactive, once; and the summary without a cutoff totals that list. *)
Theorem scoped_usage_reports now resources includeUnscoped inactiveSince db :
  let db' := flushObjectUsageEvents now db in
  ∃ all, NoDup (fu_ObjectID <$> all) ∧
    (∀ fu, fu ∈ all ↔ ∃ id o, drs_object db !! id = Some o ∧ in_resources db resources includeUnscoped id ∧
       fu = usage_of db' id o ∧ inactive_at inactiveSince fu) ∧
    (∀ limit offset, (0 < limit)%Z → (0 <= offset)%Z →
       listScopedFileUsagePage now resources includeUnscoped limit offset inactiveSince db
       = (db', take (Z.to_nat limit) (drop (Z.to_nat offset) all))) ∧
    (∀ db2 s, inactiveSince = None → getScopedFileUsageSummary now resources includeUnscoped None db = (db2, Ok s) →
       fs_TotalFiles s = Z.of_nat (length all) ∧
       fs_TotalUploads s = foldr Z.add 0%Z (fu_UploadCount <$> all) ∧ fs_TotalDownloads s = foldr Z.add 0%Z (fu_DownloadCount <$> all)).
Proof using.
  intros db'. unfold listScopedFileUsagePage, getScopedFileUsageSummary. cbv zeta. fold db'.
  destruct (bool_decide (NormalizeAccessResources resources = []) && negb includeUnscoped) eqn:Enone.
  { exists []. split_and!; [constructor| | |].
    - intros fu. split; [by intros ?%elem_of_nil|]. apply andb_true_iff in Enone as [En%bool_decide_eq_true Eu%negb_true_iff].
      intros (id & o & _ & [(r & Hr & _)|[Hi _]] & _); [by rewrite En in Hr; apply elem_of_nil in Hr|congruence].
    - intros limit offset _ _. by rewrite orb_true_r, drop_nil, take_nil.
    - intros db2 s _ [= <- <-]. done. }
  set (q := sqliteScopedFileUsageQuery (NormalizeAccessResources resources) includeUnscoped inactiveSince false).
  exists (sort_Slice used_before (uq_rows db' q)). split_and!.
  - rewrite sort_Slice_Permutation. apply NoDup_uq_rows.
  - intros fu. rewrite sort_Slice_Permutation. unfold q. rewrite uq_rows_exact by done. unfold in_resources, db'.
    rewrite flush_all_objects, flush_all_grants. done.
  - intros limit offset Hl Ho. rewrite (proj2 (Z.leb_gt _ _)) by done. rewrite orb_false_l, (proj2 (Z.ltb_ge offset 0)) by lia. done.
  - intros db2 s Hi. rewrite <- Hi. intros [= <- E]. subst inactiveSince. unfold summarize in E.
    assert (uq_rows db' (sqliteScopedFileUsageQuery (NormalizeAccessResources resources) includeUnscoped None true) = uq_rows db' q) as Eq
      by reflexivity.
    rewrite Eq in E. apply bind_Ok in E as (up & Eu%sql_sum_Ok & E). apply bind_Ok in E as (down & Ed%sql_sum_Ok & [= <-]). simpl.
    pose proof (sort_Slice_Permutation used_before (uq_rows db' q)) as Hp. rewrite Eu, Ed.
    split_and!; [by rewrite Hp|by apply total_perm|by apply total_perm].
Qed.
(** A summary with a cutoff binds the cutoff to the first resource and the last resource to the cutoff: asked for one
    resource it finds nothing, whatever the store holds, as no resource reads like an instant. *)
Theorem inactive_summary_misbinds now resource t db :
  NormalizeAccessResource resource ≠ "" →
  Forall (λ row, row.2 ≠ sqlite_time t) (controlled_access db) →
  getScopedFileUsageSummary now [resource] false (Some t) db = (flushObjectUsageEvents now db, Ok empty_usage_summary).
Proof using.
  intros Hr Hf. unfold getScopedFileUsageSummary. cbv zeta. set (db' := flushObjectUsageEvents now db).
  assert (NormalizeAccessResources [resource] = [NormalizeAccessResource resource]) as ->.
  { unfold NormalizeAccessResources. cbn [fmap list_fmap]. rewrite filter_cons_True, filter_nil by done. apply dedup_id, NoDup_singleton. }
  rewrite bool_decide_eq_false_2 by done. cbn [andb].
  assert (∀ q, uq_resource_args q = [TimeArg t] → uq_unscoped q = false → uq_rows db' q = []) as Hnone.
  { intros q Ea Eu. apply elem_of_nil_inv. intros fu [_ Hin]%list_elem_of_filter. apply elem_of_usage_rows in Hin as (id & o & _ & Hobj & _).
    unfold uq_object in Hobj. rewrite Ea, Eu, orb_false_r, has_grant_true in Hobj. destruct Hobj as (r & Hp & Hin).
    simpl in Hp. rewrite orb_false_r in Hp. apply String.eqb_eq in Hp. unfold db' in Hin. rewrite flush_all_grants in Hin.
    rewrite Forall_forall in Hf. by apply (Hf (id, r) Hin). }
  by rewrite Hnone.
Qed.
End usage.

(** ** Witnesses *)
Section samples.
#[local] Existing Instance canonical_order.
Definition usage_db : DB :=
  mkDB {["a" := mkObjectRow 5 1 2 "a.txt" "" ""; "b" := mkObjectRow 7 1 3 "b.txt" "" ""]} []
    [("a", "/organization/ohsu"); ("b", "/organization/ohsu/project/p1")] [] ∅ ∅ []
    {["a" := mkUsageRow 1 2 (Some 10%Z) (Some 20%Z) 20]} [("a", (DownloadEvent, 30%Z)); ("x", (UploadEvent, 31%Z))].
Lemma file_usage_counts_witness :
  ∃ db' fu, GetFileUsage 40 "a" usage_db = (db', Ok fu) ∧ fu_DownloadCount fu = 3%Z ∧ fu_LastAccessTime fu = Some 30%Z ∧
    GetFileUsage 50 "a" db' = (db', Ok fu).
Proof.
  destruct (GetFileUsage 40 "a" usage_db) as [db' [fu|e]] eqn:E; [|vm_compute in E; discriminate E].
  exists db', fu. split; [reflexivity|]. destruct (file_usage_counts 40 "a" usage_db db' fu E) as (_ & _ & Hagain & _).
  split_and!; [|vm_compute in E; injection E as _ <-; reflexivity|apply Hagain].
  destruct (file_usage_counts 40 "a" usage_db db' fu E) as (_ & -> & _). by vm_compute.
Defined.
(** A report for an organization counts the objects of the organization itself, not those of its projects. *)
Lemma scoped_usage_reports_witness :
  ∃ page, listScopedFileUsagePage 40 ["/organization/ohsu"] false 10 0 None usage_db
    = (flushObjectUsageEvents 40 usage_db, page) ∧ fu_ObjectID <$> page = ["a"].
Proof.
  destruct (scoped_usage_reports 40 ["/organization/ohsu"] false None usage_db) as (all & _ & _ & Hpage & _).
  exists (take (Z.to_nat 10) (drop (Z.to_nat 0) all)). specialize (Hpage 10%Z 0%Z ltac:(lia) ltac:(lia)). split; [exact Hpage|].
  rewrite (eq_sym (f_equal snd Hpage) : take (Z.to_nat 10) (drop (Z.to_nat 0) all) = _). by vm_compute.
Defined.
Lemma inactive_summary_misbinds_witness :
  (getScopedFileUsageSummary 40 ["/organization/ohsu"] false (Some 100%Z) usage_db).2 = Ok empty_usage_summary ∧
  fu_ObjectID <$> (listScopedFileUsagePage 40 ["/organization/ohsu"] false 10 0 (Some 100%Z) usage_db).2 = ["a"].
Proof.
  split; [|by vm_compute]. rewrite inactive_summary_misbinds; [reflexivity|by vm_compute|].
  by apply (bool_decide_unpack _); vm_compute.
Defined.
End samples.
