(* ===== verification/UsageService.v ===== *)
(** * The usage service: internal/usage/service.go
    Reports come from a store that may offer queries for resources; without them the service asks scope by scope and
    puts the answers together.  Counters are 64-bit integers: sums wrap around. *)
From S2P Require Import Prelude GoStrings GoURL Errors Resources Policy Objects Buckets Attribution Reports Listing FileUsage.

Definition ErrReportsUnavailable : error := EText "usage report store is unavailable".
Definition ErrObjectsUnavailable : error := EText "usage object reader is unavailable".
Definition ErrInvalidGroupBy : error := EText "invalid transfer breakdown group_by".

Record UsageScope := mkUsageScope { us_Organization : string; us_Project : string }.
Record ScopeQuery := mkScopeQuery {
  sq_Organization : string; sq_Project : string; sq_Scopes : list UsageScope; sq_Resources : list string;
  sq_IncludeUnscoped : bool }.
Definition isSingle (q : ScopeQuery) : bool := negb (is_empty (TrimSpace (sq_Organization q))).
Definition isAggregate (q : ScopeQuery) : bool := negb (isSingle q) && negb (bool_decide (length (sq_Scopes q) = 0)).

(** ** Ports *)
Record ScopedFileUsageQuery (S : Type) := {
  sf_ListPageByScope : string → string → Z → Z → option Z → service S (list FileUsage);
  sf_ListPageByResources : list string → bool → Z → Z → option Z → service S (list FileUsage);
  sf_SummaryByScope : string → string → option Z → service S FileUsageSummary;
  sf_SummaryByResources : list string → bool → option Z → service S FileUsageSummary;
  sf_RecordSummaryByScope : string → string → service S FileUsageSummary }.
Record ScopedTransferQuery (S : Type) := {
  st_SummaryByResources : Filter → list string → service S Summary;
  st_BreakdownByResources : Filter → string → list string → service S (list Breakdown) }.
Record ReportStore (S : Type) := {
  rs_GetFileUsage : string → service S FileUsage;
  rs_ListFileUsageByObjectIDs : list string → service S (list FileUsage);
  rs_ListFileUsage : Z → Z → option Z → service S (list FileUsage);
  rs_GetFileUsageSummary : option Z → service S FileUsageSummary;
  rs_Summary : Filter → service S Summary;
  rs_Breakdown : Filter → string → service S (list Breakdown);
  rs_ScopedFileUsage : option (ScopedFileUsageQuery S);
  rs_ScopedTransfer : option (ScopedTransferQuery S) }.
Record ObjectReader (S : Type) := {
  or_GetObject : string → string → service S (option ObjectRecord);
  or_ListObjectIDsByScope : string → string → string → service S (list string) }.
Arguments sf_ListPageByScope {S}. Arguments sf_ListPageByResources {S}. Arguments sf_SummaryByScope {S}.
Arguments sf_SummaryByResources {S}. Arguments sf_RecordSummaryByScope {S}. Arguments st_SummaryByResources {S}.
Arguments st_BreakdownByResources {S}. Arguments rs_GetFileUsage {S}. Arguments rs_ListFileUsageByObjectIDs {S}.
Arguments rs_ListFileUsage {S}. Arguments rs_GetFileUsageSummary {S}. Arguments rs_Summary {S}. Arguments rs_Breakdown {S}.
Arguments rs_ScopedFileUsage {S}. Arguments rs_ScopedTransfer {S}. Arguments or_GetObject {S}. Arguments or_ListObjectIDsByScope {S}.

Section service.
Context `{MapOrder} {S : Type} (reports : option (ReportStore S)) (objects : option (ObjectReader S)).

Fixpoint service_fold {A B} (f : B → A → service S B) (b : B) (l : list A) : service S B :=
  match l with [] => mret b | a :: l => b' ← f b a; service_fold f b' l end.
Definition requireReports : service S (ReportStore S) :=
  match reports with Some store => mret store | None => fail ErrReportsUnavailable end.
Definition requireObjects : service S (ObjectReader S) :=
  match objects with Some reader => mret reader | None => fail ErrObjectsUnavailable end.

(** ** File usage *)
Definition collected : Type := list FileUsage * FileUsageSummary.
Definition count_usage (uploads downloads inactive : Z) (s : FileUsageSummary) : FileUsageSummary :=
  mkFileUsageSummary (fs_TotalFiles s) (wrap64 (fs_TotalUploads s + uploads)) (wrap64 (fs_TotalDownloads s + downloads))
    (wrap64 (fs_InactiveFileCount s + inactive)) (fs_RecordCount s) (fs_RecordLatestUpdatedTime s).
Definition collect_step (reader : ObjectReader S) (usageByID : gmap string FileUsage) (inactiveSince : option Z)
    (acc : collected) (id : string) : service S collected :=
  let '(items, summary) := acc in
  match usageByID !! id with
  | None =>
      let summary := match inactiveSince with Some _ => count_usage 0 0 1 summary | None => summary end in
      obj ← attempt (or_GetObject reader id "read");
      match obj with
      | Err e => if errors_Is e ErrNotFound || errors_Is e ErrAccessDenied then mret (items, summary) else fail e
      | Ok obj =>
          let item := match obj with
                      | Some r => mkFileUsage id (default "" (r_Name r)) (r_Size r) 0 0 None None None
                      | None => mkFileUsage id "" 0 0 0 None None None
                      end in
          mret (items ++ [item], summary)
      end
  | Some u =>
      let inactive := match inactiveSince with Some t => older_than t u | None => false end in
      let summary := count_usage (fu_UploadCount u) (fu_DownloadCount u) (if inactive then 1 else 0) summary in
      if negb inactive && bool_decide (is_Some inactiveSince) then mret (items, summary) else mret (items ++ [u], summary)
  end.
Definition collectScopedUsage (store : ReportStore S) (scope : UsageScope) (inactiveSince : option Z) : service S collected :=
  reader ← requireObjects;
  ids ← or_ListObjectIDsByScope reader (us_Organization scope) (us_Project scope) "read";
  let ids := sort_Strings ids in
  bulkUsage ← rs_ListFileUsageByObjectIDs store ids;
  let usageByID := foldl (λ m u, <[fu_ObjectID u := u]> m) ∅ bulkUsage in
  service_fold (collect_step reader usageByID inactiveSince)
    ([], mkFileUsageSummary (Z.of_nat (length ids)) 0 0 0 0 None) ids.
Definition add_usage (a b : FileUsageSummary) : FileUsageSummary :=
  mkFileUsageSummary (wrap64 (fs_TotalFiles a + fs_TotalFiles b)) (wrap64 (fs_TotalUploads a + fs_TotalUploads b))
    (wrap64 (fs_TotalDownloads a + fs_TotalDownloads b)) (wrap64 (fs_InactiveFileCount a + fs_InactiveFileCount b))
    (fs_RecordCount a) (fs_RecordLatestUpdatedTime a).
Definition collectMultiScopedUsage (store : ReportStore S) (scopes : list UsageScope) (inactiveSince : option Z) : service S collected :=
  acc ← service_fold (λ '(byID, summary) scope,
      got ← collectScopedUsage store scope inactiveSince;
      mret (foldl (λ m u, <[fu_ObjectID u := u]> m) byID got.1, add_usage summary got.2)) (∅ : gmap string FileUsage, empty_usage_summary) scopes;
  mret (sort_Slice (λ a b, String.ltb (fu_ObjectID a) (fu_ObjectID b)) (go_range acc.1).*2, acc.2).
(** A page of the collected list; the bounds of the slice are checked at run time. *)
Definition pageFileUsage (items : list FileUsage) (limit offset : Z) : result error (list FileUsage) :=
  if (limit <=? 0)%Z then Ok items else slice_page items offset limit.
Definition page_collected (limit offset : Z) (got : collected) : service S (list FileUsage) :=
  λ s, (s, pageFileUsage got.1 limit offset).

Definition ListReadableObjectIDs (scope : ScopeQuery) (requested : list string) : service S (list string) :=
  if negb (isSingle scope) && negb (isAggregate scope) then mret requested
  else
    reader ← requireObjects;
    let addScope readable s :=
      ids ← or_ListObjectIDsByScope reader (us_Organization s) (us_Project s) "read";
      mret (readable ++ filter (.≠ "") (TrimSpace <$> ids)) in
    readable ← service_fold addScope []
      (if isSingle scope then [mkUsageScope (sq_Organization scope) (sq_Project scope)] else sq_Scopes scope);
    mret (filter (λ id, TrimSpace id ∈ readable) requested).
Definition ListFileUsageReport (scope : ScopeQuery) (limit offset : Z) (inactiveSince : option Z) : service S (list FileUsage) :=
  store ← requireReports;
  let single := mkUsageScope (sq_Organization scope) (sq_Project scope) in
  if isSingle scope then
    match rs_ScopedFileUsage store with
    | Some scoped => sf_ListPageByScope scoped (sq_Organization scope) (sq_Project scope) limit offset inactiveSince
    | None => collectScopedUsage store single inactiveSince ≫= page_collected limit offset
    end
  else if isAggregate scope then
    match rs_ScopedFileUsage store with
    | Some scoped => sf_ListPageByResources scoped (sq_Resources scope) (sq_IncludeUnscoped scope) limit offset inactiveSince
    | None => collectMultiScopedUsage store (sq_Scopes scope) inactiveSince ≫= page_collected limit offset
    end
  else rs_ListFileUsage store limit offset inactiveSince.
Definition set_record_count (n : Z) (updated : option Z) (s : FileUsageSummary) : FileUsageSummary :=
  mkFileUsageSummary (fs_TotalFiles s) (fs_TotalUploads s) (fs_TotalDownloads s) (fs_InactiveFileCount s) n updated.
Definition FileUsageSummaryReport (scope : ScopeQuery) (inactiveSince : option Z) : service S FileUsageSummary :=
  store ← requireReports;
  let single := mkUsageScope (sq_Organization scope) (sq_Project scope) in
  if isSingle scope then
    match rs_ScopedFileUsage store with
    | Some scoped =>
        summary ← sf_SummaryByScope scoped (sq_Organization scope) (sq_Project scope) inactiveSince;
        recordSummary ← sf_RecordSummaryByScope scoped (sq_Organization scope) (sq_Project scope);
        mret (set_record_count (fs_RecordCount recordSummary) (fs_RecordLatestUpdatedTime recordSummary) summary)
    | None =>
        got ← collectScopedUsage store single inactiveSince;
        mret (set_record_count (fs_TotalFiles got.2) (fs_RecordLatestUpdatedTime got.2) got.2)
    end
  else if isAggregate scope then
    match rs_ScopedFileUsage store with
    | Some scoped => sf_SummaryByResources scoped (sq_Resources scope) (sq_IncludeUnscoped scope) inactiveSince
    | None => got ← collectMultiScopedUsage store (sq_Scopes scope) inactiveSince; mret got.2
    end
  else rs_GetFileUsageSummary store inactiveSince.

(** ** Transfers *)
Definition scoped_filter (filter : Filter) (scope : UsageScope) : Filter :=
  mkFilter (us_Organization scope) (us_Project scope) (f_EventType filter) (f_Direction filter) (f_From filter) (f_To filter)
    (f_Provider filter) (f_Bucket filter) (f_SHA256 filter) (f_User filter) (f_ReconciliationStatus filter).
Definition add_summary (out item : Summary) : Summary :=
  mkSummary (wrap64 (sm_EventCount out + sm_EventCount item)) (wrap64 (sm_AccessIssuedCount out + sm_AccessIssuedCount item))
    (wrap64 (sm_DownloadEventCount out + sm_DownloadEventCount item)) (wrap64 (sm_UploadEventCount out + sm_UploadEventCount item))
    (wrap64 (sm_BytesRequested out + sm_BytesRequested item)) (wrap64 (sm_BytesDownloaded out + sm_BytesDownloaded item))
    (wrap64 (sm_BytesUploaded out + sm_BytesUploaded item)) (sm_Freshness out).
Definition aggregateTransferSummary (store : ReportStore S) (filter : Filter) (scopes : list UsageScope) : service S Summary :=
  service_fold (λ out scope, item ← rs_Summary store (scoped_filter filter scope); mret (add_summary out item)) empty_summary scopes.
Definition breakdown_key (item : Breakdown) : string :=
  if is_empty (bd_Key item) then
    Join [bd_Organization item; bd_Project item; bd_Provider item; bd_Bucket item; bd_SHA256 item; bd_ActorEmail item; bd_ActorSubject item] "/"
  else bd_Key item.
Definition merge_breakdown (merged item : Breakdown) : Breakdown :=
  mkBreakdown (bd_Key merged) (bd_Organization merged) (bd_Project merged) (bd_Provider merged) (bd_Bucket merged)
    (bd_SHA256 merged) (bd_ActorEmail merged) (bd_ActorSubject merged) (wrap64 (bd_EventCount merged + bd_EventCount item))
    (wrap64 (bd_BytesRequested merged + bd_BytesRequested item)) (wrap64 (bd_BytesDownloaded merged + bd_BytesDownloaded item))
    (wrap64 (bd_BytesUploaded merged + bd_BytesUploaded item))
    (match bd_LastTransferTime item, bd_LastTransferTime merged with
     | Some t, Some l => if (l <? t)%Z then Some t else Some l
     | Some t, None => Some t
     | None, l => l
     end).
Definition add_breakdown (byKey : gmap string Breakdown) (item : Breakdown) : gmap string Breakdown :=
  <[breakdown_key item := match byKey !! breakdown_key item with Some merged => merge_breakdown merged item | None => item end]> byKey.
Definition breakdown_less (a b : Breakdown) : bool :=
  match bd_LastTransferTime a, bd_LastTransferTime b with
  | Some ta, Some tb => if (ta =? tb)%Z then String.ltb (bd_Key a) (bd_Key b) else (tb <? ta)%Z
  | _, _ => String.ltb (bd_Key a) (bd_Key b)
  end.
Definition aggregateTransferBreakdown (store : ReportStore S) (filter : Filter) (groupBy : string) (scopes : list UsageScope)
  : service S (list Breakdown) :=
  byKey ← service_fold (λ byKey scope, items ← rs_Breakdown store (scoped_filter filter scope) groupBy; mret (foldl add_breakdown byKey items))
            (∅ : gmap string Breakdown) scopes;
  mret (sort_Slice breakdown_less (go_range byKey).*2).
Definition validBreakdownGroup (groupBy : string) : bool := bool_decide (groupBy ∈ ["scope"; "user"; "provider"; "object"]).
Definition aggregate_transfers (filter : Filter) (scope : ScopeQuery) : bool :=
  isAggregate scope && is_empty (TrimSpace (f_Organization filter)).
Definition TransferSummaryReport (filter : Filter) (scope : ScopeQuery) : service S Summary :=
  store ← requireReports;
  if aggregate_transfers filter scope then
    match rs_ScopedTransfer store with
    | Some scoped => st_SummaryByResources scoped filter (sq_Resources scope)
    | None => aggregateTransferSummary store filter (sq_Scopes scope)
    end
  else rs_Summary store filter.
Definition TransferBreakdownReport (filter : Filter) (groupBy : string) (scope : ScopeQuery) : service S (list Breakdown) :=
  store ← requireReports;
  if negb (validBreakdownGroup groupBy) then fail ErrInvalidGroupBy
  else if aggregate_transfers filter scope then
    match rs_ScopedTransfer store with
    | Some scoped => st_BreakdownByResources scoped filter groupBy (sq_Resources scope)
    | None => aggregateTransferBreakdown store filter groupBy (sq_Scopes scope)
    end
  else rs_Breakdown store filter groupBy.
Definition GetTransferFreshness (filter : Filter) : Freshness := mkFreshness false [] None (f_From filter) (f_To filter).
End service.

(** ** The SQLite store as a report store: the attribution tables and the content store *)
Section sqlite.
Context `{MapOrder} (now : Z).
Definition usage_state : Type := AttributionDB * ContentStore.DB.
Definition on_content {A} (f : ContentStore.DB → ContentStore.DB * result error A) : service usage_state A :=
  λ '(attribution, db), let '(db, r) := f db in ((attribution, db), r).
Definition on_content_ok {A} (f : ContentStore.DB → ContentStore.DB * A) : service usage_state A :=
  on_content (λ db, let '(db, a) := f db in (db, Ok a)).
Definition on_attribution {A} (f : AttributionDB → result error A) : service usage_state A := λ s, (s, f s.1).
Definition SqliteDB_reports : ReportStore usage_state := {|
  rs_GetFileUsage := λ id, on_content (GetFileUsage now id);
  rs_ListFileUsageByObjectIDs := λ ids, on_content_ok (ListFileUsageByObjectIDs now ids);
  rs_ListFileUsage := λ limit offset inactive, on_content_ok (ListFileUsage now limit offset inactive);
  rs_GetFileUsageSummary := λ inactive, on_content (GetFileUsageSummary now inactive);
  rs_Summary := λ filter, on_attribution (λ db, GetTransferAttributionSummary db filter);
  rs_Breakdown := λ filter groupBy, on_attribution (λ db, GetTransferAttributionBreakdown db filter groupBy);
  rs_ScopedFileUsage := Some {|
    sf_ListPageByScope := λ o p limit offset inactive, on_content (ListFileUsagePageByScope now o p limit offset inactive);
    sf_ListPageByResources := λ rs inc limit offset inactive, on_content_ok (ListFileUsagePageByResources now rs inc limit offset inactive);
    sf_SummaryByScope := λ o p inactive, on_content (GetFileUsageSummaryByScope now o p inactive);
    sf_SummaryByResources := λ rs inc inactive, on_content (GetFileUsageSummaryByResources now rs inc inactive);
    sf_RecordSummaryByScope := λ o p, on_content (GetProjectRecordSummaryByScope o p) |};
  rs_ScopedTransfer := Some {|
    st_SummaryByResources := λ filter rs, on_attribution (λ db, GetTransferAttributionSummaryByResources db filter rs);
    st_BreakdownByResources := λ filter groupBy rs, on_attribution (λ db, GetTransferAttributionBreakdownByResources db filter groupBy rs) |} |}.
End sqlite.
