(* ===== verification/MetricsHandlers.v ===== *)
(** * The metrics endpoints: internal/httpapi/metrics (access.go, transfer_reports.go, file_usage.go, transfer_ingest.go)
    A handler answers with a status code or with data, or fails with an error that the boundary turns into a response.
    The scope of a request is read from the raw query (organization, or program as its alias, and project); the
    filter of a transfer report is read from the parameters of the generated code. *)
From S2P Require Import Prelude GoStrings GoURL Errors Resources Policy Objects Buckets Attribution Reports FileUsage UsageService.

Inductive response (A : Type) := Status (code : Z) | Data (a : A).
Arguments Status {A} code.
Arguments Data {A} a.
Definition StatusBadRequest := 400%Z.
Definition StatusUnauthorized := 401%Z.
Definition StatusForbidden := 403%Z.
Definition StatusNotFound := 404%Z.

(** ** access.go *)
Record metricsQueryParams := mkMetricsQuery { mq_organization : string; mq_program : string; mq_project : string }.
Record metricsAccess := mkMetricsAccess { ma_organization : string; ma_project : string; ma_scopes : list UsageScope }.
#[export] Instance UsageScope_eq_dec : EqDecision UsageScope.
Proof. solve_decision. Defined.
Definition isScoped (a : metricsAccess) : bool := negb (is_empty (TrimSpace (ma_organization a))).
Definition hasScopeAggregate (a : metricsAccess) : bool := negb (isScoped a) && negb (bool_decide (length (ma_scopes a) = 0)).
Definition parseScopeQuery (params : metricsQueryParams) : result error (string * string * bool) :=
  let org := TrimSpace (mq_organization params) in
  let org := if is_empty org then TrimSpace (mq_program params) else org in
  let project := TrimSpace (mq_project params) in
  if negb (is_empty project) && is_empty org then Err (EText "organization is required when project is set")
  else if negb (is_empty org) then Ok (org, project, true) else Ok ("", "", false).
Definition resolveMetricsAccess (params : metricsQueryParams) : result error metricsAccess :=
  '(org, project, _) ← parseScopeQuery params; Ok (mkMetricsAccess org project []).
Definition metricsScopeFromResource (resource : string) : option UsageScope :=
  '(org, project) ← ResourceScope resource; Some (mkUsageScope org project).
Definition scope_key (s : UsageScope) : string := us_Organization s +:+ nul +:+ us_Project s.
Definition scope_less (a b : UsageScope) : bool :=
  if String.eqb (us_Organization a) (us_Organization b) then String.ltb (us_Project a) (us_Project b)
  else String.ltb (us_Organization a) (us_Organization b).
Definition metricsResources (scopes : list UsageScope) : list string :=
  sort_Strings (dedup (filter (.≠ "")
    (omap (λ s, match ResourcePath (us_Organization s) (us_Project s) with Ok r => Some r | Err _ => None end) scopes))).
Definition scopeQuery (a : metricsAccess) : ScopeQuery :=
  if hasScopeAggregate a
  then mkScopeQuery (ma_organization a) (ma_project a) (ma_scopes a) (metricsResources (ma_scopes a)) false
  else mkScopeQuery (ma_organization a) (ma_project a) [] [] false.
Definition MissingGen3AuthHeader (ctx : context) : bool := IsGen3Mode ctx && negb (HasAuthHeader ctx).

Section metrics.
Context `{MapOrder}.

Definition readable_scopes (ctx : context) : list UsageScope :=
  dedup_on scope_key (omap (λ e, if method_set e.2 "read" || method_set e.2 "*" then metricsScopeFromResource e.1 else None)
    (go_range (GetUserPrivileges ctx))).
Definition readableMetricsScopes (ctx : context) : list UsageScope :=
  let scopes := readable_scopes ctx in
  let orgWide := us_Organization <$> filter (λ s, us_Project s = "") scopes in
  sort_Slice scope_less (filter (λ s, ¬ (us_Project s ≠ "" ∧ us_Organization s ∈ orgWide)) scopes).
(** The access of the caller, or the status of the refusal. *)
Definition checkAuth (ctx : context) (params : metricsQueryParams) : Z + metricsAccess :=
  match resolveMetricsAccess params with
  | Err _ => inl StatusBadRequest
  | Ok resolved =>
      if negb (IsAuthzEnforced ctx) then inr resolved
      else if MissingGen3AuthHeader ctx then inl StatusUnauthorized
      else if HasMethodAccess ctx "read" ["/data_file"] || HasMethodAccess ctx "read" ["/programs"] then inr resolved
      else if isScoped resolved then
        match ResourcePath (ma_organization resolved) (ma_project resolved) with
        | Err _ => inl StatusBadRequest
        | Ok scope => if HasMethodAccess ctx "read" [scope] then inr resolved else inl StatusForbidden
        end
      else
        let scopes := readableMetricsScopes ctx in
        if negb (bool_decide (length scopes = 0)) then inr (mkMetricsAccess (ma_organization resolved) (ma_project resolved) scopes)
        else inl StatusForbidden
  end.

Context {S : Type} (reports : option (ReportStore S)) (objects : option (ObjectReader S)).

(** ** transfer_reports.go *)
Record TransferParams := mkTransferParams {
  tp_Organization : option string; tp_Project : option string; tp_Direction : option string;
  tp_ReconciliationStatus : option string; tp_From : option Z; tp_To : option Z; tp_Provider : option string;
  tp_Bucket : option string; tp_Sha256 : option string; tp_User : option string; tp_GroupBy : option string }.
Definition generatedString (v : option string) : string := default "" v.
Definition transferParamsToFilter (p : TransferParams) : Filter :=
  mkFilter (generatedString (tp_Organization p)) (generatedString (tp_Project p)) "" (generatedString (tp_Direction p))
    (tp_From p) (tp_To p) (generatedString (tp_Provider p)) (generatedString (tp_Bucket p)) (generatedString (tp_Sha256 p))
    (generatedString (tp_User p)) (generatedString (tp_ReconciliationStatus p)).
Definition with_auth {A} (ctx : context) (query : metricsQueryParams) (f : metricsAccess → service S (response A)) : service S (response A) :=
  match checkAuth ctx query with
  | inl code => mret (Status code)
  | inr access => f access
  end.
Definition set_freshness (fresh : Freshness) (s : Summary) : Summary :=
  mkSummary (sm_EventCount s) (sm_AccessIssuedCount s) (sm_DownloadEventCount s) (sm_UploadEventCount s) (sm_BytesRequested s)
    (sm_BytesDownloaded s) (sm_BytesUploaded s) (Some fresh).
Definition GetTransferSummary (ctx : context) (query : metricsQueryParams) (params : TransferParams) : service S (response Summary) :=
  with_auth ctx query (λ access,
    let filter := transferParamsToFilter params in
    summary ← TransferSummaryReport reports filter (scopeQuery access);
    mret (Data (set_freshness (GetTransferFreshness filter) summary))).
Definition GetTransferBreakdown (ctx : context) (query : metricsQueryParams) (params : TransferParams)
  : service S (response (list Breakdown * Freshness)) :=
  with_auth ctx query (λ access,
    let filter := transferParamsToFilter params in
    let groupBy := default "scope" (tp_GroupBy params) in
    if negb (validBreakdownGroup groupBy) then mret (Status StatusBadRequest)
    else items ← TransferBreakdownReport reports filter groupBy (scopeQuery access);
         mret (Data (items, GetTransferFreshness filter))).

(** ** file_usage.go *)
Definition parseInactiveSince (now : Z) (inactiveDays : option Z) : result error (option Z) :=
  match inactiveDays with
  | None => Ok None
  | Some days => if (days <? 0)%Z then Err (EText "inactive_days must be a non-negative integer")
                 else Ok (Some (now - days * 86400 * 10 ^ 9)%Z)
  end.
Definition usageMatchesInactiveFilter (u : FileUsage) (inactiveSince : option Z) : bool :=
  match inactiveSince with None => true | Some t => older_than t u end.
Definition uniqueNonEmptyStrings (values : list string) : list string := dedup (filter (.≠ "") (TrimSpace <$> values)).
Definition ListMetricsFiles (now : Z) (ctx : context) (query : metricsQueryParams) (limit offset inactiveDays : option Z)
  : service S (response (list FileUsage)) :=
  let limit := default 200%Z limit in
  let offset := default 0%Z offset in
  if (limit <? 1)%Z || (1000 <? limit)%Z || (offset <? 0)%Z then mret (Status StatusBadRequest)
  else match parseInactiveSince now inactiveDays with
       | Err _ => mret (Status StatusBadRequest)
       | Ok inactiveSince => with_auth ctx query (λ access,
           data ← ListFileUsageReport reports objects (scopeQuery access) limit offset inactiveSince; mret (Data data))
       end.
Definition readable_ids (access : metricsAccess) (ids : list string) : service S (list string) :=
  ListReadableObjectIDs objects (scopeQuery access) ids.
Definition BulkMetricsFiles (now : Z) (ctx : context) (query : metricsQueryParams) (body : option (list string * option Z))
  : service S (response (list FileUsage)) :=
  match body with
  | None => mret (Status StatusBadRequest)
  | Some (objectIds, inactiveDays) =>
      let objectIDs := uniqueNonEmptyStrings objectIds in
      if bool_decide (objectIDs = []) then mret (Status StatusBadRequest)
      else match parseInactiveSince now inactiveDays with
           | Err _ => mret (Status StatusBadRequest)
           | Ok inactiveSince => with_auth ctx query (λ access,
               ids ← readable_ids access objectIDs;
               store ← requireReports reports;
               data ← rs_ListFileUsageByObjectIDs store ids;
               mret (Data (filter (λ u, usageMatchesInactiveFilter u inactiveSince = true) data)))
           end
  end.
Definition objectInScope (objectID : string) (access : metricsAccess) : service S bool :=
  items ← attempt (readable_ids access [objectID]);
  match items with
  | Err e => if errors_Is e ErrNotFound || errors_Is e ErrAccessDenied then mret false else fail e
  | Ok items => mret (negb (bool_decide (length items = 0)))
  end.
Definition GetMetricsFile (ctx : context) (query : metricsQueryParams) (objectID : string) : service S (response FileUsage) :=
  if is_empty objectID then mret (Status StatusBadRequest)
  else with_auth ctx query (λ access,
    inside ← (if isScoped access || hasScopeAggregate access then objectInScope objectID access else mret true);
    if negb inside then mret (Status StatusNotFound)
    else store ← requireReports reports; u ← rs_GetFileUsage store objectID; mret (Data u)).
(** Total files, uploads, downloads and inactive files; and, for a scope only, the number of records and its last update. *)
Record MetricsSummary := mkMetricsSummary {
  ms_TotalFiles : Z; ms_TotalUploads : Z; ms_TotalDownloads : Z; ms_InactiveFileCount : Z; ms_RecordCount : option Z;
  ms_RecordLatestUpdatedTime : option Z }.
Definition GetMetricsSummary (now : Z) (ctx : context) (query : metricsQueryParams) (inactiveDays : option Z)
  : service S (response MetricsSummary) :=
  match parseInactiveSince now inactiveDays with
  | Err _ => mret (Status StatusBadRequest)
  | Ok inactiveSince => with_auth ctx query (λ access,
      s ← FileUsageSummaryReport reports objects (scopeQuery access) inactiveSince;
      mret (Data (mkMetricsSummary (fs_TotalFiles s) (fs_TotalUploads s) (fs_TotalDownloads s) (fs_InactiveFileCount s)
        (if isScoped access then Some (fs_RecordCount s) else None)
        (if isScoped access then fs_RecordLatestUpdatedTime s else None))))
  end.

(** ** transfer_ingest.go *)
Definition providerTransferResource (organization project : string) : option string :=
  match ResourcePath (TrimSpace organization) (TrimSpace project) with
  | Ok resource => if is_empty (TrimSpace resource) then None else Some resource
  | Err _ => None
  end.
Fixpoint check_ingest (ctx : context) (events : list (option Z * ProviderEvent)) : option Z :=
  match events with
  | [] => None
  | (_, item) :: events =>
      match providerTransferResource (TrimSpace (pe_Organization item)) (TrimSpace (pe_Project item)) with
      | None => Some StatusForbidden
      | Some resource => if HasAnyMethodAccess ctx [resource] ["create"; "update"] then check_ingest ctx events else Some StatusForbidden
      end
  end.
Definition checkProviderMetricsIngestAuth (ctx : context) (body : option (list (option Z * ProviderEvent))) : option Z :=
  if negb (IsGen3Mode ctx) then None
  else if MissingGen3AuthHeader ctx then Some StatusUnauthorized
  else match body with
       | None | Some [] => Some StatusForbidden
       | Some events => check_ingest ctx events
       end.
(** The time of the event is given or [now]. *)
Definition providerTransferPayloadToUsage (now : Z) (payload : option Z * ProviderEvent) : result error ProviderEvent :=
  let '(time, item) := payload in
  let direction := ToLower (TrimSpace (pe_Direction item)) in
  let status := TrimSpace (pe_ReconciliationStatus item) in
  if negb (bool_decide (direction ∈ [ProviderTransferDirectionDownload; ProviderTransferDirectionUpload])) then Err (EText "invalid direction")
  else if is_empty (TrimSpace (pe_ProviderEventID item)) || is_empty (TrimSpace (pe_Provider item)) || is_empty (TrimSpace (pe_Bucket item))
  then Err (EText "provider_event_id, provider, and bucket are required")
  else if (pe_BytesTransferred item <? 0)%Z then Err (EText "bytes_transferred cannot be negative")
  else if negb (bool_decide (status ∈ [""; ProviderTransferMatched; ProviderTransferAmbiguous; ProviderTransferUnmatched]))
  then Err (EText "invalid reconciliation_status")
  else Ok (mkProviderEvent (TrimSpace (pe_ProviderEventID item)) (TrimSpace (pe_AccessGrantID item)) direction
             (default now time) (TrimSpace (pe_RequestID item)) (TrimSpace (pe_ProviderRequestID item)) (TrimSpace (pe_ObjectID item))
             (TrimSpace (pe_SHA256 item)) (pe_ObjectSize item) (TrimSpace (pe_Organization item)) (TrimSpace (pe_Project item))
             (TrimSpace (pe_AccessID item)) (TrimSpace (pe_Provider item)) (TrimSpace (pe_Bucket item))
             (TrimLeft (TrimSpace (pe_ObjectKey item)) "/") (TrimSpace (pe_StorageURL item)) (pe_RangeStart item) (pe_RangeEnd item)
             (pe_BytesTransferred item) (ToUpper (TrimSpace (pe_HTTPMethod item))) (pe_HTTPStatus item)
             (TrimSpace (pe_RequesterPrincipal item)) (TrimSpace (pe_SourceIP item)) (TrimSpace (pe_UserAgent item))
             (TrimSpace (pe_RawEventRef item)) (TrimSpace (pe_ActorEmail item)) (TrimSpace (pe_ActorSubject item))
             (TrimSpace (pe_AuthMode item)) status).
(** [record] is the ingestor; the answer counts the events of the request. *)
Definition RecordProviderTransferEventsHandler (now : Z) (record : list ProviderEvent → service S unit) (ctx : context)
    (body : option (list (option Z * ProviderEvent))) : service S (response Z) :=
  match checkProviderMetricsIngestAuth ctx body with
  | Some code => mret (Status code)
  | None =>
      match body with
      | None | Some [] => mret (Status StatusBadRequest)
      | Some payloads =>
          match mapM (providerTransferPayloadToUsage now) payloads with
          | Err _ => mret (Status StatusBadRequest)
          | Ok events => _ ← record events; mret (Data (Z.of_nat (length events)))
          end
      end
  end.
End metrics.
