(* ===== verification/MetricsProperties.v ===== *)
(** * What the metrics endpoints disclose *)
From S2P Require Import Prelude GoStrings GoURL Errors Resources Policy Objects ContentStore ContentReads Buckets Attribution Reports ContentQueries FileUsage UsageService MetricsHandlers.

Section properties.
Context `{MapOrder}.

(** ** Scopes of the caller *)
Definition granted (ctx : context) (raw : string) : Prop :=
  ∃ methods, GetUserPrivileges ctx !! raw = Some methods ∧ (method_set methods "read" || method_set methods "*") = true.
Lemma HasMethodAccess_one ctx m r :
  IsAuthzEnforced ctx = true → HasMethodAccess ctx m [r] = true →
  NormalizeAccessResource r ≠ "" ∧
  (grants (GetUserPrivileges ctx) (NormalizeAccessResource r) m ∨ grants (GetUserPrivileges ctx) (NormalizeAccessResource r) "*").
Proof.
  intros He Ha. apply (enforced_cases ctx _ _ (forallb_resources _ _ [r] (λ r' Hr, grants_test (GetUserPrivileges ctx) r' m "*" Hr))) in Ha
    as [?|(_ & Hne & Hall)]; [congruence|].
  destruct (decide (NormalizeAccessResource r = "")) as [E|Hr].
  { exfalso. apply Hne. apply NormalizeAccessResources_nil_iff. by intros raw ->%list_elem_of_singleton. }
  split; [done|]. apply Hall. apply elem_of_NormalizeAccessResources. split; [done|]. exists r. split; [left|done].
Qed.
Lemma granted_of_access ctx r :
  IsAuthzEnforced ctx = true → HasMethodAccess ctx "read" [r] = true →
  ∃ raw, granted ctx raw ∧ NormalizeAccessResource raw = NormalizeAccessResource r.
Proof.
  intros He [_ [(raw & ms & Hp & Hn & Hm)|(raw & ms & Hp & Hn & Hm)]]%HasMethodAccess_one; [| |done];
    exists raw; (split; [exists ms|done]); (split; [done|]); apply orb_true_iff; rewrite !method_set_true; auto.
Qed.
(** The row is of an organization or project on which the caller was granted "read" or everything. *)
Definition in_scope (o p : string) (row : Event) : Prop := o = ev_Organization row ∧ (p = "" ∨ p = ev_Project row).
Definition may_read (ctx : context) (row : Event) : Prop :=
  ∃ raw o p, granted ctx raw ∧ ResourceScope raw = Some (o, p) ∧ in_scope o p row.
(** Names without URL syntax, in the grants and in the request. *)
Definition plain_scope (o p : string) : Prop := plain_name o ∧ (p = "" ∨ plain_name p).
Definition plain_grants (ctx : context) : Prop := ∀ raw o p, granted ctx raw → ResourceScope raw = Some (o, p) → plain_scope o p.

Lemma ResourcePath_plain o p : plain_scope o p →
  ∃ r, ResourcePath o p = Ok r ∧ r ≠ "" ∧ NormalizeAccessResource r = r ∧ ∀ raw, NormalizeAccessResource raw = r → ResourceScope raw = Some (o, p).
Proof.
  intros [Ho Hp]. pose proof Ho as (HT & Hne & _). unfold ResourcePath. rewrite HT, (proj2 (is_empty_false o) Hne). cbn [andb].
  destruct Hp as [->|Hp].
  - exists (canon_org o). rewrite TrimSpace_nil. split_and!; [done|done|by apply Normalize_canon_org|].
    intros raw Hr. by apply ResourceScope_org, plain_name_path_name.
  - pose proof Hp as (HTp & Hnep & _). rewrite HTp, (proj2 (is_empty_false p) Hnep).
    exists (canon_project o p). split_and!; [done|done|by apply Normalize_canon_project|].
    intros raw Hr. by apply ResourceScope_project; [..|apply plain_name_path_name|apply plain_name_path_name].
Qed.
Lemma elem_of_readable_scopes ctx s :
  s ∈ readable_scopes ctx → ∃ raw, granted ctx raw ∧ ResourceScope raw = Some (us_Organization s, us_Project s).
Proof.
  intros ([raw ms] & Hin & E)%elem_of_dedup_on%list_elem_of_omap. apply elem_of_go_range in Hin. cbn [fst snd] in E.
  destruct (method_set ms "read" || method_set ms "*") eqn:Em; [|done]. exists raw. split; [by exists ms|].
  unfold metricsScopeFromResource in E. destruct (ResourceScope raw) as [[o p]|]; [|done]. cbn in E. by injection E as <-.
Qed.
Lemma elem_of_readableMetricsScopes ctx s :
  s ∈ readableMetricsScopes ctx → s ∈ readable_scopes ctx.
Proof. unfold readableMetricsScopes. rewrite sort_Slice_Permutation. by intros [_ ?]%list_elem_of_filter. Qed.
(** The resources of the query name the scopes of the caller. *)
Lemma metricsResources_scopes scopes :
  Forall (λ s, plain_scope (us_Organization s) (us_Project s)) scopes →
  ∀ sc, sc ∈ resource_scopes (metricsResources scopes) → ∃ s, s ∈ scopes ∧ sc = (us_Organization s, us_Project s).
Proof.
  intros Hpl sc (r & Hin & E)%list_elem_of_omap. apply elem_of_NormalizeAccessResources in Hin as (_ & raw & Hraw & ->).
  unfold metricsResources in Hraw. rewrite elem_of_sort_Strings, elem_of_dedup in Hraw.
  apply list_elem_of_filter in Hraw as [_ (s & Hs & Er)%list_elem_of_omap]. exists s. split; [done|].
  rewrite Forall_forall in Hpl. destruct (ResourcePath_plain _ _ (Hpl s Hs)) as (r & Hr & _ & Hn & Hsc). rewrite Hr in Er.
  injection Er as <-. rewrite (Hsc _) in E by by rewrite Hn. by injection E as <-.
Qed.

(** ** The transfer summary *)
(** The raw query and the parameters of the generated code come from the same request. *)
Definition same_request (query : metricsQueryParams) (params : TransferParams) : Prop :=
  TrimSpace (mq_organization query) = TrimSpace (generatedString (tp_Organization params)) ∧
  TrimSpace (mq_project query) = TrimSpace (generatedString (tp_Project params)).
Definition global_reader (ctx : context) : Prop :=
  HasMethodAccess ctx "read" ["/data_file"] = true ∨ HasMethodAccess ctx "read" ["/programs"] = true.
(** All scopes of the caller are organizations, or all are projects. *)
Definition one_kind (scopes : list UsageScope) : Prop :=
  (∀ s, s ∈ scopes → us_Project s = "") ∨ (∀ s, s ∈ scopes → us_Project s ≠ "").
Definition summary_over (now : Z) (s : usage_state) (ctx : context) (query : metricsQueryParams) (params : TransferParams) : result error (response Summary) :=
  (GetTransferSummary (Some (SqliteDB_reports now)) ctx query params s).2.

Lemma one_kind_resources scopes :
  Forall (λ s, plain_scope (us_Organization s) (us_Project s)) scopes → one_kind scopes →
  of_one_kind (resource_scopes (metricsResources scopes)).
Proof.
  intros Hpl Hk. pose proof (metricsResources_scopes scopes Hpl) as Hsc. destruct Hk as [Hk|Hk]; [right|left]; apply elem_of_nil_inv.
  - intros [o p] [Hne Hin]%list_elem_of_filter. apply Hsc in Hin as (s & Hs & [= -> ->]). by apply Hne, Hk.
  - intros o Hin%elem_of_org_only. apply Hsc in Hin as (s & Hs & [= -> Hp]). by apply (Hk s Hs).
Qed.

(** What an admitted request without a global grant is scoped to. *)
Lemma checkAuth_cases ctx query access :
  IsAuthzEnforced ctx = true → ¬ global_reader ctx → checkAuth ctx query = inr access →
  (∃ o p resource, o ≠ "" ∧ access = mkMetricsAccess o p [] ∧
     o = (if is_empty (TrimSpace (mq_organization query)) then TrimSpace (mq_program query) else TrimSpace (mq_organization query)) ∧
     p = TrimSpace (mq_project query) ∧ ResourcePath o p = Ok resource ∧ HasMethodAccess ctx "read" [resource] = true) ∨
  (TrimSpace (mq_organization query) = "" ∧ TrimSpace (mq_program query) = "" ∧
     readableMetricsScopes ctx ≠ [] ∧ access = mkMetricsAccess "" "" (readableMetricsScopes ctx)).
Proof.
  intros He Hng. unfold checkAuth, resolveMetricsAccess, parseScopeQuery. cbv zeta. rewrite He. cbn [negb].
  set (o := if is_empty (TrimSpace (mq_organization query)) then _ else _). set (p := TrimSpace (mq_project query)).
  assert (HasMethodAccess ctx "read" ["/data_file"] || HasMethodAccess ctx "read" ["/programs"] = false) as ->.
  { apply orb_false_iff. unfold global_reader in Hng. rewrite <- !not_true_iff_false. tauto. }
  assert (TrimSpace o = o) as HT by (unfold o; case_match; apply TrimSpace_idemp).
  destruct (is_empty o) eqn:Eo.
  - rewrite andb_true_r. apply is_empty_spec in Eo as Eo'. destruct (negb (is_empty p)); [done|]. cbn.
    destruct (MissingGen3AuthHeader ctx); [done|]. destruct (readableMetricsScopes ctx) as [|s l] eqn:Es; [done|].
    cbn. intros [= <-]. right. rewrite <- Es. unfold o in Eo'. destruct (is_empty (TrimSpace (mq_organization query))) eqn:E.
    + apply is_empty_spec in E. by rewrite E, Eo', Es.
    + apply is_empty_false in E. done.
  - rewrite andb_false_r. cbn [negb mbind result_bind]. destruct (MissingGen3AuthHeader ctx); [done|]. unfold isScoped.
    cbn [ma_organization ma_project]. rewrite HT, Eo. cbn [negb].
    destruct (ResourcePath o p) as [r|] eqn:Er; [|done]. destruct (HasMethodAccess ctx "read" [r]) eqn:Ea; [|done].
    intros [= <-]. left. exists o, p, r. apply is_empty_false in Eo. done.
Qed.
Lemma report_single now s flt o p :
  TransferSummaryReport (Some (SqliteDB_reports now)) flt (mkScopeQuery o p [] [] false) s = (s, GetTransferAttributionSummary s.1 flt).
Proof.
  unfold TransferSummaryReport, aggregate_transfers, requireReports, mbind, service_bind, mret, service_ret.
  assert (isAggregate (mkScopeQuery o p [] [] false) = false) as -> by (unfold isAggregate; by destruct (isSingle _)). done.
Qed.
Lemma report_scopes now s flt scopes resources :
  TrimSpace (f_Organization flt) = "" → scopes ≠ [] →
  TransferSummaryReport (Some (SqliteDB_reports now)) flt (mkScopeQuery "" "" scopes resources false) s
  = (s, GetTransferAttributionSummaryByResources s.1 flt resources).
Proof.
  intros Ho Hne. unfold TransferSummaryReport, aggregate_transfers, requireReports, mbind, service_bind, mret, service_ret. rewrite Ho.
  assert (isAggregate (mkScopeQuery "" "" scopes resources false) = true) as -> by by destruct scopes. done.
Qed.
Lemma summary_over_access now s ctx query params access r :
  checkAuth ctx query = inr access →
  TransferSummaryReport (Some (SqliteDB_reports now)) (transferParamsToFilter params) (scopeQuery access) s = (s, r) →
  summary_over now s ctx query params
  = (total ← r; Ok (Data (set_freshness (GetTransferFreshness (transferParamsToFilter params)) total))).
Proof.
  intros Ec Er. unfold summary_over, GetTransferSummary, with_auth. rewrite Ec. cbv zeta. unfold mbind at 1, service_bind at 1.
  rewrite Er. by destruct r.
Qed.
(** A caller without a global grant sees the sums of rows that he may read, if the organization of the request is not
    given as a program only, and his scopes are of one kind. *)
Theorem transfer_summary_confined now s ctx query params sm :
  IsAuthzEnforced ctx = true → ¬ global_reader ctx → plain_grants ctx →
  same_request query params →
  plain_scope (TrimSpace (mq_organization query)) (TrimSpace (mq_project query)) ∨
    TrimSpace (mq_organization query) = "" ∧ TrimSpace (mq_program query) = "" ∧ one_kind (readableMetricsScopes ctx) →
  summary_over now s ctx query params = Ok (Data sm) →
  ∃ rows total, (∀ row, row ∈ rows → row ∈ transfer_attribution_event s.1 ∧ may_read ctx row ∧ matches (transferParamsToFilter params) row) ∧
    summary_of rows = Ok total ∧ sm = set_freshness (GetTransferFreshness (transferParamsToFilter params)) total.
Proof.
  intros He Hng Hpl [Hro Hrp] Hshape. set (flt := transferParamsToFilter params).
  destruct (checkAuth ctx query) as [code|access] eqn:Ec;
    [unfold summary_over, GetTransferSummary, with_auth; by rewrite Ec|].
  destruct (checkAuth_cases _ _ _ He Hng Ec) as [(o & p & r & Hne & -> & Eo & Ep & Er & Ha)|(Eo & Epr & Hsc & ->)].
  - destruct Hshape as [Hps|(E1 & E2 & _)]; [|by rewrite E1, E2 in Eo].
    assert (o = TrimSpace (mq_organization query)) as Eo'.
    { destruct (is_empty (TrimSpace (mq_organization query))) eqn:E; [|done]. apply is_empty_spec in E. destruct Hps as [(_ & Hx & _) _]. done. }
    assert (scopeQuery (mkMetricsAccess o p []) = mkScopeQuery o p [] [] false) as Esq
      by (unfold scopeQuery, hasScopeAggregate; by destruct (isScoped _)).
    rewrite (summary_over_access _ _ _ _ _ _ _ Ec) by (rewrite Esq; apply report_single). fold flt.
    intros (total & Et & [= <-])%bind_Ok. unfold GetTransferAttributionSummary in Et.
    eexists (selected (transferAttributionWhere flt) (transfer_attribution_event s.1)), total. split_and!; [|done|done].
    intros row Hrow. rewrite (surjective_pairing (transferAttributionWhere flt)) in Hrow.
    rewrite <- (app_nil_r (transferAttributionWhere flt).1), <- (app_nil_r (transferAttributionWhere flt).2) in Hrow.
    apply selected_where in Hrow as (Hin & Hm & _). split_and!; [done| |done].
    rewrite <- Eo', <- Ep in Hps. destruct (ResourcePath_plain o p Hps) as (r' & Er' & _ & Hn & Hscope). rewrite Er in Er'. injection Er' as <-.
    destruct (granted_of_access ctx r He Ha) as (raw & Hg & Hraw). exists raw, o, p. split; [done|]. split; [apply Hscope; by rewrite Hraw|].
    destruct Hm as [[Hmo Hmp] _ _ _ _ _ _]. unfold flt, transferParamsToFilter in Hmo, Hmp. cbn in Hmo, Hmp.
    unfold text_matches in Hmo, Hmp. rewrite <- Hro, <- Eo' in Hmo. rewrite <- Hrp, <- Ep in Hmp. split; [by destruct Hmo|].
    destruct Hmp; [by left|by right].
  - destruct Hshape as [Hps|(_ & _ & Hk)]; [by rewrite Eo in Hps; destruct Hps as [(_ & Hx & _) _]|].
    set (scopes := readableMetricsScopes ctx) in *.
    assert (Forall (λ s, plain_scope (us_Organization s) (us_Project s)) scopes) as Hps.
    { apply Forall_forall. intros sc Hin. apply elem_of_readableMetricsScopes, elem_of_readable_scopes in Hin as (raw & Hg & Hr). by eapply Hpl. }
    assert (scopeQuery (mkMetricsAccess "" "" scopes) = mkScopeQuery "" "" scopes (metricsResources scopes) false) as Esq.
    { unfold scopeQuery, hasScopeAggregate, isScoped. cbn. by destruct scopes. }
    rewrite (summary_over_access _ _ _ _ _ _ (GetTransferAttributionSummaryByResources s.1 flt (metricsResources scopes)) Ec).
    2: { rewrite Esq. apply report_scopes; [|done]. unfold flt, transferParamsToFilter. cbn [f_Organization]. by rewrite <- Hro. }
    fold flt. intros (total & Et & [= <-])%bind_Ok.
    eexists (selected (transferAttributionWhereByResources flt (metricsResources scopes)) (transfer_attribution_event s.1)), total. split_and!; [|done|done].
    intros row Hrow. apply select_by_resources' in Hrow as (Hin & Hm & Hany).
    apply clause_of_one_kind in Hany; [|by apply one_kind_resources]. split_and!; [done| |done].
    destruct Hany as (sc & Hsc' & Ho & Hp). apply (metricsResources_scopes scopes Hps) in Hsc' as (u & Hu & ->).
    apply elem_of_readableMetricsScopes, elem_of_readable_scopes in Hu as (raw & Hg & Hr).
    exists raw, (us_Organization u), (us_Project u). done.
Qed.
End properties.

(** ** The scopes of an aggregate report *)
Section scopes.
Context `{MapOrder}.
Definition nul_byte : Ascii.ascii := Ascii.ascii_of_nat 0.
Lemma scope_key_inj s t : plain_name (us_Organization s) → plain_name (us_Organization t) → scope_key s = scope_key t → s = t.
Proof.
  intros (_ & _ & Hs & _) (_ & _ & Ht & _) E. unfold scope_key in E. change nul with (String nul_byte "") in E.
  pose proof (Cut_app _ nul_byte "" (us_Project s) (plain_avoid nul_byte _ Hs eq_refl)) as Es.
  pose proof (Cut_app _ nul_byte "" (us_Project t) (plain_avoid nul_byte _ Ht eq_refl)) as Et.
  rewrite E, Et in Es. injection Es as Eo Ep. destruct s, t. simpl in *. by subst.
Qed.
Lemma granted_readable ctx raw o p :
  plain_grants ctx → granted ctx raw → ResourceScope raw = Some (o, p) → mkUsageScope o p ∈ readable_scopes ctx.
Proof.
  intros Hpl Hg Hr. unfold readable_scopes. set (l := omap _ _).
  assert (∀ s, s ∈ l → ∃ raw, granted ctx raw ∧ ResourceScope raw = Some (us_Organization s, us_Project s)) as Hl.
  { intros s ([raw' ms] & Hin & E)%list_elem_of_omap. apply elem_of_go_range in Hin. cbn [fst snd] in E.
    destruct (method_set ms "read" || method_set ms "*") eqn:Em; [|done]. exists raw'. split; [by exists ms|].
    unfold metricsScopeFromResource in E. destruct (ResourceScope raw') as [[o' p']|]; [|done]. cbn in E. by injection E as <-. }
  destruct (dedup_on_complete scope_key l (mkUsageScope o p)) as (s & Hs & Ek).
  { apply list_elem_of_omap. destruct Hg as (ms & Hms & Em). exists (raw, ms). split; [by apply elem_of_go_range|].
    cbn [fst snd]. rewrite Em. unfold metricsScopeFromResource. by rewrite Hr. }
  destruct (Hl s (elem_of_dedup_on _ _ _ Hs)) as (raw' & Hg' & Hr').
  apply scope_key_inj in Ek; [by subst|by destruct (Hpl _ _ _ Hg' Hr')|by destruct (Hpl _ _ _ Hg Hr)].
Qed.
(** The scopes of an aggregate report cover exactly what the caller was granted, and do not overlap: each appears once,
    and an organization stands for its projects; so a sum over the scopes counts no row twice. *)
Theorem readable_scopes_disjoint ctx :
  plain_grants ctx →
  (∀ raw o p, granted ctx raw → ResourceScope raw = Some (o, p) →
     ∃ s, s ∈ readableMetricsScopes ctx ∧ us_Organization s = o ∧ (us_Project s = "" ∨ us_Project s = p)) ∧
  (∀ s, s ∈ readableMetricsScopes ctx → ∃ raw, granted ctx raw ∧ ResourceScope raw = Some (us_Organization s, us_Project s)) ∧
  NoDup (readableMetricsScopes ctx) ∧
  (∀ row s t, s ∈ readableMetricsScopes ctx → t ∈ readableMetricsScopes ctx →
     in_scope (us_Organization s) (us_Project s) row → in_scope (us_Organization t) (us_Project t) row → s = t).
Proof.
  intros Hpl.
  assert (∀ s, s ∈ readableMetricsScopes ctx ↔ s ∈ readable_scopes ctx ∧
    (us_Project s = "" ∨ mkUsageScope (us_Organization s) "" ∉ readable_scopes ctx)) as Hin.
  { intros s. unfold readableMetricsScopes. rewrite sort_Slice_Permutation, list_elem_of_filter, list_elem_of_fmap. split.
    - intros [Hn Hs]. split; [done|]. destruct (decide (us_Project s = "")) as [|Hp]; [by left|]. right. intros Ho. apply Hn. split; [done|].
      exists (mkUsageScope (us_Organization s) ""). split; [done|]. by apply list_elem_of_filter.
    - intros [Hs Hor]. split; [|done]. intros [Hp (t & Et & [Ht Hin]%list_elem_of_filter)]. destruct Hor as [|Hor]; [done|].
      apply Hor. rewrite Et. destruct t as [o p]. simpl in *. by rewrite <- Ht. }
  split_and!.
  - intros raw o p Hg Hr. pose proof (granted_readable ctx raw o p Hpl Hg Hr) as Hs.
    destruct (decide (mkUsageScope o "" ∈ readable_scopes ctx)) as [Ho|Ho].
    + exists (mkUsageScope o ""). rewrite Hin. simpl. auto.
    + exists (mkUsageScope o p). rewrite Hin. simpl. auto.
  - intros s Hs. by apply elem_of_readable_scopes, elem_of_readableMetricsScopes.
  - unfold readableMetricsScopes. rewrite sort_Slice_Permutation. apply NoDup_filter. unfold readable_scopes.
    eapply NoDup_fmap_1, NoDup_dedup_on.
  - intros row s t [Hs Hs']%Hin [Ht Ht']%Hin [Eos Eps] [Eot Ept]. destruct s as [o p], t as [o' p']. simpl in *. subst o o'.
    destruct (decide (p = "")) as [->|Hp], (decide (p' = "")) as [->|Hp']; [done| | |].
    + destruct Ht' as [|Hn]; [done|]. by destruct Hn.
    + destruct Hs' as [|Hn]; [done|]. by destruct Hn.
    + destruct Eps as [|Eps]; [done|]. destruct Ept as [|Ept]; [done|]. by rewrite Eps, Ept.
Qed.
End scopes.

(** ** Usage by object ids *)
Section bulk.
Context `{MapOrder}.
(** The ids that the object service lists for the caller, in one of the scopes of the query. *)
Definition selected_scopes (scope : ScopeQuery) : list UsageScope :=
  if isSingle scope then [mkUsageScope (sq_Organization scope) (sq_Project scope)] else sq_Scopes scope.
Definition listed {S} (reader : ObjectReader S) (scopes : list UsageScope) (id : string) : Prop :=
  ∃ sc st st' ids, sc ∈ scopes ∧
    or_ListObjectIDsByScope reader (us_Organization sc) (us_Project sc) "read" st = (st', Ok ids) ∧ id ∈ TrimSpace <$> ids.
Lemma ListReadableObjectIDs_spec {S} (reader : ObjectReader S) scope requested st st' out :
  ListReadableObjectIDs (Some reader) scope requested st = (st', Ok out) →
  ∀ id, id ∈ out → id ∈ requested ∧ (isSingle scope || isAggregate scope = true → listed reader (selected_scopes scope) (TrimSpace id)).
Proof.
  unfold ListReadableObjectIDs. rewrite <- negb_orb. destruct (isSingle scope || isAggregate scope) eqn:Es; cbn [negb].
  2: { by intros [= <- <-]. }
  cbn [requireObjects]. unfold mbind at 1, service_bind at 1, mret at 1, service_ret at 1. cbv zeta. fold (selected_scopes scope).
  unfold mbind at 1, service_bind at 1. destruct (service_fold _ [] _ st) as [st1 [readable|e]] eqn:E; [|done].
  intros [= <- <-] id [Hr Hin]%list_elem_of_filter. split; [done|]. intros _.
  assert (∀ scopes acc st st1 readable, service_fold (λ readable s,
      ids ← or_ListObjectIDsByScope reader (us_Organization s) (us_Project s) "read"; mret (readable ++ filter (.≠ "") (TrimSpace <$> ids)))
      acc scopes st = (st1, Ok readable) → ∀ id, id ∈ readable → id ∈ acc ∨ listed reader scopes id) as Hfold.
  { clear. induction scopes as [|sc scopes IH]; intros acc st st1 readable; [by intros [= <- <-]; left|].
    cbn [service_fold]. intros (st2 & mid & (st3 & ids & E & [= <- <-])%service_bind_Ok & Hrest)%service_bind_Ok.
    intros id Hid. destruct (IH _ _ _ _ Hrest id Hid) as [[?|[_ Hf]%list_elem_of_filter]%elem_of_app|(s' & a & b & l & ? & ?)].
    - by left.
    - right. exists sc, st, st3, ids. split; [left|done].
    - right. exists s', a, b, l. split; [by right|done]. }
  destruct (Hfold _ _ _ _ _ E _ Hr) as [Hn|?]; [by apply elem_of_nil in Hn|done].
Qed.
Lemma listed_usage now ids s s' data :
  rs_ListFileUsageByObjectIDs (SqliteDB_reports now) ids s = (s', Ok data) → ∀ u, u ∈ data → fu_ObjectID u ∈ ids.
Proof.
  destruct s as [attribution db]. unfold SqliteDB_reports, on_content_ok, on_content. cbn [rs_ListFileUsageByObjectIDs].
  unfold ListFileUsageByObjectIDs. destruct ids as [|i ids]; [intros [= <- <-] u Hu; by apply elem_of_nil in Hu|].
  cbv zeta. set (all := concat _). intros [= <- <-] u Hall. unfold all in Hall. clear all. revert Hall. intros (l & (chunk & -> & Hc)%list_elem_of_fmap & Hu)%elem_of_concat.
  apply elem_of_usage_rows in Hu as (id & o & _ & Hp%bool_decide_eq_true & ->). rewrite fu_ObjectID_usage_of.
  apply elem_of_chunks_of in Hc as (_ & Hsub & _). by apply Hsub.
Qed.
(** A bulk request returns the usage of objects that were asked for, and, for a request of a scope or a caller with
    scopes, of objects that the object service lists for "read" in these scopes. *)
Theorem bulk_usage_confined now (reader : ObjectReader usage_state) s s' ctx query ids days data :
  BulkMetricsFiles (Some (SqliteDB_reports now)) (Some reader) now ctx query (Some (ids, days)) s = (s', Ok (Data data)) →
  ∃ access, checkAuth ctx query = inr access ∧
    ∀ u, u ∈ data → fu_ObjectID u ∈ uniqueNonEmptyStrings ids ∧
      (isSingle (scopeQuery access) || isAggregate (scopeQuery access) = true →
       listed reader (selected_scopes (scopeQuery access)) (fu_ObjectID u)).
Proof.
  unfold BulkMetricsFiles. cbv zeta. case_bool_decide; [done|]. destruct (parseInactiveSince now days) as [inactive|e]; [|done].
  unfold with_auth. destruct (checkAuth ctx query) as [code|access]; [done|]. unfold readable_ids.
  intros (s1 & out & Er & (s2 & store & [= <- <-] & (s3 & got & El & [= <- <-])%service_bind_Ok)%service_bind_Ok)%service_bind_Ok.
  exists access. split; [done|]. intros u [_ Hu]%list_elem_of_filter.
  pose proof (listed_usage _ _ _ _ _ El u Hu) as Hout. destruct (ListReadableObjectIDs_spec _ _ _ _ _ _ Er _ Hout) as [Hin Hl].
  split; [done|]. intros Hs. apply Hl in Hs. assert (TrimSpace (fu_ObjectID u) = fu_ObjectID u) as <-; [|done].
  unfold uniqueNonEmptyStrings in Hin. rewrite elem_of_dedup in Hin. apply list_elem_of_filter in Hin as [_ (x & -> & _)%list_elem_of_fmap].
  apply TrimSpace_idemp.
Qed.
End bulk.

(** ** The program parameter *)
Section leaks.
Context `{MapOrder}.
Definition no_params : TransferParams := mkTransferParams None None None None None None None None None None None.
(** The scope of a request may be given as a program, but the filter of the report does not know that parameter: a caller
    who may read one organization reads the sums of the whole table. *)
Theorem program_parameter_leaks now s ctx o :
  plain_name o → IsAuthzEnforced ctx = true → HasMethodAccess ctx "read" [canon_org o] = true →
  summary_over now s ctx (mkMetricsQuery "" o "") no_params
  = (total ← summary_of (transfer_attribution_event s.1);
     Ok (Data (set_freshness (GetTransferFreshness (transferParamsToFilter no_params)) total))).
Proof.
  intros Ho He Ha. pose proof Ho as (HT & Hne & _).
  assert (MissingGen3AuthHeader ctx = false) as Hh.
  { unfold HasMethodAccess in Ha. rewrite He in Ha. cbn [negb] in Ha. unfold MissingGen3AuthHeader. by destruct (_ && _). }
  assert (checkAuth ctx (mkMetricsQuery "" o "") = inr (mkMetricsAccess o "" [])) as Ec.
  { unfold checkAuth, resolveMetricsAccess, parseScopeQuery. cbv zeta. cbn [mq_organization mq_program mq_project].
    rewrite TrimSpace_nil, HT. cbn [is_empty]. rewrite (proj2 (is_empty_false o) Hne). cbn [negb andb mbind result_bind].
    rewrite He, Hh. cbn [negb]. destruct (HasMethodAccess ctx "read" ["/data_file"] || _); [done|]. unfold isScoped.
    cbn [ma_organization ma_project]. rewrite HT, (proj2 (is_empty_false o) Hne). cbn [negb].
    destruct (ResourcePath_plain o "") as (r & Er & _); [by split; [|left]|]. rewrite Er.
    unfold ResourcePath in Er. rewrite HT, (proj2 (is_empty_false o) Hne), TrimSpace_nil in Er. cbn in Er. injection Er as <-.
    change ("/organization/" +:+ o) with (canon_org o). by rewrite Ha. }
  rewrite (summary_over_access _ _ _ _ _ _ (GetTransferAttributionSummary s.1 (transferParamsToFilter no_params)) Ec).
  - f_equal. unfold GetTransferAttributionSummary. f_equal. unfold selected. by apply filter_all_True.
  - assert (scopeQuery (mkMetricsAccess o "" []) = mkScopeQuery o "" [] [] false) as ->
      by (unfold scopeQuery, hasScopeAggregate; by destruct (isScoped _)). apply report_single.
Qed.
End leaks.

(** ** Witnesses *)
Section samples.
#[local] Existing Instance canonical_order.
Definition reader_of (grants : list string) : context :=
  Some (mkSession "gen3" "gen3-fence" "ada" [] (list_to_map ((λ r, (r, {["read" := true]})) <$> grants)) true true).
Lemma granted_reader grants raw : granted (reader_of grants) raw → raw ∈ grants.
Proof.
  intros (ms & Hms & _). change (GetUserPrivileges (reader_of grants)) with
    (list_to_map ((λ r, (r, {["read" := true]})) <$> grants) : gmap string (gmap string bool)) in Hms.
  apply elem_of_list_to_map_2 in Hms. apply list_elem_of_fmap in Hms as (r & [= -> _] & Hr). done.
Qed.
(** A list of grants whose scopes are plain, checked by computation. *)
Definition plain_list (grants : list string) : Prop :=
  Forall (λ r, match ResourceScope r with Some (o, p) => plain_name o ∧ (p = "" ∨ plain_name p) | None => True end) grants.
#[local] Instance plain_list_dec grants : Decision (plain_list grants).
Proof. apply Forall_dec. intros r. destruct (ResourceScope r) as [[o p]|]; apply _. Defined.
Lemma plain_reader grants : plain_list grants → plain_grants (reader_of grants).
Proof.
  intros Hl raw o p Hg Hr. unfold plain_list in Hl. rewrite Forall_forall in Hl. specialize (Hl raw (granted_reader _ _ Hg)). by rewrite Hr in Hl.
Qed.
Definition metrics_rows : list Event :=
  [sample_row "e1" "a" "p" 1; sample_row "e2" "a" "q" 2; sample_row "e3" "b" "p" 4; sample_row "e4" "c" "p" 8].
Definition metrics_state : usage_state := (mkAttribution metrics_rows ∅ [], usage_db).
Definition no_query : metricsQueryParams := mkMetricsQuery "" "" "".
Lemma transfer_summary_confined_witness :
  ∃ sm (rows : list Event), summary_over 40 metrics_state (reader_of ["/organization/a"]) no_query no_params = Ok (Data sm) ∧
    sm_BytesRequested sm = 3%Z ∧ ∀ row, row ∈ rows → may_read (reader_of ["/organization/a"]) row.
Proof.
  destruct (summary_over 40 metrics_state (reader_of ["/organization/a"]) no_query no_params) as [[code|sm]|e] eqn:E;
    [vm_compute in E; discriminate E| |vm_compute in E; discriminate E].
  destruct (transfer_summary_confined 40 metrics_state (reader_of ["/organization/a"]) no_query no_params sm) as (rows & total & Hr & _);
    [reflexivity|intros [Hx|Hx]; vm_compute in Hx; discriminate Hx|apply plain_reader; by apply (bool_decide_unpack _); vm_compute
    |by split| |exact E|].
  - right. split; [reflexivity|]. split; [reflexivity|]. left. intros s Hs.
    assert (readableMetricsScopes (reader_of ["/organization/a"]) = [mkUsageScope "a" ""]) as Es by by vm_compute.
    rewrite Es in Hs. apply list_elem_of_singleton in Hs. by subst.
  - exists sm, rows. split; [reflexivity|]. split; [vm_compute in E; injection E as <-; reflexivity|]. intros row Hrow. by apply Hr.
Defined.
Lemma program_parameter_leaks_witness :
  ∃ sm, summary_over 40 metrics_state (reader_of ["/organization/a"]) (mkMetricsQuery "" "a" "") no_params = Ok (Data sm) ∧
    sm_BytesRequested sm = 15%Z.
Proof.
  rewrite (program_parameter_leaks 40 metrics_state (reader_of ["/organization/a"]) "a");
    [|by apply (bool_decide_unpack _); vm_compute|reflexivity|by vm_compute].
  eexists. split; [reflexivity|]. by vm_compute.
Defined.
Definition two_grants : list string := ["/organization/a"; "/organization/a/project/p"; "/organization/b/project/p"].
Lemma readable_scopes_disjoint_witness :
  readableMetricsScopes (reader_of two_grants) = [mkUsageScope "a" ""; mkUsageScope "b" "p"] ∧
  NoDup (readableMetricsScopes (reader_of two_grants)).
Proof.
  split; [by vm_compute|]. apply readable_scopes_disjoint. apply plain_reader. by apply (bool_decide_unpack _); vm_compute.
Defined.
(** The caller of [two_grants] sees organization [b] whole, and nothing of organization [a]. *)
Example mixed_grants_leak :
  (sm_BytesRequested <$> match summary_over 40 (mkAttribution (metrics_rows ++ [sample_row "e5" "b" "secret" 16]) ∅ [], usage_db)
     (reader_of two_grants) no_query no_params with Ok (Data sm) => Some sm | _ => None end) = Some 20%Z.
Proof. by vm_compute. Qed.
Definition sample_reader : ObjectReader usage_state := {|
  or_GetObject := λ id _ s, (s, Ok None);
  or_ListObjectIDsByScope := λ o p _ s, (s, Ok (if String.eqb o "ohsu" then [" a "] else [])) |}.
Lemma bulk_usage_confined_witness :
  ∃ s' data, BulkMetricsFiles (Some (SqliteDB_reports 40)) (Some sample_reader) 40 (reader_of ["/organization/ohsu"]) no_query
      (Some ([" b"; "a"; "a"], None)) metrics_state = (s', Ok (Data data)) ∧
    fu_ObjectID <$> data = ["a"] ∧ ∀ u, u ∈ data → fu_ObjectID u ∈ ["b"; "a"].
Proof.
  destruct (BulkMetricsFiles (Some (SqliteDB_reports 40)) (Some sample_reader) 40 (reader_of ["/organization/ohsu"]) no_query
      (Some ([" b"; "a"; "a"], None)) metrics_state) as [s' [[code|data]|e]] eqn:E;
    [vm_compute in E; discriminate E| |vm_compute in E; discriminate E].
  exists s', data. split; [reflexivity|]. split; [vm_compute in E; injection E as _ <-; reflexivity|].
  destruct (bulk_usage_confined 40 sample_reader metrics_state s' _ _ _ _ _ E) as (access & _ & Hu).
  intros u Hin. apply Hu in Hin as [Hin _]. vm_compute uniqueNonEmptyStrings in Hin. exact Hin.
Defined.
End samples.
