(* ===== verification/AccessIssue.v ===== *)
(** * Issuing access: internal/transfers (access_issuance.go, access_events.go)
    A caller gets a signed URL for an access method of an object that it may read, after the access has been recorded
    as an event.  What the request carries besides the session is a [Caller]; [clock] reads the time. *)
From S2P Require Import Prelude GoStrings GoURL Errors Resources Policy Objects Address Buckets Targets Attribution.
Record Caller := mkCaller { cl_ctx : context; cl_RequestID : string; cl_Claims : gmap string string (* the text claims *) }.
Record AccessScope := mkAccessScope { as_Organization : string; as_Project : string }.
Record AccessRequest := mkAccessRequest {
  ar_Object : option ObjectRecord; ar_Scope : option AccessScope; ar_AccessID : string; ar_Direction : string;
  ar_StorageURL : string; ar_RangeStart : option Z; ar_RangeEnd : option Z; ar_BytesRequested : Z; ar_ClientName : string;
  ar_ClientVersion : string }.
(** A request for the access to an object, with the other fields left zero. *)
Definition access_request (obj : ObjectRecord) (scope : option AccessScope) (direction accessID storageURL : string) : AccessRequest :=
  mkAccessRequest (Some obj) scope accessID direction storageURL None None 0 "" "".

(** ** access_events.go *)
Definition accessMethods (obj : ObjectRecord) : list AccessMethod := slice (r_AccessMethods obj).
Definition accessMethodID (method : AccessMethod) : string :=
  match am_AccessId method with
  | Some id => if is_empty (TrimSpace id) then TrimSpace (am_Type method) else TrimSpace id
  | None => TrimSpace (am_Type method)
  end.
Definition providerBucket (raw : string) : string * string :=
  match url_Parse (TrimSpace raw) with
  | Some parsed => (ProviderFromScheme (url_Scheme parsed), TrimSpace (url_Host parsed))
  | None => ("", "")
  end.
Definition sha256ForObject (obj : ObjectRecord) : string :=
  default "" (head (omap (λ c, if EqualFold (cs_Type c) "sha256" then Some (TrimSpace (cs_Checksum c)) else None) (slice (r_Checksums obj)))).
Definition actorSubject (caller : Caller) : string := TrimSpace (Subject (FromContext (cl_ctx caller))).
Definition claim_email (claims : gmap string string) (key : string) : option string :=
  match claims !! key with Some value => if Contains value "@" then Some (TrimSpace value) else None | None => None end.
Definition actorEmail (caller : Caller) : string :=
  match omap (claim_email (cl_Claims caller)) ["email"; "preferred_username"; "username"] with
  | email :: _ => email
  | [] => if Contains (actorSubject caller) "@" then actorSubject caller else ""
  end.
Definition authMode (caller : Caller) : string := TrimSpace (Mode (FromContext (cl_ctx caller))).
(** The first access methods give an access id and a location that the request leaves open. *)
Fixpoint complete_location (methods : list AccessMethod) (accessID storageURL : string) : string * string :=
  match methods with
  | [] => (accessID, storageURL)
  | method :: methods =>
      if negb (is_empty accessID) && negb (EqualFold (accessMethodID method) accessID) then complete_location methods accessID storageURL
      else
        let accessID := if is_empty accessID then accessMethodID method else accessID in
        let storageURL := match am_AccessUrl method with Some u => TrimSpace (au_Url u) | None => storageURL end in
        if negb (is_empty storageURL) then (accessID, storageURL) else complete_location methods accessID storageURL
  end.

Section access.
Context `{MapOrder} `{Digests}.
Definition explicitScopeForAccess (obj : ObjectRecord) (selected : AccessScope) : string * string :=
  match ResourcePath (as_Organization selected) (as_Project selected) with
  | Err _ => ("", "")
  | Ok resource =>
      if is_empty resource then ("", "")
      else match ResourceScope resource with
           | None => ("", "")
           | Some (organization, project) =>
               if existsb (λ candidate, String.eqb candidate resource) (AccessResources obj) then (organization, project) else ("", "")
           end
  end.
Definition scopeForAccess (ctx : context) (obj : ObjectRecord) (selected : option AccessScope) (direction : string) : string * string :=
  match selected with
  | Some selected =>
      let '(organization, project) := explicitScopeForAccess obj selected in
      if is_empty organization then ("", "")
      else
        let method := if String.eqb direction ProviderTransferDirectionUpload then "update" else "read" in
        match ResourcePath organization project with
        | Err _ => ("", "")
        | Ok resource => if HasObjectMethodAccess ctx method [resource] then (organization, project) else ("", "")
        end
  | None =>
      match AccessResources obj with
      | [resource] => default ("", "") (ResourceScope resource)
      | _ => ("", "")
      end
  end.
Definition requested_bytes (request : AccessRequest) (obj : ObjectRecord) : Z :=
  let bytes := ar_BytesRequested request in
  let bytes := match ar_RangeStart request, ar_RangeEnd request with
               | Some first, Some last => if (bytes <=? 0)%Z && (first <=? last)%Z then wrap64 (last - first + 1) else bytes
               | _, _ => bytes
               end in
  if (bytes <=? 0)%Z then r_Size obj else bytes.
Definition eventFromObject (now : Z) (caller : Caller) (request : AccessRequest) (obj : ObjectRecord) : Event :=
  let storageURL := TrimSpace (ar_StorageURL request) in
  let accessID := TrimSpace (ar_AccessID request) in
  let '(accessID, storageURL) := if is_empty storageURL || is_empty accessID then complete_location (accessMethods obj) accessID storageURL
                                 else (accessID, storageURL) in
  let '(provider, bucket) := providerBucket storageURL in
  let direction := if String.eqb (ToLower (TrimSpace (ar_Direction request))) ProviderTransferDirectionUpload
                   then ProviderTransferDirectionUpload else ProviderTransferDirectionDownload in
  let '(organization, project) := scopeForAccess (cl_ctx caller) obj (ar_Scope request) direction in
  let event id grant := mkEvent id grant TransferEventAccessIssued direction now (cl_RequestID caller) (r_Id obj) (sha256ForObject obj)
    (r_Size obj) organization project accessID provider bucket storageURL (ar_RangeStart request) (ar_RangeEnd request)
    (requested_bytes request obj) 0 (actorEmail caller) (actorSubject caller) (authMode caller) (ar_ClientName request)
    (ar_ClientVersion request) "" in
  event (EventID (event "" "")) (GrantID (event "" "")).

Context {S : Type} `{!TransferPorts S Event} (clock : S → Z).
Definition RecordAccessIssued (caller : Caller) (request : AccessRequest) : service S unit :=
  match ar_Object request with
  | None => mret tt
  | Some obj =>
      match port_RecordEvents with
      | None => fail (EText "transfer event recorder is not configured")
      | Some record =>
          now ← ask (λ s, Ok (clock s));
          let event := eventFromObject now caller request obj in
          if is_empty (ev_EventID event) then mret tt else record [event]
      end
  end.

(** ** access_issuance.go *)
Record AccessLookupResult := mkLookupResult { lr_Found : bool; lr_URL : string }.
Record BulkAccessLookupRequest := mkBulkLookup { bl_ObjectID : string; bl_AccessIDs : list string }.
Record ResolvedAccess := mkResolvedAccess { ra_ObjectID : string; ra_AccessID : string; ra_URL : string }.
Record BulkAccessLookupResult := mkBulkResult {
  br_Requested : Z; br_Resolved : list ResolvedAccess; br_UnresolvedObjectIDs : list string }.

Definition rawAccessID (accessID : option string) : string := default "" accessID.
(** The methods with a location: the first whose id is the one asked for, else the only one of that type. *)
Definition located (method : AccessMethod) : option (AccessMethod * string) :=
  match am_AccessUrl method with
  | Some u => if is_empty (TrimSpace (au_Url u)) then None else Some (method, au_Url u)
  | None => None
  end.
Definition accessURLForID (obj : ObjectRecord) (accessID : string) : string :=
  let accessID := TrimSpace accessID in
  if is_empty accessID then ""
  else
    let methods := omap located (accessMethods obj) in
    match filter (λ m, EqualFold (rawAccessID (am_AccessId m.1)) accessID = true) methods with
    | (_, url) :: _ => url
    | [] => match filter (λ m, EqualFold (TrimSpace (am_Type m.1)) accessID = true) methods with
            | [(_, url)] => url
            | _ => ""
            end
    end.
Definition download_options (obj : ObjectRecord) : AccessOptions :=
  mkAccessOptions 0 "GET" (match r_Name obj with Some name => DownloadFilename name | None => "" end).
Definition issueObject (caller : Caller) (obj : ObjectRecord) (accessID : string) : service S AccessLookupResult :=
  let targetURL := accessURLForID obj accessID in
  if is_empty targetURL then mret (mkLookupResult false "")
  else
    signed ← SignObjectURL obj targetURL (download_options obj);
    _ ← RecordAccessIssued caller (access_request obj None ProviderTransferDirectionDownload accessID targetURL);
    mret (mkLookupResult true signed).

Context (GetObject : string → string → service S ObjectRecord).
Definition Issue (caller : Caller) (objectID accessID : string) : service S AccessLookupResult :=
  obj ← GetObject objectID "read";
  issueObject caller obj accessID.
Definition unresolved (n : Z) (ids : list string) (result : BulkAccessLookupResult) : BulkAccessLookupResult :=
  mkBulkResult (br_Requested result + n) (br_Resolved result) (br_UnresolvedObjectIDs result ++ ids).
Fixpoint issue_ids (caller : Caller) (objectID : string) (obj : ObjectRecord) (ids : list string) (result : BulkAccessLookupResult)
  : service S BulkAccessLookupResult :=
  match ids with
  | [] => mret result
  | rawAccessID :: ids =>
      let accessID := TrimSpace rawAccessID in
      resolved ← attempt (issueObject caller obj accessID);
      issue_ids caller objectID obj ids
        (match resolved with
         | Ok (mkLookupResult true url) =>
             mkBulkResult (br_Requested result + 1) (br_Resolved result ++ [mkResolvedAccess objectID accessID url]) (br_UnresolvedObjectIDs result)
         | _ => unresolved 1 [objectID] result
         end)
  end.
Fixpoint issue_requests (caller : Caller) (requests : list BulkAccessLookupRequest) (result : BulkAccessLookupResult)
  : service S BulkAccessLookupResult :=
  match requests with
  | [] => mret result
  | request :: requests =>
      let objectID := TrimSpace (bl_ObjectID request) in
      if is_empty objectID || bool_decide (length (bl_AccessIDs request) = 0) then
        issue_requests caller requests (unresolved 1 (if is_empty objectID then [] else [objectID]) result)
      else
        obj ← attempt (GetObject objectID "read");
        match obj with
        | Err _ => issue_requests caller requests (unresolved (Z.of_nat (length (bl_AccessIDs request))) [objectID] result)
        | Ok obj => result ← issue_ids caller objectID obj (bl_AccessIDs request) result; issue_requests caller requests result
        end
  end.
Definition IssueBulk (caller : Caller) (requests : list BulkAccessLookupRequest) : service S BulkAccessLookupResult :=
  issue_requests caller requests (mkBulkResult 0 [] []).
End access.

(** * What issuing access promises *)
(** ** Attribution to a scope *)
Section scope.
Context `{MapOrder} `{Digests}.
(** The scope is that of one of the resources of the object; a scope that the request selects is, besides, one on which
    the caller may read (or update, for an upload). *)
Definition attributed (ctx : context) (obj : ObjectRecord) (selected : option AccessScope) (direction organization project : string) : Prop :=
  (organization = "" ∧ project = "") ∨
  ∃ resource, resource ∈ AccessResources obj ∧ ResourceScope resource = Some (organization, project) ∧
    (is_Some selected → ∃ named, ResourcePath organization project = Ok named ∧
       HasObjectMethodAccess ctx (if String.eqb direction ProviderTransferDirectionUpload then "update" else "read") [named] = true).
Lemma explicit_scope obj selected o p :
  explicitScopeForAccess obj selected = (o, p) → o ≠ "" →
  ∃ resource, resource ∈ AccessResources obj ∧ ResourceScope resource = Some (o, p).
Proof.
  unfold explicitScopeForAccess. destruct (ResourcePath _ _) as [r|]; [|by intros [= <- <-]]. destruct (is_empty r); [by intros [= <- <-]|].
  destruct (ResourceScope r) as [[o' p']|] eqn:Er; [|by intros [= <- <-]]. destruct (existsb _ _) eqn:Ex; [|by intros [= <- <-]].
  intros [= <- <-] _. apply existsb_exists in Ex as (c & Hin%list_elem_of_In & ->%String.eqb_eq). by exists r.
Qed.
Lemma scope_attributed ctx obj selected direction :
  attributed ctx obj selected direction (scopeForAccess ctx obj selected direction).1 (scopeForAccess ctx obj selected direction).2.
Proof.
  unfold scopeForAccess. destruct selected as [selected|].
  - destruct (explicitScopeForAccess obj selected) as [o p] eqn:E. destruct (is_empty o) eqn:Eo; [by left|].
    apply is_empty_false in Eo. destruct (ResourcePath o p) as [named|] eqn:En; [|by left]. cbv zeta.
    destruct (HasObjectMethodAccess _ _ _) eqn:Ea; [|by left]. right. destruct (explicit_scope _ _ _ _ E Eo) as (r & Hr & Hs).
    exists r. split_and!; [done|done|]. intros _. by exists named.
  - destruct (AccessResources obj) as [|r [|]] eqn:Er; [by left| |by left]. destruct (ResourceScope r) as [[o p]|] eqn:Es; [|by left].
    right. exists r. rewrite Er. split_and!; [left|done|]. by intros [].
Qed.
Lemma event_fields now caller request obj :
  let ev := eventFromObject now caller request obj in
  ev_EventType ev = TransferEventAccessIssued ∧ ev_ObjectID ev = r_Id obj ∧ ev_EventTime ev = now ∧
  ev_RequestID ev = cl_RequestID caller ∧ ev_ActorSubject ev = actorSubject caller ∧
  ev_Direction ev = (if String.eqb (ToLower (TrimSpace (ar_Direction request))) ProviderTransferDirectionUpload
                     then ProviderTransferDirectionUpload else ProviderTransferDirectionDownload) ∧
  attributed (cl_ctx caller) obj (ar_Scope request) (ev_Direction ev) (ev_Organization ev) (ev_Project ev) ∧
  (TrimSpace (ar_AccessID request) ≠ "" → TrimSpace (ar_StorageURL request) ≠ "" →
   ev_AccessID ev = TrimSpace (ar_AccessID request) ∧ ev_StorageURL ev = TrimSpace (ar_StorageURL request)).
Proof.
  unfold eventFromObject. cbv zeta.
  destruct (if is_empty (TrimSpace (ar_StorageURL request)) || _ then _ else _) as [accessID storageURL] eqn:El.
  destruct (providerBucket storageURL) as [provider bucket]. set (direction := if String.eqb (ToLower _) _ then _ else _).
  pose proof (scope_attributed (cl_ctx caller) obj (ar_Scope request) direction) as Ha.
  destruct (scopeForAccess (cl_ctx caller) obj (ar_Scope request) direction) as [o p]. simpl. split_and!; try done.
  intros Ha' Hs. rewrite (proj2 (is_empty_false _) Ha'), (proj2 (is_empty_false _) Hs) in El. by injection El as <- <-.
Qed.
End scope.

Section issue.
Context `{MapOrder} `{Digests} {S : Type} `{!TransferPorts S Event} (clock : S → Z) (GetObject : string → string → service S ObjectRecord).

(** The location of an object under an access id is one of its own. *)
Lemma accessURLForID_own obj accessID url :
  accessURLForID obj accessID = url → url ≠ "" →
  ∃ m u, m ∈ accessMethods obj ∧ am_AccessUrl m = Some u ∧ au_Url u = url ∧ TrimSpace url ≠ "" ∧
    (EqualFold (rawAccessID (am_AccessId m)) (TrimSpace accessID) = true ∨ EqualFold (TrimSpace (am_Type m)) (TrimSpace accessID) = true).
Proof.
  intros E Hne. unfold accessURLForID in E. cbv zeta in E. destruct (is_empty (TrimSpace accessID)); [done|].
  assert (∀ m url, (m, url) ∈ omap located (accessMethods obj) → ∃ u, m ∈ accessMethods obj ∧ am_AccessUrl m = Some u ∧ au_Url u = url ∧ TrimSpace url ≠ "") as Hl.
  { intros m url' (m' & Hin & Hm)%list_elem_of_omap. unfold located in Hm. destruct (am_AccessUrl m') as [u|] eqn:Eu; [|done].
    destruct (is_empty _) eqn:Ee; [done|]. injection Hm as <- <-. apply is_empty_false in Ee. by exists u. }
  destruct (filter _ (omap located (accessMethods obj))) as [|[m0 url0] rest] eqn:Ef.
  - destruct (filter (λ m, EqualFold (TrimSpace (am_Type m.1)) (TrimSpace accessID) = true) _) as [|[m0 url0] [|]] eqn:Et; [done| |done]. subst url0.
    assert ((m0, url) ∈ [(m0, url)]) as Hin by left. rewrite <- Et in Hin. apply list_elem_of_filter in Hin as [Hm (u & ? & ? & ? & ?)%Hl].
    exists m0, u. auto 8.
  - subst url0. assert ((m0, url) ∈ (m0, url) :: rest) as Hin by left. rewrite <- Ef in Hin.
    apply list_elem_of_filter in Hin as [Hm (u & ? & ? & ? & ?)%Hl]. exists m0, u. auto 8.
Qed.
(** What a URL in the hands of a caller stands for: a location of the object, signed, and then recorded. *)
Definition issued (caller : Caller) (obj : ObjectRecord) (accessID url : string) (s s' : S) : Prop :=
  ∃ m u s1 s2, m ∈ accessMethods obj ∧ am_AccessUrl m = Some u ∧
    SignObjectURL obj (au_Url u) (download_options obj) s = (s1, Ok url) ∧
    ∃ record event, port_RecordEvents = Some record ∧ record [event] s1 = (s2, Ok tt) ∧ s2 = s' ∧
      ev_ObjectID event = r_Id obj ∧ ev_Direction event = ProviderTransferDirectionDownload ∧
      ev_StorageURL event = TrimSpace (au_Url u) ∧ ev_AccessID event = TrimSpace accessID ∧
      attributed (cl_ctx caller) obj None (ev_Direction event) (ev_Organization event) (ev_Project event).
Context (sha_nonempty : ∀ s, sha256_hex s ≠ "").
Lemma eventFromObject_id now caller request obj : ev_EventID (eventFromObject now caller request obj) ≠ "".
Proof using sha_nonempty.
  unfold eventFromObject. cbv zeta. destruct (if is_empty _ || _ then _ else _) as [a l]. destruct (providerBucket l) as [p b].
  destruct (scopeForAccess _ _ _ _) as [o pr]. cbn [ev_EventID]. unfold EventID. cbn [ev_EventID]. rewrite TrimSpace_nil. apply sha_nonempty.
Qed.
Lemma issueObject_found caller obj accessID s s' url :
  issueObject clock caller obj accessID s = (s', Ok (mkLookupResult true url)) → issued caller obj accessID url s s'.
Proof using sha_nonempty.
  unfold issueObject. cbv zeta. destruct (is_empty (accessURLForID obj accessID)) eqn:Ee; [done|]. apply is_empty_false in Ee.
  destruct (accessURLForID_own obj accessID _ eq_refl Ee) as (m & u & Hm & Hu & Eu & Hne & _).
  intros (s1 & signed & Hs & (s2 & [] & Hr & [= <- <-])%service_bind_Ok)%service_bind_Ok.
  exists m, u, s1, s2. rewrite <- Eu in Hs. split_and!; [done|done|done|].
  unfold RecordAccessIssued, access_request in Hr. cbn [ar_Object] in Hr. destruct port_RecordEvents as [record|] eqn:Ep; [|done].
  apply service_bind_Ok in Hr as (s3 & now & [= <- <-] & Hr).
  set (request := mkAccessRequest _ _ _ _ _ _ _ _ _ _) in Hr.
  rewrite (proj2 (is_empty_false _) (eventFromObject_id (clock s1) caller request obj)) in Hr.
  destruct (event_fields (clock s1) caller request obj) as (_ & Ho & _ & _ & _ & Hd & Ha & Hl).
  destruct Hl as [Ha1 Hl1].
  { intros E. unfold request in E. cbn [ar_AccessID] in E. unfold accessURLForID in Ee. by rewrite E in Ee. }
  { done. }
  exists record, (eventFromObject (clock s1) caller request obj). split_and!; [done|done|done|done|by rewrite Hd|by rewrite Hl1, Eu|by rewrite Ha1|done].
Qed.
(** A caller who is given a URL may read the object; the URL was signed for a location of that object under the access
    id that was asked for, and it is handed out only after its event went to the recorder, attributed to a scope of the
    object or to none. *)
Theorem issued_access_is_recorded caller objectID accessID s s' url :
  Issue clock GetObject caller objectID accessID s = (s', Ok (mkLookupResult true url)) →
  ∃ obj s1, GetObject objectID "read" s = (s1, Ok obj) ∧ issued caller obj accessID url s1 s'.
Proof using sha_nonempty.
  intros (s1 & obj & Hg & Hi)%service_bind_Ok. exists obj, s1. split; [done|]. by apply issueObject_found.
Qed.

(** ** Bulk requests *)
Definition asked (request : BulkAccessLookupRequest) : Z :=
  if is_empty (TrimSpace (bl_ObjectID request)) || bool_decide (length (bl_AccessIDs request) = 0) then 1
  else Z.of_nat (length (bl_AccessIDs request)).
(** A resolved access answers a request, and was issued for an object that the caller may read. *)
Definition resolves (caller : Caller) (requests : list BulkAccessLookupRequest) (r : ResolvedAccess) : Prop :=
  ∃ request obj s1 s2 s3 s4, request ∈ requests ∧ ra_ObjectID r = TrimSpace (bl_ObjectID request) ∧
    ra_AccessID r ∈ TrimSpace <$> bl_AccessIDs request ∧ GetObject (ra_ObjectID r) "read" s1 = (s2, Ok obj) ∧
    issued caller obj (ra_AccessID r) (ra_URL r) s3 s4.
Record bulk_step (P : ResolvedAccess → Prop) (n : Z) (before after : BulkAccessLookupResult) : Prop := {
  bs_requested : br_Requested after = (br_Requested before + n)%Z;
  bs_total : (Z.of_nat (length (br_Resolved after)) + Z.of_nat (length (br_UnresolvedObjectIDs after))
    <= Z.of_nat (length (br_Resolved before)) + Z.of_nat (length (br_UnresolvedObjectIDs before)) + n)%Z;
  bs_resolved r : r ∈ br_Resolved after → r ∈ br_Resolved before ∨ P r }.
Lemma bulk_step_refl P r : bulk_step P 0 r r.
Proof using. split; [lia|lia|by left]. Qed.
Lemma bulk_step_trans P Q n1 n2 r1 r2 r3 :
  bulk_step P n1 r1 r2 → bulk_step Q n2 r2 r3 → bulk_step (λ r, P r ∨ Q r) (n1 + n2) r1 r3.
Proof using.
  intros [E1 L1 R1] [E2 L2 R2]. split; [lia|lia|]. intros r [[?|?]%R1|?]%R2; auto.
Qed.
Lemma bulk_step_mono (P Q : ResolvedAccess → Prop) n r1 r2 : bulk_step P n r1 r2 → (∀ r, P r → Q r) → bulk_step Q n r1 r2.
Proof using. intros [E L R] HPQ. split; [done|done|]. intros r [?|?%HPQ]%R; auto. Qed.
Lemma bulk_unresolved P n ids r : (Z.of_nat (length ids) <= n)%Z → bulk_step P n r (unresolved n ids r).
Proof using. intros Hn. split; simpl; [done| |by left]. rewrite length_app. lia. Qed.
(** The accesses that one request for [objectID] may resolve. *)
Definition resolved_for (caller : Caller) (objectID : string) (obj : ObjectRecord) (ids : list string) (r : ResolvedAccess) : Prop :=
  ra_ObjectID r = objectID ∧ ra_AccessID r ∈ TrimSpace <$> ids ∧ ∃ s3 s4, issued caller obj (ra_AccessID r) (ra_URL r) s3 s4.
Lemma issue_ids_step caller objectID obj ids : ∀ result s, ∃ s' out,
  issue_ids clock caller objectID obj ids result s = (s', Ok out) ∧
  bulk_step (resolved_for caller objectID obj ids) (Z.of_nat (length ids)) result out.
Proof using sha_nonempty.
  induction ids as [|id ids IH]; intros result s; [exists s, result; split; [done|apply bulk_step_refl]|].
  cbn [issue_ids]. cbv zeta. unfold mbind at 1, service_bind at 1, attempt.
  destruct (issueObject clock caller obj (TrimSpace id) s) as [s2 r] eqn:Ei. set (mid := match r with Ok _ => _ | _ => _ end).
  destruct (IH mid s2) as (s' & out & Hrun & Hstep). exists s', out. split; [done|].
  replace (Z.of_nat (length (id :: ids))) with (1 + Z.of_nat (length ids))%Z by (simpl; lia).
  eapply bulk_step_mono; [eapply bulk_step_trans, Hstep|].
  2: { intros x [Hx|(? & ? & ?)]; [exact Hx|]. split_and!; [done|by right|done]. }
  unfold mid. destruct r as [[[] url]|e]; try (apply bulk_unresolved; simpl; lia).
  split; simpl; [done|rewrite length_app; simpl; lia|]. intros x [?|Hx%list_elem_of_singleton]%elem_of_app; [by left|right]. subst x.
  split_and!; [done|left|]. exists s, s2. by apply issueObject_found.
Qed.
Lemma issue_requests_step caller requests : ∀ result s, ∃ s' out,
  issue_requests clock GetObject caller requests result s = (s', Ok out) ∧
  bulk_step (resolves caller requests) (foldr Z.add 0%Z (asked <$> requests)) result out.
Proof using sha_nonempty.
  induction requests as [|request requests IH]; intros result s; [exists s, result; split; [done|apply bulk_step_refl]|].
  cbn [issue_requests fmap list_fmap foldr]. cbv zeta. set (objectID := TrimSpace (bl_ObjectID request)).
  assert (∀ r, resolves caller requests r → resolves caller (request :: requests) r) as Hmono.
  { intros r (q & obj & s1 & s2 & s3 & s4 & ? & Hr). exists q, obj, s1, s2, s3, s4. split; [by right|done]. }
  destruct (is_empty objectID || bool_decide (length (bl_AccessIDs request) = 0)) eqn:Eb.
  - set (mid := unresolved _ _ _). destruct (IH mid s) as (s' & out & Hrun & Hstep). exists s', out. split; [done|].
    assert (asked request = 1%Z) as -> by (unfold asked; fold objectID; by rewrite Eb).
    eapply bulk_step_mono; [eapply bulk_step_trans, Hstep|intros r [Hr|?]; [exact Hr|by apply Hmono]].
    apply bulk_unresolved. destruct (is_empty objectID); simpl; lia.
  - assert (asked request = Z.of_nat (length (bl_AccessIDs request))) as -> by (unfold asked; fold objectID; by rewrite Eb).
    apply orb_false_iff in Eb as [Eo El%bool_decide_eq_false].
    unfold mbind at 1, service_bind at 1, attempt. destruct (GetObject objectID "read" s) as [s1 [obj|e]] eqn:Eg.
    + destruct (issue_ids_step caller objectID obj (bl_AccessIDs request) result s1) as (s2 & mid & Hids & Hs1).
      destruct (IH mid s2) as (s' & out & Hrun & Hstep). exists s', out. split; [unfold mbind, service_bind; by rewrite Hids|].
      eapply bulk_step_mono; [eapply bulk_step_trans; [exact Hs1|exact Hstep]|].
      intros r [(Er & Hid & s3 & s4 & Hi)|?]; [|by apply Hmono]. exists request, obj, s, s1, s3, s4. rewrite Er. split_and!; [left|done..].
    + set (mid := unresolved _ _ _). destruct (IH mid s1) as (s' & out & Hrun & Hstep). exists s', out. split; [done|].
      eapply bulk_step_mono; [eapply bulk_step_trans, Hstep|intros r [Hr|?]; [exact Hr|by apply Hmono]].
      apply bulk_unresolved. simpl. lia.
Qed.
(** A bulk request always has an answer.  It counts every access id asked for, and a request without object or access
    ids as one; what is resolved and unresolved is no more than that; and each URL in it was asked for and issued. *)
Theorem bulk_access_accounts caller requests s :
  ∃ s' out, IssueBulk clock GetObject caller requests s = (s', Ok out) ∧
    br_Requested out = foldr Z.add 0%Z (asked <$> requests) ∧
    (Z.of_nat (length (br_Resolved out)) + Z.of_nat (length (br_UnresolvedObjectIDs out)) <= br_Requested out)%Z ∧
    ∀ r, r ∈ br_Resolved out → resolves caller requests r.
Proof using sha_nonempty.
  destruct (issue_requests_step caller requests (mkBulkResult 0 [] []) s) as (s' & out & Hrun & [E L R]). exists s', out.
  simpl in *. split_and!; [done|done|lia|]. intros r [Hr|?]%R; [by apply elem_of_nil in Hr|done].
Qed.
End issue.

(** ** An execution: a store that keeps the events *)
Section sample.
#[local] Existing Instance canonical_order.
#[local] Instance access_digests : Digests := {| sha256_hex := λ s, "#" +:+ s; uuid_NewSHA1 := λ s, s |}.
Definition event_log : Type := list Event.
#[export] Instance event_log_ports : TransferPorts event_log Event := {
  port_Access := Some (λ request log, (log, Ok (at_Location (sar_Target request) +:+ "?" +:+ ao_Method (sar_Options request))));
  port_BeginMultipart := None;
  port_AccessMultipartPart _ := fail (EText "");
  port_CompleteMultipart _ := fail (EText "");
  port_LookupBucketScope := Some (λ o p log, (log, Ok (mkScope o p "cred" ("bucket-" +:+ o) "", is_empty p)));
  port_CredentialReader := None;
  port_RecordEvents := Some (λ events log, (log ++ events, Ok tt)) }.
Definition issue_object : ObjectRecord :=
  set_AccessMethods (set_ControlledAccess (set_Id zero_record "o1") (Some ["/organization/org/project/p"]))
    (Some [mkAccessMethod (Some "main") (Some (mkAccessURL None "gs://data/x")) None None None None "gs"]).
Definition issue_reader (id method : string) : service event_log ObjectRecord :=
  if String.eqb id "o1" then mret issue_object else fail (EDef ErrObjectNotFound).
Definition ada : Caller := mkCaller (Some (mkSession "local" "local" "ada@x" [] ∅ true false)) "r1" ∅.
Lemma access_sha (s : string) : sha256_hex s ≠ "".
Proof. done. Qed.
Lemma issued_access_is_recorded_witness :
  ∃ log url, Issue (λ _, 7%Z) issue_reader ada "o1" " Main " [] = (log, Ok (mkLookupResult true url)) ∧ url = "gs://data/x?GET" ∧
    (ev_Project <$> log) = ["p"] ∧ ∃ s1, issued ada issue_object " Main " url s1 log.
Proof.
  destruct (Issue (λ _, 7%Z) issue_reader ada "o1" " Main " []) as [log [[[] url]|e]] eqn:E; [|vm_compute in E; discriminate E..].
  exists log, url. split; [reflexivity|].
  destruct (issued_access_is_recorded (λ _, 7%Z) issue_reader access_sha ada "o1" " Main " [] log url E) as (obj & s1 & Hg & Hi).
  assert (obj = issue_object) as -> by (vm_compute in Hg; injection Hg as _ <-; reflexivity).
  split_and!; [vm_compute in E; injection E as _ <-; reflexivity|vm_compute in E; injection E as <- _; reflexivity|exists s1; exact Hi].
Defined.
Lemma bulk_access_accounts_witness :
  ∃ log out, IssueBulk (λ _, 7%Z) issue_reader ada [mkBulkLookup " o1" ["main"; "other"]; mkBulkLookup "o2" ["main"]; mkBulkLookup "" ["x"]] []
    = (log, Ok out) ∧ br_Requested out = 4%Z ∧ br_UnresolvedObjectIDs out = ["o1"; "o2"] ∧ length (br_Resolved out) = 1.
Proof.
  destruct (bulk_access_accounts (λ _, 7%Z) issue_reader access_sha ada
    [mkBulkLookup " o1" ["main"; "other"]; mkBulkLookup "o2" ["main"]; mkBulkLookup "" ["x"]] []) as (log & out & E & Hr & _).
  exists log, out. split; [exact E|]. split; [rewrite Hr; by vm_compute|]. vm_compute in E. injection E as _ <-. by split.
Defined.
End sample.
