(* ===== verification/TransferHandlers.v ===== *)
(** * The transfer endpoints: internal/httpapi/transfers (upload.go, multipart.go, download.go)
    A handler reads the object through the record service, resolves a location, has it signed, and records the access.
    Rejections are status codes; an error goes to the error boundary.  The record service, uuids and the counters are
    parameters; the multipart lifecycle is the one of Multipart, here for one request at a time. *)
From S2P Require Import Prelude GoStrings GoURL Errors Resources Policy Objects Address Buckets Targets Multipart Attribution AccessIssue FileUsage UsageService MetricsHandlers.
Definition stringValue (value : option string) : string := default "" value.
Definition firstNonEmpty (values : list string) : string := default "" (head (filter (λ v, TrimSpace v ≠ "") values)).
Definition DefaultSigningExpiry : Z := (900 * 10 ^ 9)%Z.

Record InternalUploadURLParams := mkUploadParams { up_Organization : option string; up_Project : option string; up_Key : option string }.
Record InternalUploadBlankRequest := mkUploadBlank { ub_Guid : option string; ub_Organization : option string; ub_Project : option string }.
Record InternalUploadBulkItem := mkUploadItem { ui_FileId : string; ui_Key : option string }.
Record InternalUploadBulkResult := mkUploadResult {
  ur_FileId : string; ur_Key : option string; ur_Url : option string; ur_Bucket : option string; ur_Error : option error }.
Record UploadBlankOutput := mkUploadBlankOutput { bo_Url : string; bo_Guid : string; bo_Bucket : string }.
Record InternalMultipartInitRequest := mkMultipartInit {
  mi_Guid : option string; mi_Key : option string; mi_Organization : option string; mi_Project : option string }.
Record MultipartInitOutput := mkMultipartInitOutput { mo_UploadId : string; mo_Guid : string }.

Section handlers.
Context `{MapOrder} `{Digests} {S : Type} `{!TransferPorts S Event} (clock : S → Z)
  (GetObject : string → string → service S ObjectRecord)
  (GetObjectsByChecksum : string → string → service S (list ObjectRecord))
  (uuid_New : service S string) (uuid_Parse : string → bool)
  (RecordFileDownload : option (string → service S unit)).

Definition resolveUploadTarget (organization project key : string) : service S CanonicalStorageTarget :=
  ResolveScopedUploadTarget organization project (Trim (TrimSpace key) "/").
Definition put_options : AccessOptions := mkAccessOptions 0 "PUT" "".

(** ** upload.go *)
Definition handleInternalUploadBlank (ctx : context) (req : InternalUploadBlankRequest) : service S (response UploadBlankOutput) :=
  if MissingGen3AuthHeader ctx then mret (Status StatusUnauthorized)
  else
    let guid := TrimSpace (stringValue (ub_Guid req)) in
    guid ← if is_empty guid || negb (uuid_Parse guid) then uuid_New else mret guid;
    target ← resolveUploadTarget (stringValue (ub_Organization req)) (stringValue (ub_Project req)) guid;
    signedURL ← SignURL (t_URL target) put_options;
    mret (Data (mkUploadBlankOutput signedURL guid (t_Bucket target))).
Definition uploadAttributionScope (params : InternalUploadURLParams) : option AccessScope :=
  match up_Organization params, up_Project params with
  | None, None => None
  | o, p => Some (mkAccessScope (stringValue o) (stringValue p))
  end.
Definition uploadKeyForExistingObject (obj : ObjectRecord) (params : InternalUploadURLParams) : string :=
  let key := Trim (TrimSpace (stringValue (up_Key params))) "/" in
  if negb (is_empty key) then key else default "" (CanonicalSHA256 (slice (r_Checksums obj))).
(** [queryKey] is the raw query parameter "key". *)
Definition handleInternalUploadURL (caller : Caller) (fileID : string) (params : InternalUploadURLParams) (queryKey : string)
  : service S (response string) :=
  if MissingGen3AuthHeader (cl_ctx caller) then mret (Status StatusUnauthorized)
  else
    found ← attempt (GetObject fileID "update");
    match found with
    | Ok obj =>
        target ← if negb (is_empty (TrimSpace (stringValue (up_Organization params))))
                 then resolveUploadTarget (stringValue (up_Organization params)) (stringValue (up_Project params))
                        (uploadKeyForExistingObject obj params)
                 else ResolveCanonicalStorageTarget (mkTargetRequest (Some obj) "" "" (TrimSpace (stringValue (up_Key params))) true);
        signedURL ← SignURL (t_URL target) put_options;
        _ ← RecordAccessIssued clock caller
              (access_request obj (uploadAttributionScope params) ProviderTransferDirectionUpload "" (t_URL target));
        mret (Data signedURL)
    | Err e =>
        if negb (errors_Is e ErrNotFound) then fail e
        else
          let requestedKey := Trim (TrimSpace (firstNonEmpty [stringValue (up_Key params); queryKey])) "/" in
          let key := if is_empty requestedKey then fileID else requestedKey in
          target ← resolveUploadTarget (stringValue (up_Organization params)) (stringValue (up_Project params)) key;
          signedURL ← SignURL (BucketToURL (t_Bucket target) (t_Key target)) put_options;
          mret (Data signedURL)
    end.
(** One item: the error of the item is part of the answer. *)
Definition upload_item (caller : Caller) (item : InternalUploadBulkItem) : service S InternalUploadBulkResult :=
  let failed e := mkUploadResult (ui_FileId item) (ui_Key item) None None (Some e) in
  if is_empty (ui_FileId item)
  then mret (failed (EDef (Define ErrorCodeInvalidInput ErrorCategoryInvalidInput "FileId is required")))
  else
    done ← attempt (
      obj ← GetObject (ui_FileId item) "update";
      target ← ResolveCanonicalStorageTarget (mkTargetRequest (Some obj) "" "" (TrimSpace (stringValue (ui_Key item))) true);
      let key := if is_empty (t_Key target) then r_Id obj else t_Key target in
      signedURL ← SignURL (t_URL target) put_options;
      _ ← RecordAccessIssued clock caller (access_request obj None ProviderTransferDirectionUpload "" (t_URL target));
      mret (mkUploadResult (ui_FileId item) (Some key) (Some signedURL) (Some (t_Bucket target)) None));
    mret (match done with Ok result => result | Err e => failed e end).
Definition handleInternalUploadBulk (caller : Caller) (items : list InternalUploadBulkItem)
  : service S (Z * list InternalUploadBulkResult) :=
  results ← mapM (upload_item caller) items;
  mret (if existsb (λ r, bool_decide (is_Some (ur_Error r))) results then 207%Z else 200%Z, results).

(** ** download.go *)
(** [expires_in] is the raw query parameter, in seconds; durations are 64-bit nanoseconds. *)
Definition download_expiry (expires_in : string) : Z :=
  let given := match (if is_empty expires_in then None else Atoi expires_in) with
               | Some seconds => wrap64 (seconds * 10 ^ 9)
               | None => 0%Z
               end in
  if (given <=? 0)%Z then DefaultSigningExpiry else given.
Definition named_options (obj : ObjectRecord) (expiry : Z) : AccessOptions :=
  mkAccessOptions expiry "" (match r_Name obj with Some name => DownloadFilename name | None => "" end).
Definition handleInternalDownload (caller : Caller) (fileID expires_in : string) : service S (response string) :=
  if MissingGen3AuthHeader (cl_ctx caller) then fail (EDef ErrAuthenticationRequired)
  else
    obj ← GetObject fileID "read";
    let objectURL := firstSupportedAccessURL obj in
    if is_empty objectURL then mret (Status StatusNotFound)
    else
      signedURL ← SignObjectURL obj objectURL (named_options obj (download_expiry expires_in));
      match RecordFileDownload with
      | None => fail (EText "file usage recorder is not configured")
      | Some record =>
          _ ← record (r_Id obj);
          _ ← RecordAccessIssued clock caller (access_request obj None ProviderTransferDirectionDownload "" objectURL);
          mret (Data signedURL)
      end.
Definition parse_range (first last : string) : option (Z * Z) :=
  if is_empty first || is_empty last then None
  else match Atoi first, Atoi last with
       | Some start, Some end_ => if (start <? 0)%Z || (end_ <? start)%Z then None else Some (start, end_)
       | _, _ => None
       end.
Definition handleInternalDownloadPart (caller : Caller) (fileID first last : string) : service S (response string) :=
  if MissingGen3AuthHeader (cl_ctx caller) then fail (EDef ErrAuthenticationRequired)
  else
    match parse_range first last with
    | None => mret (Status StatusBadRequest)
    | Some (start, end_) =>
        obj ← GetObject fileID "read";
        let objectURL := firstSupportedAccessURL obj in
        if is_empty objectURL then mret (Status StatusNotFound)
        else
          let bucketID := default "" (fst <$> ParseS3URL objectURL) in
          signedURL ← SignObjectDownloadPart obj bucketID objectURL start end_ (named_options obj DefaultSigningExpiry);
          _ ← RecordAccessIssued clock caller
                (mkAccessRequest (Some obj) None "" ProviderTransferDirectionDownload objectURL (Some start) (Some end_)
                   (wrap64 (end_ - start + 1)) "" "");
          mret (Data signedURL)
    end.

(** ** multipart.go *)
(** The lifecycle beside the store. *)
Definition lifted {A} (m : service S A) : service (S * MultipartLifecycle) A := λ '(s, l), let '(s, r) := m s in ((s, l), r).
Definition store_upload (uploadID bucket key : string) : service (S * MultipartLifecycle) string :=
  λ '(s, l), ((s, store_session uploadID bucket key l), Ok uploadID).
Definition Begin (bucket key : string) : service (S * MultipartLifecycle) string :=
  uploadID ← lifted (InitMultipartUpload bucket key);
  store_upload uploadID bucket key.
Definition SignPart (uploadID : string) (partNumber : Z) : service (S * MultipartLifecycle) string :=
  target ← ask (λ st : S * MultipartLifecycle, session_target st.2 uploadID);
  lifted (SignMultipartPart (ot_Bucket target) (ot_Key target) uploadID partNumber).
Definition multipart_key (req : InternalMultipartInitRequest) : string :=
  match mi_Guid req, mi_Key req with
  | Some guid, _ => TrimSpace guid
  | None, Some key => TrimSpace key
  | None, None => ""
  end.
Definition begin_upload (internalID bucket key : string) : service (S * MultipartLifecycle) (response MultipartInitOutput) :=
  uploadID ← Begin bucket key; mret (Data (mkMultipartInitOutput uploadID internalID)).
Definition scoped_target (req : InternalMultipartInitRequest) (key : string) : service (S * MultipartLifecycle) CanonicalStorageTarget :=
  lifted (resolveUploadTarget (stringValue (mi_Organization req)) (stringValue (mi_Project req)) key).
Definition handleInternalMultipartInit (req : InternalMultipartInitRequest) : service (S * MultipartLifecycle) (response MultipartInitOutput) :=
  let key := multipart_key req in
  if is_empty key then mret (Status StatusBadRequest)
  else if Contains key "/" then
    target ← scoped_target req key;
    internalID ← lifted uuid_New;
    begin_upload internalID (t_Bucket target) (t_Key target)
  else if LooksLikeSHA256 key then
    existing ← lifted (GetObjectsByChecksum key "read");
    match existing with
    | [] => mret (Status StatusBadRequest)
    | obj :: _ =>
        target ← lifted (ResolveCanonicalStorageTarget (mkTargetRequest (Some obj) "" "" "" true));
        if is_empty (t_Bucket target) || is_empty (t_Key target) then mret (Status StatusBadRequest)
        else begin_upload (r_Id obj) (t_Bucket target) (t_Key target)
    end
  else
    internalID ← if uuid_Parse key then mret key else lifted uuid_New;
    target ← scoped_target req internalID;
    begin_upload internalID (t_Bucket target) (t_Key target).
Definition handleInternalMultipartUpload (uploadID : string) (partNumber : Z) : service (S * MultipartLifecycle) (response string) :=
  if is_empty uploadID then mret (Status StatusBadRequest)
  else url ← SignPart uploadID partNumber; mret (Data url).
End handlers.

(** * What the transfer endpoints hand out *)
Section handlers.
Context `{MapOrder} `{Digests} {S : Type} `{!TransferPorts S Event} (clock : S → Z)
  (GetObject : string → string → service S ObjectRecord) (uuid_New : service S string) (uuid_Parse : string → bool)
  (RecordFileDownload : option (string → service S unit)).
Context (sha_nonempty : ∀ s, sha256_hex s ≠ "").

(** ** Downloads *)
(** The access is recorded: its event is in the hands of the recorder, for the object, in the direction. *)
Definition recorded (caller : Caller) (obj : ObjectRecord) (direction : string) (request : AccessRequest) (s s' : S) : Prop :=
  ∃ record event, port_RecordEvents = Some record ∧ record [event] s = (s', Ok tt) ∧
    ev_ObjectID event = r_Id obj ∧ ev_Direction event = direction ∧
    attributed (cl_ctx caller) obj (ar_Scope request) (ev_Direction event) (ev_Organization event) (ev_Project event).
Lemma RecordAccessIssued_recorded caller obj request s s' :
  ar_Object request = Some obj → RecordAccessIssued clock caller request s = (s', Ok tt) →
  recorded caller obj (if String.eqb (ToLower (TrimSpace (ar_Direction request))) ProviderTransferDirectionUpload
                       then ProviderTransferDirectionUpload else ProviderTransferDirectionDownload) request s s'.
Proof using sha_nonempty.
  intros Eo. unfold RecordAccessIssued. rewrite Eo. destruct port_RecordEvents as [record|] eqn:Ep; [|done].
  intros (s1 & now & [= <- <-] & Hr)%service_bind_Ok.
  rewrite (proj2 (is_empty_false _) (eventFromObject_id sha_nonempty (clock s) caller request obj)) in Hr.
  destruct (event_fields (clock s) caller request obj) as (_ & Ho & _ & _ & _ & Hd & Ha & _).
  by exists record, (eventFromObject (clock s) caller request obj).
Qed.
(** C24 A download URL is given to a caller who may read the object, for a location of the object, after the download was
    counted and the access recorded; in gen3 mode nobody without an authorization header gets one. *)
Theorem download_is_counted caller fileID expires_in s s' url :
  handleInternalDownload clock GetObject RecordFileDownload caller fileID expires_in s = (s', Ok (Data url)) →
  MissingGen3AuthHeader (cl_ctx caller) = false ∧
  ∃ obj count s1 s2 s3, GetObject fileID "read" s = (s1, Ok obj) ∧ firstSupportedAccessURL obj ≠ "" ∧
    SignObjectURL obj (firstSupportedAccessURL obj) (named_options obj (download_expiry expires_in)) s1 = (s2, Ok url) ∧
    RecordFileDownload = Some count ∧ count (r_Id obj) s2 = (s3, Ok tt) ∧
    recorded caller obj ProviderTransferDirectionDownload
      (access_request obj None ProviderTransferDirectionDownload "" (firstSupportedAccessURL obj)) s3 s' ∧
    (0 < download_expiry expires_in)%Z.
Proof using sha_nonempty.
  unfold handleInternalDownload. destruct (MissingGen3AuthHeader _); [done|].
  intros (s1 & obj & Hg & Hrest)%service_bind_Ok. cbv zeta in Hrest.
  destruct (is_empty (firstSupportedAccessURL obj)) eqn:Ee; [done|]. apply is_empty_false in Ee.
  apply service_bind_Ok in Hrest as (s2 & signed & Hs & Hrest). destruct RecordFileDownload as [count|]; [|done].
  apply service_bind_Ok in Hrest as (s3 & [] & Hc & (s4 & [] & Hr & [= <- <-])%service_bind_Ok).
  split; [done|]. exists obj, count, s1, s2, s3. split_and!; try done.
  - by apply (RecordAccessIssued_recorded caller obj) in Hr.
  - unfold download_expiry, DefaultSigningExpiry. cbv zeta. case_match eqn:E; lia.
Qed.

(** ** Uploads of existing objects *)
(** A bulk upload answers for every item in order; a URL in it is for an object that the caller may update, at the
    location that the object's own scopes give, and is recorded; the status is 207 exactly if an item failed. *)
Definition uploadable (caller : Caller) (item : InternalUploadBulkItem) (r : InternalUploadBulkResult) : Prop :=
  ur_FileId r = ui_FileId item ∧
  ((∃ e, ur_Error r = Some e ∧ ur_Url r = None) ∨
   ∃ obj target url s1 s2 s3 s4 s5, ur_Error r = None ∧ ur_Url r = Some url ∧
     GetObject (ui_FileId item) "update" s1 = (s2, Ok obj) ∧
     ResolveCanonicalStorageTarget (mkTargetRequest (Some obj) "" "" (TrimSpace (stringValue (ui_Key item))) true) s2 = (s3, Ok target) ∧
     SignURL (t_URL target) put_options s3 = (s4, Ok url) ∧
     recorded caller obj ProviderTransferDirectionUpload (access_request obj None ProviderTransferDirectionUpload "" (t_URL target)) s4 s5).
Lemma upload_item_spec caller item s : ∃ s' r, upload_item clock GetObject caller item s = (s', Ok r) ∧ uploadable caller item r.
Proof using sha_nonempty.
  unfold upload_item. cbv zeta. destruct (is_empty (ui_FileId item)).
  { eexists _, _. split; [done|]. split; [done|]. left. by eexists. }
  unfold mbind at 1, service_bind at 1, attempt. set (m := mbind _ (GetObject _ _)). destruct (m s) as [s' r] eqn:E.
  destruct r as [result|e]; eexists _, _; (split; [done|]); [|split; [done|]; left; by eexists].
  unfold m in E. apply service_bind_Ok in E as (s1 & obj & Hg & (s2 & target & Ht & E)%service_bind_Ok).
  apply service_bind_Ok in E as (s3 & url & Hs & (s4 & [] & Hr & [= <- <-])%service_bind_Ok).
  split; [done|]. right. exists obj, target, url, s, s1, s2, s3, s4. split_and!; try done.
  by apply (RecordAccessIssued_recorded caller obj) in Hr.
Qed.
Theorem bulk_upload_authorized caller items s :
  ∃ s' status results, handleInternalUploadBulk clock GetObject caller items s = (s', Ok (status, results)) ∧
    Forall2 (uploadable caller) items results ∧
    status = (if existsb (λ r, bool_decide (is_Some (ur_Error r))) results then 207%Z else 200%Z).
Proof using sha_nonempty.
  assert (∃ s' results, mapM (upload_item clock GetObject caller) items s = (s', Ok results) ∧ Forall2 (uploadable caller) items results)
    as (s' & results & Hm & Hf).
  { revert s. induction items as [|item items IH]; intros s; [by eexists _, []|]. cbn [mapM].
    destruct (upload_item_spec caller item s) as (s1 & r & Hi & Hu). destruct (IH s1) as (s2 & rs & Hrs & Hf).
    exists s2, (r :: rs). split; [|by constructor]. apply service_bind_Ok. exists s1, r. split; [done|].
    apply service_bind_Ok. by exists s2, rs. }
  eexists s', _, results. split; [|by split]. apply service_bind_Ok. by exists s', results.
Qed.

(** ** Uploads to a scope *)
Lemma service_bind_run {A B} (m : service S A) (f : A → service S B) s s1 a : m s = (s1, Ok a) → (m ≫= f) s = f a s1.
Proof using. unfold mbind, service_bind. by intros ->. Qed.
(** The rights of the caller play no role in which location a new upload is signed for: without an object, any two
    callers with a header get the same answer for any organization; and with the right to update one object, a caller
    gets a URL for any key of any organization that it names. *)
Theorem upload_needs_no_scope_permission caller1 caller2 fileID params queryKey req s s1 e obj :
  MissingGen3AuthHeader (cl_ctx caller1) = false → MissingGen3AuthHeader (cl_ctx caller2) = false →
  handleInternalUploadBlank uuid_New uuid_Parse (cl_ctx caller1) req s
  = handleInternalUploadBlank uuid_New uuid_Parse (cl_ctx caller2) req s ∧
  (GetObject fileID "update" s = (s1, Err e) → errors_Is e ErrNotFound = true →
   handleInternalUploadURL clock GetObject caller1 fileID params queryKey s
   = handleInternalUploadURL clock GetObject caller2 fileID params queryKey s) ∧
  (∀ s2 s3 target url s4, GetObject fileID "update" s = (s1, Ok obj) → TrimSpace (stringValue (up_Organization params)) ≠ "" →
   Trim (TrimSpace (stringValue (up_Key params))) "/" ≠ "" →
   resolveUploadTarget (stringValue (up_Organization params)) (stringValue (up_Project params))
     (Trim (TrimSpace (stringValue (up_Key params))) "/") s1 = (s2, Ok target) →
   SignURL (t_URL target) put_options s2 = (s3, Ok url) →
   RecordAccessIssued clock caller1
     (access_request obj (uploadAttributionScope params) ProviderTransferDirectionUpload "" (t_URL target)) s3 = (s4, Ok tt) →
   handleInternalUploadURL clock GetObject caller1 fileID params queryKey s = (s4, Ok (Data url))).
Proof using.
  intros H1 H2. split_and!.
  - unfold handleInternalUploadBlank. by rewrite H1, H2.
  - intros Hg He. unfold handleInternalUploadURL. rewrite H1, H2.
    assert (attempt (GetObject fileID "update") s = (s1, Ok (Err e))) as Ha by (unfold attempt; by rewrite Hg).
    rewrite !(service_bind_run _ _ _ _ _ Ha), He. done.
  - intros s2 s3 target url s4 Hg Ho Hk Ht Hs Hr. unfold handleInternalUploadURL. rewrite H1.
    unfold mbind at 1, service_bind at 1, attempt. rewrite Hg. rewrite (proj2 (is_empty_false _) Ho). cbn [negb].
    unfold uploadKeyForExistingObject. rewrite (proj2 (is_empty_false _) Hk). cbn [negb]. cbv zeta.
    unfold mbind at 1, service_bind at 1. rewrite Ht. unfold mbind at 1, service_bind at 1. rewrite Hs.
    unfold mbind, service_bind. by rewrite Hr.
Qed.
End handlers.

(** ** Executions *)
Section sample.
#[local] Existing Instance canonical_order.
#[local] Instance transfer_digests : Digests := {| sha256_hex := λ s, "#" +:+ s; uuid_NewSHA1 := λ s, s |}.
Lemma transfer_sha (s : string) : sha256_hex s ≠ "".
Proof. done. Qed.
Definition count_nothing (id : string) : service event_log unit := mret tt.
Lemma download_is_counted_witness :
  ∃ log url, handleInternalDownload (λ _, 7%Z) issue_reader (Some count_nothing) ada "o1" "60" [] = (log, Ok (Data url)) ∧
    url = "gs://data/x?" ∧ length log = 1 ∧ ∃ obj s1, issue_reader "o1" "read" [] = (s1, Ok obj).
Proof.
  destruct (handleInternalDownload (λ _, 7%Z) issue_reader (Some count_nothing) ada "o1" "60" []) as [log [[code|url]|e]] eqn:E;
    [vm_compute in E; discriminate E| |vm_compute in E; discriminate E].
  exists log, url. split; [reflexivity|].
  destruct (download_is_counted (λ _, 7%Z) issue_reader (Some count_nothing) transfer_sha ada "o1" "60" [] log url E)
    as (_ & obj & count & s1 & s2 & s3 & Hg & _).
  split_and!; [vm_compute in E; injection E as _ <-; reflexivity|vm_compute in E; injection E as <- _; reflexivity|exists obj, s1; exact Hg].
Defined.
Lemma bulk_upload_authorized_witness :
  ∃ log results, handleInternalUploadBulk (λ _, 7%Z) issue_reader ada [mkUploadItem "o1" None; mkUploadItem "zz" None] []
    = (log, Ok (207%Z, results)) ∧ ur_Url <$> results = [Some "s3://bucket-org/o1?PUT"; None] ∧ ev_Direction <$> log = ["upload"].
Proof.
  destruct (bulk_upload_authorized (λ _, 7%Z) issue_reader transfer_sha ada [mkUploadItem "o1" None; mkUploadItem "zz" None] [])
    as (log & status & results & E & _ & _).
  assert (status = 207%Z) as -> by (vm_compute in E; injection E as _ <- _; reflexivity).
  exists log, results. split; [exact E|]. vm_compute in E. injection E as <- <-. by vm_compute.
Defined.
Definition eve : Caller := mkCaller (Some (mkSession "gen3" "gen3-fence" "eve" [] ∅ true true)) "r2" ∅.
Definition victim_params : InternalUploadURLParams := mkUploadParams (Some "victim") None (Some "precious/file").
Lemma upload_needs_no_scope_permission_witness :
  handleInternalUploadURL (λ _, 7%Z) issue_reader ada "none" victim_params "" []
  = handleInternalUploadURL (λ _, 7%Z) issue_reader eve "none" victim_params "" [] ∧
  handleInternalUploadURL (λ _, 7%Z) issue_reader eve "none" victim_params "" [] = ([], Ok (Data "s3://bucket-victim/precious/file?PUT")).
Proof.
  split; [|by vm_compute].
  destruct (upload_needs_no_scope_permission (λ _, 7%Z) issue_reader (mret "u1") (λ _, true) ada eve "none" victim_params ""
    (mkUploadBlank None None None) [] [] (EDef ErrObjectNotFound) issue_object) as (_ & Hu & _); [by vm_compute|by vm_compute|].
  apply Hu; [reflexivity|by vm_compute].
Defined.
End sample.
