(* ===== verification/BucketHandlers.v ===== *)
(** * The bucket endpoints: internal/httpapi/buckets (handlers.go, request.go)
    A handler answers with a status or with data, or hands an error to the error boundary.  It runs on the bucket
    service and its cache; the decoded body is an argument, [None] for one that the strict decoder refuses.  A store
    that answers neither a credential nor an error makes two handlers panic, which the server turns into an error. *)
From S2P Require Import Prelude GoStrings GoURL Errors Resources Policy Objects Address Buckets BucketVisibility MetricsHandlers.
Definition StatusCreated := 201%Z.
Definition StatusNoContent := 204%Z.
Definition StatusConflict := 409%Z.
Definition bucketStringValue (value : option string) : string := default "" value.
Definition readOptionalPath (path : option string) : string := default "" (TrimSpace <$> path).

(** The requests and answers of apigen/bucketapi. *)
Record PutBucketRequest := mkPutBucket {
  pb_Bucket : string; pb_Organization : string; pb_ProjectId : string; pb_Path : option string; pb_Provider : option string;
  pb_Region : option string; pb_AccessKey : option string; pb_SecretKey : option string; pb_Endpoint : option string }.
Record AddBucketScopeRequest := mkAddScope { as_Organization : string; as_ProjectId : string; as_Path : option string }.
Record DeleteBucketScopeParams := mkDeleteScope { ds_Organization : string; ds_Path : string; ds_ProjectId : option string }.
Record BucketMetadata := mkMetadata {
  bm_Bucket : string; bm_Endpoint : string; bm_Provider : string; bm_Region : string; bm_Programs : option (list string) }.
Record BucketScopeResponse := mkScopeResponse { bs_Organization : string; bs_ProjectId : string; bs_Path : string }.

Section handlers.
Context `{MapOrder} `{Digests} {S : Type} `{!BucketPorts S} (ttl : Z) (signerCacheInvalidator : bool).
Local Abbreviation M A := (service (ServiceState S) A).
Local Abbreviation Save := (SaveS3Credential signerCacheInvalidator).
Local Abbreviation Create := (CreateBucketScope ttl).

Definition nil_dereference : error := EText "invalid memory address or nil pointer dereference".
(** The credential that a handler dereferences. *)
Definition given_credential (name : string) : M Credential :=
  cred ← ask_store (GetS3Credential name);
  match cred with Some c => mret c | None => fail nil_dereference end.
(** An absent credential is no failure for [PutBucket]. *)
Definition known_credential (name : string) : M (option Credential) :=
  found ← attempt (ask_store (GetS3Credential name));
  match found with
  | Ok cred => mret cred
  | Err e => if isCredentialNotFoundError e then mret None else fail e
  end.

Definition metadata_of (entry : VisibleBucket) : BucketMetadata :=
  let cred := vb_Credential entry in
  mkMetadata (c_Bucket cred) (c_Endpoint cred) (c_Provider cred) (c_Region cred)
    (match vb_Programs entry with [] => None | programs => Some programs end).
(** The answer is keyed by the bucket; the entries come in the order of the map. *)
Definition ListBuckets (ctx : context) : M (gmap string BucketMetadata) :=
  if MissingGen3AuthHeader ctx then fail (EDef ErrAuthenticationRequired)
  else
    visible ← ask_store (ListVisibleBuckets ctx);
    mret (foldl (λ resp '(_, entry), <[c_Bucket (vb_Credential entry) := metadata_of entry]> resp) ∅ (go_range visible)).

(** What is left empty is taken from the existing credential. *)
Definition or_existing (existing : option Credential) (field : Credential → string) (value : string) : string :=
  match existing with Some c => if is_empty value then field c else value | None => value end.
Definition PutBucket (now : Z) (ctx : context) (body : option PutBucketRequest) : M Z :=
  match body with
  | None => mret StatusBadRequest
  | Some req =>
      let rawProvider := TrimSpace (bucketStringValue (pb_Provider req)) in
      match ParseBucketProvider rawProvider with
      | Err _ => mret StatusBadRequest
      | Ok bucketProvider =>
          let bucket := TrimSpace (pb_Bucket req) in
          let organization := TrimSpace (pb_Organization req) in
          let project := TrimSpace (pb_ProjectId req) in
          let region := TrimSpace (bucketStringValue (pb_Region req)) in
          let accessKey := TrimSpace (bucketStringValue (pb_AccessKey req)) in
          let secretKey := TrimSpace (bucketStringValue (pb_SecretKey req)) in
          let endpoint := TrimSpace (bucketStringValue (pb_Endpoint req)) in
          if is_empty bucket then mret StatusBadRequest
          else if is_empty organization && negb (is_empty project) then mret StatusBadRequest
          else if MissingGen3AuthHeader ctx then fail (EDef ErrAuthenticationRequired)
          else
            _ ← check (AuthorizeScopeWrite ctx organization project ["create"; "update"]);
            match NormalizeStoragePath (readOptionalPath (pb_Path req)) bucket with
            | Err _ => mret StatusBadRequest
            | Ok prefix =>
                existing ← known_credential bucket;
                let credentialID := default "" (c_CredentialID <$> existing) in
                let credentialID := if is_empty credentialID
                  then DeriveCredentialID bucket bucketProvider region endpoint accessKey else credentialID in
                existing ← match existing with Some c => mret (Some c) | None => known_credential credentialID end;
                let bucketProvider := match existing with
                  | Some c => if is_empty rawProvider then c_Provider c else bucketProvider
                  | None => bucketProvider
                  end in
                let hasExisting := bool_decide (is_Some existing) in
                let scopeOnly := hasExisting && is_empty accessKey && is_empty secretKey && is_empty endpoint
                                 && is_empty region && is_empty rawProvider && negb (is_empty organization) in
                if negb hasExisting && String.eqb bucketProvider S3Provider && (is_empty accessKey || is_empty secretKey)
                then mret StatusBadRequest
                else
                  _ ← if negb (is_empty organization)
                      then Create now (Some (mkScope organization project credentialID bucket prefix)) else mret tt;
                  if scopeOnly then mret StatusCreated
                  else
                    let region := or_existing existing c_Region region in
                    let accessKey := or_existing existing c_AccessKey accessKey in
                    let secretKey := or_existing existing c_SecretKey secretKey in
                    let endpoint := or_existing existing c_Endpoint endpoint in
                    match ValidateBucketNameWithEndpoint bucketProvider bucket endpoint with
                    | Err _ => mret StatusBadRequest
                    | Ok _ =>
                        let cred := mkCredential credentialID bucket bucketProvider region accessKey secretKey endpoint in
                        if String.eqb bucketProvider S3Provider
                           && (is_empty (TrimSpace accessKey) || is_empty (TrimSpace secretKey))
                        then mret StatusBadRequest
                        else _ ← Save (Some cred); mret StatusCreated
                    end
            end
      end
  end.

Definition authorizeBucketDelete (ctx : context) (bucket : string) : M unit :=
  if MissingGen3AuthHeader ctx then fail (EDef ErrAuthenticationRequired)
  else
    scopes ← ask_store ListBucketScopes;
    if BucketsAllowedByNames ctx scopes bucket ["delete"; "update"] then mret tt else fail (EDef ErrAccessDenied).
Definition DeleteBucket (ctx : context) (bucket : string) : M Z :=
  let credentialID := TrimSpace bucket in
  if is_empty credentialID then mret StatusBadRequest
  else
    _ ← authorizeBucketDelete ctx credentialID;
    _ ← DeleteS3Credential signerCacheInvalidator credentialID;
    mret StatusNoContent.

Definition AddBucketScope (now : Z) (ctx : context) (bucket : string) (body : option AddBucketScopeRequest) : M Z :=
  let routeCredentialID := TrimSpace bucket in
  if is_empty routeCredentialID then mret StatusBadRequest
  else
    found ← ask_store (GetS3Credential routeCredentialID);
    match body with
    | None => mret StatusBadRequest
    | Some req =>
        let organization := TrimSpace (as_Organization req) in
        let project := TrimSpace (as_ProjectId req) in
        if is_empty organization then mret StatusBadRequest
        else if MissingGen3AuthHeader ctx then fail (EDef ErrAuthenticationRequired)
        else
          _ ← check (AuthorizeScopeWrite ctx organization project ["create"; "update"]);
          match found with
          | None => fail nil_dereference
          | Some cred =>
              match NormalizeStoragePath (readOptionalPath (as_Path req)) (c_Bucket cred) with
              | Err _ => mret StatusBadRequest
              | Ok prefix =>
                  _ ← Create now (Some (mkScope organization project (c_CredentialID cred) (c_Bucket cred) prefix));
                  mret StatusCreated
              end
          end
    end.

(** The loop that counts the scopes of a deletion request. *)
Definition request_matches (route organization project pathPrefix : string) (scope : Scope) : bool :=
  (EqualFold (s_Bucket scope) route || EqualFold (s_CredentialID scope) route)
  && String.eqb (TrimSpace (s_Organization scope)) organization
  && String.eqb (TrimSpace (s_ProjectID scope)) project
  && String.eqb (Trim (TrimSpace (s_PathPrefix scope)) "/") pathPrefix.
Definition deleteBucketScopeRequest (ctx : context) (bucket : string) (params : DeleteBucketScopeParams) : M Z :=
  let routeCredentialID := TrimSpace bucket in
  if is_empty routeCredentialID then mret StatusBadRequest
  else
    let organization := TrimSpace (ds_Organization params) in
    let scopePath := TrimSpace (ds_Path params) in
    let projectID := default "" (TrimSpace <$> ds_ProjectId params) in
    if is_empty organization then mret StatusBadRequest
    else if MissingGen3AuthHeader ctx then fail (EDef ErrAuthenticationRequired)
    else
      _ ← check (AuthorizeScopeWrite ctx organization projectID ["delete"; "update"]);
      prefix ← if is_empty scopePath then mret (Ok "")
               else cred ← given_credential routeCredentialID; mret (NormalizeStoragePath scopePath (c_Bucket cred));
      match prefix with
      | Err _ => mret StatusBadRequest
      | Ok pathPrefix =>
          scopes ← ask_store ListBucketScopes;
          match length (filter (λ scope, request_matches routeCredentialID organization projectID pathPrefix scope = true) scopes) with
          | O => fail (EDef ErrBucketScopeNotFound)
          | 1 =>
              _ ← DeleteBucketScope signerCacheInvalidator organization projectID routeCredentialID pathPrefix;
              mret StatusNoContent
          | _ => mret StatusConflict
          end
      end.

Definition scope_response (s : S) (scope : Scope) : BucketScopeResponse :=
  let provider := match GetS3Credential (s_CredentialID scope) s with Ok (Some cred) => c_Provider cred | _ => S3Provider end in
  mkScopeResponse (s_Organization scope) (s_ProjectID scope) (scope_path provider (s_Bucket scope) (s_PathPrefix scope)).
Definition scope_shown (ctx : context) (route : string) (scope : Scope) : bool :=
  (EqualFold (s_Bucket scope) route || EqualFold (s_CredentialID scope) route) && ScopeAllowed ctx scope ["read"].
Definition ListBucketScopesHandler (ctx : context) (bucket : string) : M (response (list BucketScopeResponse)) :=
  if MissingGen3AuthHeader ctx then fail (EDef ErrAuthenticationRequired)
  else
    let routeCredentialID := TrimSpace bucket in
    if is_empty routeCredentialID then mret (Status StatusBadRequest)
    else λ s,
      (scopes ← ask_store ListBucketScopes;
       mret (Data (scope_response (sv_store s) <$> filter (λ scope, scope_shown ctx routeCredentialID scope = true) scopes))) s.
End handlers.

(** * What the bucket endpoints allow
    Nothing changes without a right on the scope that the request names, and a deletion removes one scope only; but the
    right on one scope is enough to replace or to delete the credential that other projects use. *)
From S2P Require Import ContentStore ContentReads Cipher CredentialStore BucketProperties CredentialProperties BucketLifecycle.
Section handlers.
Context `{MapOrder} `{Digests} {S : Type} `{!BucketPorts S} (ttl : Z) (signers : bool).

Definition permitted (ctx : context) (organization project : string) (methods : list string) : Prop :=
  MissingGen3AuthHeader ctx = false ∧ AuthorizeScopeWrite ctx organization project methods = Ok tt.
Lemma check_refused {A B} (r : result error A) (f : A → service (ServiceState S) B) s s' x :
  (check r ≫= f) s = (s', x) → s' ≠ s → ∃ a, r = Ok a ∧ f a s = (s', x).
Proof. unfold mbind, service_bind, check. destruct r as [a|e]; [by exists a|]. by intros [= <- <-]. Qed.
Lemma ask_changed {A B} (g : S → result error A) (f : A → service (ServiceState S) B) s s' x :
  (ask_store g ≫= f) s = (s', x) → s' ≠ s → ∃ a, g (sv_store s) = Ok a ∧ f a s = (s', x).
Proof.
  unfold mbind, service_bind, ask_store, ask, compose. destruct (g (sv_store s)) as [a|e]; [by exists a|].
  by intros [= <- <-].
Qed.

(** A request for a bucket, for a scope or for the removal of a scope changes something only if the caller may write the
    scope that the request names (create or update, delete or update); the removal of a bucket only if the caller may
    delete or update some scope of a bucket of that very name.  In gen3 mode an authorization header is there. *)
Theorem bucket_changes_authorized now ctx bucket s s' x :
  s' ≠ s →
  (∀ req, PutBucket ttl signers now ctx (Some req) s = (s', x) →
     permitted ctx (TrimSpace (pb_Organization req)) (TrimSpace (pb_ProjectId req)) ["create"; "update"]) ∧
  (∀ req, AddBucketScope ttl now ctx bucket (Some req) s = (s', x) →
     permitted ctx (TrimSpace (as_Organization req)) (TrimSpace (as_ProjectId req)) ["create"; "update"] ∧
     TrimSpace (as_Organization req) ≠ "" ∧ ∃ cred, Buckets.GetS3Credential (TrimSpace bucket) (sv_store s) = Ok (Some cred)) ∧
  (∀ params, deleteBucketScopeRequest signers ctx bucket params s = (s', x) →
     permitted ctx (TrimSpace (ds_Organization params)) (default "" (TrimSpace <$> ds_ProjectId params)) ["delete"; "update"]) ∧
  (DeleteBucket signers ctx bucket s = (s', x) →
     MissingGen3AuthHeader ctx = false ∧ ∃ scopes scope, Buckets.ListBucketScopes (sv_store s) = Ok scopes ∧ scope ∈ scopes ∧
       s_Bucket scope = TrimSpace bucket ∧ ScopeAllowed ctx scope ["delete"; "update"] = true).
Proof.
  intros Hne. unfold permitted. split_and!.
  - intros req. unfold PutBucket. cbv zeta. destruct (ParseBucketProvider _); [|by intros [= <- <-]].
    destruct (is_empty _); [by intros [= <- <-]|]. destruct (_ && _); [by intros [= <- <-]|].
    destruct (MissingGen3AuthHeader ctx); [by intros [= <- <-]|].
    by intros ([] & Ha & _)%check_refused.
  - intros req. unfold AddBucketScope. cbv zeta. destruct (is_empty _); [by intros [= <- <-]|].
    intros (cred & Hg & Hr)%ask_changed; [|done]. destruct (is_empty (TrimSpace (as_Organization req))) eqn:Eo; [by injection Hr as <- _|].
    destruct (MissingGen3AuthHeader ctx); [by injection Hr as <- _|].
    apply check_refused in Hr as ([] & Ha & Hr); [|done]. destruct cred as [cred|]; [|by injection Hr as <- _].
    split_and!; [done|done|by apply is_empty_false|by exists cred].
  - intros params. unfold deleteBucketScopeRequest. cbv zeta. destruct (is_empty _); [by intros [= <- <-]|].
    destruct (is_empty _); [by intros [= <- <-]|]. destruct (MissingGen3AuthHeader ctx); [by intros [= <- <-]|].
    by intros ([] & Ha & _)%check_refused.
  - unfold DeleteBucket, authorizeBucketDelete. cbv zeta. destruct (is_empty _); [by intros [= <- <-]|].
    destruct (MissingGen3AuthHeader ctx); [by intros [= <- <-]|]. intros Hr. split; [done|].
    unfold mbind at 1, service_bind at 1 in Hr. unfold mbind at 1, service_bind at 1, ask_store, ask, compose in Hr.
    destruct (Buckets.ListBucketScopes (sv_store s)) as [scopes|e] eqn:El; [|by injection Hr as <- _].
    destruct (BucketsAllowedByNames _ _ _ _) eqn:Eb; [|by injection Hr as <- _].
    apply existsb_exists in Eb as (scope & Hin%list_elem_of_In & [Hb%String.eqb_eq Ha]%andb_true_iff).
    by exists scopes, scope.
Qed.

End handlers.

(** ** The removal of a scope *)
(** The primary key of bucket_scope. *)
Definition scope_key (s : Scope) : string * string := (s_Organization s, s_ProjectID s).
Definition unique_scopes (db : CredentialDB) : Prop := NoDup (scope_key <$> bucket_scope db).
Lemma scope_at_key o p s : scope_at o p s = true ↔ scope_key s = (o, p).
Proof. rewrite scope_at_spec. unfold scope_key. split; [by intros [-> ->]|by intros [= -> ->]]. Qed.
Lemma unique_put row rows : NoDup (scope_key <$> rows) → NoDup (scope_key <$> put_scope row rows).
Proof.
  intros Hu. unfold put_scope. cbv zeta. destruct (existsb _ _) eqn:E.
  - rewrite <- list_fmap_compose. assert (scope_key <$> rows = (scope_key ∘ (λ s, if scope_at (s_Organization row) (s_ProjectID row) s then row else s)) <$> rows) as <-; [|done].
    apply list_fmap_ext. intros _ s _. unfold compose. destruct (scope_at _ _ s) eqn:Es; [|done]. by apply scope_at_key in Es.
  - rewrite fmap_app, NoDup_app. split_and!; [done| |apply NoDup_singleton]. intros k Hk Hin.
    apply list_elem_of_singleton in Hin as ->. apply list_elem_of_fmap in Hk as (s & Hs & Hin).
    apply not_true_iff_false in E. apply E, existsb_exists. exists s. split; [by apply list_elem_of_In|]. by apply scope_at_key.
Qed.
Lemma unique_remaining (q : Scope → Prop) `{!∀ s, Decision (q s)} rows :
  NoDup (scope_key <$> rows) → NoDup (scope_key <$> filter q rows).
Proof. intros Hu. eapply sublist_NoDup; [exact Hu|]. apply fmap_sublist, sublist_filter. Qed.
(** The statements of the repository keep the key. *)
Lemma unique_scopes_kept `{CryptoLib} `{KMS} st db :
  unique_scopes db →
  (∀ scope, unique_scopes (CreateBucketScope (Some scope) db).1) ∧
  (∀ o p name pre, unique_scopes (DeleteBucketScope o p name pre db).1) ∧
  ∀ name, unique_scopes (DeleteS3Credential st name db).1.
Proof.
  intros Hu. split_and!.
  - intros scope. destruct (CreateBucketScope (Some scope) db) as [db' r] eqn:E. simpl.
    destruct (CreateBucketScope_cases _ _ _ _ E) as [[_ ->]|(_ & _ & [->|[-> _]])]; [done| |done]. by apply unique_put.
  - intros o p name pre. unfold DeleteBucketScope. repeat case_match; try done. by apply unique_remaining.
  - intros name. unfold DeleteS3Credential. repeat case_match; try done; by apply unique_remaining.
Qed.
Lemma remove_single (P : Scope → bool) k rows :
  NoDup (scope_key <$> rows) → (∀ s, P s = true → scope_key s = k) → existsb P rows = true →
  ∃ front scope back, rows = front ++ scope :: back ∧ P scope = true ∧ filter (λ s, P s = false) rows = front ++ back.
Proof.
  intros Hu HP. induction rows as [|x rows IH]; [done|]. rewrite fmap_cons in Hu. apply NoDup_cons in Hu as [Hx Hu].
  cbn [existsb]. destruct (P x) eqn:Ex; cbn [orb].
  - intros _. exists [], x, rows. split_and!; [done|done|]. rewrite filter_cons, decide_False by congruence. simpl.
    assert (∀ s, s ∈ rows → P s = false) as Hno.
    { intros s Hs. apply not_true_iff_false. intros Hp. apply Hx. rewrite (HP x Ex), <- (HP s Hp). by apply list_elem_of_fmap_2. }
    clear -Hno. induction rows as [|y rows IH]; [done|]. rewrite filter_cons, decide_True by (apply Hno; left). f_equal.
    apply IH. intros s Hs. apply Hno. by right.
  - intros Hex. destruct (IH Hu Hex) as (front & s & back & -> & Hs & Hf). exists (x :: front), s, back.
    split_and!; [done|done|]. rewrite filter_cons, decide_True by done. by rewrite Hf.
Qed.

Section sqlite.
Context `{MapOrder} `{CryptoLib} `{KMS} `{Digests} (st : settings)
  (rnd rnd' : option Credential → CredentialDB → randomness) (signers : bool).
#[local] Instance handler_ports : BucketPorts CredentialDB := sqlite_bucket_ports st rnd rnd'.

Lemma DeleteBucketScope_rows o p name pre s s' :
  sound st (sv_store s) → Buckets.DeleteBucketScope signers o p name pre s = (s', Ok tt) →
  let matches := scope_matches (TrimSpace o) (TrimSpace p) (TrimSpace name) (Trim (TrimSpace pre) "/") in
  existsb matches (bucket_scope (sv_store s)) = true ∧
  bucket_scope (sv_store s') = filter (λ scope, matches scope = false) (bucket_scope (sv_store s)).
Proof.
  intros Hs Hrun. unfold Buckets.DeleteBucketScope in Hrun. unfold mbind at 1, service_bind at 1, on_store in Hrun.
  change (port_DeleteBucketScope o p name pre (sv_store s)) with (DeleteBucketScope o p name pre (sv_store s)) in Hrun.
  intros matches. unfold DeleteBucketScope in Hrun. cbv zeta in Hrun. fold matches in Hrun.
  destruct (_ || _) in Hrun; [done|]. destruct (existsb matches _) eqn:Ex; [|done]. split; [done|].
  unfold mbind, service_bind, cache_clear, on_cache in Hrun.
  set (left := filter (λ scope, matches scope = false) (bucket_scope (sv_store s))) in *.
  set (s1 := set_cache ∅ (set_store (set_bucket_scope left (sv_store s)) s)) in Hrun.
  assert (sound st (sv_store s1)) as Hs1 by (destruct Hs as [[Hi Hb] Hn Hp]; by repeat split).
  destruct (cleanup_spec st rnd rnd' signers name s1 Hs1 eq_refl) as (E1 & _).
  change (cleanup_credential signers name s1 = (s', Ok tt)) in Hrun.
  assert (bucket_scope (sv_store (cleanup_credential signers name s1).1) = left) as Hb by exact (f_equal bucket_scope E1).
  by rewrite Hrun in Hb.
Qed.
(** A scope removed over the network: one row goes, it is the row that the request names, the caller may delete or
    update its scope, and every other row stays in its place. *)
Theorem scope_removal_is_single ctx bucket params s s' :
  sound st (sv_store s) → unique_scopes (sv_store s) →
  deleteBucketScopeRequest signers ctx bucket params s = (s', Ok StatusNoContent) →
  ∃ front scope back, bucket_scope (sv_store s) = front ++ scope :: back ∧ bucket_scope (sv_store s') = front ++ back ∧
    permitted ctx (s_Organization scope) (s_ProjectID scope) ["delete"; "update"] ∧
    s_Organization scope = TrimSpace (ds_Organization params) ∧
    (s_Bucket scope = TrimSpace bucket ∨ s_CredentialID scope = TrimSpace bucket).
Proof.
  intros Hs Hu. unfold deleteBucketScopeRequest. cbv zeta. set (route := TrimSpace bucket).
  set (org := TrimSpace (ds_Organization params)). set (proj := default "" (TrimSpace <$> ds_ProjectId params)).
  assert (TrimSpace org = org) as Horg by apply TrimSpace_idemp.
  assert (TrimSpace route = route) as Hroute by apply TrimSpace_idemp.
  assert (TrimSpace proj = proj) as Hproj by (unfold proj; destruct (ds_ProjectId params); [apply TrimSpace_idemp|done]).
  destruct (is_empty route); [done|]. destruct (is_empty org); [done|]. destruct (MissingGen3AuthHeader ctx) eqn:Em; [done|].
  intros (s1 & [] & [= <- Ha] & Hr)%service_bind_Ok.
  apply service_bind_Ok in Hr as (s2 & prefix & Hp & Hr).
  assert (s2 = s) as ->.
  { destruct (is_empty _); [by injection Hp as <- _|].
    apply service_bind_Ok in Hp as (s3 & cred & Hg & [= <- _]).
    unfold given_credential, mbind, service_bind, ask_store, ask, compose in Hg. destruct (Buckets.GetS3Credential _ _) as [[?|]|]; by injection Hg as <- _. }
  destruct prefix as [pathPrefix|]; [|done]. apply service_bind_Ok in Hr as (s3 & scopes & [= <- <-] & Hr).
  destruct (length _) as [|[|]] eqn:El; [done| |done]. apply service_bind_Ok in Hr as (s4 & [] & Hd & [= <-]).
  destruct (DeleteBucketScope_rows _ _ _ _ _ _ Hs Hd) as [Hex Hrows]. rewrite Horg, Hproj, Hroute in Hex, Hrows.
  set (P := scope_matches org proj route (Trim (TrimSpace pathPrefix) "/")) in *.
  assert (∀ scope, P scope = true →
    s_Organization scope = org ∧ s_ProjectID scope = proj ∧ (s_Bucket scope = route ∨ s_CredentialID scope = route)) as Hm.
  { intros scope. unfold P, scope_matches. rewrite !andb_true_iff, orb_true_iff, scope_at_spec, !String.eqb_eq. naive_solver. }
  destruct (remove_single P (org, proj) _ Hu) as (front & scope & back & E1 & E2 & E3); [|done|].
  { intros sc Hsc. unfold scope_key. by destruct (Hm sc Hsc) as (-> & -> & _). }
  destruct (Hm scope E2) as (Eo & Ep & Er). exists front, scope, back. rewrite Hrows, Eo, Ep. done.
Qed.
End sqlite.

(** ** Executions: the bucket of organization [a] and a caller who may write organization [b] *)
Section sample.
#[local] Existing Instance canonical_order.
#[local] Existing Instances Sample.library Sample.kms sample_digests.
#[local] Instance handler_sample_ports : BucketPorts CredentialDB :=
  sqlite_bucket_ports Sample.local_settings (λ _ _, Sample.random) (λ _ _, Sample.random).
Definition writer (organization : string) : context :=
  Some (mkSession "local" "" "u" [] (list_to_map [("/organization/" +:+ organization,
    list_to_map ((λ m, (m, true)) <$> ["read"; "create"; "update"; "delete"]))]) true true).
Definition shared_bucket : ServiceState CredentialDB :=
  run_ops 30 true [OpSave (Some sample_credential); OpCreate 0 (Some (mkScope "a" "" "cred" "data" "x"));
    OpCreate 1 (Some (mkScope "b" "" "cred" "data" "y"))] (start empty_credential_db).
Definition take_over : PutBucketRequest :=
  mkPutBucket "data" "b" "" None (Some "s3") (Some "r") (Some "AK2") (Some "SK2") (Some "https://elsewhere").
Lemma shared_sound : sound Sample.local_settings (sv_store shared_bucket) ∧ unique_scopes (sv_store shared_bucket).
Proof. split; [split; [split| |]|]; by apply (bool_decide_unpack _); vm_compute. Qed.

(** The scope of [b] is moved by its writer, and not by the writer of [a]. *)
Lemma bucket_changes_authorized_witness :
  ∃ s', AddBucketScope 30 7 (writer "b") "data" (Some (mkAddScope "b" "" (Some "s3://data/z"))) shared_bucket = (s', Ok StatusCreated) ∧
    s' ≠ shared_bucket ∧ permitted (writer "b") "b" "" ["create"; "update"] ∧
    (AddBucketScope 30 7 (writer "a") "data" (Some (mkAddScope "b" "" (Some "s3://data/z"))) shared_bucket).2 = Err (EDef ErrAccessDenied).
Proof.
  destruct (AddBucketScope 30 7 (writer "b") "data" (Some (mkAddScope "b" "" (Some "s3://data/z"))) shared_bucket) as [s' r] eqn:E.
  assert (r = Ok StatusCreated) as -> by (vm_compute in E; injection E as _ <-; reflexivity).
  assert (s' ≠ shared_bucket) as Hne.
  { intros ->. apply (f_equal (λ x, bucket_scope (sv_store x.1))) in E. vm_compute in E. discriminate. }
  exists s'. split_and!; [reflexivity|exact Hne| |vm_compute; reflexivity].
  destruct (bucket_changes_authorized 30 true 7 (writer "b") "data" shared_bucket s' (Ok StatusCreated) Hne) as (_ & Ha & _).
  exact (proj1 (Ha (mkAddScope "b" "" (Some "s3://data/z")) E)).
Defined.
Lemma scope_removal_is_single_witness :
  ∃ s', deleteBucketScopeRequest true (writer "b") "DATA " (mkDeleteScope " b" "" None) shared_bucket = (s', Err (EDef ErrBucketScopeNotFound)) ∧
  ∃ s', deleteBucketScopeRequest true (writer "b") "data " (mkDeleteScope " b" "s3://data/y/" None) shared_bucket = (s', Ok StatusNoContent) ∧
    bucket_scope (sv_store s') = [mkScope "a" "" "cred" "data" "x"] ∧
    ∃ front scope back, bucket_scope (sv_store shared_bucket) = front ++ scope :: back ∧ bucket_scope (sv_store s') = front ++ back ∧
      s_Organization scope = "b".
Proof.
  eexists. split; [vm_compute; reflexivity|].
  destruct (deleteBucketScopeRequest true (writer "b") "data " (mkDeleteScope " b" "s3://data/y/" None) shared_bucket) as [s' r] eqn:E.
  assert (r = Ok StatusNoContent) as -> by (vm_compute in E; injection E as _ <-; reflexivity).
  destruct (scope_removal_is_single Sample.local_settings (λ _ _, Sample.random) (λ _ _, Sample.random) true (writer "b") "data "
    (mkDeleteScope " b" "s3://data/y/" None) shared_bucket s' (proj1 shared_sound) (proj2 shared_sound) E)
    as (front & scope & back & E1 & E2 & _ & E3 & _).
  exists s'. split_and!; [reflexivity|vm_compute in E; injection E as <-; reflexivity|].
  exists front, scope, back. split_and!; [exact E1|exact E2|]. rewrite E3. vm_compute. reflexivity.
Defined.
End sample.
