(* ===== verification/ScopeRepair.v ===== *)
(** * The repair of project scopes: internal/objects/scoperepair and cmd/server/scope_repair.go
    An audit compares the locations of the records of a project with the location that the bucket scope of the project
    gives them, and marks the records that it can repair; the repair writes them.  The collaborators are the class
    [RepairPorts]; they are methods, since the probe looks at the storage. *)
From S2P Require Import Prelude GoStrings GoURL Errors Resources Policy Objects Address Buckets.

(** ** types.go *)
Record PreparedRecordQuery := mkPreparedQuery { pq_Limit : Z; pq_Start : string; pq_Organization : string; pq_Project : string }.
Record StorageInspectRequest := mkInspect { si_Organization : string; si_Project : string; si_ObjectURL : string }.
Record RepairOptions := mkRepairOptions {
  ro_Organization : string; ro_Project : string; ro_CheckStorage : bool; ro_Limit : Z; ro_PageSize : Z }.
Inductive FindingKind :=
  | FindingLegacyAccessURLRemovable | FindingLegacyAccessURLRewritable | FindingNonCanonicalAccessURL
  | FindingMissingControlledAccess | FindingDuplicateSHA256Sibling | FindingStorageObjectMissing | FindingStorageProbeError.
Inductive Severity := SeverityInfo | SeverityWarn | SeverityError.
(** The message is an error, whose text it shows; its own texts are format strings. *)
Record Finding := mkFinding {
  fi_Kind : FindingKind; fi_Severity : Severity; fi_ObjectID : string; fi_SHA256 : string; fi_Organization : string;
  fi_Project : string; fi_CurrentAccessURLs : list string; fi_ProposedCanonicalURL : string; fi_AutoFixable : bool;
  fi_Message : error }.
Record ObjectReport := mkObjectReport {
  or_ObjectID : string; or_SHA256 : string; or_Organization : string; or_Project : string; or_CurrentAccessURLs : list string;
  or_ProposedCanonicalURL : string; or_AutoFixable : bool; or_Findings : list Finding }.
Record Report := mkReport { rp_Organization : string; rp_Project : string; rp_Scanned : nat; rp_Objects : list ObjectReport }.
Record ApplyResult := mkApplyResult { ap_Report : Report; ap_Mutated : nat; ap_Skipped : nat; ap_AutoFixable : nat }.
Definition FindingCount (r : Report) : nat := length (rp_Objects r).

Class RepairPorts (S : Type) := {
  repair_ListPrepared : option (PreparedRecordQuery → service S (list ObjectRecord));
  repair_Update : option (string → ObjectRecord → service S unit);
  repair_ListCredentials : option (service S (list Credential));
  repair_ListScopes : string → service S (list Scope);
  repair_Inspect : option (StorageInspectRequest → service S unit);
  repair_Collapse : option (string → string → service S nat) }.

(** ** service.go: locations *)
Record scopeTarget := mkScopeTarget {
  st_Resource : string; st_Organization : string; st_Project : string; st_Bucket : string; st_Prefix : string }.
Definition no_target : scopeTarget := mkScopeTarget "" "" "" "" "".
Record auditedObject := mkAudited {
  au_record : ObjectRecord; au_sha256 : string; au_currentURLs : list string; au_scope : scopeTarget; au_scopeKnown : bool;
  au_scopeAmbiguous : bool; au_inferredScope : string; au_canonicalURL : string; au_findings : list Finding;
  au_updated : option ObjectRecord }.

Definition accessMethodURL (method : AccessMethod) : string :=
  match am_AccessUrl method with Some u => TrimSpace (au_Url u) | None => "" end.
Definition accessMethodURLs (methods : option (list AccessMethod)) : list string :=
  filter (λ raw, raw ≠ "") (accessMethodURL <$> default [] methods).
Definition setAccessMethodURL (raw : string) (method : AccessMethod) : AccessMethod :=
  mkAccessMethod (am_AccessId method)
    (Some (mkAccessURL (match am_AccessUrl method with Some u => au_Headers u | None => None end) raw))
    (am_Authorizations method) (am_Available method) (am_Cloud method) (am_Region method) (am_Type method).
Definition clear_url (method : AccessMethod) : AccessMethod :=
  mkAccessMethod (am_AccessId method) None (am_Authorizations method) (am_Available method) (am_Cloud method) (am_Region method)
    (am_Type method).
Definition objectName (record : ObjectRecord) : string :=
  match r_Name record with Some n => Trim (TrimSpace n) "/" | None => "" end.
Definition under_prefix (target : scopeTarget) (parts : list string) : string :=
  let prefix := Trim (st_Prefix target) "/" in
  "s3://" +:+ TrimSpace (st_Bucket target) +:+ "/" +:+ Join ((if is_empty prefix then [] else [prefix]) ++ parts) "/".
Definition canonicalAccessURL (target : scopeTarget) (did sha : string) : string :=
  if is_empty (TrimSpace (st_Bucket target)) || is_empty (TrimSpace did) || is_empty (TrimSpace sha) then ""
  else under_prefix target [TrimSpace did; TrimSpace sha].
Definition pathStyleAccessURL (target : scopeTarget) (name : string) : string :=
  if is_empty (TrimSpace (st_Bucket target)) || is_empty (TrimSpace name) then ""
  else under_prefix target [Trim name "/"].
(** [None]: not a URL. *)
Definition parseScopePath (raw : string) : option (string * string) :=
  let raw := TrimSpace raw in
  if is_empty raw then None
  else match url_Parse raw with
       | Some parsed => if is_empty (url_Scheme parsed) then None
                        else Some (TrimSpace (url_Host parsed), Trim (TrimSpace (url_Path parsed)) "/")
       | None => None
       end.
Definition scopeBelongsToCredential (scope : Scope) (credential : Credential) : bool :=
  existsb (λ value, negb (is_empty (TrimSpace value)) &&
      (EqualFold (TrimSpace value) (TrimSpace (c_CredentialID credential))
       || EqualFold (TrimSpace value) (TrimSpace (c_Bucket credential)))) [s_CredentialID scope; s_Bucket scope]
  || (is_empty (TrimSpace (s_CredentialID scope)) && is_empty (TrimSpace (s_Bucket scope))).
(** Empty slices become nil. *)
Definition cloneRecord (record : ObjectRecord) : ObjectRecord :=
  match r_Checksums record with Some [] => set_Checksums record None | _ => record end.

Section repair.
Context `{MapOrder} `{Digests}.

Definition addControlledAccess (controlled : option (list string)) (resource : string) : list string :=
  NormalizeAccessResources (slice controlled ++ [resource]).
Definition newFinding (kind : FindingKind) (severity : Severity) (record : ObjectRecord) (sha : string) (currentURLs : list string)
    (canonical : string) (autoFixable : bool) (message : error) : Finding :=
  let scope := default ("", "") (head (filter (λ s, s.1 ≠ "") (omap ResourceScope (AccessResources record)))) in
  mkFinding kind severity (r_Id record) sha scope.1 scope.2 currentURLs canonical autoFixable message.
Definition recordProjectResources (record : ObjectRecord) (inferred : string) : list string :=
  let in_project resource := match ResourceScope resource with
    | Some (org, project) => negb (is_empty org) && negb (is_empty project) | None => false end in
  let result := dedup (filter (λ r, in_project r = true) (AccessResources record)) in
  sort_Strings (if negb (is_empty inferred) && negb (bool_decide (inferred ∈ result)) then result ++ [inferred] else result).
Definition recordMatchesResource (record : ObjectRecord) (resource : string) : bool :=
  bool_decide (resource ∈ AccessResources record).
(** The resource, and whether it is known or ambiguous. *)
Definition inferRecordResource (record : ObjectRecord) (sha : string) (scopes : gmap string (list scopeTarget))
  : string * bool * bool :=
  match recordProjectResources record "" with
  | [resource] => (resource, negb (bool_decide (default [] (scopes !! resource) = [])), false)
  | _ :: _ :: _ => ("", false, true)
  | [] =>
      if is_empty (TrimSpace sha) then ("", false, false)
      else
        let minted '(resource, targets) :=
          match targets with
          | [] => false
          | target :: _ => negb (is_empty (TrimSpace (st_Project target))) &&
              match MintRecordIDFromChecksum sha [resource] with Ok id => String.eqb id (r_Id record) | Err _ => false end
          end in
        match filter (λ e, minted e = true) (go_range scopes) with
        | [(resource, _)] => (resource, true, false)
        | [] => ("", false, false)
        | _ => ("", false, true)
        end
  end.

(** ** service.go: the audit *)
Context {S : Type} `{!RepairPorts S}.

Definition checkURLExists (object : auditedObject) (raw : string) : service S bool :=
  match repair_Inspect with
  | None => mret false
  | Some inspect =>
      if is_empty (TrimSpace raw) then mret false
      else
        found ← attempt (inspect (mkInspect (st_Organization (au_scope object)) (st_Project (au_scope object)) raw));
        mret (is_ok found)
  end.
Definition set_findings (findings : list Finding) (o : auditedObject) : auditedObject :=
  mkAudited (au_record o) (au_sha256 o) (au_currentURLs o) (au_scope o) (au_scopeKnown o) (au_scopeAmbiguous o) (au_inferredScope o)
    (au_canonicalURL o) findings (au_updated o).
Definition add_finding (finding : Finding) (o : auditedObject) : auditedObject := set_findings (au_findings o ++ [finding]) o.
Definition set_updated (updated : ObjectRecord) (o : auditedObject) : auditedObject :=
  mkAudited (au_record o) (au_sha256 o) (au_currentURLs o) (au_scope o) (au_scopeKnown o) (au_scopeAmbiguous o) (au_inferredScope o)
    (au_canonicalURL o) (au_findings o) (Some updated).
Definition set_scope (scope : scopeTarget) (o : auditedObject) : auditedObject :=
  mkAudited (au_record o) (au_sha256 o) (au_currentURLs o) scope (au_scopeKnown o) (au_scopeAmbiguous o) (au_inferredScope o)
    (au_canonicalURL o) (au_findings o) (au_updated o).

(** One method of the loop: the method, its finding, and whether the target is there now. *)
Definition classify_method (object : auditedObject) (targetURL : string) (hasTarget : bool) (method : AccessMethod)
  : AccessMethod * option Finding * bool :=
  let raw := accessMethodURL method in
  let found kind message := Some (newFinding kind SeverityWarn (au_record object) (au_sha256 object) (au_currentURLs object)
                                    targetURL true (EText message)) in
  if is_empty raw || String.eqb raw targetURL then (method, None, hasTarget)
  else if hasTarget
  then (clear_url method, found FindingLegacyAccessURLRemovable "redundant URL %q has target sibling %q", true)
  else (setAccessMethodURL targetURL method, found FindingLegacyAccessURLRewritable "URL %q can be rewritten to target URL %q", true).
Fixpoint classify_methods (object : auditedObject) (targetURL : string) (hasTarget : bool) (methods : list AccessMethod)
  : list AccessMethod * list Finding :=
  match methods with
  | [] => ([], [])
  | method :: methods =>
      let '(method, finding, hasTarget) := classify_method object targetURL hasTarget method in
      let '(methods, findings) := classify_methods object targetURL hasTarget methods in
      (method :: methods, from_option (λ f, [f]) [] finding ++ findings)
  end.
(** The location that the methods shall have. *)
Definition repair_target (object : auditedObject) (checkStorage : bool) : service S string :=
  let pathStyleURL := pathStyleAccessURL (au_scope object) (objectName (au_record object)) in
  if checkStorage then
    canonicalExists ← checkURLExists object (au_canonicalURL object);
    pathStyleExists ← checkURLExists object pathStyleURL;
    mret (if negb canonicalExists && pathStyleExists then pathStyleURL else au_canonicalURL object)
  else mret (au_canonicalURL object).
Definition classifyAccessMethods (object : auditedObject) (checkStorage : bool) : service S auditedObject :=
  match r_AccessMethods (au_record object) with
  | None => mret object
  | Some methods =>
      targetURL ← repair_target object checkStorage;
      let hasTarget := bool_decide (targetURL ∈ au_currentURLs object) in
      let '(methods, findings) := classify_methods object targetURL hasTarget methods in
      match findings with
      | [] => mret object
      | _ =>
          let object := set_findings (au_findings object ++ findings) object in
          let filtered := filter (λ m, accessMethodURL m ≠ "") methods in
          let updated := set_AccessMethods (cloneRecord (au_record object)) (Some filtered) in
          let updated := match au_updated object ≫= r_ControlledAccess with
            | Some controlled => set_Authorizations (set_ControlledAccess updated (Some controlled)) (ControlledAccessToAuthzMap controlled)
            | None => updated
            end in
          mret (set_updated updated object)
      end
  end.
Definition storage_finding (object : auditedObject) (raw : string) (e : error) : Finding :=
  let '(kind, severity, message) :=
    if errors_Is e ErrStorageNotFound
    then (FindingStorageObjectMissing, SeverityError, EText "storage object not found")
    else (FindingStorageProbeError, SeverityWarn, e) in
  newFinding kind severity (au_record object) (au_sha256 object) [raw] (au_canonicalURL object) false message.
Definition addStorageFindings (object : auditedObject) : service S auditedObject :=
  match repair_Inspect with
  | None => mret object
  | Some inspect =>
      found ← mapM (λ raw,
        seen ← attempt (inspect (mkInspect (st_Organization (au_scope object)) (st_Project (au_scope object)) raw));
        mret (match seen with Ok _ => None | Err e => Some (storage_finding object raw e) end)) (au_currentURLs object);
      mret (set_findings (au_findings object ++ omap id found) object)
  end.
(** What the scope says about a record, before its locations are looked at. *)
Definition scoped_record (record : ObjectRecord) (scopes : gmap string (list scopeTarget)) : auditedObject :=
  let sha := default "" (CanonicalSHA256 (slice (r_Checksums record))) in
  let '(resource, known, ambiguous) := inferRecordResource record sha scopes in
  let '(scope, canonicalURL) :=
    match (if known : bool then default [] (scopes !! resource) else []) with
    | scope :: _ => (scope, canonicalAccessURL scope (r_Id record) sha)
    | [] => (no_target, "")
    end in
  mkAudited record sha (accessMethodURLs (r_AccessMethods record)) scope known ambiguous resource canonicalURL [] None.
Definition target_resource (options : RepairOptions) : string :=
  if negb (is_empty (TrimSpace (ro_Organization options))) && negb (is_empty (TrimSpace (ro_Project options)))
  then match ResourcePath (ro_Organization options) (ro_Project options) with Ok r => r | Err _ => "" end else "".
(** The grant of the project is missing, and its id says that the record belongs there. *)
Definition recover_access (targetResource : string) (object : auditedObject) : auditedObject :=
  let record := au_record object in
  if negb (is_empty targetResource) && negb (recordMatchesResource record targetResource)
     && String.eqb (au_inferredScope object) targetResource && negb (is_empty (au_sha256 object))
  then
    let finding := newFinding FindingMissingControlledAccess SeverityWarn record (au_sha256 object) (au_currentURLs object)
      (au_canonicalURL object) true (EText "missing controlled_access row recoverable from deterministic scope") in
    let controlled := addControlledAccess (r_ControlledAccess record) targetResource in
    set_updated (set_Authorizations (set_ControlledAccess (cloneRecord record) (Some controlled)) (ControlledAccessToAuthzMap controlled))
      (add_finding finding object)
  else object.
(** [None]: the record is not part of the audit. *)
Definition auditRecord (scopes : gmap string (list scopeTarget)) (options : RepairOptions) (record : ObjectRecord)
  : service S (option auditedObject) :=
  let object := scoped_record record scopes in
  let targetResource := target_resource options in
  if negb (is_empty targetResource) && negb (recordMatchesResource record targetResource)
     && negb (String.eqb (au_inferredScope object) targetResource)
  then mret None
  else
    let object := recover_access targetResource object in
    object ← if au_scopeKnown object && negb (is_empty (au_canonicalURL object))
             then classifyAccessMethods object (ro_CheckStorage options) else mret object;
    object ← if ro_CheckStorage options then addStorageFindings object else mret object;
    mret (Some object).

(** The objects are shared: the map holds their places in the list. *)
Definition duplicate_key (resource sha : string) : string := resource +:+ "|" +:+ sha.
Definition duplicate_group_map (objects : list auditedObject) : gmap string (list nat) :=
  foldl (λ byKey '(i, o),
    if is_empty (au_sha256 o) then byKey
    else foldl (λ byKey resource, let key := duplicate_key resource (au_sha256 o) in
                  <[key := default [] (byKey !! key) ++ [i]]> byKey)
           byKey (recordProjectResources (au_record o) (au_inferredScope o)))
    ∅ (imap pair objects).
Definition mark_duplicate (key : string) (o : auditedObject) : auditedObject :=
  let resource := match Cut key "|" with Some (r, _) => r | None => key end in
  let '(organization, project) := default ("", "") (ResourceScope resource) in
  let o := add_finding (newFinding FindingDuplicateSHA256Sibling SeverityWarn (au_record o) (au_sha256 o) (au_currentURLs o)
             (au_canonicalURL o) false (EText "same sha256 appears in multiple DIDs for this scope")) o in
  let scope := au_scope o in
  if is_empty (st_Organization scope)
  then set_scope (mkScopeTarget (st_Resource scope) organization project (st_Bucket scope) (st_Prefix scope)) o else o.
Definition addDuplicateFindings (objects : list auditedObject) : list auditedObject :=
  foldl (λ objects '(key, group),
    if (length group <? 2)%nat then objects else foldl (λ objects i, alter (mark_duplicate key) i objects) objects group)
    objects (go_range (duplicate_group_map objects)).

Definition scope_target (bucket resource : string) (scope : Scope) : scopeTarget :=
  let org := TrimSpace (s_Organization scope) in
  let project := TrimSpace (s_ProjectID scope) in
  match parseScopePath (s_PathPrefix scope) with
  | Some (scopeBucket, prefix) => mkScopeTarget resource org project (if is_empty scopeBucket then bucket else scopeBucket) prefix
  | None => mkScopeTarget resource org project bucket (Trim (TrimSpace (s_PathPrefix scope)) "/")
  end.
Definition add_scope_target (credential : Credential) (bucket : string) (out : gmap string (list scopeTarget)) (scope : Scope)
  : gmap string (list scopeTarget) :=
  if negb (scopeBelongsToCredential scope credential) then out
  else match ResourcePath (TrimSpace (s_Organization scope)) (TrimSpace (s_ProjectID scope)) with
       | Ok resource => if is_empty resource then out
                        else <[resource := default [] (out !! resource) ++ [scope_target bucket resource scope]]> out
       | Err _ => out
       end.
Fixpoint load_credentials (out : gmap string (list scopeTarget)) (credentials : list Credential)
  : service S (gmap string (list scopeTarget)) :=
  match credentials with
  | [] => mret out
  | credential :: credentials =>
      let bucket := TrimSpace (c_Bucket credential) in
      if negb (String.eqb (NormalizeProvider (c_Provider credential) S3Provider) S3Provider) || is_empty bucket
      then load_credentials out credentials
      else
        scopes ← attempt (repair_ListScopes bucket);
        match scopes with
        | Err e => fail (EWrap "list bucket scopes for %s: %w" e)
        | Ok scopes => load_credentials (foldl (add_scope_target credential bucket) out scopes) credentials
        end
  end.
Definition loadScopeTargets : service S (gmap string (list scopeTarget)) :=
  match repair_ListCredentials with
  | None => fail (EText "scope reader is not configured")
  | Some list =>
      credentials ← attempt list;
      match credentials with
      | Err e => fail (EWrap "list buckets: %w" e)
      | Ok credentials => load_credentials ∅ credentials
      end
  end.

Definition defaultPageSize : Z := 500.
Definition out_of_fuel : error := EText "out of fuel".
(** The loop of [listRecords], one unit of fuel per page. *)
Fixpoint list_pages (fuel : nat) (list_prepared : PreparedRecordQuery → service S (list ObjectRecord)) (options : RepairOptions)
    (pageSize : Z) (start : string) (result : list ObjectRecord) : service S (list ObjectRecord) :=
  match fuel with
  | O => fail out_of_fuel
  | Datatypes.S fuel =>
      let scanned := Z.of_nat (length result) in
      let limit := if (0 <? ro_Limit options)%Z && (ro_Limit options - scanned <? pageSize)%Z
                   then (ro_Limit options - scanned)%Z else pageSize in
      if (limit <=? 0)%Z && (0 <? ro_Limit options)%Z then mret result
      else
        page ← list_prepared (mkPreparedQuery limit start (ro_Organization options) (ro_Project options));
        match last page with
        | None => mret result
        | Some record =>
            let start := TrimSpace (r_Id record) in
            if (Z.of_nat (length page) <? limit)%Z || is_empty start then mret (result ++ page)
            else list_pages fuel list_prepared options pageSize start (result ++ page)
        end
  end.
Definition listRecords (fuel : nat) (list_prepared : PreparedRecordQuery → service S (list ObjectRecord)) (options : RepairOptions)
  : service S (list ObjectRecord) :=
  list_pages fuel list_prepared options (if (ro_PageSize options <=? 0)%Z then defaultPageSize else ro_PageSize options) "" [].

Definition object_report (o : auditedObject) : ObjectReport :=
  mkObjectReport (r_Id (au_record o)) (au_sha256 o) (st_Organization (au_scope o)) (st_Project (au_scope o)) (au_currentURLs o)
    (au_canonicalURL o) (bool_decide (is_Some (au_updated o))) (au_findings o).
Definition audit (fuel : nat) (options : RepairOptions) : service S (Report * list auditedObject) :=
  match repair_ListPrepared with
  | None => fail (EText "prepared record reader is not configured")
  | Some list_prepared =>
      scopes ← loadScopeTargets;
      records ← listRecords fuel list_prepared options;
      audited ← mapM (auditRecord scopes options) records;
      let objects := addDuplicateFindings (omap id audited) in
      let objects := sort_Slice (λ a b, String.ltb (r_Id (au_record a)) (r_Id (au_record b))) objects in
      mret (mkReport (TrimSpace (ro_Organization options)) (TrimSpace (ro_Project options)) (length records)
              (object_report <$> filter (λ o, au_findings o ≠ []) objects), objects)
  end.
Definition Audit (fuel : nat) (options : RepairOptions) : service S Report :=
  found ← audit fuel options; mret found.1.
(** The loop of [Apply]. *)
Fixpoint apply_updates (result : ApplyResult) (objects : list auditedObject) : service S ApplyResult :=
  match objects with
  | [] => mret result
  | object :: objects =>
      match au_updated object with
      | None => apply_updates result objects
      | Some updated =>
          let count mutated := mkApplyResult (ap_Report result) (if mutated : bool then (ap_Mutated result + 1)%nat else ap_Mutated result)
            (if mutated then ap_Skipped result else (ap_Skipped result + 1)%nat) (ap_AutoFixable result + 1)%nat in
          match repair_Update with
          | None => apply_updates (count false) objects
          | Some update =>
              done ← attempt (update (r_Id (au_record object)) updated);
              apply_updates (count (is_ok done)) objects
          end
      end
  end.
Definition Apply (fuel : nat) (options : RepairOptions) : service S ApplyResult :=
  let options := mkRepairOptions (TrimSpace (ro_Organization options)) (TrimSpace (ro_Project options)) (ro_CheckStorage options)
                   (ro_Limit options) (ro_PageSize options) in
  if is_empty (ro_Organization options) || is_empty (ro_Project options)
  then fail (EText "apply requires --organization and --project")
  else
    _ ← match repair_Collapse with Some collapse => _ ← collapse (ro_Organization options) (ro_Project options); mret tt | None => mret tt end;
    '(report, objects) ← audit fuel options;
    apply_updates (mkApplyResult report 0 0 0) objects.
End repair.
