(* ===== verification/ScopeRepairProperties.v ===== *)
(** * What the repair of a project does to its records *)
From S2P Require Import Prelude GoStrings GoURL Errors Resources Policy Objects Address Buckets ScopeRepair.

(** ** Pages *)
(** A reader over a catalog: the records after [start], at most [limit]. *)
Definition reader_of {S : Type} (all : list ObjectRecord) (q : PreparedRecordQuery) : service S (list ObjectRecord) := λ s,
  (s, Ok (take (Z.to_nat (pq_Limit q))
            (filter (λ r, is_empty (pq_Start q) || String.ltb (pq_Start q) (r_Id r) = true) all))).
(** A catalog in the order of its ids. *)
Definition in_order (all : list ObjectRecord) : Prop :=
  StronglySorted (λ r1 r2, String.ltb (r_Id r1) (r_Id r2) = true) all ∧
  Forall (λ r, r_Id r ≠ "" ∧ TrimSpace (r_Id r) = r_Id r) all.
Lemma records_after l1 x l2 :
  in_order (l1 ++ x :: l2) → filter (λ r, is_empty (r_Id x) || String.ltb (r_Id x) (r_Id r) = true) (l1 ++ x :: l2) = l2.
Proof.
  intros [Hs Hall]. assert (is_empty (r_Id x) = false) as Hne.
  { rewrite Forall_app, Forall_cons in Hall. apply is_empty_false. tauto. }
  rewrite filter_app, filter_cons_False.
  2: { rewrite Hne. simpl. intros [_ Hx]%ltb_spec. done. }
  assert (filter (λ r, is_empty (r_Id x) || String.ltb (r_Id x) (r_Id r) = true) l1 = []) as ->.
  { apply elem_of_nil_inv. intros y [Hlt Hy]%list_elem_of_filter. rewrite Hne in Hlt. simpl in Hlt.
    assert (String.ltb (r_Id y) (r_Id x) = true) as Hlt'.
    { clear -Hs Hy. induction l1 as [|z l1 IH]; [by apply elem_of_nil in Hy|]. apply StronglySorted_inv in Hs as [Hs Hz].
      apply elem_of_cons in Hy as [->|Hy]; [|by apply IH]. rewrite Forall_forall in Hz. apply Hz. apply elem_of_app. right. by left. }
    pose proof (ltb_trans _ _ _ Hlt Hlt') as Hxx. apply ltb_spec in Hxx as [_ ?]. done. }
  simpl. clear Hall. induction l1 as [|z l1 IH]; [|apply IH; by apply StronglySorted_inv in Hs as [? _]].
  apply StronglySorted_inv in Hs as [_ Hz]. induction l2 as [|y l2 IH]; [done|]. apply Forall_cons in Hz as [Hy Hz].
  rewrite filter_cons_True; [f_equal; by apply IH|]. by rewrite Hne, Hy.
Qed.

Section listing.
Context {S : Type} (all : list ObjectRecord) (Hord : in_order all) (options : RepairOptions).
(** What the limit of the audit leaves. *)
Definition within_limit : list ObjectRecord :=
  if (0 <? ro_Limit options)%Z then take (Z.to_nat (ro_Limit options)) all else all.
Lemma next_page seen rest start limit (s : S) :
  all = seen ++ rest → start = default "" (TrimSpace ∘ r_Id <$> last seen) →
  reader_of all (mkPreparedQuery limit start (ro_Organization options) (ro_Project options)) s = (s, Ok (take (Z.to_nat limit) rest)).
Proof using Hord.
  intros E ->. unfold reader_of. cbn [pq_Limit pq_Start]. do 3 f_equal. destruct seen as [|x seen _] using rev_ind.
  - rewrite E. cbn. clear. induction rest as [|r rest IH]; [done|]. rewrite filter_cons_True by done. by f_equal.
  - rewrite last_snoc. cbn [fmap option_fmap option_map default from_option id]. unfold compose.
    rewrite <- (assoc_L (++)) in E. simpl in E. destruct Hord as [Hs Hall].
    assert (TrimSpace (r_Id x) = r_Id x) as ->.
    { rewrite Forall_forall in Hall. apply Hall. rewrite E. apply elem_of_app. right. by left. }
    rewrite E. apply records_after. by rewrite <- E.
Qed.
Lemma list_pages_all pageSize fuel seen rest start (s : S) :
  (0 < pageSize)%Z → all = seen ++ rest → start = default "" (TrimSpace ∘ r_Id <$> last seen) → length rest < fuel →
  ((0 < ro_Limit options)%Z → (Z.of_nat (length seen) <= ro_Limit options)%Z) →
  list_pages fuel (reader_of all) options pageSize start seen s = (s, Ok within_limit).
Proof using Hord.
  intros Hp. revert seen rest start. induction fuel as [|fuel IH]; intros seen rest start E Es Hf Hl; [lia|]. cbn [list_pages].
  set (scanned := Z.of_nat (length seen)). 
  set (limit := (if (0 <? ro_Limit options) && (ro_Limit options - scanned <? pageSize) then ro_Limit options - scanned else pageSize)%Z).
  destruct ((limit <=? 0)%Z && (0 <? ro_Limit options)%Z) eqn:Estop.
  { apply andb_true_iff in Estop as [H1%Z.leb_le H2%Z.ltb_lt]. unfold mret, service_ret, within_limit. do 2 f_equal.
    rewrite (proj2 (Z.ltb_lt _ _) H2). assert (ro_Limit options = scanned) as ->.
    { unfold limit in H1. destruct (_ && _) eqn:Ea; [|lia]. specialize (Hl H2). fold scanned in Hl. lia. }
    unfold scanned. by rewrite Nat2Z.id, E, take_app_length. }
  assert (0 < limit)%Z as Hlim.
  { apply andb_false_iff in Estop as [?%Z.leb_gt|Hn%Z.ltb_ge]; [done|]. unfold limit.
    destruct (Z.ltb_spec 0 (ro_Limit options)); [lia|done]. }
  unfold mbind, service_bind. rewrite (next_page seen rest) by done.
  assert ((0 < ro_Limit options)%Z → (scanned + limit <= ro_Limit options)%Z) as Hbound.
  { intros Hpos. unfold limit. rewrite (proj2 (Z.ltb_lt _ _) Hpos). simpl. destruct (Z.ltb_spec (ro_Limit options - scanned) pageSize); lia. }
  assert (limit = pageSize ∨ (0 < ro_Limit options)%Z ∧ (scanned + limit = ro_Limit options)%Z) as Hcase.
  { unfold limit. destruct (Z.ltb_spec 0 (ro_Limit options)); simpl; [|by left].
    destruct (Z.ltb_spec (ro_Limit options - scanned) pageSize); [right; lia|by left]. }
  destruct (last (take (Z.to_nat limit) rest)) as [x|] eqn:El.
  - assert (TrimSpace (r_Id x) = r_Id x ∧ r_Id x ≠ "") as [Ht Hne].
    { destruct Hord as [_ Hall]. rewrite Forall_forall in Hall. assert (x ∈ all) as Hx.
      { rewrite E. apply elem_of_app. right. eapply (subseteq_take (Z.to_nat limit)). apply last_Some_elem_of in El. exact El. }
      destruct (Hall x Hx). done. }
    rewrite Ht, (proj2 (is_empty_false _) Hne), orb_false_r.
    destruct (Z.ltb_spec (Z.of_nat (length (take (Z.to_nat limit) rest))) limit) as [Hshort|Hfull].
    + rewrite length_take in Hshort. assert (take (Z.to_nat limit) rest = rest) as -> by (apply take_ge; lia).
      unfold mret, service_ret, within_limit. rewrite <- E. do 2 f_equal. destruct (Z.ltb_spec 0 (ro_Limit options)) as [Hpos|]; [|done].
      rewrite take_ge; [done|]. rewrite E, length_app. specialize (Hbound Hpos). fold scanned in Hbound. lia.
    + rewrite length_take in Hfull. apply (IH _ (drop (Z.to_nat limit) rest)).
      * by rewrite <- (assoc_L (++)), take_drop.
      * rewrite last_app, El. simpl. unfold compose. by rewrite Ht.
      * rewrite length_drop. lia.
      * intros Hpos. specialize (Hbound Hpos). rewrite length_app, length_take. lia.
  - apply last_None in El. assert (rest = []) as ->.
    { destruct rest as [|y rest]; [done|]. destruct (Z.to_nat limit) eqn:En; [lia|]. done. }
    rewrite app_nil_r in E. unfold mret, service_ret, within_limit. rewrite E. do 2 f_equal.
    destruct (Z.ltb_spec 0 (ro_Limit options)) as [Hpos|]; [|done]. rewrite take_ge; [done|]. specialize (Hl Hpos). lia.
Qed.
(** C27 The audit sees every record of the catalog once, in order, up to its limit, whatever the page size; the loop over
    the pages ends after at most one page more than there are records. *)
Theorem audit_sees_all fuel (s : S) :
  length all < fuel → listRecords fuel (reader_of all) options s = (s, Ok within_limit).
Proof using Hord.
  intros Hf. apply (list_pages_all _ _ [] all); [|done|done|done|simpl; lia].
  destruct (Z.leb_spec (ro_PageSize options) 0); unfold defaultPageSize; lia.
Qed.
End listing.

(** ** One record *)
Section record.
Context `{MapOrder} `{Digests} {S : Type} `{!RepairPorts S}.

(** Only the locations and the grants of [u] differ from those of [r]. *)
Definition references_only (r u : ObjectRecord) : Prop :=
  u = set_AccessMethods (set_Authorizations (set_ControlledAccess (cloneRecord r) (r_ControlledAccess u)) (r_Authorizations u))
        (r_AccessMethods u).
Lemma references_only_grants r ca au :
  references_only r (set_Authorizations (set_ControlledAccess (cloneRecord r) ca) au).
Proof using. unfold references_only, cloneRecord. destruct r as [? ? ? ? [[|]|]]; reflexivity. Qed.
Lemma references_only_methods r am : references_only r (set_AccessMethods (cloneRecord r) am).
Proof using. unfold references_only, cloneRecord. destruct r as [? ? ? ? [[|]|]]; reflexivity. Qed.
Lemma references_only_both r am ca au :
  references_only r (set_Authorizations (set_ControlledAccess (set_AccessMethods (cloneRecord r) am) ca) au).
Proof using. unfold references_only, cloneRecord. destruct r as [? ? ? ? [[|]|]]; reflexivity. Qed.

Lemma accessMethodURL_set target m : accessMethodURL (setAccessMethodURL target m) = TrimSpace target.
Proof using. done. Qed.
Lemma elem_of_urls methods raw :
  raw ∈ accessMethodURLs (Some methods) ↔ raw ≠ "" ∧ ∃ m, m ∈ methods ∧ accessMethodURL m = raw.
Proof using.
  unfold accessMethodURLs. simpl. rewrite list_elem_of_filter, list_elem_of_fmap. naive_solver.
Qed.
(** What becomes of the methods: nothing, or one location for all. *)
Lemma classify_methods_spec object target hasTarget methods :
  let '(methods', findings) := classify_methods object target hasTarget methods in
  (findings = [] → methods' = methods) ∧
  (∀ raw, raw ∈ accessMethodURLs (Some methods') → raw = TrimSpace target) ∧
  (findings ≠ [] → hasTarget = false → ∃ m, m ∈ methods' ∧ accessMethodURL m = TrimSpace target) ∧
  (∀ m, m ∈ methods → accessMethodURL m = target → target ≠ "" → m ∈ methods').
Proof using.
  revert hasTarget. induction methods as [|m methods IH]; intros hasTarget; cbn [classify_methods].
  { split_and!; try done. intros raw Hr. by apply elem_of_urls in Hr as [_ (m & ?%elem_of_nil & _)]. }
  unfold classify_method. cbv zeta. destruct (is_empty (accessMethodURL m) || String.eqb (accessMethodURL m) target) eqn:Ek.
  - specialize (IH hasTarget). destruct (classify_methods object target hasTarget methods) as [methods' findings].
    destruct IH as (H1 & H2 & H3 & H4). cbn [from_option app]. split_and!.
    + intros Hf. by rewrite H1.
    + intros raw [Hne (m' & [->|Hm]%elem_of_cons & <-)]%elem_of_urls; [|apply H2, elem_of_urls; split; [done|by exists m']].
      apply orb_true_iff in Ek as [Ek|Ek]; [by destruct (accessMethodURL m)|]. apply String.eqb_eq in Ek. rewrite <- Ek.
      unfold accessMethodURL. destruct (am_AccessUrl m); [by rewrite TrimSpace_idemp|done].
    + intros Hf Hh. destruct (H3 Hf Hh) as (m' & Hm & E). exists m'. split; [by right|done].
    + intros m' [->|Hm]%elem_of_cons E Hne; [by left|right; by apply H4].
  - apply orb_false_iff in Ek as [_ Hne%String.eqb_neq]. destruct hasTarget.
    + specialize (IH true). destruct (classify_methods object target true methods) as [methods' findings].
      destruct IH as (H1 & H2 & H3 & H4). cbn [from_option app]. split_and!; [done| |done|].
      * intros raw [Hraw (m' & [->|Hm]%elem_of_cons & <-)]%elem_of_urls; [done|]. apply H2, elem_of_urls. split; [done|by exists m'].
      * intros m' [->|Hm]%elem_of_cons E Hn; [done|right; by apply H4].
    + specialize (IH true). destruct (classify_methods object target true methods) as [methods' findings].
      destruct IH as (H1 & H2 & H3 & H4). cbn [from_option app]. split_and!; [done| | |].
      * intros raw [Hraw (m' & [->|Hm]%elem_of_cons & <-)]%elem_of_urls; [done|]. apply H2, elem_of_urls. split; [done|by exists m'].
      * intros _ _. exists (setAccessMethodURL target m). split; [by left|done].
      * intros m' [->|Hm]%elem_of_cons E Hn; [done|right; by apply H4].
Qed.
(** How [classifyAccessMethods] ends: the object is as it was, or its methods have the target of the repair. *)
Definition relocated (object : auditedObject) (target : string) (updated : ObjectRecord) : Prop :=
  accessMethodURLs (r_AccessMethods updated) ≠ [] ∧
  (∀ raw, raw ∈ accessMethodURLs (r_AccessMethods updated) → raw = TrimSpace target) ∧
  (r_ControlledAccess updated, r_Authorizations updated) = match au_updated object ≫= r_ControlledAccess with
                               | Some l => (Some l, ControlledAccessToAuthzMap l)
                               | None => (r_ControlledAccess (au_record object), r_Authorizations (au_record object)) end.
Lemma urls_filter methods : accessMethodURLs (Some (filter (λ m, accessMethodURL m ≠ "") methods)) = accessMethodURLs (Some methods).
Proof using.
  unfold accessMethodURLs. simpl. induction methods as [|m l IH]; [done|]. rewrite fmap_cons, !filter_cons.
  destruct (decide (accessMethodURL m ≠ "")) as [Hn|Hn]; [|done]. rewrite fmap_cons, filter_cons_True by done. by f_equal.
Qed.
Lemma under_prefix_url target parts : TrimSpace (under_prefix target parts) ≠ "".
Proof using.
  assert (slash ∈ chars (TrimSpace (under_prefix target parts))) as Hin.
  { apply trim_keeps; [apply spaces_avoid_slash|]. unfold under_prefix. cbv zeta. rewrite !chars_app, !elem_of_app.
    left. change (chars "s3://") with [Ascii.ascii_of_nat 115; Ascii.ascii_of_nat 51; Ascii.ascii_of_nat 58; slash; slash].
    rewrite !elem_of_cons. tauto. }
  intros E. rewrite E in Hin. by apply elem_of_nil in Hin.
Qed.
(** A target of a repair: the canonical location, or the one under the name of the record. *)
Definition candidate (object : auditedObject) (target : string) : Prop :=
  target = au_canonicalURL object ∨
  target = pathStyleAccessURL (au_scope object) (objectName (au_record object)) ∧ TrimSpace target ≠ "".
Lemma repair_target_candidate object checkStorage s s' target :
  repair_target object checkStorage s = (s', Ok target) → candidate object target.
Proof using.
  unfold repair_target, candidate. cbv zeta. destruct checkStorage; [|intros [= _ <-]; by left].
  intros (s1 & c & _ & (s2 & p & Hp & [= _ <-])%service_bind_Ok)%service_bind_Ok.
  destruct (negb c && p) eqn:E; [|by left]. right. split; [done|]. apply andb_true_iff in E as [_ ->].
  unfold checkURLExists in Hp. destruct repair_Inspect; [|done].
  destruct (is_empty _) eqn:Ee; [by injection Hp|]. by apply is_empty_false.
Qed.
Lemma classify_cases object checkStorage s s' o :
  au_currentURLs object = accessMethodURLs (r_AccessMethods (au_record object)) → TrimSpace (au_canonicalURL object) ≠ "" →
  classifyAccessMethods object checkStorage s = (s', Ok o) →
  o = object ∨
  ∃ target findings updated s1, repair_target object checkStorage s = (s1, Ok target) ∧
    o = set_updated updated (set_findings findings object) ∧
    references_only (au_record object) updated ∧ relocated object target updated.
Proof using.
  intros Ecur Hcan. unfold classifyAccessMethods. destruct (r_AccessMethods (au_record object)) as [methods|] eqn:Em; [|intros [= _ <-]; by left].
  intros (s1 & target & Ht & Hr)%service_bind_Ok. cbv zeta in Hr.
  assert (TrimSpace target ≠ "") as Hne by (destruct (repair_target_candidate _ _ _ _ _ Ht) as [->|[_ ?]]; done).
  pose proof (classify_methods_spec object target (bool_decide (target ∈ au_currentURLs object)) methods) as Hspec.
  destruct (classify_methods _ _ _ methods) as [methods' findings]. destruct findings as [|f findings]; [injection Hr as _ <-; by left|].
  right. exists target, (au_findings object ++ f :: findings). destruct Hspec as (_ & H2 & H3 & H4).
  set (filtered := filter _ methods') in Hr.
  assert (accessMethodURLs (Some filtered) = accessMethodURLs (Some methods')) as Eurls by apply urls_filter.
  assert (accessMethodURLs (Some filtered) ≠ []) as Hsome.
  { rewrite Eurls. assert (∃ m, m ∈ methods' ∧ accessMethodURL m = TrimSpace target) as (m & Hm & E).
    { destruct (decide (target ∈ au_currentURLs object)) as [Hin|Hno].
      - rewrite Ecur in Hin. apply elem_of_urls in Hin as [Hn (m & Hm & E)]. exists m. split; [by apply H4|].
        rewrite E, <- E. unfold accessMethodURL. destruct (am_AccessUrl m); [by rewrite TrimSpace_idemp|done].
      - apply H3; [done|by apply bool_decide_eq_false]. }
    intros Enil. assert (TrimSpace target ∈ accessMethodURLs (Some methods')) as Hin.
    { apply elem_of_urls. split; [done|by exists m]. }
    rewrite Enil in Hin. by apply elem_of_nil in Hin. }
  change (au_updated (set_findings (au_findings object ++ f :: findings) object)) with (au_updated object) in Hr.
  destruct (au_updated object ≫= r_ControlledAccess) as [l|] eqn:Eu; injection Hr as _ <-; eexists _, s1; (split; [done|]); (split; [reflexivity|]).
  - split; [apply references_only_both|]. unfold relocated. rewrite Eu. cbn [set_Authorizations set_ControlledAccess set_AccessMethods r_AccessMethods r_ControlledAccess r_Authorizations].
    split_and!; [done| |done]. intros raw. rewrite Eurls. apply H2.
  - split; [apply references_only_methods|]. unfold relocated. rewrite Eu.
    assert (∀ r, r_ControlledAccess (cloneRecord r) = r_ControlledAccess r ∧ r_Authorizations (cloneRecord r) = r_Authorizations r) as Hcl
      by (intros [? ? ? ? [[|]|]]; done).
    destruct (Hcl (au_record object)) as [E1 E2].
    split_and!; [exact Hsome| |by cbn [set_AccessMethods r_ControlledAccess r_Authorizations]; rewrite E1, E2].
    intros raw. cbn [set_AccessMethods r_AccessMethods]. rewrite Eurls. apply H2.
Qed.

(** A resource that is none of the record's own is inferred from the id of the record. *)
Lemma inferred_minted record sha scopes resource known ambiguous :
  inferRecordResource record sha scopes = (resource, known, ambiguous) → resource ≠ "" → resource ∉ AccessResources record →
  MintRecordIDFromChecksum sha [resource] = Ok (r_Id record).
Proof using.
  intros E Hne Hno. unfold inferRecordResource in E.
  assert (∀ r, r ∈ recordProjectResources record "" → r ∈ AccessResources record) as Hown.
  { intros r. unfold recordProjectResources. cbn [is_empty negb andb]. rewrite elem_of_sort_Strings, elem_of_dedup, list_elem_of_filter. by intros [_ ?]. }
  destruct (recordProjectResources record "") as [|r1 [|r2 l]]; [| |by injection E as <- _ _].
  - destruct (is_empty (TrimSpace sha)); [by injection E as <- _ _|].
    destruct (filter _ (go_range scopes)) as [|[r targets] [|]] eqn:Ef; [by injection E as <- _ _| |by injection E as <- _ _].
    injection E as -> _ _. assert ((resource, targets) ∈ [(resource, targets)]) as Hin by by left.
    rewrite <- Ef in Hin. apply list_elem_of_filter in Hin as [Hm _]. destruct targets as [|t0 targets]; [done|].
    apply andb_true_iff in Hm as [_ Hm]. destruct (MintRecordIDFromChecksum sha [resource]) as [id|]; [|done].
    by apply String.eqb_eq in Hm as ->.
  - injection E as -> _ _. exfalso. apply Hno, Hown. by left.
Qed.
Lemma scoped_record_facts record scopes :
  let o := scoped_record record scopes in
  au_record o = record ∧ au_currentURLs o = accessMethodURLs (r_AccessMethods record) ∧ au_updated o = None ∧
  au_sha256 o = default "" (CanonicalSHA256 (slice (r_Checksums record))) ∧
  (∃ known ambiguous, inferRecordResource record (au_sha256 o) scopes = (au_inferredScope o, known, ambiguous)) ∧
  (au_canonicalURL o ≠ "" → TrimSpace (au_canonicalURL o) ≠ "").
Proof using.
  unfold scoped_record. cbv zeta. destruct (inferRecordResource _ _ _) as [[resource known] ambiguous] eqn:E.
  destruct (if known then _ else _) as [|scope targets]; cbn; split_and!; try done; try by exists known, ambiguous.
  intros Hne. unfold canonicalAccessURL in *. destruct (_ || _); [done|apply under_prefix_url].
Qed.
Lemma recover_access_cases targetResource object :
  recover_access targetResource object = object ∨
  ∃ findings, let controlled := addControlledAccess (r_ControlledAccess (au_record object)) targetResource in
    recover_access targetResource object =
      set_updated (set_Authorizations (set_ControlledAccess (cloneRecord (au_record object)) (Some controlled))
                     (ControlledAccessToAuthzMap controlled)) (set_findings findings object) ∧
    targetResource ≠ "" ∧ (targetResource ∉ AccessResources (au_record object)) ∧ au_inferredScope object = targetResource.
Proof using.
  unfold recover_access. cbv zeta. destruct (_ && _) eqn:E; [|by left]. right. eexists. split; [reflexivity|].
  apply andb_true_iff in E as [[[E1 E2]%andb_true_iff E3]%andb_true_iff _]. split_and!.
  - by apply is_empty_false, negb_true_iff.
  - apply negb_true_iff in E2. unfold recordMatchesResource in E2. by apply bool_decide_eq_false in E2.
  - by apply String.eqb_eq.
Qed.
Lemma storage_findings_only object s s' o : addStorageFindings object s = (s', Ok o) → ∃ findings, o = set_findings findings object.
Proof using.
  unfold addStorageFindings. destruct repair_Inspect; [|intros [= _ <-]; exists (au_findings object); by destruct object].
  intros (s1 & found & _ & [= _ <-])%service_bind_Ok. by eexists.
Qed.
(** How the grants of [u] come from those of [record]. *)
Definition grants_recovered (options : RepairOptions) (record u : ObjectRecord) : Prop :=
  let controlled := addControlledAccess (r_ControlledAccess record) (target_resource options) in
  r_ControlledAccess u = Some controlled ∧ r_Authorizations u = ControlledAccessToAuthzMap controlled ∧
  MintRecordIDFromChecksum (default "" (CanonicalSHA256 (slice (r_Checksums record)))) [target_resource options] = Ok (r_Id record).
Definition grants_kept_or_recovered (options : RepairOptions) (record u : ObjectRecord) : Prop :=
  (r_ControlledAccess u = r_ControlledAccess record ∧ r_Authorizations u = r_Authorizations record) ∨
  grants_recovered options record u.
Definition urls_kept_or_unified (scopes : gmap string (list scopeTarget)) (record u : ObjectRecord) : Prop :=
  accessMethodURLs (r_AccessMethods u) = accessMethodURLs (r_AccessMethods record) ∨
  ∃ target, candidate (scoped_record record scopes) target ∧ accessMethodURLs (r_AccessMethods u) ≠ [] ∧
    (∀ raw, raw ∈ accessMethodURLs (r_AccessMethods u) → raw = TrimSpace target).
Lemma clone_facts r : r_ControlledAccess (cloneRecord r) = r_ControlledAccess r ∧ r_Authorizations (cloneRecord r) = r_Authorizations r ∧
  r_AccessMethods (cloneRecord r) = r_AccessMethods r.
Proof using. destruct r as [? ? ? ? [[|]|]]; done. Qed.
End record.

(** ** The probe of the storage *)
Section probe.
Context `{MapOrder} `{Digests} {S : Type} (ports : RepairPorts S) (present : StorageInspectRequest → bool).
Context (Hprobe : repair_Inspect = Some (λ request s, (s, if present request then Ok tt else Err (EDef ErrStorageNotFound)))).
Definition found_at (object : auditedObject) (raw : string) : bool :=
  negb (is_empty (TrimSpace raw)) && present (mkInspect (st_Organization (au_scope object)) (st_Project (au_scope object)) raw).
Lemma checkURLExists_found object raw s : checkURLExists object raw s = (s, Ok (found_at object raw)).
Proof using Hprobe.
  unfold checkURLExists, found_at. rewrite Hprobe. destruct (is_empty (TrimSpace raw)); [done|].
  unfold mbind, service_bind, attempt, mret, service_ret. simpl. by destruct (present _).
Qed.
(** If one of the candidates is there, the methods get one that is there. *)
Lemma repair_target_found object s :
  ∃ target, repair_target object true s = (s, Ok target) ∧
    (found_at object (au_canonicalURL object) = true ∨
     found_at object (pathStyleAccessURL (au_scope object) (objectName (au_record object))) = true → found_at object target = true).
Proof using Hprobe.
  unfold repair_target. cbv zeta. unfold mbind, service_bind. rewrite !checkURLExists_found. unfold mret, service_ret.
  eexists. split; [reflexivity|]. destruct (found_at object (au_canonicalURL object)) eqn:E1; simpl; [done|].
  destruct (found_at object (pathStyleAccessURL _ _)) eqn:E2; intros [?|?]; congruence.
Qed.
End probe.

(** ** The counters *)
Section apply.
Context `{MapOrder} `{Digests} {S : Type} `{!RepairPorts S}.
Lemma apply_updates_counts result objects s s' result' :
  apply_updates result objects s = (s', Ok result') →
  ap_AutoFixable result' = ap_AutoFixable result + length (omap au_updated objects) ∧
  ap_Mutated result' + ap_Skipped result' = ap_Mutated result + ap_Skipped result + length (omap au_updated objects) ∧
  ap_Report result' = ap_Report result.
Proof using.
  revert result s. induction objects as [|o objects IH]; intros result s; cbn [apply_updates omap list_omap].
  { intros [= _ <-]. simpl. split_and!; (lia || done). }
  destruct (au_updated o) as [u|]; [|apply IH].
  destruct repair_Update as [update|].
  - intros (s1 & done & _ & Hr)%service_bind_Ok. destruct (is_ok done); apply IH in Hr as (? & ? & ?); simpl in *; split_and!; (lia || done).
  - intros (? & ? & ?)%IH. simpl in *. split_and!; (lia || done).
Qed.
(** No update stops the repair. *)
Lemma apply_updates_total result objects s : ∃ s' result', apply_updates result objects s = (s', Ok result').
Proof using.
  revert result s. induction objects as [|o objects IH]; intros result s; cbn [apply_updates]; [by eexists _, _|].
  destruct (au_updated o) as [u|]; [|apply IH]. destruct repair_Update as [update|]; [|apply IH].
  unfold mbind, service_bind, attempt. destruct (update _ _ s) as [s1 done]. apply IH.
Qed.
End apply.

(** ** Executions *)
Section sample.
#[local] Existing Instance canonical_order.
#[local] Instance repair_digests : Digests := {| sha256_hex := λ s, s; uuid_NewSHA1 := λ s, s |}.
Definition sample_sha : string := "aaaaaaaaaaaaaaaaaaaaaaaaaaaaaaaaaaaaaaaaaaaaaaaaaaaaaaaaaaaaaaaa".
Definition located_record (id raw : string) : ObjectRecord :=
  mkRecord id (Some [mkAccessMethod None (Some (mkAccessURL None raw)) None None None None "s3"]) None None
    (Some [mkChecksum "sha256" sample_sha]) None (Some ["/programs/org/projects/project"]) 0 None None (Some "file.txt") [] None "" false
    false "" 0 None None.
(** The catalog is the state; the storage holds one location. *)
#[local] Instance sample_ports : RepairPorts (list ObjectRecord) := {
  repair_ListPrepared := Some (λ query s, reader_of s query s);
  repair_Update := Some (λ id u s, ((λ r, if String.eqb (r_Id r) id then u else r) <$> s, Ok tt));
  repair_ListCredentials := Some (λ s, (s, Ok [mkCredential "s3-credential" "repair-bucket" "s3" "" "" "" "";
                                               mkCredential "gcs-credential" "ignored-bucket" "gcs" "" "" "" ""]));
  repair_ListScopes := λ bucket s, (s, Ok [mkScope "org" "project" "" bucket "prefix"]);
  repair_Inspect := Some (λ request s, (s, if String.eqb (si_ObjectURL request) "s3://repair-bucket/legacy"
                                           then Ok tt else Err (EDef ErrStorageNotFound)));
  repair_Collapse := None }.
Definition sample_options (checkStorage : bool) : RepairOptions := mkRepairOptions "org" "project" checkStorage 0 1.
Definition canonical_location : string := "s3://repair-bucket/prefix/did-1/" +:+ sample_sha.
Definition legacy_catalog : list ObjectRecord := [located_record "did-1" "s3://repair-bucket/legacy"].
Example repaired : let '(s, r) := Apply 5 (sample_options false) legacy_catalog in
  s = [located_record "did-1" canonical_location] ∧
  (λ a, (ap_Mutated a, ap_Skipped a, ap_AutoFixable a)) <$> r = Ok (1, 0, 1).
Proof. vm_compute. done. Qed.
(** With the storage checked: the location that is there is replaced by one that the probe has just reported as missing. *)
Example repaired_away : (Apply 5 (sample_options true) legacy_catalog).1 = [located_record "did-1" canonical_location].
Proof. vm_compute. done. Qed.

Lemma legacy_order : in_order [located_record "a" "s3://b/x"; located_record "b" "s3://b/y"; located_record "c" "s3://b/z"].
Proof. split; [repeat constructor|repeat (constructor; [split; [discriminate|reflexivity]|]); constructor]. Qed.
Lemma audit_sees_all_witness :
  let all := [located_record "a" "s3://b/x"; located_record "b" "s3://b/y"; located_record "c" "s3://b/z"] in
  listRecords 4 (reader_of all) (mkRepairOptions "org" "project" false 2 1) tt = (tt, Ok (take 2 all)).
Proof. apply (audit_sees_all _ legacy_order (mkRepairOptions "org" "project" false 2 1) 4 tt). simpl. lia. Defined.

Definition sample_scopes : gmap string (list scopeTarget) :=
  {["/organization/org/project/project" := [mkScopeTarget "/organization/org/project/project" "org" "project" "repair-bucket" "prefix"]]}.
End sample.
