(* ===== verification/StorageManager.v ===== *)
(** * Storage providers behind one manager: internal/storage (manager.go, delete.go, registration.go, errors.go)
    The manager looks the provider of a bucket up in its credential and hands a request to the backend registered for
    that provider.  A backend is a record of operations on the state; what it can do beyond signing is optional, as the
    type assertions of registration.go find it.  The client libraries behind the backends are not modelled. *)
From S2P Require Import Prelude GoStrings GoURL Errors Resources Policy Objects Address Buckets Targets.

(** ** types.go *)
(** The zero time is [None]. *)
Record ObjectMetadata := mkObjectMetadata {
  om_Provider : string; om_Bucket : string; om_Key : string; om_Path : string; om_SizeBytes : Z; om_MetaSHA256 : string;
  om_ETag : string; om_LastModified : option Z }.
Definition no_metadata : ObjectMetadata := mkObjectMetadata "" "" "" "" 0 "" "" None.
Record ProbeTarget := mkProbeTarget { pt_ID : string; pt_Target : ObjectTarget }.
Record StorageProbeResult := mkStorageProbe {
  sp_ID : string; sp_Target : ObjectTarget; sp_Metadata : ObjectMetadata; sp_Err : option error }.
Record PrefixTarget := mkPrefixTarget { pf_Bucket : string; pf_Prefix : string }.
Record InventoryRequest := mkInventoryRequest {
  ir_Target : PrefixTarget; ir_IncludeHead : bool; ir_ExactPrefix : bool; ir_MaxKeys : Z }.
Record InventoryResult := mkInventoryResult { iv_Items : list ObjectMetadata; iv_Complete : bool }.
Definition no_inventory : InventoryResult := mkInventoryResult [] false.
Record PhysicalTarget := mkPhysical { ph_Provider : string; ph_Bucket : string; ph_Key : string; ph_Path : string }.
#[export] Instance PhysicalTarget_eq_dec : EqDecision PhysicalTarget.
Proof. solve_decision. Defined.

(** ** errors.go: the kinds; the capability of the error is not kept *)
Definition ErrorInvalid := "invalid".
Definition ErrorNotFound := "not_found".
Definition ErrorForbidden := "forbidden".
Definition ErrorUnavailable := "unavailable".
Definition ErrorIncomplete := "incomplete".
Definition ErrorUnsupported := "unsupported".
Definition ErrorProvider := "provider".
Definition operationError (kind provider : string) (cause : option error) : error := EOperation kind provider cause.

(** ** registration.go *)
Record CompleteBackend (S : Type) := mkCompleteBackend {
  cb_SignURL : ObjectTarget → AccessOptions → service S string;
  cb_SignDownloadPart : ObjectTarget → ByteRange → AccessOptions → service S string;
  cb_InitMultipartUpload : ObjectTarget → service S string;
  cb_SignMultipartPart : MultipartPartRequest → service S string;
  cb_CompleteMultipartUpload : CompleteMultipartRequest → service S unit }.
Arguments cb_SignURL {S} _. Arguments cb_SignDownloadPart {S} _. Arguments cb_InitMultipartUpload {S} _.
Arguments cb_SignMultipartPart {S} _. Arguments cb_CompleteMultipartUpload {S} _.
(** A listing may come with an error and with items; a probe has one answer per target. *)
Record Registration (S : Type) := mkRegistration {
  rg_provider : string;
  rg_complete : option (CompleteBackend S);
  rg_invalidator : option (string → S → S);
  rg_prober : option (list ProbeTarget → S → S * list StorageProbeResult);
  rg_inventory : option (InventoryRequest → S → S * (InventoryResult * option error));
  rg_deleter : option (list PhysicalTarget → service S unit) }.
Arguments rg_provider {S} _. Arguments rg_complete {S} _. Arguments rg_invalidator {S} _.
Arguments rg_prober {S} _. Arguments rg_inventory {S} _. Arguments rg_deleter {S} _.
Arguments mkRegistration {S} _ _ _ _ _ _.
(** A backend in the manager is one that signs. *)
Record Manager (S : Type) := mkManager { mg_providers : gmap string (Registration S); mg_order : list (Registration S) }.
Arguments mg_providers {S} _. Arguments mg_order {S} _. Arguments mkManager {S} _ _.

(** ** ports.go *)
Class CredentialLookup (S : Type) := lookup_GetS3Credential : string → S → result error (option Credential).

Definition canonicalProvider (raw : string) : result error string :=
  let trimmed := TrimSpace raw in
  if is_empty trimmed then Err (EText "storage provider is required")
  else match ParseBucketProvider trimmed with
       | Ok provider => Ok provider
       | Err e => Err (EWrap "invalid storage provider %q: %w" e)
       end.

Section manager.
Context {S : Type}.

Definition set_provider (provider : string) (r : Registration S) : Registration S :=
  mkRegistration provider (rg_complete r) (rg_invalidator r) (rg_prober r) (rg_inventory r) (rg_deleter r).
Definition register (m : Manager S) (registration : Registration S) : result error (Manager S) :=
  provider ← canonicalProvider (rg_provider registration);
  match rg_complete registration with
  | None => Err (EText "storage provider %q has no backend")
  | Some _ =>
      if bool_decide (is_Some (mg_providers m !! provider)) then Err (EText "storage provider %q is registered more than once")
      else
        let registration := set_provider provider registration in
        Ok (mkManager (<[provider := registration]> (mg_providers m)) (mg_order m ++ [registration]))
  end.
Definition NewManager (registrations : list (Registration S)) : result error (Manager S) :=
  foldlM register (mkManager ∅ []) registrations.

(** ** manager.go *)
Context `{!CredentialLookup S} (m : Manager S).

Definition providerForBucket (bucket : string) (s : S) : result error string :=
  let trimmed := TrimSpace bucket in
  if is_empty trimmed then Err (operationError ErrorInvalid "" (Some (EText "bucket is required")))
  else
    match lookup_GetS3Credential trimmed s with
    | Err e => Err (operationError ErrorProvider "" (Some e))
    | Ok None => Err (operationError ErrorNotFound "" (Some (EText "credential not found for %q")))
    | Ok (Some credential) => Ok (NormalizeProvider (c_Provider credential) S3Provider)
    end.
Definition registration (provider : string) : result error (Registration S) :=
  match mg_providers m !! provider with
  | Some r => Ok r
  | None => Err (operationError ErrorProvider provider (Some (EText "provider is not registered")))
  end.
Definition registrationForBucket (bucket : string) (s : S) : result error (Registration S) :=
  provider ← providerForBucket bucket s; registration provider.
(** The backend, which [NewManager] has seen. *)
Definition complete (r : Registration S) : service S (CompleteBackend S) :=
  match rg_complete r with Some b => mret b | None => fail (EText "invalid memory address or nil pointer dereference") end.

(** Bucket, key and provider. *)
Definition resolveAccess (target : AccessTarget) (s : S) : result error (string * string * string) :=
  match url_Parse (at_Location target) with
  | None => Err (operationError ErrorInvalid "" (Some (EText "url.Parse")))
  | Some parsed =>
      let bucket := url_Host parsed in
      let key := TrimPrefix (url_Path parsed) "/" in
      let known candidate := if is_empty (TrimSpace candidate) then None
                             else match providerForBucket candidate s with Ok p => Some p | Err _ => None end in
      let provider := match head (omap known [bucket; at_AccessID target]) with
                      | Some provider => provider
                      | None => NormalizeProvider (ProviderFromScheme (url_Scheme parsed)) S3Provider
                      end in
      Ok (bucket, key, provider)
  end.
Definition Access (request : StorageAccessRequest) : service S string :=
  '(bucket, key, provider) ← ask (resolveAccess (sar_Target request));
  registered ← check (registration provider);
  backend ← complete registered;
  match sar_Range request with
  | Some range => cb_SignDownloadPart backend (mkObjectTarget bucket key) range (sar_Options request)
  | None => cb_SignURL backend (mkObjectTarget bucket key) (sar_Options request)
  end.
Definition for_bucket {A} (bucket : string) (call : CompleteBackend S → service S A) : service S A :=
  registered ← ask (registrationForBucket bucket); backend ← complete registered; call backend.
Definition BeginMultipart (target : ObjectTarget) : service S string :=
  for_bucket (ot_Bucket target) (λ backend, cb_InitMultipartUpload backend target).
Definition AccessMultipartPart (request : MultipartPartRequest) : service S string :=
  for_bucket (ot_Bucket (mpr_Target request)) (λ backend, cb_SignMultipartPart backend request).
Definition CompleteMultipart (request : CompleteMultipartRequest) : service S unit :=
  for_bucket (ot_Bucket (cmr_Target request)) (λ backend, cb_CompleteMultipartUpload backend request).

(** *** Probe *)
Definition probe_error (e : error) (r : StorageProbeResult) : StorageProbeResult :=
  mkStorageProbe (sp_ID r) (sp_Target r) (sp_Metadata r) (Some e).
Definition provided (p r : StorageProbeResult) : StorageProbeResult :=
  mkStorageProbe (sp_ID r) (sp_Target r) (sp_Metadata p) (sp_Err p).
Abbreviation probeIndex := (nat * ProbeTarget)%type.
(** The first loop: the results so far, the targets of each provider, and the providers in their order. *)
Definition sort_target (s : S) (acc : list StorageProbeResult * gmap string (list probeIndex) * list string) (item : probeIndex)
  : list StorageProbeResult * gmap string (list probeIndex) * list string :=
  let '(results, groups, providerOrder) := acc in
  let '(index, target) := item in
  match providerForBucket (ot_Bucket (pt_Target target)) s with
  | Err e => (alter (probe_error e) index results, groups, providerOrder)
  | Ok provider =>
      match mg_providers m !! provider with
      | None => (alter (probe_error (operationError ErrorProvider provider None)) index results, groups, providerOrder)
      | Some _ => (results, <[provider := default [] (groups !! provider) ++ [item]]> groups,
                   if bool_decide (is_Some (groups !! provider)) then providerOrder else providerOrder ++ [provider])
      end
  end.
(** What the answers of a backend say about its targets. *)
Definition answer_of (provider : string) (answers : list StorageProbeResult) (position : nat) : StorageProbeResult → StorageProbeResult :=
  match answers !! position with
  | Some p => provided p
  | None => probe_error (operationError ErrorProvider provider (Some (EText "backend returned %d results for %d targets")))
  end.
Definition prober_of (provider : string) : option (list ProbeTarget → S → S * list StorageProbeResult) :=
  match mg_providers m !! provider with Some r => rg_prober r | None => None end.
Definition probe_group (groups : gmap string (list probeIndex)) (acc : S * list StorageProbeResult) (provider : string)
  : S * list StorageProbeResult :=
  let '(s, results) := acc in
  let indexes := default [] (groups !! provider) in
  match prober_of provider with
  | None => (s, foldl (λ results '(index, _), alter (probe_error (operationError ErrorUnsupported provider None)) index results) results indexes)
  | Some prober =>
      let '(s, answers) := prober indexes.*2 s in
      (s, foldl (λ results '(position, (index, _)), alter (answer_of provider answers position) index results)
            results (imap pair indexes))
  end.
Definition Probe (targets : list ProbeTarget) (s : S) : S * list StorageProbeResult :=
  let results := (λ t, mkStorageProbe (pt_ID t) (pt_Target t) no_metadata None) <$> targets in
  let '(results, groups, providerOrder) := foldl (sort_target s) (results, ∅, []) (imap pair targets) in
  foldl (probe_group groups) (s, results) providerOrder.

(** *** Inventory *)
Definition Inventory (request : InventoryRequest) (s : S) : S * (InventoryResult * option error) :=
  match registrationForBucket (pf_Bucket (ir_Target request)) s with
  | Err e => (s, (no_inventory, Some e))
  | Ok registered =>
      match rg_inventory registered with
      | None => (s, (no_inventory, Some (operationError ErrorUnsupported (rg_provider registered) None)))
      | Some inventory => inventory request s
      end
  end.

(** *** delete.go *)
(** [None]: nothing that can be deleted. *)
Definition physicalTarget (raw : string) (s : S) : result error (option PhysicalTarget) :=
  let trimmed := TrimSpace raw in
  if is_empty trimmed then Ok None
  else
    match url_Parse trimmed with
    | None => Err (operationError ErrorInvalid "" (Some (EText "url.Parse")))
    | Some parsed =>
        let provider := ProviderFromScheme (url_Scheme parsed) in
        if negb (is_empty provider) then
          let bucket := TrimSpace (url_Host parsed) in
          let key := Trim (TrimSpace (url_Path parsed)) "/" in
          if is_empty bucket || is_empty key then Ok None
          else
            match lookup_GetS3Credential bucket s with
            | Err e => Err (operationError ErrorProvider provider (Some e))
            | Ok None =>
                if String.eqb provider FileProvider
                then Err (operationError ErrorNotFound provider (Some (EText "credential not found for %q")))
                else Ok (Some (mkPhysical provider bucket key ""))
            | Ok (Some credential) =>
                let provider := NormalizeProvider (c_Provider credential) provider in
                if String.eqb provider FileProvider then
                  let root := path_Clean (TrimSpace (c_Endpoint credential)) in
                  let root := if String.eqb root "." || is_empty root then TrimPrefix (TrimSpace (c_Bucket credential)) "/" else root in
                  if is_empty root then Err (operationError ErrorInvalid provider (Some (EText "file storage root is missing")))
                  else Ok (Some (mkPhysical provider bucket key (path_Clean (path_Join [root; key]))))
                else Ok (Some (mkPhysical provider bucket key ""))
            end
        else if HasPrefix trimmed "/" then Ok (Some (mkPhysical FileProvider "" "" (path_Clean trimmed)))
        else Ok None
    end.
Definition physicalTargetKey (target : PhysicalTarget) : string :=
  ph_Provider target +:+ nul +:+ ph_Bucket target +:+ nul +:+ ph_Key target +:+ nul +:+ ph_Path target.

(** *** DeleteExact *)
Definition resolve_target (s : S) (resolved : list PhysicalTarget) (location : string) : result error (list PhysicalTarget) :=
  physical ← physicalTarget location s;
  match physical with
  | Some p => if bool_decide (physicalTargetKey p ∈ physicalTargetKey <$> resolved) then Ok resolved else Ok (resolved ++ [p])
  | None => Ok resolved
  end.
Definition resolve_targets (locations : list string) (s : S) : result error (list PhysicalTarget) :=
  foldlM (resolve_target s) [] locations.
Definition deleteTargets (provider : string) (targets : list PhysicalTarget) : service S unit :=
  registered ← check (registration provider);
  match rg_deleter registered with
  | None => fail (operationError ErrorUnsupported provider None)
  | Some delete => delete targets
  end.
Fixpoint delete_each (calls : list (string * list PhysicalTarget)) : service S unit :=
  match calls with
  | [] => mret tt
  | (provider, targets) :: calls => _ ← deleteTargets provider targets; delete_each calls
  end.
(** The calls of the backends, in order: what is not on S3 one by one, then the buckets of S3 in the order of their names. *)
Definition delete_calls (resolved : list PhysicalTarget) : list (string * list PhysicalTarget) :=
  let on_s3 := filter (λ p, ph_Provider p = S3Provider) resolved in
  let others := filter (λ p, ph_Provider p ≠ S3Provider) resolved in
  let buckets := sort_Strings (dedup (ph_Bucket <$> on_s3)) in
  ((λ p, (ph_Provider p, [p])) <$> others) ++
  ((λ bucket, (S3Provider, sort_Slice (λ a b, String.ltb (ph_Key a) (ph_Key b)) (filter (λ p, ph_Bucket p = bucket) on_s3))) <$> buckets).
Definition DeleteExact (locations : list string) : service S unit :=
  resolved ← ask (resolve_targets locations); delete_each (delete_calls resolved).

Definition InvalidateBucket (bucket : string) (s : S) : S :=
  let bucket := TrimSpace bucket in
  if is_empty bucket then s
  else foldl (λ s r, match rg_invalidator r with Some invalidate => invalidate bucket s | None => s end) s (mg_order m).
End manager.
