(* ===== verification/StorageManagerProperties.v ===== *)
(** * What the storage manager promises
    Probes keep their targets and their order, and a batch is answered as if its targets were probed one by one; an
    exact deletion hands every physical target to the backend of its provider once. *)
From S2P Require Import Prelude GoStrings GoURL Errors Resources Policy Objects Address Buckets Targets StorageManager.

(** ** Lists with places *)
Section places.
Context {T R : Type}.
Implicit Types (targets : list T) (g : T → R).

Definition placed (start : nat) targets : list (nat * T) := imap (λ i t, (start + i, t)) targets.
Lemma placed_cons start t targets : placed start (t :: targets) = (start, t) :: placed (Datatypes.S start) targets.
Proof.
  unfold placed. rewrite imap_cons. rewrite Nat.add_0_r. f_equal. apply imap_ext. intros i x _. simpl. f_equal. lia.
Qed.
Lemma placed_0 targets : imap pair targets = placed 0 targets.
Proof. done. Qed.
Lemma placed_app start l1 l2 : placed start (l1 ++ l2) = placed start l1 ++ placed (start + length l1) l2.
Proof.
  unfold placed. rewrite imap_app. f_equal. apply imap_ext. intros i x _. simpl. f_equal. lia.
Qed.
Lemma alter_middle {A} (f : A → A) (pre : list A) x l : alter f (length pre) (pre ++ x :: l) = pre ++ f x :: l.
Proof. induction pre as [|y pre IH]; [done|]. simpl. f_equal. apply IH. Qed.
(** Updating the places of the selected targets updates the selected targets. *)
Lemma alter_selected (f : T → R → R) (sel : T → Prop) `{∀ t, Decision (sel t)} g pre targets :
  foldl (λ rs '(i, t), alter (f t) i rs) (pre ++ (g <$> targets)) (filter (λ it, sel it.2) (placed (length pre) targets)) =
  pre ++ ((λ t, if decide (sel t) then f t (g t) else g t) <$> targets).
Proof.
  revert pre. induction targets as [|t targets IH]; intros pre; [done|].
  rewrite placed_cons. assert (Datatypes.S (length pre) = length (pre ++ [g t])) as E by (rewrite length_app; simpl; lia).
  destruct (decide (sel t)) as [Hs|Hs].
  - rewrite filter_cons_True by done. rewrite !fmap_cons. cbn [foldl]. rewrite alter_middle.
    specialize (IH (pre ++ [f t (g t)])). rewrite length_app in IH. simpl in IH. rewrite Nat.add_1_r in IH.
    rewrite <- !(assoc_L (++)) in IH. simpl in IH. rewrite IH. by rewrite decide_True.
  - rewrite filter_cons_False by done. rewrite E. specialize (IH (pre ++ [g t])). rewrite <- !(assoc_L (++)) in IH. simpl in IH.
    rewrite !fmap_cons, IH. by rewrite decide_False.
Qed.
(** A loop over positions that looks the answers up in a list of the same length. *)
Lemma foldl_answers {A B} (f : option B → nat → A → A) (ans : T → B) (items : list (nat * T)) (acc : A) :
  foldl (λ acc '(position, (index, _)), f ((ans <$> items.*2) !! position) index acc) acc (imap pair items) =
  foldl (λ acc '(index, t), f (Some (ans t)) index acc) acc items.
Proof.
  assert (∀ pre, foldl (λ acc '(position, (index, _)), f ((ans <$> (pre ++ items).*2) !! position) index acc) acc
                   (imap (λ i x, (length pre + i, x)) items) =
                 foldl (λ acc '(index, t), f (Some (ans t)) index acc) acc items) as Hgen; [|apply (Hgen [])].
  revert acc. induction items as [|[i t] items IH]; intros acc pre; [done|]. rewrite imap_cons. simpl.
  rewrite Nat.add_0_r. rewrite fmap_app, fmap_app, lookup_app_r by (rewrite !length_fmap; lia).
  rewrite !length_fmap, Nat.sub_diag. simpl. specialize (IH (f (Some (ans t)) i acc) (pre ++ [(i, t)])).
  rewrite <- (assoc_L (++)) in IH. simpl in IH. rewrite <- IH. f_equal; [|].
  - rewrite !fmap_app. done.
  - apply imap_ext. intros j x _. simpl. rewrite length_app. simpl. f_equal. lia.
Qed.
End places.

(** ** Probes *)
Section probe.
Context {S : Type} `{!CredentialLookup S} (m : Manager S).

Definition blank (t : ProbeTarget) : StorageProbeResult := mkStorageProbe (pt_ID t) (pt_Target t) no_metadata None.
(** The registered provider that a target is sent to. *)
Definition sent_to (s : S) (t : ProbeTarget) : option string :=
  match providerForBucket (ot_Bucket (pt_Target t)) s with
  | Ok provider => if bool_decide (is_Some (mg_providers m !! provider)) then Some provider else None
  | Err _ => None
  end.
(** The answer for a target that is sent to no one. *)
Definition refused (s : S) (t : ProbeTarget) : StorageProbeResult :=
  match providerForBucket (ot_Bucket (pt_Target t)) s with
  | Ok provider => probe_error (operationError ErrorProvider provider None) (blank t)
  | Err e => probe_error e (blank t)
  end.
Definition sorted_out (s : S) (t : ProbeTarget) : StorageProbeResult :=
  match sent_to s t with Some _ => blank t | None => refused s t end.
Abbreviation placed_targets targets := (placed 0 targets : list (nat * ProbeTarget)).

Lemma sort_targets_spec s targets :
  let '(results, groups, providerOrder) := foldl (sort_target m s) (blank <$> targets, ∅, []) (placed_targets targets) in
  results = sorted_out s <$> targets ∧
  (∀ p, default [] (groups !! p) = filter (λ it, sent_to s it.2 = Some p) (placed_targets targets)) ∧
  NoDup providerOrder ∧ (∀ p, p ∈ providerOrder ↔ is_Some (groups !! p)) ∧
  (∀ p, is_Some (groups !! p) ↔ ∃ t, t ∈ targets ∧ sent_to s t = Some p).
Proof using.
  assert (∀ rest, let '(results, groups, providerOrder) :=
      foldl (sort_target m s) (blank <$> (targets ++ rest), ∅, []) (placed_targets targets) in
    results = (sorted_out s <$> targets) ++ (blank <$> rest) ∧
    (∀ p, default [] (groups !! p) = filter (λ it, sent_to s it.2 = Some p) (placed_targets targets)) ∧
    NoDup providerOrder ∧ (∀ p, p ∈ providerOrder ↔ is_Some (groups !! p)) ∧
    (∀ p, is_Some (groups !! p) ↔ ∃ t, t ∈ targets ∧ sent_to s t = Some p)) as Hgen.
  2: { specialize (Hgen []). rewrite !app_nil_r in Hgen. destruct (foldl _ _ _) as [[results groups] providerOrder].
       exact Hgen. }
  induction targets as [|t targets IH] using rev_ind; intros rest.
  { simpl. split_and!; try done; [constructor|intros p|intros p].
    - split; [by intros ?%elem_of_nil|]. rewrite lookup_empty. by intros [].
    - rewrite lookup_empty. split; [by intros []|]. intros (t & ?%elem_of_nil & _). done. }
  specialize (IH (t :: rest)). rewrite placed_app, foldl_app. rewrite <- (assoc_L (++)). simpl app.
  destruct (foldl (sort_target m s) _ (placed_targets targets)) as [[results groups] order]. destruct IH as (-> & Hg & Hnd & Ho & Hs).
  unfold placed at 1. simpl foldl. rewrite Nat.add_0_r.
  assert (∀ f, alter f (length targets) ((sorted_out s <$> targets) ++ (blank <$> t :: rest)) =
            (sorted_out s <$> targets) ++ f (blank t) :: (blank <$> rest)) as Halter.
  { intros f. rewrite <- (length_fmap (sorted_out s) targets). apply alter_middle. }
  assert (∀ x, sorted_out s t = x → (sorted_out s <$> targets) ++ x :: (blank <$> rest) = (sorted_out s <$> targets ++ [t]) ++ (blank <$> rest)) as Hsnoc.
  { intros x <-. rewrite fmap_app. simpl. by rewrite <- (assoc_L (++)). }
  assert (∀ p, filter (λ it, sent_to s it.2 = Some p) (placed_targets targets ++ placed (0 + length targets) [t]) =
               filter (λ it, sent_to s it.2 = Some p) (placed_targets targets) ++
               (if decide (sent_to s t = Some p) then [(length targets, t)] else [])) as Hfilter.
  { intros p. rewrite filter_app. f_equal. unfold placed. simpl. rewrite Nat.add_0_r. destruct (decide (sent_to s t = Some p)).
    - by rewrite filter_cons_True. - by rewrite filter_cons_False. }
  assert (sent_to s t = None → ∀ p, is_Some (groups !! p) ↔ ∃ t', t' ∈ targets ++ [t] ∧ sent_to s t' = Some p) as Hnone.
  { intros En p. rewrite Hs. split; intros (t' & Ht & E).
    - exists t'. split; [apply elem_of_app; by left|done].
    - apply elem_of_app in Ht as [Ht| ->%list_elem_of_singleton]; [by exists t'|congruence]. }
  unfold sort_target. unfold sorted_out, refused in Hsnoc.
  destruct (providerForBucket (ot_Bucket (pt_Target t)) s) as [provider|e] eqn:Ep.
  - destruct (mg_providers m !! provider) as [reg|] eqn:Er.
    + assert (sent_to s t = Some provider) as Es by (unfold sent_to; rewrite Ep, bool_decide_true by (rewrite Er; eauto); done).
      rewrite Es in Hsnoc. split_and!.
      * by apply Hsnoc.
      * intros p. rewrite Hfilter, Es. destruct (decide (provider = p)) as [<-|Hne].
        -- rewrite lookup_insert_eq, decide_True by done. simpl. by rewrite Hg.
        -- rewrite lookup_insert_ne, decide_False, app_nil_r by congruence. apply Hg.
      * case_bool_decide as Hd; [done|]. apply NoDup_app. split_and!; [done| |apply NoDup_singleton].
        intros p Hp ->%list_elem_of_singleton. by apply Hd, Ho.
      * intros p. rewrite lookup_insert_is_Some. case_bool_decide as Hd.
        -- rewrite Ho. split; [|intros [<-|[_ ?]]; done]. intros Hp. destruct (decide (provider = p)); [by left|by right].
        -- rewrite elem_of_app, Ho, list_elem_of_singleton. destruct (decide (provider = p)) as [<-|]; [|naive_solver congruence]. naive_solver.
      * intros p. rewrite lookup_insert_is_Some, Hs. split.
        -- intros [<-|[_ (t' & Ht & E)]]; [exists t|exists t']; (split; [apply elem_of_app|done]); [right; by apply list_elem_of_singleton|by left].
        -- intros (t' & Ht & E). destruct (decide (provider = p)) as [|Hne]; [by left|right; split; [done|]].
           apply elem_of_app in Ht as [Ht| ->%list_elem_of_singleton]; [by exists t'|congruence].
    + assert (sent_to s t = None) as Es by (unfold sent_to; rewrite Ep, Er; done).
      rewrite Es in Hsnoc. split_and!; [rewrite Halter; by apply Hsnoc| |done|done|by apply Hnone].
      intros p. rewrite Hfilter, Es, decide_False, app_nil_r by done. apply Hg.
  - assert (sent_to s t = None) as Es by (unfold sent_to; rewrite Ep; done).
    rewrite Es in Hsnoc. split_and!; [rewrite Halter; by apply Hsnoc| |done|done|by apply Hnone].
    intros p. rewrite Hfilter, Es, decide_False, app_nil_r by done. apply Hg.
Qed.
(** Probers that answer for each target by itself, from the state. *)
Definition pointwise (answer : string → S → ProbeTarget → StorageProbeResult) : Prop :=
  ∀ provider prober, prober_of m provider = Some prober →
    ∀ targets s, prober targets s = (s, answer provider s <$> targets).
(** The reference: the probe of one target. *)
Definition probe_one (answer : string → S → ProbeTarget → StorageProbeResult) (s : S) (t : ProbeTarget) : StorageProbeResult :=
  match sent_to s t with
  | None => refused s t
  | Some provider =>
      match prober_of m provider with
      | None => probe_error (operationError ErrorUnsupported provider None) (blank t)
      | Some _ => provided (answer provider s t) (blank t)
      end
  end.
Definition staged answer (finished : list string) (s : S) (t : ProbeTarget) : StorageProbeResult :=
  match sent_to s t with
  | Some p => if decide (p ∈ finished) then probe_one answer s t else blank t
  | None => refused s t
  end.
Lemma staged_step answer finished provider s t :
  provider ∉ finished →
  (if decide (sent_to s t = Some provider) then probe_one answer s t else staged answer finished s t) =
  staged answer (finished ++ [provider]) s t.
Proof using.
  intros Hno. unfold staged. destruct (sent_to s t) as [p|] eqn:E; [|by rewrite decide_False].
  destruct (decide (Some p = Some provider)) as [[= ->]|Hne].
  - rewrite decide_True; [done|]. apply elem_of_app. right. by apply list_elem_of_singleton.
  - assert (p ∈ finished ↔ p ∈ finished ++ [provider]) as Hiff.
    { rewrite elem_of_app, list_elem_of_singleton. split; [by left|]. intros [?| ->]; [done|]. by destruct Hne. }
    by rewrite (decide_ext _ _ _ _ Hiff).
Qed.
Lemma probe_groups answer s targets groups finished order :
  pointwise answer → (∀ p, default [] (groups !! p) = filter (λ it, sent_to s it.2 = Some p) (placed_targets targets)) →
  NoDup (finished ++ order) →
  foldl (probe_group m groups) (s, staged answer finished s <$> targets) order = (s, staged answer (finished ++ order) s <$> targets).
Proof using.
  intros Hp Hg. revert finished. induction order as [|provider order IH]; intros finished Hnd; [by rewrite app_nil_r|].
  assert (provider ∉ finished) as Hno.
  { apply NoDup_app in Hnd as (_ & Hd & _). intros Hin. apply (Hd _ Hin). by left. }
  assert (probe_group m groups (s, staged answer finished s <$> targets) provider =
          (s, staged answer (finished ++ [provider]) s <$> targets)) as Hstep.
  { unfold probe_group. rewrite Hg.
    assert (∀ f, (∀ t, sent_to s t = Some provider → f t (blank t) = probe_one answer s t) →
      foldl (λ rs '(i, t), alter (f t) i rs) (staged answer finished s <$> targets)
        (filter (λ it, sent_to s it.2 = Some provider) (placed_targets targets)) =
      staged answer (finished ++ [provider]) s <$> targets) as Hfold.
    { intros f Hf. pose proof (alter_selected f (λ t, sent_to s t = Some provider) (staged answer finished s) [] targets) as Ha.
      cbn [app length] in Ha. etransitivity; [exact Ha|]. clear Ha.
      apply list_fmap_ext. intros i t _. rewrite <- (staged_step answer finished provider s t Hno).
      destruct (decide (sent_to s t = Some provider)) as [E|]; [|done]. rewrite <- Hf by done. unfold staged.
      by rewrite E, decide_False. }
    destruct (prober_of m provider) as [prober|] eqn:Er.
    - rewrite (Hp _ _ Er). cbv beta iota. f_equal.
      etransitivity; [exact (foldl_answers (λ a i, alter (match a with Some p => provided p | None => probe_error
        (operationError ErrorProvider provider (Some (EText "backend returned %d results for %d targets"))) end) i)
        (answer provider s) _ _)|].
      apply (Hfold (λ t, provided (answer provider s t))). intros t E. unfold probe_one. by rewrite E, Er.
    - f_equal. apply (Hfold (λ _, probe_error (operationError ErrorUnsupported provider None))). intros t E. unfold probe_one.
      by rewrite E, Er. }
  cbn [foldl]. rewrite Hstep. specialize (IH (finished ++ [provider])). rewrite <- (assoc_L (++)) in IH. by apply IH.
Qed.
(** C9 A batch of probes, which the manager groups by provider and sends in one call each, is answered as if its targets
    were probed one by one, in the order of the targets: grouping mixes nothing up, and a target that fails does not
    touch the others. *)
Theorem probes_one_by_one answer targets s :
  pointwise answer →
  Probe m targets s = (s, probe_one answer s <$> targets) ∧
  (Probe m targets s).2 = mjoin ((λ t, (Probe m [t] s).2) <$> targets).
Proof using.
  intros Hp. assert (∀ targets, Probe m targets s = (s, probe_one answer s <$> targets)) as Hall.
  { clear targets. intros targets. unfold Probe. rewrite placed_0. pose proof (sort_targets_spec s targets) as Hspec.
    change ((λ t, mkStorageProbe (pt_ID t) (pt_Target t) no_metadata None) <$> targets) with (blank <$> targets).
    destruct (foldl (sort_target m s) _ _) as [[results groups] order]. destruct Hspec as (-> & Hg & Hnd & Ho & Hs).
    change (sorted_out s <$> targets) with (staged answer [] s <$> targets). rewrite (probe_groups answer s targets groups [] order) by done.
    f_equal. apply list_fmap_ext. intros i t Hi. unfold staged. destruct (sent_to s t) as [p|] eqn:E; [|unfold probe_one; by rewrite E].
    rewrite decide_True; [done|]. apply Ho, Hs. exists t. split; [by eapply list_elem_of_lookup_2|done]. }
  split; [apply Hall|]. rewrite Hall. simpl. clear Hp. induction targets as [|t targets IH]; [done|].
  rewrite !fmap_cons. simpl. rewrite (Hall [t]). simpl. by rewrite IH.
Qed.

(** Whatever the backends answer, there is one result per target, with its id, in order. *)
Lemma alters_keep {A} (h : StorageProbeResult → A) (f : StorageProbeResult → StorageProbeResult) (i : nat) (rs : list StorageProbeResult) :
  (∀ r, h (f r) = h r) → h <$> alter f i rs = h <$> rs.
Proof using.
  intros Hf. apply list_eq. intros j. rewrite !list_lookup_fmap. destruct (decide (i = j)) as [->|].
  - rewrite list_lookup_alter_eq. destruct (rs !! j); simpl; [by rewrite Hf|done].
  - by rewrite list_lookup_alter_ne.
Qed.
Lemma folds_keep {A B} (h : StorageProbeResult → A) (f : list StorageProbeResult → B → list StorageProbeResult) l rs :
  (∀ rs b, h <$> f rs b = h <$> rs) → h <$> foldl f rs l = h <$> rs.
Proof using. intros Hf. revert rs. induction l as [|b l IH]; intros rs; simpl; [done|]. by rewrite IH, Hf. Qed.
Theorem probe_keeps_targets targets s :
  (λ r, (sp_ID r, sp_Target r)) <$> (Probe m targets s).2 = (λ t, (pt_ID t, pt_Target t)) <$> targets.
Proof using.
  unfold Probe. rewrite placed_0. pose proof (sort_targets_spec s targets) as Hspec.
  change ((λ t, mkStorageProbe (pt_ID t) (pt_Target t) no_metadata None) <$> targets) with (blank <$> targets).
  destruct (foldl (sort_target m s) _ _) as [[results groups] order]. destruct Hspec as [-> _].
  set (h := λ r : StorageProbeResult, (sp_ID r, sp_Target r)).
  assert (∀ acc, h <$> (foldl (probe_group m groups) acc order).2 = h <$> acc.2) as Hgroups.
  { induction order as [|p order IH]; intros [s1 rs]; [done|]. simpl. rewrite IH. destruct (prober_of m p) as [prober|].
    - destruct (prober _ s1) as [s2 answers]. simpl. apply folds_keep. intros rs' [j [i t]]. apply alters_keep. intros r.
      unfold answer_of. by destruct (answers !! j).
    - simpl. apply folds_keep. intros rs' [i t]. by apply alters_keep. }
  rewrite Hgroups. simpl. rewrite <- list_fmap_compose. apply list_fmap_ext. intros i t _. unfold compose, sorted_out, refused.
  destruct (sent_to s t); [done|]. by destruct (providerForBucket _ s).
Qed.
End probe.

(** ** Exact deletion *)
Section delete.
Context {S : Type} `{!CredentialLookup S} (m : Manager S).

(** What the locations resolve to, each target once. *)
Definition resolves (s : S) (locations : list string) (resolved : list PhysicalTarget) : Prop :=
  NoDup (physicalTargetKey <$> resolved) ∧
  (∀ p, p ∈ resolved → ∃ location, location ∈ locations ∧ physicalTarget location s = Ok (Some p)) ∧
  (∀ location, location ∈ locations → ∃ o, physicalTarget location s = Ok o ∧
     ∀ p, o = Some p → physicalTargetKey p ∈ physicalTargetKey <$> resolved).
Lemma resolve_targets_spec locations s resolved :
  resolve_targets locations s = Ok resolved → resolves s locations resolved.
Proof using.
  unfold resolve_targets. revert resolved. induction locations as [|location locations IH] using rev_ind; intros resolved.
  { intros [= <-]. split_and!; [constructor|by intros p ?%elem_of_nil|by intros l ?%elem_of_nil]. }
  rewrite foldlM_app. intros (resolved0 & (Hnd & Hfrom & Hto)%IH & Hr)%bind_Ok. simpl in Hr.
  apply bind_Ok in Hr as (r1 & Hr & [= <-]). unfold resolve_target in Hr. apply bind_Ok in Hr as (o & Ho & Hr).
  assert (∀ l', resolved0 ⊆ l' → (∀ p, o = Some p → physicalTargetKey p ∈ physicalTargetKey <$> l') →
    ∀ loc, loc ∈ locations ++ [location] → ∃ o, physicalTarget loc s = Ok o ∧
      ∀ p, o = Some p → physicalTargetKey p ∈ physicalTargetKey <$> l') as Hall.
  { intros l' Hsub Hnew loc [Hin| ->%list_elem_of_singleton]%elem_of_app; [|by exists o].
    destruct (Hto loc Hin) as (o' & Ho' & Hk). exists o'. split; [done|]. intros p Hp. specialize (Hk p Hp).
    apply list_elem_of_fmap in Hk as (q & -> & Hq). apply list_elem_of_fmap. exists q. split; [done|by apply Hsub]. }
  assert (∀ p, p ∈ resolved0 → ∃ loc, loc ∈ locations ++ [location] ∧ physicalTarget loc s = Ok (Some p)) as Hold.
  { intros p (loc & Hl & E)%Hfrom. exists loc. split; [apply elem_of_app; by left|done]. }
  destruct o as [p|]; [case_bool_decide as Hd|]; injection Hr as <-.
  - split_and!; [done|done|]. apply Hall; [done|]. by intros q [= <-].
  - split_and!.
    + rewrite fmap_app. apply NoDup_app. split_and!; [done| |apply NoDup_singleton]. intros k Hk ->%list_elem_of_singleton. done.
    + intros q [Hq| ->%list_elem_of_singleton]%elem_of_app; [by apply Hold|]. exists location. split; [|done].
      apply elem_of_app. right. by apply list_elem_of_singleton.
    + apply Hall; [set_solver|]. intros q [= <-]. rewrite fmap_app. apply elem_of_app. right. by apply list_elem_of_singleton.
  - split_and!; [done|done|]. by apply Hall.
Qed.

(** The targets of one bucket, and those of no bucket twice. *)
Lemma by_bucket (ps : list PhysicalTarget) buckets :
  NoDup buckets → (∀ p, p ∈ ps → ph_Bucket p ∈ buckets) →
  mjoin ((λ bucket, filter (λ p, ph_Bucket p = bucket) ps) <$> buckets) ≡ₚ ps.
Proof using.
  intros Hnd. revert ps. induction Hnd as [|bucket buckets Hno Hnd IH]; intros ps Hall.
  { destruct ps as [|p ps]; [done|]. destruct (not_elem_of_nil (ph_Bucket p)). apply Hall. by left. }
  rewrite fmap_cons. simpl. trans (filter (λ p, ph_Bucket p = bucket) ps ++ filter (λ p, ¬ ph_Bucket p = bucket) ps);
    [|apply filter_app_complement]. f_equiv. rewrite <- (IH (filter (λ p, ¬ ph_Bucket p = bucket) ps)).
  - match goal with |- ?a ≡ₚ ?b => enough (a = b) as E by by rewrite E end. f_equal. apply list_fmap_ext. intros i b Hb. rewrite list_filter_filter. apply list_filter_iff.
    intros p. assert (b ≠ bucket); [|naive_solver]. intros ->. apply Hno. by eapply list_elem_of_lookup_2.
  - intros p [Hne Hp]%list_elem_of_filter. apply Hall in Hp as [Ep|?]%elem_of_cons; done.
Qed.
(** The calls of an exact deletion cover the targets, each for one provider; on S3 each for one bucket. *)
Definition covers (resolved : list PhysicalTarget) (calls : list (string * list PhysicalTarget)) : Prop :=
  mjoin (calls.*2) ≡ₚ resolved ∧
  ∀ provider targets, (provider, targets) ∈ calls →
    (∀ p, p ∈ targets → ph_Provider p = provider) ∧
    (provider ≠ S3Provider → ∃ p, targets = [p]) ∧
    (∃ bucket, ∀ p, p ∈ targets → ph_Bucket p = bucket).
Lemma delete_calls_cover resolved : covers resolved (delete_calls resolved).
Proof using.
  unfold delete_calls. cbv zeta. set (on_s3 := filter (λ p, ph_Provider p = S3Provider) resolved).
  set (others := filter (λ p, ph_Provider p ≠ S3Provider) resolved). split.
  - rewrite fmap_app, join_app, <- !list_fmap_compose.
    assert (mjoin (snd ∘ (λ p, (ph_Provider p, [p])) <$> others) = others) as ->.
    { clearbody others. induction others as [|p l IH]; [done|]. rewrite fmap_cons. simpl. by rewrite IH. }
    trans (on_s3 ++ others); [|apply filter_app_complement]. rewrite (comm (++) on_s3). f_equiv.
    trans (mjoin ((λ bucket, filter (λ p, ph_Bucket p = bucket) on_s3) <$> sort_Strings (dedup (ph_Bucket <$> on_s3)))).
    + induction (sort_Strings _) as [|b l IH]; [done|]. rewrite !fmap_cons. simpl. f_equiv; [apply sort_Slice_Permutation|exact IH].
    + apply by_bucket; [apply NoDup_sort_Strings, NoDup_dedup|].
      intros p Hp. apply elem_of_sort_Strings, elem_of_dedup, list_elem_of_fmap. by exists p.
  - intros provider targets [H1|H1]%elem_of_app.
    + apply list_elem_of_fmap in H1 as (p & [= -> ->] & Hp). split_and!.
      * by intros q ->%list_elem_of_singleton.
      * intros _. by exists p.
      * exists (ph_Bucket p). by intros q ->%list_elem_of_singleton.
    + apply list_elem_of_fmap in H1 as (bucket & [= -> ->] & Hb). split_and!; [|done|exists bucket]; intros p Hp;
        rewrite sort_Slice_Permutation in Hp; apply list_elem_of_filter in Hp as [Hpb Hp]; [|done].
      by apply list_elem_of_filter in Hp as [? _].
Qed.

(** Calls of backends, each with its success. *)
Inductive deletes : list (string * list PhysicalTarget) → S → S → Prop :=
  | deletes_nil s : deletes [] s s
  | deletes_cons provider targets calls s s1 s' reg delete :
      mg_providers m !! provider = Some reg → rg_deleter reg = Some delete → delete targets s = (s1, Ok tt) →
      deletes calls s1 s' → deletes ((provider, targets) :: calls) s s'.
Lemma delete_each_deletes calls s s' : delete_each m calls s = (s', Ok tt) → deletes calls s s'.
Proof using.
  revert s. induction calls as [|[provider targets] calls IH]; intros s; cbn [delete_each].
  { intros [= <-]. constructor. }
  intros (s1 & [] & (s2 & reg & [= <- Hreg] & Hd)%service_bind_Ok & Hrest)%service_bind_Ok.
  unfold registration in Hreg. destruct (mg_providers m !! provider) as [r|] eqn:Er; [|done]. injection Hreg as ->.
  destruct (rg_deleter reg) as [delete|] eqn:Ed; [|done]. by apply (deletes_cons _ _ _ _ s1 _ reg delete); [..|apply IH].
Qed.
(** C26 An exact deletion that succeeds has handed every physical target of its locations to the backend of its provider,
    once, and nothing else: the calls cover exactly the resolved targets, those of one S3 bucket together. *)
Theorem exact_deletion locations s s' :
  DeleteExact m locations s = (s', Ok tt) →
  ∃ resolved calls, resolves s locations resolved ∧ covers resolved calls ∧ deletes calls s s'.
Proof using.
  intros (s1 & resolved & [= <- Hr] & Hd)%service_bind_Ok. exists resolved, (delete_calls resolved).
  split_and!; [by apply resolve_targets_spec|apply delete_calls_cover|by apply delete_each_deletes].
Qed.
End delete.

(** ** Executions *)
Section sample.
(** The state is what was deleted; two buckets, one on S3 and one in the file system. *)
Definition deletion_log : Type := list (string * list PhysicalTarget).
#[local] Instance sample_lookup : CredentialLookup deletion_log := λ bucket _,
  Ok (if String.eqb bucket "data" then Some (mkCredential "" "data" "s3" "" "" "" "")
      else if String.eqb bucket "disk" then Some (mkCredential "" "disk" "file" "" "" "" "/srv//disk/") else None).
Definition sample_backend : CompleteBackend deletion_log := mkCompleteBackend _
  (λ t _, mret (ot_Key t)) (λ t _ _, mret (ot_Key t)) (λ t, mret (ot_Key t)) (λ _, mret "") (λ _, mret tt).
Definition sample_answer (provider : string) (s : deletion_log) (t : ProbeTarget) : StorageProbeResult :=
  mkStorageProbe (pt_ID t) (pt_Target t) (mkObjectMetadata provider (ot_Bucket (pt_Target t)) (ot_Key (pt_Target t)) "" 3 "" "" None)
    (if String.eqb (ot_Key (pt_Target t)) "gone" then Some (operationError ErrorNotFound provider None) else None).
Definition sample_registration (provider : string) (prober : bool) : Registration deletion_log :=
  mkRegistration provider (Some sample_backend) None
    (if prober then Some (λ targets s, (s, sample_answer provider s <$> targets)) else None) None
    (Some (λ targets s, (s ++ [(provider, targets)], Ok tt))).
Definition sample_manager : Manager deletion_log :=
  match NewManager [sample_registration "s3" true; sample_registration "file" false] with Ok m => m | Err _ => mkManager ∅ [] end.
Example sample_manager_twice : NewManager [sample_registration "s3" true; sample_registration " S3" true] =
  Err (EText "storage provider %q is registered more than once").
Proof. vm_compute. reflexivity. Qed.

Lemma sample_providers : mg_providers sample_manager =
  <["file" := sample_registration "file" false]> (<["s3" := sample_registration "s3" true]> ∅).
Proof. reflexivity. Qed.

Definition sample_targets : list ProbeTarget :=
  [mkProbeTarget "1" (mkObjectTarget "data" "a"); mkProbeTarget "2" (mkObjectTarget "disk" "b");
   mkProbeTarget "3" (mkObjectTarget "none" "c"); mkProbeTarget "4" (mkObjectTarget "data" "gone")].
Example sample_probe :
  (λ r, (sp_ID r, om_Key (sp_Metadata r), sp_Err r)) <$> (Probe sample_manager sample_targets []).2 =
  [("1", "a", None); ("2", "", Some (operationError ErrorUnsupported "file" None));
   ("3", "", Some (operationError ErrorNotFound "" (Some (EText "credential not found for %q"))));
   ("4", "gone", Some (operationError ErrorNotFound "s3" None))].
Proof. vm_compute. reflexivity. Qed.
Lemma probes_one_by_one_witness :
  (Probe sample_manager sample_targets []).2 = mjoin ((λ t, (Probe sample_manager [t] []).2) <$> sample_targets).
Proof.
  apply (probes_one_by_one sample_manager sample_answer sample_targets []). intros provider prober E targets s.
  unfold prober_of in E. rewrite sample_providers in E. destruct (decide (provider = "file")) as [->|Hf].
  { rewrite lookup_insert_eq in E. discriminate. }
  rewrite lookup_insert_ne in E by congruence. destruct (decide (provider = "s3")) as [->|Hs].
  - rewrite lookup_insert_eq in E. injection E as <-. reflexivity.
  - rewrite lookup_insert_ne, lookup_empty in E by congruence. discriminate.
Defined.

Definition sample_locations : list string := ["s3://data/b"; "s3://data/a/"; "s3://disk/x/../y"; " s3://data/b "; "s3://data"].
Example sample_deletion : DeleteExact sample_manager sample_locations [] =
  ([("file", [mkPhysical "file" "disk" "x/../y" "/srv/disk/y"]);
    ("s3", [mkPhysical "s3" "data" "a" ""; mkPhysical "s3" "data" "b" ""])], Ok tt).
Proof. vm_compute. reflexivity. Qed.
Lemma exact_deletion_witness :
  ∃ resolved calls, resolves ([] : deletion_log) sample_locations resolved ∧ covers resolved calls ∧
    deletes sample_manager calls [] (DeleteExact sample_manager sample_locations []).1.
Proof.
  apply (exact_deletion sample_manager sample_locations [] (DeleteExact sample_manager sample_locations []).1).
  vm_compute. reflexivity.
Defined.
End sample.
