(* ===== verification/ProjectStorage.v ===== *)
(** * The storage of a project: internal/projects/storage
    Inventory, probes, validation and deletion of the objects below the bucket scope of a project, over the ports of
    ports.go (class [ProjectPorts]; a port that is nil is [None]).  A request carries a cache of credentials, visible
    buckets and probes; an operation runs on the state of the ports and this cache, which is empty when it starts. *)
From S2P Require Import Prelude GoStrings GoURL Errors HttpErrors Resources Policy Objects Address Buckets BucketVisibility Targets StorageManager.

(** Kind and provider. *)
Definition as_operation : error → option (string * string) :=
  errors_As (λ e, match e with EOperation kind provider _ => Some (kind, provider) | _ => None end).
(** Kind and message. *)
Definition as_project : error → option (string * string) :=
  errors_As (λ e, match e with EProject kind message _ => Some (kind, message) | _ => None end).

(** ** types.go *)
Inductive InspectionMode := ModeItems | ModeExists | ModeSummary | OtherMode (mode : string).
Record StorageObject := mkStorageObject {
  so_ObjectURL : string; so_Provider : string; so_Bucket : string; so_Key : string; so_Path : string; so_SizeBytes : Z;
  so_MetaSHA256 : string; so_ETag : string; so_LastModTime : option Z }.
Record InventoryOptions := mkInventoryOptions { io_IncludeHead : bool; io_ExactPrefix : bool; io_MaxKeys : Z }.
Record InspectionOptions := mkInspectionOptions { in_Mode : InspectionMode; in_IncludeHead : bool; in_PathPrefix : string }.
Record StorageSummary := mkStorageSummary {
  su_Provider : string; su_Bucket : string; su_Prefix : string; su_ObjectURL : string; su_Exists : bool; su_ObjectCount : nat;
  su_TotalBytes : Z; su_ComputedAt : Z; su_Mode : InspectionMode; su_InventoryComplete : bool; su_InventoryWarning : string }.
Record InspectionResult := mkInspectionResult { ins_Summary : StorageSummary; ins_Items : list StorageObject }.
Record ProjectAccessMethod := mkProjectAccessMethod {
  pm_Type : string; pm_AccessID : string; pm_URL : string; pm_Headers : list string }.
Record ProjectRecordAudit := mkProjectRecord {
  pr_ObjectID : string; pr_Checksum : string; pr_Organization : string; pr_Project : string; pr_Name : string; pr_Size : Z;
  pr_AccessURLs : list string; pr_AccessMethods : list ProjectAccessMethod; pr_CreatedTime : Z; pr_UpdatedTime : option Z }.
Inductive ProbeStatus := ProbePresent | ProbeNotFound | ProbeForbidden | ProbeInvalid | ProbeUnsupported | ProbeError.
Inductive ValidationStatus := ValidationNotRequested | ValidationMatched | ValidationMismatched | ValidationUnverifiable.
Record ListValidationRequest := mkListValidation {
  lr_ID : string; lr_ObjectURL : string; lr_ExpectedSizeBytes : option Z; lr_ExpectedName : string }.
(** What a validation found out, apart from the identity of the request. *)
Record ListValidationResult := mkValidationResult {
  lv_ID : string; lv_ObjectURL : string; lv_Provider : string; lv_Bucket : string; lv_Key : string; lv_Path : string;
  lv_Exists : bool; lv_Status : ProbeStatus; lv_Error : string; lv_ErrorKind : string; lv_SizeBytes : option Z; lv_ETag : string;
  lv_LastModTime : option Z; lv_ValidationStatus : ValidationStatus; lv_SizeMatch : option bool; lv_NameMatch : option bool;
  lv_ValidationMismatches : list string }.
Record InspectRequest := mkInspectRequest {
  iq_ID : string; iq_Organization : string; iq_Project : string; iq_Key : string; iq_Scheme : string; iq_ObjectURL : string;
  iq_ExpectedSizeBytes : option Z; iq_ExpectedSHA256 : string }.
Record ProbeMetadata := mkProbeMetadata { md_ObjectURL : string; md_Object : ObjectMetadata }.
Record ProbeResult := mkProbeResult {
  pb_ID : string; pb_ObjectURL : string; pb_Metadata : option ProbeMetadata; pb_Status : ProbeStatus; pb_Error : string;
  pb_ErrorKind : string; pb_ValidationStatus : ValidationStatus; pb_SizeMatch : option bool; pb_SHA256Match : option bool;
  pb_ValidationMismatches : list string }.
Record DeleteResult := mkDeleteResult { dr_ObjectURL : string; dr_Status : string; dr_Error : string }.
Record ProjectCleanupResult := mkCleanupResult {
  cu_Organization : string; cu_ProjectID : string; cu_DeletedObjects : nat; cu_DeletedBucketScopes : nat }.

Definition ErrorInvalidInput := "invalid_input".
Definition ErrorScopeNotFound := "scope_not_found".
Definition ErrorCredentialMissing := "credential_missing".
Definition ErrorPermissionDenied := "permission_denied".
Definition ErrorObjectNotFound := "object_not_found".
Definition ErrorBucketUnavailable := "bucket_unavailable".
Definition ErrorListingIncomplete := "listing_incomplete".
Definition ErrorProjectUnsupported := "unsupported".
Definition project_error (kind message : string) : error := EProject kind message None.

(** ** ports.go *)
Class ProjectPorts (S : Type) := {
  pp_LookupBucketScope : option (string → string → service S (Scope * bool));
  pp_Credentials : option ((string → S → result error (option Credential)) * (S → result error (list Credential)));
  pp_ListVisibleBuckets : option (context → S → result error (gmap string VisibleBucket));
  pp_Inventory : option (InventoryRequest → S → S * (InventoryResult * option error));
  pp_Probe : option (list ProbeTarget → S → S * list StorageProbeResult);
  pp_DeleteExact : option (list string → service S unit);
  pp_ListPhysicalObjectsByScope : option (context → string → string → string → S → result error (list ObjectRecord));
  pp_DeleteBulkByScope : option (context → string → string → service S nat);
  pp_ScopeCatalog : option ((S → result error (list Scope)) * (string → string → string → string → service S unit)) }.

(** ** request_cache.go *)
Record requestCache := mkRequestCache {
  rc_credentials : gmap string (result error Credential);
  rc_visible : option (result error (gmap string VisibleBucket));
  rc_probes : gmap string ProbeResult }.
Definition no_cache : requestCache := mkRequestCache ∅ None ∅.
Definition credential_key (bucket : string) : string := ToLower (TrimSpace bucket).
Definition set_credential (bucket : string) (r : result error Credential) (c : requestCache) : requestCache :=
  mkRequestCache (<[credential_key bucket := r]> (rc_credentials c)) (rc_visible c) (rc_probes c).
Definition set_visible (r : result error (gmap string VisibleBucket)) (c : requestCache) : requestCache :=
  mkRequestCache (rc_credentials c) (Some r) (rc_probes c).
Definition set_probe (key : string) (r : ProbeResult) (c : requestCache) : requestCache :=
  mkRequestCache (rc_credentials c) (rc_visible c) (<[key := r]> (rc_probes c)).

Section project.
Context `{MapOrder} {S : Type} `{!ProjectPorts S} (ctx : context).
(** An operation of the package, on the state and the cache of the request. *)
Local Abbreviation R A := (service (S * requestCache) A).
Definition on_state {A} (f : service S A) : R A := λ st, let '(s, r) := f st.1 in ((s, st.2), r).
Definition ask_state {A} (f : S → result error A) : R A := λ st, (st, f st.1).
Definition call {A} (f : S → S * A) : R A := λ st, let '(s, a) := f st.1 in ((s, st.2), Ok a).
Definition get_cache : R requestCache := λ st, (st, Ok st.2).
Definition put_cache (f : requestCache → requestCache) : R unit := λ st, ((st.1, f st.2), Ok tt).
(** [withRequestCache], for an operation called from outside. *)
Definition with_request_cache {A} (f : R A) : service S A := λ s, let '((s, _), r) := f (s, no_cache) in (s, r).

(** ** service.go: errors *)
Definition storageErrorMessage (kind capability : string) : string :=
  if String.eqb kind ErrorInvalidInput then "storage " +:+ capability +:+ " request is invalid"
  else if String.eqb kind ErrorCredentialMissing then "no stored storage credential found for bucket %q"
  else if String.eqb kind ErrorObjectNotFound then "storage object %q was not found"
  else if String.eqb kind ErrorPermissionDenied then "storage access is forbidden"
  else if String.eqb kind ErrorListingIncomplete then "storage " +:+ capability +:+ " returned incomplete results"
  else if String.eqb kind ErrorProjectUnsupported then "storage " +:+ capability +:+ " is not supported"
  else "storage " +:+ capability +:+ " failed".
(** The project kind of a storage error; [None]: the error stays as it is. *)
Definition project_kind (kind provider : string) : option string :=
  if String.eqb kind ErrorInvalid then Some ErrorInvalidInput
  else if String.eqb kind ErrorNotFound
  then Some (if is_empty (TrimSpace provider) then ErrorCredentialMissing else ErrorObjectNotFound)
  else if String.eqb kind ErrorForbidden then Some ErrorPermissionDenied
  else if String.eqb kind ErrorIncomplete then Some ErrorListingIncomplete
  else if String.eqb kind ErrorUnsupported then Some ErrorProjectUnsupported
  else None.
Definition mapStorageError (e : error) (capability : string) : error :=
  match as_operation e with
  | None => e
  | Some (kind, provider) =>
      match project_kind kind provider with
      | Some kind => EProject kind (storageErrorMessage kind capability) (Some e)
      | None => e
      end
  end.
Definition safeStorageErrorMessage (e : error) (capability : string) : string :=
  match as_project e with
  | Some (kind, message) => ProjectError_PublicMessage kind message
  | None =>
      match as_operation e with
      | Some (kind, _) =>
          if String.eqb kind ErrorUnavailable then "storage " +:+ capability +:+ " is temporarily unavailable"
          else if String.eqb kind ErrorIncomplete then "storage " +:+ capability +:+ " returned incomplete results"
          else if String.eqb kind ErrorForbidden then "storage access is forbidden"
          else if String.eqb kind ErrorNotFound then "storage object was not found"
          else if String.eqb kind ErrorInvalid then "storage " +:+ capability +:+ " request is invalid"
          else if String.eqb kind ErrorUnsupported then "storage " +:+ capability +:+ " is not supported"
          else "storage " +:+ capability +:+ " failed"
      | None => "storage " +:+ capability +:+ " failed"
      end
  end.

(** ** service.go: credentials and visibility *)
Definition lookup_credential (bucket : string) (s : S) : result error Credential :=
  match pp_Credentials with
  | None => Err (project_error ErrorProjectUnsupported "bucket credential reader is not configured")
  | Some (get, list) =>
      match get bucket s with
      | Ok (Some credential) => Ok credential
      | _ =>
          credentials ← list s;
          match list_find (λ c, EqualFold (TrimSpace (c_Bucket c)) bucket || EqualFold (TrimSpace (c_CredentialID c)) bucket = true)
                  credentials with
          | Some (_, credential) => Ok credential
          | None => Err (project_error ErrorCredentialMissing "no stored bucket credential found for bucket %q")
          end
      end
  end.
Definition credentialForBucket (bucket : string) : R Credential :=
  let bucket := TrimSpace bucket in
  if is_empty bucket then fail (project_error ErrorInvalidInput "bucket is required")
  else
    cache ← get_cache;
    match rc_credentials cache !! credential_key bucket with
    | Some cached => check cached
    | None =>
        found ← attempt (ask_state (lookup_credential bucket));
        _ ← put_cache (set_credential bucket found);
        check found
    end.
Definition lookup_visible (s : S) : result error (gmap string VisibleBucket) :=
  match pp_ListVisibleBuckets with
  | None => Err (project_error ErrorProjectUnsupported "bucket visibility reader is not configured")
  | Some list => list ctx s
  end.
Definition visibleBuckets : R (gmap string VisibleBucket) :=
  cache ← get_cache;
  match rc_visible cache with
  | Some cached => check cached
  | None =>
      visible ← attempt (ask_state lookup_visible);
      _ ← put_cache (set_visible visible);
      check visible
  end.

(** ** service.go: the scope of a project *)
Record scopeTarget := mkTarget {
  tg_Provider : string; tg_Bucket : string; tg_Prefix : string; tg_prefixes : list string; tg_Credential : Credential }.
Definition withPathPrefix (target : scopeTarget) (requestPrefix : string) : scopeTarget :=
  let trimmed := Trim (TrimSpace requestPrefix) "/" in
  if is_empty trimmed then target
  else mkTarget (tg_Provider target) (tg_Bucket target)
         (if is_empty (tg_Prefix target) then trimmed else Trim (TrimSpace (tg_Prefix target)) "/" +:+ "/" +:+ trimmed)
         (tg_prefixes target) (tg_Credential target).
Definition push_scope_prefix (prefixes : list string) (scope : Scope) : list string :=
  let prefix := Trim (TrimSpace (s_PathPrefix scope)) "/" in
  if is_empty prefix then prefixes
  else
    match last prefixes with
    | None => [prefix]
    | Some last =>
        if String.eqb prefix last then prefixes
        else if HasPrefix prefix (last +:+ "/") then take (length prefixes - 1) prefixes ++ [prefix]
        else if HasPrefix last (prefix +:+ "/") then prefixes
        else prefixes ++ [prefix]
    end.
Definition normalizedPrefixes (scopes : list Scope) : list string := foldl push_scope_prefix [] scopes.
Definition found_scope (lookup : string → string → service S (Scope * bool)) (organization project : string) : R (list Scope) :=
  '(scope, found) ← on_state (lookup organization project); mret (if found : bool then [scope] else []).
Definition resolveScope (organization project method : string) : R scopeTarget :=
  let organization := TrimSpace organization in
  let project := TrimSpace project in
  if is_empty organization then fail (project_error ErrorInvalidInput "organization is required")
  else
    match ResourcePath organization project with
    | Err _ => fail (project_error ErrorInvalidInput "err.Error()")
    | Ok resource =>
        if IsAuthzEnforced ctx && negb (HasMethodAccess ctx method [resource])
        then fail (EAuthorization (mkAuthorizationError method "" [resource] 0 0 0))
        else
          match pp_LookupBucketScope with
          | None => fail (project_error ErrorProjectUnsupported "bucket scope reader is not configured")
          | Some lookup =>
              of_organization ← found_scope lookup organization "";
              of_project ← (if is_empty project then mret [] else found_scope lookup organization project : R (list Scope));
              let scopes := of_organization ++ of_project in
              match scopes with
              | [] => fail (project_error ErrorScopeNotFound "no bucket scope configured for organization %q project %q")
              | _ =>
                  match last (filter (λ b, b ≠ "") (TrimSpace ∘ s_Bucket <$> scopes)) with
                  | None => fail (project_error ErrorInvalidInput "unable to resolve scoped storage bucket for organization %q project %q")
                  | Some bucket =>
                      credential ← credentialForBucket bucket;
                      if negb (String.eqb (NormalizeProvider (c_Provider credential) S3Provider) S3Provider)
                      then fail (project_error ErrorProjectUnsupported "provider %q is not supported for scoped bucket listing")
                      else
                        let prefixes := normalizedPrefixes scopes in
                        mret (mkTarget S3Provider bucket (Join prefixes "/") prefixes credential)
                  end
              end
          end
    end.

(** ** service.go: inventory *)
Definition or_value (value fallback : string) : string := if is_empty value then fallback else value.
Definition inventory_item (bucket : string) (metadata : ObjectMetadata) : option StorageObject :=
  let key := Trim (TrimSpace (om_Key metadata)) "/" in
  if is_empty key then None
  else Some (mkStorageObject (BucketToURL bucket key) (or_value (TrimSpace (om_Provider metadata)) S3Provider)
               (or_value (TrimSpace (om_Bucket metadata)) bucket) key (or_value (TrimSpace (om_Path metadata)) (filepath_Base key))
               (om_SizeBytes metadata) (TrimSpace (om_MetaSHA256 metadata)) (TrimSpace (om_ETag metadata)) (om_LastModified metadata)).
(** The items come with the error. *)
Definition inventoryObjects (bucket prefix : string) (options : InventoryOptions) : R (list StorageObject * option error) :=
  match pp_Inventory with
  | None => mret ([], Some (project_error ErrorProjectUnsupported "storage inventory is not configured"))
  | Some inventory =>
      '(result, failed) ← call (inventory (mkInventoryRequest (mkPrefixTarget bucket prefix) (io_IncludeHead options)
                                            (io_ExactPrefix options) (io_MaxKeys options)));
      let items := omap (inventory_item bucket) (iv_Items result) in
      mret (items, match failed with
                   | Some e => Some (mapStorageError e "inventory")
                   | None => if iv_Complete result then None
                             else Some (project_error ErrorListingIncomplete "provider returned an incomplete listing for s3://%s/%s")
                   end)
  end.
Definition normalizeMode (mode : InspectionMode) : InspectionMode :=
  match mode with ModeExists => ModeExists | ModeSummary => ModeSummary | _ => ModeItems end.
Definition normalize_object (target_bucket : string) (item : StorageObject) : StorageObject :=
  let key := Trim (TrimSpace (so_Key item)) "/" in
  mkStorageObject (BucketToURL target_bucket key) S3Provider target_bucket key
    (if is_empty (TrimSpace (so_Path item)) then filepath_Base key else so_Path item)
    (so_SizeBytes item) (so_MetaSHA256 item) (so_ETag item) (so_LastModTime item).
Definition normalizeObjects (items : list StorageObject) (target_bucket : string) : list StorageObject :=
  sort_Slice (λ a b, String.ltb (so_Key a) (so_Key b)) (normalize_object target_bucket <$> items).
Definition summarize (now : Z) (items : list StorageObject) (target : scopeTarget) (mode : InspectionMode) (complete : bool)
    (warning : string) : StorageSummary :=
  let prefix := Trim (TrimSpace (tg_Prefix target)) "/" in
  mkStorageSummary (tg_Provider target) (tg_Bucket target) prefix (BucketToURL (tg_Bucket target) prefix)
    (negb (bool_decide (items = []))) (length items) (foldl (λ total item, wrap64 (total + so_SizeBytes item)) 0%Z items) now mode
    complete warning.
Definition InspectProjectStorage' (now : Z) (organization project : string) (options : InspectionOptions) : R InspectionResult :=
  target ← resolveScope organization project "read";
  let target := withPathPrefix target (in_PathPrefix options) in
  let mode := normalizeMode (in_Mode options) in
  '(items, failed) ← inventoryObjects (tg_Bucket target) (tg_Prefix target)
     (mkInventoryOptions (in_IncludeHead options) false (match mode with ModeExists => 1 | _ => 0 end));
  let answer complete warning :=
    let normalized := normalizeObjects items (tg_Bucket target) in
    mret (mkInspectionResult (summarize now normalized target mode complete warning)
            (match mode with ModeItems => normalized | _ => [] end)) in
  match failed with
  | None => answer true ""
  | Some e =>
      match items, as_project e with
      | _ :: _, Some (kind, _) =>
          if String.eqb kind ErrorListingIncomplete then answer false (safeStorageErrorMessage e "inventory") else fail e
      | _, _ => fail e
      end
  end.
Definition InspectProjectStorage (now : Z) (organization project : string) (options : InspectionOptions) : service S InspectionResult :=
  with_request_cache (InspectProjectStorage' now organization project options).
Definition ListObjects (now : Z) (organization project : string) (includeHead : bool) : service S (list StorageObject) :=
  result ← InspectProjectStorage now organization project (mkInspectionOptions ModeItems includeHead "");
  mret (ins_Items result).
Definition ResolvePathPrefix (organization project requestPrefix : string) : service S string :=
  with_request_cache (target ← resolveScope organization project "read";
                      mret (Trim (TrimSpace (tg_Prefix (withPathPrefix target requestPrefix))) "/")).

(** ** probe.go *)
Definition trimLeadingStoragePrefix (key prefix : string) : string :=
  let key := Trim (TrimSpace key) "/" in
  let prefix := Trim (TrimSpace prefix) "/" in
  if String.eqb key prefix then "" else TrimPrefix key (prefix +:+ "/").
Definition normalizeScopedStorageKey (prefix key : string) (scopePrefixes : list string) : string :=
  let prefix := Trim (TrimSpace prefix) "/" in
  let key := Trim (TrimSpace key) "/" in
  match scopePrefixes with
  | _ :: _ =>
      let key := foldl trimLeadingStoragePrefix key scopePrefixes in
      if is_empty prefix then key else if is_empty key then prefix else path_Join [prefix; key]
  | [] => if is_empty prefix || String.eqb key prefix || HasPrefix key (prefix +:+ "/") then key else path_Join [prefix; key]
  end.
Definition probeStorage (bucket key : string) : R ObjectMetadata :=
  match pp_Probe with
  | None => fail (project_error ErrorProjectUnsupported "storage probe is not configured")
  | Some probe =>
      results ← call (probe [mkProbeTarget "object" (mkObjectTarget bucket key)]);
      match results with
      | [] => fail (project_error ErrorBucketUnavailable "storage probe returned no result")
      | result :: _ =>
          match sp_Err result with
          | Some e => fail (mapStorageError e "probe")
          | None =>
              let m := sp_Metadata result in
              mret (mkObjectMetadata (TrimSpace (om_Provider m)) (TrimSpace (om_Bucket m)) (TrimSpace (om_Key m)) (TrimSpace (om_Path m))
                      (om_SizeBytes m) (TrimSpace (om_MetaSHA256 m)) (TrimSpace (om_ETag m)) (om_LastModified m))
          end
      end
  end.
(** The metadata at its place. *)
Definition at_place (bucket key : string) (m : ObjectMetadata) : ProbeMetadata :=
  mkProbeMetadata (BucketToURL bucket key)
    (mkObjectMetadata S3Provider bucket key (or_value (om_Path m) (filepath_Base key)) (om_SizeBytes m) (om_MetaSHA256 m) (om_ETag m)
       (om_LastModified m)).
Definition inspectRaw (request : InspectRequest) : R ProbeMetadata :=
  match ParseS3URL (TrimSpace (iq_ObjectURL request)) with
  | None => fail (project_error ErrorInvalidInput "object_url must be a valid s3://bucket/key URL")
  | Some (bucket, key) =>
      credential ← credentialForBucket bucket;
      visible ← visibleBuckets;
      if negb (VisibleToCaller visible bucket (c_CredentialID credential))
      then fail (project_error ErrorPermissionDenied "bucket %q is not visible to the caller")
      else if negb (String.eqb (NormalizeProvider (c_Provider credential) S3Provider) S3Provider)
      then fail (project_error ErrorProjectUnsupported "provider %q is not supported for server-backed add-url inspection")
      else m ← probeStorage bucket key; mret (at_place bucket key m)
  end.
Definition inspectScoped (request : InspectRequest) : R ProbeMetadata :=
  let organization := TrimSpace (iq_Organization request) in
  let project := TrimSpace (iq_Project request) in
  let key := Trim (TrimSpace (iq_Key request)) "/" in
  if is_empty organization then fail (project_error ErrorInvalidInput "organization is required for scoped object inspection")
  else if is_empty key then fail (project_error ErrorInvalidInput "key is required for scoped object inspection")
  else
    let scheme := or_value (ToLower (TrimSpace (iq_Scheme request))) S3Provider in
    if negb (String.eqb (ProviderFromScheme scheme) S3Provider) && negb (String.eqb scheme S3Provider)
    then fail (project_error ErrorProjectUnsupported "provider scheme %q is not supported for server-backed add-url inspection")
    else
      target ← resolveScope organization project "read";
      let key := normalizeScopedStorageKey (tg_Prefix target) key (tg_prefixes target) in
      m ← probeStorage (tg_Bucket target) key;
      mret (at_place (tg_Bucket target) key m).
Definition probe_object (request : InspectRequest) : R ProbeMetadata :=
  if negb (is_empty (TrimSpace (iq_ObjectURL request))) then inspectRaw request else inspectScoped request.
Definition ProbeObject (request : InspectRequest) : service S ProbeMetadata := with_request_cache (probe_object request).

Definition classifyError (e : error) : ProbeStatus * string :=
  match as_project e with
  | Some (kind, _) =>
      let status :=
        if String.eqb kind ErrorObjectNotFound then ProbeNotFound
        else if String.eqb kind ErrorPermissionDenied || String.eqb kind ErrorBucketUnavailable then ProbeForbidden
        else if String.eqb kind ErrorInvalidInput || String.eqb kind ErrorScopeNotFound || String.eqb kind ErrorCredentialMissing
        then ProbeInvalid
        else if String.eqb kind ErrorProjectUnsupported then ProbeUnsupported else ProbeError in
      (status, kind)
  | None => match as_operation e with
            | Some (kind, _) => (ProbeError, OperationError_ErrorCode kind)
            | None => (ProbeError, "error")
            end
  end.
Definition expected_sha (request : InspectRequest) : string :=
  ToLower (TrimSpace (TrimPrefix (iq_ExpectedSHA256 request) "sha256:")).
Definition nothing_expected (request : InspectRequest) : bool :=
  negb (bool_decide (is_Some (iq_ExpectedSizeBytes request))) && is_empty (TrimSpace (iq_ExpectedSHA256 request)).
Definition validationStatusForError (request : InspectRequest) : ValidationStatus :=
  if nothing_expected request then ValidationNotRequested else ValidationUnverifiable.
(** [metadata] by its size and checksum. *)
Definition validateProbe (request : InspectRequest) (size : Z) (meta_sha : string)
  : ValidationStatus * option bool * option bool * list string :=
  if nothing_expected request then (ValidationNotRequested, None, None, [])
  else
    let sizeMatch := (λ expected, (size =? expected)%Z) <$> iq_ExpectedSizeBytes request in
    let mismatches := match sizeMatch with Some false => ["size_mismatch"] | _ => [] end in
    let judge shaMatch mismatches :=
      (match mismatches with [] => ValidationMatched | _ => ValidationMismatched end, sizeMatch, shaMatch, mismatches) in
    let expectedSHA := expected_sha request in
    if is_empty expectedSHA then judge None mismatches
    else if is_empty (TrimSpace meta_sha) then (ValidationUnverifiable, sizeMatch, None, mismatches ++ ["missing_remote_sha256"])
    else
      let matched := EqualFold (TrimSpace meta_sha) expectedSHA in
      judge (Some matched) (if matched then mismatches else mismatches ++ ["sha256_mismatch"]).
Definition with_validation (v : ValidationStatus * option bool * option bool * list string) (r : ProbeResult) : ProbeResult :=
  let '(status, sizeMatch, shaMatch, mismatches) := v in
  mkProbeResult (pb_ID r) (pb_ObjectURL r) (pb_Metadata r) (pb_Status r) (pb_Error r) (pb_ErrorKind r) status sizeMatch shaMatch mismatches.
Definition probeCacheKey (request : InspectRequest) : string :=
  Join [TrimSpace (iq_ObjectURL request); TrimSpace (iq_Organization request); TrimSpace (iq_Project request);
        TrimSpace (iq_Key request); TrimSpace (iq_Scheme request);
        from_option pretty "" (iq_ExpectedSizeBytes request); expected_sha request] "|".
Definition probed_size (r : ProbeResult) : Z := from_option (om_SizeBytes ∘ md_Object) 0%Z (pb_Metadata r).
Definition probed_sha (r : ProbeResult) : string := from_option (om_MetaSHA256 ∘ md_Object) "" (pb_Metadata r).
(** The answer from the cache. *)
Definition recall (request : InspectRequest) (r : ProbeResult) : ProbeResult :=
  with_validation (validateProbe request (probed_size r) (probed_sha r))
    (mkProbeResult (TrimSpace (iq_ID request)) (or_value (pb_ObjectURL r) (TrimSpace (iq_ObjectURL request))) (pb_Metadata r) (pb_Status r)
       (pb_Error r) (pb_ErrorKind r) (pb_ValidationStatus r) (pb_SizeMatch r) (pb_SHA256Match r) (pb_ValidationMismatches r)).
(** The answer from the storage. *)
Definition probe_result (request : InspectRequest) (found : result error ProbeMetadata) : ProbeResult :=
  match found with
  | Err e =>
      let '(status, kind) := classifyError e in
      mkProbeResult (TrimSpace (iq_ID request)) (TrimSpace (iq_ObjectURL request)) None status (safeStorageErrorMessage e "probe") kind
        (validationStatusForError request) None None []
  | Ok m =>
      with_validation (validateProbe request (om_SizeBytes (md_Object m)) (om_MetaSHA256 (md_Object m)))
        (mkProbeResult (TrimSpace (iq_ID request)) (md_ObjectURL m) (Some m) ProbePresent "" "" ValidationNotRequested None None [])
  end.
Definition probeOne (request : InspectRequest) : R ProbeResult :=
  let key := probeCacheKey request in
  cache ← get_cache;
  match rc_probes cache !! key with
  | Some cached => mret (recall request cached)
  | None =>
      found ← attempt (probe_object request);
      let result := probe_result request found in
      _ ← put_cache (set_probe key result);
      mret result
  end.
(** The workers take the requests in the order of [schedule]; each answer goes to the place of its request. *)
Definition ProbeObjects (schedule : list nat) (requests : list InspectRequest) : service S (gmap nat ProbeResult) :=
  with_request_cache (foldl (λ acc i,
    results ← acc;
    match requests !! i with
    | Some request => result ← probeOne request; mret (<[i := result]> results)
    | None => mret results
    end) (mret ∅) schedule).

(** ** deletion.go *)
Record deleteCandidate := mkCandidate { dc_provider : string; dc_bucket : string; dc_key : string }.
(** [None]: not a location that can be deleted. *)
Definition parseDeleteURL (raw : string) : R (option deleteCandidate) :=
  match url_Parse (TrimSpace raw) with
  | None => fail (EWrap "parse access url %q: %w" (EText "url.Parse"))
  | Some parsed =>
      let provider := ProviderFromScheme (url_Scheme parsed) in
      let bucket := TrimSpace (url_Host parsed) in
      let key := Trim (TrimSpace (url_Path parsed)) "/" in
      if is_empty provider || is_empty bucket || is_empty key then mret None
      else
        found ← attempt (credentialForBucket bucket);
        match found with
        | Err e => fail (EWrap "lookup credential for bucket %s: %w" e)
        | Ok credential =>
            let provider := if String.eqb provider S3Provider then NormalizeProvider (c_Provider credential) provider else provider in
            mret (Some (mkCandidate provider bucket key))
        end
  end.
Definition targetAllowed (candidate : deleteCandidate) (target : scopeTarget) : bool :=
  if negb (String.eqb (NormalizeProvider (dc_provider candidate) S3Provider) S3Provider)
     || negb (EqualFold (dc_bucket candidate) (tg_Bucket target)) then false
  else
    let key := Trim (TrimSpace (dc_key candidate)) "/" in
    let prefix := Trim (TrimSpace (tg_Prefix target)) "/" in
    if is_empty prefix then negb (is_empty key) else String.eqb key prefix || HasPrefix key (prefix +:+ "/").
Definition uniqueURLs (values : list string) : list string := dedup (filter (.≠ "") (TrimSpace <$> values)).
Definition delete_one (target : scopeTarget) (objectURL : string) : R DeleteResult :=
  found ← attempt (parseDeleteURL objectURL);
  match found with
  | Err e => mret (mkDeleteResult objectURL "error" (safeStorageErrorMessage e "delete"))
  | Ok None => mret (mkDeleteResult objectURL "invalid" "object_url must resolve to a deletable storage target")
  | Ok (Some candidate) =>
      if negb (targetAllowed candidate target)
      then mret (mkDeleteResult objectURL "forbidden" "object_url %q is outside configured project bucket scope")
      else
        match pp_DeleteExact with
        | None => mret (mkDeleteResult objectURL "error" "storage deletion is not configured")
        | Some delete =>
            deleted ← attempt (on_state (delete [objectURL]));
            mret (match deleted with
                  | Ok _ => mkDeleteResult objectURL "deleted" ""
                  | Err e => mkDeleteResult objectURL "error" (safeStorageErrorMessage e "delete")
                  end)
        end
  end.
Fixpoint each {A B} (f : A → R B) (l : list A) : R (list B) :=
  match l with [] => mret [] | a :: l => b ← f a; bs ← each f l; mret (b :: bs) end.
Definition DeleteProjectObjects (organization project : string) (objectURLs : list string) : service S (list DeleteResult) :=
  with_request_cache (
    match uniqueURLs objectURLs with
    | [] => mret []
    | unique =>
        found ← attempt (resolveScope organization project "delete");
        match found with
        | Err e => mret ((λ objectURL, mkDeleteResult objectURL "error" (safeStorageErrorMessage e "delete")) <$> unique)
        | Ok target => each (delete_one target) unique
        end
    end).
(** The loop over the bucket scopes; the count of those deleted. *)
Fixpoint delete_scopes (delete : string → string → string → string → service S unit) (organization project : string) (scopes : list Scope)
  : service S nat :=
  match scopes with
  | [] => mret 0
  | scope :: scopes =>
      let credentialID := or_value (TrimSpace (s_CredentialID scope)) (TrimSpace (s_Bucket scope)) in
      if negb (String.eqb (TrimSpace (s_Organization scope)) organization) || negb (String.eqb (TrimSpace (s_ProjectID scope)) project)
         || is_empty credentialID
      then delete_scopes delete organization project scopes
      else
        _ ← delete organization project credentialID (s_PathPrefix scope);
        n ← delete_scopes delete organization project scopes; mret (Datatypes.S n)
  end.
Definition DeleteProjectData (organization project : string) : service S ProjectCleanupResult :=
  let organization := TrimSpace organization in
  let project := TrimSpace project in
  match pp_DeleteBulkByScope, pp_ScopeCatalog with
  | Some delete_objects, Some (list, delete) =>
      deletedObjects ← delete_objects ctx organization project;
      scopes ← ask list;
      deletedScopes ← delete_scopes delete organization project scopes;
      mret (mkCleanupResult organization project deletedObjects deletedScopes)
  | _, _ => fail (project_error ErrorProjectUnsupported "project cleanup dependencies are not configured")
  end.

(** ** list_validation.go *)
Definition maxProbeWorkers : nat := 8.
Definition listCoalesceThreshold : nat := 25.
Definition listFallbackObjectLimit : nat := 5000.
Record validationWork := mkWork { wk_bucket : string; wk_key : string; wk_base : ListValidationResult; wk_requestIndexes : list nat }.
Definition validationErrorStatus (request : ListValidationRequest) : ValidationStatus :=
  if negb (bool_decide (is_Some (lr_ExpectedSizeBytes request))) && is_empty (TrimSpace (lr_ExpectedName request))
  then ValidationNotRequested else ValidationUnverifiable.
(** A result for the request, that names what went wrong. *)
Definition refused_result (request : ListValidationRequest) (place : string * string * string * string) (status : ProbeStatus)
    (kind message : string) : ListValidationResult :=
  let '(provider, bucket, key, path) := place in
  mkValidationResult (TrimSpace (lr_ID request)) (TrimSpace (lr_ObjectURL request)) provider bucket key path false status message kind
    None "" None (validationErrorStatus request) None None [].
Definition validationTarget (request : ListValidationRequest) (index : nat) (visible : result error (gmap string VisibleBucket))
  : R (ListValidationResult + validationWork) :=
  match ParseS3URL (lr_ObjectURL request) with
  | None => mret (inl (refused_result request ("", "", "", "") ProbeInvalid ErrorInvalidInput
                         "object_url must be a valid s3://bucket/key URL"))
  | Some (bucket, key) =>
      let place := (S3Provider, bucket, key, filepath_Base key) in
      let refuse e message := mret (inl (refused_result request place (classifyError e).1 (classifyError e).2 message)) in
      found ← attempt (credentialForBucket bucket);
      match found, visible with
      | Err e, _ => refuse e (safeStorageErrorMessage e "inventory")
      | Ok _, Err e => refuse e (safeStorageErrorMessage e "inventory")
      | Ok credential, Ok visible =>
          if negb (VisibleToCaller visible bucket (c_CredentialID credential))
          then refuse (project_error ErrorPermissionDenied "bucket %q is not visible to the caller") "bucket %q is not visible to the caller"
          else
            let base := mkValidationResult (TrimSpace (lr_ID request)) (TrimSpace (lr_ObjectURL request)) S3Provider bucket key
                          (filepath_Base key) false ProbeError "" "" None "" None ValidationNotRequested None None [] in
            mret (inr (mkWork bucket key base [index]))
      end
  end.
Definition validationTargetKey (bucket key : string) : string := TrimSpace bucket +:+ nul +:+ Trim (TrimSpace key) "/".
Definition path_Dir (p : string) : string :=
  match last (Split slash p) with Some base => path_Clean (TrimSuffix p base) | None => path_Clean p end.
Definition validationDirectoryPrefix (key : string) : string :=
  let directory := Trim (TrimSpace (path_Dir (Trim key "/"))) "/" in
  if String.eqb directory "." || is_empty directory then "" else directory +:+ "/".
Definition group_key (work : validationWork) : string := TrimSpace (wk_bucket work) +:+ nul +:+ validationDirectoryPrefix (wk_key work).
Definition groupValidationTargets (workByTarget : gmap string validationWork) : gmap string (list validationWork) :=
  foldl (λ groups '(_, work), <[group_key work := default [] (groups !! group_key work) ++ [work]]> groups) ∅ (go_range workByTarget).
(** What the evidence says so far: the outcomes, the objects found, and the targets that are open. *)
Record evidence := mkEvidence {
  ev_outcomes : gmap string ListValidationResult; ev_matched : gmap string StorageObject; ev_unresolved : gmap string validationWork }.
Definition outcome_of (base : ListValidationResult) (exists_ : bool) (status : ProbeStatus) (kind message : string) : ListValidationResult :=
  mkValidationResult (lv_ID base) (lv_ObjectURL base) (lv_Provider base) (lv_Bucket base) (lv_Key base) (lv_Path base) exists_ status
    message kind (lv_SizeBytes base) (lv_ETag base) (lv_LastModTime base) (lv_ValidationStatus base) (lv_SizeMatch base)
    (lv_NameMatch base) (lv_ValidationMismatches base).
Definition not_found_outcome (work : validationWork) : ListValidationResult :=
  outcome_of (wk_base work) false ProbeNotFound ErrorObjectNotFound "object %q was not found".
Definition coalesce_item (requested : gmap string validationWork) (bucket : string) (acc : evidence) (item : StorageObject) : evidence :=
  let key := validationTargetKey bucket (so_Key item) in
  match requested !! key with
  | None => acc
  | Some work =>
      mkEvidence (<[key := outcome_of (wk_base work) true ProbePresent "" ""]> (ev_outcomes acc))
        (<[key := normalize_object (wk_bucket work) item]> (ev_matched acc)) (delete key (ev_unresolved acc))
  end.
Definition runCoalescedValidation (group : list validationWork) (acc : evidence) : R evidence :=
  match group with
  | [] => mret acc
  | first :: _ =>
      let requested := foldl (λ m work, <[validationTargetKey (wk_bucket work) (wk_key work) := work]> m)
                         (∅ : gmap string validationWork) group in
      '(items, failed) ← inventoryObjects (wk_bucket first) (validationDirectoryPrefix (wk_key first)) (mkInventoryOptions false true 0);
      mret (match failed with
            | Some _ => acc
            | None => if (listFallbackObjectLimit <? length items)%nat then acc
                      else foldl (coalesce_item requested (wk_bucket first)) acc items
            end)
  end.
(** The workers share nothing but the maps, which they change at their own key. *)
Definition validate_exactly (acc : evidence) (key : string) : R evidence :=
  match ev_unresolved acc !! key with
  | None => mret acc
  | Some work =>
      '(items, failed) ← inventoryObjects (wk_bucket work) (wk_key work) (mkInventoryOptions false true 1);
      mret (match failed with
            | Some e =>
                let '(status, kind) := classifyError e in
                mkEvidence (<[key := outcome_of (wk_base work) false status kind (safeStorageErrorMessage e "inventory")]> (ev_outcomes acc))
                  (ev_matched acc) (ev_unresolved acc)
            | None =>
                match list_find (λ item, String.eqb (Trim (TrimSpace (so_Key item)) "/") (wk_key work) = true) items with
                | None => mkEvidence (<[key := not_found_outcome work]> (ev_outcomes acc)) (ev_matched acc) (ev_unresolved acc)
                | Some (_, item) =>
                    mkEvidence (<[key := wk_base work]> (ev_outcomes acc))
                      (<[key := normalize_object (wk_bucket work) item]> (ev_matched acc)) (ev_unresolved acc)
                end
            end)
  end.
Fixpoint fold_over {A B} (f : B → A → R B) (b : B) (l : list A) : R B :=
  match l with [] => mret b | a :: l => b ← f b a; fold_over f b l end.
Definition runExactValidation (acc : evidence) : R evidence :=
  fold_over validate_exactly acc (sort_Strings (go_range (ev_unresolved acc)).*1).
Definition validateInventory (request : ListValidationRequest) (item : StorageObject)
  : ValidationStatus * option bool * option bool * list string :=
  if negb (bool_decide (is_Some (lr_ExpectedSizeBytes request))) && is_empty (TrimSpace (lr_ExpectedName request))
  then (ValidationNotRequested, None, None, [])
  else
    let sizeMatch := (λ expected, (so_SizeBytes item =? expected)%Z) <$> lr_ExpectedSizeBytes request in
    let expectedName := TrimSpace (lr_ExpectedName request) in
    let nameMatch := if is_empty expectedName then None else Some (String.eqb (filepath_Base (so_Key item)) expectedName) in
    let mismatches := (match sizeMatch with Some false => ["size_mismatch"] | _ => [] end)
                      ++ (match nameMatch with Some false => ["name_mismatch"] | _ => [] end) in
    (match mismatches with [] => ValidationMatched | _ => ValidationMismatched end, sizeMatch, nameMatch, mismatches).
Definition presentValidationResult (request : ListValidationRequest) (base : ListValidationResult) (item : StorageObject)
  : ListValidationResult :=
  let '(status, sizeMatch, nameMatch, mismatches) := validateInventory request item in
  mkValidationResult (lv_ID base) (so_ObjectURL item) (lv_Provider base) (lv_Bucket base) (so_Key item) (so_Path item) true ProbePresent
    "" "" (Some (so_SizeBytes item)) (TrimSpace (so_ETag item)) (so_LastModTime item) status sizeMatch nameMatch mismatches.
(** The result of one request from the evidence on its target. *)
Definition for_request (request : ListValidationRequest) (r : ListValidationResult) : ListValidationResult :=
  mkValidationResult (TrimSpace (lr_ID request)) (TrimSpace (lr_ObjectURL request)) (lv_Provider r) (lv_Bucket r) (lv_Key r) (lv_Path r)
    (lv_Exists r) (lv_Status r) (lv_Error r) (lv_ErrorKind r) (lv_SizeBytes r) (lv_ETag r) (lv_LastModTime r) (lv_ValidationStatus r)
    (lv_SizeMatch r) (lv_NameMatch r) (lv_ValidationMismatches r).
Definition unverified (request : ListValidationRequest) (r : ListValidationResult) : ListValidationResult :=
  mkValidationResult (lv_ID r) (lv_ObjectURL r) (lv_Provider r) (lv_Bucket r) (lv_Key r) (lv_Path r) (lv_Exists r) (lv_Status r)
    (lv_Error r) (lv_ErrorKind r) (lv_SizeBytes r) (lv_ETag r) (lv_LastModTime r) (validationErrorStatus request) (lv_SizeMatch r)
    (lv_NameMatch r) (lv_ValidationMismatches r).
Definition conclude (acc : evidence) (key : string) (work : validationWork) (request : ListValidationRequest) : ListValidationResult :=
  match ev_matched acc !! key with
  | Some item => for_request request (presentValidationResult request (wk_base work) item)
  | None => unverified request (for_request request (default (not_found_outcome work) (ev_outcomes acc !! key)))
  end.
(** The first loop: a result for what is refused, and the work, with the requests of each target. *)
Definition sort_request (visible : result error (gmap string VisibleBucket))
    (acc : gmap nat ListValidationResult * gmap string validationWork) (item : nat * ListValidationRequest)
  : R (gmap nat ListValidationResult * gmap string validationWork) :=
  let '(results, workByTarget) := acc in
  let '(index, request) := item in
  target ← validationTarget request index visible;
  mret (match target with
        | inl refused => (<[index := refused]> results, workByTarget)
        | inr work =>
            let key := validationTargetKey (wk_bucket work) (wk_key work) in
            (results, match workByTarget !! key with
                      | Some existing => <[key := mkWork (wk_bucket existing) (wk_key existing) (wk_base existing)
                                                    (wk_requestIndexes existing ++ [index])]> workByTarget
                      | None => <[key := work]> workByTarget
                      end)
        end).
Definition write_results (requests : list ListValidationRequest) (acc : evidence) (results : gmap nat ListValidationResult)
    (entry : string * validationWork) : gmap nat ListValidationResult :=
  foldl (λ results index, match requests !! index with
                          | Some request => <[index := conclude acc entry.1 entry.2 request]> results
                          | None => results
                          end) results (wk_requestIndexes entry.2).
(** The results by the place of their request. *)
Definition ValidateInventoryObjects (requests : list ListValidationRequest) : service S (gmap nat ListValidationResult) :=
  with_request_cache (
    match requests with
    | [] => mret ∅
    | _ =>
        visible ← attempt visibleBuckets;
        '(results, workByTarget) ← fold_over (sort_request visible) (∅, ∅) (imap pair requests);
        let groups := filter (λ group, (listCoalesceThreshold <= length group)%nat) (go_range (groupValidationTargets workByTarget)).*2 in
        acc ← fold_over (λ acc group, runCoalescedValidation group acc) (mkEvidence ∅ ∅ workByTarget) groups;
        acc ← runExactValidation acc;
        mret (foldl (write_results requests acc) results (go_range workByTarget))
    end).

(** ** project_records.go *)
Definition access_method (method : AccessMethod) : ProjectAccessMethod :=
  mkProjectAccessMethod (TrimSpace (am_Type method)) (from_option TrimSpace "" (am_AccessId method))
    (match am_AccessUrl method with Some u => TrimSpace (au_Url u) | None => "" end)
    (match am_AccessUrl method with Some u => slice (au_Headers u) | None => [] end).
Definition projectRecordFromRecord (record : ObjectRecord) (organization project : string) : option ProjectRecordAudit :=
  match CanonicalSHA256 (slice (r_Checksums record)) with
  | None => None
  | Some checksum =>
      if is_empty (TrimSpace checksum) then None
      else
        let methods := access_method <$> slice (r_AccessMethods record) in
        Some (mkProjectRecord (r_Id record) checksum organization project (from_option TrimSpace "" (r_Name record)) (r_Size record)
                (filter (.≠ "") (pm_URL <$> methods)) methods (r_CreatedTime record) (r_UpdatedTime record))
  end.
Definition storageKeyWithinPrefix (key prefix : string) : bool :=
  let key := Trim (TrimSpace key) "/" in
  let prefix := Trim (TrimSpace prefix) "/" in
  String.eqb key prefix || HasPrefix key (prefix +:+ "/").
Definition url_within (prefix raw : string) : bool :=
  match ParseS3URL raw with Some (_, key) => storageKeyWithinPrefix key prefix | None => false end.
Definition projectRecordMatchesPrefix (record : ProjectRecordAudit) (prefixes : list string) : bool :=
  existsb (λ rawPrefix, let prefix := Trim (TrimSpace rawPrefix) "/" in
    is_empty prefix || existsb (url_within prefix) (pr_AccessURLs record)
    || existsb (url_within prefix) (pm_URL <$> pr_AccessMethods record)) prefixes.
Definition AuditProjectRecords (organization project requestPrefix : string) : service S (list ProjectRecordAudit) :=
  let organization := TrimSpace organization in
  let project := TrimSpace project in
  if is_empty organization || is_empty project
  then fail (project_error ErrorInvalidInput "organization and project are required")
  else
    match pp_ListPhysicalObjectsByScope with
    | None => fail (project_error ErrorProjectUnsupported "physical scope reader is not configured")
    | Some list =>
        records ← ask (list ctx organization project "read");
        let prefix := Trim (TrimSpace requestPrefix) "/" in
        prefixes ← (if is_empty prefix then mret []
                    else resolved ← attempt (ResolvePathPrefix organization project prefix);
                         mret (match resolved with
                               | Ok resolved => if is_empty resolved || EqualFold resolved prefix then [prefix] else [prefix; resolved]
                               | Err _ => [prefix]
                               end) : service S (Datatypes.list string));
        mret (filter (λ item, negb (bool_decide (prefixes = [])) && negb (projectRecordMatchesPrefix item prefixes) = false)
                (omap (λ record, projectRecordFromRecord record organization project) records))
    end.
End project.
