(* ===== verification/ListValidationProperties.v ===== *)
(** * Validation of objects against listings
    A validation of many objects lists a directory once when enough of its objects are asked for, looks the others up
    one by one, and looks up a location once however often it is asked for.  It answers as if every request had been
    looked up by itself. *)
From S2P Require Import Prelude GoStrings GoURL Errors Policy Objects Address Buckets BucketVisibility BucketProperties Targets StorageManager ProjectStorage.

(** ** Clean keys *)
Definition clean_key (k : string) : Prop := k ≠ "" ∧ Trim (TrimSpace k) "/" = k.
Lemma validationTargetKey_inj b k b' k' :
  no_nul b → no_nul b' → clean_key k → clean_key k' → TrimSpace b = b → TrimSpace b' = b' →
  validationTargetKey b k = validationTargetKey b' k' → b = b' ∧ k = k'.
Proof.
  intros Hb Hb' [_ Hk] [_ Hk'] Tb Tb' E. unfold validationTargetKey in E. rewrite Tb, Tb', Hk, Hk' in E.
  pose proof (Cut_app _ _ "" k Hb) as H. pose proof (Cut_app _ _ "" k' Hb') as H'.
  change (String nul_char "") with nul in H, H'. rewrite E, H' in H. by injection H as -> ->.
Qed.
Lemma ParseS3URL_trimmed raw b k : ParseS3URL raw = Some (b, k) → TrimSpace b = b ∧ b ≠ "".
Proof.
  unfold ParseS3URL. destruct (url_Parse _) as [u|]; [|done]. simpl. destruct (negb _); [done|].
  destruct (is_empty (TrimSpace (url_Host u)) || is_empty (TrimSpace (TrimPrefix (url_Path u) "/"))) eqn:E; [done|]. intros [= <- <-].
  apply orb_false_iff in E as [E _]. split; [apply TrimSpace_idemp|by apply is_empty_false].
Qed.
Lemma HasPrefix_refl k : HasPrefix k k = true.
Proof. apply HasPrefix_true. exists "". by rewrite string_app_nil_r. Qed.

Section validation.
Context `{MapOrder} {S : Type} `{!ProjectPorts S} (ctx : context).

(** ** One request *)
Definition place_of (request : ListValidationRequest) : option (string * string) := ParseS3URL (lr_ObjectURL request).
Definition refuse_with (request : ListValidationRequest) (place : string * string) (e : error) (message : string) : ListValidationResult :=
  refused_result request (S3Provider, place.1, place.2, filepath_Base place.2) (classifyError e).1 (classifyError e).2 message.
Definition base_of (request : ListValidationRequest) (place : string * string) : ListValidationResult :=
  mkValidationResult (TrimSpace (lr_ID request)) (TrimSpace (lr_ObjectURL request)) S3Provider place.1 place.2
    (filepath_Base place.2) false ProbeError "" "" None "" None ValidationNotRequested None None [].
(** The refusal of a request, or its location. *)
Definition target_of (request : ListValidationRequest) (visible : result error (gmap string VisibleBucket)) (s : S)
  : ListValidationResult + (string * string) :=
  match place_of request with
  | None => inl (refused_result request ("", "", "", "") ProbeInvalid ErrorInvalidInput "object_url must be a valid s3://bucket/key URL")
  | Some place =>
      match lookup_credential place.1 s, visible with
      | Err e, _ | Ok _, Err e => inl (refuse_with request place e (safeStorageErrorMessage e "inventory"))
      | Ok credential, Ok visible =>
          if negb (VisibleToCaller visible place.1 (c_CredentialID credential))
          then inl (refuse_with request place (project_error ErrorPermissionDenied "bucket %q is not visible to the caller")
                      "bucket %q is not visible to the caller")
          else inr place
      end
  end.
(** ** The cache of credentials *)
Definition same_case (requests : list ListValidationRequest) : Prop :=
  ∀ r r' p p', r ∈ requests → r' ∈ requests → place_of r = Some p → place_of r' = Some p' →
    credential_key p.1 = credential_key p'.1 → p.1 = p'.1.
Definition cache_of (requests : list ListValidationRequest) (s : S) (c : requestCache) : Prop :=
  ∀ k found, rc_credentials c !! k = Some found →
    ∃ r p, r ∈ requests ∧ place_of r = Some p ∧ credential_key p.1 = k ∧ found = lookup_credential p.1 s.
Lemma credentialForBucket_cached requests s c r p :
  same_case requests → cache_of requests s c → r ∈ requests → place_of r = Some p →
  ∃ c', credentialForBucket p.1 (s, c) = ((s, c'), lookup_credential p.1 s) ∧ cache_of requests s c'.
Proof using.
  intros Hcase Hc Hr Hp. destruct p as [b k]. destruct (ParseS3URL_trimmed _ _ _ Hp) as [Tb Hne]. simpl.
  unfold credentialForBucket. rewrite Tb, (proj2 (is_empty_false b)) by done. unfold mbind, service_bind, get_cache. simpl.
  destruct (rc_credentials c !! credential_key b) as [found|] eqn:E.
  - exists c. destruct (Hc _ _ E) as (r' & p' & Hr' & Hp' & Hk & ->).
    assert (p'.1 = b) as -> by (apply (Hcase r' r p' (b, k)); done). done.
  - eexists. split; [reflexivity|]. intros k' found. unfold set_credential. simpl. destruct (decide (credential_key b = k')) as [<-|Hk].
    + rewrite lookup_insert_eq. intros [= <-]. by exists r, (b, k).
    + rewrite lookup_insert_ne by done. apply Hc.
Qed.
Lemma validationTarget_spec requests visible i s c r :
  same_case requests → cache_of requests s c → r ∈ requests →
  ∃ c', validationTarget r i visible (s, c) =
    ((s, c'), Ok (match target_of r visible s with
                  | inl refused => inl refused
                  | inr place => inr (mkWork place.1 place.2 (base_of r place) [i])
                  end)) ∧ cache_of requests s c'.
Proof using.
  intros Hcase Hc Hr. unfold validationTarget, target_of. change (ParseS3URL (lr_ObjectURL r)) with (place_of r).
  destruct (place_of r) as [[b k]|] eqn:Hp; [|by exists c].
  destruct (credentialForBucket_cached requests s c r (b, k) Hcase Hc Hr Hp) as (c' & E & Hc'). simpl in E.
  exists c'. split; [|done]. unfold mbind, service_bind, attempt. rewrite E. simpl.
  destruct (lookup_credential b s) as [credential|e]; [|done]. destruct visible as [visible|e]; [|done].
  by destruct (negb _).
Qed.

(** ** The requests by their targets *)
Lemma fold_over_snoc {A B} (f : B → A → service (S * requestCache) B) b l a st :
  fold_over f b (l ++ [a]) st = (b' ← fold_over f b l; f b' a) st.
Proof using.
  revert b st. induction l as [|x l IH]; intros b st; simpl; unfold mbind, service_bind.
  - unfold mret, service_ret. by destruct (f b a st) as [st' [b'|e]].
  - destruct (f b x st) as [st' [b'|e]]; [apply IH|done].
Qed.
Lemma imap_pair_snoc {A} (l : list A) a : imap pair (l ++ [a]) = imap pair l ++ [(length l, a)].
Proof using. rewrite imap_app. simpl. by rewrite Nat.add_0_r. Qed.

Definition key_of (place : string * string) : string := validationTargetKey place.1 place.2.
Section sorting.
Context (s : S) (visible : result error (gmap string VisibleBucket)).
Local Abbreviation target r := (target_of r visible s).
(** The results and the work after the requests [pre]. *)
Record sorted_out (pre : list ListValidationRequest) (results : gmap nat ListValidationResult) (work : gmap string validationWork) : Prop := {
  so_refused i x : results !! i = Some x ↔ ∃ r, pre !! i = Some r ∧ target r = inl x;
  so_work k w : work !! k = Some w → ∃ r place, r ∈ pre ∧ target r = inr place ∧ key_of place = k ∧
    wk_bucket w = place.1 ∧ wk_key w = place.2 ∧ wk_base w = base_of r place;
  so_indexes k w i : work !! k = Some w → i ∈ wk_requestIndexes w ↔ ∃ r place, pre !! i = Some r ∧ target r = inr place ∧ key_of place = k;
  so_total r place : r ∈ pre → target r = inr place → is_Some (work !! key_of place) }.
Lemma lookup_snoc {A} (pre : list A) r i x : (pre ++ [r]) !! i = Some x ↔ pre !! i = Some x ∨ i = length pre ∧ x = r.
Proof using.
  rewrite lookup_app_Some, list_lookup_singleton_Some. split; [|intros [?|[-> ->]]; [by left|right; split; [done|split; [lia|done]]]].
  intros [?|[? [? ->]]]; [by left|right; split; [lia|done]].
Qed.
Lemma lookup_not_length {A} (pre : list A) x : pre !! length pre = Some x → False.
Proof using. intros ?%lookup_lt_Some. lia. Qed.
Lemma sort_step pre r results work :
  sorted_out pre results work →
  let '(results', work') := match target r with
    | inl refused => (<[length pre := refused]> results, work)
    | inr place =>
        (results, match work !! key_of place with
                  | Some existing => <[key_of place := mkWork (wk_bucket existing) (wk_key existing) (wk_base existing)
                                                         (wk_requestIndexes existing ++ [length pre])]> work
                  | None => <[key_of place := mkWork place.1 place.2 (base_of r place) [length pre]]> work
                  end)
    end in sorted_out (pre ++ [r]) results' work'.
Proof using.
  intros [Hr Hw Hi Ht]. destruct (target r) as [refused|place] eqn:E.
  - split.
    + intros i x. destruct (decide (length pre = i)) as [<-|Hne].
      * rewrite lookup_insert_eq. split; [intros [= <-]; exists r; split; [apply lookup_snoc; by right|done]|].
        intros (r' & [?%lookup_not_length|[_ ->]]%lookup_snoc & E'); [done|congruence].
      * rewrite lookup_insert_ne, Hr by done. split; intros (r' & Hl & E'); exists r'; (split; [|done]).
        -- apply lookup_snoc. by left. -- apply lookup_snoc in Hl as [?|[? _]]; [done|congruence].
    + intros k w (r' & place & Hin & Hrest)%Hw. exists r', place. split; [apply elem_of_app; by left|done].
    + intros k w i Hk. rewrite (Hi k w i Hk). split; intros (r' & place & Hl & Ht' & Hp); exists r', place; (split; [|done]).
      * apply lookup_snoc. by left. * apply lookup_snoc in Hl as [?|[_ ->]]; [done|congruence].
    + intros r' place [Hin| ->%list_elem_of_singleton]%elem_of_app Ht'; [by apply (Ht r')|congruence].
  - set (work' := match work !! key_of place with Some _ => _ | None => _ end).
    assert (∀ k, key_of place ≠ k → work' !! k = work !! k) as Hother.
    { intros k Hk. unfold work'. destruct (work !! key_of place); by rewrite lookup_insert_ne. }
    assert (∃ w', work' !! key_of place = Some w' ∧ (length pre ∈ wk_requestIndexes w') ∧
      (∀ i, i ∈ wk_requestIndexes w' ↔ i = length pre ∨ ∃ w, work !! key_of place = Some w ∧ i ∈ wk_requestIndexes w) ∧
      (∃ r0 place0, r0 ∈ pre ++ [r] ∧ target r0 = inr place0 ∧ key_of place0 = key_of place ∧
        wk_bucket w' = place0.1 ∧ wk_key w' = place0.2 ∧ wk_base w' = base_of r0 place0)) as (w' & Ew' & Hin' & Hidx & Hplace).
    { unfold work'. destruct (work !! key_of place) as [w|] eqn:Ek; rewrite lookup_insert_eq; eexists; (split; [reflexivity|]); cbn.
      - split_and!; [set_solver|set_solver|]. destruct (Hw _ _ Ek) as (r0 & place0 & Hin & Hrest). exists r0, place0.
        split; [apply elem_of_app; by left|done].
      - split_and!; [set_solver|set_solver|]. exists r, place. split_and!; try done. apply elem_of_app. right. by apply list_elem_of_singleton. }
    split.
    + intros i x. rewrite Hr. split; intros (r' & Hl & E'); exists r'; (split; [|done]).
      * apply lookup_snoc. by left. * apply lookup_snoc in Hl as [?|[_ ->]]; [done|congruence].
    + intros k w Hk. destruct (decide (key_of place = k)) as [<-|Hne].
      * rewrite Ew' in Hk. injection Hk as <-. destruct Hplace as (r0 & place0 & ?). by exists r0, place0.
      * rewrite Hother in Hk by done. destruct (Hw _ _ Hk) as (r0 & place0 & Hin & Hrest). exists r0, place0.
        split; [apply elem_of_app; by left|done].
    + intros k w i Hk. destruct (decide (key_of place = k)) as [<-|Hne].
      * rewrite Ew' in Hk. injection Hk as <-. rewrite Hidx. split.
        -- intros [->|(w & Hw' & Hin)]; [exists r, place; split; [apply lookup_snoc; by right|done]|].
           apply (Hi _ _ _ Hw') in Hin as (r' & place' & Hl & ?). exists r', place'. split; [apply lookup_snoc; by left|done].
        -- intros (r' & place' & [Hl|[-> ->]]%lookup_snoc & Ht' & Hk'); [right|by left].
           destruct (Ht r' place') as [w Hw']; [by eapply list_elem_of_lookup_2|done|]. rewrite Hk' in Hw'. exists w. split; [done|].
           apply (Hi _ _ _ Hw'). by exists r', place'.
      * rewrite Hother in Hk by done. rewrite (Hi k w i Hk). split; intros (r' & place' & Hl & Ht' & Hk'); exists r', place'; (split; [|done]).
        -- apply lookup_snoc. by left. -- apply lookup_snoc in Hl as [?|[_ ->]]; [done|congruence].
    + intros r' place' Hin Ht'. destruct (decide (key_of place = key_of place')) as [Hk|Hne]; [rewrite <- Hk, Ew'; eauto|].
      rewrite Hother by done. apply elem_of_app in Hin as [Hin| ->%list_elem_of_singleton]; [by apply (Ht r')|congruence].
Qed.
Lemma sort_all requests c pre :
  same_case requests → cache_of requests s c → (∀ r, r ∈ pre → r ∈ requests) →
  ∃ c' results work, fold_over (sort_request visible) (∅, ∅) (imap pair pre) (s, c) = ((s, c'), Ok (results, work)) ∧
    cache_of requests s c' ∧ sorted_out pre results work.
Proof using.
  intros Hcase Hc. induction pre as [|r pre IH] using rev_ind; intros Hsub.
  { exists c, ∅, ∅. split_and!; [done|done|]. split.
    - intros i x. rewrite lookup_empty. split; [done|by intros (r & ? & _)].
    - intros k w. by rewrite lookup_empty.
    - intros k w i. by rewrite lookup_empty.
    - by intros r place ?%elem_of_nil. }
  destruct IH as (c1 & results & work & E & Hc1 & Hs).
  { intros r' Hr'. apply Hsub, elem_of_app. by left. }
  destruct (validationTarget_spec requests visible (length pre) s c1 r) as (c2 & Ev & Hc2); [done|done| |].
  { apply Hsub, elem_of_app. right. by apply list_elem_of_singleton. }
  pose proof (sort_step pre r results work Hs) as Hstep. rewrite imap_pair_snoc, fold_over_snoc. unfold mbind, service_bind. rewrite E.
  unfold sort_request. unfold mbind, service_bind. rewrite Ev. destruct (target_of r visible s) as [refused|place].
  - eexists c2, _, _. split_and!; [reflexivity|done|exact Hstep].
  - eexists c2, _, _. split_and!; [reflexivity|done|exact Hstep].
Qed.
End sorting.

(** ** The evidence *)
Section contents.
(** A listing of a bucket: its objects in some order, under clean keys, each once. *)
Context (contents : string → list ObjectMetadata).
Definition listing (request : InventoryRequest) : InventoryResult :=
  mkInventoryResult (filter (λ o, HasPrefix (om_Key o) (Trim (TrimSpace (pf_Prefix (ir_Target request))) "/") = true)
                            (contents (pf_Bucket (ir_Target request)))) true.
Context (Hinventory : pp_Inventory = Some (λ request s, (s, (listing request, None)))).
Context (Hkeys : ∀ b, NoDup (om_Key <$> contents b)) (Hclean : ∀ b o, o ∈ contents b → clean_key (om_Key o)).

Definition find_object (place : string * string) : option ObjectMetadata :=
  snd <$> list_find (λ o, om_Key o = place.2) (contents place.1).
Definition object_at (place : string * string) (o : ObjectMetadata) : option StorageObject :=
  normalize_object place.1 <$> inventory_item place.1 o.
(** The reference: the result of one request, by itself. *)
Definition validate_one (request : ListValidationRequest) (s : S) : ListValidationResult :=
  match target_of request (lookup_visible ctx s) s with
  | inl refused => refused
  | inr place =>
      let base := base_of request place in
      match find_object place ≫= object_at place with
      | Some item => for_request request (presentValidationResult request base item)
      | None => unverified request (outcome_of base false ProbeNotFound ErrorObjectNotFound "object %q was not found")
      end
  end.


Lemma inventory_spec b prefix exact_ max (s : S) c :
  inventoryObjects b prefix (mkInventoryOptions false exact_ max) (s, c) =
    ((s, c), Ok (omap (inventory_item b) (iv_Items (listing (mkInventoryRequest (mkPrefixTarget b prefix) false exact_ max))), None)).
Proof using Hinventory. unfold inventoryObjects. by rewrite Hinventory. Qed.
(** The object of an entry, and its key. *)
Lemma item_key b o : o ∈ contents b → ∃ item, inventory_item b o = Some item ∧ so_Key item = om_Key o.
Proof using Hclean.
  intros [Hne Hk]%Hclean. unfold inventory_item. rewrite Hk, (proj2 (is_empty_false _)) by done. by eexists.
Qed.
Lemma items_in b prefix item :
  item ∈ omap (inventory_item b) (iv_Items (listing (mkInventoryRequest (mkPrefixTarget b prefix) false true 0))) →
  ∃ o, o ∈ contents b ∧ inventory_item b o = Some item ∧ so_Key item = om_Key o.
Proof using Hclean.
  intros (o & [_ Ho]%list_elem_of_filter & E)%list_elem_of_omap. exists o. split_and!; [done|done|].
  destruct (item_key b o Ho) as (item' & E' & Hk). congruence.
Qed.
Lemma find_object_of place o : o ∈ contents place.1 → om_Key o = place.2 → find_object place = Some o.
Proof using Hkeys.
  intros Ho Hk. unfold find_object. destruct (list_find_elem_of (λ o, om_Key o = place.2) (contents place.1) o Ho Hk) as [[i o'] E].
  rewrite E. apply list_find_Some in E as (Hi & Hk' & _). simpl. f_equal.
  apply list_elem_of_lookup_1 in Ho as [j Hj]. assert (i = j) as ->; [|congruence].
  apply (NoDup_lookup (om_Key <$> contents place.1) i j (om_Key o)); [apply Hkeys| |]; rewrite list_lookup_fmap.
  - rewrite Hi. simpl. congruence. - by rewrite Hj.
Qed.
Lemma find_object_in place o : find_object place = Some o → o ∈ contents place.1 ∧ om_Key o = place.2.
Proof using.
  unfold find_object. destruct (list_find _ _) as [[i o']|] eqn:E; [|done]. intros [= ->].
  apply list_find_Some in E as (Hi & Hk & _). split; [by eapply list_elem_of_lookup_2|done].
Qed.

(** Work on clean keys, and what the storage has at its location. *)
Definition good_work (k : string) (w : validationWork) : Prop :=
  k = validationTargetKey (wk_bucket w) (wk_key w) ∧ clean_key (wk_key w) ∧ no_nul (wk_bucket w) ∧ TrimSpace (wk_bucket w) = wk_bucket w.
Definition present (w : validationWork) : option StorageObject :=
  find_object (wk_bucket w, wk_key w) ≫= object_at (wk_bucket w, wk_key w).
Context (work : gmap string validationWork) (Hwork : ∀ k w, work !! k = Some w → good_work k w).
Lemma present_of k w o item :
  work !! k = Some w → o ∈ contents (wk_bucket w) → om_Key o = wk_key w → inventory_item (wk_bucket w) o = Some item →
  present w = Some (normalize_object (wk_bucket w) item).
Proof using Hkeys.
  intros Hk Ho E Ei. unfold present. rewrite (find_object_of (wk_bucket w, wk_key w) o) by done. simpl. unfold object_at. simpl. by rewrite Ei.
Qed.
(** A target is open, or it was found. *)
Record settled (acc : evidence) : Prop := {
  st_open k w : work !! k = Some w → (ev_unresolved acc !! k = Some w ∧ ev_matched acc !! k = None) ∨
    (ev_unresolved acc !! k = None ∧ is_Some (present w) ∧ ev_matched acc !! k = present w);
  st_known k w : ev_unresolved acc !! k = Some w → work !! k = Some w }.
Lemma coalesce_settled requested b items acc :
  (∀ k w, requested !! k = Some w → work !! k = Some w ∧ wk_bucket w = b) →
  (∀ item, item ∈ items → ∃ o, o ∈ contents b ∧ inventory_item b o = Some item ∧ so_Key item = om_Key o) →
  settled acc → settled (foldl (coalesce_item requested b) acc items).
Proof using Hclean Hkeys Hwork.
  intros Hreq. revert acc. induction items as [|item items IH]; intros acc Hitems Hs; [done|]. simpl. apply IH.
  { intros i Hi. apply Hitems. by right. }
  destruct (Hitems item) as (o & Ho & Ei & Ek); [by left|]. unfold coalesce_item.
  destruct (requested !! validationTargetKey b (so_Key item)) as [w|] eqn:Er; [|done]. destruct (Hreq _ _ Er) as [Hw Eb].
  destruct (Hwork _ _ Hw) as (Hk & Hck & Hnul & Htrim). subst b.
  assert (om_Key o = wk_key w) as E.
  { destruct (validationTargetKey_inj (wk_bucket w) (so_Key item) (wk_bucket w) (wk_key w)) as [_ Hkk]; try done; [|congruence].
    rewrite Ek. by apply (Hclean (wk_bucket w)). }
  pose proof (present_of _ w o item Hw Ho E Ei) as Hp. split.
  - intros k w' Hk'. simpl. destruct (decide (validationTargetKey (wk_bucket w) (so_Key item) = k)) as [<-|Hne].
    + rewrite Hw in Hk'. injection Hk' as <-. right. rewrite lookup_delete_eq, lookup_insert_eq, Hp. split_and!; [done|by eexists|done].
    + rewrite lookup_delete_ne, lookup_insert_ne by done. by apply (st_open acc Hs).
  - intros k w'. simpl. rewrite lookup_delete_Some. intros [_ ?]. by apply (st_known acc Hs).
Qed.

(** ** Listed directories *)
Lemma group_members gk group w :
  (gk, group) ∈ go_range (groupValidationTargets work) → w ∈ group → (∃ k, work !! k = Some w) ∧ group_key w = gk.
Proof using.
  intros Hg%elem_of_go_range. revert gk group Hg. unfold groupValidationTargets.
  assert (∀ entries (groups : gmap string (list validationWork)), (∀ e, e ∈ entries → work !! e.1 = Some e.2) →
    (∀ gk group, groups !! gk = Some group → w ∈ group → (∃ k, work !! k = Some w) ∧ group_key w = gk) →
    ∀ gk group, (foldl (λ groups '(_, work), <[group_key work := default [] (groups !! group_key work) ++ [work]]> groups) groups entries) !! gk = Some group →
      w ∈ group → (∃ k, work !! k = Some w) ∧ group_key w = gk) as Hgen.
  { induction entries as [|[k w'] entries IH]; intros groups Hent Hg; [exact Hg|]. simpl. apply IH.
    { intros e He. apply Hent. by right. }
    intros gk group. destruct (decide (group_key w' = gk)) as [<-|Hne]; [|rewrite lookup_insert_ne by done; apply Hg].
    rewrite lookup_insert_eq. intros [= <-] [Hin| ->%list_elem_of_singleton]%elem_of_app.
    - destruct (groups !! group_key w') as [g|] eqn:E; [by apply (Hg _ g)|by apply elem_of_nil in Hin].
    - split; [|done]. exists k. apply (Hent (k, w')). by left. }
  intros gk group. apply (Hgen (go_range work) ∅).
  - intros [k w'] He. by apply elem_of_go_range.
  - intros gk' group'. by rewrite lookup_empty.
Qed.
Lemma group_key_bucket w w' :
  no_nul (wk_bucket w) → no_nul (wk_bucket w') → group_key w = group_key w' → TrimSpace (wk_bucket w) = TrimSpace (wk_bucket w').
Proof using.
  intros Hb%TrimSpace_avoid Hb'%TrimSpace_avoid E. unfold group_key in E. pose proof (Cut_app _ _ "" (validationDirectoryPrefix (wk_key w)) Hb) as Hc.
  pose proof (Cut_app _ _ "" (validationDirectoryPrefix (wk_key w')) Hb') as Hc'. change (String nul_char "") with nul in Hc, Hc'.
  rewrite E, Hc' in Hc. by injection Hc as ->.
Qed.
Lemma requested_spec group k w :
  foldl (λ m work, <[validationTargetKey (wk_bucket work) (wk_key work) := work]> m) (∅ : gmap string validationWork) group !! k = Some w →
  w ∈ group ∧ k = validationTargetKey (wk_bucket w) (wk_key w).
Proof using.
  induction group as [|w' group IH] using rev_ind; [done|]. rewrite foldl_app. simpl. intros [[<- ->]|[_ [Hin ->]%IH]]%lookup_insert_Some.
  - split; [|done]. apply elem_of_app. right. by apply list_elem_of_singleton.
  - split; [apply elem_of_app; by left|done].
Qed.
Lemma coalesced_group gk group acc s c :
  (gk, group) ∈ go_range (groupValidationTargets work) → settled acc →
  ∃ acc', runCoalescedValidation group acc (s, c) = ((s, c), Ok acc') ∧ settled acc'.
Proof using Hinventory Hclean Hkeys Hwork.
  intros Hg Hs. unfold runCoalescedValidation. destruct group as [|first group]; [by exists acc|].
  set (g := first :: group) in *. unfold mbind, service_bind. rewrite inventory_spec. cbv iota beta.
  set (items := omap _ _). destruct (listFallbackObjectLimit <? length items)%nat; [by exists acc|].
  eexists. split; [reflexivity|]. apply coalesce_settled; [| |done].
  - intros k w [Hin ->]%requested_spec. destruct (group_members gk g w Hg Hin) as [[k' Hk'] Hgk].
    destruct (group_members gk g first Hg) as [[k0 Hk0] Hgk0]; [by left|].
    destruct (Hwork _ _ Hk') as (-> & _ & Hn & Ht). destruct (Hwork _ _ Hk0) as (_ & _ & Hn0 & Ht0). split; [done|].
    rewrite <- Ht, <- Ht0. apply group_key_bucket; congruence.
  - intros item Hin. by apply (items_in _ (validationDirectoryPrefix (wk_key first))).
Qed.
Lemma coalesced_groups gs acc s c :
  (∀ g, g ∈ gs → ∃ gk, (gk, g) ∈ go_range (groupValidationTargets work)) → settled acc →
  ∃ acc', fold_over (λ acc group, runCoalescedValidation group acc) acc gs (s, c) = ((s, c), Ok acc') ∧ settled acc'.
Proof using Hinventory Hclean Hkeys Hwork.
  revert acc. induction gs as [|g gs IH]; intros acc Hgs Hs; [by exists acc|]. cbn [fold_over]. unfold mbind, service_bind.
  destruct (Hgs g) as [gk Hg]; [by left|]. destruct (coalesced_group gk g acc s c Hg Hs) as (acc1 & -> & H1).
  apply IH; [|done]. intros g' Hg'. apply Hgs. by right.
Qed.

(** ** Single look-ups *)
(** What the evidence says about a target in the end. *)
Definition concluded (acc : evidence) (k : string) (w : validationWork) : Prop :=
  ev_matched acc !! k = present w ∧ (present w = None → ev_outcomes acc !! k = Some (not_found_outcome w)).
Lemma exact_lookup w s c k :
  work !! k = Some w →
  ∃ items, inventoryObjects (wk_bucket w) (wk_key w) (mkInventoryOptions false true 1) (s, c) = ((s, c), Ok (items, None)) ∧
    match list_find (λ item, String.eqb (Trim (TrimSpace (so_Key item)) "/") (wk_key w) = true) items with
    | Some (_, item) => present w = Some (normalize_object (wk_bucket w) item)
    | None => present w = None
    end.
Proof using Hinventory Hclean Hkeys Hwork.
  intros Hw. destruct (Hwork _ _ Hw) as (_ & [Hne Hck] & _ & _). rewrite inventory_spec. eexists. split; [reflexivity|].
  change (listing (mkInventoryRequest (mkPrefixTarget (wk_bucket w) (wk_key w)) false true 1))
    with (listing (mkInventoryRequest (mkPrefixTarget (wk_bucket w) (wk_key w)) false true 0)).
  set (items := omap _ _). destruct (list_find _ items) as [[i item]|] eqn:E.
  - apply list_find_Some in E as (Hi & Hk%String.eqb_eq & _). apply list_elem_of_lookup_2 in Hi.
    apply items_in in Hi as (o & Ho & Ei & Ek). apply (present_of k w o item); try done. rewrite Ek in Hk.
    destruct (Hclean _ _ Ho) as [_ Hco]. congruence.
  - destruct (present w) as [x|] eqn:Ep; [|done]. exfalso. unfold present in Ep.
    destruct (find_object (wk_bucket w, wk_key w)) as [o|] eqn:Ef; [|done].
    apply find_object_in in Ef as [Ho Hk]. simpl in Ho, Hk. destruct (item_key _ o Ho) as (item & Ei & Ek).
    apply list_find_None in E. rewrite Forall_forall in E. apply (E item).
    + apply list_elem_of_omap. exists o. split; [|done]. simpl. apply list_elem_of_filter. split; [|done].
      rewrite Hck, Hk. apply HasPrefix_refl.
    + apply String.eqb_eq. rewrite Ek, Hk. done.
Qed.
Lemma exact_all keys acc U s c :
  (∀ k w, U !! k = Some w → work !! k = Some w) → ev_unresolved acc = U →
  (∀ k w, work !! k = Some w → ev_matched acc !! k = None ∨ ev_matched acc !! k = present w) →
  ∃ acc', fold_over validate_exactly acc keys (s, c) = ((s, c), Ok acc') ∧
    (∀ k w, work !! k = Some w → (k ∈ keys ∧ U !! k = Some w ∨ concluded acc k w) → concluded acc' k w).
Proof using Hinventory Hclean Hkeys Hwork.
  intros HU. revert acc. induction keys as [|k0 keys IH]; intros acc Eu Hm.
  { exists acc. split; [done|]. by intros k w _ [[?%elem_of_nil _]|?]. }
  cbn [fold_over]. unfold mbind, service_bind, validate_exactly. rewrite Eu. destruct (U !! k0) as [w0|] eqn:E0.
  2: { destruct (IH acc Eu Hm) as (acc' & E & Hacc). exists acc'. split; [exact E|]. intros k w Hw [[Hin Hk]|?]; apply Hacc; try done; [|by right].
       apply elem_of_cons in Hin as [->|Hin]; [congruence|by left]. }
  pose proof (HU _ _ E0) as Hw0. destruct (exact_lookup w0 s c k0 Hw0) as (items & Ei & Hfind). unfold mbind, service_bind. rewrite Ei. cbv iota beta.
  set (acc1 := match list_find _ items with Some _ => _ | None => _ end).
  assert (ev_unresolved acc1 = U ∧ concluded acc1 k0 w0 ∧ ∀ k, k ≠ k0 → ev_matched acc1 !! k = ev_matched acc !! k ∧ ev_outcomes acc1 !! k = ev_outcomes acc !! k)
    as (Eu1 & Hc0 & Hother).
  { unfold acc1. destruct (list_find _ items) as [[i item]|]; simpl; split_and!; try done.
    - split; simpl; [by rewrite lookup_insert_eq|congruence].
    - intros k Hk. by rewrite !lookup_insert_ne by done.
    - split; simpl; [rewrite Hfind; destruct (Hm k0 w0 Hw0); congruence|intros _; by rewrite lookup_insert_eq].
    - intros k Hk. by rewrite !lookup_insert_ne by done. }
  destruct (IH acc1 Eu1) as (acc' & E & Hacc).
  { intros k w Hw. destruct (decide (k = k0)) as [->|Hne]; [right; assert (w = w0) as -> by congruence; apply Hc0|].
    destruct (Hother k Hne) as [-> _]. by apply Hm. }
  exists acc'. split; [exact E|]. intros k w Hw Hk. apply Hacc; [done|]. destruct (decide (k = k0)) as [->|Hne].
  - right. by assert (w = w0) as -> by congruence.
  - destruct Hk as [[Hin HUk]|[H1 H2]]; [left; split; [|done]; by apply elem_of_cons in Hin as [?|?]|]. right.
    destruct (Hother k Hne) as [E1 E2]. split; [by rewrite E1|by rewrite E2].
Qed.
Lemma exact_concludes acc s c :
  settled acc → ∃ acc', runExactValidation acc (s, c) = ((s, c), Ok acc') ∧ ∀ k w, work !! k = Some w → concluded acc' k w.
Proof using Hinventory Hclean Hkeys Hwork.
  intros Hs. unfold runExactValidation. destruct (exact_all (sort_Strings (go_range (ev_unresolved acc)).*1) acc (ev_unresolved acc) s c)
    as (acc' & E & Hacc); [apply Hs|done| |].
  { intros k w Hw. destruct (st_open acc Hs k w Hw) as [[_ ?]|(_ & _ & ?)]; [by left|by right]. }
  exists acc'. split; [exact E|]. intros k w Hw. apply Hacc; [done|]. destruct (st_open acc Hs k w Hw) as [[Hu _]|(_ & Hp & Hm)].
  - left. split; [|done]. apply elem_of_sort_Strings, list_elem_of_fmap. exists (k, w). split; [done|by apply elem_of_go_range].
  - right. split; [done|]. intros Hn. rewrite Hn in Hp. by destruct Hp.
Qed.

(** ** The results *)
Lemma write_indexes (requests : list ListValidationRequest) (g : ListValidationRequest → ListValidationResult) idxs (results : gmap nat ListValidationResult) i :
  foldl (λ results index, match requests !! index with Some request => <[index := g request]> results | None => results end)
    results idxs !! i =
  if decide (i ∈ idxs) then match requests !! i with Some r => Some (g r) | None => results !! i end else results !! i.
Proof using.
  induction idxs as [|j idxs IH] using rev_ind; [done|]. rewrite foldl_app. simpl.
  assert (i ∈ idxs ++ [j] ↔ i ∈ idxs ∨ i = j) as Hin by (rewrite elem_of_app, list_elem_of_singleton; done).
  destruct (decide (i = j)) as [->|Hne].
  - rewrite decide_True by (apply Hin; by right). destruct (requests !! j) as [r|] eqn:E; [by rewrite lookup_insert_eq|].
    rewrite IH. by destruct (decide (j ∈ idxs)).
  - assert (foldl (λ results index, match requests !! index with Some request => <[index := g request]> results | None => results end)
              results idxs !! i = match requests !! j with
                | Some request => <[j := g request]> (foldl (λ results index, match requests !! index with Some request => <[index := g request]> results | None => results end) results idxs)
                | None => foldl (λ results index, match requests !! index with Some request => <[index := g request]> results | None => results end) results idxs
                end !! i) as <- by (destruct (requests !! j); [by rewrite lookup_insert_ne by congruence|done]).
    rewrite IH. destruct (decide (i ∈ idxs)) as [H1|H1], (decide (i ∈ idxs ++ [j])) as [H2|H2]; try done; exfalso; naive_solver.
Qed.
Lemma write_all (requests : list ListValidationRequest) acc entries (results : gmap nat ListValidationResult) i :
  (∀ e e', e ∈ entries → e' ∈ entries → i ∈ wk_requestIndexes e.2 → i ∈ wk_requestIndexes e'.2 → e = e') →
  ((∀ e, e ∈ entries → i ∉ wk_requestIndexes e.2) → foldl (write_results requests acc) results entries !! i = results !! i) ∧
  (∀ e r, e ∈ entries → i ∈ wk_requestIndexes e.2 → requests !! i = Some r →
     foldl (write_results requests acc) results entries !! i = Some (conclude acc e.1 e.2 r)).
Proof using.
  induction entries as [|e0 entries IH] using rev_ind; intros Huniq; [split; [done|by intros e r ?%elem_of_nil]|].
  assert (e0 ∈ entries ++ [e0]) as H0 by (apply elem_of_app; right; by apply list_elem_of_singleton).
  assert (∀ e, e ∈ entries → e ∈ entries ++ [e0]) as Hsub by (intros e ?; apply elem_of_app; by left).
  destruct IH as [IH1 IH2]. { intros e e' He He'. by apply Huniq; apply Hsub. }
  rewrite foldl_app. simpl. split.
  - intros Hno. unfold write_results at 1. rewrite write_indexes, decide_False by (by apply Hno). apply IH1. intros e He. by apply Hno, Hsub.
  - intros e r He Hi Hr. unfold write_results at 1. rewrite write_indexes. destruct (decide (i ∈ wk_requestIndexes e0.2)) as [Hi0|Hno].
    + rewrite Hr. by rewrite (Huniq e e0 He H0 Hi Hi0).
    + apply elem_of_app in He as [He| ->%list_elem_of_singleton]; [by apply IH2|done].
Qed.
End contents.

(** The requests name buckets without a NUL byte, in one spelling each, and keys without slashes or blanks at their ends. *)
Definition clean_requests (requests : list ListValidationRequest) : Prop :=
  same_case requests ∧ ∀ r b k, r ∈ requests → place_of r = Some (b, k) → no_nul b ∧ clean_key k.
Lemma target_place r visible s place : target_of r visible s = inr place → place_of r = Some place.
Proof using.
  unfold target_of. destruct (place_of r) as [p|]; [|done]. destruct (lookup_credential p.1 s) as [cr|e]; [|done].
  destruct visible as [v|e]; [|done]. destruct (negb _); [done|]. by intros [= ->].
Qed.
Lemma work_is_good requests s visible results work :
  clean_requests requests → sorted_out s visible requests results work → ∀ k w, work !! k = Some w → good_work k w.
Proof using.
  intros [_ Hcl] Hs k w Hk. destruct (so_work _ _ _ _ _ Hs k w Hk) as (r & [b key] & Hin & Ht%target_place & <- & Eb & Ek & _).
  destruct (Hcl _ _ _ Hin Ht) as [Hn Hck]. unfold good_work. rewrite Eb, Ek. split_and!; [done|done|done|].
  by apply (ParseS3URL_trimmed _ _ _ Ht).
Qed.
(** The answer for a request whose target has been settled. *)
Lemma conclude_one contents requests s results work acc k w r place :
  clean_requests requests → sorted_out s (lookup_visible ctx s) requests results work →
  r ∈ requests → target_of r (lookup_visible ctx s) s = inr place → key_of place = k → work !! k = Some w →
  concluded contents acc k w → conclude acc k w r = validate_one contents r s.
Proof using.
  intros [Hcase Hcl] Hs Hr Ht Hk Hw [Hm Ho]. unfold validate_one. rewrite Ht. cbv zeta.
  destruct (so_work _ _ _ _ _ Hs k w Hw) as (r0 & [b0 k0] & Hr0 & Ht0 & Ek0 & Eb & Ekey & Ebase).
  destruct place as [b key]. pose proof (target_place _ _ _ _ Ht) as Hp. pose proof (target_place _ _ _ _ Ht0) as Hp0.
  destruct (Hcl _ _ _ Hr Hp) as [Hn Hc]. destruct (Hcl _ _ _ Hr0 Hp0) as [Hn0 Hc0].
  destruct (validationTargetKey_inj b key b0 k0) as [<- <-]; try done.
  { by apply (ParseS3URL_trimmed _ _ _ Hp). } { by apply (ParseS3URL_trimmed _ _ _ Hp0). } { unfold key_of in *. simpl in *. congruence. }
  simpl in Eb, Ekey. unfold present in Hm, Ho. rewrite Eb, Ekey in Hm, Ho. unfold conclude. rewrite Hm.
  destruct (find_object contents (b, key) ≫= object_at (b, key)) as [item|] eqn:Ef.
  - unfold presentValidationResult. rewrite Ebase. by destruct (validateInventory r item) as [[[? ?] ?] ?].
  - rewrite (Ho eq_refl). unfold not_found_outcome. rewrite Ebase. reflexivity.
Qed.
End validation.

(** ** Executions *)
Section sample.
#[local] Existing Instance canonical_order.
Definition stored_object (key : string) : ObjectMetadata := mkObjectMetadata "s3" "data" key "" 3 "" "" None.
Definition sample_names : list string := (λ i, "run/f" +:+ pretty i) <$> seq 10 26.
Definition sample_contents (bucket : string) : list ObjectMetadata :=
  if String.eqb bucket "data" then stored_object <$> (sample_names ++ ["other/g"; "run.txt"]) else [].
Definition sample_credential : Credential := mkCredential "cred" "data" "s3" "" "" "" "".
#[local] Instance sample_ports : ProjectPorts nat := {
  pp_LookupBucketScope := Some (λ _ project s, (s, Ok (mkScope "org" project "" "data" project, true)));
  pp_Credentials := Some (λ bucket _, Ok (if String.eqb bucket "data" then Some sample_credential else None), λ _, Ok [sample_credential]);
  pp_ListVisibleBuckets := Some (λ _ _, Ok {["cred" := mkVisible sample_credential []]});
  pp_Inventory := Some (λ request s, (s, (listing sample_contents request, None)));
  pp_Probe := None;
  pp_DeleteExact := None;
  pp_ListPhysicalObjectsByScope := None;
  pp_DeleteBulkByScope := None;
  pp_ScopeCatalog := None }.
Definition wanted (id url : string) : ListValidationRequest := mkListValidation id url (Some 3%Z) "".
(** A directory that is listed, one object looked up by itself, one asked for twice, one missing, and no location. *)
Definition sample_requests : list ListValidationRequest :=
  ((λ name, wanted name ("s3://data/" +:+ name)) <$> sample_names) ++
  [wanted "a" "s3://data/other/g"; wanted "b" "s3://data/other/g"; wanted "c" "s3://data/run/none"; wanted "d" "data/run"].
Example sample_validation :
  (λ r, (λ m : gmap nat ListValidationResult, (λ i, (λ x, (lv_ID x, lv_Exists x, lv_ValidationStatus x)) <$> m !! i) <$> [0; 26; 27; 28; 29; 30]) <$> r)
    (ValidateInventoryObjects None sample_requests 0).2 =
  Ok [Some ("run/f10", true, ValidationMatched); Some ("a", true, ValidationMatched); Some ("b", true, ValidationMatched);
      Some ("c", false, ValidationUnverifiable); Some ("d", false, ValidationUnverifiable); None].
Proof. vm_compute. reflexivity. Qed.

(** A key with a slash at its end: not found by itself, and found when its directory is listed for the others. *)
Definition slashed : ListValidationRequest := wanted "x" "s3://data/run/f10/".
Example slashed_alone :
  (λ m : gmap nat ListValidationResult, lv_Exists <$> m !! 0) <$> (ValidateInventoryObjects None [slashed] 0).2 = Ok (Some false).
Proof. vm_compute. reflexivity. Qed.
Example slashed_with_others :
  (λ m : gmap nat ListValidationResult, lv_Exists <$> m !! 0) <$> (ValidateInventoryObjects None (slashed :: sample_requests) 0).2 = Ok (Some true).
Proof. vm_compute. reflexivity. Qed.

Lemma one_bucket requests bucket :
  no_nul bucket → Forall (λ r, match place_of r with Some p => p.1 = bucket ∧ clean_key p.2 | None => True end) requests →
  clean_requests requests.
Proof.
  intros Hn Hall. rewrite Forall_forall in Hall. split.
  - intros r r' p p' Hr Hr' Hp Hp' _. pose proof (Hall r Hr) as H1. pose proof (Hall r' Hr') as H2. rewrite Hp in H1. rewrite Hp' in H2.
    destruct H1, H2. congruence.
  - intros r b k Hr Hp. pose proof (Hall r Hr) as H1. rewrite Hp in H1. by destruct H1 as [<- ?].
Qed.
Definition clean_keyb (k : string) : bool := negb (String.eqb k "") && String.eqb (Trim (TrimSpace k) "/") k.
Lemma clean_keyb_spec k : clean_keyb k = true → clean_key k.
Proof. unfold clean_keyb. intros [?%negb_true_iff%String.eqb_neq ?%String.eqb_eq]%andb_true_iff. by split. Qed.
End sample.
