(* ===== verification/ProjectStorageProperties.v ===== *)
(** * What the storage of a project may touch
    Inspections and deletions stay in the scope of the project and need the right on it; every location asked for is
    answered once. *)
From S2P Require Import Prelude GoStrings GoURL Errors Resources Policy Objects Address Buckets BucketVisibility Targets StorageManager ProjectStorage.

Section project.
Context `{MapOrder} {S : Type} `{!ProjectPorts S} (ctx : context).

(** The right of the caller on the project. *)
Definition authorized (method organization project : string) : Prop :=
  IsAuthzEnforced ctx = false ∨
  ∃ resource, ResourcePath (TrimSpace organization) (TrimSpace project) = Ok resource ∧ HasMethodAccess ctx method [resource] = true.
(** A property of the state that the look-up of a scope keeps. *)
Definition lookups_keep (P : S → Prop) : Prop :=
  ∀ lookup organization project s, pp_LookupBucketScope = Some lookup → P s → P (lookup organization project s).1.

(** ** What keeps a property of the state *)
Definition keeps {A} (P : S → Prop) (f : service (S * requestCache) A) : Prop := ∀ st, P st.1 → P (f st).1.1.
Lemma keeps_bind {A B} (P : S → Prop) (f : service (S * requestCache) A) (g : A → service (S * requestCache) B) :
  keeps P f → (∀ a, keeps P (g a)) → keeps P (f ≫= g).
Proof using. intros Hf Hg st Hs. unfold mbind, service_bind. specialize (Hf st Hs). destruct (f st) as [st' [a|e]]; [by apply Hg|done]. Qed.
Lemma keeps_ret {A} (P : S → Prop) (a : A) : keeps P (mret a).
Proof using. by intros st. Qed.
Lemma keeps_fail {A} (P : S → Prop) e : keeps P (fail e : service (S * requestCache) A).
Proof using. by intros st. Qed.
Lemma keeps_attempt {A} (P : S → Prop) (f : service (S * requestCache) A) : keeps P f → keeps P (attempt f).
Proof using. intros Hf st Hs. unfold attempt. specialize (Hf st Hs). by destruct (f st) as [st' r]. Qed.
Lemma keeps_credential (P : S → Prop) bucket : keeps P (credentialForBucket bucket).
Proof using.
  unfold credentialForBucket. destruct (is_empty _); [apply keeps_fail|]. apply keeps_bind; [by intros st|intros cache].
  destruct (_ !! _); [by intros st|]. apply keeps_bind; [apply keeps_attempt; by intros st|intros found].
  apply keeps_bind; [by intros st|intros _; by intros st].
Qed.
Lemma keeps_found_scope (P : S → Prop) lookup organization project :
  pp_LookupBucketScope = Some lookup → lookups_keep P → keeps P (found_scope lookup organization project).
Proof using.
  intros E HP. apply keeps_bind; [|intros [scope found]; apply keeps_ret]. intros st Hs. unfold on_state.
  specialize (HP lookup organization project st.1 E Hs). by destruct (lookup organization project st.1).
Qed.
Lemma keeps_resolve (P : S → Prop) organization project method :
  lookups_keep P → keeps P (resolveScope ctx organization project method).
Proof using.
  intros HP. unfold resolveScope. destruct (is_empty _); [apply keeps_fail|]. destruct (ResourcePath _ _); [|apply keeps_fail].
  destruct (_ && _); [apply keeps_fail|]. destruct pp_LookupBucketScope as [lookup|] eqn:El; [|apply keeps_fail].
  apply keeps_bind; [by apply keeps_found_scope|intros l1]. apply keeps_bind.
  { destruct (is_empty _); [apply keeps_ret|by apply keeps_found_scope]. }
  intros l2. destruct (l1 ++ l2); [apply keeps_fail|]. destruct (last _); [|apply keeps_fail].
  apply keeps_bind; [apply keeps_credential|intros c]. destruct (negb _); [apply keeps_fail|apply keeps_ret].
Qed.
Lemma resolve_authorized organization project method st st' target :
  resolveScope ctx organization project method st = (st', Ok target) → authorized method organization project.
Proof using.
  unfold resolveScope. destruct (is_empty _); [done|]. destruct (ResourcePath _ _) as [resource|] eqn:Er; [|done].
  destruct (IsAuthzEnforced ctx) eqn:Ea; [|by left]. simpl. destruct (HasMethodAccess _ _ _) eqn:Eh; [|done].
  intros _. right. by exists resource.
Qed.

(** ** Deletion *)
(** The location lies in the bucket of the target, under its prefix; both as the check normalizes them. *)
Definition in_scope (target : scopeTarget) (url : string) : Prop :=
  ∃ parsed, url_Parse (TrimSpace url) = Some parsed ∧
    let bucket := TrimSpace (url_Host parsed) in
    let key := Trim (TrimSpace (Trim (TrimSpace (url_Path parsed)) "/")) "/" in
    let prefix := Trim (TrimSpace (tg_Prefix target)) "/" in
    ProviderFromScheme (url_Scheme parsed) ≠ "" ∧ bucket ≠ "" ∧ EqualFold bucket (tg_Bucket target) = true ∧
    (prefix = "" ∧ key ≠ "" ∨ prefix ≠ "" ∧ (key = prefix ∨ HasPrefix key (prefix +:+ "/") = true)).
Lemma parse_allowed target url st st' candidate :
  parseDeleteURL url st = (st', Ok (Some candidate)) → targetAllowed candidate target = true → in_scope target url.
Proof using.
  unfold parseDeleteURL. destruct (url_Parse (TrimSpace url)) as [parsed|] eqn:Eu; [|done]. cbv zeta.
  destruct (_ || _ || _) eqn:Ee; [done|]. apply orb_false_iff in Ee as [[Ee1%is_empty_false Ee2%is_empty_false]%orb_false_iff _].
  intros (st1 & found & _ & Hr)%service_bind_Ok. destruct found as [credential|]; [|done].
  injection Hr as _ <-. unfold targetAllowed. cbn [dc_provider dc_bucket dc_key]. destruct (negb _ || negb _) eqn:En; [done|].
  apply orb_false_iff in En as [_ Eb%negb_false_iff]. intros Hk. exists parsed. split; [done|]. cbv zeta. split_and!; [done|done|done|].
  destruct (is_empty (Trim (TrimSpace (tg_Prefix target)) "/")) eqn:Ep.
  - left. split; [by apply is_empty_spec|]. by apply is_empty_false, negb_true_iff.
  - right. split; [by apply is_empty_false|]. apply orb_true_iff in Hk as [Hk%String.eqb_eq|Hk]; [by left|by right].
Qed.
Lemma delete_one_spec (P : S → Prop) target url st :
  (∀ delete s, pp_DeleteExact = Some delete → in_scope target url → P s → P (delete [url] s).1) → P st.1 →
  ∃ st' r, delete_one target url st = (st', Ok r) ∧ dr_ObjectURL r = url ∧ P st'.1.
Proof using.
  intros HP Hs. unfold delete_one. unfold mbind at 1, service_bind at 1, attempt at 1.
  assert (keeps P (parseDeleteURL url)) as Hk.
  { unfold parseDeleteURL. destruct (url_Parse _); [|apply keeps_fail]. cbv zeta. destruct (_ || _ || _); [apply keeps_ret|].
    apply keeps_bind; [apply keeps_attempt, keeps_credential|intros [c|e]; [apply keeps_ret|apply keeps_fail]]. }
  specialize (Hk st Hs). destruct (parseDeleteURL url st) as [st1 [[candidate|]|e]] eqn:E; [|by eexists _, _|by eexists _, _].
  simpl in Hk. destruct (targetAllowed candidate target) eqn:Ea; cbn [negb]; [|by eexists _, _].
  destruct pp_DeleteExact as [delete|] eqn:Ed; [|by eexists _, _].
  pose proof (parse_allowed _ _ _ _ _ E Ea) as Hin. specialize (HP delete st1.1 eq_refl Hin Hk).
  unfold mbind, service_bind, attempt, on_state. destruct (delete [url] st1.1) as [s2 r]. eexists _, _. split; [reflexivity|].
  destruct r; by split.
Qed.
Lemma delete_each_spec (P : S → Prop) target urls st :
  (∀ url delete s, url ∈ urls → pp_DeleteExact = Some delete → in_scope target url → P s → P (delete [url] s).1) → P st.1 →
  ∃ st' rs, each (delete_one target) urls st = (st', Ok rs) ∧ dr_ObjectURL <$> rs = urls ∧ P st'.1.
Proof using.
  revert st. induction urls as [|url urls IH]; intros st HP Hs; [by exists st, []|]. cbn [each].
  destruct (delete_one_spec P target url st) as (st1 & r & E & Er & H1); [|done|].
  { intros delete s Hd. apply HP; [by left|done]. }
  destruct (IH st1) as (st2 & rs & E2 & Ers & H2); [|done|].
  { intros u delete s Hu. apply HP. by right. }
  exists st2, (r :: rs). unfold mbind, service_bind. rewrite E, E2. split_and!; [done| |done]. rewrite fmap_cons. by rewrite Er, Ers.
Qed.
(** What the storage manager makes of such a location lies in the bucket and under the prefix. *)
Lemma physical_in_scope `{!CredentialLookup S} target url s p :
  in_scope target url → physicalTarget url s = Ok (Some p) →
  EqualFold (ph_Bucket p) (tg_Bucket target) = true ∧
  (Trim (TrimSpace (tg_Prefix target)) "/" = "" ∨ storageKeyWithinPrefix (ph_Key p) (tg_Prefix target) = true).
Proof using.
  intros (parsed & Eu & Hp & Hb & Hf & Hk). unfold physicalTarget. destruct (is_empty (TrimSpace url)); [done|]. rewrite Eu. cbv zeta.
  rewrite (proj2 (is_empty_false _) Hp). cbn [negb]. destruct (_ || _); [done|]. intros E.
  assert (ph_Bucket p = TrimSpace (url_Host parsed) ∧ ph_Key p = Trim (TrimSpace (url_Path parsed)) "/") as [-> ->].
  { destruct (lookup_GetS3Credential _ s) as [[cr|]|e]; [| |done].
    - destruct (String.eqb _ _); [destruct (is_empty _) in E; [done|]|]; by injection E as <-.
    - destruct (String.eqb _ _); [done|]. by injection E as <-. }
  split; [done|]. destruct Hk as [[? _]|[_ Hk]]; [by left|right]. unfold storageKeyWithinPrefix. cbv zeta. apply orb_true_iff.
  destruct Hk as [Hk|Hk]; [left; by apply String.eqb_eq|by right].
Qed.

(** ** Inspection *)
(** A listing returns clean keys under the prefix asked for. *)
Definition lists_under_prefix : Prop :=
  ∀ inventory request s s' result failed o, pp_Inventory = Some inventory → inventory request s = (s', (result, failed)) →
    o ∈ iv_Items result → Trim (TrimSpace (om_Key o)) "/" = om_Key o ∧
      (Trim (TrimSpace (pf_Prefix (ir_Target request))) "/" = "" ∨ storageKeyWithinPrefix (om_Key o) (pf_Prefix (ir_Target request)) = true).
Definition inspected (target : scopeTarget) (item : StorageObject) : Prop :=
  so_Provider item = S3Provider ∧ so_Bucket item = tg_Bucket target ∧ so_ObjectURL item = BucketToURL (tg_Bucket target) (so_Key item) ∧
  (Trim (TrimSpace (tg_Prefix target)) "/" = "" ∨ storageKeyWithinPrefix (so_Key item) (tg_Prefix target) = true).
Lemma inventory_items bucket prefix options st st' items failed :
  lists_under_prefix → inventoryObjects bucket prefix options st = (st', Ok (items, failed)) →
  ∀ item, item ∈ items → Trim (TrimSpace (so_Key item)) "/" = so_Key item ∧
    (Trim (TrimSpace prefix) "/" = "" ∨ storageKeyWithinPrefix (so_Key item) prefix = true).
Proof using.
  intros Hl. unfold inventoryObjects. destruct pp_Inventory as [inventory|] eqn:Ei; [|intros [= _ <- _]; by intros item ?%elem_of_nil].
  intros (st1 & [result f] & Hc & [= _ <- _])%service_bind_Ok. unfold call in Hc.
  destruct (inventory _ st.1) as [s1 [result' f']] eqn:Einv. injection Hc as _ -> ->.
  intros item (o & Ho & E)%list_elem_of_omap. destruct (Hl _ _ _ _ _ _ _ Ei Einv Ho) as [Hk Hp]. unfold inventory_item in E.
  rewrite Hk in E. destruct (is_empty (om_Key o)); [done|]. injection E as <-. by split.
Qed.
Lemma elem_of_normalized items bucket item :
  item ∈ normalizeObjects items bucket ↔ ∃ i, i ∈ items ∧ item = normalize_object bucket i.
Proof using. unfold normalizeObjects. rewrite sort_Slice_Permutation, list_elem_of_fmap. naive_solver. Qed.
(** An inspection needs the right to read the project; it answers with objects of the bucket of the project, under the prefix
    of its scopes and of the request, and its summary counts them: all of them if it says that the inventory is complete. *)
Theorem inspection_confined now organization project options s s' result :
  lists_under_prefix → InspectProjectStorage ctx now organization project options s = (s', Ok result) →
  authorized "read" organization project ∧
  ∃ st st' target0, resolveScope ctx organization project "read" st = (st', Ok target0) ∧
    let target := withPathPrefix target0 (in_PathPrefix options) in
    let summary := ins_Summary result in
    Forall (inspected target) (ins_Items result) ∧
    (su_Bucket summary = tg_Bucket target ∧ su_Exists summary = negb (su_ObjectCount summary =? 0)%nat) ∧
    (normalizeMode (in_Mode options) = ModeItems → su_ObjectCount summary = length (ins_Items result) ∧
       su_TotalBytes summary = foldl (λ total item, wrap64 (total + so_SizeBytes item)) 0%Z (ins_Items result)) ∧
    (su_InventoryComplete summary = false → su_Exists summary = true).
Proof using.
  intros Hl. unfold InspectProjectStorage, with_request_cache. destruct (InspectProjectStorage' _ _ _ _ _ _) as [[s1 c1] r] eqn:E.
  intros [= _ ->]. unfold InspectProjectStorage' in E. apply service_bind_Ok in E as (st1 & target0 & Hr & E). cbv zeta in E.
  split; [by eapply resolve_authorized|]. exists (s, no_cache), st1, target0. split; [done|]. cbv zeta.
  set (target := withPathPrefix target0 (in_PathPrefix options)) in *.
  apply service_bind_Ok in E as (st2 & [items failed] & Hi & E).
  assert (tg_Bucket target = tg_Bucket target0) as Eb by (unfold target, withPathPrefix; cbv zeta; by destruct (is_empty _)).
  assert (∀ complete warning, (complete = false → items ≠ []) →
    let normalized := normalizeObjects items (tg_Bucket target) in
    let result := mkInspectionResult (summarize now normalized target (normalizeMode (in_Mode options)) complete warning)
                    (match normalizeMode (in_Mode options) with ModeItems => normalized | _ => [] end) in
    Forall (inspected target) (ins_Items result) ∧
    (su_Bucket (ins_Summary result) = tg_Bucket target ∧ su_Exists (ins_Summary result) = negb (su_ObjectCount (ins_Summary result) =? 0)%nat) ∧
    (normalizeMode (in_Mode options) = ModeItems → su_ObjectCount (ins_Summary result) = length (ins_Items result) ∧
       su_TotalBytes (ins_Summary result) = foldl (λ total item, wrap64 (total + so_SizeBytes item)) 0%Z (ins_Items result)) ∧
    (su_InventoryComplete (ins_Summary result) = false → su_Exists (ins_Summary result) = true)) as Hanswer.
  { intros complete warning Hc. cbv zeta. cbn [ins_Items ins_Summary summarize su_Bucket su_Exists su_ObjectCount su_TotalBytes su_InventoryComplete].
    split_and!.
    - assert (Forall (inspected target) (normalizeObjects items (tg_Bucket target))) as Hall.
      { apply Forall_forall. intros item (i & Hin & ->)%elem_of_normalized.
        destruct (inventory_items _ _ _ _ _ _ _ Hl Hi i Hin) as [Hk Hp]. unfold inspected, normalize_object. cbv zeta.
        cbn [so_Provider so_Bucket so_ObjectURL so_Key]. rewrite Hk. by split_and!. }
      by destruct (normalizeMode _).
    - done.
    - by destruct (normalizeObjects _ _).
    - destruct (normalizeMode (in_Mode options)); try discriminate. intros _. split; reflexivity.
    - intros Hn%Hc. apply negb_true_iff, bool_decide_eq_false. intros En. destruct items as [|i items]; [done|].
      assert (normalize_object (tg_Bucket target) i ∈ normalizeObjects (i :: items) (tg_Bucket target)) as Hin
        by (apply elem_of_normalized; exists i; split; [by left|done]).
      rewrite En in Hin. by apply elem_of_nil in Hin. }
  destruct failed as [e|]; [|injection E as _ <-; by apply Hanswer].
  destruct items as [|i items]; [done|]. destruct (as_project e) as [[kind message]|]; [|done].
  destruct (String.eqb kind ErrorListingIncomplete); [|done]. injection E as _ <-. by apply Hanswer.
Qed.
End project.

(** ** Executions *)
Section sample.
#[local] Existing Instance canonical_order.
(** The state is the log of the deleted locations and of the keys probed. *)
Definition storage_log : Type := list string.
Definition log_credential : Credential := mkCredential "cred" "data" "s3" "" "" "" "".
Definition under_key (prefix key : string) : bool :=
  is_empty (Trim (TrimSpace prefix) "/") || storageKeyWithinPrefix key prefix.
Definition log_listing (request : InventoryRequest) : InventoryResult :=
  mkInventoryResult (filter (λ o, under_key (pf_Prefix (ir_Target request)) (om_Key o) = true)
    ((λ key, mkObjectMetadata "s3" "data" key "" 3 "" "" None) <$> ["org/p/b"; "org/p/a"; "org/q/c"])) true.
#[local] Instance log_ports : ProjectPorts storage_log := {
  pp_LookupBucketScope := Some (λ _ project s, (s, Ok (mkScope "org" project "" "data" (if is_empty project then "org" else "org/" +:+ project), true)));
  pp_Credentials := Some (λ bucket _, Ok (if String.eqb bucket "data" then Some log_credential else None), λ _, Ok [log_credential]);
  pp_ListVisibleBuckets := Some (λ _ _, Ok {["cred" := mkVisible log_credential []]});
  pp_Inventory := Some (λ request s, (s, (log_listing request, None)));
  pp_Probe := Some (λ targets s, (s ++ (ot_Key ∘ pt_Target <$> targets), (λ t, mkStorageProbe (pt_ID t) (pt_Target t) no_metadata
                (if String.eqb (ot_Key (pt_Target t)) "gone" then Some (operationError ErrorNotFound "s3" None) else None)) <$> targets));
  pp_DeleteExact := Some (λ urls s, (s ++ urls, Ok tt));
  pp_ListPhysicalObjectsByScope := None;
  pp_DeleteBulkByScope := Some (λ _ _ _ s, (s, Ok 2));
  pp_ScopeCatalog := None }.
Definition sample_urls : list string :=
  ["s3://data/org/p/x"; "s3://data/org/q/y"; " s3://data/org/p/x"; "s3://other/org/p/z"; "gs://data/org/p/x"; "nothing"; "s3://data/%20org/p/w"].
(** What is outside the scope is refused; a blank in front of the key passes the check, but is part of the key. *)
Example sample_deletions :
  match (DeleteProjectObjects None "org" "p" sample_urls []).2 with
  | Ok r => (λ x, (dr_ObjectURL x, dr_Status x)) <$> r | Err _ => [] end =
  [("s3://data/org/p/x", "deleted"); ("s3://data/org/q/y", "forbidden"); ("s3://other/org/p/z", "error"); ("gs://data/org/p/x", "forbidden");
      ("nothing", "invalid"); ("s3://data/%20org/p/w", "deleted")].
Proof. vm_compute. reflexivity. Qed.
Example blank_key_is_deleted : @physicalTarget storage_log (λ _ _, Ok None) "s3://data/%20org/p/w" [] =
  Ok (Some (mkPhysical "s3" "data" " org/p/w" "")).
Proof. vm_compute. reflexivity. Qed.
(** A key with dots is probed outside the prefix of the project. *)
Example dotted_key_is_probed :
  let '(probed, r) := ProbeObject None (mkInspectRequest "" "org" "p" "../q/secret" "" "" None "") [] in
  (probed, is_ok r) = (["org/q/secret"], true).
Proof. vm_compute. reflexivity. Qed.
(** The second of two equal probes that fail is said to match. *)
Definition failing_probe : InspectRequest := mkInspectRequest "1" "" "" "" "" "s3://data/gone" (Some 0%Z) "".
Example repeated_failure_matches :
  match (ProbeObjects None [0; 1] [failing_probe; failing_probe] []).2 with
  | Ok m => (λ i, (λ r, (pb_Status r, pb_ValidationStatus r)) <$> m !! i) <$> [0; 1] | Err _ => [] end =
  [Some (ProbeNotFound, ValidationUnverifiable); Some (ProbeNotFound, ValidationMatched)].
Proof. vm_compute. reflexivity. Qed.

Definition sample_inspection : InspectionOptions := mkInspectionOptions ModeItems false "".
Lemma inspection_confined_witness :
  match InspectProjectStorage None 0 "org" "p" sample_inspection [] with
  | (_, Ok result) => authorized None "read" "org" "p" ∧ so_Key <$> ins_Items result = ["org/p/a"; "org/p/b"]
  | _ => False
  end.
Proof.
  destruct (InspectProjectStorage None 0 "org" "p" sample_inspection []) as [s' [result|e]] eqn:E; [|exfalso; vm_compute in E; discriminate].
  split.
  - apply (inspection_confined None 0 "org" "p" sample_inspection [] s' result); [|exact E].
    intros inventory request s s1 r failed o [= <-] [= _ <- _] [Hu Ho]%list_elem_of_filter. unfold under_key in Hu.
    assert (Trim (TrimSpace (om_Key o)) "/" = om_Key o) as Hk.
    { apply list_elem_of_fmap in Ho as (key & -> & Hin). simpl. apply elem_of_cons in Hin as [->|Hin]; [reflexivity|].
      apply elem_of_cons in Hin as [->|Hin]; [reflexivity|]. apply list_elem_of_singleton in Hin as ->. reflexivity. }
    split; [exact Hk|]. apply orb_true_iff in Hu as [Hu|Hu]; [left; by apply is_empty_spec|by right].
  - vm_compute in E. injection E as _ <-. reflexivity.
Defined.
End sample.
