(* ===== verification/Lfs.v ===== *)
(** * Git LFS transfers: internal/transfers/lfs and the pending metadata of the SQLite store
    The metadata of a file that is still to be uploaded is staged for some minutes, in the table lfs_pending_metadata
    (internal/persistence/sqlite/lfs.go); an upload is streamed to the provider in parts; the verification of the upload
    turns the metadata into a record.  The record service, the counters and the uploader of parts are parameters; one
    that is nil is [None].  Instants are nanoseconds since Go's zero time. *)
From S2P Require Import Prelude GoStrings GoURL Errors Resources Policy Objects Address Buckets Targets Multipart Attribution AccessIssue Upload.

Record PendingMetadata := mkPending { pm_OID : string; pm_Candidate : Candidate; pm_CreatedAt : Z; pm_ExpiresAt : Z }.
Definition minute : Z := (60 * 10 ^ 9)%Z.
Definition PendingMetadataTTL : Z := (20 * minute)%Z.
Record PendingStore (S : Type) := mkPendingStore {
  SavePendingMetadata : list PendingMetadata → service S unit;
  GetPendingMetadata : string → service S PendingMetadata;
  PopPendingMetadata : string → service S PendingMetadata }.
Arguments mkPendingStore {S}.
Arguments SavePendingMetadata {S}.
Arguments GetPendingMetadata {S}.
Arguments PopPendingMetadata {S}.
Definition no_pending_store : error := EText "pending LFS metadata store is not configured".
Definition no_counters : error := EText "file counters are not configured".

(** ** metadata.go *)
Section metadata.
Context `{MapOrder} `{Digests} {S : Type} (clock : S → Z) (pending : option (PendingStore S))
  (GetObject : string → string → service S ObjectRecord) (RegisterObjects : list ObjectRecord → service S unit)
  (RecordFileUpload : option (string → service S unit)).
Definition save_pending (entries : list PendingMetadata) : service S unit :=
  match pending with None => fail no_pending_store | Some store => SavePendingMetadata store entries end.
Definition candidateChecksums (candidate : Candidate) : list Checksum := default [] (cand_Checksums candidate).
Definition StagePendingMetadata (metadata : PendingMetadata) : service S unit :=
  oid ← if is_empty (TrimSpace (pm_OID metadata))
        then match CanonicalSHA256 (candidateChecksums (pm_Candidate metadata)) with
             | Some oid => mret oid
             | None => fail (EWrap "%w: pending LFS metadata requires an OID" (EDef ErrInvalidInput))
             end
        else mret (pm_OID metadata);
  now ← ask (λ s, Ok (clock s));
  let created := if (pm_CreatedAt metadata =? 0)%Z then now else pm_CreatedAt metadata in
  let expires := if (pm_ExpiresAt metadata =? 0)%Z then (created + PendingMetadataTTL)%Z else pm_ExpiresAt metadata in
  save_pending [mkPending oid (pm_Candidate metadata) created expires].
Definition stage_entry (now : Z) (index : nat) (candidate : Candidate) : result error PendingMetadata :=
  match CandidateToRecord candidate now with
  | Err e => Err (ELfs (MetadataStageError index false) (Some e))
  | Ok internalObject =>
      match CanonicalSHA256 (slice (r_Checksums internalObject)) with
      | None => Err (ELfs (MetadataStageError index true) None)
      | Some oid => Ok (mkPending oid candidate now (now + PendingMetadataTTL)%Z)
      end
  end.
(** The loop over the candidates, from an index on. *)
Fixpoint stage_entries (now : Z) (index : nat) (candidates : list Candidate) : result error (list PendingMetadata) :=
  match candidates with
  | [] => Ok []
  | candidate :: candidates =>
      entry ← stage_entry now index candidate;
      entries ← stage_entries now (index + 1) candidates;
      Ok (entry :: entries)
  end.
Definition Stage (candidates : list Candidate) : service S unit :=
  now ← ask (λ s, Ok (clock s));
  entries ← check (stage_entries now 0 candidates);
  save_pending entries.
Definition recordUpload (objectID : string) : service S unit :=
  match RecordFileUpload with None => fail no_counters | Some record => record objectID end.
Definition Verify (oid : string) : service S unit :=
  found ← attempt (GetObject oid "read");
  match found with
  | Ok object => recordUpload (r_Id object)
  | Err e =>
      if negb (IsNotFoundError e) then fail e
      else
        match pending with
        | None => fail no_pending_store
        | Some store =>
            entry ← PopPendingMetadata store oid;
            now ← ask (λ s, Ok (clock s));
            match CandidateToRecord (pm_Candidate entry) now with
            | Err e => fail (ELfs MetadataCandidateError (Some e))
            | Ok internalObject =>
                _ ← RegisterObjects [internalObject];
                recordUpload (r_Id internalObject)
            end
        end
  end.
End metadata.

(** ** upload.go *)
Definition multipartPartSize : Z := (64 * 1024 * 1024)%Z.
(** What a reader delivers: bytes, and then the end of the file, io.ErrUnexpectedEOF or another error. *)
Inductive reader_end := EndOfFile | EndUnexpected | EndError (e : error).
Record reader := mkReader { rd_data : list Ascii.ascii; rd_end : reader_end }.
(** [io.ReadFull] into a buffer: what it read, its error, and the rest of the reader. *)
Inductive read_error := NoReadError | ReadEOF | ReadUnexpectedEOF | ReadError (e : error).
Definition ReadFull (size : Z) (r : reader) : list Ascii.ascii * read_error * reader :=
  let count := Z.to_nat (Z.min size (Z.of_nat (length (rd_data r)))) in
  let err := if (Z.of_nat count =? size)%Z then NoReadError
             else match rd_end r with
                  | EndOfFile => if (count =? 0)%nat then ReadEOF else ReadUnexpectedEOF
                  | EndUnexpected => ReadUnexpectedEOF
                  | EndError e => ReadError e
                  end in
  (take count (rd_data r), err, mkReader (drop count (rd_data r)) (rd_end r)).

Section upload.
Context {S Event : Type} `{!TransferPorts S Event} (uploader : option (string → list Ascii.ascii → service S string))
  (RecordFileUpload : option (string → service S unit)).
Definition upload_part (upload : string → list Ascii.ascii → service S string) (bucket key uploadID : string) (partNumber : Z)
    (content : list Ascii.ascii) : service S CompletedPart :=
  partURL ← failing "failed to sign multipart part: %w" (SignMultipartPart bucket key uploadID partNumber);
  etag ← failing "failed uploading multipart part: %w" (upload partURL content);
  mret (mkCompletedPart partNumber etag).
(** The loop; its fuel is one more than the number of bytes of the body. *)
Fixpoint upload_parts (fuel : nat) (size : Z) (part : Z → list Ascii.ascii → service S CompletedPart) (partNumber : Z)
    (parts : list CompletedPart) (body : reader) : service S (list CompletedPart) :=
  match fuel with
  | O => fail (EText "out of fuel")
  | Datatypes.S fuel =>
      let '(content, readErr, rest) := ReadFull size body in
      match readErr with
      | ReadEOF => mret parts
      | ReadError e => fail (EWrap "failed reading upload stream: %w" e)
      | ReadUnexpectedEOF =>
          if (length content =? 0)%nat then mret parts
          else done ← part partNumber content; mret (parts ++ [done])
      | NoReadError => done ← part partNumber content; upload_parts fuel size part (wrap32 (partNumber + 1)) (parts ++ [done]) rest
      end
  end.
Definition Upload (body : reader) (bucket key objectID : string) : service S unit :=
  uploadID ← failing "failed to initialize multipart upload: %w" (InitMultipartUpload bucket key);
  match uploader with
  | None => fail (EText "failed uploading multipart part: multipart part uploader is not configured")
  | Some upload =>
      parts ← upload_parts (length (rd_data body) + 1) multipartPartSize (upload_part upload bucket key uploadID) 1 [] body;
      _ ← failing "failed to complete multipart upload: %w" (CompleteMultipartUpload bucket key uploadID parts);
      match RecordFileUpload with
      | None => fail (EText "failed to record upload usage: file counters are not configured")
      | Some record => failing "failed to record upload usage: %w" (record objectID)
      end
  end.
End upload.

(** ** preparation.go *)
Record UploadPreparation := mkUploadPreparation { up_Existing : bool; up_Size : Z }.
Record UploadTarget := mkUploadTarget { ut_Bucket : string; ut_Key : string; ut_ObjectID : string }.
(** The first method with a location: its URL as it is, and its id. *)
Definition located_method (m : AccessMethod) : option (string * string) :=
  match am_AccessUrl m with
  | Some u => if is_empty (TrimSpace (au_Url u)) then None else Some (au_Url u, accessMethodID m)
  | None => None
  end.

Section preparation.
Context `{MapOrder} `{Digests} {S : Type} `{!TransferPorts S Event} (clock : S → Z) (pending : option (PendingStore S))
  (GetObject : string → string → service S ObjectRecord) (RequireObjectResources : string → list string → service S unit)
  (RecordFileDownload : option (string → service S unit)).
(** The URL that is handed out. *)
Definition PrepareDownload (caller : Caller) (oid : string) : service S string :=
  found ← attempt (GetObject oid "read");
  match found with
  | Err e => fail (ELfs DownloadLookupError (Some e))
  | Ok object =>
      match head (omap located_method (default [] (r_AccessMethods object))) with
      | None => fail (EDef ErrObjectLocationUnavailable)
      | Some (sourceURL, accessID) =>
          signedURL ← SignObjectURL object sourceURL (mkAccessOptions 0 "" "");
          match RecordFileDownload with
          | None => fail no_counters
          | Some record =>
              _ ← record oid;
              _ ← RecordAccessIssued clock caller
                    (mkAccessRequest (Some object) None accessID ProviderTransferDirectionDownload sourceURL None None 0 "" "");
              mret signedURL
          end
      end
  end.
Definition firstConfiguredBucket : service S string :=
  match port_CredentialReader with
  | None => fail (EDef ErrBucketNotConfigured)
  | Some list =>
      credentials ← list;
      match credentials with
      | [] => fail (EDef ErrBucketNotConfigured)
      | credential :: _ =>
          if is_empty (TrimSpace (c_Bucket credential)) then fail (EDef ErrBucketNotConfigured)
          else mret (TrimSpace (c_Bucket credential))
      end
  end.
Definition hasConfiguredBucket : service S bool := done ← attempt firstConfiguredBucket; mret (is_ok done).
(** The size comes with an error too: the preparation, and the error if there is one. *)
Definition PrepareUpload (oid : string) (reqSize : Z) : service S (UploadPreparation * option error) :=
  let result := mkUploadPreparation false reqSize in
  found ← attempt (GetObject oid "read");
  match found with
  | Ok existing => mret (mkUploadPreparation true (r_Size existing), None)
  | Err e =>
      if negb (IsNotFoundError e) then mret (result, Some e)
      else
        allowed ← attempt (RequireObjectResources "create" ["/data_file"]);
        match allowed with
        | Err e => mret (result, Some e)
        | Ok _ =>
            configured ← hasConfiguredBucket;
            if negb configured then mret (result, Some (EDef ErrBucketNotConfigured))
            else mret (mkUploadPreparation false (if (reqSize <? 0)%Z then 0%Z else reqSize), None)
        end
  end.
Definition targetForObject (object : ObjectRecord) : service S UploadTarget :=
  target ← ResolveCanonicalStorageTarget (mkTargetRequest (Some object) "" "" "" true);
  if is_empty (t_Bucket target) || is_empty (t_Key target)
  then fail (EText "canonical LFS upload location is not an s3 url")
  else mret (mkUploadTarget (t_Bucket target) (t_Key target) (r_Id object)).
Definition getPendingMetadata (oid : string) : service S PendingMetadata :=
  match pending with None => fail no_pending_store | Some store => GetPendingMetadata store oid end.
Definition ResolveUploadTarget (oid : string) : service S UploadTarget :=
  defaultBucket ← firstConfiguredBucket;
  found ← attempt (GetObject oid "read");
  match found with
  | Ok object => targetForObject object
  | Err e =>
      if negb (IsNotFoundError e) then fail e
      else
        entry ← attempt (getPendingMetadata oid);
        match entry with
        | Ok entry =>
            now ← ask (λ s, Ok (clock s));
            object ← check (CandidateToRecord (pm_Candidate entry) now);
            targetForObject object
        | Err e => if negb (IsNotFoundError e) then fail e else mret (mkUploadTarget defaultBucket oid oid)
        end
  end.
End preparation.

(** ** internal/persistence/sqlite/lfs.go *)
Record pending_row := mkPendingRow { pr_candidate_json : string; pr_created_time : Z; pr_expires_time : Z }.
Abbreviation pending_table := (gmap string pending_row).
(** encoding/json on candidates. *)
Class CandidateJSON := { json_Marshal : Candidate → result error string; json_Unmarshal : string → result error Candidate }.

Section sqlite.
Context `{CandidateJSON}.
(** DELETE FROM lfs_pending_metadata WHERE expires_time <= ? *)
Definition prune_pending (now : Z) (table : pending_table) : pending_table :=
  filter (λ row : string * pending_row, (now < pr_expires_time row.2)%Z) table.
Definition insert_pending (table : pending_table) (e : PendingMetadata) : result error pending_table :=
  match json_Marshal (pm_Candidate e) with
  | Err e => Err (EWrap "failed to marshal pending candidate for oid %s: %w" e)
  | Ok raw => Ok (<[pm_OID e := mkPendingRow raw (pm_CreatedAt e) (pm_ExpiresAt e)]> table)
  end.
Definition sqlite_SavePendingMetadata (now : Z) (entries : list PendingMetadata) (table : pending_table) : pending_table * result error unit :=
  match entries with
  | [] => (table, Ok tt)
  | _ => match foldlM insert_pending (prune_pending now table) entries with
         | Ok table' => (table', Ok tt)
         | Err e => (table, Err e)
         end
  end.
Definition pending_not_found : error := EWrap "%w: pending metadata not found" (EDef ErrNotFound).
(** SELECT ... WHERE oid = ? AND expires_time > ? *)
Definition select_pending (now : Z) (oid : string) (table : pending_table) : result error pending_row :=
  match table !! oid with
  | Some row => if (now <? pr_expires_time row)%Z then Ok row else Err pending_not_found
  | None => Err pending_not_found
  end.
Definition pending_of (oid : string) (row : pending_row) : result error PendingMetadata :=
  match json_Unmarshal (pr_candidate_json row) with
  | Err e => Err (EWrap "failed to parse pending metadata candidate for oid %s: %w" e)
  | Ok c => Ok (mkPending oid c (pr_created_time row) (pr_expires_time row))
  end.
(** The clock is read for the removal of what has expired and again for the query. *)
Definition sqlite_GetPendingMetadata (pruned now : Z) (oid : string) (table : pending_table) : pending_table * result error PendingMetadata :=
  let table := prune_pending pruned table in
  (table, row ← select_pending now oid table; pending_of oid row).
Definition sqlite_PopPendingMetadata (pruned now : Z) (oid : string) (table : pending_table) : pending_table * result error PendingMetadata :=
  let kept := prune_pending pruned table in
  match row ← select_pending now oid kept; pending_of oid row with
  | Ok entry => (delete oid kept, Ok entry)
  | Err e => (table, Err e)
  end.
(** A table beside a clock, as the store of the workflows: every read of the clock is one later. *)
Definition sqlite_pending {S : Type} (get : S → pending_table) (set : pending_table → S → S) (clock : S → Z) : PendingStore S :=
  let run {A} (f : pending_table → pending_table * result error A) : service S A :=
    λ s, let '(table, r) := f (get s) in (set table s, r) in
  mkPendingStore
    (λ entries s, run (sqlite_SavePendingMetadata (clock s) entries) s)
    (λ oid s, run (sqlite_GetPendingMetadata (clock s) (clock s) oid) s)
    (λ oid s, run (sqlite_PopPendingMetadata (clock s) (clock s) oid) s).
End sqlite.
