(* ===== verification/LfsHandlers.v ===== *)
(** * The Git LFS endpoints: internal/httpapi/lfs
    The conversion of submitted metadata, the limits that are checked before a request is handled, and the handlers.  An
    answer is a value, or a status with a message. *)
From S2P Require Import Prelude GoStrings GoURL Errors Resources Policy Objects Address Buckets Targets Multipart Attribution AccessIssue Lfs.

(** ** candidate.go *)
(** What the handler reads of an access method and of a candidate (apigen/lfsapi). *)
Record LfsAccessMethod := mkLfsMethod {
  lm_AccessId : option string; lm_AccessUrl : option (option string) (* the field Url of a pointer *); lm_Region : option string;
  lm_Type : option string }.
Record DrsObjectCandidate := mkDrsCandidate {
  dc_AccessMethods : option (list LfsAccessMethod); dc_Aliases : option (list string); dc_Checksums : option (list Checksum);
  dc_Description : option string; dc_Id : option string; dc_MimeType : option string; dc_Name : option string;
  dc_Size : option Z }.
Definition checksumValues (value : option (list Checksum)) : list Checksum := default [] value.
Definition stringSliceValue (value : option (list string)) : list string := default [] value.
Definition stringValue (value : option string) : string := default "" value.
Definition is_sha256_type (c : Checksum) : bool := EqualFold (TrimSpace (cs_Type c)) "sha256".
Definition converted_method (m : LfsAccessMethod) : AccessMethod :=
  mkAccessMethod (lm_AccessId m)
    (match lm_AccessUrl m with Some (Some url) => Some (mkAccessURL None url) | _ => None end)
    None None (lm_Region m) None (stringValue (lm_Type m)).
Definition FromGeneratedCandidate (value : DrsObjectCandidate) : Candidate :=
  let aliases := stringSliceValue (dc_Aliases value) in
  let explicitID := TrimSpace (stringValue (dc_Id value)) in
  let explicitID := if is_empty explicitID
                    then match List.find is_sha256_type (checksumValues (dc_Checksums value)) with
                         | Some c => NormalizeOid (cs_Checksum c)
                         | None => explicitID
                         end
                    else explicitID in
  let aliases := if is_empty explicitID then aliases else ("id:" +:+ explicitID) :: aliases in
  mkCandidate ((λ methods : list LfsAccessMethod, converted_method <$> methods) <$> dc_AccessMethods value) (Some aliases)
    (match dc_Checksums value with
     | Some (c :: l) => Some ((λ c, mkChecksum (cs_Type c) (cs_Checksum c)) <$> (c :: l))
     | _ => None
     end)
    None None (dc_Description value) (dc_MimeType value) (dc_Name value) (dc_Size value).

(** ** routes.go and middleware.go *)
Record Options := mkOptions {
  MaxBatchObjects : Z; MaxBatchBodyBytes : Z; RequestLimitPerMinute : Z; BandwidthLimitBytesPerMinute : Z }.
Definition DefaultOptions : Options := mkOptions 1000 (10 * 1024 * 1024) 1200 0.
(** What the middleware reads of a request. *)
Record lfs_headers := mkHeaders { h_Accept : string; h_ContentType : string; h_Authorization : string; h_IP : string }.
Record windowCounter := mkWindowCounter { wc_Minute : Z; wc_Count : Z }.
Record windowBytes := mkWindowBytes { wb_Minute : Z; wb_Bytes : Z }.
#[export] Instance windowCounter_eq_dec : EqDecision windowCounter.
Proof. solve_decision. Defined.
#[export] Instance windowBytes_eq_dec : EqDecision windowBytes.
Proof. solve_decision. Defined.
(** The windows of all clients; a refusal is a status with its message. *)
Record limiters := mkLimiters { requestWindowMap : gmap string windowCounter; bandwidthWindowMap : gmap string windowBytes }.
Definition ResetLFSLimiters : limiters := mkLimiters ∅ ∅.
Abbreviation refusal := (Z * string)%type.
Definition mediaType := "application/vnd.git-lfs+json".
Definition StatusNotAcceptable := 406%Z.
Definition StatusRequestEntityTooLarge := 413%Z.
Definition StatusUnprocessableEntity := 422%Z.
Definition StatusTooManyRequests := 429%Z.

Definition ValidateLFSRequestHeaders (h : lfs_headers) (requireAccept requireContentType : bool) : option refusal :=
  let accept := ToLower (TrimSpace (h_Accept h)) in
  let contentType := ToLower (TrimSpace (h_ContentType h)) in
  if requireAccept && (is_empty accept || (negb (Contains accept mediaType) && negb (Contains accept "*/*")))
  then Some (StatusNotAcceptable, "Accept header must include " +:+ mediaType)
  else if requireContentType && (is_empty contentType || negb (Contains contentType mediaType))
  then Some (StatusUnprocessableEntity, "Content-Type must be " +:+ mediaType)
  else None.
Definition ValidateLFSMetadataHeaders (h : lfs_headers) : option refusal :=
  let contentType := ToLower (TrimSpace (h_ContentType h)) in
  if is_empty contentType || (negb (Contains contentType mediaType) && negb (Contains contentType "application/json"))
  then Some (StatusUnprocessableEntity, "Content-Type must be " +:+ mediaType)
  else None.
Definition requestClientKey (h : lfs_headers) : string :=
  let authorization := TrimSpace (h_Authorization h) in
  if negb (is_empty authorization) then
    "auth:" +:+ (if (64 <? String.length authorization)%nat then String.substring 0 64 authorization else authorization)
  else "addr:" +:+ h_IP h.
Definition enforceRequestLimit (opts : Options) (h : lfs_headers) (nowMinute : Z) (l : limiters) : limiters * option refusal :=
  if (RequestLimitPerMinute opts <=? 0)%Z then (l, None)
  else
    let key := requestClientKey h in
    let window := default (mkWindowCounter 0 0) (requestWindowMap l !! key) in
    let window := if (wc_Minute window =? nowMinute)%Z then window else mkWindowCounter nowMinute 0 in
    let window := mkWindowCounter (wc_Minute window) (wc_Count window + 1) in
    (mkLimiters (<[key := window]> (requestWindowMap l)) (bandwidthWindowMap l),
     if (RequestLimitPerMinute opts <? wc_Count window)%Z then Some (StatusTooManyRequests, "rate limit exceeded") else None).
Definition enforceBandwidthLimit (opts : Options) (h : lfs_headers) (nowMinute bytes : Z) (l : limiters) : limiters * option refusal :=
  if (BandwidthLimitBytesPerMinute opts <=? 0)%Z || (bytes <=? 0)%Z then (l, None)
  else
    let key := requestClientKey h in
    let window := default (mkWindowBytes 0 0) (bandwidthWindowMap l !! key) in
    let window := if (wb_Minute window =? nowMinute)%Z then window else mkWindowBytes nowMinute 0 in
    let total := wrap64 (wb_Bytes window + bytes) in
    if (BandwidthLimitBytesPerMinute opts <? total)%Z then (l, Some (509%Z, "bandwidth limit exceeded"))
    else (mkLimiters (requestWindowMap l) (<[key := mkWindowBytes (wb_Minute window) total]> (bandwidthWindowMap l)), None).
(** The sizes of a batch that count, added up. *)
Definition batch_bytes (sizes : list Z) : Z :=
  foldl (λ total size, if (0 <? size)%Z then wrap64 (total + size) else total) 0%Z sizes.
(** A request that reaches the middleware: the length of a batch body and the sizes in it, when it has a body. *)
Inductive lfs_operation := LfsBatchOp (body_length : Z) (sizes : option (list Z)) | LfsStageMetadataOp | LfsVerifyOp | LfsUploadProxyOp.
(** One check after the other; the first refusal counts. *)
Definition and_then (check : limiters → limiters * option refusal) (next : limiters → limiters * option refusal)
    (l : limiters) : limiters * option refusal :=
  match check l with (l, Some r) => (l, Some r) | (l, None) => next l end.
Definition valid (r : option refusal) (l : limiters) : limiters * option refusal := (l, r).
(** The handler is called when nothing was refused. *)
Definition LFSRequestMiddleware (opts : Options) (op : lfs_operation) (h : lfs_headers) (nowMinute : Z) : limiters → limiters * option refusal :=
  match op with
  | LfsBatchOp body_length sizes =>
      and_then (valid (ValidateLFSRequestHeaders h true true))
        (and_then (enforceRequestLimit opts h nowMinute)
           (and_then (valid (if (0 <? MaxBatchBodyBytes opts)%Z && (MaxBatchBodyBytes opts <? body_length)%Z
                             then Some (StatusRequestEntityTooLarge, "batch request body too large") else None))
              (match sizes with
               | Some sizes => enforceBandwidthLimit opts h nowMinute (batch_bytes sizes)
               | None => valid None
               end)))
  | LfsStageMetadataOp => and_then (valid (ValidateLFSMetadataHeaders h)) (enforceRequestLimit opts h nowMinute)
  | LfsVerifyOp => and_then (valid (ValidateLFSRequestHeaders h true true)) (enforceRequestLimit opts h nowMinute)
  | LfsUploadProxyOp => enforceRequestLimit opts h nowMinute
  end.

(** ** handlers.go *)
Inductive lfs_answer (A : Type) := Answered (a : A) | Refused (status : Z) (message : string).
Arguments Answered {A} a.
Arguments Refused {A} status message.
Record BatchRequestObject := mkBatchObject { bq_Oid : string; bq_Size : Z }.
Record BatchRequest := mkBatchRequest { bq_Operation : string; bq_Objects : list BatchRequestObject }.
Record ObjectError := mkObjectError { oe_Code : Z; oe_Message : string }.
Record BatchActions := mkBatchActions { ba_Download : option string; ba_Upload : option string; ba_Verify : option string }.
Record BatchResponseObject := mkBatchResponse {
  bp_Oid : string; bp_Size : Z; bp_Actions : option BatchActions; bp_Error : option ObjectError }.
#[export] Instance ObjectError_eq_dec : EqDecision ObjectError.
Proof. solve_decision. Defined.
#[export] Instance BatchActions_eq_dec : EqDecision BatchActions.
Proof. solve_decision. Defined.
#[export] Instance BatchResponseObject_eq_dec : EqDecision BatchResponseObject.
Proof. solve_decision. Defined.
(** [http.StatusText] of the two statuses that it is asked for. *)
Definition lfsInternalError (status : Z) : string :=
  if (status =? 507)%Z then "Insufficient Storage" else "Internal Server Error".
Definition dbErrToBatchError (e : error) : ObjectError :=
  if errors_Is e ErrObjectLocationUnavailable then mkObjectError 404 "no object location available"
  else if errors_Is e ErrBucketNotConfigured then mkObjectError 507 (lfsInternalError 507)
  else if IsNotFoundError e then mkObjectError 404 "object not found"
  else if errors_Is e ErrAccessDenied then mkObjectError 403 "forbidden"
  else mkObjectError 500 (lfsInternalError 500).
(** [errors.As] with a type of this package: its data and its cause. *)
Definition as_lfs {A} (select : lfs_wrapper → option A) : error → option (A * option error) :=
  errors_As (λ e, match e with ELfs w c => a ← select w; Some (a, c) | _ => None end).
Definition is_lookup (w : lfs_wrapper) : option unit := match w with DownloadLookupError => Some tt | _ => None end.
Definition is_candidate (w : lfs_wrapper) : option unit := match w with MetadataCandidateError => Some tt | _ => None end.
Definition is_stage (w : lfs_wrapper) : option (nat * bool) :=
  match w with MetadataStageError index missing => Some (index, missing) | _ => None end.
Definition downloadErrToBatchError (e : error) : ObjectError :=
  match as_lfs is_lookup e with
  | Some (_, Some cause) => dbErrToBatchError cause
  | Some (_, None) => dbErrToBatchError (EText "object lookup failed")
  | None => if errors_Is e ErrObjectLocationUnavailable then dbErrToBatchError e else mkObjectError 500 (lfsInternalError 500)
  end.

Section handlers.
Context `{MapOrder} `{Digests} {S : Type} `{!TransferPorts S Event} (clock : S → Z) (opts : Options) (pending : option (PendingStore S))
  (GetObject : string → string → service S ObjectRecord) (RegisterObjects : list ObjectRecord → service S unit)
  (RequireObjectResources : string → list string → service S unit)
  (RecordFileUpload RecordFileDownload : option (string → service S unit))
  (uploader : option (string → list Ascii.ascii → service S string)).
Definition batch_object (caller : Caller) (baseURL operation : string) (input : BatchRequestObject) : service S BatchResponseObject :=
  if (bq_Size input <? 0)%Z then
    mret (mkBatchResponse (bq_Oid input) 0 None (Some (mkObjectError 400 "size must be non-negative")))
  else
    let oid := NormalizeOid (bq_Oid input) in
    if is_empty oid then
      mret (mkBatchResponse (bq_Oid input) (bq_Size input) None (Some (mkObjectError 400 "invalid oid")))
    else if String.eqb operation "download" then
      preparation ← attempt (PrepareDownload clock GetObject RecordFileDownload caller oid);
      mret (match preparation with
            | Err e => mkBatchResponse oid (bq_Size input) None (Some (downloadErrToBatchError e))
            | Ok signedURL => mkBatchResponse oid (bq_Size input) (Some (mkBatchActions (Some signedURL) None None)) None
            end)
    else
      '(preparation, err) ← PrepareUpload GetObject RequireObjectResources oid (bq_Size input);
      mret (match err with
            | Some e => mkBatchResponse oid (up_Size preparation) None (Some (dbErrToBatchError e))
            | None =>
                mkBatchResponse oid (up_Size preparation)
                  (if up_Existing preparation then None
                   else Some (mkBatchActions None (Some (baseURL +:+ "/info/lfs/objects/" +:+ oid)) (Some (baseURL +:+ "/info/lfs/verify"))))
                  None
            end).
(** The response carries the transfer "basic" and the hash algorithm "sha256" beside the objects. *)
Definition LfsBatch (caller : Caller) (baseURL : string) (request : option BatchRequest) : service S (lfs_answer (list BatchResponseObject)) :=
  match request with
  | None => mret (Refused 500 "missing request body")
  | Some req =>
      let operation := ToLower (TrimSpace (bq_Operation req)) in
      if negb (String.eqb operation "download") && negb (String.eqb operation "upload")
      then mret (Refused 422 "operation must be 'download' or 'upload'")
      else if bool_decide (bq_Objects req = []) then mret (Refused 422 "objects cannot be empty")
      else if (0 <? MaxBatchObjects opts)%Z && (MaxBatchObjects opts <? Z.of_nat (length (bq_Objects req)))%Z
      then mret (Refused 413 "batch contains too many objects")
      else responses ← mapM (batch_object caller baseURL operation) (bq_Objects req); mret (Answered responses)
  end.
(** The text of an error that is sent to the client is not modelled: the argument [text]. *)
Definition LfsVerify (text : error → string) (request : option BatchRequestObject) : service S (lfs_answer unit) :=
  match request with
  | None => mret (Refused 400 "missing request body")
  | Some body =>
      let oid := NormalizeOid (bq_Oid body) in
      if is_empty oid then mret (Refused 400 "invalid oid")
      else if (bq_Size body <? 0)%Z then mret (Refused 400 "size must be non-negative")
      else
        verified ← attempt (Verify clock pending GetObject RegisterObjects RecordFileUpload oid);
        mret (match verified with
              | Ok _ => Answered tt
              | Err e =>
                  if bool_decide (is_Some (as_lfs is_candidate e)) then Refused 400 (text e)
                  else if IsNotFoundError e then Refused 404 "Object not found"
                  else Refused 500 (lfsInternalError 500)
              end)
  end.
(** The number of staged candidates, an int32. *)
Definition LfsStageMetadata (input : option (list DrsObjectCandidate)) : service S (lfs_answer Z) :=
  match input with
  | None | Some [] => mret (Refused 400 "candidates cannot be empty")
  | Some input =>
      if existsb (λ c, match dc_Size c with Some size => (size <? 0)%Z | None => false end) input
      then mret (Refused 400 "candidate[%d] size must be non-negative")
      else
        staged ← attempt (Stage clock pending (FromGeneratedCandidate <$> input));
        mret (match staged with
              | Ok _ => Answered (Upload.wrap32 (Z.of_nat (length input)))
              | Err e =>
                  match as_lfs is_stage e with
                  | Some ((_, missing), _) =>
                      Refused 400 (if missing : bool then "candidate[%d] missing canonical sha256" else "candidate[%d] invalid: %v")
                  | None => Refused 500 (lfsInternalError 500)
                  end
              end)
  end.
Definition LfsUploadProxy (requestOid : string) (body : reader) : service S (lfs_answer unit) :=
  let oid := NormalizeOid requestOid in
  if is_empty oid then mret (Refused 400 "invalid oid")
  else
    target ← attempt (ResolveUploadTarget clock pending GetObject oid);
    match target with
    | Err e => let status := if errors_Is e ErrBucketNotConfigured then 507%Z else 500%Z in mret (Refused status (lfsInternalError status))
    | Ok target =>
        uploaded ← attempt (Upload uploader RecordFileUpload body (ut_Bucket target) (ut_Key target) (ut_ObjectID target));
        mret (match uploaded with Ok _ => Answered tt | Err _ => Refused 500 (lfsInternalError 500) end)
    end.
End handlers.
