(* ===== verification/LfsProperties.v ===== *)
(** * What the LFS workflows promise
    A proxied upload is a sequence of parts that make up its body; staged metadata is found until it expires, and once. *)
From S2P Require Import Prelude GoStrings GoURL Errors Resources Policy Objects ContentStore ContentReads ContentQueries Address Buckets Targets Multipart Attribution AccessIssue Upload UploadProperties Lfs.

(** ** Uploads in parts *)
Section upload.
Context {S Event : Type} `{!TransferPorts S Event}.
Fixpoint numbered {A} (n : Z) (l : list A) : list (Z * A) :=
  match l with [] => [] | a :: l => (n, a) :: numbered (n + 1) l end.
Lemma numbered_app {A} n (l1 l2 : list A) : numbered n (l1 ++ l2) = numbered n l1 ++ numbered (n + Z.of_nat (length l1)) l2.
Proof.
  revert n. induction l1 as [|a l1 IH]; intros n; simpl; [by rewrite Z.add_0_r|]. rewrite IH. do 2 f_equal. f_equal. lia.
Qed.
(** What of a body is sent: all of it, or the whole buffers before the error of its reader. *)
Definition sent (size : nat) (body : reader) : list Ascii.ascii :=
  match rd_end body with
  | EndError _ => take (length (rd_data body) / size * size) (rd_data body)
  | _ => rd_data body
  end.
Definition body_chunks (size : nat) (body : reader) : list (list Ascii.ascii) :=
  chunks_of (length (sent size body)) size (sent size body).
(** How the stream ends. *)
Definition ended {A} (body : reader) (parts : A) : service S A :=
  match rd_end body with EndError e => fail (EWrap "failed reading upload stream: %w" e) | _ => mret parts end.
(** The reference: the parts one after the other, numbered from 1. *)
Definition upload_all {A} (part : Z → list Ascii.ascii → service S A) (n : Z) (chunks : list (list Ascii.ascii)) : service S (list A) :=
  mapM (λ '(i, content), part i content) (numbered n chunks).
Definition upload_reference (upload : string → list Ascii.ascii → service S string) (record : string → service S unit) (body : reader)
    (bucket key objectID : string) : service S unit :=
  uploadID ← failing "failed to initialize multipart upload: %w" (InitMultipartUpload bucket key);
  parts ← upload_all (upload_part upload bucket key uploadID) 1 (body_chunks (Z.to_nat multipartPartSize) body);
  parts ← ended body parts;
  _ ← failing "failed to complete multipart upload: %w" (CompleteMultipartUpload bucket key uploadID parts);
  failing "failed to record upload usage: %w" (record objectID).

Lemma chunks_of_fuel {A} size fuel fuel' (l : list A) :
  0 < size → length l ≤ fuel → length l ≤ fuel' → chunks_of fuel size l = chunks_of fuel' size l.
Proof.
  intros Hs. revert fuel' l. induction fuel as [|fuel IH]; intros [|fuel'] [|a l]; simpl; try done; try lia.
  intros H1 H2. f_equal. apply IH; rewrite length_drop; simpl; lia.
Qed.
Lemma chunks_of_nonempty {A} size fuel (l c : list A) : 0 < size → c ∈ chunks_of fuel size l → c ≠ [].
Proof.
  intros Hs. revert l. induction fuel as [|fuel IH]; intros [|a l]; simpl; try by intros ?%elem_of_nil.
  intros [->|Hc]%elem_of_cons; [|by eapply IH]. by destruct size; [lia|].
Qed.
Lemma body_chunks_step size body :
  0 < size → size ≤ length (rd_data body) →
  body_chunks size body = take size (rd_data body) :: body_chunks size (mkReader (drop size (rd_data body)) (rd_end body)).
Proof.
  intros Hs Hlen. unfold body_chunks.
  assert (sent size body = take size (rd_data body) ++ sent size (mkReader (drop size (rd_data body)) (rd_end body))) as ->.
  { unfold sent. simpl. destruct (rd_end body); try by rewrite take_drop.
    rewrite length_drop. pose proof (Nat.div_add (length (rd_data body) - size) 1 size) as Hd.
    replace (length (rd_data body) - size + 1 * size) with (length (rd_data body)) in Hd by lia. rewrite Hd by lia.
    rewrite Nat.add_1_r. cbn [Nat.mul]. rewrite take_take_drop. done. }
  set (rest := sent size _). rewrite length_app, length_take_le by done.
  destruct size as [|size]; [lia|]. cbn [chunks_of Nat.add]. destruct (rd_data body) as [|a l]; [simpl in Hlen; lia|].
  cbn [take app]. f_equal.
  - rewrite take_app_le by (rewrite length_take; simpl in Hlen; lia). f_equal. rewrite firstn_all2; [done|rewrite length_take; lia].
  - simpl in Hlen. cbn [drop]. rewrite drop_app_ge by (rewrite length_take; lia). rewrite length_take_le by lia.
    rewrite Nat.sub_diag, drop_0. apply chunks_of_fuel; lia.
Qed.
Lemma body_chunks_last size body :
  length (rd_data body) < size →
  body_chunks size body = match rd_end body with
                          | EndError _ => []
                          | _ => if (length (rd_data body) =? 0)%nat then [] else [rd_data body]
                          end.
Proof.
  intros Hlen. unfold body_chunks, sent. destruct (rd_end body).
  3: { by rewrite Nat.div_small by done. }
  all: destruct (rd_data body) as [|a l]; [done|]; cbn [length chunks_of Nat.eqb]; (rewrite take_ge, drop_ge by (simpl in *; lia));
    by destruct (length l).
Qed.
Lemma upload_parts_spec {size} part fuel n acc body (s : S) :
  0 < size → length (rd_data body) < fuel → (- 2 ^ 31 <= n)%Z → (n + Z.of_nat (length (rd_data body) / size) < 2 ^ 31 - 1)%Z →
  upload_parts fuel (Z.of_nat size) part n acc body s =
  (parts ← upload_all part n (body_chunks size body); ended body (acc ++ parts)) s.
Proof.
  intros Hs. revert n acc body s. induction fuel as [|fuel IH]; intros n acc body s Hf Hn Hlast; [lia|].
  cbn [upload_parts]. unfold ReadFull. destruct (decide (size ≤ length (rd_data body))) as [Hle|Hlt].
  - rewrite Z.min_l, Nat2Z.id, Z.eqb_refl by lia. rewrite body_chunks_step by done. unfold upload_all. cbn [numbered mapM].
    assert (length (rd_data body) / size = Datatypes.S ((length (rd_data body) - size) / size)) as Hd.
    { pose proof (Nat.div_add (length (rd_data body) - size) 1 size) as Hd.
      replace (length (rd_data body) - size + 1 * size) with (length (rd_data body)) in Hd by lia. rewrite Hd; lia. }
    unfold mbind, service_bind.
    destruct (part n _ s) as [s1 [x|e]]; [|done].
    rewrite wrap32_id by lia. rewrite IH; cbn [rd_data rd_end]; [|rewrite length_drop; lia|lia|rewrite length_drop; lia].
    unfold upload_all, mbind, service_bind. match goal with |- context [?m s1] => destruct (m s1) as [s2 [parts|e]] end; [|done]. simpl. unfold mret, service_ret.
    by rewrite <- (assoc_L (++)).
  - rewrite Z.min_r, Nat2Z.id by lia. rewrite take_ge by done.
    destruct (Z.eqb_spec (Z.of_nat (length (rd_data body))) (Z.of_nat size)) as [?|_]; [lia|].
    rewrite body_chunks_last by lia. unfold ended, upload_all. destruct (rd_end body) as [| |e]; cbn [length].
    3: { done. }
    all: destruct (length (rd_data body) =? 0)%nat eqn:E; rewrite ?E; cbn [numbered mapM];
      unfold mbind, service_bind, mret, service_ret; [by rewrite app_nil_r|]; by destruct (part n _ s) as [s1 [x|e]].
Qed.

End upload.

(** ** Staged metadata *)
Section staged.
Context `{MapOrder} `{Digests} `{CandidateJSON}.
(** The identifier under which a candidate is staged. *)
Definition staged_oid (c : Candidate) : option string := CanonicalSHA256 (slice (cand_Checksums c)).

Lemma CandidateToRecord_checksums c now r :
  CandidateToRecord c now = Ok r → ∃ oid, staged_oid c = Some oid ∧ r_Checksums r = Some [mkChecksum "sha256" oid].
Proof.
  unfold CandidateToRecord, staged_oid. destruct (CanonicalSHA256 _) as [oid|]; [|done].
  destruct (cand_AccessMethods c) as [[|m l]|]; try done. intros (id & _ & Hr)%bind_Ok. injection Hr as <-. by exists oid.
Qed.
Definition entry_of (now : Z) (c : Candidate) (e : PendingMetadata) : Prop :=
  staged_oid c = Some (pm_OID e) ∧ e = mkPending (pm_OID e) c now (now + PendingMetadataTTL).
Lemma stage_entries_spec now index candidates entries :
  stage_entries now index candidates = Ok entries → Forall2 (entry_of now) candidates entries.
Proof.
  revert index entries. induction candidates as [|c candidates IH]; intros index entries; simpl; [by intros [= <-]|].
  intros (e & He & (l & Hl%IH & [= <-])%bind_Ok)%bind_Ok. constructor; [|done]. unfold stage_entry in He.
  destruct (CandidateToRecord c now) as [r|] eqn:Er; [|done].
  apply CandidateToRecord_checksums in Er as (oid & Ho & Hc). rewrite Hc in He. change (slice (Some ?l)) with l in He.
  unfold CanonicalSHA256 in He, Ho. rewrite SHA256Values_canonical in He by by apply (CanonicalSHA256_valid (slice (cand_Checksums c))).
  injection He as <-. by split.
Qed.
Lemma insert_pending_frame entries table table' oid :
  foldlM insert_pending table entries = Ok table' → (∀ e, e ∈ entries → pm_OID e ≠ oid) → table' !! oid = table !! oid.
Proof.
  revert table. induction entries as [|e entries IH]; intros table; simpl; [by intros [= <-]|].
  intros (t & Ht & Hl)%bind_Ok Hne. rewrite (IH t Hl) by (intros e' He'; apply Hne; by right).
  unfold insert_pending in Ht. destruct (json_Marshal _); [|done]. injection Ht as <-.
  apply lookup_insert_ne, Hne. by left.
Qed.
Lemma insert_pending_last before e after table table' :
  foldlM insert_pending table (before ++ e :: after) = Ok table' → (∀ e', e' ∈ after → pm_OID e' ≠ pm_OID e) →
  ∃ raw, json_Marshal (pm_Candidate e) = Ok raw ∧
    table' !! pm_OID e = Some (mkPendingRow raw (pm_CreatedAt e) (pm_ExpiresAt e)).
Proof.
  rewrite foldlM_app. intros (t & _ & (t' & Ht' & Hl)%bind_Ok)%bind_Ok Hne.
  rewrite (insert_pending_frame _ _ _ _ Hl Hne). unfold insert_pending in Ht'.
  destruct (json_Marshal _) as [raw|]; [|done]. injection Ht' as <-. exists raw. by rewrite lookup_insert_eq.
Qed.
Lemma prune_lookup now table oid row :
  table !! oid = Some row → prune_pending now table !! oid = if (now <? pr_expires_time row)%Z then Some row else None.
Proof.
  intros E. unfold prune_pending. case_match eqn:Hlt.
  - apply map_lookup_filter_Some_2; [done|]. simpl. lia.
  - apply map_lookup_filter_None_2. right. intros row' E'. simpl. rewrite E in E'. injection E' as <-. lia.
Qed.

(** C35 What is staged is found under its identifier, as it was submitted, until twenty minutes later and no longer; taking
    it out gives it once.  Of two candidates with one identifier the last is kept; what others have staged stays until
    it expires. *)
Theorem staged_until_expiry {S : Type} (get : S → pending_table) (set : pending_table → S → S) (clock : S → Z) before c after oid s s' :
  (∀ t s, get (set t s) = t) →
  Stage clock (Some (sqlite_pending get set clock)) (before ++ c :: after) s = (s', Ok tt) →
  staged_oid c = Some oid → (∀ c', c' ∈ after → staged_oid c' ≠ Some oid) →
  (∀ raw, json_Marshal c = Ok raw → json_Unmarshal raw = Ok c) →
  let expires := (clock s + PendingMetadataTTL)%Z in
  let entry := mkPending oid c (clock s) expires in
  (∀ pruned now, (pruned <= now < expires)%Z →
     (sqlite_GetPendingMetadata pruned now oid (get s')).2 = Ok entry ∧
     (sqlite_PopPendingMetadata pruned now oid (get s')).2 = Ok entry ∧
     ∀ pruned' now', (sqlite_PopPendingMetadata pruned' now' oid (sqlite_PopPendingMetadata pruned now oid (get s')).1).2 = Err pending_not_found) ∧
  (∀ pruned now, (expires <= now)%Z →
     (sqlite_GetPendingMetadata pruned now oid (get s')).2 = Err pending_not_found ∧
     (sqlite_PopPendingMetadata pruned now oid (get s')).2 = Err pending_not_found) ∧
  (∀ other row, get s !! other = Some row → (clock s < pr_expires_time row)%Z →
     (∀ c', c' ∈ before ++ c :: after → staged_oid c' ≠ Some other) → get s' !! other = Some row).
Proof.
  intros Hlens Hstage Hoid Hafter Hjson expires entry.
  apply service_bind_Ok in Hstage as (s1 & now & [= <- <-] & (s2 & entries & [= <- He] & Hsave)%service_bind_Ok).
  apply stage_entries_spec in He. cbn [save_pending SavePendingMetadata sqlite_pending] in Hsave. cbv zeta in Hsave.
  assert (∃ table', foldlM insert_pending (prune_pending (clock s) (get s)) entries = Ok table' ∧ get s' = table') as (table' & Hf & Hs').
  { unfold sqlite_SavePendingMetadata in Hsave. destruct entries as [|e l].
    { inversion He as [E|]. by destruct before. }
    destruct (foldlM _ _ _) as [table'|]; [|done]. exists table'. split; [done|]. injection Hsave as <-. by rewrite Hlens. }
  apply Forall2_app_inv_l in He as (l1 & l2 & Hl1 & (e & l3 & [He1 He2] & Hl3 & ->)%Forall2_cons_inv_l & ->).
  assert (pm_OID e = oid) as Ho by congruence.
  destruct (insert_pending_last l1 e l3 _ _ Hf) as (raw & Hraw & Hrow).
  { intros e' (i & Hi)%list_elem_of_lookup. destruct (Forall2_lookup_r _ _ _ _ _ Hl3 Hi) as (c' & Hc' & Hoid' & _).
    rewrite Ho. intros Heq. apply (Hafter c'); [by eapply list_elem_of_lookup_2|]. by rewrite Hoid', Heq. }
  rewrite He2 in Hrow, Hraw. cbn [pm_OID pm_Candidate pm_CreatedAt pm_ExpiresAt] in Hrow, Hraw. rewrite Ho in Hrow. rewrite Hs'.
  split_and!.
  - intros pruned now Hn. unfold sqlite_GetPendingMetadata, sqlite_PopPendingMetadata, select_pending.
    rewrite (prune_lookup pruned _ _ _ Hrow). cbn [pr_expires_time]. fold expires.
    rewrite (proj2 (Z.ltb_lt pruned expires)) by lia. cbn [pr_expires_time]. fold expires.
    rewrite (proj2 (Z.ltb_lt now expires)) by lia.
    cbn [mbind result_bind pending_of pr_candidate_json pr_created_time pr_expires_time fst snd]. unfold pending_of. cbn [pr_candidate_json pr_created_time pr_expires_time].
    rewrite (Hjson raw Hraw). cbn [fst snd]. split_and!; [done|done|]. intros pruned' now'.
    assert (prune_pending pruned' (delete oid (prune_pending pruned table')) !! oid = None) as ->; [|done].
    apply map_lookup_filter_None_2. left. apply lookup_delete_eq.
  - intros pruned now Hn. unfold sqlite_GetPendingMetadata, sqlite_PopPendingMetadata, select_pending.
    rewrite (prune_lookup pruned _ _ _ Hrow). cbn [pr_expires_time]. fold expires.
    destruct (pruned <? expires)%Z; [|done]. cbn [pr_expires_time]. fold expires. rewrite (proj2 (Z.ltb_ge now expires)) by lia. done.
  - intros other row Hr Hlt Hne. rewrite (insert_pending_frame _ _ _ other Hf).
    + rewrite (prune_lookup _ _ _ _ Hr). by rewrite (proj2 (Z.ltb_lt _ _) Hlt).
    + intros e' (i & Hi)%list_elem_of_lookup.
      assert (Forall2 (entry_of (clock s)) (before ++ c :: after) (l1 ++ e :: l3)) as Hall by (apply Forall2_app; [done|by constructor]).
      destruct (Forall2_lookup_r _ _ _ _ _ Hall Hi) as (c' & Hc' & Hoid' & _). intros Heq.
      apply (Hne c'); [by eapply list_elem_of_lookup_2|]. by rewrite Hoid', Heq.
Qed.
End staged.

(** ** Executions *)
Section sample.
#[local] Existing Instance canonical_order.
#[local] Instance staged_digests : Digests := {| sha256_hex := λ s, s; uuid_NewSHA1 := λ s, s |}.
Definition upload_log : Type := list string.
Definition logged {A} (line : string) (a : A) : service upload_log A := λ log, (log ++ [line], Ok a).
#[local] Instance upload_log_ports : TransferPorts upload_log unit := {
  port_Access := None;
  port_BeginMultipart := Some (λ target, logged ("begin " +:+ ot_Key target) "u1");
  port_AccessMultipartPart request := mret ("part " +:+ pretty (mpr_PartNumber request));
  port_CompleteMultipart request := logged ("complete " +:+ pretty (length (cmr_Parts request))) tt;
  port_LookupBucketScope := None; port_CredentialReader := None; port_RecordEvents := None }.
Definition staged_sha : string := bytes (replicate 64 97).
Definition staged_candidate : Candidate :=
  mkCandidate (Some [mkAccessMethod None (Some (mkAccessURL None "s3://b/k")) None None None None "s3"]) (Some ["id:x"])
    (Some [mkChecksum "sha256" staged_sha]) None None None None None None.
#[local] Instance staged_json : CandidateJSON := {| json_Marshal _ := Ok "json"; json_Unmarshal _ := Ok staged_candidate |}.
Definition staged_world : pending_table * Z := (∅, 5%Z).
Definition staged_run : (pending_table * Z) * result error unit :=
  Stage snd (Some (sqlite_pending fst (λ t s, (t, snd s)) snd)) [staged_candidate] staged_world.
Lemma staged_run_ok : staged_run = (staged_run.1, Ok tt).
Proof. apply injective_projections; [reflexivity|]. vm_compute. reflexivity. Qed.
Lemma staged_until_expiry_witness :
  ∃ s', staged_run = (s', Ok tt) ∧
    (sqlite_GetPendingMetadata 6 7 staged_sha s'.1).2 = Ok (mkPending staged_sha staged_candidate 5 (5 + PendingMetadataTTL)) ∧
    (sqlite_GetPendingMetadata 6 (5 + PendingMetadataTTL) staged_sha s'.1).2 = Err pending_not_found.
Proof.
  pose proof staged_run_ok as E. destruct staged_run.1 as [t clock]. exists (t, clock). split; [exact E|]. unfold staged_run in E.
  destruct (staged_until_expiry fst (λ t s, (t, snd s)) snd [] staged_candidate [] staged_sha staged_world (t, clock)) as (Hlive & Hdead & _).
  - reflexivity.
  - exact E.
  - vm_compute. reflexivity.
  - intros c' Hc. inversion Hc.
  - intros raw _. reflexivity.
  - assert (snd staged_world = 5%Z) as Hc by reflexivity. rewrite Hc in Hlive, Hdead. unfold PendingMetadataTTL, minute in *.
    split; [apply (Hlive 6%Z 7%Z); lia|apply (Hdead 6%Z); lia].
Defined.
End sample.
