(* ===== verification/LfsHandlerProperties.v ===== *)
(** * What the LFS endpoints promise
    The limit of requests is exact; a batch hands out actions only after the checks of the record service and of the counters. *)
From S2P Require Import Prelude GoStrings GoURL Errors Resources Policy Objects ContentStore Address Buckets Targets Multipart Attribution AccessIssue FileUsage UsageService MetricsHandlers TransferHandlers Lfs LfsHandlers.

(** ** The limit of requests *)
(** Requests in the order in which they are counted, each with the minute of its clock, and the answers. *)
Fixpoint run_limits (opts : Options) (l : limiters) (requests : list (lfs_headers * Z)) : list (option refusal) :=
  match requests with
  | [] => []
  | (h, m) :: requests => let '(l, r) := enforceRequestLimit opts h m l in r :: run_limits opts l requests
  end.
Definition in_window (key : string) (m : Z) (r : lfs_headers * Z) : Prop := requestClientKey r.1 = key ∧ r.2 = m.
#[local] Instance in_window_dec key m r : Decision (in_window key m r) := _.
Definition window_count (key : string) (m : Z) (requests : list (lfs_headers * Z)) : nat := length (filter (in_window key m) requests).
Lemma window_count_snoc key m requests r :
  window_count key m (requests ++ [r]) = window_count key m requests + if decide (in_window key m r) then 1 else 0.
Proof. unfold window_count. rewrite filter_app, length_app, filter_cons. by case_decide. Qed.
Lemma window_count_none key m requests : (∀ r, r ∈ requests → ¬ in_window key m r) → window_count key m requests = 0.
Proof.
  unfold window_count. induction requests as [|r requests IH]; intros Hno; [done|].
  rewrite filter_cons_False by (apply Hno; by left). apply IH. intros r' Hr. apply Hno. by right.
Qed.
(** The window of a client is that of its last request, with the number of its requests in that minute. *)
Definition windows_ok (seen : list (lfs_headers * Z)) (l : limiters) : Prop :=
  ∀ key, match requestWindowMap l !! key with
         | None => ∀ r, r ∈ seen → requestClientKey r.1 ≠ key
         | Some w => (∀ r, r ∈ seen → requestClientKey r.1 = key → (r.2 <= wc_Minute w)%Z) ∧ (∃ r, r ∈ seen ∧ r.2 = wc_Minute w) ∧
                     wc_Count w = Z.of_nat (window_count key (wc_Minute w) seen)
         end.
Lemma enforceRequestLimit_step opts seen l h m :
  (0 < RequestLimitPerMinute opts)%Z → windows_ok seen l → (∀ r, r ∈ seen → (r.2 <= m)%Z) →
  let '(l', answer) := enforceRequestLimit opts h m l in
  windows_ok (seen ++ [(h, m)]) l' ∧
  answer = if (Z.of_nat (window_count (requestClientKey h) m seen) <? RequestLimitPerMinute opts)%Z then None
           else Some (StatusTooManyRequests, "rate limit exceeded").
Proof.
  intros Hpos Hok Hle. unfold enforceRequestLimit. rewrite (proj2 (Z.leb_gt _ _) Hpos). cbv zeta.
  set (key := requestClientKey h). set (w := default (mkWindowCounter 0 0) (requestWindowMap l !! key)).
  set (w' := if (wc_Minute w =? m)%Z then w else mkWindowCounter m 0).
  assert (wc_Minute w' = m ∧ wc_Count w' = Z.of_nat (window_count key m seen)) as [Hm Hc].
  { unfold w', w. specialize (Hok key). destruct (requestWindowMap l !! key) as [v|]; cbn [default from_option id wc_Minute wc_Count].
    - destruct Hok as (Hmax & (r & Hr & Hrm) & Hcount). destruct (Z.eqb_spec (wc_Minute v) m) as [<-|Hne]; [done|]. split; [done|].
      simpl. rewrite window_count_none; [done|]. intros r' Hr' [Hk Hm]. specialize (Hmax r' Hr' Hk). specialize (Hle r Hr). lia.
    - assert (window_count key m seen = 0) as -> by (apply window_count_none; intros r Hr [Hk _]; by apply (Hok r)).
      by destruct (Z.eqb_spec 0 m) as [<-|_]. }
  rewrite Hm, Hc. split.
  - intros key'. destruct (decide (key' = key)) as [->|Hne]; simpl.
    + rewrite lookup_insert_eq. simpl. split_and!.
      * intros r [Hr| ->%list_elem_of_singleton]%elem_of_app Hk; [by apply Hle|simpl; lia].
      * exists (h, m). split; [apply elem_of_app; right; by apply list_elem_of_singleton|done].
      * rewrite window_count_snoc. rewrite decide_True; [lia|done].
    + rewrite lookup_insert_ne by done. specialize (Hok key'). destruct (requestWindowMap l !! key') as [v|].
      * destruct Hok as (Hmax & (r & Hr & Hrm) & Hcount). split_and!.
        -- intros r' [Hr'| ->%list_elem_of_singleton]%elem_of_app Hk; [by apply Hmax|]. by destruct Hne.
        -- exists r. split; [apply elem_of_app; by left|done].
        -- rewrite window_count_snoc, decide_False by (intros [Hk _]; by destruct Hne). by rewrite Nat.add_0_r.
      * intros r [Hr| ->%list_elem_of_singleton]%elem_of_app; [by apply Hok|]. simpl. intros <-. by apply Hne.
  - cbn [wc_Count]. destruct (Z.ltb_spec (RequestLimitPerMinute opts) (Z.of_nat (window_count key m seen) + 1)%Z),
      (Z.ltb_spec (Z.of_nat (window_count key m seen)) (RequestLimitPerMinute opts)); done || lia.
Qed.

(** ** Batches *)
Section batch.
Context `{MapOrder} `{Digests} {S : Type} `{!TransferPorts S Event} (clock : S → Z) (opts : Options)
  (GetObject : string → string → service S ObjectRecord) (RequireObjectResources : string → list string → service S unit)
  (RecordFileDownload : option (string → service S unit)).
Context (sha_nonempty : ∀ s, sha256_hex s ≠ "").
Lemma mapM_total {A B} (P : A → B → Prop) (f : A → service S B) l s :
  (∀ a s, ∃ s' b, f a s = (s', Ok b) ∧ P a b) → ∃ s' bs, mapM f l s = (s', Ok bs) ∧ Forall2 P l bs.
Proof using.
  intros Hf. revert s. induction l as [|a l IH]; intros s; [by eexists _, []|]. cbn [mapM].
  destruct (Hf a s) as (s1 & b & Ha & Hp). destruct (IH s1) as (s2 & bs & Hbs & Hall).
  exists s2, (b :: bs). split; [|by constructor]. apply service_bind_Ok. exists s1, b. split; [done|].
  apply service_bind_Ok. by exists s2, bs.
Qed.
Definition answer_failed (r : BatchResponseObject) : Prop := bp_Actions r = None ∧ is_Some (bp_Error r).
(** The URL of an object that the caller may read, at its first location, after the download was counted under the
    identifier and the access recorded. *)
Definition download_granted (caller : Caller) (oid : string) (r : BatchResponseObject) : Prop :=
  ∃ obj sourceURL accessID url count s1 s2 s3 s4 s5,
    bp_Oid r = oid ∧ bp_Error r = None ∧ bp_Actions r = Some (mkBatchActions (Some url) None None) ∧
    GetObject oid "read" s1 = (s2, Ok obj) ∧ head (omap located_method (default [] (r_AccessMethods obj))) = Some (sourceURL, accessID) ∧
    SignObjectURL obj sourceURL (mkAccessOptions 0 "" "") s2 = (s3, Ok url) ∧
    RecordFileDownload = Some count ∧ count oid s3 = (s4, Ok tt) ∧
    recorded caller obj ProviderTransferDirectionDownload
      (mkAccessRequest (Some obj) None accessID ProviderTransferDirectionDownload sourceURL None None 0 "" "") s4 s5.
(** The object is there: nothing to upload, and its size. *)
Definition upload_present (oid : string) (r : BatchResponseObject) : Prop :=
  ∃ obj s1 s2, bp_Oid r = oid ∧ bp_Error r = None ∧ bp_Actions r = None ∧ GetObject oid "read" s1 = (s2, Ok obj) ∧ bp_Size r = r_Size obj.
(** The addresses of this server, for an object that is not there, to a caller who may create files. *)
Definition upload_granted (baseURL oid : string) (size : Z) (r : BatchResponseObject) : Prop :=
  ∃ e s1 s2 s3, bp_Oid r = oid ∧ bp_Size r = size ∧ bp_Error r = None ∧
    bp_Actions r = Some (mkBatchActions None (Some (baseURL +:+ "/info/lfs/objects/" +:+ oid)) (Some (baseURL +:+ "/info/lfs/verify"))) ∧
    GetObject oid "read" s1 = (s2, Err e) ∧ errors_Is e ErrNotFound = true ∧
    RequireObjectResources "create" ["/data_file"] s2 = (s3, Ok tt).
Definition batch_answer (caller : Caller) (baseURL operation : string) (input : BatchRequestObject) (r : BatchResponseObject) : Prop :=
  let oid := NormalizeOid (bq_Oid input) in
  answer_failed r ∨
  (0 <= bq_Size input)%Z ∧ oid ≠ "" ∧
  ((operation = "download" ∧ bp_Size r = bq_Size input ∧ download_granted caller oid r) ∨
   (operation = "upload" ∧ (upload_present oid r ∨ upload_granted baseURL oid (bq_Size input) r))).

Lemma PrepareDownload_granted caller oid size s s' url :
  PrepareDownload clock GetObject RecordFileDownload caller oid s = (s', Ok url) →
  download_granted caller oid (mkBatchResponse oid size (Some (mkBatchActions (Some url) None None)) None).
Proof using sha_nonempty.
  intros (s1 & found & Hf & Hrest)%service_bind_Ok. unfold attempt in Hf. destruct (GetObject oid "read" s) as [s2 r] eqn:Eg.
  injection Hf as <- <-. destruct r as [obj|]; [|done].
  destruct (head _) as [[sourceURL accessID]|] eqn:Eh; [|done].
  apply service_bind_Ok in Hrest as (s3 & signed & Hs & Hrest). destruct RecordFileDownload as [count|] eqn:Ec; [|done].
  apply service_bind_Ok in Hrest as (s4 & [] & Hc & (s5 & [] & Hr & [= <- <-])%service_bind_Ok).
  exists obj, sourceURL, accessID, signed, count, s, s2, s3, s4, s5. split_and!; try done.
  by apply (RecordAccessIssued_recorded clock sha_nonempty caller obj) in Hr.
Qed.
Lemma batch_object_spec caller baseURL operation input s :
  operation = "download" ∨ operation = "upload" →
  ∃ s' r, batch_object clock GetObject RequireObjectResources RecordFileDownload caller baseURL operation input s = (s', Ok r) ∧
    batch_answer caller baseURL operation input r.
Proof using sha_nonempty.
  intros Hop. unfold batch_object, batch_answer. cbv zeta. destruct (Z.ltb_spec (bq_Size input) 0) as [?|Hsize].
  { eexists _, _. split; [done|]. left. by split. }
  destruct (is_empty (NormalizeOid (bq_Oid input))) eqn:Eo.
  { eexists _, _. split; [done|]. left. by split. }
  apply is_empty_false in Eo. set (oid := NormalizeOid (bq_Oid input)) in *. destruct Hop as [-> | ->].
  - cbn [String.eqb Ascii.eqb Bool.eqb]. unfold mbind, service_bind, attempt.
    destruct (PrepareDownload clock GetObject RecordFileDownload caller oid s) as [s1 [url|e]] eqn:Ep; eexists _, _; (split; [done|]).
    + right. split_and!; [done|done|]. left. split_and!; [done|done|]. by eapply PrepareDownload_granted.
    + left. by split.
  - cbn [String.eqb Ascii.eqb Bool.eqb]. unfold PrepareUpload, mbind, service_bind, attempt.
    destruct (GetObject oid "read" s) as [s1 [obj|e]] eqn:Eg.
    { eexists _, _. split; [done|]. right. split_and!; [done|done|]. right. split; [done|]. left. by exists obj, s, s1. }
    unfold IsNotFoundError. destruct (errors_Is e ErrNotFound) eqn:En; cbn [negb].
    2: { eexists _, _. split; [done|]. left. by split. }
    destruct (RequireObjectResources "create" ["/data_file"] s1) as [s2 [[]|e']] eqn:Er.
    2: { eexists _, _. split; [done|]. left. by split. }
    unfold hasConfiguredBucket, mbind, service_bind, attempt. destruct (firstConfiguredBucket s2) as [s3 [b|e']]; cbn [is_ok negb].
    2: { eexists _, _. split; [done|]. left. by split. }
    eexists _, _. split; [done|]. right. split_and!; [done|done|]. right. split; [done|]. right.
    exists e, s, s1, s2. rewrite (proj2 (Z.ltb_ge _ _)) by done. by split_and!.
Qed.

(** C33 A batch is answered for each of its objects, in order: with an error, or with what the operation gives.  A download
    URL is for an object that the caller may read, after the access was counted and recorded; the upload of an object that
    is there is not asked for; any other upload goes through this server, for a caller who may create files. *)
Theorem batch_is_checked caller baseURL req s :
  ∃ s' answer, LfsBatch clock opts GetObject RequireObjectResources RecordFileDownload caller baseURL (Some req) s = (s', Ok answer) ∧
    match answer with
    | Answered responses =>
        Forall2 (batch_answer caller baseURL (ToLower (TrimSpace (bq_Operation req)))) (bq_Objects req) responses ∧
        responses ≠ [] ∧ ((0 < MaxBatchObjects opts)%Z → (Z.of_nat (length responses) <= MaxBatchObjects opts)%Z)
    | Refused status _ => s' = s ∧ (status = 422 ∨ status = 413)%Z
    end.
Proof using sha_nonempty.
  unfold LfsBatch. cbv zeta. set (operation := ToLower _).
  destruct (negb (String.eqb operation "download") && negb (String.eqb operation "upload")) eqn:Eop.
  { eexists _, _. split; [done|]. split; [done|by left]. }
  assert (operation = "download" ∨ operation = "upload") as Hop.
  { destruct (String.eqb_spec operation "download"); [by left|]. destruct (String.eqb_spec operation "upload"); [by right|done]. }
  case_bool_decide as Ee.
  { eexists _, _. split; [done|]. split; [done|by left]. }
  destruct ((0 <? MaxBatchObjects opts)%Z && _) eqn:Em.
  { eexists _, _. split; [done|]. split; [done|by right]. }
  destruct (mapM_total (batch_answer caller baseURL operation)
    (batch_object clock GetObject RequireObjectResources RecordFileDownload caller baseURL operation) (bq_Objects req) s)
    as (s' & rs & Hm & Hall).
  { intros input s1. by apply batch_object_spec. }
  exists s', (Answered rs). split; [apply service_bind_Ok; by exists s', rs|]. split_and!; [done| |].
  - intros ->. by apply Forall2_nil_inv_r in Hall.
  - intros Hpos. rewrite <- (Forall2_length _ _ _ Hall). apply andb_false_iff in Em as [Em|Em]; lia.
Qed.
End batch.

(** ** The counter of an LFS download *)
Section uncounted.
Context (oid : string) (t : usage_event_type * Z).
(** A pending event of an id that no object has. *)
Definition with_event (db : DB) : DB := set_usage db (object_usage db) (usage_event db ++ [(oid, t)]).
Lemma flush_id_event now db usage id :
  id ≠ oid → flush_id now (usage_event (with_event db)) (drs_object db) usage id = flush_id now (usage_event db) (drs_object db) usage id.
Proof using.
  intros Hne. unfold flush_id, count_events, last_event. cbn [with_event set_usage usage_event].
  assert (∀ (P : string * (usage_event_type * Z) → Prop) `{!∀ x, Decision (P x)}, ¬ P (oid, t) → filter P (usage_event db ++ [(oid, t)]) = filter P (usage_event db)) as Hf.
  { intros P ? Hp. by rewrite filter_app, filter_cons_False, filter_nil, app_nil_r. }
  rewrite !Hf by (simpl; naive_solver).
  assert (id ∈ (usage_event db ++ [(oid, t)]).*1 ↔ id ∈ (usage_event db).*1) as Hin.
  { rewrite fmap_app, elem_of_app. simpl. rewrite list_elem_of_singleton. naive_solver. }
  case_decide as E1; case_decide as E2; [done|exfalso; tauto..|done].
Qed.
Lemma flush_chunk_event now db ids :
  oid ∉ ids → flushObjectUsageEventsForIDChunkTx now (with_event db) ids = with_event (flushObjectUsageEventsForIDChunkTx now db ids).
Proof using.
  intros Hno. unfold flushObjectUsageEventsForIDChunkTx.
  assert (∀ l usage, oid ∉ l → foldl (flush_id now (usage_event (with_event db)) (drs_object (with_event db))) usage l =
                               foldl (flush_id now (usage_event db) (drs_object db)) usage l) as Hfold.
  { intros l. induction l as [|id l IH]; intros usage Hl; [done|]. apply not_elem_of_cons in Hl as [Hne Hl]. cbn [foldl]. change (drs_object (with_event db)) with (drs_object db) in IH |- *.
    rewrite (flush_id_event now db usage id) by congruence. by apply IH. }
  rewrite Hfold by (by rewrite elem_of_dedup). unfold with_event. cbn [set_usage usage_event object_usage].
  by rewrite filter_app, filter_cons_True, filter_nil.
Qed.
Lemma flush_event now db ids :
  oid ∉ ids → flushObjectUsageEventsForIDsTx now (with_event db) ids = with_event (flushObjectUsageEventsForIDsTx now db ids).
Proof using.
  unfold flushObjectUsageEventsForIDsTx. generalize (length ids) as n. intros n. revert db ids.
  induction n as [|n IH]; intros db [|id ids] Hno; try done.
  rewrite flush_chunk_event by (intros Hin; apply Hno; by eapply elem_of_take in Hin as (? & ? & _); eapply list_elem_of_lookup_2).
  apply IH. intros Hin. apply Hno. by eapply subseteq_drop.
Qed.
End uncounted.
(** A download of the batch endpoint is recorded under its identifier; if the id of the record is another one, no counter
    of any object changes. *)
Theorem download_by_oid_uncounted `{MapOrder} now now' oid id db :
  drs_object db !! oid = None → (GetFileUsage now id (RecordFileDownload now' oid db)).2 = (GetFileUsage now id db).2.
Proof.
  intros Hno. unfold GetFileUsage. change (RecordFileDownload now' oid db) with (with_event oid (DownloadEvent, now') db).
  assert (flushObjectUsageEvents now (with_event oid (DownloadEvent, now') db) = with_event oid (DownloadEvent, now') (flushObjectUsageEvents now db)) as ->; [|done].
  unfold flushObjectUsageEvents. rewrite flush_event.
  - cbn [with_event set_usage usage_event drs_object]. rewrite fmap_app, filter_app. cbn [fmap list_fmap fst].
    rewrite (filter_cons_False _ oid), filter_nil, app_nil_r; [done|]. rewrite Hno. by intros [? ?].
  - rewrite elem_of_dedup, list_elem_of_filter. cbn [with_event set_usage drs_object]. rewrite Hno. by intros [[? ?] _].
Qed.

(** ** Executions *)
Section sample.
#[local] Existing Instance canonical_order.
#[local] Instance lfs_digests : Digests := {| sha256_hex := λ s, "#" +:+ s; uuid_NewSHA1 := λ s, s |}.
(** The pending table, and a log of what the provider and the counters were told. *)
Record lfs_world := mkLfsWorld { lw_pending : pending_table; lw_log : list string }.
Definition noted {A} (line : string) (a : A) : service lfs_world A := λ w, (mkLfsWorld (lw_pending w) (lw_log w ++ [line]), Ok a).
#[local] Instance lfs_ports : TransferPorts lfs_world Event := {
  port_Access := Some (λ request, mret (at_Location (sar_Target request)));
  port_BeginMultipart := Some (λ target, noted ("begin " +:+ ot_Key target) "u1");
  port_AccessMultipartPart request := mret ("part of " +:+ ot_Key (mpr_Target request));
  port_CompleteMultipart request := noted ("complete " +:+ ot_Key (cmr_Target request) +:+ " with " +:+ pretty (length (cmr_Parts request))) tt;
  port_LookupBucketScope := None;
  port_CredentialReader := Some (mret [mkCredential "bucket" "s3" "" "" "" "" ""]);
  port_RecordEvents := Some (λ events, noted "access" tt) }.
Definition send_part (url : string) (content : list Ascii.ascii) : service lfs_world string := noted ("sent " +:+ pretty (length content)) "etag".
Definition count_upload (id : string) : service lfs_world unit := noted ("uploaded " +:+ id) tt.
Definition sha : string := bytes (replicate 64 97).
Definition sample_candidate : DrsObjectCandidate :=
  mkDrsCandidate (Some [mkLfsMethod None (Some (Some "s3://bucket/x")) None (Some "s3")]) None (Some [mkChecksum "sha256" sha]) None None None None (Some 3%Z).
#[local] Instance lfs_json : CandidateJSON :=
  {| json_Marshal _ := Ok "json"; json_Unmarshal _ := Ok (FromGeneratedCandidate sample_candidate) |}.
Definition lfs_pending : option (PendingStore lfs_world) :=
  Some (sqlite_pending lw_pending (λ t w, mkLfsWorld t (lw_log w)) (λ _, 5%Z)).
Definition unknown (oid method : string) : service lfs_world ObjectRecord := fail (EDef ErrObjectNotFound).
Definition register_ok (l : list ObjectRecord) : service lfs_world unit := noted "registered" tt.
Definition allow (method : string) (resources : list string) : service lfs_world unit := mret tt.
Definition empty_world : lfs_world := mkLfsWorld ∅ [].
Definition body : reader := mkReader (chars "abc") EndOfFile.
(** The client stages the metadata, sends the bytes and asks for the verification. *)
Definition lfs_push (registration : list ObjectRecord → service lfs_world unit) : service lfs_world (lfs_answer Z * lfs_answer unit * lfs_answer unit) :=
  staged ← LfsStageMetadata (λ _, 5%Z) lfs_pending (Some [sample_candidate]);
  sent ← LfsUploadProxy (λ _, 5%Z) lfs_pending unknown (Some count_upload) (Some send_part) sha body;
  verified ← LfsVerify (λ _, 5%Z) lfs_pending unknown registration (Some count_upload) (λ _, "") (Some (mkBatchObject sha 3));
  mret (staged, sent, verified).
(** The upload is counted when the bytes have been sent and again when it is verified. *)
Example pushed :
  let '(w, answers) := lfs_push register_ok empty_world in
  answers = Ok (Answered 1%Z, Answered tt, Answered tt) ∧ lw_pending w = ∅ ∧
  lw_log w = ["begin x"; "sent 3"; "complete x with 1"; "uploaded " +:+ sha; "registered"; "uploaded " +:+ sha].
Proof. vm_compute. by split_and!. Qed.
(** The verification takes the metadata out before it registers them: when that fails, they are gone. *)
Example metadata_lost :
  let '(w, answers) := lfs_push (λ _, fail (EText "database is locked")) empty_world in
  answers = Ok (Answered 1%Z, Answered tt, Refused 500 "Internal Server Error") ∧ lw_pending w = ∅.
Proof. vm_compute. by split_and!. Qed.
(** A body that ends with io.ErrUnexpectedEOF is completed like a whole one. *)
Example cut_short :
  (Upload (Some send_part) (Some count_upload) (mkReader (chars "ab") EndUnexpected) "bucket" "x" "id" empty_world) =
  (mkLfsWorld ∅ ["begin x"; "sent 2"; "complete x with 1"; "uploaded id"], Ok tt).
Proof. by vm_compute. Qed.
(** Sizes that add up to more than 2^63 count as nothing. *)
Definition limited_bytes : Options := mkOptions 1000 0 0 1000.
Example overflowing_batch :
  batch_bytes [2 ^ 62; 2 ^ 62; 5]%Z = (- 2 ^ 63 + 5)%Z ∧
  enforceBandwidthLimit limited_bytes (mkHeaders "" "" "Basic a" "") 1 (batch_bytes [2 ^ 62; 2 ^ 62; 5]%Z) ResetLFSLimiters = (ResetLFSLimiters, None).
Proof. by vm_compute. Qed.
(** One large batch after a small one is admitted, and leaves a negative count. *)
Example overflowing_window :
  let h := mkHeaders "" "" "Basic a" "" in
  let '(l, first) := enforceBandwidthLimit limited_bytes h 1 10 ResetLFSLimiters in
  let '(l, second) := enforceBandwidthLimit limited_bytes h 1 (2 ^ 63 - 1) l in
  first = None ∧ second = None ∧ (wb_Bytes <$> bandwidthWindowMap l !! "auth:Basic a") = Some (- 2 ^ 63 + 9)%Z.
Proof. by vm_compute. Qed.
(** Two bearer tokens of one issuer: the header of a JWT is longer than what the key keeps. *)
Example shared_window payload1 payload2 :
  let token payload := "Bearer eyJhbGciOiJSUzI1NiIsImtpZCI6ImZlbmNlX2tleV8yMDI1IiwidHlwIjoiSldUIn0." +:+ payload in
  let h payload := mkHeaders "" "" (token payload) "" in
  TrimSpace (token payload1) = token payload1 → TrimSpace (token payload2) = token payload2 →
  requestClientKey (h payload1) = requestClientKey (h payload2).
Proof. intros token h H1 H2. unfold requestClientKey, h. cbn [h_Authorization]. rewrite H1, H2. done. Qed.
Lemma lfs_sha_nonempty (s : string) : sha256_hex s ≠ "".
Proof. done. Qed.
Definition stored : ObjectRecord :=
  set_AccessMethods (set_Id zero_record "o1") (Some [mkAccessMethod None (Some (mkAccessURL None "gs://data/x")) None None None None "gs"]).
Definition other_sha : string := bytes (replicate 64 98).
Definition one_object (oid method : string) : service lfs_world ObjectRecord :=
  if String.eqb oid sha then mret stored else fail (EDef ErrObjectNotFound).
Definition asker : Caller := mkCaller (Some (mkSession "local" "local" "ada@x" [] ∅ true false)) "r1" ∅.
Lemma batch_is_checked_witness :
  ∃ w responses, LfsBatch (λ _, 5%Z) DefaultOptions one_object allow (Some (λ id, noted ("downloaded " +:+ id) tt)) asker "http://h"
      (Some (mkBatchRequest " Download" [mkBatchObject sha 3; mkBatchObject other_sha 3; mkBatchObject "" 1])) empty_world = (w, Ok (Answered responses)) ∧
    lw_log w = ["downloaded " +:+ sha; "access"] ∧
    (bp_Actions <$> responses) = [Some (mkBatchActions (Some "gs://data/x") None None); None; None] ∧ length responses = 3.
Proof.
  destruct (batch_is_checked (λ _, 5%Z) DefaultOptions one_object allow (Some (λ id, noted ("downloaded " +:+ id) tt)) lfs_sha_nonempty
    asker "http://h" (mkBatchRequest " Download" [mkBatchObject sha 3; mkBatchObject other_sha 3; mkBatchObject "" 1]) empty_world)
    as (w & answer & E & Hr).
  destruct answer as [responses|]; [|vm_compute in E; discriminate E]. exists w, responses. split; [exact E|].
  vm_compute in E. injection E as <- <-. split_and!; vm_compute; reflexivity.
Defined.
End sample.
