(* ===== verification/Authentication.v ===== *)
(** * Authentication: internal/access/authentication (config.go, builtin.go, local_csv.go, evaluate.go, runtime.go) and
    the middleware internal/httpapi/middleware/middleware.go
    A request is evaluated to a session and a decision.  Plugins are functions; the environment of the process is a
    function, a variable that is not set being empty; the file of local users is the list of records that encoding/csv
    delivers.  The resolution of tokens is a parameter here and the subject of [Tokens]. *)
From S2P Require Import Prelude GoStrings GoURL Errors Resources Policy.

(** encoding/base64: the standard encoding with padding, into bytes. *)
Class Base64 := { base64_DecodeString : string → option string }.

(** ** Claims and plugins (plugin/types.go) *)
(** The dynamic type of a claim. *)
Inductive claim := ClaimText (s : string) | ClaimStrings (l : list string) | ClaimPrivileges (p : privileges) | ClaimOther.
Abbreviation claims := (gmap string claim).
Record AuthenticationInput := mkAuthnInput { ai_RequestID : string; ai_AuthHeader : string }.
Record AuthenticationOutput := mkAuthnOutput { ao_Authenticated : bool; ao_Subject : string; ao_Claims : claims }.
Record AuthorizationInput := mkAuthzInput {
  zi_RequestID : string; zi_Subject : string; zi_Action : string; zi_Resource : string; zi_Claims : claims }.
Definition AuthenticationPlugin := AuthenticationInput → result error AuthenticationOutput.
Definition AuthorizationPlugin := AuthorizationInput → result error bool.
Definition not_authenticated : AuthenticationOutput := mkAuthnOutput false "" ∅.

(** ** config.go *)
Definition environment := string → string.
Record mockConfig := mkMockConfig {
  mk_Enabled : bool; mk_RequireAuthHeader : bool; mk_Resources : list string; mk_Methods : list string }.
Definition parseBoolEnv (getenv : environment) (name : string) (def : bool) : bool :=
  let raw := ToLower (TrimSpace (getenv name)) in
  if is_empty raw then def
  else if bool_decide (raw ∈ ["1"; "true"; "yes"; "on"]) then true
  else if bool_decide (raw ∈ ["0"; "false"; "no"; "off"]) then false
  else def.
Definition comma : Ascii.ascii := Ascii.ascii_of_nat 44.
Definition splitCSV (raw : string) : list string :=
  let raw := TrimSpace raw in
  if is_empty raw then [] else filter (.≠ "") (TrimSpace <$> Split comma raw).
Definition loadMockAuthConfigFromEnv (getenv : environment) : mockConfig :=
  if negb (parseBoolEnv getenv "DRS_AUTH_MOCK_ENABLED" false) then mkMockConfig false false [] []
  else
    let resources := splitCSV (getenv "DRS_AUTH_MOCK_RESOURCES") in
    let methods := splitCSV (getenv "DRS_AUTH_MOCK_METHODS") in
    mkMockConfig true (parseBoolEnv getenv "DRS_AUTH_MOCK_REQUIRE_AUTH_HEADER" false)
      (if bool_decide (resources = []) then ["/data_file"] else resources) (if bool_decide (methods = []) then ["*"] else methods).

(** ** Basic credentials (builtin.go, local_csv.go) *)
Section basic.
Context `{Base64}.
Definition is_basic (authHeader : string) : bool := negb (is_empty authHeader) && HasPrefix (ToLower authHeader) "basic ".
Definition validateBasicAuth (authHeader expectedUser expectedPass : string) : result error unit :=
  if negb (is_basic authHeader) then Err (EText "missing basic auth header")
  else
    match base64_DecodeString (String.substring 6 (String.length authHeader - 6) authHeader) with
    | None => Err (EWrap "decode basic auth header: %w" (EText "illegal base64 data"))
    | Some decoded =>
        match Cut decoded ":" with
        | Some (user, pass) =>
            if String.eqb user expectedUser && String.eqb pass expectedPass then Ok tt else Err (EText "invalid basic auth credentials")
        | None => Err (EText "invalid basic auth credentials")
        end
    end.
Definition parseBasicCredentials (authHeader : string) : result error (string * string) :=
  if negb (is_basic authHeader) then Err (EText "missing basic auth header")
  else
    match base64_DecodeString (TrimSpace (String.substring 6 (String.length authHeader - 6) authHeader)) with
    | None => Err (EWrap "decode basic auth header: %w" (EText "illegal base64 data"))
    | Some decoded =>
        match Cut decoded ":" with
        | Some credentials => Ok credentials
        | None => Err (EText "malformed basic auth credentials")
        end
    end.
End basic.

(** ** local_csv.go *)
Definition localAuthzResourcesClaim := "syfon_local_authz_resources".
Definition localAuthzPrivilegesClaim := "syfon_local_authz_privileges".
Definition authorizationFromClaims (c : claims) : option (list string * privileges) :=
  match c !! localAuthzResourcesClaim, c !! localAuthzPrivilegesClaim with
  | Some (ClaimStrings resources), Some (ClaimPrivileges p) => Some (resources, p)
  | _, _ => None
  end.
Record localAuthzUser := mkLocalUser { lu_password : string; lu_resources : list string; lu_privileges : privileges }.
Abbreviation localAuthzStore := (gmap string localAuthzUser).

(** A later column of a name hides an earlier one. *)
Fixpoint header_index (i : nat) (header : list string) (out : gmap string nat) : gmap string nat :=
  match header with [] => out | h :: header => header_index (S i) header (<[ToLower (TrimSpace h) := i]> out) end.
Definition localAuthzHeaderIndex (header : list string) : gmap string nat := header_index 0 header ∅.
(** The column of the first name that there is; [None] is -1. *)
Definition firstHeader (cols : gmap string nat) (names : list string) : option nat := head (omap (λ name, cols !! name) names).
Definition localAuthzCell (record : list string) (idx : option nat) : string :=
  match idx with Some i => match record !! i with Some cell => TrimSpace cell | None => "" end | None => "" end.
Fixpoint blank_or_comment (first : bool) (record : list string) : bool :=
  match record with
  | [] => true
  | cell :: record =>
      let trimmed := TrimSpace cell in
      if is_empty trimmed then blank_or_comment false record else first && HasPrefix trimmed "#"
  end.
Definition localAuthzBlankOrComment (record : list string) : bool := blank_or_comment true record.
(** [strings.FieldsFunc]: the maximal runs of bytes that are no separators. *)
Fixpoint fields_func (separator : Ascii.ascii → bool) (field s : string) : list string :=
  match s with
  | "" => if is_empty field then [] else [rev field]
  | String a s =>
      if separator a then (if is_empty field then [] else [rev field]) ++ fields_func separator "" s
      else fields_func separator (String a field) s
  end.
Definition FieldsFunc (s : string) (separator : Ascii.ascii → bool) : list string := fields_func separator "" s.
(** Comma, bar, semicolon, blank and tab. *)
Definition method_separator (a : Ascii.ascii) : bool := bool_decide (Ascii.nat_of_ascii a ∈ [44; 124; 59; 32; 9]).
Definition expanded_method (field : string) : list string :=
  let method := ToLower (TrimSpace field) in
  if is_empty method then []
  else if String.eqb method "write" then ["file_upload"; "create"; "update"; "delete"]
  else [method].
Section local.
Context `{MapOrder}.
(** The keys of the map of what was seen. *)
Definition expandLocalAuthzMethods (raw : string) : list string :=
  (go_range (list_to_map ((λ m, (m, tt)) <$> concat (expanded_method <$> FieldsFunc raw method_separator)) : gmap string unit)).*1.
(** The columns of the file. *)
Record csv_columns := mkColumns {
  cc_username : option nat; cc_password : option nat; cc_methods : option nat; cc_resource : option nat; cc_org : option nat;
  cc_project : option nat }.
Definition localAuthzColumns (header : list string) : csv_columns :=
  let cols := localAuthzHeaderIndex header in
  mkColumns (firstHeader cols ["username"; "user"; "subject"]) (firstHeader cols ["password"; "pass"])
    (firstHeader cols ["methods"; "permissions"; "access"]) (firstHeader cols ["resource"; "path"; "authz"; "authz_path"])
    (firstHeader cols ["organization"; "org"; "program"]) (firstHeader cols ["project"; "project_id"]).
Definition has_column (c : option nat) : bool := bool_decide (is_Some c).
(** What one record says: user, password, resource and methods. *)
Record csv_grant := mkGrantRow { gr_username : string; gr_password : string; gr_resource : string; gr_methods : list string }.
Definition parse_grant (cols : csv_columns) (record : list string) : result error csv_grant :=
  let username := localAuthzCell record (cc_username cols) in
  let password := localAuthzCell record (cc_password cols) in
  if is_empty username || is_empty password then Err (EText "local authz csv line %d: username and password are required")
  else
    let resource := localAuthzCell record (cc_resource cols) in
    resource ← if is_empty resource
               then match ResourcePath (localAuthzCell record (cc_org cols)) (localAuthzCell record (cc_project cols)) with
                    | Ok resource => Ok resource
                    | Err e => Err (EWrap "local authz csv line %d: %w" e)
                    end
               else Ok resource;
    if is_empty resource then Err (EText "local authz csv line %d: resource is required")
    else
      let methods := expandLocalAuthzMethods (localAuthzCell record (cc_methods cols)) in
      if bool_decide (methods = []) then Err (EText "local authz csv line %d: methods are required")
      else Ok (mkGrantRow username password (NormalizeAccessResource resource) methods).
Definition grant_methods (methods : list string) (m : gmap string bool) : gmap string bool :=
  foldl (λ m method, <[method := true]> m) m methods.
Definition add_grant (store : localAuthzStore) (g : csv_grant) : result error localAuthzStore :=
  match store !! gr_username g with
  | Some user =>
      if negb (String.eqb (lu_password user) (gr_password g)) then Err (EText "local authz csv line %d: conflicting password for user %q")
      else
        let resources := if bool_decide (is_Some (lu_privileges user !! gr_resource g)) then lu_resources user
                         else lu_resources user ++ [gr_resource g] in
        let methods := grant_methods (gr_methods g) (default ∅ (lu_privileges user !! gr_resource g)) in
        Ok (<[gr_username g := mkLocalUser (lu_password user) resources (<[gr_resource g := methods]> (lu_privileges user))]> store)
  | None =>
      Ok (<[gr_username g := mkLocalUser (gr_password g) [gr_resource g] {[gr_resource g := grant_methods (gr_methods g) ∅]}]> store)
  end.
(** One record of the file, or the error of reading it. *)
Definition csv_line (cols : csv_columns) (store : localAuthzStore) (record : result error (list string)) : result error localAuthzStore :=
  match record with
  | Err e => Err (EWrap "read local authz csv line %d: %w" e)
  | Ok record =>
      if localAuthzBlankOrComment record then Ok store
      else g ← parse_grant cols record; add_grant store g
  end.
(** [file]: the error of opening it, or its records with the header. *)
Definition loadLocalAuthzCSV (file : result error (list (result error (list string)))) : result error localAuthzStore :=
  match file with
  | Err e => Err (EWrap "open local authz csv: %w" e)
  | Ok [] => Err (EWrap "read local authz csv header: %w" (EText "EOF"))
  | Ok (Err e :: _) => Err (EWrap "read local authz csv header: %w" e)
  | Ok (Ok header :: records) =>
      let cols := localAuthzColumns header in
      if negb (has_column (cc_username cols)) || negb (has_column (cc_password cols)) || negb (has_column (cc_methods cols))
         || (negb (has_column (cc_resource cols)) && negb (has_column (cc_org cols)))
      then Err (EText "local authz csv requires username, password, methods, and either resource or organization columns")
      else
        store ← foldlM (csv_line cols) ∅ records;
        if bool_decide (store = ∅) then Err (EText "local authz csv contains no users") else Ok store
  end.
Context `{Base64}.
Definition user_claims (username : string) (user : localAuthzUser) : claims :=
  let c : claims := <[localAuthzPrivilegesClaim := ClaimPrivileges (lu_privileges user)]>
                      (<[localAuthzResourcesClaim := ClaimStrings (lu_resources user)]> {["username" := ClaimText username]}) in
  if Contains username "@" then <["email" := ClaimText username]> c else c.
Definition store_authenticate (store : localAuthzStore) (authHeader : string) : result error AuthenticationOutput :=
  match parseBasicCredentials authHeader with
  | Err _ => Ok not_authenticated
  | Ok (username, password) =>
      match store !! username with
      | Some user => if String.eqb (lu_password user) password then Ok (mkAuthnOutput true username (user_claims username user))
                     else Ok not_authenticated
      | None => Ok not_authenticated
      end
  end.
Definition authzForSubject (store : localAuthzStore) (subject : string) : option (list string * privileges) :=
  match store !! TrimSpace subject with Some user => Some (lu_resources user, lu_privileges user) | None => None end.

(** ** builtin.go *)
Definition localAuthPlugin (basicUser basicPass : string) (users : option localAuthzStore) : AuthenticationPlugin := λ input,
  match users with
  | Some store => store_authenticate store (ai_AuthHeader input)
  | None =>
      if negb (is_empty basicUser) || negb (is_empty basicPass) then
        match validateBasicAuth (ai_AuthHeader input) basicUser basicPass with
        | Err _ => Ok not_authenticated
        | Ok _ =>
            let c : claims := {["username" := ClaimText basicUser]} in
            Ok (mkAuthnOutput true basicUser (if Contains basicUser "@" then <["email" := ClaimText basicUser]> c else c))
        end
      else Ok (mkAuthnOutput true "" ∅)
  end.
Definition gen3AuthPlugin (mock : mockConfig) : AuthenticationPlugin := λ input,
  if mk_Enabled mock then Ok (mkAuthnOutput true "" ∅)
  else if is_empty (ai_AuthHeader input) then Ok not_authenticated
  else Ok (mkAuthnOutput true "" ∅).
End local.

(** ** token.go: the token of a header *)
Definition extractBearerLikeToken `{Base64} (authHeader : string) : result error string :=
  let trimmed := TrimSpace authHeader in
  if HasPrefix (ToLower trimmed) "bearer " then
    let token := TrimSpace (String.substring 7 (String.length trimmed - 7) trimmed) in
    if is_empty token then Err (EText "empty bearer token") else Ok token
  else if HasPrefix (ToLower trimmed) "basic " then
    let payload := TrimSpace (String.substring 6 (String.length trimmed - 6) trimmed) in
    if is_empty payload then Err (EText "empty basic auth payload")
    else
      match base64_DecodeString payload with
      | None => Err (EWrap "invalid basic auth payload: %w" (EText "illegal base64 data"))
      | Some decoded =>
          match Cut decoded ":" with
          | None => Err (EText "malformed basic auth credentials")
          | Some (_, password) =>
              let token := TrimSpace password in
              if is_empty token then Err (EText "empty basic auth password token") else Ok token
          end
      end
  else Err (EText "unsupported authorization scheme").

(** ** evaluate.go *)
Definition SourceLocalBasic := "local-basic".
Definition SourceLocalCSV := "local-csv".
Definition SourceGen3Fence := "gen3-fence".
Definition SourceGen3Mock := "gen3-mock".
Record EvaluationRequest := mkEvaluation {
  er_RequestID : string; er_Mode : string; er_AuthHeader : string; er_Method : string; er_Path : string }.
Inductive Decision_ := DecisionContinue | DecisionUnauthorized | DecisionForbidden | DecisionInternalError.
#[export] Instance Decision_eq_dec : EqDecision Decision_.
Proof. solve_decision. Defined.
(** The session, with its claims beside it. *)
Record EvaluationResult := mkEvaluated {
  ev_Session : Session; ev_Claims : claims; ev_Decision : Decision_; ev_BasicChallenge : bool }.
(** [None] is a negative result. *)
Definition tokenAuthResult := option (list string * privileges).
Record Runtime (S : Type) := mkRuntime {
  rt_authentication : option AuthenticationPlugin; rt_authorization : option AuthorizationPlugin;
  rt_tokenResolver : option (string → S → S * tokenAuthResult); rt_mock : mockConfig; rt_localAuthzError : bool;
  rt_localAuthzForSubject : option (string → option (list string * privileges)) }.
Arguments mkRuntime {S}.
Arguments rt_authentication {S}.
Arguments rt_authorization {S}.
Arguments rt_tokenResolver {S}.
Arguments rt_mock {S}.
Arguments rt_localAuthzError {S}.
Arguments rt_localAuthzForSubject {S}.
Definition set_header (present : bool) (s : Session) : Session :=
  mkSession (Mode s) (Source s) (Subject s) (sess_Resources s) (Privileges s) present (AuthzEnforced s).
Definition set_enforced (enforced : bool) (s : Session) : Session :=
  mkSession (Mode s) (Source s) (Subject s) (sess_Resources s) (Privileges s) (AuthHeaderPresent s) enforced.
Definition mockAuthorizations (config : mockConfig) : list string * privileges :=
  let methods : gmap string bool := list_to_map ((λ method, (method, true)) <$> mk_Methods config) in
  (mk_Resources config, list_to_map ((λ resource, (resource, methods)) <$> mk_Resources config)).

Section evaluate.
Context `{MapOrder} `{Base64} {S : Type}.
Definition evaluateLocal (r : Runtime S) (req : EvaluationRequest) (session : Session) : EvaluationResult :=
  if rt_localAuthzError r then mkEvaluated session ∅ DecisionInternalError false
  else
    match rt_authentication r with
    | None => mkEvaluated session ∅ DecisionContinue false
    | Some authenticate =>
        let refused := mkEvaluated session ∅ DecisionUnauthorized true in
        match authenticate (mkAuthnInput (er_RequestID req) (er_AuthHeader req)) with
        | Err _ => refused
        | Ok output =>
            if negb (ao_Authenticated output) then refused
            else
              let c := ao_Claims output in
              let session := SetSource SourceLocalBasic (SetSubject (ao_Subject output) session) in
              match authorizationFromClaims c with
              | Some (resources, p) => mkEvaluated (SetSource SourceLocalCSV (SetAuthorizations resources p true session)) c DecisionContinue false
              | None =>
                  match rt_localAuthzForSubject r with
                  | None => mkEvaluated session c DecisionContinue false
                  | Some forSubject =>
                      if is_empty (ao_Subject output) then mkEvaluated session c DecisionForbidden false
                      else match forSubject (ao_Subject output) with
                           | Some (resources, p) =>
                               mkEvaluated (SetSource SourceLocalCSV (SetAuthorizations resources p true session)) c DecisionContinue false
                           | None => mkEvaluated session c DecisionForbidden false
                           end
                  end
              end
        end
    end.
Definition authorize (r : Runtime S) (req : EvaluationRequest) (session : Session) (c : claims) : EvaluationResult :=
  match rt_authorization r with
  | None => mkEvaluated session c DecisionContinue false
  | Some authorize =>
      match authorize (mkAuthzInput (er_RequestID req) (Subject session) (er_Method req) (er_Path req) c) with
      | Err _ => mkEvaluated session c DecisionUnauthorized false
      | Ok allowed => mkEvaluated session c (if allowed then DecisionContinue else DecisionForbidden) false
      end
  end.
(** What the authentication says about a request with a header; [None] refuses it. *)
Definition gen3_output (r : Runtime S) (req : EvaluationRequest) : option AuthenticationOutput :=
  match rt_authentication r with
  | None => if bool_decide (is_Some (rt_authorization r)) then Some (mkAuthnOutput true "" ∅) else None
  | Some authenticate =>
      match authenticate (mkAuthnInput (er_RequestID req) (er_AuthHeader req)) with
      | Ok output => if ao_Authenticated output then Some output else None
      | Err _ => None
      end
  end.
(** The rights that the token of the header gives. *)
Definition token_rights (r : Runtime S) (authHeader : string) (s : S) : S * tokenAuthResult :=
  match extractBearerLikeToken authHeader, rt_tokenResolver r with
  | Ok token, Some resolve => resolve token s
  | _, _ => (s, None)
  end.
Definition evaluateGen3 (r : Runtime S) (req : EvaluationRequest) (session : Session) (s : S) : S * EvaluationResult :=
  if mk_Enabled (rt_mock r) then
    if mk_RequireAuthHeader (rt_mock r) && negb (AuthHeaderPresent session) then (s, mkEvaluated session ∅ DecisionContinue false)
    else
      let '(resources, p) := mockAuthorizations (rt_mock r) in
      (s, authorize r req (SetAuthorizations resources p true (SetSource SourceGen3Mock (set_enforced true (set_header true session)))) ∅)
  else if is_empty (TrimSpace (er_AuthHeader req)) then (s, mkEvaluated session ∅ DecisionContinue false)
  else
    match gen3_output r req with
    | None => (s, mkEvaluated session ∅ DecisionUnauthorized false)
    | Some output =>
        let session := SetSource SourceGen3Fence (SetSubject (ao_Subject output) session) in
        let '(s, rights) := token_rights r (er_AuthHeader req) s in
        let session := match rights with
                       | Some (resources, p) => SetAuthorizations resources p true session
                       | None => session
                       end in
        (s, authorize r req session (ao_Claims output))
    end.
Definition Evaluate (r : Runtime S) (req : EvaluationRequest) (s : S) : S * EvaluationResult :=
  let mode := ToLower (TrimSpace (er_Mode req)) in
  let session := NewSession mode in
  if String.eqb mode "gen3"
  then evaluateGen3 r req (set_enforced true (set_header (negb (is_empty (TrimSpace (er_AuthHeader req)))) session)) s
  else (s, evaluateLocal r req session).

(** ** runtime.go *)
(** The processes of the plugins, by their paths; one that does not start is [None]. *)
Definition NewRuntime (getenv : environment) (open_csv : string → result error (list (result error (list string))))
    (start_authn : string → option AuthenticationPlugin) (start_authz : string → option AuthorizationPlugin)
    (tokenResolver : string → S → S * tokenAuthResult) (mode basicUser basicPass : string) : Runtime S :=
  let mock := loadMockAuthConfigFromEnv getenv in
  let localCSV := TrimSpace (getenv "DRS_LOCAL_AUTHZ_CSV") in
  let loaded := if EqualFold (TrimSpace mode) "local" && negb (is_empty localCSV) then Some (loadLocalAuthzCSV (open_csv localCSV)) else None in
  let localUsers := match loaded with Some (Ok users) => Some users | _ => None end in
  let start {A} (path : string) (f : string → option A) : option A := if is_empty path then None else f path in
  let authentication :=
    match start (getenv "SYFON_AUTHN_PLUGIN_PATH") start_authn with
    | Some plugin => Some plugin
    | None =>
        let mode := ToLower (TrimSpace mode) in
        if String.eqb mode "local" then Some (localAuthPlugin basicUser basicPass localUsers)
        else if String.eqb mode "gen3" && negb (mk_Enabled mock) then Some (gen3AuthPlugin mock)
        else None
    end in
  mkRuntime authentication (start (getenv "SYFON_AUTHZ_PLUGIN_PATH") start_authz) (Some tokenResolver) mock
    (match loaded with Some (Err _) => true | _ => false end) (authzForSubject <$> localUsers).

(** ** middleware.go *)
Definition upper_char (a : Ascii.ascii) : Ascii.ascii :=
  let n := Ascii.nat_of_ascii a in if (97 <=? n) && (n <=? 122) then Ascii.ascii_of_nat (n - 32) else a.
Fixpoint ToUpper (s : string) : string := match s with "" => "" | String a s => String (upper_char a) (ToUpper s) end.
Record http_request := mkHttpRequest { rq_Method : string; rq_Path : string; rq_Authorization : string; rq_ID : string }.
Definition isPublicDRSMetadataRequest (method path : string) : bool :=
  let method := ToUpper (TrimSpace method) in
  let path := TrimPrefix (TrimSuffix (TrimSpace path) "/") "/ga4gh/drs/v1" in
  if negb (HasPrefix path "/objects") then false
  else if String.eqb method "POST" && String.eqb path "/objects" then true
  else if String.eqb method "GET" && HasPrefix path "/objects/checksum/" then negb (is_empty (TrimPrefix path "/objects/checksum/"))
  else if negb (String.eqb method "GET") && negb (String.eqb method "POST") then false
  else
    let objectID := TrimPrefix path "/objects/" in
    if is_empty objectID || Contains objectID "/" then false
    else negb (bool_decide (objectID ∈ ["register"; "access"; "delete"; "access-methods"; "checksum"])).
Definition newSession (mode : string) : Session :=
  let session := NewSession mode in if String.eqb mode "gen3" then set_enforced true session else session.
(** The handlers run with this context, or the request is rejected with a status. *)
Inductive passage := Passed (ctx : context) | Rejected (status : Z) (challenge : bool).
Definition applyResult (result : EvaluationResult) : passage :=
  match ev_Decision result with
  | DecisionContinue => Passed (Some (ev_Session result))
  | DecisionUnauthorized => Rejected 401 (ev_BasicChallenge result)
  | DecisionForbidden => Rejected 403 false
  | DecisionInternalError => Rejected 500 false
  end.
(** [configured]: the mode of the options. *)
Definition FiberMiddleware (configured : string) (evaluator : option (Runtime S)) (req : http_request) (s : S) : S * passage :=
  let mode := ToLower (TrimSpace configured) in
  let session := newSession mode in
  if isPublicDRSMetadataRequest (rq_Method req) (rq_Path req) && is_empty (TrimSpace (rq_Authorization req))
  then (s, Passed (Some session))
  else
    match evaluator with
    | None => (s, Passed (Some session))
    | Some r =>
        let '(s, result) := Evaluate r (mkEvaluation (rq_ID req) mode (rq_Authorization req) (rq_Method req) (rq_Path req)) s in
        (s, applyResult result)
    end.
End evaluate.
