(* ===== verification/Tokens.v ===== *)
(** * Bearer tokens: internal/access/authentication (token.go, token_auth.go, jwks.go)
    A token is accepted when a key of the configured issuer verifies it; the keys of an issuer are cached, and how often
    they are loaded is limited.  The library golang-jwt, the decoding of JSON and the requests to the issuer are
    parameters; a call to the cache comes with the clock and the network it sees.  Instants are nanoseconds. *)
From S2P Require Import Prelude GoStrings GoURL Errors Resources Policy Authentication.
#[local] Set Warnings "-automation".

(** ** jwks.go *)
Definition second : Z := (10 ^ 9)%Z.
Definition defaultJWKSCacheTTL : Z := (15 * 60 * second)%Z.
Definition defaultUnknownKeyCooldown : Z := (30 * second)%Z.
Record jwk := mkJWK { jw_Kty : string; jw_Kid : string; jw_N : string; jw_E : string }.
Record rsa_key := mkRSA { rsa_N : Z; rsa_E : Z }.
#[export] Instance rsa_key_eq_dec : EqDecision rsa_key.
Proof. solve_decision. Defined.
(** The fields of the two documents, when they decode. *)
Class JWKSDocuments := { decode_configuration : string → option string; decode_jwks : string → option (list jwk) }.
(** What a call sees of the outside: the clock when it enters and when it loads, the answer to a GET request (status and
    body), and the end of its context. *)
Record outside := mkOutside {
  out_now : Z; out_load : Z; out_get : string → option (Z * string); out_cancelled : option error }.

Section keys.
Context `{Base64}.
Definition repeat_string (n : nat) (s : string) : string := foldr String.append "" (replicate n s).
Definition decodeBase64URL (s : string) : option string :=
  let padding := (4 - String.length s mod 4) mod 4 in
  base64_DecodeString (ReplaceAll (ReplaceAll s "-" "+") "_" "/" +:+ repeat_string padding "=").
(** Big-endian, of any length. *)
Definition big_endian (b : string) : Z := foldl (λ r a, r * 256 + Z.of_nat (Ascii.nat_of_ascii a))%Z 0%Z (chars b).
Definition bytesToInt (b : string) : Z :=
  if (String.length b <=? 4)%nat then big_endian b else big_endian (String.substring (String.length b - 4) 4 b).
Definition jwkToRSAPublicKey (k : jwk) : result error rsa_key :=
  match decodeBase64URL (jw_N k), decodeBase64URL (jw_E k) with
  | None, _ => Err (EWrap "decode modulus: %w" (EText "illegal base64 data"))
  | _, None => Err (EWrap "decode exponent: %w" (EText "illegal base64 data"))
  | Some n, Some e => if (bytesToInt e =? 0)%Z then Err (EText "invalid exponent") else Ok (mkRSA (big_endian n) (bytesToInt e))
  end.
Definition add_key (keys : gmap string rsa_key) (k : jwk) : result error (gmap string rsa_key) :=
  if negb (String.eqb (jw_Kty k) "RSA") then Ok keys
  else match jwkToRSAPublicKey k with
       | Ok key => Ok (<[jw_Kid k := key]> keys)
       | Err e => Err (EWrap "convert JWK to RSA key (kid=%s): %w" e)
       end.
End keys.

Record jwksCache := mkJWKS {
  jc_keys : gmap string rsa_key; jc_issuer : string; jc_jwksURL : string; jc_lastFetch : Z;
  jc_lastUnknownKeyRefresh : option Z (* the zero time is [None] *); jc_loaded : bool }.
Definition newIssuerJWKSCache (issuer : string) : jwksCache := mkJWKS ∅ issuer "" 0 None false.
Definition set_jwksURL (url : string) (c : jwksCache) : jwksCache :=
  mkJWKS (jc_keys c) (jc_issuer c) url (jc_lastFetch c) (jc_lastUnknownKeyRefresh c) (jc_loaded c).
Definition set_unknown (t : option Z) (c : jwksCache) : jwksCache :=
  mkJWKS (jc_keys c) (jc_issuer c) (jc_jwksURL c) (jc_lastFetch c) t (jc_loaded c).
Definition set_keys (keys : gmap string rsa_key) (now : Z) (c : jwksCache) : jwksCache :=
  mkJWKS keys (jc_issuer c) (jc_jwksURL c) now (jc_lastUnknownKeyRefresh c) true.
Definition StatusOK := 200%Z.
Definition validateJWKSURL (raw : string) : result error unit :=
  match url_Parse raw with
  | None => Err (EWrap "invalid JWKS endpoint: %w" (EText "parse"))
  | Some u => if negb (String.eqb (url_Scheme u) "https") || is_empty (url_Host u) then Err (EText "JWKS endpoint must use HTTPS, got: %s") else Ok tt
  end.
Definition fresh (now : Z) (c : jwksCache) : bool :=
  jc_loaded c && (0 <=? now - jc_lastFetch c)%Z && (now - jc_lastFetch c <? defaultJWKSCacheTTL)%Z.
Definition refreshCooldownActive (now : Z) (c : jwksCache) : bool :=
  match jc_lastUnknownKeyRefresh c with
  | None => false
  | Some last => (0 <=? now - last)%Z && (now - last <? defaultUnknownKeyCooldown)%Z
  end.

Section cache.
Context `{Base64} `{JWKSDocuments}.
Definition discoverJWKSURLContext (o : outside) (issuer : string) : result error string :=
  let issuer := TrimRight issuer "/" in
  let discovered := match out_get o (issuer +:+ "/.well-known/openid-configuration") with
                    | Some (status, body) => if (status =? StatusOK)%Z then default "" (decode_configuration body) else ""
                    | None => ""
                    end in
  if negb (is_empty discovered) then Ok discovered
  else match out_cancelled o with Some e => Err e | None => Ok (issuer +:+ "/.well-known/jwks.json") end.
(** The keys of the document at a URL. *)
Definition load_keys (o : outside) (url : string) : result error (gmap string rsa_key) :=
  match out_get o url with
  | None => Err (EWrap "fetch JWKS from %s: %w" (EText "transport"))
  | Some (status, body) =>
      if negb (status =? StatusOK)%Z then Err (EText "JWKS fetch failed with status %d: %s")
      else match decode_jwks body with
           | None => Err (EWrap "decode JWKS response: %w" (EText "json"))
           | Some keys => foldlM add_key ∅ keys
           end
  end.
Definition fetchKeysLocked (o : outside) (force : bool) (c : jwksCache) : jwksCache * result error unit :=
  let now := out_load o in
  if negb force && fresh now c then (c, Ok tt)
  else
    let located := if negb (is_empty (jc_jwksURL c)) then Ok c
                   else if is_empty (jc_issuer c) then Err (EText "JWKS issuer is not configured")
                   else match discoverJWKSURLContext o (jc_issuer c) with
                        | Ok url => Ok (set_jwksURL url c)
                        | Err e => Err (EWrap "discover JWKS URL: %w" e)
                        end in
    match located with
    | Err e => (c, Err e)
    | Ok c =>
        match _ ← validateJWKSURL (jc_jwksURL c); load_keys o (jc_jwksURL c) with
        | Err e => (c, Err e)
        | Ok keys => (set_keys keys now c, Ok tt)
        end
    end.
Definition find_key (kid message : string) (c : jwksCache) : result error rsa_key :=
  match jc_keys c !! kid with Some key => Ok key | None => Err (EText message) end.
Definition keyForToken (o : outside) (kid : string) (c : jwksCache) : jwksCache * result error rsa_key :=
  let now := out_now o in
  if negb (fresh now c) then
    if refreshCooldownActive now c then (c, Err (EText "JWKS refresh cooldown active"))
    else
      match fetchKeysLocked o false c with
      | (c, Err e) => (set_unknown (Some now) c, Err e)
      | (c, Ok _) =>
          let c := set_unknown None c in
          match jc_keys c !! kid with
          | Some key => (c, Ok key)
          | None => (set_unknown (Some now) c, Err (EText "key not found: %s"))
          end
      end
  else
    match jc_keys c !! kid with
    | Some key => (c, Ok key)
    | None =>
        if refreshCooldownActive now c then (c, Err (EText "key not found: %s (refresh cooldown active)"))
        else
          match fetchKeysLocked o true (set_unknown (Some now) c) with
          | (c, Err e) => (c, Err e)
          | (c, Ok _) => (c, find_key kid "key not found: %s" c)
          end
    end.
End cache.

(** ** token.go *)
(** A parsed token: the algorithm, the key id and the claims read as text ([None]: not there or of another type). *)
Record jwt_token := mkToken { tk_alg : string; tk_kid : option string; tk_iss : option string; tk_Valid : bool }.
(** [ParseWithClaims] with the methods that it accepts and the function that finds the key, which works on a state. *)
Class JWT := {
  jwt_ParseWithClaims : ∀ K : Type, list string → (jwt_token → K → K * result error rsa_key) → string → K → K * result error jwt_token }.
Arguments jwt_ParseWithClaims {_ K}.
Definition valid_methods : list string := ["RS256"; "RS384"; "RS512"].
Definition normalizeIssuerOrigin (raw : string) : result error string :=
  match url_Parse (TrimSpace raw) with
  | None => Err (EText "parse")
  | Some u => if is_empty (url_Scheme u) || is_empty (url_Host u) then Err (EText "issuer must include scheme and host")
              else Ok (ToLower (url_Scheme u) +:+ "://" +:+ ToLower (url_Host u))
  end.
Definition isIssuerAllowed (getenv : environment) (iss : string) : bool :=
  let fenceURL := TrimSpace (getenv "DRS_FENCE_URL") in
  if is_empty fenceURL then false
  else
    match url_Parse fenceURL with
    | None => false
    | Some u =>
        if negb (String.eqb (url_Scheme u) "https") || is_empty (url_Host u) then false
        else match normalizeIssuerOrigin fenceURL, normalizeIssuerOrigin iss with
             | Ok allowedOrigin, Ok issuerOrigin => String.eqb issuerOrigin allowedOrigin
             | _, _ => false
             end
    end.

Section tokens.
Context `{Base64} `{JWKSDocuments} `{JWT} (getenv : environment).
(** The caches of a verifier by issuer. *)
Abbreviation caches := (gmap string jwksCache).
Definition cacheForIssuer (issuer : string) (v : caches) : jwksCache := default (newIssuerJWKSCache issuer) (v !! issuer).
(** The issuer of a token, as its origin. *)
Definition token_origin (missing invalid : string) (token : jwt_token) : result error string :=
  match tk_iss token with
  | None | Some "" => Err (EText missing)
  | Some iss => match normalizeIssuerOrigin iss with Ok origin => Ok origin | Err e => Err (EWrap invalid e) end
  end.
Definition key_function (o : outside) (token : jwt_token) (v : caches) : caches * result error rsa_key :=
  if negb (HasPrefix (tk_alg token) "RS") then (v, Err (EText "unexpected signing method: %v (expected RSA)"))
  else
    match tk_kid token with
    | None | Some "" => (v, Err (EText "missing KID in token header"))
    | Some kid =>
        match token_origin "missing or invalid 'iss' claim in token" "invalid issuer URL: %w" token with
        | Err e => (v, Err e)
        | Ok origin =>
            if negb (isIssuerAllowed getenv origin) then (v, Err (EText "issuer %q not in allowed list"))
            else
              let '(c, key) := keyForToken o kid (cacheForIssuer origin v) in
              (<[origin := c]> v, match key with Ok key => Ok key | Err e => Err (EWrap "key not found in JWKS (kid=%s): %w" e) end)
        end
    end.
(** The endpoint of the issuer; the time of expiry, which the callers ignore, is left out. *)
Definition parseToken (o : outside) (tokenString : string) (v : caches) : caches * result error string :=
  let '(v, parsed) := jwt_ParseWithClaims valid_methods (key_function o) tokenString v in
  (v, match parsed with
      | Err e => Err (EWrap "JWT signature verification failed: %w" e)
      | Ok token =>
          if negb (tk_Valid token) then Err (EText "invalid token")
          else
            origin ← token_origin "missing 'iss' claim" "failed to normalize issuer URL: %w" token;
            if negb (HasPrefix origin "https://") then Err (EText "issuer URL must use https scheme, got %q") else Ok origin
      end).

(** ** token_auth.go *)
(** A decoded JSON value, as far as the program looks into it. *)
Inductive any := AnyString (s : string) | AnyList (l : list any) | AnyMap (m : list (string * any)) | AnyOther.
Definition any_get (m : list (string * any)) (key : string) : option any := snd <$> List.find (λ e, String.eqb e.1 key) m.
Definition any_map (a : option any) : option (list (string * any)) := match a with Some (AnyMap m) => Some m | _ => None end.
Definition any_text (a : option any) : string := match a with Some (AnyString s) => s | _ => "" end.
(** The answer of /user/user: a missing map, or its entries; an empty one counts as missing. *)
Definition fetchPrivileges (answer : result error (list (string * any))) : result error (list (string * any)) :=
  match answer with
  | Err e => Err (EWrap "request user info: %w" e)
  | Ok data =>
      match any_map (any_get data "authz") with
      | Some (e :: m) => Ok (e :: m)
      | _ => match any_map (any_get data "project_access") with
             | Some m => Ok m
             | None => Err (EText "no authz/project_access found in user response")
             end
      end
  end.
Definition entry_methods (entry : any) : list string :=
  match entry with
  | AnyMap mm =>
      if is_empty (any_text (any_get mm "method")) then []
      else
        let service := ToLower (TrimSpace (any_text (any_get mm "service"))) in
        let method := ToLower (TrimSpace (any_text (any_get mm "method"))) in
        if is_empty service then [method]
        else if bool_decide (service ∈ ["*"; "indexd"; "drs"]) then [method; service +:+ ":" +:+ method]
        else [service +:+ ":" +:+ method]
  | _ => []
  end.
Definition resource_methods (raw : any) : gmap string bool :=
  match raw with
  | AnyList entries => grant_methods (concat (entry_methods <$> entries)) ∅
  | _ => ∅
  end.
(** The entries have distinct keys; the order in which a map is visited is that of the list. *)
Definition extractPrivileges (privs : list (string * any)) : list string * privileges :=
  (privs.*1, list_to_map ((λ e, (e.1, resource_methods e.2)) <$> privs)).
(** [user_info]: the answer of the issuer's /user/user to the token. *)
Definition Resolve (user_info : string → string → result error (list (string * any))) (o : outside) (tokenString : string) (v : caches)
    : caches * tokenAuthResult :=
  let '(v, endpoint) := parseToken o tokenString v in
  (v, match endpoint with
      | Err _ => None
      | Ok endpoint => match fetchPrivileges (user_info endpoint tokenString) with
                       | Err _ => None
                       | Ok privs => Some (extractPrivileges privs)
                       end
      end).
End tokens.

(** * What the resolution of tokens promises
    An accepted token is signed with a key of the configured issuer; strangers cannot make the server load keys often. *)
(** ** The rate of loading *)
Section rate.
Context `{Base64} `{JWKSDocuments}.
(** Whether a call tries to load the keys. *)
Definition refreshes (now : Z) (kid : string) (c : jwksCache) : bool :=
  negb (refreshCooldownActive now c) && (negb (fresh now c) || bool_decide (jc_keys c !! kid = None)).
(** Any other call depends on nothing but the cache, and leaves it as it is. *)
Lemma no_refresh o o' kid c :
  refreshes (out_now o) kid c = false → out_now o' = out_now o →
  keyForToken o' kid c = keyForToken o kid c ∧ (keyForToken o kid c).1 = c.
Proof using.
  unfold refreshes, keyForToken. intros Hr ->. destruct (fresh (out_now o) c) eqn:Ef; cbn [negb] in *.
  - destruct (jc_keys c !! kid) as [key|]; [done|]. destruct (refreshCooldownActive (out_now o) c); [done|].
    by rewrite bool_decide_eq_true_2 in Hr.
  - by destruct (refreshCooldownActive (out_now o) c).
Qed.
(** The calls of a run, one after the other: the cache serializes them. *)
Fixpoint refresh_times (calls : list (outside * string)) (c : jwksCache) : list Z :=
  match calls with
  | [] => []
  | (o, kid) :: calls =>
      (if refreshes (out_now o) kid c then [out_now o] else []) ++ refresh_times calls (keyForToken o kid c).1
  end.
Definition readings (calls : list (outside * string)) : list Z := concat ((λ call, [out_now call.1; out_load call.1]) <$> calls).

(** After a refresh at [t]: the cooldown runs, or the keys are new and hold the one asked for. *)
Definition cooling (t : Z) (c : jwksCache) : Prop := jc_lastUnknownKeyRefresh c = Some t.
Definition renewed (t t' : Z) (c : jwksCache) : Prop :=
  jc_lastUnknownKeyRefresh c = None ∧ jc_loaded c = true ∧ (t <= jc_lastFetch c <= t')%Z.
Lemma fetch_keeps_unknown o force c c' r :
  fetchKeysLocked o force c = (c', r) → jc_lastUnknownKeyRefresh c' = jc_lastUnknownKeyRefresh c.
Proof using.
  unfold fetchKeysLocked. destruct (negb force && _); [by intros [= <- _]|]. cbv zeta.
  destruct (if negb (is_empty (jc_jwksURL c)) then Ok c else _) as [c1|e] eqn:El; [|by intros [= <- _]].
  assert (jc_lastUnknownKeyRefresh c1 = jc_lastUnknownKeyRefresh c) as <-.
  { destruct (is_empty (jc_jwksURL c)); simpl in El; [|by injection El as <-].
    destruct (is_empty (jc_issuer c)); [done|]. destruct (discoverJWKSURLContext o (jc_issuer c)); [by injection El as <-|done]. }
  destruct (_ ← validateJWKSURL _; _) as [keys|e]; by intros [= <- _].
Qed.
Lemma refresh_outcome o kid c :
  refreshes (out_now o) kid c = true → (out_now o <= out_load o)%Z →
  let c' := (keyForToken o kid c).1 in
  cooling (out_now o) c' ∨ (fresh (out_now o) c = false ∧ renewed (out_now o) (out_load o) c').
Proof using.
  unfold refreshes, keyForToken. intros Hr Hle. destruct (refreshCooldownActive (out_now o) c) eqn:Ec; [done|].
  destruct (fresh (out_now o) c) eqn:Ef; cbn [negb].
  - cbn [negb andb orb] in Hr. apply bool_decide_eq_true in Hr as ->. left.
    destruct (fetchKeysLocked o true _) as [c1 r] eqn:E. apply fetch_keeps_unknown in E. unfold cooling. by destruct r.
  - destruct (fetchKeysLocked o false c) as [c1 r] eqn:E. destruct r as [[]|e]; [|by left].
    destruct (jc_keys (set_unknown None c1) !! kid); [|by left]. right. split; [done|]. split; [done|].
    unfold fetchKeysLocked in E. cbn [negb andb] in E. destruct (fresh (out_load o) c) eqn:Efl.
    { injection E as <-. cbn [fst set_unknown jc_loaded jc_lastFetch]. unfold fresh in Ef, Efl. split; [by destruct (jc_loaded c)|].
      destruct (jc_loaded c); [|done]. cbn [andb] in *. lia. }
    cbv zeta in E. destruct (if negb (is_empty (jc_jwksURL c)) then Ok c else _) as [c2|e] eqn:El; [|done].
    destruct (_ ← validateJWKSURL _; _) as [keys|e]; [|done]. injection E as <-. split; [done|]. cbn. lia.
Qed.

Lemma readings_cons o kid calls : readings ((o, kid) :: calls) = out_now o :: out_load o :: readings calls.
Proof using. done. Qed.
Lemma StronglySorted_cons_inv (z : Z) l : StronglySorted Z.le (z :: l) → StronglySorted Z.le l ∧ ∀ y, y ∈ l → (z <= y)%Z.
Proof using. intros Hs. inversion Hs as [|? ? Hl Hall]; subst. split; [done|]. by apply Forall_forall. Qed.
Lemma refresh_times_later calls c t : StronglySorted Z.le (t :: readings calls) → ∀ u, u ∈ refresh_times calls c → (t <= u)%Z.
Proof using.
  intros Hs. apply StronglySorted_cons_inv in Hs as [_ Hle]. revert c Hle. induction calls as [|[o kid] calls IH]; intros c Hle u; simpl.
  { by intros ?%elem_of_nil. }
  rewrite readings_cons in Hle. intros [Hu|Hu]%elem_of_app.
  - destruct (refreshes _ _ _); [|by apply elem_of_nil in Hu]. apply list_elem_of_singleton in Hu as ->. apply Hle. by left.
  - eapply IH; [|exact Hu]. intros y Hy. apply Hle. by do 2 right.
Qed.
(** While the cooldown runs nothing is loaded. *)
Lemma cooling_waits calls c t :
  cooling t c → StronglySorted Z.le (t :: readings calls) → ∀ u, u ∈ refresh_times calls c → (t + defaultUnknownKeyCooldown <= u)%Z.
Proof using.
  revert c. induction calls as [|[o kid] calls IH]; intros c Hc Hs u; simpl; [by intros ?%elem_of_nil|].
  rewrite readings_cons in Hs. apply StronglySorted_cons_inv in Hs as [Hs Hle].
  apply StronglySorted_cons_inv in Hs as [Hs Hnow]. apply StronglySorted_cons_inv in Hs as [Hs Hload].
  destruct (refreshes (out_now o) kid c) eqn:Er; cbn [app].
  - assert (t + defaultUnknownKeyCooldown <= out_now o)%Z as Ht.
    { unfold refreshes, refreshCooldownActive in Er. rewrite Hc in Er. assert (t <= out_now o)%Z by (apply Hle; by left).
      destruct (Z.leb_spec 0 (out_now o - t)); [|lia]. destruct (Z.ltb_spec (out_now o - t) defaultUnknownKeyCooldown); [done|lia]. }
    intros [->|Hu]%elem_of_cons; [done|].
    assert (out_now o <= u)%Z; [|lia]. eapply refresh_times_later; [|exact Hu]. constructor; [done|].
    apply Forall_forall. intros y Hy. apply Hnow. by right.
  - destruct (no_refresh o o kid c Er eq_refl) as [_ ->]. apply IH; [done|]. constructor; [done|].
    apply Forall_forall. intros y Hy. apply Hle. by do 2 right.
Qed.
Lemma cooldown_pos : (0 < defaultUnknownKeyCooldown <= defaultJWKSCacheTTL)%Z.
Proof using. done. Qed.
(** After a renewal one more load may follow at once, for an unknown key. *)
Lemma renewed_waits calls c t t' u w rest :
  renewed t t' c → StronglySorted Z.le (t' :: readings calls) → refresh_times calls c = u :: w :: rest →
  (t + defaultUnknownKeyCooldown <= w)%Z.
Proof using.
  revert c. induction calls as [|[o kid] calls IH]; intros c Hc Hs; simpl; [done|].
  rewrite readings_cons in Hs. pose proof Hs as Hsorted. apply StronglySorted_cons_inv in Hs as [Hs Hle].
  apply StronglySorted_cons_inv in Hs as [Hs Hnow]. apply StronglySorted_cons_inv in Hs as [Hs Hload].
  destruct (refreshes (out_now o) kid c) eqn:Er; cbn [app].
  - intros [= <- Hw]. assert (w ∈ refresh_times calls (keyForToken o kid c).1) as Hin by (rewrite Hw; by left).
    assert (StronglySorted Z.le (out_now o :: readings calls)) as Hs'.
    { constructor; [done|]. apply Forall_forall. intros y Hy. apply Hnow. by right. }
    assert (t' <= out_now o)%Z as Ht by (apply Hle; by left). destruct Hc as (_ & Hl & Hlast).
    destruct (refresh_outcome o kid c Er) as [Hcool|[Hf _]]; [apply Hnow; by left| |].
    + pose proof (cooling_waits calls _ _ Hcool Hs' _ Hin). lia.
    + assert (t + defaultUnknownKeyCooldown <= out_now o)%Z as Hfar.
      { unfold fresh in Hf. rewrite Hl in Hf. cbn [andb] in Hf. pose proof cooldown_pos. lia. }
      pose proof (refresh_times_later calls _ _ Hs' _ Hin). lia.
  - destruct (no_refresh o o kid c Er eq_refl) as [_ ->]. apply IH; [done|]. constructor; [done|].
    apply Forall_forall. intros y Hy. apply Hle. by do 2 right.
Qed.

End rate.

(** ** Accepted tokens *)
Section accepted.
Context `{Base64} `{JWKSDocuments} `{JWT} (getenv : environment) (signed : string → rsa_key → bool).
(** What golang-jwt documents of ParseWithClaims: a token that it returns has one of the methods, and its signature is
    verified with the key that the function gives for it, when it is called, once, with this token. *)
Definition jwt_sound : Prop := ∀ K methods (f : jwt_token → K → K * result error rsa_key) raw k k' token,
  jwt_ParseWithClaims methods f raw k = (k', Ok token) →
  ∃ key, f token k = (k', Ok key) ∧ tk_alg token ∈ methods ∧ signed raw key = true.
(** A key that an issuer had published when it was last asked, or publishes now. *)
Definition published (o : outside) (c c' : jwksCache) (kid : string) (key : rsa_key) : Prop :=
  (∃ now, now ∈ [out_now o; out_load o] ∧ fresh now c = true ∧ jc_keys c !! kid = Some key) ∨
  ∃ keys, validateJWKSURL (jc_jwksURL c') = Ok tt ∧ load_keys o (jc_jwksURL c') = Ok keys ∧ keys !! kid = Some key.
Lemma fetched_keys o force c c' :
  fetchKeysLocked o force c = (c', Ok tt) →
  (c' = c ∧ fresh (out_load o) c = true) ∨ (validateJWKSURL (jc_jwksURL c') = Ok tt ∧ load_keys o (jc_jwksURL c') = Ok (jc_keys c')).
Proof using.
  unfold fetchKeysLocked. destruct (negb force && _) eqn:Ef; [intros [= <-]; left; split; [done|]; by destruct force|]. cbv zeta.
  destruct (if negb (is_empty (jc_jwksURL c)) then Ok c else _) as [c1|e]; [|done].
  destruct (validateJWKSURL (jc_jwksURL c1)) as [[]|] eqn:Ev; cbn [mbind result_bind]; [|done].
  destruct (load_keys o (jc_jwksURL c1)) as [keys|] eqn:Ek; [|done]. intros [= <-]. by right.
Qed.
Lemma keyForToken_published o kid c c' key : keyForToken o kid c = (c', Ok key) → published o c c' kid key.
Proof using.
  unfold keyForToken. destruct (fresh (out_now o) c) eqn:Ef; cbn [negb].
  - destruct (jc_keys c !! kid) as [key'|] eqn:Ek; [intros [= <- <-]; left; exists (out_now o); by split; [left|]|].
    destruct (refreshCooldownActive (out_now o) c); [done|].
    destruct (fetchKeysLocked o true _) as [c1 [[]|e]] eqn:E; [|done]. unfold find_key.
    destruct (jc_keys c1 !! kid) as [key'|] eqn:Ek'; [|done]. intros [= <- <-].
    destruct (fetched_keys _ _ _ _ E) as [[-> _]|[Hv Hl]]; [cbn in Ek'; congruence|]. right. by eexists.
  - destruct (refreshCooldownActive (out_now o) c); [done|].
    destruct (fetchKeysLocked o false c) as [c1 [[]|e]] eqn:E; [|done]. cbv zeta.
    destruct (jc_keys (set_unknown None c1) !! kid) as [key'|] eqn:Ek'; [|done]. intros [= <- <-]. cbn in Ek'.
    destruct (fetched_keys _ _ _ _ E) as [[-> Hf]|[Hv Hl]]; [left; exists (out_load o); by split; [right; left|]|]. right. by eexists.
Qed.
Lemma isIssuerAllowed_spec iss :
  isIssuerAllowed getenv iss = true →
  ∃ u origin, url_Parse (TrimSpace (getenv "DRS_FENCE_URL")) = Some u ∧ url_Scheme u = "https" ∧
    normalizeIssuerOrigin (TrimSpace (getenv "DRS_FENCE_URL")) = Ok origin ∧ normalizeIssuerOrigin iss = Ok origin.
Proof using.
  unfold isIssuerAllowed. cbv zeta. destruct (is_empty _); [done|]. destruct (url_Parse _) as [u|] eqn:Eu; [|done].
  destruct (negb (String.eqb (url_Scheme u) "https") || is_empty (url_Host u)) eqn:Es; [done|].
  apply orb_false_iff in Es as [Es _]. apply negb_false_iff, String.eqb_eq in Es.
  destruct (normalizeIssuerOrigin (TrimSpace _)) as [allowed|] eqn:Ea; [|done].
  destruct (normalizeIssuerOrigin iss) as [origin|] eqn:Ei; [|done]. intros ->%String.eqb_eq. by exists u, allowed.
Qed.

End accepted.

(** ** Executions *)
Section sample.
#[local] Instance token_base64 : Base64 := {| base64_DecodeString := Some |}.
#[local] Instance token_documents : JWKSDocuments :=
  {| decode_configuration _ := None; decode_jwks _ := Some [mkJWK "EC" "x" "" ""; mkJWK "RSA" "k" "AQAB" "AQAB"] |}.
#[local] Instance token_jwt : JWT := {|
  jwt_ParseWithClaims K methods f raw k :=
    let token := mkToken "RS256" (Some raw) (Some "https://Fence.org/user") true in
    if decide (tk_alg token ∈ methods)
    then match f token k with (k', Ok _) => (k', Ok token) | (k', Err e) => (k', Err e) end
    else (k, Err (EText "")) |}.
Lemma token_jwt_sound : jwt_sound (λ _ _, true).
Proof.
  intros K methods f raw k k' token. unfold jwt_ParseWithClaims, token_jwt. cbv zeta. destruct (decide _) as [Hm|]; [|discriminate].
  destruct (f _ k) as [k1 [key|e]] eqn:E; [|discriminate]. intros [= <- <-]. exists key. split; [exact E|]. split; [exact Hm|reflexivity].
Qed.
Definition fence_env : environment := λ name, if String.eqb name "DRS_FENCE_URL" then "https://fence.org" else "".
Definition at_time (now : Z) : outside := mkOutside now now (λ _, Some (200%Z, "keys")) None.
Definition sample_calls : list (outside * string) :=
  [(at_time 5, "k"); (at_time (6 * second), "x"); (at_time (20 * second), "y"); (at_time (40 * second), "y")].
(** A failed load for an unknown key keeps valid tokens out when the keys expire soon after it. *)
Example cooldown_blocks_known_key :
  let down now := mkOutside now now (λ _, None) None in
  let '(c, first) := keyForToken (at_time 5) "k" (newIssuerJWKSCache "https://fence.org") in
  let expiry := (5 + defaultJWKSCacheTTL)%Z in
  let '(c, unknown) := keyForToken (down (expiry - second)%Z) "x" c in
  let '(c, known) := keyForToken (at_time expiry) "k" c in
  is_ok first = true ∧ is_ok unknown = false ∧ known = Err (EText "JWKS refresh cooldown active").
Proof. by vm_compute. Qed.
(** The other form of the answer of fence, a list of method names for each project, gives no right. *)
Example project_access_gives_nothing :
  let answer := Ok [("authz", AnyMap []); ("project_access", AnyMap [("DEV-test", AnyList [AnyString "read"; AnyString "create"])])] in
  match fetchPrivileges answer with Ok privs => (extractPrivileges privs).2 !! "DEV-test" = Some ∅ | Err _ => False end.
Proof. by vm_compute. Qed.
End sample.
