(* ===== verification/AuthenticationProperties.v ===== *)
(** * What authentication promises
    Local users have exactly the rights of their rows in the file; in gen3 mode every request is bound by the policy, and
    rights come from a resolved token or from the mock. *)
From S2P Require Import Prelude GoStrings GoURL Errors Resources Policy Authentication.

(** ** The file of local users *)
Section csv.
Context `{MapOrder}.
Lemma elem_of_expandLocalAuthzMethods raw method :
  method ∈ expandLocalAuthzMethods raw ↔ ∃ field, field ∈ FieldsFunc raw method_separator ∧ method ∈ expanded_method field.
Proof.
  unfold expandLocalAuthzMethods. set (l := concat _). assert (method ∈ l ↔ ∃ field, field ∈ FieldsFunc raw method_separator ∧ method ∈ expanded_method field) as <-.
  { unfold l. rewrite elem_of_concat. split.
    - intros (ms & (field & -> & Hf)%list_elem_of_fmap & Hm). by exists field.
    - intros (field & Hf & Hm). exists (expanded_method field). split; [by apply list_elem_of_fmap_2|done]. }
  rewrite list_elem_of_fmap. split.
  - intros ([m []] & -> & Hm). apply elem_of_go_range, elem_of_list_to_map_2, list_elem_of_fmap in Hm as (m' & [= ->] & Hm). done.
  - intros Hm. exists (method, tt). split; [done|]. apply elem_of_go_range.
    destruct ((list_to_map ((λ m, (m, tt)) <$> l) : gmap string unit) !! method) as [[]|] eqn:E; [done|].
    apply not_elem_of_list_to_map in E. exfalso. apply E. rewrite <- list_fmap_compose. apply list_elem_of_fmap. by exists method.
Qed.
Lemma grant_methods_set methods m method :
  method_set (grant_methods methods m) method = true ↔ method ∈ methods ∨ method_set m method = true.
Proof.
  unfold grant_methods. revert m. induction methods as [|m0 methods IH]; intros m; simpl.
  { split; [by right|]. by intros [?%elem_of_nil|]. }
  rewrite IH. unfold method_set. destruct (decide (method = m0)) as [->|Hne].
  - rewrite lookup_insert_eq. simpl. split; [intros _; left; by left|by right].
  - rewrite lookup_insert_ne by done. rewrite elem_of_cons. naive_solver.
Qed.
Definition user_right (user : localAuthzUser) (resource method : string) : Prop :=
  method_set (default ∅ (lu_privileges user !! resource)) method = true.
(** The rows of a user, and what they give. *)
Definition granted (gs : list csv_grant) (username resource method : string) : Prop :=
  ∃ g, g ∈ gs ∧ gr_username g = username ∧ gr_resource g = resource ∧ method ∈ gr_methods g.
Definition user_of (gs : list csv_grant) (username : string) (user : localAuthzUser) : Prop :=
  (∃ g, g ∈ gs ∧ gr_username g = username) ∧
  (∀ g, g ∈ gs → gr_username g = username → gr_password g = lu_password user) ∧
  (∀ resource, resource ∈ lu_resources user ↔ ∃ g, g ∈ gs ∧ gr_username g = username ∧ gr_resource g = resource) ∧
  (∀ resource, is_Some (lu_privileges user !! resource) ↔ resource ∈ lu_resources user) ∧
  (∀ resource method, user_right user resource method ↔ granted gs username resource method).
Definition store_of (gs : list csv_grant) (store : localAuthzStore) : Prop :=
  ∀ username, match store !! username with
              | Some user => user_of gs username user
              | None => ∀ g, g ∈ gs → gr_username g ≠ username
              end.
Lemma exists_snoc {A} (P : A → Prop) l x : (∃ y, y ∈ l ++ [x] ∧ P y) ↔ (∃ y, y ∈ l ∧ P y) ∨ P x.
Proof.
  split.
  - intros (y & [Hy| ->%list_elem_of_singleton]%elem_of_app & HP); [left; by exists y|by right].
  - intros [(y & Hy & HP)|HP]; [exists y|exists x]; (split; [apply elem_of_app|done]); [by left|right; by apply list_elem_of_singleton].
Qed.
Lemma add_grant_store gs store g store' : store_of gs store → add_grant store g = Ok store' → store_of (gs ++ [g]) store'.
Proof.
  intros Hs. unfold add_grant. pose proof (Hs (gr_username g)) as Hu. intros Hadd username.
  destruct (decide (gr_username g = username)) as [<-|Hne].
  - destruct (store !! gr_username g) as [user|].
    + destruct (negb _) eqn:Ep; [done|]. apply negb_false_iff, String.eqb_eq in Ep. injection Hadd as <-. rewrite lookup_insert_eq.
      destruct Hu as (Hex & Hpass & Hres & Hdom & Hright). unfold user_of, granted, user_right. cbn [lu_password lu_resources lu_privileges].
      set (resources := if bool_decide _ then _ else _).
      assert (∀ r, r ∈ resources ↔ r ∈ lu_resources user ∨ gr_resource g = r) as Hres'.
      { intros r. unfold resources. case_bool_decide as Hb.
        - split; [by left|]. intros [?| <-]; [done|]. by apply Hdom.
        - rewrite elem_of_app, list_elem_of_singleton. naive_solver. }
      split_and!.
      * apply exists_snoc. by right.
      * intros g' [Hg'| ->%list_elem_of_singleton]%elem_of_app Heq; [by apply Hpass|done].
      * intros r. rewrite exists_snoc, Hres', Hres. naive_solver.
      * intros r. rewrite lookup_insert_is_Some, Hres', Hdom. destruct (decide (gr_resource g = r)); naive_solver.
      * intros r m. rewrite exists_snoc. unfold granted, user_right in Hright. rewrite <- Hright. destruct (decide (gr_resource g = r)) as [<-|Hne].
        -- rewrite lookup_insert_eq. cbn [default from_option id]. rewrite grant_methods_set. naive_solver.
        -- rewrite lookup_insert_ne by done. naive_solver.
    + injection Hadd as <-. rewrite lookup_insert_eq. unfold user_of, granted, user_right. cbn [lu_password lu_resources lu_privileges].
      assert (∀ P : csv_grant → Prop, (∃ g', g' ∈ gs ++ [g] ∧ gr_username g' = gr_username g ∧ P g') ↔ P g) as Hone.
      { intros P. rewrite exists_snoc. split; [|naive_solver]. intros [(g' & Hg' & Heq & _)|[_ ?]]; [by destruct (Hu g' Hg')|done]. }
      split_and!.
      * apply exists_snoc. by right.
      * intros g' [Hg'| ->%list_elem_of_singleton]%elem_of_app Heq; [by destruct (Hu g' Hg')|done].
      * intros r. rewrite (Hone (λ g', gr_resource g' = r)), list_elem_of_singleton. naive_solver.
      * intros r. rewrite lookup_singleton_is_Some, list_elem_of_singleton. naive_solver.
      * intros r m. rewrite (Hone (λ g', gr_resource g' = r ∧ m ∈ gr_methods g')). destruct (decide (gr_resource g = r)) as [<-|Hne].
        -- rewrite lookup_singleton_eq. cbn [default from_option id]. rewrite grant_methods_set. unfold method_set. rewrite lookup_empty. naive_solver.
        -- rewrite lookup_singleton_ne by done. unfold method_set. cbn [default from_option id]. rewrite lookup_empty. naive_solver.
  - assert (store' !! username = store !! username) as ->.
    { destruct (store !! gr_username g) as [user|]; [destruct (negb _); [done|]|]; injection Hadd as <-; by apply lookup_insert_ne. }
    specialize (Hs username). destruct (store !! username) as [user|].
    + destruct Hs as (Hex & Hpass & Hres & Hdom & Hright). unfold user_of, granted. split_and!; try done.
      * apply exists_snoc. by left.
      * intros g' [Hg'| ->%list_elem_of_singleton]%elem_of_app Heq; [by apply Hpass|done].
      * intros r. rewrite exists_snoc, Hres. naive_solver.
      * intros r m. rewrite exists_snoc, Hright. unfold granted. naive_solver.
    + intros g' [Hg'| ->%list_elem_of_singleton]%elem_of_app; [by apply Hs|done].
Qed.
(** The records that count: those that are not blank or comments. *)
Definition csv_rows (records : list (result error (list string))) : list (list string) :=
  filter (λ r, localAuthzBlankOrComment r = false) (omap (λ r, match r with Ok record => Some record | Err _ => None end) records).

(** C22 When the file is loaded, all its rows were understood; its users are those of the rows, with one password each, and a
    user has a method on a resource exactly if one of its rows gives it. *)
Theorem csv_grants_exactly header records store :
  loadLocalAuthzCSV (Ok (Ok header :: records)) = Ok store →
  Forall (λ r, is_ok r = true) records ∧
  ∃ gs, Forall2 (λ row g, parse_grant (localAuthzColumns header) row = Ok g) (csv_rows records) gs ∧
    (∀ username, is_Some (store !! username) ↔ ∃ g, g ∈ gs ∧ gr_username g = username) ∧
    (∀ username user, store !! username = Some user →
      (∀ g, g ∈ gs → gr_username g = username → gr_password g = lu_password user) ∧
      (∀ resource method, user_right user resource method ↔ granted gs username resource method)).
Proof.
  unfold loadLocalAuthzCSV. cbv zeta. destruct (_ || _); [done|]. set (cols := localAuthzColumns header).
  intros (store1 & Hf & Hr)%bind_Ok. case_bool_decide; [done|]. injection Hr as ->.
  assert (Forall (λ r, is_ok r = true) records ∧ ∃ gs, Forall2 (λ row g, parse_grant cols row = Ok g) (csv_rows records) gs ∧ store_of gs store)
    as [Hall (gs & Hgs & Hs)].
  { refine (foldlM_inv_prefix (csv_line cols) (λ records store, Forall (λ r, is_ok r = true) records ∧
      ∃ gs, Forall2 (λ row g, parse_grant cols row = Ok g) (csv_rows records) gs ∧ store_of gs store) ∅ records store _ _ Hf).
    - split; [constructor|]. exists []. split; [constructor|]. intros username. rewrite lookup_empty. by intros g ?%elem_of_nil.
    - intros seen record st st' [Hall (gs & Hgs & Hs)] Hline. unfold csv_line in Hline. destruct record as [record|]; [|done].
      split; [apply Forall_app; by repeat constructor|]. unfold csv_rows in *. rewrite omap_app, filter_app. cbn [omap list_omap].
      destruct (localAuthzBlankOrComment record) eqn:Eb.
      + injection Hline as <-. rewrite filter_cons_False, filter_nil, app_nil_r by congruence. by exists gs.
      + apply bind_Ok in Hline as (g & Hg & Hadd). exists (gs ++ [g]). rewrite filter_cons_True, filter_nil by done.
        split; [apply Forall2_app; [done|by repeat constructor]|by eapply add_grant_store]. }
  split; [done|]. exists gs. split; [done|]. split.
  - intros username. specialize (Hs username). destruct (store !! username) as [user|].
    + split; [intros _; apply Hs|by eexists].
    + split; [by intros []|]. intros (g & Hg & Heq). by destruct (Hs g Hg).
  - intros username user Hu. specialize (Hs username). rewrite Hu in Hs. destruct Hs as (_ & Hpass & _ & _ & Hright). by split.
Qed.
End csv.

(** ** The middleware *)
Section middleware.
Context `{MapOrder} `{Base64} {S : Type}.
Lemma store_authenticate_output store header output :
  store_authenticate store header = Ok output → ao_Authenticated output = true →
  ∃ username password user, parseBasicCredentials header = Ok (username, password) ∧ store !! username = Some user ∧
    lu_password user = password ∧ ao_Subject output = username ∧
    authorizationFromClaims (ao_Claims output) = Some (lu_resources user, lu_privileges user).
Proof using.
  unfold store_authenticate. destruct (parseBasicCredentials header) as [[username password]|]; [|by intros [= <-]].
  destruct (store !! username) as [user|] eqn:Eu; [|by intros [= <-]].
  destruct (String.eqb_spec (lu_password user) password) as [<-|]; [|by intros [= <-]]. intros [= <-] _.
  exists username, (lu_password user), user. split_and!; try done. unfold authorizationFromClaims, user_claims. cbn [ao_Claims].
  set (c := <[localAuthzPrivilegesClaim := _]> _).
  assert (∀ c' : claims, (c' = c ∨ c' = <["email" := ClaimText username]> c) →
    c' !! localAuthzResourcesClaim = Some (ClaimStrings (lu_resources user)) ∧
    c' !! localAuthzPrivilegesClaim = Some (ClaimPrivileges (lu_privileges user))) as Hc.
  { unfold c. intros c' [-> | ->]; (split; [rewrite ?(lookup_insert_ne _ "email"), lookup_insert_ne, lookup_insert_eq by done; done|]);
      rewrite ?(lookup_insert_ne _ "email"), lookup_insert_eq by done; done. }
  destruct (Contains username "@"); [destruct (Hc (<["email" := ClaimText username]> c)) as [-> ->]|destruct (Hc c) as [-> ->]]; auto.
Qed.

(** A session of a user of the file. *)
Definition local_session (store : localAuthzStore) (header : string) (ctx : context) : Prop :=
  ∃ username password user, parseBasicCredentials header = Ok (username, password) ∧ store !! username = Some user ∧
    lu_password user = password ∧ Subject (FromContext ctx) = TrimSpace username ∧
    IsAuthzEnforced ctx = true ∧ IsGen3Mode ctx = false ∧ GetUserPrivileges ctx = normalizePrivileges (lu_privileges user).
Lemma local_runtime getenv open_csv start_authn start_authz resolve basicUser basicPass store :
  TrimSpace (getenv "DRS_LOCAL_AUTHZ_CSV") ≠ "" → loadLocalAuthzCSV (open_csv (TrimSpace (getenv "DRS_LOCAL_AUTHZ_CSV"))) = Ok store →
  getenv "SYFON_AUTHN_PLUGIN_PATH" = "" →
  let r := NewRuntime (S:=S) getenv open_csv start_authn start_authz resolve "local" basicUser basicPass in
  rt_localAuthzError r = false ∧ rt_authentication r = Some (localAuthPlugin basicUser basicPass (Some store)).
Proof using.
  intros Hcsv Hload Hplugin. apply is_empty_false in Hcsv. unfold NewRuntime. cbv zeta. rewrite Hplugin, Hcsv, Hload.
  change (EqualFold (TrimSpace "local") "local") with true. by split.
Qed.
Lemma local_evaluation (r : Runtime S) store basicUser basicPass req :
  rt_localAuthzError r = false → rt_authentication r = Some (localAuthPlugin basicUser basicPass (Some store)) →
  ev_Decision (evaluateLocal r req (NewSession "local")) = DecisionContinue →
  local_session store (er_AuthHeader req) (Some (ev_Session (evaluateLocal r req (NewSession "local")))).
Proof using.
  intros He Ha. unfold evaluateLocal. rewrite He, Ha. cbv zeta. unfold localAuthPlugin. cbn [ai_AuthHeader].
  destruct (store_authenticate store (er_AuthHeader req)) as [output|] eqn:Eo; [|done].
  destruct (ao_Authenticated output) eqn:Ea; cbn [negb]; [|done].
  destruct (store_authenticate_output _ _ _ Eo Ea) as (username & password & user & Hp & Hu & Hpass & Hsub & Hc). rewrite Hc.
  intros _. exists username, password, user. by rewrite Hsub.
Qed.
(** C19 In local mode with a file of users and no plugin that authenticates, whoever gets to the handlers has given the password
    of a user of the file and is bound by the rights of that user; except at the addresses of public metadata, where a
    request without credentials gets to the handlers with no limits at all. *)
Theorem local_users_enforced getenv open_csv start_authn start_authz resolve basicUser basicPass store req (s s' : S) ctx :
  TrimSpace (getenv "DRS_LOCAL_AUTHZ_CSV") ≠ "" → loadLocalAuthzCSV (open_csv (TrimSpace (getenv "DRS_LOCAL_AUTHZ_CSV"))) = Ok store →
  getenv "SYFON_AUTHN_PLUGIN_PATH" = "" →
  FiberMiddleware "local" (Some (NewRuntime getenv open_csv start_authn start_authz resolve "local" basicUser basicPass)) req s = (s', Passed ctx) →
  if isPublicDRSMetadataRequest (rq_Method req) (rq_Path req) && is_empty (TrimSpace (rq_Authorization req))
  then ∀ method resources, HasObjectMethodAccess ctx method resources = true
  else local_session store (rq_Authorization req) ctx.
Proof using.
  intros Hcsv Hload Hplugin. unfold FiberMiddleware. change (ToLower (TrimSpace "local")) with "local".
  destruct (isPublicDRSMetadataRequest _ _ && _); [by intros [= _ <-]|].
  set (r := NewRuntime _ _ _ _ _ _ _ _). set (request := mkEvaluation _ _ _ _ _). unfold Evaluate.
  change (ToLower (TrimSpace (er_Mode request))) with "local". cbn [String.eqb Ascii.eqb Bool.eqb].
  destruct (local_runtime getenv open_csv start_authn start_authz resolve basicUser basicPass store Hcsv Hload Hplugin) as [He Ha].
  pose proof (local_evaluation r store basicUser basicPass request He Ha) as Hl. clear He Ha. clearbody r.
  unfold applyResult. destruct (ev_Decision (evaluateLocal r request (NewSession "local"))) eqn:Ed; try by intros [=].
  intros [= _ <-]. by apply Hl.
Qed.

Lemma no_header_no_access ctx method resources :
  IsGen3Mode ctx = true → HasAuthHeader ctx = false → HasObjectMethodAccess ctx method resources = false ∧ HasMethodAccess ctx method resources = false.
Proof using.
  intros Hm Hh. unfold HasObjectMethodAccess, HasMethodAccess.
  assert (IsAuthzEnforced ctx = true) as -> by (unfold IsAuthzEnforced; unfold IsGen3Mode in Hm; cbv zeta; by rewrite Hm).
  by rewrite Hm, Hh.
Qed.
Lemma authorize_session (r : Runtime S) req session c : ev_Session (authorize r req session c) = session.
Proof using. unfold authorize. destruct (rt_authorization r); [|done]. by destruct (a _). Qed.
Lemma applyResult_passed result ctx : applyResult result = Passed ctx → ctx = Some (ev_Session result).
Proof using. unfold applyResult. destruct (ev_Decision result); by intros [=]. Qed.
(** Where the rights of a session come from. *)
Definition rights_source (evaluator : option (Runtime S)) (header : string) (s s' : S) (session : Session) : Prop :=
  (Privileges session = ∅ ∧ sess_Resources session = []) ∨
  ∃ r resources p, evaluator = Some r ∧ Privileges session = normalizePrivileges p ∧ sess_Resources session = resources ∧
    ((mk_Enabled (rt_mock r) = true ∧ (resources, p) = mockAuthorizations (rt_mock r)) ∨
     ∃ token resolve, extractBearerLikeToken header = Ok token ∧ rt_tokenResolver r = Some resolve ∧ resolve token s = (s', Some (resources, p))).
Definition no_mock (evaluator : option (Runtime S)) : Prop := ∀ r, evaluator = Some r → mk_Enabled (rt_mock r) = false.
Definition gen3_session (evaluator : option (Runtime S)) (header : string) (s s' : S) (session : Session) : Prop :=
  Mode session = "gen3" ∧ (TrimSpace header = "" → no_mock evaluator → AuthHeaderPresent session = false) ∧
  rights_source evaluator header s s' session.
Lemma evaluateGen3_session (r : Runtime S) req s s' result :
  let session := set_enforced true (set_header (negb (is_empty (TrimSpace (er_AuthHeader req)))) (NewSession "gen3")) in
  evaluateGen3 r req session s = (s', result) → gen3_session (Some r) (er_AuthHeader req) s s' (ev_Session result).
Proof using.
  intros session.
  assert (gen3_session (Some r) (er_AuthHeader req) s s' session) as Hplain.
  { split_and!; [done| |by left]. intros Ha _. cbn. by rewrite Ha. }
  unfold evaluateGen3. destruct (mk_Enabled (rt_mock r)) eqn:Em.
  { destruct (mk_RequireAuthHeader _ && _); [by intros [= <- <-]|].
    destruct (mockAuthorizations (rt_mock r)) as [resources p] eqn:Er. intros [= <- <-]. rewrite authorize_session.
    split_and!; [done|intros _ Hmock; by rewrite (Hmock r) in Em|]. right. exists r, resources, p. split_and!; [done..|]. left. by rewrite Er. }
  destruct (is_empty (TrimSpace (er_AuthHeader req))) eqn:Ea; [by intros [= <- <-]|]. apply is_empty_false in Ea.
  destruct (gen3_output r req) as [output|]; [|by intros [= <- <-]]. unfold token_rights.
  destruct (extractBearerLikeToken (er_AuthHeader req)) as [token|] eqn:Et.
  2: { intros [= <- <-]. rewrite authorize_session. split_and!; [done|done|by left]. }
  destruct (rt_tokenResolver r) as [resolve|] eqn:Ev.
  2: { intros [= <- <-]. rewrite authorize_session. split_and!; [done|done|by left]. }
  destruct (resolve token s) as [s1 rights] eqn:Er. destruct rights as [[resources p]|]; intros [= <- <-]; rewrite authorize_session.
  - split_and!; [done|done|]. right. exists r, resources, p. split_and!; [done..|]. right. by exists token, resolve.
  - split_and!; [done|done|by left].
Qed.
Lemma middleware_session (evaluator : option (Runtime S)) req s s' ctx :
  FiberMiddleware "gen3" evaluator req s = (s', Passed ctx) →
  ∃ session, ctx = Some session ∧ gen3_session evaluator (rq_Authorization req) s s' session.
Proof using.
  unfold FiberMiddleware. change (ToLower (TrimSpace "gen3")) with "gen3". cbv zeta.
  assert (gen3_session evaluator (rq_Authorization req) s s' (newSession "gen3")) as Hplain by (split_and!; [done|done|by left]).
  destruct (isPublicDRSMetadataRequest _ _ && _); [intros [= <- <-]; by eexists|].
  destruct evaluator as [r|]; [|intros [= <- <-]; by eexists].
  set (request := mkEvaluation _ _ _ _ _). unfold Evaluate. change (ToLower (TrimSpace (er_Mode request))) with "gen3".
  cbn [String.eqb Ascii.eqb Bool.eqb]. destruct (evaluateGen3 r request _ s) as [s1 result] eqn:Ee. intros [= -> Hp].
  apply applyResult_passed in Hp as ->. eexists. split; [done|]. by apply evaluateGen3_session in Ee.
Qed.
End middleware.

(** ** Executions *)
Section sample.
#[local] Existing Instance canonical_order.
#[local] Instance sample_base64 : Base64 := {| base64_DecodeString payload := if String.eqb payload "QURB" then Some "ada:pw" else None |}.
Definition user_file : list (result error (list string)) :=
  Ok <$> [["Username"; "Password"; "Methods"; "Organization"; "Project"]; ["# comment"]; ["ada"; "pw"; "read|Write"; "org"; "p"];
          ["ada"; "pw"; "read"; "org"; ""]; ["bob"; "x"; "delete"; "org"; ""]].
Definition sample_env : environment := λ name, if String.eqb name "DRS_LOCAL_AUTHZ_CSV" then " users.csv " else "".
Definition no_plugin {A} (path : string) : option A := None.
Definition no_token (token : string) (s : unit) : unit * tokenAuthResult := (s, None).
Definition local_server : Runtime unit := NewRuntime sample_env (λ _, Ok user_file) no_plugin no_plugin no_token "local" "" "".
Definition sample_store : localAuthzStore := match loadLocalAuthzCSV (Ok user_file) with Ok store => store | Err _ => ∅ end.
Lemma sample_loaded : loadLocalAuthzCSV (Ok user_file) = Ok sample_store.
Proof.
  unfold sample_store. destruct (loadLocalAuthzCSV (Ok user_file)) eqn:E; [done|]. exfalso.
  assert (is_ok (loadLocalAuthzCSV (Ok user_file)) = true) as Hb by by vm_compute. by rewrite E in Hb.
Qed.
Definition ada : localAuthzUser := default (mkLocalUser "" [] ∅) (sample_store !! "ada").
Lemma ada_stored : sample_store !! "ada" = Some ada.
Proof. unfold ada. destruct (sample_store !! "ada") eqn:E; [done|]. exfalso. assert (bool_decide (is_Some (sample_store !! "ada")) = true) as Hb by by vm_compute. by rewrite E in Hb. Qed.
Lemma csv_grants_exactly_witness :
  sample_store !! "ada" = Some ada ∧ user_right ada "/organization/org/project/p" "file_upload" ∧ ¬ user_right ada "/organization/org" "delete" ∧
  ∃ gs, granted gs "ada" "/organization/org/project/p" "file_upload" ∧ ¬ granted gs "ada" "/organization/org" "delete".
Proof.
  destruct (csv_grants_exactly ["Username"; "Password"; "Methods"; "Organization"; "Project"] (tail user_file) sample_store sample_loaded)
    as (_ & gs & _ & _ & Hu).
  destruct (Hu "ada" ada ada_stored) as [_ Hr].
  assert (user_right ada "/organization/org/project/p" "file_upload") as H1 by (vm_compute; reflexivity).
  assert (¬ user_right ada "/organization/org" "delete") as H2 by (vm_compute; discriminate).
  split; [exact ada_stored|]. split; [exact H1|]. split; [exact H2|].
  exists gs. split; [apply Hr; exact H1|]. intros Hg. apply H2, Hr, Hg.
Defined.
(** A test of the context with which a request passes. *)
Definition passes_with (test : context → bool) (p : unit * passage) : bool :=
  match p.2 with Passed ctx => test ctx | Rejected _ _ => false end.
Lemma passes_with_ctx test p : passes_with test p = true → ∃ ctx, p = (tt, Passed ctx) ∧ test ctx = true.
Proof. destruct p as [[] [ctx|]]; [|done]. intros Ht. by exists ctx. Qed.
Definition get (path header : string) : http_request := mkHttpRequest "GET" path header "r".
Lemma local_users_enforced_witness :
  ∃ ctx, FiberMiddleware "local" (Some local_server) (get "/index" "Basic QURB") tt = (tt, Passed ctx) ∧ local_session sample_store "Basic QURB" ctx ∧
    HasObjectMethodAccess ctx "delete" ["/organization/org/project/p"] && negb (HasObjectMethodAccess ctx "delete" ["/organization/org"]) = true.
Proof.
  destruct (passes_with_ctx (λ ctx, HasObjectMethodAccess ctx "delete" ["/organization/org/project/p"] && negb (HasObjectMethodAccess ctx "delete" ["/organization/org"]))
    (FiberMiddleware "local" (Some local_server) (get "/index" "Basic QURB") tt)) as (ctx & E & Ht); [vm_compute; reflexivity|].
  exists ctx. split; [exact E|]. split; [|exact Ht].
  apply (local_users_enforced sample_env (λ _, Ok user_file) no_plugin no_plugin no_token "" "" sample_store
    (get "/index" "Basic QURB") tt tt ctx); [vm_compute; discriminate|exact sample_loaded|reflexivity|exact E].
Defined.
Definition fence_server : Runtime unit :=
  NewRuntime (λ _, "") (λ _, Err (EText "")) no_plugin no_plugin
    (λ token s, (s, if String.eqb token "t" then Some (["/programs"], {["/programs" := {["read" := true]}]}) else None)) "gen3" "" "".
(** The routes of the server do not distinguish upper and lower case, this test does: with one letter changed, a request
    without credentials that registers objects or asks for signed URLs counts as public metadata. *)
Example capital_letter :
  isPublicDRSMetadataRequest "POST" "/ga4gh/drs/v1/objects/register" = false ∧
  isPublicDRSMetadataRequest "POST" "/ga4gh/drs/v1/objects/Register" = true ∧
  passes_with (λ ctx, HasMethodAccess ctx "create" ["/organization/org"])
    (FiberMiddleware "local" (Some local_server) (mkHttpRequest "POST" "/ga4gh/drs/v1/objects/Register" "" "r") tt) = true.
Proof. by vm_compute. Qed.
(** Without credentials more is visible than with the password of a user. *)
Example anonymous_sees_more :
  let reads_other ctx := HasObjectMethodAccess ctx "read" ["/organization/other"] in
  let request header := FiberMiddleware "local" (Some local_server) (get "/ga4gh/drs/v1/objects/o1" header) tt in
  passes_with (λ ctx, negb (reads_other ctx)) (request "Basic QURB") = true ∧ passes_with reads_other (request "") = true.
Proof. by vm_compute. Qed.
End sample.
