(* ===== verification/Disposition.v ===== *)
(** * The name of a download: internal/storage/filename.go
    The header Content-Disposition with the name twice, once reduced to ASCII and once percent-encoded.  A range loop over a
    Go string visits runes, so that the widths of UTF-8 sequences matter; strings are bytes here. *)
From S2P Require Import Prelude GoStrings GoURL Objects Buckets Targets Paths.

(** ** unicode/utf8: the width of the rune at the start of a string; a byte that starts none has width one *)
Definition rune_start (a : Ascii.ascii) : option (nat * nat * nat) :=
  if between 194 223 a then Some (2, 128, 191)
  else if between 224 224 a then Some (3, 160, 191)
  else if between 237 237 a then Some (3, 128, 159)
  else if between 225 239 a then Some (3, 128, 191)
  else if between 240 240 a then Some (4, 144, 191)
  else if between 241 243 a then Some (4, 128, 191)
  else if between 244 244 a then Some (4, 128, 143)
  else None.
Definition rune_width (a : Ascii.ascii) (s : string) : nat :=
  match rune_start a, chars s with
  | Some (n, lo, hi), b :: rest => if between lo hi b && (n - 2 <=? length rest) && forallb (between 128 191) (take (n - 2) rest) then n else 1
  | _, _ => 1
  end.

(** ** filename.go *)
(** [skip]: bytes left of the rune that was seen. *)
Fixpoint sanitized (skip : nat) (name : string) : string :=
  match name with
  | "" => ""
  | String a name =>
      match skip with
      | S skip => sanitized skip name
      | 0 =>
          let n := Ascii.nat_of_ascii a in
          if (n <? 32) || (n =? 127) then sanitized 0 name
          else if (n =? 34) || (n =? 92) then String (Ascii.ascii_of_nat 95) (sanitized 0 name)
          else if 126 <? n then String (Ascii.ascii_of_nat 95) (sanitized (rune_width a name - 1) name)
          else String a (sanitized 0 name)
      end
  end.
Definition sanitizeASCIIFilename (name : string) : string := TrimSpace (sanitized 0 name).
Definition escapeRFC5987 (name : string) : string := ReplaceAll (QueryEscape name) "+" "%20".
Definition disposition_text (fallback escaped : string) : string :=
  "attachment; filename=" +:+ bytes [34] +:+ fallback +:+ bytes [34] +:+ "; filename*=UTF-8''" +:+ escaped.
Definition ContentDispositionAttachment (name : string) : string :=
  let filename := DownloadFilename name in
  if is_empty filename then ""
  else
    let fallback := sanitizeASCIIFilename filename in
    disposition_text (if is_empty fallback then "download" else fallback) (escapeRFC5987 filename).

(** ** What the header promises *)
(** Printable ASCII without quotes and backslashes, so that the quoted text ends where it should. *)
Definition quotable (a : Ascii.ascii) : bool := between 32 126 a && negb (Ascii.nat_of_ascii a =? 34) && negb (Ascii.nat_of_ascii a =? 92).
Definition encoded_char (a : Ascii.ascii) : bool := unreserved a || Ascii.eqb a percent.
Lemma query_char_cases a :
  (escape_char inQuery a = "+" ∧ a = Ascii.ascii_of_nat 32) ∨
  (Forall (λ c, encoded_char c = true) (chars (escape_char inQuery a)) ∧ ∀ s, unescape encodePath (escape_char inQuery a +:+ s) = String a <$> unescape encodePath s).
Proof.
  destruct (decide (a = Ascii.ascii_of_nat 32)) as [->|Hne]; [by left|]. right. split.
  - assert (negb (bool_decide (a = Ascii.ascii_of_nat 32)) = true) as Hb by by rewrite bool_decide_eq_false_2.
    revert Hb. clear Hne. intros Hb. apply (bool_decide_unpack _). revert Hb. by destruct a as [[] [] [] [] [] [] [] []]; vm_compute.
  - intros s. revert Hne. by destruct a as [[] [] [] [] [] [] [] []]; intros Hne; try reflexivity; exfalso; apply Hne.
Qed.
Lemma plus_not_encoded : encoded_char (Ascii.ascii_of_nat 43) = false.
Proof. done. Qed.
(** The replacement, over text without a plus. *)
Lemma replace_plain n new t s :
  Forall (λ c, encoded_char c = true) (chars t) → replace_fuel (String.length t + n) "+" new (t +:+ s) = t +:+ replace_fuel n "+" new s.
Proof.
  induction t as [|c t IH]; [done|]. intros [Hc Ht]%Forall_cons. rewrite string_app_cons. cbn [String.length Nat.add replace_fuel].
  assert (strip_prefix "+" (String c (t +:+ s)) = None) as ->.
  { change (strip_prefix "+" (String c (t +:+ s))) with (if Ascii.eqb (Ascii.ascii_of_nat 43) c then Some (t +:+ s) else None).
    destruct (Ascii.eqb_spec (Ascii.ascii_of_nat 43) c) as [<-|Hne]; [by rewrite plus_not_encoded in Hc|done]. }
  by rewrite IH.
Qed.
Lemma replace_query n s :
  String.length (QueryEscape s) ≤ n →
  Forall (λ c, encoded_char c = true) (chars (replace_fuel n "+" "%20" (QueryEscape s))) ∧
  unescape encodePath (replace_fuel n "+" "%20" (QueryEscape s)) = Some s.
Proof.
  revert n. induction s as [|a s IH]; intros n Hn; [by destruct n|]. unfold QueryEscape in *. cbn [escape] in *. rewrite string_length_app in Hn.
  destruct (query_char_cases a) as [[Ep ->]|[Hplain Hun]].
  - rewrite Ep in *. destruct n as [|n]; [simpl in Hn; lia|]. rewrite string_app_cons, string_app_nil_l.
    destruct (IH n) as [H1 H2]; [simpl in Hn; lia|]. cbn [replace_fuel strip_prefix Ascii.eqb Bool.eqb].
    rewrite chars_app. split.
    + apply Forall_app. split; [|done]. by repeat constructor.
    + change ("%20" +:+ ?x) with (String percent (String (Ascii.ascii_of_nat 50) (String (Ascii.ascii_of_nat 48) x))). cbn. by rewrite H2.
  - replace n with (String.length (escape_char inQuery a) + (n - String.length (escape_char inQuery a))) by lia. rewrite replace_plain by done.
    destruct (IH (n - String.length (escape_char inQuery a))) as [H1 H2]; [lia|]. rewrite chars_app. split; [by apply Forall_app|].
    by rewrite Hun, H2.
Qed.
Lemma sanitized_quotable skip s : Forall (λ c, quotable c = true) (chars (sanitized skip s)).
Proof.
  revert skip. induction s as [|a s IH]; intros skip; [constructor|]. cbn [sanitized]. destruct skip; [|apply IH]. cbv zeta.
  destruct ((_ <? 32) || _) eqn:E1; [apply IH|]. destruct ((_ =? 34) || _) eqn:E2; [apply Forall_cons; split; [done|apply IH]|].
  destruct (126 <? _) eqn:E3; apply Forall_cons; (split; [|apply IH]); [done|].
  unfold quotable, between. apply orb_false_iff in E1 as [H1 H2], E2 as [H3 H4].
  apply Nat.ltb_ge in H1, E3. rewrite H3, H4, !andb_true_r. apply andb_true_iff. by rewrite !Nat.leb_le.
Qed.
Lemma Forall_infix {P : Ascii.ascii → Prop} s t : infix t s → Forall P (chars s) → Forall P (chars t).
Proof. intros (x & y & ->). rewrite !chars_app, !Forall_app. tauto. Qed.
(** C17 For a name that denotes a file the header has the two forms of the name: the quoted one ends where it should, whatever
    the name holds, and the encoded one is made of characters that a header may hold and decodes to the name; for any other
    name there is no header. *)
Theorem disposition_names_file name :
  if is_empty (DownloadFilename name) then ContentDispositionAttachment name = ""
  else ∃ fallback escaped, ContentDispositionAttachment name = disposition_text fallback escaped ∧
    fallback ≠ "" ∧ Forall (λ c, quotable c = true) (chars fallback) ∧
    Forall (λ c, encoded_char c = true) (chars escaped) ∧ unescape encodePath escaped = Some (DownloadFilename name).
Proof.
  unfold ContentDispositionAttachment. destruct (is_empty (DownloadFilename name)); [done|]. cbv zeta.
  set (f := DownloadFilename name). set (quoted := sanitizeASCIIFilename f).
  destruct (replace_query (Datatypes.S (String.length (QueryEscape f))) f ltac:(lia)) as [He Hu].
  eexists _, _. split; [reflexivity|]. split_and!; [| |exact He|exact Hu].
  - destruct (is_empty quoted) eqn:E; [done|by apply is_empty_false].
  - destruct (is_empty quoted); [by repeat constructor|]. eapply Forall_infix; [apply infix_trim|apply sanitized_quotable].
Qed.
Example disposition_ex :
  ContentDispositionAttachment ("dir/r" +:+ bytes [0xC3; 0xA9; 34; 10] +:+ " x.txt")
  = disposition_text "r__ x.txt" "r%C3%A9%22%0A%20x.txt".
Proof. by vm_compute. Qed.
