(* ===== verification/GCSSigning.v ===== *)
(** * Addresses of objects on GCS: signedURL in internal/storage/gcs/access.go
    With an endpoint in the credential the address is that of an object in the JSON interface of the endpoint; otherwise it is
    signed by the client library. *)
From S2P Require Import Prelude GoStrings GoURL Errors Resources Policy Objects ContentReads Address Buckets Targets StorageManager Attribution Paths Disposition.
#[local] Set Warnings "-automation".

(** ** Addresses on an endpoint *)
Definition replace_path (u : FullURL) (path raw query : string) : FullURL :=
  mkFullURL (fu_Scheme u) (fu_Opaque u) (fu_User u) (fu_Host u) (fu_OmitHost u) path raw (fu_ForceQuery u) query "" (fu_RawFragment u).
Definition slashed (parts : list string) : string := let p := Join parts "/" in if HasPrefix p "/" then p else "/" +:+ p.
(** [setPath]; a path that would start like an authority is refused. *)
Definition set_path (u : FullURL) (decodedParts escapedParts : list string) (query : Values) : option FullURL :=
  let builtPath := slashed decodedParts in
  let escapedPath := slashed escapedParts in
  if HasPrefix builtPath "//" || HasPrefix builtPath "/\" then None else Some (replace_path u builtPath escapedPath (values_Encode query)).
Definition with_scheme (endpoint : string) : string :=
  if HasPrefix endpoint "http://" || HasPrefix endpoint "https://" then endpoint else "http://" +:+ endpoint.
Definition bare_path (p : string) : string := TrimRight (TrimSpace p) "/".
Definition media_query (downloadName : string) : Values :=
  let disposition := ContentDispositionAttachment downloadName in
  let query := values_Set "alt" "media" ∅ in
  if is_empty disposition then query else values_Set "response-content-disposition" disposition query.
Definition object_address (base : FullURL) (bucket key method downloadName : string) : option FullURL :=
  let cleanKey := Trim (TrimSpace key) "/" in
  let prefix := bare_path (fu_Path base) in
  let escapedPrefix := bare_path (EscapedPath base) in
  let bucketEscaped := PathEscape (TrimSpace bucket) in
  if String.eqb (ToUpper (TrimSpace method)) "PUT" then
    set_path base [prefix; "upload"; "storage"; "v1"; "b"; TrimSpace bucket; "o"] [escapedPrefix; "upload"; "storage"; "v1"; "b"; bucketEscaped; "o"]
      (values_Set "name" cleanKey (values_Set "uploadType" "media" ∅))
  else
    set_path base [prefix; "storage"; "v1"; "b"; TrimSpace bucket; "o"; cleanKey]
      [escapedPrefix; "storage"; "v1"; "b"; bucketEscaped; "o"; PathEscape cleanKey] (media_query downloadName).
Definition endpointObjectURL (cred : Credential) (bucket key method downloadName : string) : option string :=
  let endpoint := TrimSpace (c_Endpoint cred) in
  if is_empty endpoint then None
  else
    base ← full_Parse (with_scheme endpoint);
    if is_empty (TrimSpace (fu_Host base)) then None
    else url_String <$> object_address base bucket key method downloadName.

(** ** Signing *)
Record SignedURLOptions := mkSignedURLOptions {
  so_GoogleAccessID : string; so_PrivateKey : string; so_Method : string; so_Expires : Z; so_Headers : list string;
  so_QueryParameters : option Values }.
(** [json_text field text]: decoding [text] into a structure with this one field of text; nothing when it fails. *)
Class GCSSigner (S : Type) := {
  json_text : string → string → option string;
  gcs_Now : S → Z;
  gcs_SignedURL : string → string → SignedURLOptions → S → result error string }.
Section signing.
Context {S : Type} `{!GCSSigner S}.
Definition json_or (field fallback secret : string) : string :=
  match json_text field secret with
  | Some text => if is_empty (TrimSpace text) then fallback else TrimSpace text
  | None => fallback
  end.
Definition googleAccessID (cred : Credential) : string := json_or "client_email" (TrimSpace (c_AccessKey cred)) (TrimSpace (c_SecretKey cred)).
Definition privateKey (cred : Credential) : string := json_or "private_key" (TrimSpace (c_SecretKey cred)) (TrimSpace (c_SecretKey cred)).
Definition gcs_signedURL (bucket key method : string) (expiry : Z) (rangeValue downloadName : string) (cred : Credential) (s : S) : result error string :=
  match endpointObjectURL cred bucket key method downloadName with
  | Some url => Ok url
  | None =>
      if is_empty (googleAccessID cred) || is_empty (privateKey cred)
      then Err (EText "gcs signing requires service account credentials (access_key=client_email, secret_key=private_key or JSON key)")
      else
        let disposition := ContentDispositionAttachment downloadName in
        gcs_SignedURL bucket key
          (mkSignedURLOptions (googleAccessID cred) (privateKey cred) method (gcs_Now s + expiry)
             (if is_empty rangeValue then [] else ["Range:" +:+ rangeValue])
             (if is_empty disposition then None else Some (values_Set "response-content-disposition" disposition ∅))) s
  end.
End signing.

Definition example_cred (endpoint : string) : Credential := mkCredential "b" "b" "gcs" "" "" "" endpoint.
Example address_get :
  endpointObjectURL (example_cred "localhost:4443/api/") "b" "a b/c?.txt" "GET" ""
  = Some "http://localhost:4443/api/storage/v1/b/b/o/a%20b%2Fc%3F.txt?alt=media".
Proof. by vm_compute. Qed.
Example address_put :
  endpointObjectURL (example_cred "http://u@h") "b" "/a b/c" "put" "x"
  = Some "http://u@h/upload/storage/v1/b/b/o?name=a+b%2Fc&uploadType=media".
Proof. by vm_compute. Qed.

(** ** What an address on an endpoint names *)
Lemma two_values k1 v1 k2 v2 :
  String.ltb k1 k2 = true →
  values_Encode (values_Set k1 v1 (values_Set k2 v2 ∅)) = QueryEscape k1 +:+ "=" +:+ QueryEscape v1 +:+ "&" +:+ QueryEscape k2 +:+ "=" +:+ QueryEscape v2
  ∧ values_Encode (values_Set k2 v2 (values_Set k1 v1 ∅)) = values_Encode (values_Set k1 v1 (values_Set k2 v2 ∅)).
Proof.
  intros [Hle Hne]%ltb_spec. unfold values_Set. rewrite (insert_insert_ne ∅ k2 k1) by done. split; [|done]. unfold values_Encode.
  assert (sort_Strings ((map_to_list (<[k1:=[v1]]> (<[k2:=[v2]]> (∅ : Values)))).*1) = [k1; k2]) as ->.
  { apply sort_Strings_unique; [by repeat constructor|].
    rewrite !map_to_list_insert; [by rewrite map_to_list_empty|done|]. by rewrite lookup_insert_ne by done. }
  cbn [fmap list_fmap concat]. rewrite lookup_insert_eq, lookup_insert_ne, lookup_insert_eq by done. cbn. by rewrite !(assoc_L String.append).
Qed.
Lemma one_value k v : values_Encode (values_Set k v ∅) = QueryEscape k +:+ "=" +:+ QueryEscape v.
Proof. unfold values_Encode, values_Set. rewrite insert_empty, map_to_list_singleton. cbn. unfold sort_Strings. cbn. by rewrite lookup_singleton_eq. Qed.
Lemma media_query_text name :
  values_Encode (media_query name) = "alt=media" +:+ (let d := ContentDispositionAttachment name in if is_empty d then "" else "&response-content-disposition=" +:+ QueryEscape d).
Proof.
  unfold media_query. cbv zeta. destruct (is_empty (ContentDispositionAttachment name)).
  - rewrite one_value. done.
  - by rewrite (proj2 (two_values "alt" _ "response-content-disposition" _ eq_refl)), (proj1 (two_values "alt" _ "response-content-disposition" _ eq_refl)).
Qed.
Lemma parse_hier_opaque scheme rest v :
  parse_hier scheme rest = Some v → url_Host v ≠ "" → negb (HasPrefix rest "/") && negb (is_empty scheme) = false ∧ url_Scheme v = scheme.
Proof.
  unfold parse_hier. destruct (negb _ && negb _); [by intros [= <-]|]. intros Hv _. split; [done|]. revert Hv.
  destruct (_ && Contains _ _); [done|]. destruct (_ && HasPrefix _ _).
  - cbv zeta. destruct (match Cut (TrimPrefix rest "//") "/" with Some (x, y) => (x, "/" +:+ y) | None => (TrimPrefix rest "//", "") end) as [authority path]. by intros (host & _ & (p & _ & [= <-])%bind_Some)%bind_Some.
  - by intros (p & _ & [= <-])%bind_Some.
Qed.
Lemma full_Parse_opaque raw u : full_Parse raw = Some u → fu_Host u ≠ "" → fu_Opaque u = "".
Proof.
  unfold full_Parse, url_Parse, cut_or. set (pieces := match Cut raw "#" with Some (x, y) => (x, y) | None => (raw, "") end).
  assert (default (raw, "") (Cut raw "#") = pieces) as -> by (unfold pieces; by destruct (Cut raw "#") as [[]|]).
  destruct pieces as [front fragment]. intros (url & (v & Hv & (w & _ & [= <-])%bind_Some)%bind_Some & Hu)%bind_Some Hhost.
  set (rest := match getScheme front with SchemeOk _ rest => rest | SchemeErr => "" end) in Hu.
  set (force := HasSuffix rest "?" && (count_char question rest =? 1)) in Hu.
  destruct (if force then _ else _) as [path query] eqn:Epath in Hu.
  assert (fu_Host u = url_Host v ∧ fu_Opaque u = if negb (HasPrefix path "/") && negb (is_empty (url_Scheme v)) then path else "") as [Hh ->]
    by (by injection Hu as <-).
  rewrite Hh in Hhost. unfold url_parse in Hv. destruct (existsb _ _); [done|]. destruct (String.eqb front "*"); [by injection Hv as <-|].
  destruct (getScheme front) as [|scheme rest0]; [done|]. subst rest. cbv zeta in Hv. fold force in Hv.
  assert ((if force then TrimSuffix rest0 "?" else match Cut rest0 "?" with Some (x, _) => x | None => rest0 end) = path) as E.
  { destruct force; [by injection Epath|]. destruct (Cut rest0 "?") as [[]|]; by injection Epath. }
  rewrite E in Hv. apply parse_hier_opaque in Hv as [Ho ->]; [|done]. by rewrite Ho.
Qed.
(** The path of the endpoint means the same, escaped or not, once blanks and slashes at its end are cut, and does not start
    like an authority. *)
Definition settled (base : FullURL) : bool :=
  let e := bare_path (EscapedPath base) in
  let p := bare_path (fu_Path base) in
  bool_decide (unescape encodePath e = Some p) && (is_empty e || HasPrefix e "/") && negb (HasPrefix (p +:+ "/") "//" || HasPrefix (p +:+ "/") "/\").
(** Where the objects of an endpoint are. *)
Definition address_front (base : FullURL) : string :=
  (if is_empty (fu_Scheme base) then "" else fu_Scheme base +:+ ":") +:+ "//"
  +:+ (match fu_User base with Some user => user_text user +:+ "@" | None => "" end) +:+ escape inHost (fu_Host base) +:+ bare_path (EscapedPath base).
Definition named_address (base : FullURL) (bucket key method downloadName : string) : string :=
  if String.eqb (ToUpper (TrimSpace method)) "PUT"
  then address_front base +:+ "/upload/storage/v1/b/" +:+ PathEscape bucket +:+ "/o?name=" +:+ QueryEscape key +:+ "&uploadType=media"
  else address_front base +:+ "/storage/v1/b/" +:+ PathEscape bucket +:+ "/o/" +:+ PathEscape key +:+ "?" +:+ values_Encode (media_query downloadName).

Lemma validEncoded_app p s t : validEncoded p (s +:+ t) = validEncoded p s && validEncoded p t.
Proof. unfold validEncoded, str_forall. by rewrite chars_app, forallb_app. Qed.
Lemma validEncoded_Join p l : Forall (λ s, validEncoded p s = true) l → validEncoded p "/" = true → validEncoded p (Join l "/") = true.
Proof.
  intros Hl Hs. induction Hl as [|s l Hx Hl IH]; [done|]. destruct l as [|t l]; [done|]. rewrite Join_cons, !validEncoded_app by done.
  by rewrite Hx, Hs, IH.
Qed.
Lemma unescape_Join escaped decoded :
  Forall2 (λ e d, unescape encodePath e = Some d) escaped decoded → unescape encodePath (Join escaped "/") = Some (Join decoded "/").
Proof.
  intros Hl. induction Hl as [|e d es ds He Hl IH]; [done|]. destruct Hl as [|e' d' es ds He' Hl]; [done|].
  rewrite !Join_cons by done. apply unescape_app; [done|]. by apply (unescape_app "/" _ "/").
Qed.
Lemma EscapedPath_valid u : validEncoded inPath (EscapedPath u) = true.
Proof.
  unfold EscapedPath, fits. destruct (negb _ && _ && _) eqn:E; [by apply andb_true_iff in E as [[_ ?]%andb_true_iff _]|].
  destruct (String.eqb _ "*"); [done|]. unfold validEncoded, str_forall. apply forallb_forall. intros a Ha%list_elem_of_In.
  revert a Ha. apply Forall_forall. apply (escape_chars inPath (λ a, one_of "!$&'()*+,;=:@[]%" a || negb (shouldEscape inPath a))).
  intros a. by destruct a as [[] [] [] [] [] [] [] []].
Qed.
Lemma validEncoded_infix p s t : infix t s → validEncoded p s = true → validEncoded p t = true.
Proof. intros (x & y & ->). rewrite !validEncoded_app, !andb_true_iff. tauto. Qed.
Lemma segment_valid s : validEncoded inPath (PathEscape s) = true.
Proof.
  unfold validEncoded, str_forall. apply forallb_forall. intros a Ha%list_elem_of_In. pose proof (PathEscape_chars s) as Hc.
  rewrite Forall_forall in Hc. specialize (Hc a Ha). revert Hc. by destruct a as [[] [] [] [] [] [] [] []].
Qed.
Lemma infix_bare_path p : infix (bare_path p) p.
Proof.
  transitivity (TrimSpace p); [|apply infix_trim]. unfold bare_path, TrimRight.
  destruct (trim_right_prefix (cutset "/") (TrimSpace p)) as [w E]. exists "", w. by rewrite string_app_nil_l.
Qed.
Lemma QueryUnescape_Escape s : QueryUnescape (QueryEscape s) = Some s.
Proof.
  assert (∀ a t, QueryUnescape (escape_char inQuery a +:+ t) = String a <$> QueryUnescape t) as Ha
    by (intros a t; by destruct a as [[] [] [] [] [] [] [] []]).
  unfold QueryEscape. induction s as [|a s IH]; [done|]. cbn [escape]. by rewrite Ha, IH.
Qed.
#[export] Instance QueryEscape_inj : Inj (=) (=) QueryEscape.
Proof. intros s t E. pose proof (QueryUnescape_Escape s) as H. rewrite E, QueryUnescape_Escape in H. by injection H. Qed.
Lemma slashed_rooted e x l : (is_empty e || HasPrefix e "/" = true) → slashed (e :: x :: l) = e +:+ "/" +:+ Join (x :: l) "/".
Proof.
  intros He. unfold slashed. cbv zeta. rewrite Join_cons by done.
  destruct e as [|a e]; [done|]. cbn [is_empty orb] in He. by rewrite HasPrefix_slash_app, He.
Qed.
Lemma HasPrefix_first a s p : HasPrefix (String a s) (String a p) = HasPrefix s p.
Proof. unfold HasPrefix. cbn [strip_prefix]. by rewrite Ascii.eqb_refl. Qed.
Lemma HasPrefix_one c s t : s ≠ "" → HasPrefix (s +:+ t) (String c "") = HasPrefix s (String c "").
Proof. destruct s as [|a s]; [done|]. intros _. unfold HasPrefix. apply bool_decide_ext. rewrite string_app_cons. cbn. destruct (Ascii.eqb c a); [split; intros _; by eexists|done]. Qed.
Lemma rooted_twice p y l :
  (is_empty p || HasPrefix p "/" = true) → (HasPrefix (p +:+ "/") "//" || HasPrefix (p +:+ "/") "/\" = false) →
  y ≠ "" → (HasPrefix y "/" || HasPrefix y "\" = false) →
  HasPrefix (p +:+ "/" +:+ Join (y :: l) "/") "//" || HasPrefix (p +:+ "/" +:+ Join (y :: l) "/") "/\" = false.
Proof.
  intros Hroot Hp Hy Hf. destruct p as [|a p].
  - rewrite string_app_nil_l, string_app_cons, string_app_nil_l, !HasPrefix_first. destruct l as [|z l]; [done|].
    rewrite Join_cons by done. by rewrite !HasPrefix_one.
  - cbn [is_empty orb] in Hroot. rewrite HasPrefix_slash in Hroot. apply Ascii.eqb_eq in Hroot as <-. rewrite !(string_app_cons _ p), !HasPrefix_first in Hp.
    rewrite !(string_app_cons _ p), !HasPrefix_first. rewrite (assoc_L String.append p), !(HasPrefix_one _ (p +:+ "/")); [done|..]; by intros [_ ?]%string_app_eq_nil.
Qed.
(** The path of an address as it is written. *)
Lemma written_path base parts escaped x y :
  settled base = true → Forall2 (λ e d, unescape encodePath e = Some d) (x :: escaped) (y :: parts) → Forall (λ s, validEncoded inPath s = true) (x :: escaped) →
  y ≠ "" → HasPrefix y "/" || HasPrefix y "\" = false →
  (HasPrefix (slashed (bare_path (fu_Path base) :: y :: parts)) "//" || HasPrefix (slashed (bare_path (fu_Path base) :: y :: parts)) "/\" = false) ∧
  ∀ query, EscapedPath (replace_path base (slashed (bare_path (fu_Path base) :: y :: parts)) (slashed (bare_path (EscapedPath base) :: x :: escaped)) query)
    = bare_path (EscapedPath base) +:+ "/" +:+ Join (x :: escaped) "/".
Proof.
  unfold settled. set (e := bare_path (EscapedPath base)). set (p := bare_path (fu_Path base)). cbv zeta.
  intros [[He%bool_decide_eq_true Hroot]%andb_true_iff Hp%negb_true_iff]%andb_true_iff Hl Hv Hy Hy1.
  assert (is_empty p || HasPrefix p "/" = true) as Hrootp.
  { destruct e as [|a e'] eqn:E; [by injection He as <-|]. cbn [is_empty orb] in Hroot. rewrite HasPrefix_slash in Hroot.
    apply Ascii.eqb_eq in Hroot as <-. cbn in He. destruct (unescape encodePath e'); [|done]. by injection He as <-. }
  rewrite slashed_rooted by done. split; [by apply rooted_twice|].
  intros query. unfold EscapedPath at 1, fits. cbn [replace_path fu_Path fu_RawPath]. rewrite slashed_rooted by done.
  assert (validEncoded inPath (e +:+ "/" +:+ Join (x :: escaped) "/") = true) as ->.
  { rewrite !validEncoded_app, validEncoded_Join by done. rewrite (validEncoded_infix _ (EscapedPath base)); [done|apply infix_bare_path|apply EscapedPath_valid]. }
  rewrite bool_decide_eq_true_2; [|by apply unescape_app, (unescape_app "/" _ "/"), unescape_Join].
  assert (is_empty (e +:+ "/" +:+ Join (x :: escaped) "/") = false) as ->; [|done].
  apply is_empty_false. by intros [_ ?]%string_app_eq_nil.
Qed.
Lemma address_text base path raw query written :
  fu_Host base ≠ "" → fu_Opaque base = "" → query ≠ "" →
  (is_empty (bare_path (EscapedPath base)) || HasPrefix (bare_path (EscapedPath base)) "/" = true) →
  EscapedPath (replace_path base path raw query) = bare_path (EscapedPath base) +:+ "/" +:+ written →
  url_String (replace_path base path raw query) = address_front base +:+ "/" +:+ written +:+ "?" +:+ query.
Proof.
  intros Hh Ho Hq Hroot Hw. unfold url_String. rewrite Hw. unfold url_end, has_user, address_front. cbn [replace_path fu_Scheme fu_Opaque fu_Host fu_User fu_OmitHost fu_Path fu_ForceQuery fu_RawQuery fu_Fragment].
  rewrite Ho, (proj2 (is_empty_false _) Hh), (proj2 (is_empty_false _) Hq). cbn [is_empty negb orb andb]. rewrite !orb_true_r, !andb_false_r. cbn [orb andb negb].
  set (e := bare_path (EscapedPath base)) in *.
  assert (HasPrefix (e +:+ "/" +:+ written) "/" = true) as ->.
  { destruct e as [|a e']; [done|]. cbn [is_empty orb] in Hroot. by rewrite HasPrefix_slash_app. }
  rewrite andb_false_r. cbn [andb]. by rewrite !string_app_nil_l, !string_app_nil_r, !(assoc_L String.append).
Qed.
Lemma endpoint_address_exact cred base bucket key method name :
  full_Parse (with_scheme (TrimSpace (c_Endpoint cred))) = Some base → TrimSpace (fu_Host base) ≠ "" → settled base = true →
  endpointObjectURL cred bucket key method name = Some (named_address base (TrimSpace bucket) (Trim (TrimSpace key) "/") method name).
Proof.
  intros Hparse Hhost Hs. unfold endpointObjectURL.
  assert (is_empty (TrimSpace (c_Endpoint cred)) = false) as ->.
  { destruct (is_empty _) eqn:E; [|done]. apply is_empty_spec in E. rewrite E in Hparse. revert Hparse Hhost. vm_compute. by intros [= <-]. }
  rewrite Hparse. cbn [mbind option_bind]. rewrite (proj2 (is_empty_false _) Hhost).
  assert (fu_Host base ≠ "") as Hh by (intros E; by rewrite E in Hhost).
  pose proof (full_Parse_opaque _ _ Hparse Hh) as Ho.
  assert (is_empty (bare_path (EscapedPath base)) || HasPrefix (bare_path (EscapedPath base)) "/" = true) as Hroot
    by (unfold settled in Hs; cbv zeta in Hs; by apply andb_true_iff in Hs as [[_ ?]%andb_true_iff _]).
  unfold object_address, named_address, set_path. cbv zeta. destruct (String.eqb _ "PUT").
  - destruct (written_path base ["storage"; "v1"; "b"; TrimSpace bucket; "o"] ["storage"; "v1"; "b"; PathEscape (TrimSpace bucket); "o"] "upload" "upload")
      as [Hok Hw]; [done|repeat constructor; by apply unescape_escape|repeat constructor; apply segment_valid|done|done|].
    rewrite Hok. cbn [fmap option_fmap option_map]. f_equal.
    rewrite (proj1 (two_values "name" _ "uploadType" _ eq_refl)).
    erewrite address_text; [|done..|apply Hw]. cbn [Join]. by rewrite <- !(assoc_L String.append).
  - destruct (written_path base ["v1"; "b"; TrimSpace bucket; "o"; Trim (TrimSpace key) "/"] ["v1"; "b"; PathEscape (TrimSpace bucket); "o"; PathEscape (Trim (TrimSpace key) "/")] "storage" "storage")
      as [Hok Hw]; [done|repeat constructor; by apply unescape_escape|repeat constructor; apply segment_valid|done|done|].
    rewrite Hok. cbn [fmap option_fmap option_map]. f_equal. erewrite address_text; [|done..| |done|apply Hw]; [by cbn [Join]; rewrite <- !(assoc_L String.append)|].
    by rewrite media_query_text.
Qed.
Lemma avoids_char (f : Ascii.ascii → bool) c s : Forall (λ a, f a = true) (chars s) → f c = false → c ∉ chars s.
Proof. intros Hs Hc Hin. rewrite Forall_forall in Hs. specialize (Hs _ Hin). simpl in Hs. by rewrite Hs in Hc. Qed.
Lemma split_first c s1 s2 t1 t2 : c ∉ chars s1 → c ∉ chars t1 → s1 +:+ String c s2 = t1 +:+ String c t2 → s1 = t1 ∧ s2 = t2.
Proof.
  intros Hs Ht E. pose proof (Cut_app s1 c "" s2 Hs) as H1. pose proof (Cut_app t1 c "" t2 Ht) as H2.
  change (String c "" +:+ ?x) with (String c x) in H1, H2. rewrite E, H2 in H1. by injection H1.
Qed.
Definition example_base : FullURL := mkFullURL "http" "" None "localhost:4443" false "/api/" "" false "" "" "".
