(* ===== verification/ObjectStores.v ===== *)
(** * Backends that assemble uploads from part objects: internal/storage/gcs, internal/storage/file, multipart.go
    A part of an upload is an object of its own below .syfon-multipart.  Completing the upload joins the parts, on GCS with
    compose requests of at most 32 sources and in rounds, in a directory by copying, and deletes them.  The client library
    of GCS, gocloud.dev/blob and the file system are classes of operations on a state. *)
From S2P Require Import Prelude GoStrings GoURL Errors Resources Policy Objects ContentReads Address Buckets Targets StorageManager GCSSigning.
#[local] Set Warnings "-automation".

(** ** internal/storage/multipart.go *)
Definition part_before (a b : CompletedPart) : bool := (cp_PartNumber a <? cp_PartNumber b)%Z.
Definition NormalizedMultipartParts (parts : list CompletedPart) : list CompletedPart := sort_Slice part_before parts.
Definition MultipartPartObjectKey (key uploadID : string) (partNumber : Z) : string :=
  path_Join [".syfon-multipart"; TrimSpace uploadID; Trim (TrimSpace key) "/"; "parts"; pretty partNumber].
(** The keys of the parts of a request, in the order of their numbers. *)
Definition part_keys (request : CompleteMultipartRequest) : list string :=
  (λ part, MultipartPartObjectKey (ot_Key (cmr_Target request)) (cmr_UploadID request) (cp_PartNumber part))
    <$> NormalizedMultipartParts (cmr_Parts request).

Fixpoint in_turn {S A} (f : A → service S unit) (l : list A) : service S unit :=
  match l with [] => mret tt | a :: l => _ ← f a; in_turn f l end.
Abbreviation content := (list Ascii.ascii).

(** ** GCS *)
(** The client library: a client for given credentials, or for those of the environment; requests; the two tests by which
    an error means that there is no object. *)
Class GCSLibrary (S C : Type) := {
  json_Valid : string → bool;
  gcs_NewClient : option string → S → result error C;
  gcs_Compose : C → string → string → list string → service S unit;
  gcs_Delete : C → string → string → service S unit;
  gcs_ObjectNotExist : error → bool;
  gcs_ErrorCode : error → option Z;
  gcs_NewString : S → S * string }.

Section gcs.
Context {S C : Type} `{!GCSLibrary S C} `{!GCSSigner S} `{!CredentialLookup S}.
(** The clients by bucket, beside the outside. *)
Record gcs_backend := mkGCS { gb_cache : gmap string C; gb_outside : S }.
Local Abbreviation M A := (service gcs_backend A).
Definition outside_gcs {A} (m : service S A) : M A := λ b, let '(s, r) := m (gb_outside b) in (mkGCS (gb_cache b) s, r).

Definition gcs_expiry (options : AccessOptions) : Z :=
  if (0 <? ao_ExpiresIn options)%Z then ao_ExpiresIn options else (15 * 60 * 10 ^ 9)%Z.
Definition gcs_InvalidateBucket (bucket : string) (b : gcs_backend) : gcs_backend :=
  let bucket := TrimSpace bucket in
  if is_empty bucket then b else mkGCS (delete bucket (gb_cache b)) (gb_outside b).
Definition credential (bucket : string) : M Credential :=
  found ← outside_gcs (ask (lookup_GetS3Credential bucket));
  match found with Some cred => mret cred | None => fail (EText "credentials not found for bucket %s") end.
Definition gcs_SignURL (target : ObjectTarget) (options : AccessOptions) : M string :=
  cred ← credential (ot_Bucket target);
  let method := if is_empty (ao_Method options) then "GET" else ao_Method options in
  outside_gcs (ask (gcs_signedURL (ot_Bucket target) (ot_Key target) method (gcs_expiry options) "" (ao_DownloadFilename options) cred)).
Definition gcs_SignDownloadPart (target : ObjectTarget) (range : ByteRange) (options : AccessOptions) : M string :=
  cred ← credential (ot_Bucket target);
  let rangeValue := "bytes=" +:+ pretty (br_Start range) +:+ "-" +:+ pretty (br_End range) in
  outside_gcs (ask (gcs_signedURL (ot_Bucket target) (ot_Key target) "GET" (gcs_expiry options) rangeValue (ao_DownloadFilename options) cred)).
Definition gcs_InitMultipartUpload (target : ObjectTarget) : M string :=
  outside_gcs (λ s, let '(s, id) := gcs_NewString s in (s, Ok id)).
Definition gcs_SignMultipartPart (request : MultipartPartRequest) : M string :=
  cred ← credential (ot_Bucket (mpr_Target request));
  let partKey := MultipartPartObjectKey (ot_Key (mpr_Target request)) (mpr_UploadID request) (mpr_PartNumber request) in
  outside_gcs (ask (gcs_signedURL (ot_Bucket (mpr_Target request)) partKey "PUT" (15 * 60 * 10 ^ 9)%Z "" "" cred)).

Definition newClient (cred : Credential) (s : S) : result error C :=
  let secret := TrimSpace (c_SecretKey cred) in
  gcs_NewClient (if negb (is_empty secret) && json_Valid secret then Some secret else None) s.
Definition keep_client (bucket : string) (client : C) : M unit := λ b, (mkGCS (<[bucket := client]> (gb_cache b)) (gb_outside b), Ok tt).
Definition make_client (bucket : string) : M C :=
  cred ← credential bucket;
  client ← failing "failed to create GCS client: %w" (outside_gcs (ask (newClient cred)));
  _ ← keep_client bucket client;
  mret client.
Definition getClient (bucket : string) : M C := λ b,
  match gb_cache b !! bucket with Some client => (b, Ok client) | None => make_client bucket b end.
Definition composeBatch (client : C) (bucket destination : string) (sources : list string) : M unit :=
  failing "failed gcs compose for %s: %w" (outside_gcs (gcs_Compose client bucket destination sources)).
(** The name of the [i]-th intermediate object of a round. *)
Definition compose_key (uploadID destinationKey : string) (round i : nat) : string :=
  path_Join [".syfon-multipart"; TrimSpace uploadID; Trim (TrimSpace destinationKey) "/"; "compose"; pretty round +:+ "-" +:+ pretty i].
Fixpoint compose_round (client : C) (bucket uploadID destinationKey : string) (round i : nat) (batches : list (list string)) : M (list string) :=
  match batches with
  | [] => mret []
  | batch :: batches =>
      let temporary := compose_key uploadID destinationKey round i in
      _ ← composeBatch client bucket temporary batch;
      next ← compose_round client bucket uploadID destinationKey round (Datatypes.S i) batches;
      mret (temporary :: next)
  end.
(** Rounds until at most 32 objects are left; these, and the intermediate objects made. *)
Fixpoint compose_rounds (client : C) (bucket uploadID destinationKey : string) (fuel round : nat) (current tempKeys : list string)
    : M (list string * list string) :=
  match fuel with
  | 0 => mret (current, tempKeys)
  | Datatypes.S fuel =>
      if length current <=? 32 then mret (current, tempKeys)
      else
        next ← compose_round client bucket uploadID destinationKey round 0 (chunks_of (length current) 32 current);
        compose_rounds client bucket uploadID destinationKey fuel (Datatypes.S round) next (tempKeys ++ next)
  end.
Definition composeObjects (client : C) (bucket destinationKey uploadID : string) (partKeys : list string) : M (list string) :=
  match partKeys with
  | [] => fail (EText "multipart complete requires at least one part")
  | _ =>
      '(current, tempKeys) ← compose_rounds client bucket uploadID destinationKey (length partKeys) 0 partKeys [];
      _ ← composeBatch client bucket destinationKey current;
      mret tempKeys
  end.
Definition gcs_CompleteMultipartUpload (request : CompleteMultipartRequest) : M unit :=
  let bucket := ot_Bucket (cmr_Target request) in
  client ← getClient bucket;
  let partKeys := part_keys request in
  tempKeys ← composeObjects client bucket (Trim (TrimSpace (ot_Key (cmr_Target request))) "/") (cmr_UploadID request) partKeys;
  in_turn (λ key, failing "delete multipart component %s: %w" (outside_gcs (gcs_Delete client bucket key))) (partKeys ++ tempKeys).

Definition gcs_isNotFound (e : error) : bool := gcs_ObjectNotExist e || bool_decide (gcs_ErrorCode e = Some 404%Z).
Definition gcs_delete_target (target : PhysicalTarget) : M unit :=
  found ← failing "lookup gcs credential for bucket %s: %w" (outside_gcs (ask (lookup_GetS3Credential (ph_Bucket target))));
  match found with
  | None => fail (EText "credentials not found for bucket %s")
  | Some cred =>
      client ← failing "create gcs client: %w" (outside_gcs (ask (newClient cred)));
      answer ← attempt (outside_gcs (gcs_Delete client (ph_Bucket target) (ph_Key target)));
      match answer with Ok _ => mret tt | Err e => if gcs_isNotFound e then mret tt else fail e end
  end.
Definition gcs_DeleteTargets (targets : list PhysicalTarget) : M unit := in_turn gcs_delete_target targets.
(** What the manager sees of the backend: neither probes nor an inventory. *)
Definition gcs_New : Registration gcs_backend :=
  mkRegistration GCSProvider
    (Some (mkCompleteBackend gcs_backend gcs_SignURL gcs_SignDownloadPart gcs_InitMultipartUpload gcs_SignMultipartPart gcs_CompleteMultipartUpload))
    (Some gcs_InvalidateBucket) None None (Some gcs_DeleteTargets).
End gcs.
Arguments gcs_backend : clear implicits.

(** ** A directory *)
(** A reader delivers its content and then the error that ends it, if any, and may fail to close. *)
Record blob_reader := mkBlobReader { bl_content : content; bl_error : option error; bl_close : option error }.
(** gocloud.dev/blob over a directory, and os.Remove.  What is written to a writer becomes the object when it is closed. *)
Class FileBucket (S : Type) := {
  blob_NewWriter : string → service S unit;
  blob_Close : string → content → service S unit;
  blob_NewReader : string → S → result error blob_reader;
  blob_Delete : string → service S unit;
  blob_SignedURL : string → S → result error string;
  os_Remove : string → service S unit;
  os_IsNotExist : error → bool;
  file_NewString : S → S * string }.

Section file.
Context {S : Type} `{!FileBucket S} (rootPath : string).
Definition pathForKey (key : string) : string := path_Join [rootPath; key].
Definition file_SignURL (target : ObjectTarget) (_ : AccessOptions) : service S string := mret (path_Join [rootPath; ot_Key target]).
Definition file_SignDownloadPart (target : ObjectTarget) (_ : ByteRange) (options : AccessOptions) : service S string :=
  file_SignURL target options.
Definition file_InitMultipartUpload (_ : ObjectTarget) : service S string := λ s, let '(s, id) := file_NewString s in (s, Ok id).
Definition file_SignMultipartPart (request : MultipartPartRequest) : service S string :=
  let partKey := MultipartPartObjectKey (ot_Key (mpr_Target request)) (mpr_UploadID request) (mpr_PartNumber request) in
  signed ← attempt (ask (blob_SignedURL partKey));
  mret (match signed with Ok url => url | Err _ => pathForKey partKey end).

(** A part at the end of what is written so far; an error comes with what is written by then. *)
Definition copy_part (written : content) (partKey : string) (s : S) : content * option error :=
  match blob_NewReader partKey s with
  | Err e => (written, Some (EWrap "failed to open multipart part %d: %w" e))
  | Ok reader =>
      (written ++ bl_content reader,
       match bl_error reader, bl_close reader with
       | Some e, _ => Some (EWrap "failed to copy multipart part %d: %w" e)
       | None, Some e => Some (EWrap "failed to close multipart part %d reader: %w" e)
       | None, None => None
       end)
  end.
Fixpoint copy_parts (written : content) (partKeys : list string) (s : S) : content * option error :=
  match partKeys with
  | [] => (written, None)
  | key :: partKeys =>
      match copy_part written key s with
      | (written, Some e) => (written, Some e)
      | (written, None) => copy_parts written partKeys s
      end
  end.
(** On the way out the writer is closed whatever happened; an error of that is lost. *)
Definition join_parts (destinationKey : string) (partKeys : list string) : service S unit := λ s,
  match copy_parts [] partKeys s with
  | (written, Some e) => ((blob_Close destinationKey written s).1, Err e)
  | (written, None) =>
      (_ ← failing "failed to finalize multipart object: %w" (blob_Close destinationKey written);
       in_turn (λ key, failing "failed to delete multipart part %s: %w" (blob_Delete key)) partKeys) s
  end.
Definition file_CompleteMultipartUpload (request : CompleteMultipartRequest) : service S unit :=
  if bool_decide (cmr_Parts request = []) then fail (EText "multipart complete requires at least one part")
  else
    let destinationKey := Trim (TrimSpace (ot_Key (cmr_Target request))) "/" in
    _ ← failing "failed to open destination writer: %w" (blob_NewWriter destinationKey);
    join_parts destinationKey (part_keys request).
Definition file_delete_target (target : PhysicalTarget) : service S unit :=
  if is_empty (TrimSpace (ph_Path target)) then mret tt
  else
    removed ← attempt (os_Remove (ph_Path target));
    match removed with
    | Ok _ => mret tt
    | Err e => if os_IsNotExist e then mret tt else fail (EWrap "delete file %s: %w" e)
    end.
Definition file_DeleteTargets (targets : list PhysicalTarget) : service S unit := in_turn file_delete_target targets.
Definition file_New : Registration S :=
  mkRegistration FileProvider
    (Some (mkCompleteBackend S file_SignURL file_SignDownloadPart file_InitMultipartUpload file_SignMultipartPart file_CompleteMultipartUpload))
    None None None (Some file_DeleteTargets).
End file.
