(* ===== verification/ObjectStoreProperties.v ===== *)
(** * What the backends that assemble uploads promise
    A completed upload leaves exactly one object, the parts joined in the order of their numbers, and nothing else changes. *)
From S2P Require Import Prelude GoStrings GoURL Errors Resources Policy Objects ContentReads Address Buckets Targets StorageManager Paths ContentQueries ObjectStores.
#[local] Set Warnings "-automation".

(** ** The keys of parts and of intermediate objects *)
Definition number_chars : list Ascii.ascii := chars "-0123456789".
Lemma pretty_N_go_chars x s : (∀ c, c ∈ chars s → c ∈ chars "0123456789") → ∀ c, c ∈ chars (pretty_N_go x s) → c ∈ chars "0123456789".
Proof.
  revert s. induction (N.lt_wf_0 x) as [x _ IH]; intros s Hs c. destruct (decide (x = 0)%N) as [->|Hx]; [by rewrite pretty_N_go_0; apply Hs|].
  rewrite pretty_N_go_step by lia. apply IH; [apply N.div_lt; lia|]. intros d. cbn [chars String.list_ascii_of_string].
  intros [->|Hd]%elem_of_cons; [|by apply Hs]. unfold pretty_N_char. apply (bool_decide_unpack _).
  pose proof (N.mod_lt x 10). destruct (x `mod` 10)%N as [|p]; [done|]. do 4 (destruct p as [p|p|]; try done).
Qed.
Lemma pretty_N_chars (x : N) c : c ∈ chars (pretty x) → c ∈ chars "0123456789".
Proof.
  unfold pretty, pretty_N. destruct (decide (x = 0)%N); [intros H; cbn in H; set_solver|]. apply pretty_N_go_chars. intros d Hd. by apply elem_of_nil in Hd.
Qed.
Lemma pretty_N_nonempty (x : N) : pretty x ≠ "".
Proof.
  unfold pretty, pretty_N. destruct (decide (x = 0)%N); [done|]. rewrite pretty_N_go_step by lia.
  assert (∀ y s, s ≠ "" → pretty_N_go y s ≠ "") as Hgo; [|by apply Hgo].
  intros y. induction (N.lt_wf_0 y) as [y _ IH]. intros s Hs. destruct (decide (y = 0)%N) as [->|Hy]; [by rewrite pretty_N_go_0|].
  rewrite pretty_N_go_step by lia. apply IH; [apply N.div_lt; lia|done].
Qed.
Lemma pretty_Z_chars (z : Z) c : c ∈ chars (pretty z) → c ∈ number_chars.
Proof.
  assert (∀ p : positive, c ∈ chars (pretty p) → c ∈ chars "0123456789") as Hp by (intros p; apply (pretty_N_chars (N.pos p))).
  destruct z as [|p|p]; cbn.
  - intros Hc. unfold number_chars. set_solver.
  - intros Hc%Hp. unfold number_chars. cbn in *. set_solver.
  - intros Hc. unfold number_chars. apply elem_of_cons in Hc as [->|Hc]; [cbn; set_solver|]. apply Hp in Hc. cbn in *. set_solver.
Qed.
Lemma pretty_Z_nonempty (z : Z) : pretty z ≠ "".
Proof. destruct z as [|p|p]; [done|apply (pretty_N_nonempty (N.pos p))|done]. Qed.
(** Text of digits and dashes is a path of one segment. *)
Lemma number_path_ok s : s ≠ "" → (∀ c, c ∈ chars s → c ∈ number_chars) → path_ok s.
Proof.
  intros Hs Hc.
  assert (slash ∉ number_chars ∧ Ascii.ascii_of_nat 46 ∉ number_chars) as [Hslash Hdot] by (by apply (bool_decide_unpack _); vm_compute).
  assert (Forall (λ w, w ≠ "" ∧ Forall (λ c, c ∉ number_chars) (chars w)) unicode_spaces) as Hspaces by (by apply (bool_decide_unpack _); vm_compute).
  assert (∀ t, s = t → Ascii.ascii_of_nat 46 ∉ chars t) as Hno by (intros t <- Hin; by apply Hdot, Hc).
  unfold path_ok. rewrite Split_single by (intros ?%Hc; done). apply Forall_singleton. split_and!; [done| | |].
  - intros E. apply (Hno _ E). by left.
  - intros E. apply (Hno _ E). by left.
  - apply trim_avoid_chars. eapply Forall_impl; [exact Hspaces|]. intros w [Hne Hw]. split; [done|].
    intros c Hcw Hcs. rewrite Forall_forall in Hw. by apply (Hw c Hcw), Hc.
Qed.
Lemma path_Join_all x y l : Forall path_ok (x :: y :: l) → path_Join (x :: y :: l) = Join (x :: y :: l) "/".
Proof.
  intros Hl. pose proof (Forall_cons_1 _ _ _ Hl) as [Hx Hr].
  assert (path_ok (Join (y :: l) "/")) as Hj by by apply path_ok_Join.
  rewrite Join_cons by done. rewrite <- (path_Join_ok x (Join (y :: l) "/") Hx Hj). unfold path_Join.
  rewrite filter_all_True by (rewrite Forall_forall in Hl; intros z Hz; by apply path_ok_nonempty, Hl).
  rewrite !filter_cons_True, filter_nil by by apply path_ok_nonempty. done.
Qed.
Definition upload_base (uploadID destinationKey : string) : string := ".syfon-multipart/" +:+ uploadID +:+ "/" +:+ destinationKey +:+ "/".
Section keys.
Context (uploadID destinationKey : string) (Hu : path_ok uploadID) (Hd : path_ok destinationKey).
Lemma upload_join folder name :
  path_ok folder → path_ok name →
  path_Join [".syfon-multipart"; TrimSpace uploadID; destinationKey; folder; name] = upload_base uploadID destinationKey +:+ folder +:+ "/" +:+ name.
Proof.
  intros Hf Hn. assert (TrimSpace uploadID = uploadID) as -> by (apply trim_id; apply (path_ok_ends _ Hu)).
  rewrite path_Join_all; [|repeat constructor; try done; by apply (bool_decide_unpack _); vm_compute].
  rewrite !Join_cons by done. cbn [Join]. unfold upload_base. by rewrite !(assoc_L String.append).
Qed.
Lemma part_key_eq key n :
  Trim (TrimSpace key) "/" = destinationKey → MultipartPartObjectKey key uploadID n = upload_base uploadID destinationKey +:+ "parts/" +:+ pretty n.
Proof.
  intros E. unfold MultipartPartObjectKey. rewrite E, upload_join; [done|by apply (bool_decide_unpack _); vm_compute|].
  apply number_path_ok; [apply pretty_Z_nonempty|apply pretty_Z_chars].
Qed.
Lemma compose_key_eq round i :
  compose_key uploadID destinationKey round i = upload_base uploadID destinationKey +:+ "compose/" +:+ pretty round +:+ "-" +:+ pretty i.
Proof.
  unfold compose_key. rewrite (path_ok_trim _ Hd), upload_join; [done|by apply (bool_decide_unpack _); vm_compute|].
  apply number_path_ok.
  - intros [E _]%string_app_eq_nil. by apply (pretty_N_nonempty (N.of_nat round)).
  - assert (∀ n : nat, ∀ c, c ∈ chars (pretty n) → c ∈ number_chars) as Hn.
    { intros n c Hc%(pretty_N_chars (N.of_nat n)). unfold number_chars. cbn in *. set_solver. }
    intros c. rewrite !chars_app, !elem_of_app. intros [?|[Hc|?]]; [by apply (Hn round)| |by apply (Hn i)].
    unfold number_chars. cbn in *. set_solver.
Qed.
Lemma compose_key_inj r i r' i' : compose_key uploadID destinationKey r i = compose_key uploadID destinationKey r' i' → r = r' ∧ i = i'.
Proof.
  rewrite !compose_key_eq. intros [E1 E2]%string_app_inv_l%string_app_inv_l%(split_once_string _ _ _ _ (Ascii.ascii_of_nat 45)).
  - split; by apply (inj pretty).
  - intros Hc%(pretty_N_chars (N.of_nat r')). revert Hc. apply (bool_decide_unpack _). by vm_compute.
  - intros Hc%(pretty_N_chars (N.of_nat i')). revert Hc. apply (bool_decide_unpack _). by vm_compute.
Qed.
Lemma compose_not_part key n r i : Trim (TrimSpace key) "/" = destinationKey → compose_key uploadID destinationKey r i ≠ MultipartPartObjectKey key uploadID n.
Proof. intros E. rewrite compose_key_eq, (part_key_eq key) by done. by intros ?%string_app_inv_l. Qed.
Lemma base_longer rest : destinationKey ≠ upload_base uploadID destinationKey +:+ rest.
Proof. intros E%(f_equal String.length). unfold upload_base in E. rewrite !string_length_app in E. simpl in E. lia. Qed.
End keys.

(** ** What is promised *)
(** The parts are joined under the destination; they and the intermediate objects are gone; nothing else changes. *)
Definition assembled {K} `{Countable K} (place : string → K) (before after : gmap K content) (destination : string) (parts temporaries : list string) : Prop :=
  ∃ contents, mapM (λ key, before !! place key) parts = Some contents ∧
    ∀ k, after !! k = if decide (k = place destination) then Some (concat contents)
                      else if decide (k ∈ place <$> parts ++ temporaries) then None else before !! k.
(** The keys of the parts, in the order of the numbers of the parts. *)
Definition in_part_order (request : CompleteMultipartRequest) (keys : list string) : Prop :=
  ∃ parts, parts ≡ₚ cmr_Parts request ∧ StronglySorted (λ a b, (cp_PartNumber a <= cp_PartNumber b)%Z) parts ∧
    keys = (λ part, MultipartPartObjectKey (ot_Key (cmr_Target request)) (cmr_UploadID request) (cp_PartNumber part)) <$> parts.
Lemma NormalizedMultipartParts_sorted parts : StronglySorted (λ a b, (cp_PartNumber a <= cp_PartNumber b)%Z) (NormalizedMultipartParts parts).
Proof.
  unfold NormalizedMultipartParts, sort_Slice.
  assert (∀ a b, not_after part_before a b ↔ (cp_PartNumber a <= cp_PartNumber b)%Z) as Hle.
  { intros a b. unfold not_after, part_before. rewrite Z.ltb_ge. done. }
  assert (StronglySorted (not_after part_before) (merge_sort (not_after part_before) parts)) as Hs.
  { apply StronglySorted_merge_sort.
    - intros a b c. rewrite !Hle. lia.
    - intros a b. rewrite !Hle. lia. }
  induction Hs as [|a l _ IH Ha]; constructor; [done|]. eapply Forall_impl; [exact Ha|]. by intros b ?%Hle.
Qed.
Lemma part_keys_in_order request : in_part_order request (part_keys request).
Proof. eexists. split_and!; [apply sort_Slice_Permutation|apply NormalizedMultipartParts_sorted|done]. Qed.
Lemma not_in_places {K} (place : string → K) `{!Inj (=) (=) place} d (l : list string) : d ∉ l → place d ∉ place <$> l.
Proof. intros Hd (x & ->%(inj place) & Hx)%list_elem_of_fmap. done. Qed.

Lemma Forall2_impl_members {A B} (P Q : A → B → Prop) l k : (∀ x y, x ∈ l → P x y → Q x y) → Forall2 P l k → Forall2 Q l k.
Proof. intros HPQ Hl. induction Hl as [|x y l k Hx _ IH]; constructor; [apply HPQ; [by left|done]|]. apply IH. intros. apply HPQ; [by right|done]. Qed.

(** ** Deleting one after the other *)
Section in_turn.
Context {S K : Type} `{Countable K} (view : S → gmap K content) (place : string → K).
Lemma deletions_in_turn (del : string → service S unit) keys s s' :
  (∀ key s s', del key s = (s', Ok tt) → view s' = delete (place key) (view s)) →
  in_turn del keys s = (s', Ok tt) →
  ∀ k, view s' !! k = if decide (k ∈ place <$> keys) then None else view s !! k.
Proof.
  intros Hdel. revert s. induction keys as [|key keys IH]; intros s; cbn [in_turn].
  { intros [= <-] k. by rewrite decide_False by (by apply not_elem_of_nil). }
  rewrite fmap_cons. intros (s1 & [] & Hd%Hdel & Hrest)%service_bind_Ok k. rewrite (IH _ Hrest), Hd.
  destruct (decide (k ∈ place <$> keys)) as [Hin|Hin]; [by rewrite decide_True by (by right)|].
  destruct (decide (k = place key)) as [->|Hne]; [rewrite decide_True by (by left); by rewrite lookup_delete_eq|].
  rewrite decide_False by (by intros [?|?]%elem_of_cons). by rewrite lookup_delete_ne.
Qed.
End in_turn.
Lemma failing_Ok {S A} format (m : service S A) s s' a : failing format m s = (s', Ok a) ↔ m s = (s', Ok a).
Proof. unfold failing, mbind, service_bind, attempt. destruct (m s) as [s1 [b|e]]; simpl; split; by intros [=]; subst. Qed.

(** ** GCS *)
(** What the service documents: a compose request of at most 32 sources that succeeds has joined objects that are there. *)
Class GCSLaws {S C : Type} `{!GCSLibrary S C} (view : S → gmap (string * string) content) := {
  compose_joins : ∀ client bucket d sources s s', gcs_Compose client bucket d sources s = (s', Ok tt) → length sources ≤ 32 →
    ∃ contents, mapM (λ key, view s !! (bucket, key)) sources = Some contents ∧
                                      view s' = <[(bucket, d) := concat contents]> (view s);
  delete_removes : ∀ client bucket key s s', gcs_Delete client bucket key s = (s', Ok tt) → view s' = delete (bucket, key) (view s) }.

Section gcs.
Context {S C : Type} `{!GCSLibrary S C} `{!CredentialLookup S} (view : S → gmap (string * string) content) `{!GCSLaws view}.
Implicit Types b : gcs_backend S C.
Definition objects b : gmap (string * string) content := view (gb_outside b).
Lemma outside_gcs_Ok {A} (m : service S A) b b' a :
  outside_gcs m b = (b', Ok a) ↔ ∃ s', m (gb_outside b) = (s', Ok a) ∧ b' = mkGCS (gb_cache b) s'.
Proof. unfold outside_gcs. destruct (m (gb_outside b)) as [s' r]. naive_solver. Qed.
Lemma outside_ask_Ok {A} (f : S → result error A) b b' a : outside_gcs (ask f) b = (b', Ok a) → b' = b.
Proof. intros (s' & [= <- _] & ->)%outside_gcs_Ok. by destruct b. Qed.
Lemma getClient_keeps bucket b b' client : getClient bucket b = (b', Ok client) → gb_outside b' = gb_outside b.
Proof.
  unfold getClient. destruct (gb_cache b !! bucket); [by intros [= <-]|].
  intros (b1 & cred & (b2 & found & H1%outside_ask_Ok & H2)%service_bind_Ok & Hrest)%service_bind_Ok. subst b2.
  destruct found; [|done]. injection H2 as <- _.
  apply service_bind_Ok in Hrest as (b3 & made & Hm%failing_Ok%outside_ask_Ok & Hrest). subst b3.
  by apply service_bind_Ok in Hrest as (b4 & [] & [= <-] & [= <- _]).
Qed.
Context (client : C) (bucket uploadID destinationKey : string) (Hu : path_ok uploadID) (Hd : path_ok destinationKey).
Local Abbreviation name := (compose_key uploadID destinationKey).
Local Abbreviation joined := (@concat Ascii.ascii).
Definition holding b (keys : list string) (contents : list content) : Prop := mapM (λ key, objects b !! (bucket, key)) keys = Some contents.
Lemma composeBatch_Ok d sources b b' :
  composeBatch client bucket d sources b = (b', Ok tt) → length sources ≤ 32 →
  ∃ contents, holding b sources contents ∧ objects b' = <[(bucket, d) := concat contents]> (objects b).
Proof.
  unfold composeBatch. intros (s' & Hc & ->)%failing_Ok%outside_gcs_Ok Hl. apply compose_joins in Hc as (cs & Hcs & Hv); [|done].
  by exists cs.
Qed.
Lemma holding_frame b b' keys cs :
  (∀ key, key ∈ keys → objects b' !! (bucket, key) = objects b !! (bucket, key)) → holding b keys cs ↔ holding b' keys cs.
Proof.
  intros Hk. unfold holding. assert (mapM (λ key, objects b' !! (bucket, key)) keys = mapM (λ key, objects b !! (bucket, key)) keys) as ->; [|done].
  apply Forall_mapM_ext. by apply Forall_forall.
Qed.
Lemma holding_app b keys1 keys2 cs1 cs2 : holding b keys1 cs1 → holding b keys2 cs2 → holding b (keys1 ++ keys2) (cs1 ++ cs2).
Proof. unfold holding. rewrite !mapM_Some. apply Forall2_app. Qed.
Definition round_names (round i n : nat) : list string := name round <$> seq i n.
Lemma elem_of_round_names key round i n : key ∈ round_names round i n ↔ ∃ j, key = name round j ∧ i ≤ j < i + n.
Proof. unfold round_names. rewrite list_elem_of_fmap. setoid_rewrite elem_of_seq. done. Qed.
(** A round: each intermediate object holds its batch joined. *)
Lemma compose_round_Ok round i batches b b' temps :
  compose_round client bucket uploadID destinationKey round i batches b = (b', Ok temps) →
  (∀ key j, key ∈ concat batches → key ≠ name round j) → Forall (λ batch, length batch ≤ 32) batches →
  temps = round_names round i (length batches) ∧
  (∃ css, Forall2 (holding b) batches css ∧ holding b' temps (joined <$> css)) ∧
  (∀ k, k ∉ pair bucket <$> temps → objects b' !! k = objects b !! k).
Proof.
  revert i b temps. induction batches as [|batch batches IH]; intros i b temps Hrun Hkeys Hl; simpl in Hrun.
  { injection Hrun as <- <-. split; [done|]. split; [by exists []|done]. }
  apply Forall_cons in Hl as [Hl1 Hl].
  apply service_bind_Ok in Hrun as (b1 & [] & Hb & Hrun). apply composeBatch_Ok in Hb as (cs & Hcs & Hv); [|done].
  apply service_bind_Ok in Hrun as (b2 & next & Hn & [= -> <-]).
  apply IH in Hn as (-> & (css & Hcss & Hh) & Hframe); [| |done].
  2: { intros key j Hin. apply Hkeys. cbn. apply elem_of_app. by right. }
  assert (∀ key, key ∈ batch ++ concat batches → objects b1 !! (bucket, key) = objects b !! (bucket, key)) as Hsame.
  { intros key Hin. rewrite Hv, lookup_insert_ne; [done|]. intros [= E]. by apply (Hkeys key i). }
  split; [done|]. split.
  - exists (cs :: css). split.
    + constructor; [done|]. eapply Forall2_impl_members; [|exact Hcss].
      intros keys contents Hin. apply (holding_frame b b1). intros key Hk. apply Hsame, elem_of_app. right. apply elem_of_concat. by exists keys.
    + unfold holding in *. rewrite fmap_cons. apply mapM_Some. constructor; [|by apply mapM_Some].
      rewrite Hframe, Hv; [by rewrite lookup_insert_eq|].
      intros (key & [= <-] & (j & E & Hj)%elem_of_round_names)%list_elem_of_fmap. apply (compose_key_inj _ _ Hu Hd) in E as [_ <-]. lia.
  - intros k Hk. rewrite fmap_cons, not_elem_of_cons in Hk. destruct Hk as [Hne Hk]. by rewrite Hframe, Hv, lookup_insert_ne.
Qed.
Lemma concat_concat (css : list (list content)) : concat (joined <$> css) = concat (concat css).
Proof. induction css as [|cs css IH]; [done|]. rewrite fmap_cons. cbn [concat]. by rewrite IH, concat_app. Qed.
Lemma holding_concat b batches css : Forall2 (holding b) batches css → holding b (concat batches) (concat css).
Proof. induction 1 as [|batch cs batches css H1 _ IH]; [done|]. by apply holding_app. Qed.
Lemma holding_fun b keys cs cs' : holding b keys cs → holding b keys cs' → cs = cs'.
Proof. unfold holding. congruence. Qed.
Lemma length_chunks_of {A} fuel n (l : list A) : 0 < n → length (chunks_of fuel n l) ≤ 1 + length l / n.
Proof.
  intros Hn. revert l. induction fuel as [|fuel IH]; intros l; [simpl; lia|]. destruct l as [|x l]; [simpl; lia|]. cbn [chunks_of length].
  destruct (decide (length (x :: l) ≤ n)) as [Hle|Hle].
  - rewrite drop_ge by done. destruct fuel; simpl; lia.
  - specialize (IH (drop n (x :: l))). rewrite length_drop in IH.
    assert (length (x :: l) / n = 1 + (length (x :: l) - n) / n) as E; [|cbn [length] in *; lia].
    replace (length (x :: l)) with (1 * n + (length (x :: l) - n)) at 1 by lia. by rewrite Nat.div_add_l by lia.
Qed.
(** The rounds: at most 32 objects are left, which hold together what the first ones held. *)
Lemma compose_rounds_Ok fuel round current temps b b' left temps' :
  length current ≤ fuel →
  compose_rounds client bucket uploadID destinationKey fuel round current temps b = (b', Ok (left, temps')) →
  (∀ key r i, key ∈ current → round ≤ r → key ≠ name r i) →
  length left ≤ 32 ∧ ∃ new, temps' = temps ++ new ∧ Forall (λ t, ∃ r i, t = name r i) new ∧
    (∀ k, k ∉ pair bucket <$> new → objects b' !! k = objects b !! k) ∧
    (∀ cs', holding b' left cs' → ∃ cs, holding b current cs ∧ joined cs = joined cs').
Proof.
  revert round current temps b. induction fuel as [|fuel IH]; intros round current temps b Hfuel Hrun Hkeys; cbn [compose_rounds] in Hrun.
  { injection Hrun as <- <- <-. split; [lia|]. exists []. rewrite app_nil_r. split_and!; [done|done|done|]. intros cs ?. by exists cs. }
  destruct (Nat.leb_spec (length current) 32) as [Hle|Hgt].
  { injection Hrun as <- <- <-. split; [lia|]. exists []. rewrite app_nil_r. split_and!; [done|done|done|]. intros cs ?. by exists cs. }
  apply service_bind_Ok in Hrun as (b1 & next & Hround & Hrun).
  assert (concat (chunks_of (length current) 32 current) = current) as Hconcat by (apply chunks_of_concat; lia).
  apply compose_round_Ok in Hround as (-> & (css & Hcss & Hh) & Hframe).
  2: { intros key j; rewrite Hconcat; intros; by apply Hkeys. }
  2: { apply Forall_forall. intros batch Hin. by apply elem_of_chunks_of in Hin as [? _]. }
  set (next := round_names round 0 _) in *.
  assert (length next < length current) as Hlt.
  { unfold next, round_names. rewrite length_fmap, length_seq. pose proof (length_chunks_of (length current) 32 current ltac:(lia)).
    assert (length current / 32 * 32 ≤ length current) by (rewrite Nat.mul_comm; apply Nat.Div0.mul_div_le). lia. }
  apply IH in Hrun as (Hleft & new & -> & Hnew & Hframe2 & Hsame); [|lia|].
  2: { intros key r i (j & -> & _)%elem_of_round_names Hr E. apply (compose_key_inj _ _ Hu Hd) in E as [<- _]. lia. }
  split; [done|]. exists (next ++ new). split_and!.
  - by rewrite (assoc_L (++)).
  - apply Forall_app. split; [|done]. apply Forall_forall. intros t (j & -> & _)%elem_of_round_names. by eexists _, _.
  - intros k. rewrite fmap_app, not_elem_of_app. intros [H1 H2]. by rewrite Hframe2, Hframe.
  - intros cs' (cs1 & Hcs1 & E)%Hsame. exists (concat css). split; [rewrite <- Hconcat at 1; by apply holding_concat|].
    rewrite <- E, (holding_fun _ _ _ _ Hcs1 Hh). symmetry. apply concat_concat.
Qed.
End gcs.

Section gcs_upload.
Context {S C : Type} `{!GCSLibrary S C} `{!CredentialLookup S} (view : S → gmap (string * string) content) `{!GCSLaws view}.
Local Abbreviation stored b := (view (gb_outside b)).
(** Deleting from the cloud, in view of the objects. *)
Lemma gcs_deletions client bucket keys (b b' : gcs_backend S C) :
  in_turn (λ key, failing "delete multipart component %s: %w" (outside_gcs (gcs_Delete client bucket key))) keys b = (b', Ok tt) →
  ∀ k, stored b' !! k = if decide (k ∈ pair bucket <$> keys) then None else stored b !! k.
Proof.
  apply (deletions_in_turn (λ b, stored b)). intros key c c' (s' & Hd & ->)%failing_Ok%outside_gcs_Ok. by apply delete_removes in Hd.
Qed.
(** C13 An upload to GCS that is completed is one object, which holds the parts in the order of their numbers; the parts and the
    intermediate objects of the composition are gone, and no other object changes, however many parts there are. *)
Theorem gcs_upload_assembled request (b b' : gcs_backend S C) :
  let bucket := ot_Bucket (cmr_Target request) in
  let destination := Trim (TrimSpace (ot_Key (cmr_Target request))) "/" in
  path_ok (cmr_UploadID request) → path_ok destination →
  gcs_CompleteMultipartUpload request b = (b', Ok tt) →
  ∃ keys temporaries, in_part_order request keys ∧
    Forall (λ t, ∃ r i, t = compose_key (cmr_UploadID request) destination r i) temporaries ∧
    assembled (pair bucket) (stored b) (stored b') destination keys temporaries.
Proof.
  intros bucket destination Hu Hd. unfold gcs_CompleteMultipartUpload. fold bucket destination.
  intros (b1 & client & Hclient & Hrun)%service_bind_Ok. apply getClient_keeps in Hclient.
  apply service_bind_Ok in Hrun as (b2 & temps & Hcompose & Hdelete).
  assert (∀ key n, key = MultipartPartObjectKey (ot_Key (cmr_Target request)) (cmr_UploadID request) n → key ≠ destination) as Hnot.
  { intros key n -> E. rewrite (part_key_eq _ _ Hu Hd) in E by done. by apply (base_longer (cmr_UploadID request) destination ("parts/" +:+ pretty n)). }
  assert (∀ key, key ∈ part_keys request → ∃ n, key = MultipartPartObjectKey (ot_Key (cmr_Target request)) (cmr_UploadID request) n) as Hparts.
  { intros key (part & -> & _)%list_elem_of_fmap. by eexists. }
  unfold composeObjects in Hcompose. destruct (part_keys request) as [|first keys] eqn:Ek; [done|].
  apply service_bind_Ok in Hcompose as (b3 & [left temps'] & Hrounds & Hfinal).
  apply service_bind_Ok in Hfinal as (b4 & [] & Hlast & [= -> ->]).
  rewrite <- Ek in *. clear first keys Ek.
  apply (compose_rounds_Ok view client bucket (cmr_UploadID request) destination Hu Hd) in Hrounds
    as (Hleft & new & -> & Hnew & Hframe & Hsame); [|done|].
  2: { intros key r i (n & ->)%Hparts _. intros E. by apply (compose_not_part _ _ Hu Hd (ot_Key (cmr_Target request)) n r i). }
  apply (composeBatch_Ok view) in Hlast as (cs' & Hcs' & Hv); [|done].
  destruct (Hsame _ Hcs') as (cs & Hcs & E). rewrite app_nil_l in *.
  exists (part_keys request), new. split; [apply part_keys_in_order|]. split; [done|]. exists cs.
  unfold objects in *. rewrite <- Hclient. split; [done|].
  intros k. rewrite (gcs_deletions _ _ _ _ _ Hdelete k), Hv, <- E.
  destruct (decide (k = (bucket, destination))) as [->|Hne].
  - rewrite decide_False, lookup_insert_eq; [done|]. apply not_in_places; [apply _|]. rewrite elem_of_app. intros [(n & Ed)%Hparts|Hin].
    + by apply (Hnot destination n).
    + rewrite Forall_forall in Hnew. destruct (Hnew _ Hin) as (r & i & Er). rewrite (compose_key_eq _ _ Hu Hd) in Er.
      by apply base_longer in Er.
  - destruct (decide _) as [Hin|Hin]; [done|]. rewrite lookup_insert_ne by done. apply Hframe. intros Hk. apply Hin.
    rewrite fmap_app, elem_of_app. by right.
Qed.
End gcs_upload.

(** ** A directory *)
(** What gocloud.dev/blob documents: an object appears when its writer is closed; a reader that ends has delivered it. *)
Class FileLaws {S : Type} `{!FileBucket S} (view : S → gmap string content) := {
  writer_opens : ∀ key s s', blob_NewWriter key s = (s', Ok tt) → view s' = view s;
  close_commits : ∀ key written s s', blob_Close key written s = (s', Ok tt) → view s' = <[key := written]> (view s);
  reader_delivers : ∀ key s reader, blob_NewReader key s = Ok reader → bl_error reader = None → view s !! key = Some (bl_content reader);
  blob_removes : ∀ key s s', blob_Delete key s = (s', Ok tt) → view s' = delete key (view s) }.
Section file_upload.
Context {S : Type} `{!FileBucket S} (view : S → gmap string content) `{!FileLaws view}.
Lemma copy_parts_Ok written keys s written' :
  copy_parts written keys s = (written', None) → ∃ contents, mapM (λ key, view s !! key) keys = Some contents ∧ written' = written ++ concat contents.
Proof.
  revert written. induction keys as [|key keys IH]; intros written; cbn [copy_parts].
  { intros [= <-]. exists []. by rewrite app_nil_r. }
  unfold copy_part. destruct (blob_NewReader key s) as [reader|e] eqn:Er; [|done].
  destruct (bl_error reader) eqn:Ee; [done|]. destruct (bl_close reader); [done|].
  intros (contents & Hc & ->)%IH. exists (bl_content reader :: contents). cbn [concat]. rewrite (assoc_L (++)). split; [|done].
  apply mapM_Some. constructor; [by apply reader_delivers|by apply mapM_Some].
Qed.
(** C14 An upload to a directory that is completed is one object, which holds the parts in the order of their numbers; the parts
    are gone, and no other object changes. *)
Theorem file_upload_assembled request s s' :
  let destination := Trim (TrimSpace (ot_Key (cmr_Target request))) "/" in
  path_ok (cmr_UploadID request) → path_ok destination →
  file_CompleteMultipartUpload request s = (s', Ok tt) →
  ∃ keys, in_part_order request keys ∧ assembled id (view s) (view s') destination keys [].
Proof.
  intros destination Hu Hd. unfold file_CompleteMultipartUpload. case_bool_decide; [done|]. cbv zeta. fold destination.
  intros (s1 & [] & Hw%failing_Ok%writer_opens & Hjoin)%service_bind_Ok. unfold join_parts in Hjoin.
  destruct (copy_parts [] (part_keys request) s1) as [written [e|]] eqn:Ec; [done|].
  apply copy_parts_Ok in Ec as (contents & Hc & ->). rewrite app_nil_l in Hjoin.
  apply service_bind_Ok in Hjoin as (s2 & [] & Hclose%failing_Ok%close_commits & Hdel).
  exists (part_keys request). split; [apply part_keys_in_order|]. exists contents. rewrite <- Hw. split; [done|]. intros k.
  assert (∀ k, view s' !! k = if decide (k ∈ id <$> part_keys request) then None else view s2 !! k) as Hd'.
  { eapply (deletions_in_turn view id); [|exact Hdel]. intros key t t' Ht%failing_Ok. by apply blob_removes in Ht. }
  rewrite Hd', Hclose, app_nil_r. destruct (decide (k = id destination)) as [->|Hne].
  - rewrite decide_False, lookup_insert_eq; [done|]. rewrite list_fmap_id. intros (part & E & _)%list_elem_of_fmap.
    unfold id in E. rewrite (part_key_eq _ _ Hu Hd) in E by done. by apply base_longer in E.
  - by rewrite lookup_insert_ne.
Qed.
End file_upload.

(** ** Executions *)
Section sample.
(** A cloud with objects by bucket and key; the list says which of the coming deletions are carried out. *)
Record cloud := mkCloud { cl_objects : gmap (string * string) content; cl_deletions : list bool }.
Definition cloud_compose (_ : unit) (bucket d : string) (sources : list string) : service cloud unit := λ s,
  match mapM (λ key, cl_objects s !! (bucket, key)) sources with
  | Some contents => if length sources <=? 32 then (mkCloud (<[(bucket, d) := concat contents]> (cl_objects s)) (cl_deletions s), Ok tt)
                     else (s, Err (EText "too many sources"))
  | None => (s, Err (EText "no such object"))
  end.
Definition cloud_delete (_ : unit) (bucket key : string) : service cloud unit := λ s,
  match cl_deletions s with
  | false :: rest => (mkCloud (cl_objects s) rest, Err (EText "unavailable"))
  | _ => (mkCloud (delete (bucket, key) (cl_objects s)) (tail (cl_deletions s)), Ok tt)
  end.
#[local] Instance cloud_library : GCSLibrary cloud unit := {|
  json_Valid _ := false; gcs_NewClient _ _ := Ok tt; gcs_Compose := cloud_compose; gcs_Delete := cloud_delete;
  gcs_ObjectNotExist _ := false; gcs_ErrorCode _ := None; gcs_NewString s := (s, "u1") |}.
#[local] Instance cloud_credentials : CredentialLookup cloud := λ bucket _, Ok (Some (mkCredential bucket bucket "gcs" "" "" "" "")).
#[local] Instance cloud_laws : GCSLaws cl_objects.
Proof.
  split.
  - intros [] bucket d sources s s'. cbn. unfold cloud_compose. destruct (mapM _ sources) as [contents|] eqn:E; [|done].
    destruct (Nat.leb_spec (length sources) 32); [|done]. intros [= <-] _. by exists contents.
  - intros [] bucket key s s'. cbn. unfold cloud_delete. by destruct (cl_deletions s) as [|[|] rest]; intros [= <-].
Qed.
Definition part_content (n : Z) : content := chars (pretty n).
Definition sample_parts (n : nat) : list Z := Z.of_nat <$> seq 1 n.
Definition sample_request (n : nat) : CompleteMultipartRequest :=
  mkCompleteMultipartRequest (mkObjectTarget "b" "/run/x ") "u1" ((λ n, mkCompletedPart n "etag") <$> reverse (sample_parts n)).
Definition sample_cloud (n : nat) (deletions : list bool) : gcs_backend cloud unit :=
  mkGCS ∅ (mkCloud (list_to_map (((("b", "other"), chars "kept") : _ * content) :: ((λ n, (("b", MultipartPartObjectKey "run/x" "u1" n), part_content n)) <$> sample_parts n))) deletions).
Definition object_is (b : gcs_backend cloud unit) (key : string) (c : option content) : bool := bool_decide (cl_objects (gb_outside b) !! ("b", key) = c).
(** Forty parts, in two rounds. *)
Lemma gcs_upload_assembled_witness :
  let run := gcs_CompleteMultipartUpload (sample_request 40) (sample_cloud 40 []) in
  object_is run.1 "run/x" (Some (concat (part_content <$> sample_parts 40))) = true ∧
  ∃ keys temporaries, in_part_order (sample_request 40) keys ∧ Forall (λ t, ∃ r i, t = compose_key "u1" "run/x" r i) temporaries ∧
    assembled (pair "b") (cl_objects (gb_outside (sample_cloud 40 []))) (cl_objects (gb_outside run.1)) "run/x" keys temporaries.
Proof.
  intros run. assert (is_ok run.2 && object_is run.1 "run/x" (Some (concat (part_content <$> sample_parts 40))) = true) as Hrun by by vm_compute.
  apply andb_true_iff in Hrun as [Hok Hobject]. split; [exact Hobject|].
  apply (gcs_upload_assembled cl_objects (sample_request 40) (sample_cloud 40 []) run.1).
  - by apply (bool_decide_unpack _); vm_compute.
  - by apply (bool_decide_unpack _); vm_compute.
  - fold run. destruct run as [b' [[]|e]]; [reflexivity|discriminate Hok].
Defined.
(** A deletion that fails after the composition: the object is there, the upload has failed, and it cannot be completed any more. *)
Example completion_not_repeatable :
  let first := gcs_CompleteMultipartUpload (sample_request 2) (sample_cloud 2 [true; false]) in
  let second := gcs_CompleteMultipartUpload (sample_request 2) first.1 in
  object_is first.1 "run/x" (Some (chars "12")) && negb (is_ok first.2) && negb (is_ok second.2) = true.
Proof. by vm_compute. Qed.

(** A directory. *)
#[local] Instance directory_bucket : FileBucket (gmap string content) := {|
  blob_NewWriter _ s := (s, Ok tt);
  blob_Close key written s := (<[key := written]> s, Ok tt);
  blob_NewReader key s := match s !! key with Some c => Ok (mkBlobReader c None None) | None => Err (EText "not found") end;
  blob_Delete key s := match s !! key with Some _ => (delete key s, Ok tt) | None => (s, Err (EText "not found")) end;
  blob_SignedURL _ _ := Err (EText "no signer");
  os_Remove _ s := (s, Ok tt); os_IsNotExist _ := false; file_NewString s := (s, "u1") |}.
#[local] Instance directory_laws : FileLaws (λ s : gmap string content, s).
Proof.
  split.
  - by intros key s s' [= ->].
  - by intros key written s s' [= <-].
  - intros key s reader. cbn. destruct (s !! key) eqn:E; [|done]. by intros [= <-] _.
  - intros key s s'. cbn. destruct (s !! key); [|done]. by intros [= <-].
Qed.
Definition sample_directory (n : nat) : gmap string content :=
  list_to_map ((("run/x", chars "old") : _ * content) :: ((λ n, (MultipartPartObjectKey "run/x" "u1" n, part_content n)) <$> sample_parts n)).
Definition file_is (s : gmap string content) (key : string) (c : option content) : bool := bool_decide (s !! key = c).
Lemma file_upload_assembled_witness :
  let run := file_CompleteMultipartUpload (sample_request 3) (sample_directory 3) in
  file_is run.1 "run/x" (Some (chars "123")) = true ∧
  ∃ keys, in_part_order (sample_request 3) keys ∧ assembled id (sample_directory 3) run.1 "run/x" keys [].
Proof.
  intros run. assert (is_ok run.2 && file_is run.1 "run/x" (Some (chars "123")) = true) as Hrun by by vm_compute.
  apply andb_true_iff in Hrun as [Hok Hobject]. split; [exact Hobject|].
  apply (file_upload_assembled (λ s, s) (sample_request 3) (sample_directory 3) run.1).
  - by apply (bool_decide_unpack _); vm_compute.
  - by apply (bool_decide_unpack _); vm_compute.
  - fold run. destruct run as [b' [[]|e]]; [reflexivity|discriminate Hok].
Defined.
(** A part that is missing: the object that was there is replaced by the parts before it. *)
Example truncated_object :
  let run := file_CompleteMultipartUpload (sample_request 3) (sample_directory 2) in
  file_is (sample_directory 2) "run/x" (Some (chars "old")) && negb (is_ok run.2) && file_is run.1 "run/x" (Some (chars "12")) = true.
Proof. by vm_compute. Qed.
(** The address of a file is not kept below the root. *)
Example address_outside_root : (file_SignURL (S := unit) "/data" (mkObjectTarget "b" "../etc/passwd") (mkAccessOptions 0 "" "") tt).2 = Ok "/etc/passwd".
Proof. by vm_compute. Qed.
End sample.
