(* ===== verification/S3.v ===== *)
(** * The S3 backend: internal/storage/s3
    Clients by bucket, signing, uploads, probes, listings with retries and replays, deletions.  The client library is a class
    of operations on a state, which stands for the service, the context of the request and the random numbers; its inputs
    are records of what the code sets.  Counters that only the log reads are left out. *)
From S2P Require Import Prelude GoStrings GoURL Errors Resources Policy Objects ContentReads Address Buckets Targets Disposition StorageManager Attribution ObjectStores.
#[local] Set Warnings "-automation".

(** ** The client library *)
Record s3_client := mkS3Client {
  sc_Region : string; sc_AccessKey : string; sc_SecretKey : string; sc_BaseEndpoint : option string; sc_UsePathStyle : bool }.
Record list_input := mkListInput {
  li_Bucket : string; li_Prefix : option string; li_MaxKeys : Z; li_ContinuationToken : option string }.
(** What a field that is not there reads as is its value here. *)
Record listed_object := mkListed { lo_Key : string; lo_Size : Z; lo_ETag : string; lo_LastModified : option Z }.
Record list_page := mkPage { lp_Contents : list listed_object; lp_IsTruncated : bool; lp_NextContinuationToken : string }.
Record head_output := mkHead { ho_ContentLength : Z; ho_LastModified : option Z; ho_ETag : string }.
Record delete_failure := mkDeleteFailure { df_Key : string; df_Code : string; df_Message : string }.
Inductive presigned :=
  | PresignPut (bucket key : string) (expires : Z)
  | PresignGet (bucket key : string) (range disposition : option string) (expires : Z)
  | PresignPart (bucket key uploadID : string) (partNumber expires : Z).
(** The service, the permits of the limiter and the waiting, which the context may end, and the tests on errors. *)
Class S3Library (S : Type) := {
  s3_LoadDefaultConfig : S → option error;
  s3_ListObjects : s3_client → list_input → service S (option list_page);
  s3_HeadObject : s3_client → string → string → service S (option head_output);
  s3_DeleteObject : s3_client → string → string → service S unit;
  s3_DeleteObjects : s3_client → string → list string → service S (list delete_failure);
  s3_CreateMultipartUpload : s3_client → string → string → service S string;
  s3_CompleteMultipartUpload : s3_client → string → string → string → list CompletedPart → service S unit;
  s3_Presign : s3_client → presigned → S → result error string;
  s3_acquire : service S unit;
  s3_wait : Z → service S unit;
  rand_Int63n : Z → S → S * Z;
  api_ErrorCode : error → option string;
  is_EOF : error → bool;
  is_Timeout : error → bool;
  error_text : error → string }.

(** ** retry.go *)
Definition millisecond : Z := (10 ^ 6)%Z.
Definition defaultListPageMaxAttempts : Z := 12%Z.
Definition defaultExactProbeMaxAttempts : Z := 3%Z.
Definition defaultListPageInitialBackoff : Z := (500 * millisecond)%Z.
Definition defaultListPageMaxBackoff : Z := (10 * 1000 * millisecond)%Z.
Definition defaultInventoryTerminalReplays : Z := 3%Z.
Definition defaultHeadMaxAttempts : Z := 3%Z.
Record listPageRetryPolicy := mkPolicy { pl_MaxAttempts : Z; pl_InitialBackoff : Z; pl_MaxBackoff : Z }.
Section env.
Context (getenv : string → string).
Definition intEnvOrDefault (name : string) (fallback minimum : Z) : Z :=
  match Atoi (TrimSpace (getenv name)) with
  | Some value => if (value <? minimum)%Z then fallback else value
  | None => fallback
  end.
Definition millisEnvOrDefault (name : string) (fallback minimumMillis : Z) : Z :=
  match Atoi (TrimSpace (getenv name)) with
  | Some value => if (value <? minimumMillis)%Z then fallback else wrap64 (value * millisecond)
  | None => fallback
  end.
Definition listPageRetryPolicyFromEnv : listPageRetryPolicy :=
  mkPolicy (intEnvOrDefault "SYFON_S3_LIST_PAGE_MAX_ATTEMPTS" defaultListPageMaxAttempts 1)
    (millisEnvOrDefault "SYFON_S3_LIST_PAGE_INITIAL_BACKOFF_MS" defaultListPageInitialBackoff 0)
    (millisEnvOrDefault "SYFON_S3_LIST_PAGE_MAX_BACKOFF_MS" defaultListPageMaxBackoff 0).
End env.
(** The loop that doubles; [n] doublings are left. *)
Fixpoint doubled (n : nat) (backoff maximum : Z) : Z :=
  match n with
  | 0 => backoff
  | S n => let backoff := wrap64 (backoff * 2) in if (maximum <=? backoff)%Z then maximum else doubled n backoff maximum
  end.
Definition base_backoff (policy : listPageRetryPolicy) (attempt : nat) : Z :=
  doubled (attempt - 1) (pl_InitialBackoff policy) (pl_MaxBackoff policy).
(** An exchange sort: the least key comes to the front, swap by swap. *)
Fixpoint exchange (x : listed_object) (l : list listed_object) : listed_object * list listed_object :=
  match l with
  | [] => (x, [])
  | y :: l => if String.ltb (lo_Key y) (lo_Key x) then let '(m, l) := exchange y l in (m, x :: l)
              else let '(m, l) := exchange x l in (m, y :: l)
  end.
Fixpoint exchange_sort (n : nat) (l : list listed_object) : list listed_object :=
  match n, l with S n, x :: l => let '(m, l) := exchange x l in m :: exchange_sort n l | _, l => l end.
Definition fingerprint_line (o : listed_object) : string :=
  lo_Key o +:+ nul +:+ pretty (lo_Size o) +:+ nul +:+ lo_ETag o +:+ nul +:+ from_option RFC3339Nano "" (lo_LastModified o) +:+ bytes [10].
Definition page_text (page : list_page) : string :=
  "truncated=" +:+ (if lp_IsTruncated page then "true" else "false") +:+ bytes [10]
  +:+ Join (fingerprint_line <$> exchange_sort (length (lp_Contents page)) (lp_Contents page)) "".
Definition listPageFingerprint `{Digests} (page : list_page) : string := String.substring 0 16 (sha256_hex (page_text page)).

(** ** limiter.go *)
Definition defaultProbeConcurrency : Z := 8%Z.
Definition newProbeLimiterFromEnv (getenv : string → string) : Z :=
  match Atoi (TrimSpace (getenv "SYFON_S3_PROBE_CONCURRENCY")) with
  | Some limit => if (limit <? 1)%Z then defaultProbeConcurrency else limit
  | None => defaultProbeConcurrency
  end.

Section s3.
Context {S : Type} `{!S3Library S} `{!CredentialLookup S} `{Digests} (getenv : string → string).
Definition backoff (policy : listPageRetryPolicy) (attempt : nat) (s : S) : S * Z :=
  let base := base_backoff policy attempt in
  if (base <=? 0)%Z then (s, 0%Z)
  else
    let jitterMax := (base / 4)%Z in
    if (jitterMax <=? 0)%Z then (s, base) else let '(s, jitter) := rand_Int63n (jitterMax + 1) s in (s, wrap64 (base + jitter)).
Definition sleepListPageRetry (duration : Z) : service S unit := if (duration <=? 0)%Z then mret tt else s3_wait duration.
Definition isRetryableListPageError (e : error) : bool :=
  match api_ErrorCode e with
  | Some code =>
      bool_decide (ToLower (TrimSpace code) ∈ ["internalerror"; "slowdown"; "serviceunavailable"; "requesttimeout"; "requesttimeoutexception";
        "toomanyrequests"; "throttling"; "throttlingexception"; "requestlimitexceeded"])
  | None =>
      let message := ToLower (error_text e) in
      is_EOF e || is_Timeout e || Contains message "eof" || Contains message "connection reset" || Contains message "timeout"
      || Contains message "malformed truncated list page" || Contains message "empty list page"
  end.
Definition providerError (kind : string) (cause : error) : error := operationError kind S3Provider (Some cause).

(** ** backend.go *)
(** The clients by bucket, beside the outside. *)
Record s3_backend := mkS3 { sb_cache : gmap string s3_client; sb_outside : S }.
Local Abbreviation M A := (service s3_backend A).
Definition outside_s3 {A} (m : service S A) : M A := λ b, let '(s, r) := m (sb_outside b) in (mkS3 (sb_cache b) s, r).
Definition s3_InvalidateBucket (bucket : string) (b : s3_backend) : s3_backend :=
  let bucket := TrimSpace bucket in
  if is_empty bucket then b else mkS3 (delete bucket (sb_cache b)) (sb_outside b).
Definition endpoint_of (raw : string) : string :=
  let endpoint := TrimSpace raw in
  if is_empty endpoint || HasPrefix endpoint "http://" || HasPrefix endpoint "https://" then endpoint
  else if Contains endpoint "localhost" || Contains endpoint "127.0.0.1" then "http://" +:+ endpoint
  else "https://" +:+ endpoint.
Definition client_of (cred : Credential) : s3_client :=
  let endpoint := endpoint_of (c_Endpoint cred) in
  mkS3Client (c_Region cred) (c_AccessKey cred) (c_SecretKey cred) (if is_empty endpoint then None else Some endpoint) (negb (is_empty endpoint)).
Definition getClients (bucket : string) : M s3_client := λ b,
  match sb_cache b !! bucket with
  | Some client => (b, Ok client)
  | None =>
      match lookup_GetS3Credential bucket (sb_outside b) with
      | Err e => (b, Err (EWrap "failed to get credentials for bucket %s: %w" e))
      | Ok None => (b, Err (EText "credentials not found for bucket %s"))
      | Ok (Some cred) =>
          match s3_LoadDefaultConfig (sb_outside b) with
          | Some e => (b, Err (EWrap "failed to load aws config: %w" e))
          | None => (mkS3 (<[bucket := client_of cred]> (sb_cache b)) (sb_outside b), Ok (client_of cred))
          end
      end
  end.
Definition defaultExpiry : Z := (15 * 60 * 1000 * millisecond)%Z.
Definition s3_expiry (options : AccessOptions) : Z := if (0 <? ao_ExpiresIn options)%Z then ao_ExpiresIn options else defaultExpiry.
Definition responseContentDisposition (name : string) : option string :=
  let disposition := ContentDispositionAttachment name in if is_empty disposition then None else Some disposition.

(** ** access.go and multipart.go *)
Definition s3_SignURL (target : ObjectTarget) (options : AccessOptions) : M string :=
  client ← getClients (ot_Bucket target);
  outside_s3 (ask (s3_Presign client
    (if String.eqb (ao_Method options) "PUT" then PresignPut (ot_Bucket target) (ot_Key target) (s3_expiry options)
     else PresignGet (ot_Bucket target) (ot_Key target) None (responseContentDisposition (ao_DownloadFilename options)) (s3_expiry options)))).
Definition s3_SignDownloadPart (target : ObjectTarget) (range : ByteRange) (options : AccessOptions) : M string :=
  client ← getClients (ot_Bucket target);
  outside_s3 (ask (s3_Presign client
    (PresignGet (ot_Bucket target) (ot_Key target) (Some ("bytes=" +:+ pretty (br_Start range) +:+ "-" +:+ pretty (br_End range)))
       (responseContentDisposition (ao_DownloadFilename options)) (s3_expiry options)))).
Definition s3_InitMultipartUpload (target : ObjectTarget) : M string :=
  client ← getClients (ot_Bucket target);
  failing "failed to init s3 multipart upload: %w" (outside_s3 (s3_CreateMultipartUpload client (ot_Bucket target) (ot_Key target))).
Definition s3_SignMultipartPart (request : MultipartPartRequest) : M string :=
  client ← getClients (ot_Bucket (mpr_Target request));
  failing "failed to sign s3 multipart part: %w" (outside_s3 (ask (s3_Presign client
    (PresignPart (ot_Bucket (mpr_Target request)) (ot_Key (mpr_Target request)) (mpr_UploadID request) (mpr_PartNumber request) defaultExpiry)))).
Definition s3_CompleteUpload (request : CompleteMultipartRequest) : M unit :=
  client ← getClients (ot_Bucket (cmr_Target request));
  failing "failed to complete s3 multipart upload: %w" (outside_s3 (s3_CompleteMultipartUpload client
    (ot_Bucket (cmr_Target request)) (ot_Key (cmr_Target request)) (cmr_UploadID request) (cmr_Parts request))).

(** ** probe.go *)
(** [n] more attempts may follow. *)
Fixpoint head_attempts (n number : nat) (client : s3_client) (bucket key : string) : service S (option head_output) :=
  _ ← s3_acquire;
  answer ← attempt (s3_HeadObject client bucket key);
  match answer, n with
  | Err e, Datatypes.S n =>
      if isRetryableListPageError e then
        delay ← (λ s, let '(s, d) := backoff (listPageRetryPolicyFromEnv getenv) number s in (s, Ok d));
        _ ← sleepListPageRetry delay;
        head_attempts n (Datatypes.S number) client bucket key
      else fail e
  | _, _ => check answer
  end.
Definition headWithRetry (client : s3_client) (bucket key : string) : service S (option head_output) :=
  head_attempts (Z.to_nat (intEnvOrDefault getenv "SYFON_S3_HEAD_MAX_ATTEMPTS" defaultHeadMaxAttempts 1) - 1) 1 client bucket key.
Definition trimmed_etag (etag : string) : string := Trim (TrimSpace etag) (bytes [34]).
Definition metadataFromHead (target : ObjectTarget) (output : option head_output) : ObjectMetadata :=
  match output with
  | None => mkObjectMetadata S3Provider (ot_Bucket target) (ot_Key target) (filepath_Base (ot_Key target)) 0 "" "" None
  | Some o => mkObjectMetadata S3Provider (ot_Bucket target) (ot_Key target) (filepath_Base (ot_Key target)) (ho_ContentLength o) ""
                (trimmed_etag (ho_ETag o)) (ho_LastModified o)
  end.
Definition classifyHeadError (e : error) : error :=
  let code := from_option (λ code, ToLower (TrimSpace code)) "" (api_ErrorCode e) in
  if bool_decide (code ∈ ["forbidden"; "accessdenied"; "permissiondenied"])
  then providerError ErrorUnavailable (EWrap "provider rejected object probe for s3://%s/%s; mapped bucket target may be missing or inaccessible: %w" e)
  else if bool_decide (code ∈ ["notfound"; "nosuchkey"]) then providerError ErrorNotFound (EWrap "provider could not find s3://%s/%s: %w" e)
  else if String.eqb code "nosuchbucket" then providerError ErrorUnavailable (EWrap "provider could not find bucket %q: %w" e)
  else providerError ErrorProvider (EWrap "inspect s3 object %s/%s: %w" e).
Definition s3_probe_one (target : ObjectTarget) (b : s3_backend) : s3_backend * result error ObjectMetadata :=
  match getClients (ot_Bucket target) b with
  | (b, Err e) => (b, Err (providerError ErrorProvider e))
  | (b, Ok client) =>
      match outside_s3 (headWithRetry client (ot_Bucket target) (ot_Key target)) b with
      | (b, Err e) => (b, Err (classifyHeadError e))
      | (b, Ok output) => (b, Ok (metadataFromHead target output))
      end
  end.
(** The workers take the targets in the order of [schedule]; each answer goes to the place of its target. *)
Definition probe_at (targets : list ProbeTarget) (acc : s3_backend * list StorageProbeResult) (index : nat) : s3_backend * list StorageProbeResult :=
  match targets !! index with
  | None => acc
  | Some t =>
      let '(b, answer) := s3_probe_one (pt_Target t) acc.1 in
      (b, <[index := match answer with
                     | Ok metadata => mkStorageProbe (pt_ID t) (pt_Target t) metadata None
                     | Err e => mkStorageProbe (pt_ID t) (pt_Target t) no_metadata (Some e)
                     end]> acc.2)
  end.
Definition s3_Probe (schedule : list nat) (targets : list ProbeTarget) (b : s3_backend) : s3_backend * list StorageProbeResult :=
  foldl (probe_at targets) (b, (λ t, mkStorageProbe (pt_ID t) (pt_Target t) no_metadata None) <$> targets) schedule.

(** ** inventory.go *)
Definition listPageSize : Z := 1000%Z.
Definition cloneListInput (input : list_input) (continuationToken : string) : list_input :=
  mkListInput (li_Bucket input) (li_Prefix input) (li_MaxKeys input)
    (if is_empty (TrimSpace continuationToken) then None else Some continuationToken).
(** What an answer counts as. *)
Definition page_of (answer : result error (option list_page)) : result error list_page :=
  match answer with
  | Err e => Err e
  | Ok None => Err (EText "provider returned an empty list page")
  | Ok (Some page) =>
      if lp_IsTruncated page && is_empty (TrimSpace (lp_NextContinuationToken page))
      then Err (EText "provider returned a malformed truncated list page without next continuation token")
      else if lp_IsTruncated page && bool_decide (length (lp_Contents page) = 0)
      then Err (EText "provider returned an empty malformed truncated list page")
      else Ok page
  end.
(** [n] more attempts may follow. *)
Fixpoint list_page_attempts (n number : nat) (client : s3_client) (baseInput : list_input) (token : string) : service S list_page :=
  _ ← s3_acquire;
  answer ← attempt (s3_ListObjects client (cloneListInput baseInput token));
  match page_of answer with
  | Ok page => mret page
  | Err e =>
      let failed := fail (EWrap "list s3 objects for %s/%s failed at page %d after %d objects and %d attempts: %w" e) in
      match n with
      | Datatypes.S n =>
          if isRetryableListPageError e then
            delay ← (λ s, let '(s, d) := backoff (listPageRetryPolicyFromEnv getenv) number s in (s, Ok d));
            _ ← sleepListPageRetry delay;
            list_page_attempts n (Datatypes.S number) client baseInput token
          else failed
      | 0 => failed
      end
  end.
Definition listPageWithRetry (client : s3_client) (baseInput : list_input) (token : string) : service S list_page :=
  list_page_attempts (Z.to_nat (pl_MaxAttempts (listPageRetryPolicyFromEnv getenv)) - 1) 1 client baseInput token.
Definition listed_metadata (bucket key : string) (object : listed_object) : ObjectMetadata :=
  mkObjectMetadata S3Provider bucket key (filepath_Base key) (lo_Size object) "" (trimmed_etag (lo_ETag object)) (lo_LastModified object).
(** The items so far, and the keys seen. *)
Definition append_object (bucket : string) (acc : list ObjectMetadata * gset string) (object : listed_object) : list ObjectMetadata * gset string :=
  let '(items, seen) := acc in
  let key := Trim (TrimSpace (lo_Key object)) "/" in
  if is_empty key || bool_decide (key ∈ seen) then (items, seen)
  else (items ++ [listed_metadata bucket key object], {[key]} ∪ seen).
Definition appendListPageObjects (bucket : string) (acc : list ObjectMetadata * gset string) (page : list_page) : list ObjectMetadata * gset string :=
  foldl (append_object bucket) acc (lp_Contents page).
Definition incompleteListingError (reason : string) : error :=
  operationError ErrorIncomplete S3Provider (Some (EText ("provider returned an incomplete listing for s3://%s/%s after key %q: " +:+ reason))).
(** [n] replays are left. *)
Fixpoint replay_page (n : nat) (client : s3_client) (baseInput : list_input) (token fingerprint : string) : service S unit :=
  match n with
  | 0 => mret tt
  | Datatypes.S n =>
      answer ← attempt (listPageWithRetry client baseInput token);
      match answer with
      | Err _ => fail (incompleteListingError "terminal replay failed")
      | Ok page =>
          if String.eqb (listPageFingerprint page) fingerprint then replay_page n client baseInput token fingerprint
          else fail (incompleteListingError "terminal replay returned different page content")
      end
  end.
Definition replayTerminalPage (client : s3_client) (baseInput : list_input) (token : string) (firstPage : list_page) : service S unit :=
  replay_page (Z.to_nat (intEnvOrDefault getenv "SYFON_S3_INVENTORY_TERMINAL_REPLAY_ATTEMPTS" defaultInventoryTerminalReplays 2) - 1)
    client baseInput token (listPageFingerprint firstPage).
(** The loop over the pages, which nothing bounds; [None] is a loop that [fuel] pages do not end. *)
Fixpoint list_pages (fuel : nat) (client : s3_client) (baseInput : list_input) (bucket : string) (once : bool) (token : string)
    (acc : list ObjectMetadata * gset string) (s : S) : option (S * (list ObjectMetadata * option error)) :=
  match fuel with
  | 0 => None
  | Datatypes.S fuel =>
      match listPageWithRetry client baseInput token s with
      | (s, Err e) => Some (s, (acc.1, Some e))
      | (s, Ok page) =>
          let acc := appendListPageObjects bucket acc page in
          if negb (lp_IsTruncated page) then
            if once then Some (s, (acc.1, None))
            else match replayTerminalPage client baseInput token page s with
                 | (s, Err e) => Some (s, (acc.1, Some e))
                 | (s, Ok _) => Some (s, (acc.1, None))
                 end
          else
            let token := TrimSpace (lp_NextContinuationToken page) in
            if is_empty token
            then Some (s, (acc.1, Some (EText "list s3 objects for %s/%s stopped at page %d after %d objects: provider returned truncated page without next continuation token")))
            else list_pages fuel client baseInput bucket once token acc s
      end
  end.
Definition listPages (fuel : nat) (client : s3_client) (input : list_input) (request : InventoryRequest) (s : S)
    : option (S * (list ObjectMetadata * option error)) :=
  list_pages fuel client (cloneListInput input "") (pf_Bucket (ir_Target request)) (ir_MaxKeys request =? 1)%Z "" ([], ∅) s.
Definition hasExactListedKey (items : list ObjectMetadata) (key : string) : bool :=
  existsb (λ item, String.eqb (Trim (TrimSpace (om_Key item)) "/") (Trim (TrimSpace key) "/")) items.
(** [n] more attempts may follow. *)
Fixpoint exact_attempts (n number fuel : nat) (client : s3_client) (input : list_input) (request : InventoryRequest) (s : S)
    : option (S * (list ObjectMetadata * option error)) :=
  listed ← listPages fuel client input request s;
  let '(s, (items, err)) := listed in
  match n with
  | Datatypes.S n =>
      if bool_decide (is_Some err) || hasExactListedKey items (pf_Prefix (ir_Target request)) then Some (s, (items, err))
      else
        let '(s, delay) := backoff (listPageRetryPolicyFromEnv getenv) number s in
        match sleepListPageRetry delay s with
        | (s, Err e) => Some (s, ([], Some e))
        | (s, Ok _) => exact_attempts n (Datatypes.S number) fuel client input request s
        end
  | 0 => Some (s, (items, err))
  end.
Definition listPagesWithExactProbeRetry (fuel : nat) (client : s3_client) (input : list_input) (request : InventoryRequest) (s : S)
    : option (S * (list ObjectMetadata * option error)) :=
  if negb (ir_MaxKeys request =? 1)%Z || negb (ir_ExactPrefix request) then listPages fuel client input request s
  else exact_attempts (Z.to_nat (intEnvOrDefault getenv "SYFON_S3_EXACT_PROBE_MAX_ATTEMPTS" defaultExactProbeMaxAttempts 1) - 1) 1
         fuel client input request s.
Definition classifyListError (e : error) : error :=
  let code := from_option (λ code, ToLower (TrimSpace code)) "" (api_ErrorCode e) in
  if bool_decide (code ∈ ["forbidden"; "accessdenied"; "permissiondenied"])
  then providerError ErrorUnavailable (EWrap "provider rejected bucket inventory request for s3://%s/%s; mapped bucket target may be missing or inaccessible: %w" e)
  else if String.eqb code "nosuchbucket" then providerError ErrorUnavailable (EWrap "provider could not find bucket %q: %w" e)
  else if String.eqb code "notfound" then providerError ErrorUnavailable (EWrap "provider could not resolve bucket inventory target %q: %w" e)
  else providerError ErrorProvider (EWrap "list s3 objects for %s/%s: %w" e).
(** One item, from the answer to a HEAD request for it. *)
Definition enriched (metadata item : ObjectMetadata) : ObjectMetadata :=
  mkObjectMetadata (om_Provider item) (om_Bucket item) (om_Key item) (om_Path item) (om_SizeBytes item) (TrimSpace (om_MetaSHA256 metadata))
    (if is_empty (om_ETag item) then om_ETag metadata else om_ETag item)
    (match om_LastModified item with None => om_LastModified metadata | t => t end).
Definition enrich_at (client : s3_client) (bucket : string) (acc : S * (list ObjectMetadata * option error)) (index : nat)
    : S * (list ObjectMetadata * option error) :=
  let '(s, (items, firstErr)) := acc in
  match items !! index with
  | None => acc
  | Some item =>
      match headWithRetry client bucket (om_Key item) s with
      | (s, Err e) => (s, (items, match firstErr with None => Some (classifyHeadError e) | e => e end))
      | (s, Ok output) => (s, (<[index := enriched (metadataFromHead (mkObjectTarget bucket (om_Key item)) output) item]> items, firstErr))
      end
  end.
(** The workers take the items in the order of [schedule]. *)
Definition enrichInventoryHeads (schedule : list nat) (client : s3_client) (bucket : string) (items : list ObjectMetadata) (s : S)
    : S * (list ObjectMetadata * option error) := foldl (enrich_at client bucket) (s, (items, None)) schedule.
Definition inventory_input (request : InventoryRequest) : list_input :=
  let prefix := Trim (TrimSpace (pf_Prefix (ir_Target request))) "/" in
  mkListInput (pf_Bucket (ir_Target request))
    (if is_empty prefix then None else if ir_ExactPrefix request then Some prefix else Some (prefix +:+ "/"))
    (if (0 <? ir_MaxKeys request)%Z then ir_MaxKeys request else listPageSize) None.
(** What a listing that ended means: a result and an error. *)
Definition listing_failed (items : list ObjectMetadata) (e : error) : InventoryResult * option error :=
  match e with
  | EOperation kind _ _ => if String.eqb kind ErrorIncomplete then (mkInventoryResult items false, Some e)
                           else if bool_decide (items = []) then (no_inventory, Some (classifyListError e))
                           else (mkInventoryResult items false, Some (providerError ErrorIncomplete (classifyListError e)))
  | _ => if bool_decide (items = []) then (no_inventory, Some (classifyListError e))
         else (mkInventoryResult items false, Some (providerError ErrorIncomplete (classifyListError e)))
  end.
Definition s3_Inventory (fuel : nat) (schedule : list ObjectMetadata → list nat) (request : InventoryRequest) (b : s3_backend)
    : option (s3_backend * (InventoryResult * option error)) :=
  match getClients (pf_Bucket (ir_Target request)) b with
  | (b, Err e) => Some (b, (no_inventory, Some (providerError ErrorProvider e)))
  | (b, Ok client) =>
      listed ← listPagesWithExactProbeRetry fuel client (inventory_input request) request (sb_outside b);
      let '(s, (items, err)) := listed in
      match err with
      | Some e => Some (mkS3 (sb_cache b) s, listing_failed items e)
      | None =>
          if ir_IncludeHead request && bool_decide (items ≠ []) then
            match enrichInventoryHeads (schedule items) client (pf_Bucket (ir_Target request)) items s with
            | (s, (_, Some e)) => Some (mkS3 (sb_cache b) s, (no_inventory, Some e))
            | (s, (items, None)) => Some (mkS3 (sb_cache b) s, (mkInventoryResult items true, None))
            end
          else Some (mkS3 (sb_cache b) s, (mkInventoryResult items true, None))
      end
  end.

(** ** delete.go *)
Definition maxDeleteObjects : nat := 1000.
Definition group_target (byBucket : gmap string (list string)) (target : PhysicalTarget) : gmap string (list string) :=
  let bucket := TrimSpace (ph_Bucket target) in
  let key := Trim (TrimSpace (ph_Key target)) "/" in
  if is_empty bucket || is_empty key then byBucket else <[bucket := default [] (byBucket !! bucket) ++ [key]]> byBucket.
Definition dedupeSorted (values : list string) : list string := sort_Strings (dedup (filter (.≠ "") (TrimSpace <$> values))).
Definition delete_batch (client : s3_client) (bucket : string) (keys : list string) : M unit :=
  failures ← outside_s3 (s3_DeleteObjects client bucket keys);
  match failures with [] => mret tt | _ => fail (EText "s3 bulk delete failed for bucket %s: %s") end.
Definition deleteBucket (bucket : string) (keys : list string) : M unit :=
  match keys with
  | [] => mret tt
  | _ =>
      client ← getClients bucket;
      match keys with
      | [key] => outside_s3 (s3_DeleteObject client bucket key)
      | _ => in_turn (delete_batch client bucket) (chunks_of (length keys) maxDeleteObjects keys)
      end
  end.
Definition s3_Delete (targets : list PhysicalTarget) : M unit :=
  let byBucket := foldl group_target ∅ targets in
  in_turn (λ bucket, deleteBucket bucket (dedupeSorted (default [] (byBucket !! bucket)))) (sort_Strings (map_to_list byBucket).*1).
(** What the manager sees of the backend; the inventory is given, since a listing need not end. *)
Definition s3_New (schedule : nat → list nat) (inventory : InventoryRequest → s3_backend → s3_backend * (InventoryResult * option error))
    : Registration s3_backend :=
  mkRegistration S3Provider
    (Some (mkCompleteBackend s3_backend s3_SignURL s3_SignDownloadPart s3_InitMultipartUpload s3_SignMultipartPart s3_CompleteUpload))
    (Some s3_InvalidateBucket) (Some (λ targets, s3_Probe (schedule (length targets)) targets)) (Some inventory) (Some s3_Delete).
End s3.
Arguments s3_backend : clear implicits.
