(* ===== verification/S3Properties.v ===== *)
(** * What the S3 backend promises
    A complete listing is what the service listed, page by page; against a service that fails now and then a listing ends;
    a deletion removes what was asked for. *)
From S2P Require Import Prelude GoStrings GoURL Errors Resources Policy Objects ContentReads Address Buckets Targets StorageManager ContentQueries ObjectStores ObjectStoreProperties S3.
#[local] Set Warnings "-automation".

(** ** Items and pages *)
Definition listed_key (object : listed_object) : string := Trim (TrimSpace (lo_Key object)) "/".
(** What pages amount to: one item for each key, from the first object that has it, in the order of the pages. *)
Definition listed_items (bucket : string) (pages : list list_page) : list ObjectMetadata :=
  (λ o, listed_metadata bucket (listed_key o) o) <$>
    dedup_on listed_key (filter (λ o, listed_key o ≠ "") (concat (lp_Contents <$> pages))).
Lemma append_objects bucket objects items seen :
  foldl (append_object bucket) (items, seen) objects =
    (items ++ ((λ o, listed_metadata bucket (listed_key o) o) <$> dedup_go listed_key seen (filter (λ o, listed_key o ≠ "") objects)),
     seen ∪ list_to_set (listed_key <$> filter (λ o, listed_key o ≠ "") objects)).
Proof.
  revert items seen. induction objects as [|o objects IH]; intros items seen; [cbn; f_equal; [by rewrite app_nil_r|set_solver]|].
  cbn [foldl append_object]. fold (listed_key o). destruct (is_empty (listed_key o)) eqn:Ee; cbn [orb].
  - apply is_empty_spec in Ee. rewrite IH, filter_cons_False by (by rewrite Ee; intros []). done.
  - apply is_empty_false in Ee. rewrite filter_cons_True by done. cbn [dedup_go]. case_bool_decide as Es.
    + rewrite IH, decide_True by done. f_equal. rewrite fmap_cons. set_solver.
    + rewrite IH, decide_False by done. rewrite fmap_cons, fmap_cons, <- (assoc_L (++)). f_equal. cbn [list_to_set]. set_solver.
Qed.
Lemma append_pages bucket pages acc :
  foldl (appendListPageObjects bucket) acc pages = foldl (append_object bucket) acc (concat (lp_Contents <$> pages)).
Proof. revert acc. induction pages as [|page pages IH]; intros acc; [done|]. rewrite fmap_cons. cbn [foldl concat]. by rewrite foldl_app, IH. Qed.
Lemma append_listed bucket pages : (foldl (appendListPageObjects bucket) ([], ∅) pages).1 = listed_items bucket pages.
Proof. by rewrite append_pages, append_objects. Qed.
(** No key twice, none that is empty, every other key of the pages. *)
Lemma listed_items_keys bucket pages :
  NoDup (om_Key <$> listed_items bucket pages) ∧
  ∀ key, key ∈ om_Key <$> listed_items bucket pages ↔ key ≠ "" ∧ ∃ page o, page ∈ pages ∧ o ∈ lp_Contents page ∧ listed_key o = key.
Proof.
  assert (om_Key <$> listed_items bucket pages = listed_key <$> dedup_on listed_key (filter (λ o, listed_key o ≠ "") (concat (lp_Contents <$> pages)))) as ->.
  { unfold listed_items. rewrite <- list_fmap_compose. by apply list_fmap_ext. }
  split; [apply NoDup_dedup_on|]. intros key. rewrite list_elem_of_fmap. split.
  - intros (o & -> & [Hne (contents & Hc & Ho)%elem_of_concat]%elem_of_dedup_on%list_elem_of_filter).
    apply list_elem_of_fmap in Hc as (page & -> & Hp). split; [done|]. by exists page, o.
  - intros (Hne & page & o & Hp & Ho & <-).
    destruct (dedup_on_complete listed_key (filter (λ o, listed_key o ≠ "") (concat (lp_Contents <$> pages))) o) as (y & Hy & E).
    { apply list_elem_of_filter. split; [done|]. apply elem_of_concat. exists (lp_Contents page). split; [by apply list_elem_of_fmap_2|done]. }
    by exists y.
Qed.

Section listing.
Context {S : Type} `{!S3Library S} `{!CredentialLookup S} `{Digests} (getenv : string → string).
Implicit Types b : s3_backend S.
(** The service has given this page when it was asked for the one that the token names. *)
Definition answered (client : s3_client) (input : list_input) (token : string) (page : list_page) : Prop :=
  ∃ s s', s3_ListObjects client (cloneListInput input token) s = (s', Ok (Some page)).
(** Pages, each asked for with the token that the one before has given, up to one that says it is the last. *)
Inductive page_chain (client : s3_client) (input : list_input) : string → list list_page → Prop :=
  | chain_last token page : answered client input token page → lp_IsTruncated page = false → page_chain client input token [page]
  | chain_more token page pages :
      answered client input token page → lp_IsTruncated page = true → lp_Contents page ≠ [] →
      TrimSpace (lp_NextContinuationToken page) ≠ "" →
      page_chain client input (TrimSpace (lp_NextContinuationToken page)) pages → page_chain client input token (page :: pages).
Lemma page_of_Ok answer page :
  page_of answer = Ok page → answer = Ok (Some page) ∧
    (lp_IsTruncated page = true → TrimSpace (lp_NextContinuationToken page) ≠ "" ∧ lp_Contents page ≠ []).
Proof.
  destruct answer as [[p|]|e]; [|done|done]. cbn. destruct (lp_IsTruncated p) eqn:Et; cbn [andb]; [|intros [= <-]; split; [done|congruence]].
  destruct (is_empty _) eqn:Ee; [done|]. case_bool_decide as El; [done|]. intros [= <-]. split; [done|]. intros _.
  split; [by apply is_empty_false|]. by intros E; rewrite E in El.
Qed.
Lemma list_page_Ok client input token s s' page :
  listPageWithRetry getenv client input token s = (s', Ok page) →
  answered client input token page ∧ (lp_IsTruncated page = true → TrimSpace (lp_NextContinuationToken page) ≠ "" ∧ lp_Contents page ≠ []).
Proof.
  unfold listPageWithRetry. set (n := Z.to_nat _ - 1). clearbody n. generalize 1. revert s. induction n as [|n IH]; intros s number; cbn [list_page_attempts];
    intros (s1 & [] & _ & Hrun)%service_bind_Ok; unfold mbind at 1, service_bind at 1, attempt in Hrun;
    destruct (s3_ListObjects client (cloneListInput input token) s1) as [s2 answer] eqn:Ea;
    destruct (page_of answer) as [p|e] eqn:Ep.
  1, 3: injection Hrun as <- <-; apply page_of_Ok in Ep as [-> Hp]; split; [by exists s1, s2|done].
  - done.
  - destruct (isRetryableListPageError e); [|done]. apply service_bind_Ok in Hrun as (s3 & delay & _ & Hrun).
    apply service_bind_Ok in Hrun as (s4 & [] & _ & Hrun). by apply IH in Hrun.
Qed.
Lemma list_pages_Ok fuel client input bucket once token acc s s' items :
  list_pages getenv fuel client input bucket once token acc s = Some (s', (items, None)) →
  ∃ pages, page_chain client input token pages ∧ items = (foldl (appendListPageObjects bucket) acc pages).1.
Proof.
  revert token acc s. induction fuel as [|fuel IH]; intros token acc s; cbn [list_pages]; [done|].
  destruct (listPageWithRetry getenv client input token s) as [s1 [page|e]] eqn:Ep; [|done].
  apply list_page_Ok in Ep as [Ha Ht]. destruct (lp_IsTruncated page) eqn:Et; cbn [negb].
  - destruct (Ht eq_refl) as [Hn Hc]. apply is_empty_false in Hn as Hn'. rewrite Hn'. intros (pages & Hp & ->)%IH.
    exists (page :: pages). split; [by apply chain_more|done].
  - intros Hlast. exists [page]. split; [by apply chain_last|]. cbn [foldl]. destruct once; [by injection Hlast as _ <-|].
    destruct (replayTerminalPage _ _ _ _ _ s1) as [s2 [|e]]; [by injection Hlast as _ <-|done].
Qed.
Lemma chain_base client input token pages : page_chain client (cloneListInput input "") token pages → page_chain client input token pages.
Proof. induction 1; [by apply chain_last|by apply chain_more]. Qed.
Lemma listPages_Ok fuel client input request s s' items :
  listPages getenv fuel client input request s = Some (s', (items, None)) →
  ∃ pages, page_chain client input "" pages ∧ items = listed_items (pf_Bucket (ir_Target request)) pages.
Proof. intros (pages & Hp%chain_base & ->)%list_pages_Ok. exists pages. split; [done|]. apply append_listed. Qed.
Lemma probe_listing_Ok fuel client input request s s' items :
  listPagesWithExactProbeRetry getenv fuel client input request s = Some (s', (items, None)) →
  ∃ pages, page_chain client input "" pages ∧ items = listed_items (pf_Bucket (ir_Target request)) pages.
Proof.
  unfold listPagesWithExactProbeRetry. destruct (_ || _); [apply listPages_Ok|].
  set (n := Z.to_nat _ - 1). clearbody n. generalize 1. revert s. induction n as [|n IH]; intros s number; cbn [exact_attempts];
    intros ([s1 [items1 err]] & Hl & Hrun)%bind_Some.
  - injection Hrun as <- <- ->. by apply listPages_Ok in Hl.
  - destruct (_ || _); [injection Hrun as <- <- ->; by apply listPages_Ok in Hl|].
    destruct (backoff _ _ _) as [s2 delay]. destruct (sleepListPageRetry delay s2) as [s3 [[]|e]]; [by apply IH in Hrun|done].
Qed.
Lemma enriched_keys schedule client bucket items s s' items' err :
  enrichInventoryHeads getenv schedule client bucket items s = (s', (items', err)) → om_Key <$> items' = om_Key <$> items.
Proof.
  unfold enrichInventoryHeads. generalize (@None error) as err0. revert s items. induction schedule as [|i schedule IH]; intros s items err0; cbn [foldl].
  { by intros [= _ -> _]. }
  cbn [enrich_at]. destruct (items !! i) as [item|] eqn:Ei; [|apply IH].
  destruct (headWithRetry _ _ _ _) as [s1 [output|e]]; [|apply IH].
  intros ->%IH. rewrite list_fmap_insert. apply list_insert_id. by rewrite list_lookup_fmap, Ei.
Qed.
Lemma listing_failed_incomplete items e result err : listing_failed items e = (result, err) → iv_Complete result = false ∧ err ≠ None.
Proof.
  unfold listing_failed. destruct e; repeat (case_bool_decide || destruct (String.eqb _ _)); by intros [= <- <-].
Qed.
End listing.

(** ** A service that fails now and then *)
Section flaky.
Context {S : Type} `{!S3Library S} `{!CredentialLookup S} `{Digests} (getenv : string → string) (client : s3_client) (input : list_input).
Context (page_at : string → list_page).
(** After [n] failures that may be tried again comes the page for the token. *)
Fixpoint answers_after (n : nat) (token : string) (s : S) : Prop :=
  match n with
  | 0 => ∃ s', s3_ListObjects client (cloneListInput input token) s = (s', Ok (Some (page_at token)))
  | Datatypes.S n => ∃ s' e, s3_ListObjects client (cloneListInput input token) s = (s', Err e) ∧ isRetryableListPageError e = true ∧ answers_after n token s'
  end.
(** The pages that follow each other from a token on; each but the last has content and names the next. *)
Inductive served : string → list list_page → Prop :=
  | served_last token : lp_IsTruncated (page_at token) = false → served token [page_at token]
  | served_more token pages :
      lp_IsTruncated (page_at token) = true → lp_Contents (page_at token) ≠ [] →
      TrimSpace (lp_NextContinuationToken (page_at token)) ≠ "" →
      served (TrimSpace (lp_NextContinuationToken (page_at token))) pages → served token (page_at token :: pages).
(** Nothing else stands in the way: permits and waiting succeed, and what the service says depends on neither. *)
Record undisturbed : Prop := {
  permits : ∀ s, s3_acquire s = (s, Ok tt);
  waits : ∀ d s, s3_wait d s = (s, Ok tt);
  rolls : ∀ n s, (rand_Int63n n s).1 = s;
  recovers : ∀ token s, ∃ n, n < Z.to_nat (pl_MaxAttempts (listPageRetryPolicyFromEnv getenv)) ∧ answers_after n token s }.
Context (Hcalm : undisturbed).
Lemma backoff_state policy number s : (backoff policy number s).1 = s.
Proof.
  unfold backoff. destruct (_ <=? 0)%Z; [done|]. destruct (_ <=? 0)%Z; [done|].
  pose proof (rolls Hcalm (base_backoff policy number / 4 + 1) s) as Hr. by destruct (rand_Int63n _ s).
Qed.
Lemma sleep_state d s : sleepListPageRetry d s = (s, Ok tt).
Proof. unfold sleepListPageRetry. destruct (_ <=? 0)%Z; [done|]. apply Hcalm. Qed.
Lemma served_page_of token pages : served token pages → page_of (Ok (Some (page_at token))) = Ok (page_at token).
Proof.
  intros Hs. cbn. destruct Hs as [token Et|token pages Et Hc Hn Hs]; rewrite Et; [done|]. cbn [andb].
  rewrite (proj2 (is_empty_false _) Hn), bool_decide_eq_false_2; [done|]. by destruct (lp_Contents (page_at token)).
Qed.
Lemma page_delivered token pages s :
  served token pages → ∃ s', listPageWithRetry getenv client input token s = (s', Ok (page_at token)).
Proof.
  intros Hs%served_page_of. destruct (recovers Hcalm token s) as (n & Hn & Hr). unfold listPageWithRetry.
  set (m := Z.to_nat _ - 1). assert (n ≤ m) as Hm by (subst m; lia). clearbody m. clear Hn. generalize 1.
  revert n s Hr Hm. induction m as [|m IH]; intros n s Hr Hm number; cbn [list_page_attempts];
    unfold mbind at 1, service_bind at 1; rewrite (permits Hcalm); unfold mbind at 1, service_bind at 1, attempt; destruct n as [|n].
  1, 3: destruct Hr as (s' & ->); rewrite Hs; by exists s'.
  - lia.
  - destruct Hr as (s' & e & -> & He & Hr). cbn [page_of]. rewrite He. unfold mbind at 1, service_bind at 1.
    pose proof (backoff_state (listPageRetryPolicyFromEnv getenv) number s') as Hb. destruct (backoff _ number s') as [s1 delay]. simpl in Hb. subst s1.
    unfold mbind at 1, service_bind at 1. rewrite sleep_state. apply (IH n); [done|lia].
Qed.
Lemma replay_delivered n token pages s :
  served token pages → ∃ s', replay_page getenv n client input token (listPageFingerprint (page_at token)) s = (s', Ok tt).
Proof.
  intros Hs. revert s. induction n as [|n IH]; intros s; cbn [replay_page]; [by exists s|].
  destruct (page_delivered token pages s Hs) as [s1 E]. unfold mbind, service_bind, attempt. rewrite E, String.eqb_refl. apply IH.
Qed.
Lemma pages_delivered fuel bucket once token pages acc s :
  served token pages → length pages ≤ fuel →
  ∃ s', list_pages getenv fuel client input bucket once token acc s = Some (s', ((foldl (appendListPageObjects bucket) acc pages).1, None)).
Proof.
  intros Hs. revert fuel acc s. induction Hs as [token Et|token pages Et Hc Hn Hs IH]; intros [|fuel] acc s; cbn [length list_pages]; try lia; intros Hf.
  - destruct (page_delivered token [page_at token] s (served_last token Et)) as [s1 ->]. rewrite Et. cbn [negb foldl].
    destruct once; [by eexists|]. unfold replayTerminalPage.
    destruct (replay_delivered (Z.to_nat (intEnvOrDefault getenv "SYFON_S3_INVENTORY_TERMINAL_REPLAY_ATTEMPTS" defaultInventoryTerminalReplays 2) - 1)
      token _ s1 (served_last token Et)) as [s2 ->]. by eexists.
  - destruct (page_delivered token _ s (served_more token pages Et Hc Hn Hs)) as [s1 ->]. rewrite Et. cbn [negb foldl].
    rewrite (proj2 (is_empty_false _) Hn). apply IH. lia.
Qed.
End flaky.

Section ends.
Context {S : Type} `{!S3Library S} `{!CredentialLookup S} `{Digests} (getenv : string → string).
Lemma undisturbed_base client input page_at : undisturbed getenv client input page_at → undisturbed (S := S) getenv client (cloneListInput input "") page_at.
Proof.
  intros [Hp Hw Hr Ha]. split; [done..|]. intros token s. destruct (Ha token s) as (n & Hn & Hs). exists n. split; [done|].
  clear Hn. revert s Hs. induction n as [|n IH]; intros s; cbn [answers_after]; [done|]. intros (s' & e & H1 & H2 & H3). exists s', e.
  split; [done|]. split; [done|]. by apply IH.
Qed.
(** C11 Against a service that serves a finite listing, and on each page fails fewer times in a row than there are attempts, a
    listing ends after so many pages as there are, and is complete, with exactly their items. *)
Theorem listing_ends fuel schedule request (b : s3_backend S) client page_at pages :
  ir_IncludeHead request = false →
  getClients (pf_Bucket (ir_Target request)) b = (b, Ok client) →
  undisturbed getenv client (inventory_input request) page_at → served page_at "" pages → length pages ≤ fuel →
  ∃ s', s3_Inventory getenv fuel schedule request b =
        Some (mkS3 (sb_cache b) s', (mkInventoryResult (listed_items (pf_Bucket (ir_Target request)) pages) true, None)).
Proof.
  intros Hhead Hclient Hcalm%undisturbed_base Hserved Hfuel. unfold s3_Inventory. rewrite Hclient, Hhead. cbn [andb].
  assert (∀ s, ∃ s', listPages getenv fuel client (inventory_input request) request s
                     = Some (s', (listed_items (pf_Bucket (ir_Target request)) pages, None))) as Hlist.
  { intros s. unfold listPages.
    destruct (pages_delivered getenv client _ page_at Hcalm fuel (pf_Bucket (ir_Target request)) (ir_MaxKeys request =? 1)%Z "" pages ([], ∅) s Hserved Hfuel)
      as [s' ->]. exists s'. by rewrite append_listed. }
  assert (∀ s, ∃ s', listPagesWithExactProbeRetry getenv fuel client (inventory_input request) request s
                     = Some (s', (listed_items (pf_Bucket (ir_Target request)) pages, None))) as Hprobe.
  { intros s. unfold listPagesWithExactProbeRetry. destruct (_ || _); [apply Hlist|].
    set (n := Z.to_nat _ - 1). clearbody n. generalize 1. revert s. induction n as [|n IH]; intros s number; cbn [exact_attempts];
      destruct (Hlist s) as [s1 ->]; cbn [mbind option_bind]; [by eexists|].
    destruct (bool_decide _ || _); [by eexists|].
    pose proof (backoff_state getenv client _ page_at Hcalm (listPageRetryPolicyFromEnv getenv) number s1) as Hb.
    destruct (backoff _ number s1) as [s2 delay]. simpl in Hb. subst s2. rewrite (sleep_state getenv client _ page_at Hcalm). apply IH. }
  destruct (Hprobe (sb_outside b)) as [s' ->]. by exists s'.
Qed.
End ends.

(** A service that names the same page again and again: the loop does not end, however long one waits. *)
Lemma repeated_page_never_ends {S : Type} `{!S3Library S} `{Digests} getenv client input page bucket once :
  lp_IsTruncated page = true → lp_Contents page ≠ [] → TrimSpace (lp_NextContinuationToken page) ≠ "" →
  (∀ s, s3_acquire s = (s, Ok tt)) → (∀ input s, s3_ListObjects client input s = (s, Ok (Some page))) →
  ∀ fuel token acc s, list_pages getenv fuel client input bucket once token acc s = None.
Proof.
  intros Ht Hc Hn Hp Hl. assert (∀ token s, listPageWithRetry getenv client input token s = (s, Ok page)) as Hpage.
  { intros token s. unfold listPageWithRetry. set (n := Z.to_nat _ - 1). clearbody n.
    destruct n; cbn [list_page_attempts]; unfold mbind at 1, service_bind at 1; rewrite Hp; unfold mbind at 1, service_bind at 1, attempt;
      rewrite Hl; cbn [page_of]; rewrite Ht, (proj2 (is_empty_false _) Hn), bool_decide_eq_false_2; try done; by destruct (lp_Contents page). }
  induction fuel as [|fuel IH]; intros token acc s; [done|]. cbn [list_pages]. rewrite Hpage, Ht. cbn [negb].
  rewrite (proj2 (is_empty_false _) Hn). apply IH.
Qed.

(** ** The time between attempts *)
Lemma doubled_bounds n start maximum :
  (0 <= start < 2 ^ 62)%Z → (0 <= maximum <= 2 ^ 62)%Z → (0 <= doubled n start maximum <= match n with 0%nat => start | _ => maximum end)%Z.
Proof.
  intros Hs Hm. revert start Hs. induction n as [|n IH]; intros start Hs; cbn [doubled]; [lia|].
  rewrite wrap64_id by (unfold int64; lia). cbv zeta. destruct (Z.leb_spec maximum (start * 2)) as [|Hlt]; [lia|].
  specialize (IH (start * 2)%Z ltac:(lia)). destruct n; lia.
Qed.
(** The delay before another attempt is not negative, and beyond the configured maximum by a quarter of it at most, from the
    second retry on; before the first retry the maximum is that of the first delay alone, whatever the configured one is. *)
Theorem backoff_bounded {S : Type} `{!S3Library S} policy number (s : S) :
  (∀ n (s : S), (0 < n)%Z → (0 <= (rand_Int63n n s).2 < n)%Z) →
  (0 <= pl_InitialBackoff policy < 2 ^ 62)%Z → (0 <= pl_MaxBackoff policy <= 2 ^ 62)%Z →
  let limit := if (number <=? 1)%nat then pl_InitialBackoff policy else pl_MaxBackoff policy in
  (0 <= (backoff policy number s).2 <= limit + limit / 4)%Z.
Proof.
  intros Hrand Hi Hm limit. assert (0 <= base_backoff policy number <= limit)%Z as Hb.
  { unfold base_backoff. pose proof (doubled_bounds (number - 1) _ _ Hi Hm) as Hd. subst limit.
    destruct (Nat.leb_spec number 1) as [Hle|Hgt]; [by replace (number - 1) with 0 in * by lia|].
    by destruct (number - 1) eqn:E; [lia|]. }
  assert (limit <= 2 ^ 62)%Z as Hl by (subst limit; destruct (number <=? 1); lia).
  unfold backoff. set (base := base_backoff policy number) in *.
  assert (0 <= limit / 4)%Z as Hl0 by (apply Z.div_pos; lia).
  assert (base / 4 <= limit / 4)%Z as Hq by (apply Z.div_le_mono; lia).
  clearbody limit base. destruct (Z.leb_spec base 0); [cbn [snd]; lia|]. cbv zeta. destruct (Z.leb_spec (base / 4) 0); [cbn [snd]; lia|].
  specialize (Hrand (base / 4 + 1)%Z s ltac:(lia)). destruct (rand_Int63n _ s) as [s1 jitter]. cbn [snd] in *.
  assert (limit / 4 <= 2 ^ 60)%Z as Hq2 by (apply Z.div_le_upper_bound; lia). rewrite wrap64_id; unfold int64; lia.
Qed.

(** ** Deletion *)
(** What the service documents: up to 1000 keys in a request, all gone when it reports no failure. *)
Class S3Laws {S : Type} `{!S3Library S} (view : S → gset (string * string)) := {
  objects_deleted : ∀ client bucket keys s s', length keys ≤ 1000 → s3_DeleteObjects client bucket keys s = (s', Ok []) →
    view s' = view s ∖ list_to_set (pair bucket <$> keys);
  object_deleted : ∀ client bucket key s s', s3_DeleteObject client bucket key s = (s', Ok tt) → view s' = view s ∖ {[(bucket, key)]} }.
(** The object that a target names; none without a bucket or a key. *)
Definition named_object (target : PhysicalTarget) : option (string * string) :=
  let bucket := TrimSpace (ph_Bucket target) in
  let key := TrimSpace (Trim (TrimSpace (ph_Key target)) "/") in
  if is_empty bucket || is_empty key then None else Some (bucket, key).
Section deletion.
Context {S : Type} `{!S3Library S} `{!CredentialLookup S} (view : S → gset (string * string)) `{!S3Laws view}.
Implicit Types b : s3_backend S.
Local Abbreviation objects b := (view (sb_outside b)).
Lemma in_turn_removes {A} (f : A → service (s3_backend S) unit) (removed : A → gset (string * string)) l b b' :
  (∀ a b b', a ∈ l → f a b = (b', Ok tt) → objects b' = objects b ∖ removed a) →
  in_turn f l b = (b', Ok tt) → objects b' = objects b ∖ ⋃ (removed <$> l).
Proof.
  revert b. induction l as [|a l IH]; intros b Hf; cbn [in_turn fmap list_fmap union_list foldr].
  { intros [= <-]. cbn. set_solver. }
  intros (b1 & [] & Ha%Hf & Hrest)%service_bind_Ok; [|by left]. rewrite (IH b1); [|intros ????; apply Hf; by right|done].
  rewrite Ha. cbn. set_solver.
Qed.
Lemma getClients_objects bucket b b' client : getClients bucket b = (b', Ok client) → sb_outside b' = sb_outside b.
Proof.
  unfold getClients. destruct (sb_cache b !! bucket); [by intros [= <- _]|].
  destruct (lookup_GetS3Credential _ _) as [[cred|]|]; [|done|done]. destruct (s3_LoadDefaultConfig _); [done|]. by intros [= <- _].
Qed.
Lemma outside_s3_Ok {A} (m : service S A) b b' a : outside_s3 m b = (b', Ok a) → m (sb_outside b) = (sb_outside b', Ok a).
Proof. unfold outside_s3. destruct (m (sb_outside b)) as [s r]. by intros [= <- ->]. Qed.
Lemma union_chunks bucket (chunks : list (list string)) :
  ⋃ ((λ chunk, list_to_set (pair bucket <$> chunk)) <$> chunks) =@{gset (string * string)} list_to_set (pair bucket <$> concat chunks).
Proof.
  induction chunks as [|chunk chunks IH]; [done|].
  rewrite fmap_cons. cbn [union_list foldr concat]. rewrite fmap_app, list_to_set_app_L. f_equal. exact IH.
Qed.
Lemma deleteBucket_removes bucket keys b b' :
  deleteBucket bucket keys b = (b', Ok tt) → objects b' = objects b ∖ list_to_set (pair bucket <$> keys).
Proof.
  destruct keys as [|key [|key2 keys]]; cbn [deleteBucket].
  - intros [= <-]. cbn. set_solver.
  - intros (b1 & client & Hc%getClients_objects & Hd%outside_s3_Ok%object_deleted)%service_bind_Ok. rewrite Hd, Hc. cbn. set_solver.
  - intros (b1 & client & <-%getClients_objects & Hd)%service_bind_Ok. set (all := key :: key2 :: keys) in *.
    apply (in_turn_removes _ (λ chunk, list_to_set (pair bucket <$> chunk))) in Hd as ->.
    + assert (concat (chunks_of (length all) maxDeleteObjects all) = all) as Hall by (apply chunks_of_concat; unfold maxDeleteObjects; lia).
      by rewrite union_chunks, Hall.
    + intros chunk c c' Hin Hrun. apply elem_of_chunks_of in Hin as [Hl _]. unfold delete_batch in Hrun.
      apply service_bind_Ok in Hrun as (c1 & failures & Ho%outside_s3_Ok & Hr). destruct failures; [|done]. injection Hr as <-.
      apply (objects_deleted _ _ _ _ _) in Ho; [done|]. change maxDeleteObjects with 1000 in Hl. done.
Qed.
Definition bucket_keys (bucket : string) (targets : list PhysicalTarget) : list string :=
  omap (λ t, let key := Trim (TrimSpace (ph_Key t)) "/" in
             if is_empty (TrimSpace (ph_Bucket t)) || is_empty key || negb (String.eqb (TrimSpace (ph_Bucket t)) bucket) then None else Some key) targets.
Lemma grouped bucket targets m :
  default [] (foldl group_target m targets !! bucket) = default [] (m !! bucket) ++ bucket_keys bucket targets.
Proof.
  revert m. induction targets as [|t targets IH]; intros m; cbn [foldl bucket_keys omap list_omap]; [by rewrite app_nil_r|].
  rewrite IH. unfold group_target. cbv zeta. fold (bucket_keys bucket targets).
  destruct (is_empty _ || is_empty _); cbn [orb]; [done|].
  destruct (String.eqb_spec (TrimSpace (ph_Bucket t)) bucket) as [->|Hne]; cbn [negb].
  - rewrite lookup_insert_eq. cbn [default from_option id]. by rewrite <- app_assoc.
  - by rewrite lookup_insert_ne.
Qed.
Lemma elem_of_dedupeSorted values v : v ∈ dedupeSorted values ↔ v ≠ "" ∧ ∃ value, value ∈ values ∧ TrimSpace value = v.
Proof.
  unfold dedupeSorted. rewrite elem_of_sort_Strings, elem_of_dedup, list_elem_of_filter, list_elem_of_fmap. naive_solver.
Qed.
End deletion.

(** ** Executions *)
Section sample.
#[local] Instance s3_digests : Digests := {| sha256_hex := λ s, s; uuid_NewSHA1 := λ s, s |}.
(** A service that answers every other request for a page, and forgets nothing. *)
Record s3_world := mkS3World { sw_calls : nat; sw_objects : gset (string * string) }.
Definition sample_object (key : string) (size : Z) : listed_object := mkListed key size ("e" +:+ key) None.
Definition sample_page (token : string) : list_page :=
  if is_empty (TrimSpace token) then mkPage [sample_object "run/a" 1; sample_object "run/b" 2] true " t1 "
  else mkPage [sample_object "run/b" 2; sample_object "run/c/" 0] false "".
Definition slow_down : error := EText "SlowDown".
Definition even_list (_ : s3_client) (input : list_input) : service s3_world (option list_page) := λ s,
  (mkS3World (Datatypes.S (sw_calls s)) (sw_objects s),
   if Nat.even (sw_calls s) then Err slow_down else Ok (Some (sample_page (default "" (li_ContinuationToken input))))).
#[local] Instance sample_s3 : S3Library s3_world := {|
  s3_LoadDefaultConfig _ := None; s3_ListObjects := even_list; s3_HeadObject _ _ _ := mret None;
  s3_DeleteObject _ bucket key s := (mkS3World (sw_calls s) (sw_objects s ∖ {[(bucket, key)]}), Ok tt);
  s3_DeleteObjects _ bucket keys s := (mkS3World (sw_calls s) (sw_objects s ∖ list_to_set (pair bucket <$> keys)), Ok []);
  s3_CreateMultipartUpload _ _ _ := mret ""; s3_CompleteMultipartUpload _ _ _ _ _ := mret tt; s3_Presign _ _ _ := Ok "";
  s3_acquire := mret tt; s3_wait _ := mret tt; rand_Int63n _ s := (s, 0%Z);
  api_ErrorCode e := match e with EText m => Some m | _ => None end; is_EOF _ := false; is_Timeout _ := false; error_text _ := "" |}.
#[local] Instance s3_credentials : CredentialLookup s3_world := λ bucket _, Ok (Some (mkCredential bucket bucket "s3" "r" "a" "s" "minio:9000")).
#[local] Instance s3_laws : S3Laws sw_objects.
Proof. split; [by intros client bucket keys s s' _ [= <-]|by intros client bucket key s s' [= <-]]. Qed.
Definition no_env (name : string) : string := "".
Definition sample_client : s3_client := mkS3Client "r" "a" "s" (Some "https://minio:9000") true.
Definition sample_backend (objects : gset (string * string)) : s3_backend s3_world := mkS3 {["b" := sample_client]} (mkS3World 0 objects).
Definition sample_inventory : InventoryRequest := mkInventoryRequest (mkPrefixTarget "b" "run") false false 0.
Lemma sample_undisturbed : undisturbed no_env sample_client (inventory_input sample_inventory) sample_page.
Proof.
  split; [done..|]. intros token s.
  assert (sample_page (default "" (li_ContinuationToken (cloneListInput (inventory_input sample_inventory) token))) = sample_page token) as Ht.
  { unfold cloneListInput. cbn. unfold sample_page. by destruct (is_empty (TrimSpace token)) eqn:E; cbn [default from_option id]; rewrite ?TrimSpace_nil, ?E. }
  exists (if Nat.even (sw_calls s) then 1 else 0). 
  assert (Z.to_nat (pl_MaxAttempts (listPageRetryPolicyFromEnv no_env)) = 12) as -> by by vm_compute.
  split; [destruct (Nat.even (sw_calls s)); lia|].
  destruct (Nat.even (sw_calls s)) eqn:Es; cbn [answers_after s3_ListObjects sample_s3 even_list]; unfold even_list; rewrite Es, ?Ht.
  - eexists _, slow_down. split; [reflexivity|]. split; [reflexivity|]. cbn [sw_calls]. rewrite Nat.even_succ, <- Nat.negb_even, Es. by eexists.
  - by eexists.
Qed.
Lemma sample_served : served sample_page "" [sample_page ""; sample_page "t1"].
Proof. apply served_more; [done|done|done|]. apply (served_last sample_page "t1"). done. Qed.
Lemma listing_ends_witness :
  ∃ s', s3_Inventory no_env 2 (λ _, []) sample_inventory (sample_backend ∅)
    = Some (mkS3 {["b" := sample_client]} s', (mkInventoryResult (listed_items "b" [sample_page ""; sample_page "t1"]) true, None)).
Proof.
  apply (listing_ends no_env 2 (λ _, []) sample_inventory (sample_backend ∅) sample_client sample_page [sample_page ""; sample_page "t1"]).
  - reflexivity.
  - reflexivity.
  - exact sample_undisturbed.
  - exact sample_served.
  - vm_compute. lia.
Defined.
Lemma backoff_bounded_witness :
  (0 <= (backoff (listPageRetryPolicyFromEnv no_env) 6 (mkS3World 0 ∅)).2 <= 10 * 10 ^ 9 + 10 * 10 ^ 9 / 4)%Z ∧
  (backoff (listPageRetryPolicyFromEnv no_env) 6 (mkS3World 0 ∅)).2 = (10 * 10 ^ 9)%Z.
Proof.
  split; [|vm_compute; reflexivity].
  apply (backoff_bounded (listPageRetryPolicyFromEnv no_env) 6 (mkS3World 0 ∅)).
  - intros n s Hn. cbn. lia.
  - vm_compute. split; [discriminate|reflexivity].
  - vm_compute. split; discriminate.
Defined.
(** The listing of the sample: the key that comes twice once, and the folder marker as an object. *)
Example marker_listed : (om_Key <$> listed_items "b" [sample_page ""; sample_page "t1"]) = ["run/a"; "run/b"; "run/c"].
Proof. by vm_compute. Qed.
Definition listed_keys (r : option (s3_backend s3_world * (InventoryResult * option error))) : option (bool * list string) :=
  match r with Some (_, (result, _)) => Some (iv_Complete result, om_Key <$> iv_Items result) | None => None end.
Definition target (key : string) : PhysicalTarget := mkPhysical "s3" "b" key "".
Definition stored : gset (string * string) := {[("b", "a"); ("b", " a"); ("b", "c")]}.
(** An object whose name starts with a blank: another one is deleted in its place. *)
Example other_object_deleted :
  let after := sw_objects (sb_outside (s3_Delete [target "/ a"] (sample_backend stored)).1) in
  bool_decide (("b", "a") ∈ after) = false ∧ bool_decide (("b", " a") ∈ after) = true.
Proof. by vm_compute. Qed.
End sample.
