(* ===== verification/Azure.v ===== *)
(** * The Azure backend: internal/storage/azure
    Parts are blocks of the blob itself, named by the upload and their number; completing an upload commits the list of blocks.
    Addresses are signed with the shared key of the account.  The client library is a class of operations on a state. *)
From S2P Require Import Prelude GoStrings GoURL Errors Resources Policy Objects ContentReads Address Buckets Targets StorageManager Attribution Disposition ObjectStores.
#[local] Set Warnings "-automation".

(** ** encoding/base64: StdEncoding *)
Definition base64_char (n : nat) : Ascii.ascii :=
  Ascii.ascii_of_nat (if n <? 26 then 65 + n else if n <? 52 then 71 + n else if n <? 62 then n - 4 else if n =? 62 then 43 else 47).
Fixpoint base64_EncodeToString (l : list Ascii.ascii) : string :=
  match l with
  | [] => ""
  | [a] =>
      let a := Ascii.nat_of_ascii a in
      String (base64_char (a / 4)) (String (base64_char (a mod 4 * 16)) "==")
  | [a; b] =>
      let '(a, b) := (Ascii.nat_of_ascii a, Ascii.nat_of_ascii b) in
      String (base64_char (a / 4)) (String (base64_char (a mod 4 * 16 + b / 16)) (String (base64_char (b mod 16 * 4)) "="))
  | a :: b :: c :: l =>
      let '(a, b, c) := (Ascii.nat_of_ascii a, Ascii.nat_of_ascii b, Ascii.nat_of_ascii c) in
      String (base64_char (a / 4)) (String (base64_char (a mod 4 * 16 + b / 16))
        (String (base64_char (b mod 16 * 4 + c / 64)) (String (base64_char (c mod 64)) (base64_EncodeToString l))))
  end.

(** ** Names and addresses *)
(** The verb %08d: zeros between the sign and the digits. *)
Definition eight_digits (z : Z) : string := if (z <? 0)%Z then "-" +:+ pad 7 (- z) else pad 8 z.
Definition azureBlockID (uploadID : string) (partNumber : Z) : string :=
  base64_EncodeToString (chars (TrimSpace uploadID +:+ ":" +:+ eight_digits partNumber)).
Definition azureBlobURL (serviceURL bucket key : string) : string :=
  let base := TrimRight (TrimSpace serviceURL) "/" in
  let cleanKey := Trim (TrimSpace key) "/" in
  if is_empty cleanKey then base +:+ "/" +:+ PathEscape bucket
  else base +:+ "/" +:+ PathEscape bucket +:+ "/" +:+ Join (PathEscape <$> filter (.≠ "") (Split slash cleanKey)) "/".
Definition azure_scheme (ep : string) : string := if HasPrefix ep "http://" || HasPrefix ep "https://" then ep else "https://" +:+ ep.
Definition azureServiceURL (accountName endpoint : string) : string :=
  let ep := TrimSpace endpoint in
  if is_empty ep then "https://" +:+ TrimSpace accountName +:+ ".blob.db.windows.net" else TrimRight (azure_scheme ep) "/".
Definition azureDeleteServiceURL (accountName endpoint : string) : string :=
  let ep := TrimSpace endpoint in
  if is_empty ep then "https://" +:+ TrimSpace accountName +:+ ".blob.core.windows.net" else TrimRight (azure_scheme ep) "/".
Definition azureAccountFromEndpoint (endpoint : string) : string :=
  let ep := TrimSpace endpoint in
  if is_empty ep then ""
  else
    match url_Parse (azure_scheme ep) with
    | None => ""
    | Some u => let host := TrimSpace (url_Hostname (url_Host u)) in if is_empty host then "" else default "" (head (Split dot host))
    end.
(** Plain HTTP is allowed beside HTTPS for an HTTP service. *)
Inductive sas_protocol := ProtocolHTTPS | ProtocolHTTPSandHTTP.
Definition azureSASProtocol (serviceURL : string) : sas_protocol :=
  match url_Parse (TrimSpace serviceURL) with
  | Some u => if EqualFold (TrimSpace (url_Scheme u)) "http" then ProtocolHTTPSandHTTP else ProtocolHTTPS
  | None => ProtocolHTTPS
  end.

(** ** The client library *)
Inductive sas_permissions := PermissionRead | PermissionAddCreateWrite.
Record BlobSignatureValues := mkSignatureValues {
  bsv_Protocol : sas_protocol; bsv_StartTime : Z; bsv_ExpiryTime : Z; bsv_Permissions : sas_permissions;
  bsv_ContainerName : string; bsv_BlobName : string; bsv_ContentDisposition : string }.
(** Keys, signing (the encoded query), clients for an address, the commit of a list of blocks, the deletion of a blob, and the
    tests by which an error means that there is no blob. *)
Class AzureLibrary (S K : Type) := {
  NewSharedKeyCredential : string → string → result error K;
  azure_Now : S → Z;
  SignWithSharedKey : BlobSignatureValues → K → result error string;
  NewBlockBlobClient : string → K → result error unit;
  azure_CommitBlockList : string → K → list string → service S unit;
  NewAzureClient : string → K → result error unit;
  azure_DeleteBlob : string → K → string → string → service S unit;
  bloberror_NotFound : error → bool;
  azure_ErrorCode : error → option string;
  azure_NewString : S → S * string }.
Record azureCreds (K : Type) := mkAzureCreds { az_SharedKey : K; az_ServiceURL : string; az_DeleteServiceURL : string }.
Arguments mkAzureCreds {K}.
Arguments az_SharedKey {K}.
Arguments az_ServiceURL {K}.
Arguments az_DeleteServiceURL {K}.

(** ** The backend *)
Section azure.
Context {S K : Type} `{!AzureLibrary S K} `{!CredentialLookup S}.
Record azure_backend := mkAzure { ab_cache : gmap string (azureCreds K); ab_outside : S }.
Local Abbreviation M A := (service azure_backend A).
Definition outside_azure {A} (m : service S A) : M A := λ b, let '(s, r) := m (ab_outside b) in (mkAzure (ab_cache b) s, r).
Definition azure_InvalidateBucket (bucket : string) (b : azure_backend) : azure_backend :=
  let bucket := TrimSpace bucket in
  if is_empty bucket then b else mkAzure (delete bucket (ab_cache b)) (ab_outside b).
Definition azure_creds (bucket : string) (cred : Credential) : result error (azureCreds K) :=
  let accountName := let name := TrimSpace (c_AccessKey cred) in if is_empty name then azureAccountFromEndpoint (c_Endpoint cred) else name in
  let accountKey := TrimSpace (c_SecretKey cred) in
  if is_empty accountName || is_empty accountKey then Err (EText ("azure signing requires shared key credentials for bucket " +:+ bucket))
  else
    match NewSharedKeyCredential accountName accountKey with
    | Err e => Err (EWrap "failed to parse azure shared key: %w" e)
    | Ok shared => Ok (mkAzureCreds shared (azureServiceURL accountName (c_Endpoint cred)) (azureDeleteServiceURL accountName (c_Endpoint cred)))
    end.
Definition getCreds (bucket : string) : M (azureCreds K) := λ b,
  match ab_cache b !! bucket with
  | Some value => (b, Ok value)
  | None =>
      match lookup_GetS3Credential bucket (ab_outside b) with
      | Err e => (b, Err e)
      | Ok None => (b, Err (EText ("credentials not found for bucket " +:+ bucket)))
      | Ok (Some cred) =>
          match azure_creds bucket cred with
          | Err e => (b, Err e)
          | Ok value => (mkAzure (<[bucket := value]> (ab_cache b)) (ab_outside b), Ok value)
          end
      end
  end.
(** The range comes along without effect. *)
Definition azureSignedURL (serviceURL bucketName key method : string) (expiry : Z) (rangeStr downloadName : string) (sharedKey : K)
    (s : S) : result error string :=
  let now := azure_Now s in
  match SignWithSharedKey
          (mkSignatureValues (azureSASProtocol serviceURL) (now - 5 * 60 * 10 ^ 9) (now + expiry)
             (if String.eqb method "PUT" then PermissionAddCreateWrite else PermissionRead)
             bucketName (Trim (TrimSpace key) "/") (ContentDispositionAttachment downloadName)) sharedKey with
  | Err e => Err e
  | Ok query => Ok (azureBlobURL serviceURL bucketName key +:+ "?" +:+ query)
  end.
Definition azure_expiry (options : AccessOptions) : Z :=
  if (0 <? ao_ExpiresIn options)%Z then ao_ExpiresIn options else (15 * 60 * 10 ^ 9)%Z.
Definition azure_SignURL (target : ObjectTarget) (options : AccessOptions) : M string :=
  creds ← getCreds (ot_Bucket target);
  let method := if is_empty (ao_Method options) then "GET" else ao_Method options in
  outside_azure (ask (azureSignedURL (az_ServiceURL creds) (ot_Bucket target) (ot_Key target) method (azure_expiry options) ""
                        (ao_DownloadFilename options) (az_SharedKey creds))).
Definition azure_SignDownloadPart (target : ObjectTarget) (range : ByteRange) (options : AccessOptions) : M string :=
  creds ← getCreds (ot_Bucket target);
  let rangeStr := "bytes=" +:+ pretty (br_Start range) +:+ "-" +:+ pretty (br_End range) in
  outside_azure (ask (azureSignedURL (az_ServiceURL creds) (ot_Bucket target) (ot_Key target) "GET" (azure_expiry options) rangeStr
                        (ao_DownloadFilename options) (az_SharedKey creds))).
Definition azure_InitMultipartUpload (_ : ObjectTarget) : M string := outside_azure (λ s, let '(s, id) := azure_NewString s in (s, Ok id)).
Definition with_query (u : FullURL) (query : string) : FullURL :=
  mkFullURL (fu_Scheme u) (fu_Opaque u) (fu_User u) (fu_Host u) (fu_OmitHost u) (fu_Path u) (fu_RawPath u) (fu_ForceQuery u) query (fu_Fragment u) (fu_RawFragment u).
(** The address of a blob becomes that of a block. *)
Definition block_address (signed blockID : string) : result error string :=
  match full_Parse signed with
  | None => Err (EText "parse %q: invalid URL")
  | Some u => Ok (url_String (with_query u (values_Encode (values_Set "blockid" blockID (values_Set "comp" "block" (ParseQuery (fu_RawQuery u)))))))
  end.
Definition azure_SignMultipartPart (request : MultipartPartRequest) : M string :=
  let target := mpr_Target request in
  creds ← getCreds (ot_Bucket target);
  signed ← outside_azure (ask (azureSignedURL (az_ServiceURL creds) (ot_Bucket target) (ot_Key target) "PUT" (15 * 60 * 10 ^ 9)%Z "" "" (az_SharedKey creds)));
  match block_address signed (azureBlockID (mpr_UploadID request) (mpr_PartNumber request)) with Ok url => mret url | Err e => fail e end.
Definition azure_CompleteMultipartUpload (request : CompleteMultipartRequest) : M unit :=
  let target := cmr_Target request in
  creds ← getCreds (ot_Bucket target);
  let blobURL := azureBlobURL (az_ServiceURL creds) (ot_Bucket target) (ot_Key target) in
  match NewBlockBlobClient blobURL (az_SharedKey creds) with
  | Err e => fail (EWrap "failed to create azure block blob client: %w" e)
  | Ok _ =>
      let blockIDs := (λ part, azureBlockID (cmr_UploadID request) (cp_PartNumber part)) <$> NormalizedMultipartParts (cmr_Parts request) in
      failing "failed to complete azure multipart upload: %w" (outside_azure (azure_CommitBlockList blobURL (az_SharedKey creds) blockIDs))
  end.
Definition azure_delete_target (target : PhysicalTarget) : M unit :=
  creds ← failing "lookup azure credential for bucket %s: %w" (getCreds (ph_Bucket target));
  match NewAzureClient (az_DeleteServiceURL creds) (az_SharedKey creds) with
  | Err e => fail (EWrap "create azure client: %w" e)
  | Ok _ =>
      deleted ← attempt (outside_azure (azure_DeleteBlob (az_DeleteServiceURL creds) (az_SharedKey creds) (ph_Bucket target) (ph_Key target)));
      match deleted with
      | Ok _ => mret tt
      | Err e => if bloberror_NotFound e || from_option (λ code, EqualFold code "BlobNotFound") false (azure_ErrorCode e) then mret tt else fail e
      end
  end.
Definition azure_DeleteTargets (targets : list PhysicalTarget) : M unit := in_turn azure_delete_target targets.
Definition azure_New : Registration azure_backend :=
  mkRegistration AzureProvider
    (Some (mkCompleteBackend azure_backend azure_SignURL azure_SignDownloadPart azure_InitMultipartUpload azure_SignMultipartPart azure_CompleteMultipartUpload))
    (Some azure_InvalidateBucket) None None (Some azure_DeleteTargets).
End azure.

(** * What the Azure backend promises
    Blocks of different parts have different names of the same length, and a completed upload is its parts in order. *)
From Stdlib Require Import ZifyNat.
From S2P Require Import Paths ObjectStoreProperties.
(** ** The names of blocks *)
Lemma base64_char_inj n m : n < 64 → m < 64 → base64_char n = base64_char m → n = m.
Proof.
  intros Hn Hm E.
  assert (forallb (λ n, forallb (λ m, implb (Ascii.eqb (base64_char n) (base64_char m)) (n =? m)) (seq 0 64)) (seq 0 64) = true) as H by (vm_compute; reflexivity).
  rewrite forallb_forall in H. specialize (H n). rewrite in_seq in H. specialize (H ltac:(lia)).
  rewrite forallb_forall in H. specialize (H m). rewrite in_seq in H. specialize (H ltac:(lia)).
  rewrite E, Ascii.eqb_refl in H. by apply Nat.eqb_eq.
Qed.
Lemma base64_char_sign n : n < 64 → base64_char n ≠ Ascii.ascii_of_nat 61.
Proof.
  intros Hn E. assert (forallb (λ n, negb (Ascii.eqb (base64_char n) (Ascii.ascii_of_nat 61))) (seq 0 64) = true) as H by (vm_compute; reflexivity).
  rewrite forallb_forall in H. specialize (H n). rewrite in_seq in H. specialize (H ltac:(lia)). by rewrite E in H.
Qed.
Lemma nat_of_ascii_inj a b : Ascii.nat_of_ascii a = Ascii.nat_of_ascii b → a = b.
Proof. intros E. by rewrite <- (Ascii.ascii_nat_embedding a), E, Ascii.ascii_nat_embedding. Qed.
Lemma three_bytes (P : list Ascii.ascii → Prop) : P [] → (∀ a, P [a]) → (∀ a b, P [a; b]) → (∀ a b c l, P l → P (a :: b :: c :: l)) → ∀ l, P l.
Proof.
  intros H0 H1 H2 H3 l. induction l as [l IH] using (well_founded_induction (well_founded_ltof _ (@length Ascii.ascii))). unfold ltof in IH.
  destruct l as [|a [|b [|c l]]]; [done..|]. apply H3, IH. cbn. lia.
Qed.
Lemma base64_length l : String.length (base64_EncodeToString l) = 4 * ((length l + 2) / 3).
Proof.
  induction l as [| | |a b c l IH] using three_bytes; [done..|]. cbn [base64_EncodeToString String.length length]. rewrite IH.
  replace (S (S (S (length l))) + 2) with (length l + 2 + 1 * 3) by lia. rewrite Nat.div_add by lia. lia.
Qed.
Lemma String_inv a b s t : String a s = String b t → a = b ∧ s = t.
Proof. by intros [= -> ->]. Qed.
Ltac base64_digits :=
  repeat match goal with
  | H : String _ _ = String _ _ |- _ => apply String_inv in H as [? H]
  | H : base64_char _ = base64_char _ |- _ => apply base64_char_inj in H; [|lia..]
  | H : base64_char ?n = _ |- _ => exfalso; apply (base64_char_sign n); [lia|exact H]
  | H : _ = base64_char ?n |- _ => exfalso; apply (base64_char_sign n); [lia|symmetry; exact H]
  end.
Lemma base64_bound a : Ascii.nat_of_ascii a < 256.
Proof. apply Ascii.nat_ascii_bounded. Qed.
#[export] Instance base64_inj : Inj (=) (=) base64_EncodeToString.
Proof.
  intros l. induction l as [|a|a b|a b c l IH] using three_bytes; intros [|x [|y [|z k]]]; cbn [base64_EncodeToString]; intros E; try discriminate E; try done.
  all: try pose proof (base64_bound a); try pose proof (base64_bound b); try pose proof (base64_bound c);
    try pose proof (base64_bound x); try pose proof (base64_bound y); try pose proof (base64_bound z).
  all: base64_digits.
  all: repeat match goal with |- _ :: _ = _ :: _ => f_equal end; try (apply nat_of_ascii_inj; lia).
  by apply IH.
Qed.
Lemma decimal_pretty_go x s : decimal 0 (pretty_N_go x s) = decimal (Z.of_N x) s.
Proof.
  revert s. induction (N.lt_wf_0 x) as [x _ IH]. intros s. destruct (decide (x = 0)%N) as [->|Hx]; [by rewrite pretty_N_go_0|].
  rewrite pretty_N_go_step by lia. rewrite IH by (apply N.div_lt; lia). cbn [decimal].
  assert (decimal_digit (pretty_N_char (x `mod` 10)) = Some (Z.of_N (x `mod` 10))) as ->.
  { assert (x `mod` 10 < 10)%N as Hd by (apply N.mod_lt; lia). destruct (x `mod` 10)%N as [|p]; [done|]. do 4 (destruct p as [p|p|]; try done; try lia). }
  cbn [mbind option_bind]. f_equal. lia.
Qed.
Lemma decimal_pretty n : (0 <= n)%Z → decimal 0 (pretty n) = Some n.
Proof.
  intros Hn. destruct n as [|p|p]; [done| |lia]. change (pretty (Z.pos p)) with (pretty (N.pos p)). unfold pretty, pretty_N. rewrite decide_False by done.
  by rewrite decimal_pretty_go.
Qed.
Lemma decimal_zeros k s : decimal 0 (Join (replicate k "0") "" +:+ s) = decimal 0 s.
Proof.
  induction k as [|k IH]; [by rewrite string_app_nil_l|]. destruct k as [|k]; [done|].
  cbn [replicate] in *. rewrite Join_cons, string_app_nil_l by done. exact IH.
Qed.
Lemma eight_digits_value n : (0 <= n)%Z → decimal 0 (eight_digits n) = Some n.
Proof. intros Hn. unfold eight_digits, pad. rewrite (proj2 (Z.ltb_ge n 0)) by done. cbv zeta. by rewrite decimal_zeros, decimal_pretty. Qed.
Lemma pretty_go_length k x s : (x < 10 ^ N.of_nat k)%N → String.length (pretty_N_go x s) ≤ k + String.length s.
Proof.
  revert x s. induction k as [|k IH]; intros x s Hx.
  - assert (x = 0)%N as -> by (simpl in Hx; lia). by rewrite pretty_N_go_0.
  - destruct (decide (x = 0)%N) as [->|Hne]; [rewrite pretty_N_go_0; lia|]. rewrite pretty_N_go_step by lia.
    rewrite (IH (x `div` 10)%N); [cbn [String.length]; lia|]. rewrite Nat2N.inj_succ, N.pow_succ_r in Hx by lia. apply N.Div0.div_lt_upper_bound. lia.
Qed.
Lemma zeros_length k : String.length (Join (replicate k "0") "") = k.
Proof.
  induction k as [|k IH]; [done|]. destruct k as [|k]; [done|]. cbn [replicate] in *.
  rewrite Join_cons, !string_length_app, IH by done. done.
Qed.
Lemma eight_digits_length n : (0 <= n < 10 ^ 8)%Z → String.length (eight_digits n) = 8.
Proof.
  intros [Hn Hlt]. unfold eight_digits, pad. rewrite (proj2 (Z.ltb_ge n 0)) by done. cbv zeta. rewrite string_length_app, zeros_length.
  enough (String.length (pretty n) ≤ 8) by lia. destruct n as [|p|p]; [cbn; lia| |lia].
  change (pretty (Z.pos p)) with (pretty (N.pos p)). unfold pretty, pretty_N. rewrite decide_False by done.
  rewrite (pretty_go_length 8); [cbn; lia|]. change (10 ^ N.of_nat 8)%N with (10 ^ 8)%N. lia.
Qed.
(** The blocks of different parts are different. *)
Lemma block_id_inj uploadID n m : (0 <= n)%Z → (0 <= m)%Z → azureBlockID uploadID n = azureBlockID uploadID m → n = m.
Proof.
  intros Hn Hm E%(inj base64_EncodeToString)%chars_inj%string_app_inv_l%string_app_inv_l.
  apply (f_equal (decimal 0)) in E. rewrite !eight_digits_value in E by done. by injection E.
Qed.
(** The service wants the names of all blocks of a blob to be equally long. *)
Lemma block_id_length uploadID n m :
  (0 <= n < 10 ^ 8)%Z → (0 <= m < 10 ^ 8)%Z → String.length (azureBlockID uploadID n) = String.length (azureBlockID uploadID m).
Proof.
  intros Hn Hm. unfold azureBlockID. rewrite !base64_length. f_equal. f_equal. f_equal.
  assert (∀ s, length (chars s) = String.length s) as Hl by (intros s; induction s; [done|by cbn; f_equal]).
  by rewrite !Hl, !string_length_app, !eight_digits_length.
Qed.

(** ** Uploads *)
(** What the service documents: a commit that succeeds has joined blocks that are staged for the blob; the names of the blocks
    of a blob are equally long. *)
Class AzureLaws {S K : Type} `{!AzureLibrary S K} (staged : S → gmap (string * string) content) (blobs : S → gmap string content) := {
  commit_joins : ∀ url key ids s s', azure_CommitBlockList url key ids s = (s', Ok tt) →
    (∀ id id', id ∈ ids → id' ∈ ids → String.length id = String.length id') →
    ∃ contents, mapM (λ id, staged s !! (url, id)) ids = Some contents ∧ blobs s' = <[url := concat contents]> (blobs s) }.
Section uploads.
Context {S K : Type} `{!AzureLibrary S K} `{!CredentialLookup S}.
Context (staged : S → gmap (string * string) content) (blobs : S → gmap string content) `{!AzureLaws staged blobs}.
Implicit Types b : @azure_backend S K.
Lemma getCreds_outside bucket b b' creds : getCreds bucket b = (b', Ok creds) → ab_outside b' = ab_outside b.
Proof.
  unfold getCreds. destruct (ab_cache b !! bucket); [by intros [= <- _]|]. destruct (lookup_GetS3Credential _ _) as [[cred|]|]; [|done..].
  destruct (azure_creds bucket cred); [|done]. by intros [= <- _].
Qed.
Lemma outside_azure_Ok {A} (m : service S A) b b' a : outside_azure m b = (b', Ok a) → m (ab_outside b) = (ab_outside b', Ok a).
Proof. unfold outside_azure. destruct (m (ab_outside b)) as [s r]. by intros [= <- ->]. Qed.
Lemma mapM_compose {A B C} (f : B → option C) (g : A → B) l : mapM f (g <$> l) = mapM (f ∘ g) l.
Proof. induction l as [|a l IH]; [done|]. cbn. by rewrite IH. Qed.
(** C15 A multipart upload that completes on Azure leaves under the address of the blob the contents of the blocks staged for its
    parts, in the order of their numbers, and changes no other blob; the blocks of different parts are different. *)
Theorem azure_upload_assembled request b b' :
  Forall (λ part, (0 <= cp_PartNumber part < 10 ^ 8)%Z) (cmr_Parts request) →
  azure_CompleteMultipartUpload request b = (b', Ok tt) →
  let id part := azureBlockID (cmr_UploadID request) (cp_PartNumber part) in
  ∃ service parts contents,
    let url := azureBlobURL service (ot_Bucket (cmr_Target request)) (ot_Key (cmr_Target request)) in
    parts ≡ₚ cmr_Parts request ∧ StronglySorted (λ p q, (cp_PartNumber p <= cp_PartNumber q)%Z) parts ∧
    (∀ p q, p ∈ parts → q ∈ parts → id p = id q → cp_PartNumber p = cp_PartNumber q) ∧
    mapM (λ part, staged (ab_outside b) !! (url, id part)) parts = Some contents ∧
    blobs (ab_outside b') = <[url := concat contents]> (blobs (ab_outside b)).
Proof.
  intros Hnumbers Hrun id. unfold azure_CompleteMultipartUpload in Hrun.
  apply service_bind_Ok in Hrun as (b1 & creds & Hc%getCreds_outside & Hrun).
  destruct (NewBlockBlobClient _ _); [|done]. apply failing_Ok, outside_azure_Ok in Hrun. rewrite Hc in Hrun.
  set (parts := NormalizedMultipartParts (cmr_Parts request)) in *. fold id in Hrun.
  assert (parts ≡ₚ cmr_Parts request) as Hp by apply sort_Slice_Permutation.
  assert (∀ part, part ∈ parts → (0 <= cp_PartNumber part < 10 ^ 8)%Z) as Hn by (intros part; rewrite Hp; revert part; by apply Forall_forall).
  apply commit_joins in Hrun as (contents & Hm & Hb).
  2: { intros i j (p & -> & Hi)%list_elem_of_fmap (q & -> & Hj)%list_elem_of_fmap. apply block_id_length; by apply Hn. }
  eexists _, parts, contents. split_and!; [done|apply NormalizedMultipartParts_sorted| | |exact Hb].
  - intros p q Hi Hj E. apply (block_id_inj (cmr_UploadID request)); [by apply Hn..|done].
  - rewrite mapM_compose in Hm. exact Hm.
Qed.
End uploads.

(** ** Executions *)
Section sample.
Record azure_world := mkAzureWorld { aw_staged : gmap (string * string) content; aw_blobs : gmap string content }.
Definition commit_blocks (url : string) (_ : string) (ids : list string) : service azure_world unit := λ s,
  match mapM (λ id, aw_staged s !! (url, id)) ids with
  | Some contents => (mkAzureWorld (aw_staged s) (<[url := concat contents]> (aw_blobs s)), Ok tt)
  | None => (s, Err (EText "InvalidBlockList"))
  end.
(** A signature that shows what was signed. *)
#[local] Instance sample_azure : AzureLibrary azure_world string := {|
  NewSharedKeyCredential name key := Ok key; azure_Now _ := 0%Z; SignWithSharedKey v _ := Ok ("sr=" +:+ QueryEscape (bsv_BlobName v));
  NewBlockBlobClient _ _ := Ok tt; azure_CommitBlockList := commit_blocks; NewAzureClient _ _ := Ok tt;
  azure_DeleteBlob service _ _ _ := fail (EText ("no host " +:+ service)); bloberror_NotFound _ := false; azure_ErrorCode _ := None;
  azure_NewString s := (s, "u1") |}.
#[local] Instance azure_credentials : CredentialLookup azure_world := λ bucket _, Ok (Some (mkCredential bucket bucket "azure" "" "acct" "key" "")).
#[local] Instance azure_laws : AzureLaws aw_staged aw_blobs.
Proof.
  split. intros url key ids s s' Hc _. revert Hc. change (azure_CommitBlockList url key ids s) with (commit_blocks url key ids s). unfold commit_blocks.
  destruct (mapM _ ids) as [contents|]; [|done]. intros [= <-]. by exists contents.
Qed.
Definition blob_address : string := "https://acct.blob.db.windows.net/b/run/f".
Definition azure_start : @azure_backend azure_world string :=
  mkAzure ∅ (mkAzureWorld {[(blob_address, azureBlockID "u1" 1) := chars "ab"; (blob_address, azureBlockID "u1" 2) := chars "cd"]} ∅).
Definition azure_request : CompleteMultipartRequest := mkCompleteMultipartRequest (mkObjectTarget "b" "run/f") "u1" [mkCompletedPart 2 "x"; mkCompletedPart 1 "y"].
Lemma azure_upload_assembled_witness :
  ∃ parts contents, parts ≡ₚ cmr_Parts azure_request ∧ StronglySorted (λ p q, (cp_PartNumber p <= cp_PartNumber q)%Z) parts ∧
    aw_blobs (ab_outside (azure_CompleteMultipartUpload azure_request azure_start).1) !! blob_address = Some contents ∧ contents = chars "abcd".
Proof.
  assert ((azure_CompleteMultipartUpload azure_request azure_start).2 = Ok tt) as Hr by (vm_compute; reflexivity).
  destruct (azure_CompleteMultipartUpload azure_request azure_start) as [b' r] eqn:E. simpl in Hr. subst r.
  destruct (azure_upload_assembled aw_staged aw_blobs azure_request azure_start b') as (service & parts & contents & Hp & Hs & _).
  - repeat constructor; cbn; lia.
  - exact E.
  - exists parts, (chars "abcd"). split; [exact Hp|]. split; [exact Hs|]. split; [|reflexivity].
    assert (bool_decide (aw_blobs (ab_outside (azure_CompleteMultipartUpload azure_request azure_start).1) !! blob_address = Some (chars "abcd")) = true) as Hb
      by (vm_compute; reflexivity).
    apply bool_decide_eq_true in Hb. rewrite E in Hb. exact Hb.
Defined.
(** Without an endpoint blobs are signed, and blocks committed, at a host that is not the one deletions go to. *)
Example other_host : azureServiceURL "acct" "" = "https://acct.blob.db.windows.net" ∧ azureDeleteServiceURL "acct" "" = "https://acct.blob.core.windows.net".
Proof. done. Qed.
(** The signature is for a name with its empty segments, the address is without them. *)
Example unsigned_address :
  (azure_SignURL (mkObjectTarget "b" "run//f") (mkAccessOptions 0 "" "") azure_start).2 = Ok (blob_address +:+ "?sr=run%2F%2Ff").
Proof. by vm_compute. Qed.
(** The address of a part is that of the blob, with the block to write. *)
Example part_address :
  (azure_SignMultipartPart (mkMultipartPartRequest (mkObjectTarget "b" "run/f") "u1" 1) azure_start).2
  = Ok (blob_address +:+ "?blockid=dTE6MDAwMDAwMDE%3D&comp=block&sr=run%2Ff").
Proof. by vm_compute. Qed.
End sample.
